(* ===== verification/_CoqProject ===== *)
-Q . S2P
Prelude.v
GoStrings.v
GoNet.v
Prog.v
RawTree.v
ConfigData.v
FS.v
CloudInitEnv.v
Cmdline.v
DiskConfig.v
Util.v
ProjectDag.v
ProjectExec.v
Interpolation.v
ServiceMerge.v
ServiceStore.v
NetLinks.v
Netconf.v
NetCache.v
Debian.v
InterfaceGraph.v
VMware.v
CloudInitSave.v
Compose.v
ServiceConvert.v
Conc.v
Docker.v
DockerService.v
SystemService.v
OS.v
Dfs.v
InitConfig.v
SwitchRoot.v
Boot.v
BootSafety.v
Power.v
Respawn.v
Control.v
CloudInitExecute.v
Engine.v
ConsoleInit.v
GoMd5.v
GoAscii.v
Install.v
Commands.v
UserDocker.v
NetworkCommand.v
HttpClient.v
Datasource.v
VMwareSource.v
Sources.v
ComposeFormat.v
Schemas.v
ComposeValidate.v
ProjectOps.v
ServiceApp.v
Logging.v
Lookup.v
Regexp.v
CloudConfig.v
CloudInitSystem.v
CloudInitValidate.v
Stage.v
ContainerInfo.v
ComposeClient.v
SaveMain.v
CommandTable.v
ComposeApp.v
Loading.v
