(* ===== verification/Prelude.v ===== *)
(** * BurmillaOS: a verification development

    BurmillaOS runs every system service in a container, below a small init
    that reads a configuration, brings the network up and starts the services.
    This library models the parts of the program that decide things, as functions
    and step relations of Rocq, and proves what they promise. Names under [src/]
    are those of the repository; a definition has the name of the Go function it
    is translated from, and a helper that stands for a part of a function (a loop
    body, a branch) is placed before it.

    ** How the parts interact

    The command line of the kernel ([config/cmdline]) and the files under
    /var/lib/rancher/conf ([config/disk.go]) are layers of one tree of
    configuration, merged by [pkg/util]. Cloud-init adds layers and writes files
    ([config/cloudinit]). The network part of the configuration is applied by
    [pkg/netconf]; service definitions are loaded over the network
    ([pkg/util/network]), interpolated and merged ([pkg/libcompose/config]) and
    started in the order of their dependencies ([pkg/libcompose/project],
    [pkg/docker/service.go]). The init process ([cmd/init], [pkg/init]) brings the
    machine to the point where all this runs: it mounts file systems, moves to the
    root of the state partition, runs cloud-init and launches the daemon
    ([pkg/dfs]); [cmd/power] brings it down again. The control commands
    ([cmd/control]) change the configuration and drive the projects: they switch
    consoles and engines, upgrade the system and install it on a disk. The binary
    is one for all: [main.go] chooses by the name it is called with.

    ** Files

    - [Prelude]: Go results (value, error, panic), loops, iteration orders of
      maps, sorting; the hint database [burmilla].
    - [GoStrings], [GoNet]: what the source uses of Go's packages strings, utf8,
      strconv, path and net.
    - [Prog]: programs that call their surroundings, with a calculus of their
      behaviours ([wp]) and an evaluator ([run]).
    - [RawTree]: configuration trees ([pkg/util/util.go]: Copy, Merge).
    - [ConfigData]: dotted keys, private keys, export, key conversion
      ([config/data_funcs.go], [config/config.go], [config/validate.go]).
    - [FS]: a file tree with failing calls and a history of states; atomic
      writes ([pkg/util/util.go], [config/cloudinit/system/file.go]).
    - [CloudInitEnv]: substitutions and environment files
      ([config/cloudinit/initialize/env.go], [config/cloudinit/system/env_file.go]).
    - [Cmdline]: [config/cmdline/cmdline.go].
    - [DiskConfig]: loading and saving all layers ([config/disk.go],
      [config/config.go]).
    - [Util]: container ids, pairs, command sequences, versions, backoff
      ([pkg/util], [pkg/util/versions]).
    - [ProjectDag], [ProjectExec]: dependencies of services, launch order, and
      the goroutines that run them ([pkg/libcompose/project],
      [pkg/docker/service.go]). A state of [ProjectExec.step] holds where every
      goroutine is.
    - [Interpolation], [ServiceMerge]: variables of compose files and the merging
      of services ([pkg/libcompose/config], [pkg/docker/env.go]).
    - [NetLinks], [Netconf]: links of the kernel and the network configuration
      ([pkg/netconf]), over the calls of [NetLinks.net_call].
    - [NetCache]: resources of the network and their cache ([pkg/util/network]),
      over the files of [FS].
    - [Debian], [InterfaceGraph], [VMware]: Debian network configurations, the
      graph of interfaces built from them and the files of networkd, and the
      interfaces of a VMware guest ([config/cloudinit/network]).
    - [CloudInitSave]: the choice of a data source and what is saved of it
      ([cmd/cloudinitsave/cloudinitsave.go]).
    - [HttpClient], [Datasource], [VMwareSource], [Sources]: the client of HTTP with
      its retries, and the metadata and user data of every data source
      ([config/cloudinit/pkg], [config/cloudinit/datasource]).
    - [SaveMain], [CloudInitExecute]: the commands of cloud-init around these
      ([cmd/cloudinitsave], [cmd/cloudinitexecute]).
    - [Regexp], [CloudConfig], [CloudInitSystem], [CloudInitValidate]: the types of a
      cloud-config with their patterns, which are matched by derivatives; what is made
      of them on the system ([config/cloudinit/config], [system], [initialize]); and
      the validation of a document ([config/cloudinit/config/validate]).
    - [Compose], [Stage]: the project of the system, its reloads, and the staging of
      images ([pkg/compose]).
    - [ServiceStore], [ComposeFormat], [Schemas], [ComposeValidate]: compose files of
      both versions on a store with shared lists and maps, the types of the format,
      the schemas and the validation ([pkg/libcompose/config], [yaml], [config/schema.go]).
    - [ServiceConvert]: from the configuration of a service to that of a container
      ([pkg/libcompose/config/compat.go], [hash.go], [docker/convert.go]).
    - [Conc]: programs that run in parallel, interleaved by a scheduler; a
      rely-guarantee calculus ([rg]), and what holds for all answers ([spec]).
    - [Docker], [DockerService], [SystemService]: the operations on containers, on
      the services of the compose library and on those of the system, as programs
      over the calls of the docker API ([pkg/libcompose/docker], [pkg/docker]).
    - [ContainerInfo], [ComposeClient]: what is shown of containers, the terminal of an
      attached one, the context of a build and the settings of a client
      ([pkg/libcompose/docker], [docker/builder], [docker/client]).
    - [ProjectOps], [ServiceApp], [ComposeApp]: the operations of a project over rounds,
      its events and its context, the commands on services, the loggers and tables
      ([pkg/libcompose/project], [cli], [cmd/control/service]).
    - [Lookup]: variables, files, credentials and clients ([pkg/libcompose/lookup],
      [pkg/docker]).
    - [OS]: the calls of the operating system; mounts, block devices and scripts
      ([pkg/util/util_linux.go]).
    - [Dfs]: preparing a root file system and launching docker ([pkg/dfs]).
    - [InitConfig]: what the boot reads of the configuration, the arguments of the
      daemons ([config/docker_config.go]) and the chain of steps
      ([config/data_funcs.go]).
    - [SwitchRoot], [Boot], [BootSafety]: the steps of the init process and their
      chain ([pkg/init], [pkg/sysinit], [cmd/init]), and what holds of all of it.
      A step takes and returns the variables of the packages, a configuration or
      nil, and an error; an exit of the process is a panic that nothing recovers.
    - [Power]: shutdown, reboot and kexec ([cmd/power]).
    - [Respawn]: the goroutines that restart the console processes
      ([cmd/respawn]), as a state machine.
    - [NetworkCommand]: what the network service does around [Netconf]
      ([cmd/network], [pkg/hostname]).
    - [Control], [Engine], [Commands], [UserDocker], [ConsoleInit], [Install]: the control
      commands, over one set of calls ([cmd/control]); [GoMd5] and [GoAscii] are the hash
      and the table of characters an installation needs.
    - [Logging], [CommandTable]: the entry points, the logs, and the commands with their
      flags ([main.go], [cmd/control], [pkg/log]).
    - [Loading]: the strict and the lenient load of a configuration and the load of a
      compose file ([config/disk.go], [pkg/libcompose/config/merge.go]).

    ** What the theorems show

    - Trees and layers: what a merged configuration holds at every path, in every
      order of iteration; layers can be grouped; the configuration is the merge of
      the layers that can be read; user data wins over metadata; exports hide the
      credentials; a saved command line comes back; setting a key is read back.
    - Files: a crash or a failure at any call leaves the old or the complete new
      file, for atomic writes, cloud-init files and cache entries.
    - Text: the kernel command line splits into its words; the interpolation of a
      line implements the grammar of references; environment files are updated
      idempotently; pairs and versions.
    - Services: a launch order is topological and drops optional dependencies
      only; the goroutines of a round cannot deadlock and finish; an action runs
      after what it depends on; restarts are finitely many.
    - Containers: in every interleaving and for all answers of the daemon, a
      container is only removed after its replacement exists; the steps of a
      replacement; what the labels of a service do; new names are new; which ports and
      mounts of a service its container gets; a reload of what is known changes
      nothing.
    - Boot: the root is only left, and directories only deleted, when the state
      partition is mounted and /usr was copied; the files of the early boot
      survive; the cgroup hierarchy is mounted over nothing else; defaults replace
      no file; the daemon is launched last and once; what happens when a step fails.
    - The end: which containers a shutdown stops, in which order, and what may only
      happen in its own container; how often a console process is restarted.
    - Cloud-init: which data source is chosen, and what is saved of it; how often a
      document is asked for, with which waits; how the interfaces of a droplet are
      numbered; that keys are only added; that the update file is the same after a
      second run; that the patterns accept the words of their expression, and that a
      value of the types passes the checks of the structure; that a strict load gives
      what a lenient one does, when no file is passed over.
    - Control: the order in which a switch of engines and an upgrade do what they do,
      and that a failed one leaves the configuration; that an upgrade formats
      nothing, that no disk is written that is mounted, and which parameters of the
      kernel an installation leaves; that the file of engines comes back; which images are
      preloaded; which processes the console starts; which resolv.conf is written.
    - Compose files: the merge in the store reads as the merge of values; what the
      wrapper of a service does is the step of the rounds; which daemon is asked for
      an image that is staged; the lines of the loggers are aligned; commands and
      flags have one meaning each.
    - Interfaces: the graph of interfaces is closed under its links, its depths
      are computed unless bonds are slaves of each other, and neither a Debian
      configuration nor the description of a VMware guest causes a panic or an
      endless loop.
    - Network: which entry a link gets; configured commands frame what they are
      configured for; a bond's mode comes first; link-local addresses are in range
      and probed before.
    - Defects, stated as theorems about what the code does: the trailing dollar,
      errors lost and cycles followed in [extends], results that depend on the
      order of map iteration, the network service that depends on itself, the
      cache entry that is lost, bonds that overflow the stack, pulls that fail and are
      reported as done, one-off runs that are a nil pointer, an MTU that is never
      taken, a second recovery console, a stale index of the console, a respawn that
      waits for comments.

    ** Bounds and fuel

    Recursion that is not structural takes fuel. [parse_line] and [format_lines]
    get the length of their text, and consume at least one byte a turn;
    [startService] gets one more than the number of services, and each nested
    call has launched one more ([launch_all] theorems show that it always
    returns); [traverse] is proved to end within a number of rounds that grows
    with the number of services. [ServiceStore.parse] follows [extends] chains, which
    need not end: its theorems say so. [try_link_local] draws random numbers until
    one is not reserved, and its theorem holds for every fuel. [setDepth] follows
    children, which need not end: with bonds that are ranked some fuel is enough and
    any more gives the same, without it no fuel is. The counting loops of [VMware]
    end within one turn more than the description has keys. The folders below
    /usr/etc/docker are copied as deep as a bound says, and the logs of a container
    are read as often; the theorems about them hold for every bound. Integers of the
    machine are [Z] with the bounds of [strconv] written out where they matter.

    ** What is not modelled

    Third-party libraries are parameters, named where they are used: the YAML
    decoder, the glob matcher, the shell lexer, the netlink parser, MD5, SHA-1, the
    parsers of docker for ports, devices and image names. Log output is left out,
    and so are terminals and the text of error messages that quote the input.
    The kernel and the processes that are started answer as they like: theorems
    about [OS], [Dfs] and the boot hold for all their answers. The docker daemon is not
    modelled: theorems hold for all its answers, and [Docker.Sim] is a small one for
    examples. The documents that libraries decode (JSON, YAML, OVF, URLs, gzip,
    templates) are given as what they decode to, and the conversion of a tree to a
    typed configuration is a parameter. Of the command-line library only the values of
    the flags are there, of [tabwriter] only its input. The functions of [pkg/log] that
    hand a message on, the generated tests, the code that is only compiled for other
    systems and the scripts are left out, as is everything under [vendor] and
    [third_party]. Services that are added to a project while a round runs are not
    modelled in [ProjectExec].

    ** This file

    The shared prelude: the result monad of Go calls, hint databases, tactics and
    generic lemmas on lists, options and maps. *)

From stdpp Require Import prelude gmap strings pretty sorting list.

(** ** Go results

    A Go call of type [(T, error)] returns a value or an error; it can also
    panic (an index out of range, a failed type assertion, a nil map write). *)
Inductive result (A : Type) : Type :=
  | Ok (a : A)
  | Err (msg : string)
  | Panic (msg : string).
Arguments Ok {A} _.
Arguments Err {A} _%_string.
Arguments Panic {A} _%_string.

Global Instance result_ret : MRet result := λ A a, Ok a.
Global Instance result_bind : MBind result := λ A B f m,
  match m with
  | Ok a => f a
  | Err e => Err e
  | Panic e => Panic e
  end.
Global Instance result_fmap : FMap result := λ A B f m,
  match m with
  | Ok a => Ok (f a)
  | Err e => Err e
  | Panic e => Panic e
  end.

Global Instance result_eq_dec {A} `{EqDecision A} : EqDecision (result A).
Proof. solve_decision. Defined.

Definition is_ok {A} (r : result A) : bool :=
  match r with Ok _ => true | _ => false end.

Definition is_panic {A} (r : result A) : bool :=
  match r with Panic _ => true | _ => false end.

(** ** Tactics and hint databases of the development *)

Create HintDb burmilla discriminated.
#[export] Hint Constants Opaque : burmilla.
#[export] Hint Variables Opaque : burmilla.

(** Unfold the monad and split on the intermediate results of a hypothesis. *)
Ltac inv_result :=
  repeat match goal with
  | H : mbind _ _ = Ok _ |- _ => unfold mbind, result_bind in H
  | H : fmap _ _ = Ok _ |- _ => unfold fmap, result_fmap in H
  | H : mret _ = Ok _ |- _ => unfold mret, result_ret in H
  | H : match ?m with Ok _ => _ | Err _ => _ | Panic _ => _ end = Ok _ |- _ =>
      let E := fresh "E" in destruct m eqn:E; [| discriminate H | discriminate H]
  | H : Ok _ = Ok _ |- _ => injection H as H; try subst
  | H : Err _ = Ok _ |- _ => discriminate H
  | H : Panic _ = Ok _ |- _ => discriminate H
  end.

(** Case analysis on every test and match left in the goal. *)
Ltac cases :=
  repeat (case_match || case_decide); simplify_eq/=; try done.

(** ** Monadic iteration: a Go [for ... range] loop that stops at an error *)

Section foldM.
Context {S A : Type} (f : S → A → result S).

Fixpoint foldM (s : S) (l : list A) : result S :=
  match l with
  | [] => Ok s
  | x :: l => s' ← f s x; foldM s' l
  end.

Lemma foldM_cons s x l :
  foldM s (x :: l) =
  match f s x with Ok s' => foldM s' l | Err e => Err e | Panic e => Panic e end.
Proof. done. Qed.

Lemma foldM_app s l1 l2 :
  foldM s (l1 ++ l2) = s' ← foldM s l1; foldM s' l2.
Proof.
  revert s; induction l1 as [|x l1 IH]; intros s; simpl; [done|].
  unfold mbind, result_bind in *. destruct (f s x); [apply IH|done|done].
Qed.

(** An invariant of the body is an invariant of the loop. *)
Lemma foldM_inv (P : S → Prop) l s s' :
  (∀ s x s', P s → f s x = Ok s' → P s') →
  P s → foldM s l = Ok s' → P s'.
Proof.
  intros Hstep; revert s; induction l as [|x l IH]; intros s Hs H; simpl in H.
  - by simplify_eq.
  - inv_result. eauto.
Qed.
End foldM.

(** [mapM] for results: every element is converted, or the first failure is
    the failure of the whole. *)
Fixpoint mapR {A B} (f : A → result B) (l : list A) : result (list B) :=
  match l with
  | [] => Ok []
  | x :: l => y ← f x; ys ← mapR f l; Ok (y :: ys)
  end.

Lemma mapR_Forall2 {A B} (f : A → result B) l k :
  mapR f l = Ok k ↔ Forall2 (λ x y, f x = Ok y) l k.
Proof.
  revert k; induction l as [|x l IH]; intros k; simpl.
  - split; [intros; by simplify_eq|by inversion 1].
  - split.
    + intros H. inv_result. constructor; [done|]. by apply IH.
    + inversion 1 as [|?? ? ? Hx Hl]; subst. rewrite Hx; simpl.
      unfold mbind, result_bind. apply IH in Hl. by rewrite Hl.
Qed.

(** ** Code that does not panic *)

Definition no_panic {A} (r : result A) : Prop := is_panic r = false.

Lemma no_panic_bind {A B} (m : result A) (f : A → result B) :
  no_panic m → (∀ a, m = Ok a → no_panic (f a)) → no_panic (m ≫= f).
Proof. unfold no_panic. destruct m; simpl; auto. Qed.

Lemma no_panic_fmap {A B} (f : A → B) (m : result A) : no_panic m → no_panic (f <$> m).
Proof. by destruct m. Qed.

Lemma no_panic_foldM {S A} (f : S → A → result S) s l :
  (∀ s x, x ∈ l → no_panic (f s x)) → no_panic (foldM f s l).
Proof.
  revert s. induction l as [|x l IH]; intros s Hf; [done|]. cbn [foldM].
  apply no_panic_bind; [apply Hf, list_elem_of_here|]. intros s' _.
  apply IH. intros s0 y Hy. by apply Hf, list_elem_of_further.
Qed.

Lemma no_panic_mapR {A B} (f : A → result B) l :
  (∀ x, x ∈ l → no_panic (f x)) → no_panic (mapR f l).
Proof.
  induction l as [|x l IH]; intros Hf; [done|]. cbn [mapR].
  apply no_panic_bind; [apply Hf, list_elem_of_here|]. intros y _.
  apply no_panic_bind; [|done]. apply IH. intros z Hz. by apply Hf, list_elem_of_further.
Qed.
#[export] Hint Resolve no_panic_bind no_panic_fmap no_panic_foldM no_panic_mapR : burmilla.

(** ** Integers of the machine *)

(** An int64, and so a [time.Duration], wraps around. *)
Definition wrap64 (x : Z) : Z := ((x + 2 ^ 63) mod 2 ^ 64 - 2 ^ 63)%Z.

Lemma wrap64_small x : (- 2 ^ 63 ≤ x < 2 ^ 63)%Z → wrap64 x = x.
Proof. intros Hx. unfold wrap64. rewrite Z.mod_small by lia. lia. Qed.

(** ** Iteration order of Go maps

    [range m] visits the entries of a map in an unspecified order: an order is
    any enumeration of the entries without repetition. *)
Definition enumerates {K V} `{Countable K} (l : list (K * V)) (m : gmap K V) : Prop :=
  l ≡ₚ map_to_list m.

Section enumerates.
Context {K V : Type} `{Countable K}.
Implicit Types (l : list (K * V)) (m : gmap K V).

Lemma enumerates_map_to_list m : enumerates (map_to_list m) m.
Proof. by unfold enumerates. Qed.

Lemma enumerates_elem l m k v :
  enumerates l m → (k, v) ∈ l ↔ m !! k = Some v.
Proof. unfold enumerates. intros ->. apply elem_of_map_to_list. Qed.

Lemma enumerates_NoDup l m : enumerates l m → NoDup l.*1.
Proof. unfold enumerates. intros ->. apply NoDup_fst_map_to_list. Qed.

Lemma enumerates_list_to_map l m : enumerates l m → list_to_map l = m.
Proof.
  intros Hl. rewrite <-(list_to_map_to_list m).
  apply list_to_map_proper; [by eapply enumerates_NoDup|done].
Qed.
End enumerates.
#[export] Hint Resolve enumerates_map_to_list enumerates_NoDup : burmilla.

(** [sort.Strings]: byte-wise lexicographic order. *)
Definition sort_strings (l : list string) : list string := merge_sort String.le l.

Lemma sort_strings_perm l : sort_strings l ≡ₚ l.
Proof. apply merge_sort_Permutation. Qed.

Lemma sort_strings_sorted l : StronglySorted String.le (sort_strings l).
Proof. apply (StronglySorted_merge_sort String.le). Qed.

(** Sorting forgets the order of enumeration. *)
Lemma sort_strings_proper l k : l ≡ₚ k → sort_strings l = sort_strings k.
Proof.
  intros Hlk. apply (StronglySorted_unique String.le).
  - apply sort_strings_sorted.
  - apply sort_strings_sorted.
  - by rewrite !sort_strings_perm.
Qed.

Global Instance sort_strings_Proper :
  Proper ((≡ₚ) ==> (=)) sort_strings := sort_strings_proper.

(** The sorted keys of a map, however [range] enumerates it. *)
Definition sorted_keys {V} (m : gmap string V) : list string :=
  sort_strings (map_to_list m).*1.

Lemma sorted_keys_enumerates {V} l (m : gmap string V) :
  enumerates l m → sort_strings l.*1 = sorted_keys m.
Proof. unfold enumerates, sorted_keys. intros Hl. by rewrite Hl. Qed.

Lemma elem_of_sorted_keys {V} (m : gmap string V) k :
  k ∈ sorted_keys m ↔ is_Some (m !! k).
Proof.
  unfold sorted_keys. rewrite sort_strings_perm, list_elem_of_fmap. split.
  - intros [[k' v] [-> Hv%elem_of_map_to_list]]. by exists v.
  - intros [v Hv]. exists (k, v). by rewrite elem_of_map_to_list.
Qed.

Lemma NoDup_sorted_keys {V} (m : gmap string V) : NoDup (sorted_keys m).
Proof. unfold sorted_keys. rewrite sort_strings_perm. apply NoDup_fst_map_to_list. Qed.
