(* ===== verification/GoStrings.v ===== *)
(** * The parts of Go's [strings], [strconv], [path] and [unicode] packages the
    program uses, on byte strings.

    A Go string is a sequence of bytes: the [string] of the Standard Library.
    Functions that Go defines on runes ([TrimSpace], [Fields], [FieldsFunc])
    decode UTF-8 first, with the width-1 replacement rune for invalid bytes. *)

From Stdlib Require Export Ascii.
From stdpp Require Import prelude strings pretty list.
From S2P Require Import Prelude.

Local Open Scope string_scope.

(** Concatenation reduces when its first argument is a constructor. *)
Global Arguments String.append !_ _ / : simpl nomatch.

(** ** Basic facts on concatenation *)

Lemma app_empty_r (s : string) : s +:+ "" = s.
Proof. induction s; simpl; congruence. Qed.

Lemma app_assoc_s (s t u : string) : (s +:+ t) +:+ u = s +:+ (t +:+ u).
Proof. induction s; simpl; congruence. Qed.

Lemma length_app_s (s t : string) :
  String.length (s +:+ t) = String.length s + String.length t.
Proof. induction s; simpl; congruence. Qed.

Global Instance string_app_inj_l s : Inj (=) (=) (String.append s).
Proof. induction s; intros ?? E; simpl in *; [done|]. simplify_eq. auto. Qed.

Create Rewrite HintDb go_strings.
#[export] Hint Rewrite app_empty_r app_assoc_s length_app_s : go_strings.

Fixpoint skipn_s (n : nat) (s : string) : string :=
  match n, s with
  | S n, String _ s => skipn_s n s
  | _, _ => s
  end.

Fixpoint firstn_s (n : nat) (s : string) : string :=
  match n, s with
  | S n, String c s => String c (firstn_s n s)
  | _, _ => ""
  end.

Lemma firstn_skipn_s n s : firstn_s n s +:+ skipn_s n s = s.
Proof. revert s; induction n; intros [|c s]; simpl; congruence. Qed.

Lemma firstn_s_length n s : (n ≤ String.length s)%nat → String.length (firstn_s n s) = n.
Proof. revert s; induction n as [|n IH]; intros [|c s] H; simpl in *; try lia. by rewrite IH by lia. Qed.

Lemma skipn_s_app s t : skipn_s (String.length s) (s +:+ t) = t.
Proof. by induction s. Qed.

(** The occurrences of a byte. *)
Fixpoint has_char (c : ascii) (s : string) : bool :=
  match s with
  | "" => false
  | String a s => bool_decide (a = c) || has_char c s
  end.
Arguments has_char _%_char _%_string.

Lemma has_char_app c s t : has_char c (s +:+ t) = has_char c s || has_char c t.
Proof. induction s; simpl; [done|]. by rewrite IHs, orb_assoc. Qed.

(** ** Prefixes and suffixes *)

Definition HasPrefix (s p : string) : bool := String.prefix p s.

Fixpoint HasSuffix (s p : string) : bool :=
  bool_decide (s = p) ||
  match s with "" => false | String _ s => HasSuffix s p end.

Lemma HasPrefix_spec s p : HasPrefix s p = true ↔ ∃ t, s = p +:+ t.
Proof.
  unfold HasPrefix. revert s; induction p as [|c p IH]; intros [|a s]; simpl.
  - split; [by exists ""|done].
  - split; [by eexists|done].
  - split; [done|by intros [??]].
  - destruct (ascii_dec c a) as [->|Hne].
    + rewrite IH. split; intros [t Ht]; exists t; by simplify_eq.
    + split; [done|]. intros [t Ht]; by simplify_eq.
Qed.

Lemma HasPrefix_app p s : HasPrefix (p +:+ s) p = true.
Proof. apply HasPrefix_spec. by exists s. Qed.

Lemma HasPrefix_refl p : HasPrefix p p = true.
Proof. apply HasPrefix_spec. exists "". by rewrite app_empty_r. Qed.

Lemma HasSuffix_spec s p : HasSuffix s p = true ↔ ∃ t, s = t +:+ p.
Proof.
  induction s as [|c s IH]; simpl.
  - rewrite orb_false_r, bool_decide_eq_true. split.
    + intros <-. by exists "".
    + intros [[|??] ?]; by simplify_eq.
  - rewrite orb_true_iff, bool_decide_eq_true, IH. split.
    + intros [<-|[t ->]]; [by exists ""|by exists (String c t)].
    + intros [[|a t] Ht]; simplify_eq/=; [by left|right; by exists t].
Qed.

Global Arguments HasPrefix : simpl never.

Definition TrimPrefix (s p : string) : string :=
  if HasPrefix s p then skipn_s (String.length p) s else s.

Definition TrimSuffix (s p : string) : string :=
  if HasSuffix s p then firstn_s (String.length s - String.length p) s else s.

Lemma firstn_s_app s t : firstn_s (String.length s) (s +:+ t) = s.
Proof. induction s; simpl; [by destruct t|by f_equal]. Qed.

Lemma TrimSuffix_app s p : TrimSuffix (s +:+ p) p = s.
Proof.
  unfold TrimSuffix. rewrite (proj2 (HasSuffix_spec _ _)) by eauto.
  rewrite length_app_s, Nat.add_sub. apply firstn_s_app.
Qed.

Lemma TrimPrefix_app s p : TrimPrefix (p +:+ s) p = s.
Proof. unfold TrimPrefix. by rewrite HasPrefix_app, skipn_s_app. Qed.

(** [strings.TrimRight s cutset]: drop the trailing bytes that are in the
    (ASCII) cutset. *)
Fixpoint TrimRight (s cutset : string) : string :=
  match s with
  | "" => ""
  | String c s =>
      match TrimRight s cutset with
      | "" => if has_char c cutset then "" else String c ""
      | t => String c t
      end
  end.

(** ** Searching *)

(** The text before and after the first occurrence of [sep]. *)
Fixpoint cut (sep s : string) : option (string * string) :=
  if HasPrefix s sep then Some ("", skipn_s (String.length sep) s)
  else match s with
       | "" => None
       | String c s => prod_map (String c) id <$> cut sep s
       end.

Definition Contains (s sub : string) : bool := bool_decide (is_Some (cut sub s)).

Lemma cut_Some sep s a b : cut sep s = Some (a, b) → s = a +:+ sep +:+ b.
Proof.
  revert a b; induction s as [|c s IH]; intros a b; cbn [cut].
  - case_match eqn:E; [|done]. intros; simplify_eq/=.
    apply HasPrefix_spec in E as [t Ht]. rewrite Ht at 1. rewrite Ht.
    by rewrite skipn_s_app.
  - case_match eqn:E.
    + intros; simplify_eq/=. apply HasPrefix_spec in E as [t Ht].
      rewrite Ht, skipn_s_app. done.
    + destruct (cut sep s) as [[a' b']|]; intros; simplify_eq/=.
      f_equal. by apply IH.
Qed.

Lemma cut_app sep a b : is_Some (cut sep (a +:+ sep +:+ b)).
Proof.
  induction a as [|c a IH]; simpl.
  - destruct sep as [|c sep]; simpl.
    + by destruct b; eexists.
    + rewrite (HasPrefix_app (String c sep) b : HasPrefix (String c (sep +:+ b)) _ = _).
      by eexists.
  - case_match; [by eexists|]. destruct IH as [[? ?] ->]. by eexists.
Qed.

Lemma Contains_spec s sub : Contains s sub = true ↔ ∃ a b, s = a +:+ sub +:+ b.
Proof.
  unfold Contains. rewrite bool_decide_eq_true. split.
  - intros [[a b] Hc%cut_Some]. eauto.
  - intros (a & b & ->). apply cut_app.
Qed.

(** ** Splitting and joining

    Every separator the program splits on is one byte. *)

Fixpoint cut_char (c : ascii) (s : string) : option (string * string) :=
  match s with
  | "" => None
  | String a s =>
      if decide (a = c) then Some ("", s)
      else prod_map (String a) id <$> cut_char c s
  end.
Arguments cut_char _%_char _%_string.

(** [strings.SplitN s c n] for [n ≥ 0]. *)
Fixpoint SplitN (s : string) (c : ascii) (n : nat) : list string :=
  match n with
  | 0 => []
  | S m =>
      match m, cut_char c s with
      | 0, _ | _, None => [s]
      | _, Some (a, b) => a :: SplitN b c m
      end
  end.
Arguments SplitN _%_string _%_char _%_nat.

Definition cons_head (a : ascii) (l : list string) : list string :=
  match l with
  | [] => [String a ""]
  | h :: t => String a h :: t
  end.

Fixpoint Split (s : string) (c : ascii) : list string :=
  match s with
  | "" => [""]
  | String a s => if decide (a = c) then "" :: Split s c else cons_head a (Split s c)
  end.
Arguments Split _%_string _%_char.

Fixpoint Join (l : list string) (sep : string) : string :=
  match l with
  | [] => ""
  | [s] => s
  | s :: l => s +:+ sep +:+ Join l sep
  end.

Lemma Split_not_nil s c : Split s c ≠ [].
Proof. destruct s; simpl; [done|]. case_decide; [done|]. by destruct (Split s c). Qed.

Lemma Join_cons s l sep : l ≠ [] → Join (s :: l) sep = s +:+ sep +:+ Join l sep.
Proof. by destruct l. Qed.

Lemma Join_cons_head a l sep : l ≠ [] → Join (cons_head a l) sep = String a (Join l sep).
Proof. destruct l as [|h [|h' t]]; done. Qed.

(** Splitting and joining are inverse. *)
Lemma Join_Split s c : Join (Split s c) (String c "") = s.
Proof.
  induction s as [|a s IH]; [done|]. cbn [Split]. case_decide; subst.
  - rewrite Join_cons by apply Split_not_nil. simpl. by rewrite IH.
  - rewrite Join_cons_head by apply Split_not_nil. by rewrite IH.
Qed.

Lemma Split_no_sep s c : Forall (λ p, has_char c p = false) (Split s c).
Proof.
  induction s as [|a s IH]; simpl; [by repeat constructor|].
  case_decide; [by constructor|].
  destruct (Split s c) as [|h t] eqn:E; [by destruct (Split_not_nil s c)|].
  inversion_clear IH. constructor; [|done]. simpl. by rewrite bool_decide_eq_false_2.
Qed.

Lemma Split_single s c : has_char c s = false → Split s c = [s].
Proof.
  induction s as [|a s IH]; [done|]. simpl. rewrite orb_false_iff, bool_decide_eq_false.
  intros [Ha Hs]. rewrite decide_False by done. by rewrite IH.
Qed.

Lemma Split_app s t c :
  has_char c s = false → Split (s +:+ String c t) c = s :: Split t c.
Proof.
  induction s as [|a s IH]; simpl; [by rewrite decide_True|].
  rewrite orb_false_iff, bool_decide_eq_false. intros [Ha Hs].
  rewrite decide_False by done. by rewrite IH.
Qed.

Lemma Split_Join l c :
  l ≠ [] → Forall (λ p, has_char c p = false) l → Split (Join l (String c "")) c = l.
Proof.
  intros Hl Hf; induction Hf as [|s l Hs Hf IH]; [done|].
  destruct l as [|s' l]; [by apply Split_single|].
  rewrite Join_cons by done.
  change (Split (s +:+ String c (Join (s' :: l) (String c ""))) c = s :: s' :: l).
  rewrite Split_app by done. by rewrite IH.
Qed.

Lemma cut_char_Some c s a b :
  cut_char c s = Some (a, b) ↔ s = a +:+ String c b ∧ has_char c a = false.
Proof.
  revert a b; induction s as [|x s IH]; intros a b; simpl.
  - split; [done|]. by intros [?%(f_equal String.length) _]; rewrite length_app_s in *;
      simpl in *; lia.
  - case_decide as Hx; subst.
    + split; [intros; by simplify_eq|]. destruct a as [|y a]; simpl.
      * by intros [? _]; simplify_eq.
      * intros [? Ha]; simplify_eq. by rewrite bool_decide_eq_true_2 in Ha.
    + destruct (cut_char c s) as [[a' b']|] eqn:E; simpl.
      * split.
        -- injection 1 as <- <-. destruct (proj1 (IH a' b') eq_refl) as [-> Ha]. simpl.
           by rewrite bool_decide_eq_false_2.
        -- destruct a as [|y a]; simpl; [intros [? _]; by simplify_eq|].
           intros [? Ha]; simplify_eq. rewrite orb_false_iff in Ha.
           assert (Some (a', b') = Some (a, b)) by (apply IH; tauto). by simplify_eq.
      * split; [done|]. destruct a as [|y a]; simpl; [intros [? _]; by simplify_eq|].
        intros [? Ha]; simplify_eq. rewrite orb_false_iff in Ha.
        assert (None = Some (a, b)) by (apply IH; tauto). done.
Qed.

Lemma cut_char_None c s : cut_char c s = None ↔ has_char c s = false.
Proof.
  induction s as [|x s IH]; simpl; [done|]. case_decide; subst.
  - by rewrite bool_decide_eq_true_2.
  - rewrite bool_decide_eq_false_2 by done. simpl. rewrite <-IH.
    by destruct (cut_char c s) as [[]|].
Qed.

Lemma cut_char_app c a b : has_char c a = false → cut_char c (a +:+ String c b) = Some (a, b).
Proof.
  induction a as [|x a IH]; simpl; [by rewrite decide_True|].
  intros [Hx Ha]%orb_false_elim. apply bool_decide_eq_false in Hx.
  by rewrite decide_False, IH.
Qed.

Lemma SplitN2_pair c k v : has_char c k = false → SplitN (k +:+ String c v) c 2 = [k; v].
Proof. intros Hk. simpl. by rewrite cut_char_app. Qed.

Lemma SplitN2_single c k : has_char c k = false → SplitN k c 2 = [k].
Proof. intros Hk. simpl. by rewrite (proj2 (cut_char_None c k) Hk). Qed.

(** A suffix character is the last one of the right part. *)
Lemma HasSuffix_char_app p s c :
  s ≠ "" → HasSuffix (p +:+ s) (String c "") = HasSuffix s (String c "").
Proof.
  intros Hs. apply eq_true_iff_eq. rewrite !HasSuffix_spec. split.
  - revert s Hs. induction p as [|x p IH]; intros s Hs [t Ht]; [by exists t|].
    destruct t as [|y t]; simpl in Ht; injection Ht as -> Ht; [|apply IH; [done|by exists t]].
    destruct p; simpl in Ht; [by subst|done].
  - intros [t ->]. exists (p +:+ t). by rewrite app_assoc_s.
Qed.

Lemma HasSuffix_char_no s c : has_char c s = false → HasSuffix s (String c "") = false.
Proof.
  intros Hs. apply not_true_iff_false. intros [t ->]%HasSuffix_spec.
  rewrite has_char_app in Hs. simpl in Hs. rewrite bool_decide_true in Hs by done.
  by rewrite orb_true_r in Hs.
Qed.

(** [strings.SplitAfterN s c 2]: the separator stays with the first piece. *)
Definition SplitAfter2 (s : string) (c : ascii) : list string :=
  match cut_char c s with
  | Some (a, b) => [a +:+ String c ""; b]
  | None => [s]
  end.
Arguments SplitAfter2 _%_string _%_char.

(** [strings.Replace s old new -1], for a non-empty [old]: the occurrences are
    replaced from the left, without overlap. *)
Fixpoint replace_from (old new s : string) (skip : nat) : string :=
  match s with
  | "" => ""
  | String c r =>
      match skip with
      | S k => replace_from old new r k
      | 0 =>
          if HasPrefix s old
          then new +:+ replace_from old new r (String.length old - 1)
          else String c (replace_from old new r 0)
      end
  end.

Definition Replace (s old new : string) : string := replace_from old new s 0.

(** Replacing a one-byte separator. *)
Fixpoint replace_char (c : ascii) (new s : string) : string :=
  match s with
  | "" => ""
  | String a s => if decide (a = c) then new +:+ replace_char c new s
                  else String a (replace_char c new s)
  end.
Arguments replace_char _%_char _%_string _%_string.

Lemma Replace_char s c new : Replace s (String c "") new = replace_char c new s.
Proof.
  unfold Replace. induction s as [|a s IH]; [done|].
  cbn [replace_from replace_char]. unfold HasPrefix; simpl.
  destruct (ascii_dec c a), (decide (a = c)); try congruence.
  assert (String.prefix "" s = true) as -> by by destruct s.
  by f_equal.
Qed.

(** ** Runes: UTF-8 decoding *)

Definition byte_of (c : ascii) : Z := Z.of_nat (nat_of_ascii c).

Definition is_cont (b : Z) : bool := (128 <=? b)%Z && (b <=? 191)%Z.

(** [utf8.DecodeRuneInString]: the rune at the start and its width; an invalid
    encoding is the replacement rune with width one. *)
Definition rune_at (s : string) : Z * nat :=
  let invalid := (65533%Z, 1) in
  let nth n := match String.get n s with Some c => byte_of c | None => (-1)%Z end in
  let b0 := nth 0 in let b1 := nth 1 in let b2 := nth 2 in let b3 := nth 3 in
  if (b0 <? 128)%Z then (b0, 1)
  else if (194 <=? b0)%Z && (b0 <=? 223)%Z then
    if is_cont b1 then (((b0 - 192) * 64 + (b1 - 128))%Z, 2) else invalid
  else if (224 <=? b0)%Z && (b0 <=? 239)%Z then
    let lo := if (b0 =? 224)%Z then 160%Z else 128%Z in
    let hi := if (b0 =? 237)%Z then 159%Z else 191%Z in
    if (lo <=? b1)%Z && (b1 <=? hi)%Z && is_cont b2
    then (((b0 - 224) * 4096 + (b1 - 128) * 64 + (b2 - 128))%Z, 3) else invalid
  else if (240 <=? b0)%Z && (b0 <=? 244)%Z then
    let lo := if (b0 =? 240)%Z then 144%Z else 128%Z in
    let hi := if (b0 =? 244)%Z then 143%Z else 191%Z in
    if (lo <=? b1)%Z && (b1 <=? hi)%Z && is_cont b2 && is_cont b3
    then (((b0 - 240) * 262144 + (b1 - 128) * 4096 + (b2 - 128) * 64 + (b3 - 128))%Z, 4)
    else invalid
  else invalid.

(** The runes of a string, each with the bytes it was decoded from. *)
Fixpoint runes_from (s : string) (skip : nat) : list (Z * string) :=
  match s with
  | "" => []
  | String _ r =>
      match skip with
      | S k => runes_from r k
      | 0 => let '(c, w) := rune_at s in (c, firstn_s w s) :: runes_from r (w - 1)
      end
  end.

Definition runes (s : string) : list (Z * string) := runes_from s 0.

Definition rune_bytes (l : list (Z * string)) : string :=
  foldr (λ r acc, r.2 +:+ acc) "" l.

Lemma rune_at_width s : (1 ≤ (rune_at s).2)%nat.
Proof.
  unfold rune_at. repeat (case_match; simpl; try lia).
Qed.

Lemma runes_from_skip s n : runes_from s n = runes_from (skipn_s n s) 0.
Proof. revert n; induction s as [|c s IH]; intros [|n]; simpl; done. Qed.

(** Decoding loses no byte. *)
Lemma rune_bytes_runes s : rune_bytes (runes s) = s.
Proof.
  unfold runes. remember (String.length s) as n eqn:Hn.
  assert (String.length s ≤ n)%nat as Hle by lia. clear Hn. revert s Hle.
  induction n as [|n IH]; intros [|c s] Hle; simpl in *; try done; try lia.
  destruct (rune_at (String c s)) as [r w] eqn:E.
  pose proof (rune_at_width (String c s)) as Hw. rewrite E in Hw; simpl in Hw.
  destruct w as [|w]; [lia|]. cbn [rune_bytes foldr]. cbn [snd firstn_s].
  rewrite Nat.sub_succ, Nat.sub_0_r, runes_from_skip. fold rune_bytes.
  change (foldr (λ r acc, r.2 +:+ acc) "" ?l) with (rune_bytes l).
  rewrite IH.
  - simpl. by rewrite firstn_skipn_s.
  - transitivity (String.length s); [|lia].
    rewrite <-(firstn_skipn_s w s) at 2. rewrite length_app_s. lia.
Qed.

Lemma not_cont_ascii c : (byte_of c < 128)%Z → is_cont (byte_of c) = false.
Proof. intros. unfold is_cont. destruct (128 <=? byte_of c)%Z eqn:E; [lia|done]. Qed.

Lemma rune_at_app_ascii a b c :
  a ≠ "" → (byte_of c < 128)%Z → rune_at (a +:+ String c b) = rune_at a.
Proof.
  intros Ha Hc. pose proof (not_cont_ascii c Hc) as Hn.
  assert (∀ lo, (128 ≤ lo)%Z → (lo <=? byte_of c)%Z = false) as Hlo by (intros; lia).
  destruct a as [|c0 a]; [done|].
  assert (is_cont (-1) = false) as Hm by done.
  unfold rune_at.
  destruct a as [|c1 [|c2 [|c3 a]]]; cbn [String.append String.get];
    rewrite ?Hn, ?Hm, ?andb_false_r; try reflexivity.
  all: repeat match goal with |- (if ?b then _ else _) = _ => destruct b eqn:? end; try done; try lia.
  all: repeat match goal with H : _ && _ = true |- _ => apply andb_prop in H; destruct H end;
    repeat case_match; lia.
Qed.

Lemma rune_at_le s : s ≠ "" → ((rune_at s).2 ≤ String.length s)%nat.
Proof.
  intros Hs. assert (is_cont (-1) = false) as Hm by done.
  destruct s as [|c0 s]; [done|].
  unfold rune_at.
  destruct s as [|c1 [|c2 [|c3 s]]]; cbn [String.append String.get String.length];
    rewrite ?Hm, ?andb_false_r; repeat case_match; simpl; lia.
Qed.
Lemma skipn_s_app_le n s t : (n ≤ String.length s)%nat → skipn_s n (s +:+ t) = skipn_s n s +:+ t.
Proof. revert s; induction n as [|n IH]; intros [|c s] H; simpl in *; try done; try lia. apply IH. lia. Qed.
Lemma firstn_s_app_le n s t : (n ≤ String.length s)%nat → firstn_s n (s +:+ t) = firstn_s n s.
Proof. revert s; induction n as [|n IH]; intros [|c s] H; simpl in *; try done; try lia. f_equal. apply IH. lia. Qed.

(** Decoding is local: an ASCII byte starts a rune of its own. *)
Lemma runes_app_ascii a b c :
  (byte_of c < 128)%Z → runes (a +:+ String c b) = (runes a ++ runes (String c b))%list.
Proof.
  intros Hc. unfold runes. remember (String.length a) as n eqn:Hn.
  assert (String.length a ≤ n)%nat as Hle by lia. clear Hn. revert a Hle.
  induction n as [|n IH]; intros [|x a] Hle; simpl in Hle; try done; try lia.
  pose proof (rune_at_app_ascii (String x a) b c ltac:(done) Hc) as E1.
  pose proof (rune_at_le (String x a) ltac:(done)) as Hw.
  pose proof (rune_at_width (String x a)) as Hw1.
  change (String x a +:+ String c b) with (String x (a +:+ String c b)) in *.
  cbn [runes_from]. rewrite E1. destruct (rune_at (String x a)) as [r w] eqn:E. cbn [fst snd] in *.
  cbn [String.length] in Hw.
  assert (firstn_s w (String x (a +:+ String c b)) = firstn_s w (String x a)) as ->.
  { apply (firstn_s_app_le w (String x a)). simpl. lia. }
  simpl. f_equal. rewrite runes_from_skip, skipn_s_app_le by lia. rewrite IH.
  - f_equal. symmetry. apply runes_from_skip.
  - transitivity (String.length a); [|lia]. rewrite <-(firstn_skipn_s (w-1) a) at 2.
    rewrite length_app_s. lia.
Qed.

Lemma runes_cons_ascii c s :
  (byte_of c < 128)%Z → runes (String c s) = (byte_of c, String c "") :: runes s.
Proof.
  intros Hc. unfold runes. cbn [runes_from].
  assert (rune_at (String c s) = (byte_of c, 1%nat)) as ->.
  { unfold rune_at. cbn [String.get]. destruct (byte_of c <? 128)%Z eqn:E; [done|lia]. }
  cbn [firstn_s Nat.sub]. done.
Qed.

(** [unicode.IsSpace]. *)
Definition IsSpace (r : Z) : bool :=
  ((9 <=? r) && (r <=? 13) || (r =? 32) || (r =? 133) || (r =? 160) || (r =? 5760) ||
   (8192 <=? r) && (r <=? 8202) || (r =? 8232) || (r =? 8233) || (r =? 8239) ||
   (r =? 8287) || (r =? 12288))%Z.

(** The maximal runs of bytes that are not marked as separators. *)
Fixpoint group_fields (l : list (bool * string)) (cur : option string) : list string :=
  match l with
  | [] => match cur with Some w => [w] | None => [] end
  | (true, _) :: l => match cur with Some w => w :: group_fields l None
                                | None => group_fields l None end
  | (false, b) :: l => group_fields l (Some (default "" cur +:+ b))
  end.

Definition FieldsFunc (s : string) (f : Z → bool) : list string :=
  group_fields ((λ r, (f r.1, r.2)) <$> runes s) None.

Definition Fields (s : string) : list string := FieldsFunc s IsSpace.

Fixpoint drop_space (l : list (Z * string)) : list (Z * string) :=
  match l with
  | [] => []
  | r :: l' => if IsSpace r.1 then drop_space l' else l
  end.

Definition TrimSpace (s : string) : string :=
  rune_bytes (reverse (drop_space (reverse (drop_space (runes s))))).

Definition TrimRightSpace (s : string) : string :=
  rune_bytes (reverse (drop_space (reverse (runes s)))).

Lemma group_fields_nonempty l cur :
  Forall (λ r, r.2 ≠ "") l → cur ≠ Some "" → Forall (λ w, w ≠ "") (group_fields l cur).
Proof.
  intros Hl; revert cur; induction Hl as [|[[] b] l Hb Hl IH]; intros cur Hcur; simpl in *.
  - destruct cur; repeat constructor; congruence.
  - destruct cur; [constructor; [congruence|]|]; by apply IH.
  - apply IH. intros E; simplify_eq. destruct cur as [w|]; simpl in *; [|done].
    by destruct w.
Qed.

Lemma runes_nonempty s : Forall (λ r, r.2 ≠ "") (runes s).
Proof.
  unfold runes. generalize 0. induction s as [|c s IH]; intros n; simpl; [constructor|].
  destruct n; [|apply IH]. destruct (rune_at _) as [r w] eqn:E.
  constructor; [|apply IH]. simpl.
  pose proof (rune_at_width (String c s)). rewrite E in *. by destruct w; simpl in *; [lia|].
Qed.

(** [strings.Fields] never returns an empty field. *)
Lemma Fields_nonempty s : Forall (λ w, w ≠ "") (Fields s).
Proof.
  apply group_fields_nonempty; [|done]. apply Forall_fmap.
  eapply Forall_impl; [apply runes_nonempty|]. done.
Qed.

(** *** The first field of a trimmed string *)

Lemma rune_at_prefix p q :
  p ≠ "" → ((rune_at (p +:+ q)).2 ≤ String.length p)%nat → rune_at (p +:+ q) = rune_at p.
Proof.
  intros Hp. assert (is_cont (-1) = false) as Hm by done.
  destruct p as [|c0 p]; [done|]. unfold rune_at.
  destruct p as [|c1 [|c2 [|c3 p]]]; cbn [String.append String.get String.length];
    rewrite ?Hm, ?andb_false_r; repeat (case_match; try done; simpl; try lia).
Qed.

Lemma rune_bytes_cons r l : rune_bytes (r :: l) = r.2 +:+ rune_bytes l.
Proof. done. Qed.

Lemma rune_bytes_app l1 l2 : rune_bytes (l1 ++ l2)%list = rune_bytes l1 +:+ rune_bytes l2.
Proof.
  induction l1 as [|r l1 IH]; [done|].
  cbn [app]. by rewrite !rune_bytes_cons, IH, app_assoc_s.
Qed.

Lemma runes_head s :
  s ≠ "" → runes s = ((rune_at s).1, firstn_s (rune_at s).2 s) :: runes (skipn_s (rune_at s).2 s).
Proof.
  intros Hs. destruct s as [|c s]; [done|]. unfold runes. cbn [runes_from].
  pose proof (rune_at_width (String c s)) as Hw.
  destruct (rune_at (String c s)) as [r w] eqn:E. cbn [fst snd] in *.
  destruct w as [|w]; [lia|]. cbn [skipn_s]. rewrite Nat.sub_succ, Nat.sub_0_r.
  by rewrite runes_from_skip.
Qed.

(** What is left after leading space was dropped. *)
Lemma drop_space_runes s : ∃ s', drop_space (runes s) = runes s'.
Proof.
  remember (runes s) as l eqn:Hl. revert s Hl.
  induction l as [|r l IH]; intros s Hl; [by exists s|]. cbn [drop_space].
  destruct (IsSpace r.1); [|by exists s].
  destruct (decide (s = "")) as [->|Hs]; [done|].
  rewrite (runes_head s Hs) in Hl. injection Hl as _ Hl. by apply (IH _ Hl).
Qed.

Lemma drop_space_suffix l : ∃ k, l = (k ++ drop_space l)%list.
Proof.
  induction l as [|r l [k IH]]; [by exists []|]. cbn [drop_space].
  destruct (IsSpace _); [|by exists []]. exists (r :: k). simpl. by rewrite <-IH.
Qed.

Lemma drop_space_head l r k : drop_space l = r :: k → IsSpace r.1 = false.
Proof.
  induction l as [|r' l IH]; [done|]. cbn [drop_space].
  destruct (IsSpace r'.1) eqn:E; [done|]. by intros [= -> _].
Qed.

(** A trimmed string does not start with space. *)
Lemma TrimSpace_head s : TrimSpace s ≠ "" → IsSpace (rune_at (TrimSpace s)).1 = false.
Proof.
  unfold TrimSpace. destruct (drop_space_runes s) as [s' Hs']. rewrite Hs'.
  destruct (drop_space_suffix (reverse (runes s'))) as [k Hk].
  set (m := reverse (drop_space (reverse (runes s')))).
  assert (runes s' = m ++ reverse k)%list as Hm.
  { apply (f_equal reverse) in Hk. by rewrite reverse_involutive, reverse_app in Hk. }
  destruct m as [|r m]; [done|]. intros _.
  destruct (decide (s' = "")) as [->|Hne]; [done|].
  rewrite <-app_comm_cons in Hm. pose proof (runes_head s' Hne) as Hh.
  assert (r = ((rune_at s').1, firstn_s (rune_at s').2 s')) as Hr by congruence.
  assert (IsSpace r.1 = false) as Hsp.
  { apply (drop_space_head (runes s) r (m ++ reverse k)). by rewrite Hs', Hm. }
  assert (s' = rune_bytes (r :: m) +:+ rune_bytes (reverse k)) as Es'.
  { rewrite <-rune_bytes_app. cbn [app]. rewrite <-Hm. by rewrite rune_bytes_runes. }
  assert (String.length r.2 = (rune_at s').2) as Hlen.
  { rewrite Hr. cbn [snd]. apply firstn_s_length. by apply rune_at_le. }
  assert (rune_at s' = rune_at (rune_bytes (r :: m))) as E.
  { rewrite Es' at 1. apply rune_at_prefix.
    - intros E0. apply (f_equal String.length) in E0.
      rewrite rune_bytes_cons, length_app_s in E0. cbn in E0.
      pose proof (rune_at_width s'). lia.
    - rewrite <-Es', <-Hlen, rune_bytes_cons, length_app_s. lia. }
  rewrite <-E. rewrite Hr in Hsp. done.
Qed.

Lemma group_fields_some l w : group_fields l (Some w) ≠ [].
Proof. revert w; induction l as [|[[] b] l IH]; intros w; simpl; [done..|apply IH]. Qed.

Lemma Fields_some s : s ≠ "" → IsSpace (rune_at s).1 = false → Fields s ≠ [].
Proof.
  intros Hs Hsp. unfold Fields, FieldsFunc. rewrite (runes_head s Hs). simpl.
  rewrite Hsp. apply group_fields_some.
Qed.

Lemma Fields_TrimSpace s : TrimSpace s ≠ "" → Fields (TrimSpace s) ≠ [].
Proof. intros H. apply Fields_some; [done|]. by apply TrimSpace_head. Qed.

(** ** Numbers *)

Definition is_digit (c : ascii) : bool :=
  let b := nat_of_ascii c in ((48 <=? b) && (b <=? 57))%nat.

Fixpoint digits_val (acc : Z) (s : string) : option Z :=
  match s with
  | "" => Some acc
  | String c s =>
      if is_digit c then digits_val (acc * 10 + (byte_of c - 48))%Z s else None
  end.

Definition max_int : Z := 9223372036854775807.
Definition min_int : Z := -9223372036854775808.

(** [strconv.Atoi] on a 64-bit platform: the value and whether it failed. A
    syntax error gives 0; a value out of range gives the nearest bound. *)
Definition Atoi (s : string) : Z * bool :=
  let body neg ds :=
    match ds with
    | "" => (0%Z, true)
    | _ =>
        match digits_val 0 ds with
        | None => (0%Z, true)
        | Some v =>
            let v := if neg : bool then (- v)%Z else v in
            if (max_int <? v)%Z then (max_int, true)
            else if (v <? min_int)%Z then (min_int, true)
            else (v, false)
        end
    end in
  match s with
  | String "-"%char ds => body true ds
  | String "+"%char ds => body false ds
  | _ => body false s
  end.

(** [strconv.Itoa] and the [%d] verb. *)
Definition Itoa (n : Z) : string := pretty n.

Lemma Atoi_range s : (min_int ≤ (Atoi s).1 ≤ max_int)%Z.
Proof.
  unfold Atoi, min_int, max_int.
  repeat (case_match; simpl; try lia).
Qed.

(** ** Slash-separated paths (package [path]) *)

Definition slash : ascii := "/"%char.

(** One element of a path against the stack (reversed) of [path.Clean]. *)
Definition clean_step (rooted : bool) (st : list string) (e : string) : list string :=
  if decide (e = "" ∨ e = ".") then st
  else if decide (e = "..") then
    match st with
    | [] => if rooted then [] else [".."]
    | t :: st' => if decide (t = "..") then ".." :: st else st'
    end
  else e :: st.

Definition Clean (p : string) : string :=
  let rooted := HasPrefix p "/" in
  let st := foldl (clean_step rooted) [] (Split p slash) in
  let body := Join (reverse st) "/" in
  if rooted then "/" +:+ body
  else if decide (body = "") then "." else body.

Definition path_Join (elems : list string) : string :=
  match filter (λ e, e ≠ "") elems with
  | [] => ""
  | es => Clean (Join es "/")
  end.

(** The directory part of [path.Split], up to and including the last slash. *)
Fixpoint split_dir (p : string) : string * string :=
  match p with
  | "" => ("", "")
  | String c r =>
      let '(d, f) := split_dir r in
      if decide (d = "") then
        if decide (c = slash) then (String c "", f) else ("", String c f)
      else (String c d, f)
  end.

Definition Dir (p : string) : string := Clean (split_dir p).1.

Definition Base (p : string) : string :=
  if decide (p = "") then "."
  else
    let trimmed := TrimRight p "/" in
    if decide (trimmed = "") then "/" else (split_dir trimmed).2.
