(* ===== verification/GoNet.v ===== *)
(** * Addresses of package [net]

    [ParseIP], [ParseCIDR], [ParseMAC] and [HardwareAddr.String] of Go's standard
    library, on lists of bytes. *)

From stdpp Require Import prelude gmap strings list.
From S2P Require Import Prelude GoStrings.

Local Open Scope string_scope.
Local Open Scope Z_scope.

Definition hex_val (c : ascii) : option Z :=
  let b := byte_of c in
  if (48 <=? b) && (b <=? 57) then Some (b - 48)
  else if (97 <=? b) && (b <=? 102) then Some (b - 87)
  else if (65 <=? b) && (b <=? 70) then Some (b - 55)
  else None.

(** ** IP addresses *)

Definition v4InV6Prefix : list Z := [0; 0; 0; 0; 0; 0; 0; 0; 0; 0; 255; 255].

(** One decimal octet: no leading zero, at most 255. *)
Definition ipv4_field (s : string) : option Z :=
  match s with
  | "" => None
  | String "0" (String _ _) => None
  | _ => v ← digits_val 0 s; if (v <=? 255) then Some v else None
  end.

Definition parseIPv4 (s : string) : option (list Z) :=
  match Split s "." with
  | [_; _; _; _] as fields => mapM ipv4_field fields
  | _ => None
  end.

(** The hexadecimal number a group starts with, its number of digits and the rest. *)
Fixpoint hex_prefix (acc : Z) (n : nat) (s : string) : Z * nat * string :=
  match s with
  | String c r =>
      match hex_val c with
      | Some d => hex_prefix (acc * 16 + d) (S n) r
      | None => (acc, n, s)
      end
  | "" => (acc, n, s)
  end.

(** The groups of an IPv6 address: the bytes read so far, where the ellipsis is,
    and the text that is left; [fuel] counts the groups there is room for. *)
Fixpoint ipv6_groups (fuel : nat) (s : string) (ip : list Z) (ellipsis : option nat) :
    option (list Z * option nat * string) :=
  match fuel with
  | O => Some (ip, ellipsis, s)
  | S fuel =>
      let '(acc, off, r) := hex_prefix 0 0 s in
      if (off =? 0)%nat || (4 <? off)%nat then None
      else match r with
      | String "." _ =>
          if (match ellipsis with None => negb (length ip =? 12)%nat | Some _ => false end) ||
             (16 <? length ip + 4)%nat then None
          else b ← parseIPv4 s; Some ((ip ++ b)%list, ellipsis, "")
      | "" => Some ((ip ++ [acc / 256; acc mod 256])%list, ellipsis, "")
      | String ":" "" => None
      | String ":" (String ":" r) =>
          if bool_decide (is_Some ellipsis) then None
          else
            let ip := (ip ++ [acc / 256; acc mod 256])%list in
            if String.eqb r "" then Some (ip, Some (length ip), "")
            else ipv6_groups fuel r ip (Some (length ip))
      | String ":" r => ipv6_groups fuel r (ip ++ [acc / 256; acc mod 256])%list ellipsis
      | _ => None
      end
  end.

Definition parseIPv6 (s : string) : option (list Z) :=
  if has_char "%" s then None
  else
    let '(s, ellipsis) :=
      match s with String ":" (String ":" r) => (r, Some 0%nat) | _ => (s, None) end in
    if String.eqb s "" && bool_decide (is_Some ellipsis) then Some (replicate 16 0)
    else
      g ← ipv6_groups 8 s [] ellipsis;
      let '(ip, ellipsis, s) := g in
      if negb (String.eqb s "") then None
      else match ellipsis with
           | None => if (length ip <? 16)%nat then None else Some ip
           | Some e =>
               if (length ip <? 16)%nat
               then Some (take e ip ++ replicate (16 - length ip) 0 ++ drop e ip)%list
               else None
           end.

(** [netip.ParseAddr]: whether it is an IPv4 address, and its 16 bytes. *)
Fixpoint parse_addr_kind (rest s : string) : option (bool * list Z) :=
  match rest with
  | "" => None
  | String c rest =>
      if ascii_dec c "." then (λ b, (true, v4InV6Prefix ++ b)%list) <$> parseIPv4 s
      else if ascii_dec c ":" then pair false <$> parseIPv6 s
      else if ascii_dec c "%" then None
      else parse_addr_kind rest s
  end.

Definition ParseIP (s : string) : option (list Z) := snd <$> parse_addr_kind s s.

Definition To4 (ip : list Z) : option (list Z) :=
  if bool_decide (take 12 ip = v4InV6Prefix) then Some (drop 12 ip) else None.

(** [net.IPMask(net.ParseIP(s).To4())]. *)
Definition ParseMask (s : string) : option (list Z) := ParseIP s ≫= To4.

(** [n] one bits in [len] bytes. *)
Fixpoint CIDRMask (n : Z) (len : nat) : list Z :=
  match len with
  | O => []
  | S len => (if (8 <=? n) then 255 else 255 - Z.shiftr 255 (Z.max 0 n)) :: CIDRMask (n - 8) len
  end.

Definition ParseCIDR (s : string) : option (list Z * list Z) :=
  match cut_char "/" s with
  | None => None
  | Some (addr, mask) =>
      a ← parse_addr_kind addr addr;
      n ← (if String.eqb mask "" then None else digits_val 0 mask);
      let '(is4, ip) := a in
      let len := if is4 : bool then 4%nat else 16%nat in
      if (8 * Z.of_nat len <? n) then None
      else
        let m := CIDRMask n len in
        let ip := if is4 then drop 12 ip else ip in
        Some (zip_with Z.land ip m, m)
  end.

(** ** Hardware addresses *)

(** Two hexadecimal digits. *)
Definition hex_byte (s : string) : option Z :=
  match s with
  | String a (String b "") => x ← hex_val a; y ← hex_val b; Some (x * 16 + y)
  | _ => None
  end.

(** Four hexadecimal digits. *)
Definition hex_pair (s : string) : option (list Z) :=
  x ← hex_byte (firstn_s 2 s); y ← hex_byte (skipn_s 2 s); Some [x; y].

Definition mac_length (n : nat) : bool := (n =? 6)%nat || (n =? 8)%nat || (n =? 20)%nat.

(** Groups of two digits between colons or dashes, or of four between dots. *)
Definition ParseMAC (s : string) : option (list Z) :=
  let bytes :=
    match String.get 2 s, String.get 4 s with
    | Some ":"%char, _ => mapM hex_byte (Split s ":")
    | Some "-"%char, _ => mapM hex_byte (Split s "-")
    | _, Some "."%char => (λ l, concat l) <$> mapM hex_pair (Split s ".")
    | _, _ => None
    end in
  b ← bytes; if mac_length (length b) then Some b else None.

Definition hex_digit (d : Z) : ascii :=
  ascii_of_nat (Z.to_nat (if (d <? 10) then 48 + d else 87 + d)).

(** [HardwareAddr.String]. *)
Definition mac_String (mac : list Z) : string :=
  Join ((λ b, String (hex_digit (b / 16)) (String (hex_digit (b mod 16)) "")) <$> mac) ":".

(** The address [ParseCIDR] returns with the network. *)
Definition ParseCIDR_IP (s : string) : option (list Z) :=
  _ ← ParseCIDR s; cut_char "/" s ≫= λ am, ParseIP am.1.

(** ** Printing *)

Definition hex_bytes (l : list Z) : string :=
  Join ((λ b, String (hex_digit (b / 16)) (String (hex_digit (b mod 16)) "")) <$> l) "".

(** A group of an IPv6 address, without leading zeros. *)
Definition hex_group (g : Z) : string :=
  let ds := [g / 4096; g / 256 mod 16; g / 16 mod 16] in
  let fix strip (ds : list Z) : string :=
    match ds with
    | [] => String (hex_digit (g mod 16)) ""
    | d :: ds' =>
        if (d =? 0) then strip ds'
        else fold_right (λ d t, String (hex_digit d) t) (String (hex_digit (g mod 16)) "") ds
    end in
  strip ds.

Fixpoint groups_of (ip : list Z) : list Z :=
  match ip with a :: b :: ip => (256 * a + b) :: groups_of ip | _ => [] end.

Fixpoint zero_run (gs : list Z) : nat :=
  match gs with 0 :: gs => S (zero_run gs) | _ => O end.

(** The first of the longest runs of at least two zero groups: position and
    length. *)
Fixpoint longest_run (pos : nat) (gs : list Z) (best : nat * nat) : nat * nat :=
  match gs with
  | [] => best
  | _ :: gs' =>
      let r := zero_run gs in
      longest_run (S pos) gs'
        (if (2 <=? r)%nat && (snd best <? r)%nat then (pos, r) else best)
  end.

Definition ipv6_String (ip : list Z) : string :=
  let gs := groups_of ip in
  let texts := hex_group <$> gs in
  match longest_run 0 gs (O, O) with
  | (_, O) => Join texts ":"
  | (pos, len) => Join (take pos texts) ":" +:+ "::" +:+ Join (drop (pos + len) texts) ":"
  end.

Definition to4 (ip : list Z) : option (list Z) :=
  if (length ip =? 4)%nat then Some ip else To4 ip.

(** [IP.String]; [None] is [nil]. *)
Definition IP_String (ip : option (list Z)) : string :=
  match ip with
  | None | Some [] => "<nil>"
  | Some ip =>
      match to4 ip with
      | Some v4 => Join (Itoa <$> v4) "."
      | None => if (length ip =? 16)%nat then ipv6_String ip else "?" +:+ hex_bytes ip
      end
  end.

(** The number of leading ones of a mask that has no other ones. *)
Fixpoint mask_ones (fuel : nat) (b : Z) : nat :=
  match fuel with
  | O => O
  | S fuel => if (128 <=? b) then S (mask_ones fuel (2 * (b - 128))) else O
  end.

Fixpoint simpleMaskLength (mask : list Z) : option Z :=
  match mask with
  | [] => Some 0
  | 255 :: mask => (λ n, 8 + n) <$> simpleMaskLength mask
  | b :: mask =>
      let n := mask_ones 8 b in
      if (b =? 256 - Z.shiftl 1 (8 - Z.of_nat n)) && forallb (Z.eqb 0) mask
      then Some (Z.of_nat n) else None
  end.

(** [IPNet.String]. *)
Definition IPNet_String (ip mask : option (list Z)) : string :=
  let ip := ip ≫= λ ip, match to4 ip with
                         | Some v4 => Some v4
                         | None => if (length ip =? 16)%nat then Some ip else None end in
  let m := ip ≫= λ ip, mask ≫= λ m,
    if (length m =? 4)%nat then (if (length ip =? 4)%nat then Some m else None)
    else if (length m =? 16)%nat then Some (if (length ip =? 4)%nat then drop 12 m else m)
    else None in
  match ip, m with
  | Some ip, Some m =>
      IP_String (Some ip) +:+ "/" +:+
      match simpleMaskLength m with Some l => Itoa l | None => hex_bytes m end
  | _, _ => "<nil>"
  end.

Example String_test :
  IP_String (ParseIP "10.0.2.15") = "10.0.2.15" ∧ IP_String (ParseIP "FE80:0:0:0:1:0:0:a1") = "fe80::1:0:0:a1" ∧
  IP_String (ParseIP "::") = "::" ∧ IP_String (ParseIP "1:2:3:4:5:6:7:8") = "1:2:3:4:5:6:7:8" ∧
  IP_String (ParseIP "::1:0") = "::1:0" ∧ IP_String None = "<nil>" ∧
  IPNet_String (ParseIP "10.0.0.5") (ParseMask "255.255.240.0") = "10.0.0.5/20" ∧
  IPNet_String (ParseIP "10.0.0.5") (ParseMask "255.0.255.0") = "10.0.0.5/ff00ff00" ∧
  IPNet_String (ParseIP "fe80::1") (ParseMask "255.0.0.0") = "<nil>" ∧
  IPNet_String (Some (replicate 16 0)) (Some (CIDRMask 0 16)) = "::/0".
Proof. by vm_compute. Qed.

Example ParseIP_test :
  ParseIP "10.0.2.15" = Some (v4InV6Prefix ++ [10; 0; 2; 15])%list ∧
  ParseIP "fe80::1" = Some ([254; 128] ++ replicate 13 0 ++ [1])%list ∧
  ParseIP "::ffff:1.2.3.4" = Some (v4InV6Prefix ++ [1; 2; 3; 4])%list ∧
  ParseIP "1.2.3" = None ∧ ParseIP "01.2.3.4" = None ∧ ParseIP "1::2::3" = None ∧
  ParseIP "::" = Some (replicate 16 0) ∧ ParseIP "eth0" = None.
Proof. by vm_compute. Qed.

Example ParseCIDR_test :
  ParseCIDR "192.168.77.5/20" = Some ([192; 168; 64; 0], [255; 255; 240; 0]) ∧
  ParseCIDR "10.0.0.0/33" = None ∧ ParseCIDR "10.0.0.1" = None.
Proof. by vm_compute. Qed.

Example ParseMAC_test :
  ParseMAC "aa:bb:cc:DD:ee:0f" = Some [170; 187; 204; 221; 238; 15] ∧
  ParseMAC "aabb.ccdd.ee0f" = Some [170; 187; 204; 221; 238; 15] ∧
  ParseMAC "aa:bb:cc" = None ∧
  mac_String [170; 187; 204; 221; 238; 15] = "aa:bb:cc:dd:ee:0f".
Proof. by vm_compute. Qed.
