(* ===== verification/Prog.v ===== *)
(** * Programs that talk to their surroundings

    A Go function that calls the kernel or another program is a tree: it makes a
    call and goes on with the answer, or it is done. Nothing is assumed of the
    answers: [wp] holds when it holds for all of them, and [run] evaluates a
    program against a concrete surrounding. *)

From stdpp Require Import prelude gmap strings list.
From S2P Require Import Prelude.

Section prog.
Context {call : Type} {ans : call → Type}.

Inductive prog (A : Type) : Type :=
  | Done (r : result A)
  | Call (c : call) (k : ans c → prog A).

Global Arguments Done {A} r.
Global Arguments Call {A} c k.

Fixpoint prog_bind {A B} (p : prog A) (f : A → prog B) : prog B :=
  match p with
  | Done (Ok a) => f a
  | Done (Err e) => Done (Err e)
  | Done (Panic e) => Done (Panic e)
  | Call c k => Call c (λ x, prog_bind (k x) f)
  end.

Global Instance prog_ret : MRet prog := λ A a, Done (Ok a).
Global Instance prog_mbind : MBind prog := λ A B f p, prog_bind p f.

(** Make a call. *)
Definition invoke (c : call) : prog (ans c) := Call c (λ x, Done (Ok x)).

(** An error that the code keeps in a variable; a panic goes on. *)
Fixpoint attempt {A} (p : prog A) : prog (result A) :=
  match p with
  | Done (Panic e) => Done (Panic e)
  | Done r => Done (Ok r)
  | Call c k => Call c (λ x, attempt (k x))
  end.

(** An error that is only logged, or dropped. *)
Definition ignore {A} (p : prog A) : prog () := _ ← attempt p; mret ().

(** [defer d]: [d] runs when [p] returns or panics; its error is dropped. *)
Fixpoint defer_call {A} (d : prog ()) (p : prog A) : prog A :=
  match p with
  | Done r => prog_bind (ignore d) (λ _, Done r)
  | Call c k => Call c (λ x, defer_call d (k x))
  end.

(** A [range] loop whose body keeps going. *)
Fixpoint each {A} (f : A → prog ()) (l : list A) : prog () :=
  match l with
  | [] => mret ()
  | x :: l => _ ← f x; each f l
  end.

(** Every sequence of calls and result of [p] satisfies [Q]. *)
Fixpoint wp {A} (p : prog A) (Q : list call → result A → Prop) : Prop :=
  match p with
  | Done r => Q [] r
  | Call c k => ∀ x, wp (k x) (λ t, Q (c :: t))
  end.

(** Against a surrounding [h] with states in [W]. *)
Fixpoint run {W A} (h : ∀ c, W → ans c * W) (p : prog A) (w : W) : list call * result A * W :=
  match p with
  | Done r => ([], r, w)
  | Call c k =>
      let '(x, w) := h c w in
      let '(t, r, w) := run h (k x) w in (c :: t, r, w)
  end.

Lemma wp_mono {A} (p : prog A) (Q Q' : list call → result A → Prop) :
  (∀ t r, Q t r → Q' t r) → wp p Q → wp p Q'.
Proof.
  revert Q Q'. induction p as [r|c k IH]; intros Q Q' HQ; simpl; [by apply HQ|].
  intros H x. eapply IH; [|apply H]. intros t r. apply HQ.
Qed.

Lemma wp_bind {A B} (p : prog A) (f : A → prog B) Q :
  wp p (λ t r, match r with
               | Ok a => wp (f a) (λ t', Q (t ++ t'))
               | Err e => Q t (Err e)
               | Panic e => Q t (Panic e)
               end) → wp (p ≫= f) Q.
Proof.
  unfold mbind, prog_mbind. revert Q.
  induction p as [[a|e|e]|c k IH]; intros Q; simpl; [auto..|]. intros H x. apply IH. apply H.
Qed.

Lemma wp_attempt {A} (p : prog A) Q :
  wp p (λ t r, match r with Panic e => Q t (Panic e) | r => Q t (Ok r) end) → wp (attempt p) Q.
Proof. revert Q. induction p as [[a|e|e]|c k IH]; intros Q; simpl; auto. Qed.

Lemma wp_ignore {A} (p : prog A) Q :
  wp p (λ t r, match r with Panic e => Q t (Panic e) | _ => Q t (Ok ()) end) → wp (ignore p) Q.
Proof.
  intros H. apply wp_bind, wp_attempt. eapply wp_mono, H.
  intros t [a|e|e]; simpl; [by rewrite app_nil_r..|done].
Qed.

Lemma wp_defer {A} (d : prog ()) (p : prog A) Q :
  wp p (λ t r, wp d (λ t' r', match r' with Panic e => Q (t ++ t') (Panic e) | _ => Q (t ++ t') r end)) →
  wp (defer_call d p) Q.
Proof.
  revert Q. induction p as [r|c k IH]; intros Q; simpl; [|auto].
  intros H. apply (wp_bind (ignore d)), wp_ignore. eapply wp_mono, H.
  intros t [a|e|e]; simpl; rewrite ?app_nil_r; auto.
Qed.

(** What holds of every turn of a loop, and of putting turns together, holds
    of the loop. *)
Lemma wp_each {A} (f : A → prog ()) (l : list A) (P : list call → Prop) :
  P [] → (∀ t t', P t → P t' → P (t ++ t')) →
  (∀ x, x ∈ l → wp (f x) (λ t _, P t)) → wp (each f l) (λ t _, P t).
Proof.
  intros Hnil Happ. induction l as [|x l IH]; intros Hl; [done|]. cbn [each].
  apply wp_bind. eapply wp_mono; [|apply Hl, list_elem_of_here].
  intros t r Ht. assert (wp (each f l) (λ t' _, P (t ++ t'))).
  { eapply wp_mono, IH; [by auto|]. intros y Hy. by apply Hl, list_elem_of_further. }
  by destruct r.
Qed.

Lemma wp_true {A} (p : prog A) : wp p (λ _ _, True).
Proof. induction p; simpl; auto. Qed.

(** Two facts about every behaviour. *)
Lemma wp_and {A} (p : prog A) Q Q' : wp p Q → wp p Q' → wp p (λ t r, Q t r ∧ Q' t r).
Proof.
  revert Q Q'. induction p as [r|c k IH]; intros Q Q'; simpl; [done|].
  intros H H' x. apply IH; auto.
Qed.

(** Code that handles its errors returns none. *)
Definition no_error {A} (r : result A) : Prop := ∀ e, r ≠ Err e.

Lemma no_error_bind {A B} (p : prog A) (f : A → prog B) :
  wp p (λ _, no_error) → (∀ a, wp (f a) (λ _, no_error)) → wp (p ≫= f) (λ _, no_error).
Proof.
  intros Hp Hf. apply wp_bind. eapply wp_mono, Hp. intros t [a|e|e] H; [apply Hf|by destruct (H e)|].
  intros e'. done.
Qed.

Lemma no_error_attempt {A} (p : prog A) : wp (attempt p) (λ _, no_error).
Proof. apply wp_attempt. eapply wp_mono; [|apply wp_true]. by intros t [?|?|?] _ ?. Qed.

Lemma no_error_ignore {A} (p : prog A) : wp (ignore p) (λ _, no_error).
Proof. apply wp_ignore. eapply wp_mono; [|apply wp_true]. by intros t [?|?|?] _ ?. Qed.

Lemma no_error_each {A} (f : A → prog ()) l :
  (∀ x, wp (f x) (λ _, no_error)) → wp (each f l) (λ _, no_error).
Proof.
  intros Hf. induction l as [|x l IH]; [by intros e|]. by apply no_error_bind.
Qed.

(** What a run does is one of the behaviours. *)
Lemma wp_run {W A} (h : ∀ c, W → ans c * W) (p : prog A) Q w :
  wp p Q → Q (run h p w).1.1 (run h p w).1.2.
Proof.
  revert Q w. induction p as [r|c k IH]; intros Q w; simpl; [done|].
  intros H. destruct (h c w) as [x w'] eqn:Eh. specialize (IH x _ w' (H x)).
  by destruct (run h (k x) w') as [[t r] w''].
Qed.
End prog.

Arguments prog {call} ans A.
Arguments wp_mono {call ans A} p Q Q' _ _.

(** ** Answers that may be errors *)

(** [ANotFound] is an error the code tells from others: [IsErrContainerNotFound],
    [IsErrImageNotFound], [os.IsNotExist]. *)
Inductive api (A : Type) : Type :=
  | AOk (a : A)
  | ANotFound (msg : string)
  | AErr (msg : string).
Arguments AOk {A} a.
Arguments ANotFound {A} msg.
Arguments AErr {A} msg.

(** The answer, or the error. *)
Definition expect {call} {ans : call → Type} {A} (x : api A) : prog ans A :=
  match x with
  | AOk a => mret a
  | ANotFound e | AErr e => Done (Err e)
  end.
