(* ===== verification/RawTree.v ===== *)
(** * Raw configuration trees ([pkg/util/util.go])

    The values the YAML decoder builds: [interface{}] trees of scalars, slices
    and [map[interface{}]interface{}].  [Copy], [MapCopy], [SliceCopy] and
    [Merge] are the layering operations every configuration source goes
    through. *)

From stdpp Require Import prelude gmap strings list.
From S2P Require Import Prelude GoStrings.

(** ** Data *)

Inductive scalar : Type :=
  | SNil
  | SBool (b : bool)
  | SInt (z : Z)
  | SFloat (lit : string)
  | SStr (s : string).

Global Instance scalar_eq_dec : EqDecision scalar.
Proof. solve_decision. Defined.

Global Instance scalar_countable : Countable scalar.
Proof.
  refine (inj_countable'
    (λ x, match x with
          | SNil => inl (inl ())
          | SBool b => inl (inr b)
          | SInt z => inr (inl (inl z))
          | SFloat s => inr (inl (inr s))
          | SStr s => inr (inr s)
          end)
    (λ y, match y with
          | inl (inl _) => SNil
          | inl (inr b) => SBool b
          | inr (inl (inl z)) => SInt z
          | inr (inl (inr s)) => SFloat s
          | inr (inr s) => SStr s
          end) _).
  by intros [].
Defined.

(** [interface{}]: [VMap] is [map[interface{}]interface{}], [VSMap] is
    [map[string]interface{}]. *)
#[warnings="-register-all"]
Inductive val : Type :=
  | VScalar (s : scalar)
  | VList (l : list val)
  | VMap (m : gmap scalar val)
  | VSMap (m : gmap string val).

Abbreviation rawmap := (gmap scalar val).
Abbreviation VStr s := (VScalar (SStr s)).
Abbreviation VBool b := (VScalar (SBool b)).

Fixpoint vsize (v : val) : nat :=
  match v with
  | VScalar _ => 1
  | VList l => S (list_sum (vsize <$> l))
  | VMap m => map_fold (λ _ x acc, vsize x + acc) 1 m
  | VSMap m => map_fold (λ _ x acc, vsize x + acc) 1 m
  end.

Lemma map_fold_size_lookup {K} `{Countable K} (m : gmap K val) k v :
  m !! k = Some v → vsize v < map_fold (λ _ x acc, vsize x + acc) 1 m.
Proof.
  intros Hk. rewrite (map_fold_delete_L _ _ k v m); [|intros; lia|done].
  assert (∀ m' : gmap K val, 1 ≤ map_fold (λ _ x acc, vsize x + acc) 1 m') as Hge.
  { intros m'. apply (map_fold_weak_ind (λ n _, 1 ≤ n)); [done|]. intros; lia. }
  specialize (Hge (delete k m)). lia.
Qed.

Lemma list_sum_elem (l : list val) v : v ∈ l → vsize v ≤ list_sum (vsize <$> l).
Proof. induction 1; csimpl; lia. Qed.

(** Induction over trees. *)
Lemma val_ind' (P : val → Prop) :
  (∀ s, P (VScalar s)) →
  (∀ l, (∀ v, v ∈ l → P v) → P (VList l)) →
  (∀ m : rawmap, (∀ k v, m !! k = Some v → P v) → P (VMap m)) →
  (∀ m : gmap string val, (∀ k v, m !! k = Some v → P v) → P (VSMap m)) →
  ∀ v, P v.
Proof.
  intros Hs Hl Hm Hsm v.
  induction v as [v IH] using (induction_ltof1 _ vsize); unfold ltof in IH.
  destruct v as [s|l|m|m]; simpl in IH.
  - apply Hs.
  - apply Hl. intros v Hv%list_sum_elem. apply IH. simpl. lia.
  - apply Hm. intros k v Hk%map_fold_size_lookup. by apply IH.
  - apply Hsm. intros k v Hk%map_fold_size_lookup. by apply IH.
Qed.

(** ** Copying *)

Fixpoint Copy (d : val) : val :=
  match d with
  | VMap m => VMap (Copy <$> m)
  | VList l => VList (Copy <$> l)
  | _ => d
  end.

Definition MapCopy (data : rawmap) : rawmap := Copy <$> data.

Definition SliceCopy (data : list val) : list val := Copy <$> data.

(** A copy has the contents of the original. *)
Lemma Copy_eq v : Copy v = v.
Proof.
  induction v as [s|l IH|m IH|m IH] using val_ind'; simpl; [done| | |done]; f_equal.
  - induction l as [|x l IHl]; [done|]. csimpl. f_equal; [by apply IH; left|].
    apply IHl. intros v Hv. by apply IH; right.
  - apply map_eq; intros k. rewrite lookup_fmap.
    destruct (m !! k) as [v|] eqn:E; simpl; [|done]. f_equal. eauto.
Qed.

Lemma MapCopy_eq m : MapCopy m = m.
Proof. unfold MapCopy. assert (VMap (Copy <$> m) = VMap m) by apply (Copy_eq (VMap m)). congruence. Qed.

Lemma SliceCopy_eq l : SliceCopy l = l.
Proof. unfold SliceCopy. assert (VList (Copy <$> l) = VList l) by apply (Copy_eq (VList l)). congruence. Qed.

(** ** Merging *)

(** [merge_value l r] is the inner [switch]: the value of a key that both maps
    have. *)
Fixpoint merge_value (l r : val) : val :=
  match l with
  | VMap lm =>
      match r with
      | VMap rm =>
          VMap (merge (λ ol or,
            match ol, or with
            | Some l, Some r => Some (merge_value l r)
            | None, Some r => Some (Copy r)
            | Some l, None => Some (Copy l)
            | None, None => None
            end) lm rm)
      | _ => r
      end
  | _ => r
  end.

Definition Merge (left right : rawmap) : rawmap :=
  merge (λ ol or,
    match ol, or with
    | Some l, Some r => Some (merge_value l r)
    | None, Some r => Some (Copy r)
    | Some l, None => Some (Copy l)
    | None, None => None
    end) left right.

Lemma merge_value_maps lm rm : merge_value (VMap lm) (VMap rm) = VMap (Merge lm rm).
Proof. done. Qed.

Lemma lookup_Merge l r k :
  Merge l r !! k =
  match r !! k with
  | Some y => Some (match l !! k with Some x => merge_value x y | None => y end)
  | None => l !! k
  end.
Proof.
  unfold Merge. rewrite lookup_merge. unfold diag_None.
  destruct (l !! k), (r !! k); simpl; by rewrite ?Copy_eq.
Qed.

Lemma dom_Merge l r : dom (Merge l r) = dom l ∪ dom r.
Proof.
  apply set_eq; intros k. rewrite elem_of_union, !elem_of_dom, lookup_Merge.
  destruct (l !! k), (r !! k); rewrite ?is_Some_alt; naive_solver.
Qed.

(** *** The loop of the source, in any order of [range] *)

(** [merge_loop left result es result'] runs [for k, r := range right] over the
    remaining entries [es]; [merge_run] is a whole call of [Merge]. *)
Inductive merge_run : rawmap → rawmap → rawmap → Prop :=
  | merge_run_range left right es result :
      enumerates es right →
      merge_loop left (MapCopy left) es result →
      merge_run left right result
with merge_loop : rawmap → rawmap → list (scalar * val) → rawmap → Prop :=
  | merge_loop_done left result : merge_loop left result [] result
  | merge_loop_maps left result k lm rm m es result' :
      left !! k = Some (VMap lm) →
      merge_run lm rm m →
      merge_loop left (<[k := VMap m]> result) es result' →
      merge_loop left result ((k, VMap rm) :: es) result'
  | merge_loop_replace left result k l r es result' :
      left !! k = Some l →
      ¬ ((∃ lm, l = VMap lm) ∧ (∃ rm, r = VMap rm)) →
      merge_loop left (<[k := r]> result) es result' →
      merge_loop left result ((k, r) :: es) result'
  | merge_loop_new left result k r es result' :
      left !! k = None →
      merge_loop left (<[k := Copy r]> result) es result' →
      merge_loop left result ((k, r) :: es) result'.

Scheme merge_run_mut := Minimality for merge_run Sort Prop
  with merge_loop_mut := Minimality for merge_loop Sort Prop.
Combined Scheme merge_run_loop_ind from merge_run_mut, merge_loop_mut.

(** What one pass of the loop writes for the key of an entry. *)
Definition merge_entry (left : rawmap) (k : scalar) (r : val) : val :=
  match left !! k with Some l => merge_value l r | None => Copy r end.

Lemma merge_value_not_maps l r :
  ¬ ((∃ lm, l = VMap lm) ∧ (∃ rm, r = VMap rm)) → merge_value l r = r.
Proof. destruct l, r; simpl; try done. intros []. eauto. Qed.

Definition merge_entries (left result : rawmap) (es : list (scalar * val)) : rawmap :=
  foldl (λ acc e, <[e.1 := merge_entry left e.1 e.2]> acc) result es.

Lemma lookup_merge_entries left es result k :
  NoDup es.*1 →
  merge_entries left result es !! k =
  match list_to_map (M := rawmap) es !! k with
  | Some r => Some (merge_entry left k r)
  | None => result !! k
  end.
Proof.
  unfold merge_entries.
  revert result; induction es as [|[k' r] es IH]; intros result Hnd; [done|].
  csimpl in *. apply NoDup_cons in Hnd as [Hk' Hnd]. rewrite IH by done.
  destruct (decide (k = k')) as [->|Hne].
  - rewrite not_elem_of_list_to_map_1 by done. by rewrite !lookup_insert_eq.
  - by rewrite !lookup_insert_ne by congruence.
Qed.

Lemma merge_entries_Merge left right es :
  enumerates es right → merge_entries left (MapCopy left) es = Merge left right.
Proof.
  intros Hes. apply map_eq; intros k.
  rewrite lookup_merge_entries by by eapply enumerates_NoDup.
  rewrite (enumerates_list_to_map _ _ Hes), lookup_Merge, MapCopy_eq.
  unfold merge_entry. destruct (right !! k), (left !! k); by rewrite ?Copy_eq.
Qed.

Lemma merge_run_loop_sound :
  (∀ left right result, merge_run left right result → result = Merge left right) ∧
  (∀ left result es result', merge_loop left result es result' →
     result' = merge_entries left result es).
Proof.
  apply merge_run_loop_ind.
  - intros left right es result Hes _ ->. by apply merge_entries_Merge.
  - done.
  - intros left result k lm rm m es result' Hl _ -> _ ->.
    unfold merge_entries; simpl. unfold merge_entry. by rewrite Hl.
  - intros left result k l r es result' Hl Hn _ ->.
    unfold merge_entries; simpl. unfold merge_entry.
    by rewrite Hl, merge_value_not_maps.
  - intros left result k r es result' Hl _ ->.
    unfold merge_entries; simpl. unfold merge_entry. by rewrite Hl.
Qed.

Lemma merge_loop_complete left es result :
  (∀ k lm rm, left !! k = Some (VMap lm) → (k, VMap rm) ∈ es →
     merge_run lm rm (Merge lm rm)) →
  merge_loop left result es (merge_entries left result es).
Proof.
  revert result; induction es as [|[k r] es IH]; intros result Hsub; [constructor|].
  assert (∀ result, merge_loop left result es (merge_entries left result es)) as Hes.
  { intros result0. apply IH. intros k0 lm rm Hl Hin. eapply Hsub; [done|by right]. }
  change (merge_entries left result ((k, r) :: es))
    with (merge_entries left (<[k := merge_entry left k r]> result) es).
  unfold merge_entry. destruct (left !! k) as [l|] eqn:Hl.
  - destruct l as [s|l|lm|m]; try by (eapply merge_loop_replace; [done|by intros [[? ?] [? ?]]|apply Hes]).
    destruct r as [s|l|rm|m]; try by (eapply merge_loop_replace; [done|by intros [[? ?] [? ?]]|apply Hes]).
    eapply merge_loop_maps; [done| |apply Hes]. eapply Hsub; [done|by left].
  - eapply merge_loop_new; [done|apply Hes].
Qed.

Lemma merge_run_complete_val l : ∀ lm rm, l = VMap lm → merge_run lm rm (Merge lm rm).
Proof.
  induction l as [| |m IH|] using val_ind'; intros lm rm ?; simplify_eq.
  econstructor; [apply enumerates_map_to_list|].
  rewrite <-(merge_entries_Merge lm rm (map_to_list rm)) by auto with burmilla.
  apply merge_loop_complete. eauto.
Qed.

(** ** Paths *)

Fixpoint get_path (v : val) (p : list scalar) : option val :=
  match p with
  | [] => Some v
  | k :: p =>
      match v with
      | VMap m => match m !! k with Some v' => get_path v' p | None => None end
      | _ => None
      end
  end.

(** [covered v p]: following [p] in [v] stops early at a value that is not a
    map, so that [v] says something about every path through it. *)
Fixpoint covered (v : val) (p : list scalar) : bool :=
  match p with
  | [] => false
  | k :: p =>
      match v with
      | VMap m => match m !! k with Some v' => covered v' p | None => false end
      | _ => true
      end
  end.

Definition is_map (v : val) : bool := match v with VMap _ => true | _ => false end.

Definition dotted (p : list string) : list scalar := SStr <$> p.

Lemma get_path_app v p q : get_path v (p ++ q) = get_path v p ≫= λ w, get_path w q.
Proof.
  revert v; induction p as [|k p IH]; intros v; [done|]. simpl.
  destruct v as [| |m|]; try done. by destruct (m !! k).
Qed.

Lemma get_path_covered v p w : get_path v p = Some w → covered v p = false.
Proof.
  revert v; induction p as [|k p IH]; intros v; [done|]. simpl.
  destruct v as [| |m|]; try done. destruct (m !! k); [apply IH|done].
Qed.

(** The value of the right-hand side at a path, if it has one; what it has no
    opinion about comes from the left. *)
Lemma get_path_merge_value l r p :
  get_path (merge_value l r) p =
  if covered r p then None
  else match get_path r p with
       | Some rv =>
           Some (match get_path l p with Some lv => merge_value lv rv | None => rv end)
       | None => get_path l p
       end.
Proof.
  revert l r; induction p as [|k p IH]; intros l r; [done|].
  destruct r as [s|rl|rm|rm]; simpl; try by destruct l.
  destruct l as [s|ll|lm|lm].
  1,2,4: simpl; destruct (rm !! k) as [rv|]; [|done];
    destruct (covered rv p) eqn:Hc; [by destruct (get_path rv p) eqn:Hp;
      [apply get_path_covered in Hp; congruence|]|by destruct (get_path rv p)].
  rewrite merge_value_maps. simpl. rewrite lookup_Merge.
  destruct (rm !! k) as [rv|]; [|done]. destruct (lm !! k) as [lv|]; [apply IH|].
  destruct (covered rv p) eqn:Hc; [|by destruct (get_path rv p)].
  destruct (get_path rv p) eqn:Hp; [apply get_path_covered in Hp; congruence|done].
Qed.

Lemma merge_value_not_map_r l r : is_map r = false → merge_value l r = r.
Proof. by destruct l, r. Qed.

Lemma merge_value_not_map_l l r : is_map l = false → merge_value l r = r.
Proof. by destruct l, r. Qed.

(** ** Algebra of layering *)

Lemma Merge_empty_l m : Merge ∅ m = m.
Proof. apply map_eq; intros k. rewrite lookup_Merge, lookup_empty. by destruct (m !! k). Qed.

Lemma Merge_empty_r m : Merge m ∅ = m.
Proof. apply map_eq; intros k. by rewrite lookup_Merge, lookup_empty. Qed.

Lemma merge_value_idemp v : merge_value v v = v.
Proof.
  induction v as [s|l IH|m IH|m IH] using val_ind'; [done|done| |done].
  rewrite merge_value_maps. f_equal. apply map_eq; intros k. rewrite lookup_Merge.
  destruct (m !! k) eqn:E; [|done]. f_equal. eauto.
Qed.

(** Layer [b] does not put a plain value where both its neighbours have a map. *)
Definition no_gap (a b c : val) : Prop :=
  ∀ p av bv cv, get_path a p = Some av → get_path b p = Some bv → get_path c p = Some cv →
    is_map av = true → is_map cv = true → is_map bv = true.

Lemma no_gap_child a b c k av bv cv :
  no_gap (VMap a) (VMap b) (VMap c) →
  a !! k = Some av → b !! k = Some bv → c !! k = Some cv → no_gap av bv cv.
Proof.
  intros Hg Ha Hb Hc p x y z Hx Hy Hz.
  apply (Hg (k :: p)); simpl; by rewrite ?Ha, ?Hb, ?Hc.
Qed.

Lemma merge_value_assoc a b c :
  no_gap a b c →
  merge_value (merge_value a b) c = merge_value a (merge_value b c).
Proof.
  revert b c; induction a as [s|l _|am IH|am _] using val_ind'; intros b c Hg.
  1,2,4: by simpl.
  destruct (is_map c) eqn:Hc; [|by rewrite !(merge_value_not_map_r _ c)].
  destruct c as [| |cm|]; try done. clear Hc.
  destruct (is_map b) eqn:Hb.
  2: { specialize (Hg [] _ _ _ eq_refl eq_refl eq_refl eq_refl eq_refl). congruence. }
  destruct b as [| |bm|]; try done. clear Hb.
  rewrite !merge_value_maps. f_equal. apply map_eq; intros k. rewrite !lookup_Merge.
  destruct (cm !! k) as [cv|] eqn:Hc; [|done].
  destruct (bm !! k) as [bv|] eqn:Hb; [|done].
  destruct (am !! k) as [av|] eqn:Ha; [|done]. f_equal.
  eapply IH; [done|]. eapply no_gap_child; done.
Qed.

(** ** Properties *)

(** C2: [Merge] does not depend on the order in which [range] visits the right
    map: every run of the loop, at every level, ends with the tree [Merge l r],
    and there is such a run. *)
Theorem Merge_every_range_order l r result :
  merge_run l r result ↔ result = Merge l r.
Proof.
  split; [apply merge_run_loop_sound|]. intros ->.
  by apply (merge_run_complete_val (VMap l)).
Qed.

(** C1: what a merged configuration holds at any path. Where the right layer
    has a value, that very value is found, the left one's is lost - unless both
    have a map there: then a map is found, with the keys of both. Where the
    right layer has nothing, the left layer shows through; except behind a
    plain value of the right layer ([covered]), where nothing is left. *)
Theorem Merge_get_path l r p :
  let merged := get_path (VMap (Merge l r)) p in
  match get_path (VMap r) p with
  | None => merged = if covered (VMap r) p then None else get_path (VMap l) p
  | Some (VMap rm) =>
      match get_path (VMap l) p with
      | Some (VMap lm) => ∃ m, merged = Some (VMap m) ∧ dom m = dom lm ∪ dom rm
      | _ => merged = Some (VMap rm)
      end
  | Some rv => merged = Some rv
  end.
Proof.
  intros merged. pose proof (get_path_merge_value (VMap l) (VMap r) p) as Hm.
  rewrite merge_value_maps in Hm. fold merged in Hm.
  destruct (get_path (VMap r) p) as [rv|] eqn:Hr; [|done].
  rewrite (get_path_covered _ _ _ Hr) in Hm.
  destruct rv as [s|rl|rm|rm];
    try (by rewrite Hm; destruct (get_path (VMap l) p); rewrite ?merge_value_not_map_r).
  destruct (get_path (VMap l) p) as [[s|ll|lm|lm]|]; try done.
  rewrite merge_value_maps in Hm. exists (Merge lm rm). by rewrite dom_Merge.
Qed.

(** Configuration layers can be merged in any grouping, as long as the
    middle layer does not replace by a plain value a section that both its
    neighbours define as a map. *)
Theorem Merge_layers_assoc a b c :
  no_gap (VMap a) (VMap b) (VMap c) →
  Merge (Merge a b) c = Merge a (Merge b c).
Proof.
  intros Hg%merge_value_assoc. rewrite !merge_value_maps in Hg. congruence.
Qed.

Definition example_defaults : rawmap :=
  {[ SStr "rancher" := VMap {[ SStr "console" := VStr "default" ]} ]}.
Definition example_oem : rawmap :=
  {[ SStr "hostname" := VStr "oem" ]}.
Definition example_user : rawmap :=
  {[ SStr "rancher" := VMap {[ SStr "debug" := VBool true ]} ]}.

Lemma Merge_layers_assoc_witness :
  no_gap (VMap example_defaults) (VMap example_oem) (VMap example_user) ∧
  Merge (Merge example_defaults example_oem) example_user =
    Merge example_defaults (Merge example_oem example_user) ∧
  get_path (VMap (Merge (Merge example_defaults example_oem) example_user))
    (dotted ["rancher"; "console"]) = Some (VStr "default").
Proof.
  assert (no_gap (VMap example_defaults) (VMap example_oem) (VMap example_user)) as Hg.
  { intros [|k p] av bv cv; simpl; [by intros; simplify_eq|].
    intros Ha Hb Hc. unfold example_oem, example_defaults in *.
    destruct (decide (k = SStr "hostname")) as [->|Hne].
    - by rewrite lookup_singleton_ne in Ha.
    - by rewrite lookup_singleton_ne in Hb. }
  split; [exact Hg|]. split; [apply (Merge_layers_assoc _ _ _ Hg)|]. vm_compute. reflexivity.
Defined.
