(* ===== verification/ConfigData.v ===== *)
(** * Operations on whole configurations ([config/data_funcs.go],
    [config/config.go], [config/validate.go]) *)

From stdpp Require Import prelude gmap strings list.
From S2P Require Import Prelude GoStrings RawTree.

Local Open Scope string_scope.

(** ** Chained configuration functions *)

Section Chain.
(** A step sees the machine ([W]) and the configuration, which may be nil. *)
Context {W C : Type}.

Definition CfgFunc : Type := W → option C → W * option C * option string.

Record CfgFuncData := { cfd_Name : string; cfd_Func : CfgFunc }.

Fixpoint ChainCfgFuncs (w : W) (cfg : option C) (fs : list CfgFuncData) :
    W * option C * option string :=
  match fs with
  | [] => (w, cfg, None)
  | d :: fs =>
      let '(w, cfg, err) := cfd_Func d w cfg in
      match err with
      | Some e => (w, cfg, Some e)
      | None => ChainCfgFuncs w cfg fs
      end
  end.

Lemma ChainCfgFuncs_app w cfg fs gs :
  ChainCfgFuncs w cfg (fs ++ gs) =
  let '(w', cfg', err) := ChainCfgFuncs w cfg fs in
  match err with
  | Some e => (w', cfg', Some e)
  | None => ChainCfgFuncs w' cfg' gs
  end.
Proof.
  revert w cfg; induction fs as [|d fs IH]; intros w cfg; [done|]. simpl.
  destruct (cfd_Func d w cfg) as [[w' cfg'] [e|]]; [done|apply IH].
Qed.
End Chain.

(** ** Filtering keys *)

(** [filterKey data key]: the part of the tree at [key], and the rest. *)
Fixpoint filterKey (data : rawmap) (key : list string) : rawmap * rawmap :=
  match key with
  | [] => (data, ∅)
  | k :: ks =>
      match data !! SStr k with
      | Some (VMap d) =>
          let '(f, r) := filterKey d ks in
          (if decide (f = ∅) then ∅ else {[SStr k := VMap f]},
           if decide (r = ∅) then delete (SStr k) (MapCopy data)
           else <[SStr k := VMap r]> (MapCopy data))
      | Some d => ({[SStr k := d]}, delete (SStr k) (MapCopy data))
      | None => (∅, MapCopy data)
      end
  end.

Definition PrivateKeys : list string :=
  ["rancher.ssh"; "rancher.docker.ca_key"; "rancher.docker.ca_cert";
   "rancher.docker.server_key"; "rancher.docker.server_cert"].

Definition Additional : list string :=
  ["rancher.password"; "rancher.autologin"; "EXTRA_CMDLINE"].

Definition filter_all (keys : list string) (data : rawmap) : rawmap :=
  foldl (λ data key, (filterKey data (Split key ".")).2) data keys.

Definition filterPrivateKeys (data : rawmap) : rawmap := filter_all PrivateKeys data.

Definition filterAdditional (data : rawmap) : rawmap := filter_all Additional data.

(** [Export], without the final [yaml.Marshal]: the tree that is printed. *)
Definition export_tree (rawCfg : rawmap) (private : bool) : rawmap :=
  let rawCfg := filterAdditional rawCfg in
  if private then rawCfg else filterPrivateKeys rawCfg.

(** Nothing is left at or below the filtered key. *)
Lemma filterKey_rest_hides data key q :
  key ≠ [] → get_path (VMap (filterKey data key).2) (dotted key ++ q) = None.
Proof.
  revert data; induction key as [|k ks IH]; intros data Hne; [done|]. clear Hne.
  simpl. destruct (data !! SStr k) as [[s|l|d|m]|] eqn:Hk; simpl;
    rewrite ?MapCopy_eq, ?lookup_delete_eq, ?Hk; try done.
  destruct (filterKey d ks) as [f r] eqn:E; simpl. rewrite ?MapCopy_eq.
  case_decide; simpl; [by rewrite lookup_delete_eq|]. rewrite lookup_insert_eq.
  destruct ks as [|k' ks]; [simpl in E; by simplify_eq|].
  specialize (IH d). rewrite E in IH. by apply IH.
Qed.

(** The rest holds nothing that was not there. *)
Lemma filterKey_rest_absent data key p :
  get_path (VMap data) p = None → get_path (VMap (filterKey data key).2) p = None.
Proof.
  revert data p; induction key as [|k ks IH]; intros data p Hp.
  { destruct p; [done|]. simpl. by rewrite lookup_empty. }
  destruct p as [|k' p]; [done|]. simpl in *.
  destruct (data !! SStr k) as [[s|l|d|m]|] eqn:Hk; simpl; rewrite ?MapCopy_eq; try done.
  1,2,4: destruct (decide (SStr k = k')) as [<-|Hne];
    [by rewrite lookup_delete_eq|by rewrite lookup_delete_ne].
  destruct (filterKey d ks) as [f r] eqn:E; simpl. rewrite ?MapCopy_eq.
  destruct (decide (SStr k = k')) as [<-|Hne].
  - rewrite Hk in Hp. case_decide; [by rewrite lookup_delete_eq|].
    rewrite lookup_insert_eq. specialize (IH d p Hp). by rewrite E in IH.
  - case_decide; [by rewrite lookup_delete_ne|by rewrite lookup_insert_ne].
Qed.

(** Everything off the filtered path is kept as it was. *)
Lemma filterKey_rest_keeps data key p :
  ¬ (p `prefix_of` dotted key) → ¬ (dotted key `prefix_of` p) →
  get_path (VMap (filterKey data key).2) p = get_path (VMap data) p.
Proof.
  revert data p; induction key as [|k ks IH]; intros data p Hp1 Hp2.
  { destruct Hp2. apply prefix_nil. }
  destruct p as [|k' p]; [destruct Hp1; apply prefix_nil|]. simpl.
  destruct (decide (SStr k = k')) as [<-|Hne].
  - destruct (data !! SStr k) as [[s|l|d|m]|] eqn:Hk; simpl; rewrite ?MapCopy_eq.
    1,2,4: destruct p as [|k' p]; [|by rewrite lookup_delete_eq]; destruct Hp1;
      by apply prefix_cons, prefix_nil.
    2: by rewrite ?Hk.
    destruct (filterKey d ks) as [f r] eqn:E; simpl. rewrite ?MapCopy_eq.
    specialize (IH d p). rewrite E in IH. simpl in IH.
    rewrite <-IH; [|intros ?; apply Hp1; by apply prefix_cons
                   |intros ?; apply Hp2; by apply prefix_cons].
    case_decide as Hr; [|by rewrite lookup_insert_eq]. subst r.
    rewrite lookup_delete_eq. destruct p; [destruct Hp1; by apply prefix_cons, prefix_nil|].
    simpl. by rewrite lookup_empty.
  - destruct (data !! SStr k) as [[s|l|d|m]|] eqn:Hk; simpl; rewrite ?MapCopy_eq; try done.
    1,2,4: by rewrite lookup_delete_ne.
    destruct (filterKey d ks) as [f r]; simpl. rewrite ?MapCopy_eq.
    case_decide; [by rewrite lookup_delete_ne|by rewrite lookup_insert_ne].
Qed.

Lemma filter_all_absent keys data p :
  get_path (VMap data) p = None → get_path (VMap (filter_all keys data)) p = None.
Proof.
  unfold filter_all. revert data; induction keys as [|key keys IH]; intros data Hp; [done|].
  simpl. apply IH. by apply filterKey_rest_absent.
Qed.

Lemma filter_all_hides keys data key q :
  key ∈ keys → get_path (VMap (filter_all keys data)) (dotted (Split key ".") ++ q) = None.
Proof.
  unfold filter_all. intros Hin; revert data.
  induction Hin as [key keys|key key' keys Hin IH]; intros data; simpl; [|apply IH].
  apply (filter_all_absent keys). apply filterKey_rest_hides, Split_not_nil.
Qed.

Lemma filter_all_keeps keys data p :
  Forall (λ key, ¬ (p `prefix_of` dotted (Split key ".")) ∧
                 ¬ (dotted (Split key ".") `prefix_of` p)) keys →
  get_path (VMap (filter_all keys data)) p = get_path (VMap data) p.
Proof.
  unfold filter_all. intros Hf; revert data.
  induction Hf as [|key keys [Hp1 Hp2] Hf IH]; intros data; simpl; [done|].
  rewrite IH. by apply filterKey_rest_keeps.
Qed.

(** ** String keys for the JSON schema *)

Fixpoint ConvertKeysToStrings (item : val) : result val :=
  match item with
  | VSMap m =>
      VSMap <$> map_fold (λ k v acc,
        acc ← acc; v ← ConvertKeysToStrings v; Ok (<[k := v]> acc)) (Ok ∅) m
  | VMap m =>
      VSMap <$> map_fold (λ k v acc,
        acc ← acc;
        match k with
        | SStr k => v ← ConvertKeysToStrings v; Ok (<[k := v]> acc)
        | _ => Panic "interface conversion: key is not string"
        end) (Ok ∅) m
  | VList l =>
      VList <$> foldr (λ v acc, v ← ConvertKeysToStrings v; acc ← acc; Ok (v :: acc)) (Ok []) l
  | VScalar _ => Ok item
  end.

Definition is_str (k : scalar) : bool := match k with SStr _ => true | _ => false end.

(** Every key of every [map[interface{}]interface{}] in the tree is a string. *)
Fixpoint string_keyed (v : val) : bool :=
  match v with
  | VScalar _ => true
  | VList l => forallb string_keyed l
  | VMap m => map_fold (λ k v acc, is_str k && string_keyed v && acc) true m
  | VSMap m => map_fold (λ k v acc, string_keyed v && acc) true m
  end.

(** No [map[interface{}]interface{}] is left in the tree. *)
Fixpoint json_like (v : val) : bool :=
  match v with
  | VScalar _ => true
  | VList l => forallb json_like l
  | VMap _ => false
  | VSMap m => map_fold (λ k v acc, json_like v && acc) true m
  end.

Lemma map_fold_andb {K} `{Countable K} (f : K → val → bool) (m : gmap K val) :
  map_fold (λ k v acc, f k v && acc) true m = true ↔ ∀ k v, m !! k = Some v → f k v = true.
Proof.
  apply (map_fold_weak_ind (λ b m, b = true ↔ ∀ k v, m !! k = Some v → f k v = true)).
  - split; [|done]. intros _ k v. by rewrite lookup_empty.
  - intros i x m' b Hi IH. rewrite andb_true_iff, IH. split.
    + intros [Hx Hm] k v. rewrite lookup_insert_Some. naive_solver.
    + intros Hall. split; [apply Hall, lookup_insert_eq|].
      intros k v Hk. apply Hall. rewrite lookup_insert_ne; [done|congruence].
Qed.

Lemma map_fold_convert {K K'} `{Countable K, Countable K'}
    (f : K → val → result (K' * val)) (P : val → bool) (m : gmap K val) :
  (∀ k v, m !! k = Some v →
     (∃ k' v', f k v = Ok (k', v') ∧ P v' = true) ∨ is_panic (f k v) = true) →
  match map_fold (λ k v acc, acc ← acc; kv ← f k v; Ok (<[kv.1 := kv.2]> acc))
                 (Ok (∅ : gmap K' val)) m with
  | Ok m' => (∀ k v, m' !! k = Some v → P v = true) ∧
             (∀ k v, m !! k = Some v → is_ok (f k v) = true)
  | Err _ => False
  | Panic _ => ∃ k v, m !! k = Some v ∧ is_panic (f k v) = true
  end.
Proof.
  apply (map_fold_weak_ind (λ r m,
    (∀ k v, m !! k = Some v →
      (∃ k' v', f k v = Ok (k', v') ∧ P v' = true) ∨ is_panic (f k v) = true) →
    match r with
    | Ok m' => (∀ k v, m' !! k = Some v → P v = true) ∧
               (∀ k v, m !! k = Some v → is_ok (f k v) = true)
    | Err _ => False
    | Panic _ => ∃ k v, m !! k = Some v ∧ is_panic (f k v) = true
    end)).
  - intros _. by split; intros k v; rewrite lookup_empty.
  - intros i x m' r Hi IH Hf. unfold mbind, result_bind.
    assert (∀ k v, m' !! k = Some v → <[i := x]> m' !! k = Some v) as Hw.
    { intros k v Hk. rewrite lookup_insert_ne; [done|congruence]. }
    destruct r as [acc|e|e]; [|by apply IH; eauto|].
    2: { destruct IH as (k & v & ? & ?); eauto 10. }
    destruct (IH ltac:(eauto)) as [HP Hok].
    destruct (Hf i x (lookup_insert_eq _ _ _)) as [(k' & v' & Hfx & HPv)|Hp].
    + rewrite Hfx. split.
      * intros k v. rewrite lookup_insert_Some. simpl. naive_solver.
      * intros k v. rewrite lookup_insert_Some.
        intros [[<- <-]|[_ Hk]]; [by rewrite Hfx|by apply Hok].
    + destruct (f i x) eqn:Hfx; try done. exists i, x. by rewrite lookup_insert_eq, Hfx.
Qed.

Lemma map_fold_ext_val {K A} `{Countable K} (f g : K → val → A → A) (b : A) (m : gmap K val) :
  (∀ k v a, m !! k = Some v → f k v a = g k v a) → map_fold f b m = map_fold g b m.
Proof.
  rewrite !map_fold_foldr. intros Hfg.
  assert (∀ k v, (k, v) ∈ map_to_list m → m !! k = Some v) as Hin
    by (intros; by apply elem_of_map_to_list).
  induction (map_to_list m) as [|[k v] l IH]; [done|]. simpl.
  rewrite IH by (intros; apply Hin; by right). apply Hfg, Hin. by left.
Qed.

(** One entry of a [map[interface{}]interface{}]. *)
Definition convert_entry (k : scalar) (v : val) : result (string * val) :=
  match k with
  | SStr k => v ← ConvertKeysToStrings v; Ok (k, v)
  | _ => Panic "interface conversion: key is not string"
  end.

Definition convert_sentry (k : string) (v : val) : result (string * val) :=
  v ← ConvertKeysToStrings v; Ok (k, v).

Lemma ConvertKeysToStrings_VMap m :
  ConvertKeysToStrings (VMap m) =
  VSMap <$> map_fold (λ k v acc, acc ← acc; kv ← convert_entry k v; Ok (<[kv.1 := kv.2]> acc))
              (Ok ∅) m.
Proof.
  simpl. f_equal. apply map_fold_ext_val. intros k v a _. unfold mbind, result_bind.
  destruct a; [|done|done]. destruct k; try done. unfold convert_entry.
  unfold mbind, result_bind. by destruct (ConvertKeysToStrings v).
Qed.

Lemma ConvertKeysToStrings_VSMap m :
  ConvertKeysToStrings (VSMap m) =
  VSMap <$> map_fold (λ k v acc, acc ← acc; kv ← convert_sentry k v; Ok (<[kv.1 := kv.2]> acc))
              (Ok ∅) m.
Proof.
  simpl. f_equal. apply map_fold_ext_val. intros k v a _. unfold mbind, result_bind.
  destruct a; [|done|done]. unfold convert_sentry.
  unfold mbind, result_bind. by destruct (ConvertKeysToStrings v).
Qed.

(** What the conversion of a tree does. *)
Definition convert_spec (v : val) : Prop :=
  match ConvertKeysToStrings v with
  | Ok v' => string_keyed v = true ∧ json_like v' = true
  | Err _ => False
  | Panic _ => string_keyed v = false
  end.

Lemma convert_spec_entry k v :
  convert_spec v →
  match convert_entry k v with
  | Ok (_, v') => is_str k && string_keyed v = true ∧ json_like v' = true
  | Err _ => False
  | Panic _ => is_str k && string_keyed v = false
  end.
Proof.
  unfold convert_spec, convert_entry, mbind, result_bind. intros Hv.
  destruct k; simpl; try done. by destruct (ConvertKeysToStrings v).
Qed.

Lemma convert_spec_list l :
  (∀ v, v ∈ l → convert_spec v) → convert_spec (VList l).
Proof.
  intros Hl. unfold convert_spec. simpl.
  assert (match foldr (λ v acc, v ← ConvertKeysToStrings v; acc ← acc; Ok (v :: acc)) (Ok []) l with
          | Ok l' => forallb string_keyed l = true ∧ forallb json_like l' = true
          | Err _ => False
          | Panic _ => forallb string_keyed l = false
          end) as IH.
  { induction l as [|x l IH]; [done|]. simpl.
    pose proof (Hl x ltac:(by left)) as Hx. unfold convert_spec in Hx.
    unfold mbind, result_bind in *.
    destruct (ConvertKeysToStrings x) as [x'|e|e]; [|done|by rewrite Hx].
    destruct Hx as [-> Hx']. specialize (IH ltac:(intros; apply Hl; by right)).
    destruct (foldr _ _ l) as [l'|e|e]; [|done|done]. simpl. by rewrite Hx'. }
  unfold fmap, result_fmap. by destruct (foldr _ _ l).
Qed.

Lemma convert_spec_fold {K} `{Countable K} (f : K → val → result (string * val))
    (Q : K → val → bool) (m : gmap K val) :
  (∀ k v, m !! k = Some v →
     match f k v with
     | Ok (_, v') => Q k v = true ∧ json_like v' = true
     | Err _ => False
     | Panic _ => Q k v = false
     end) →
  match VSMap <$> map_fold (λ k v acc, acc ← acc; kv ← f k v; Ok (<[kv.1 := kv.2]> acc)) (Ok ∅) m with
  | Ok v' => map_fold (λ k v acc, Q k v && acc) true m = true ∧ json_like v' = true
  | Err _ => False
  | Panic _ => map_fold (λ k v acc, Q k v && acc) true m = false
  end.
Proof.
  intros Hf. pose proof (map_fold_convert f json_like m) as Hm.
  unfold fmap, result_fmap.
  destruct (map_fold _ (Ok ∅) m) as [m'|e|e].
  - destruct Hm as [Hj Hok].
    { intros k v Hk. specialize (Hf k v Hk). destruct (f k v) as [[k' v']| |]; [|done|by right].
      left. exists k', v'. by destruct Hf. }
    split; [|by apply map_fold_andb]. apply map_fold_andb. intros k v Hk.
    specialize (Hf k v Hk). specialize (Hok k v Hk). destruct (f k v) as [[]| |]; [|done|done].
    by destruct Hf.
  - apply Hm. intros k v Hk. specialize (Hf k v Hk).
    destruct (f k v) as [[k' v']| |]; [|done|by right]. left. exists k', v'. by destruct Hf.
  - destruct Hm as (k & v & Hk & Hp).
    { intros k v Hk'. specialize (Hf k v Hk'). destruct (f k v) as [[k' v']| |]; [|done|by right].
      left. exists k', v'. by destruct Hf. }
    apply not_true_iff_false. intros Hall. rewrite (map_fold_andb Q) in Hall.
    specialize (Hf k v Hk). specialize (Hall k v Hk).
    destruct (f k v) as [[]| |]; [done|done|]. by rewrite Hf in Hall.
Qed.

Lemma convert_spec_all v : convert_spec v.
Proof.
  induction v as [s|l IH|m IH|m IH] using val_ind'.
  - done.
  - by apply convert_spec_list.
  - unfold convert_spec. rewrite ConvertKeysToStrings_VMap.
    apply (convert_spec_fold _ (λ k v, is_str k && string_keyed v)).
    intros k v Hk. apply convert_spec_entry. eauto.
  - unfold convert_spec. rewrite ConvertKeysToStrings_VSMap.
    apply (convert_spec_fold _ (λ _ v, string_keyed v)).
    intros k v Hk. specialize (IH k v Hk). unfold convert_spec, convert_sentry in *.
    unfold mbind, result_bind. by destruct (ConvertKeysToStrings v).
Qed.

(** ** What [Export] prints and what the schema validation sees *)

(** C3: an export never shows the credentials: whatever the configuration holds
    at or below [rancher.password], [rancher.autologin] or [EXTRA_CMDLINE] is
    absent from every exported tree, what it holds at or below one of the
    private keys (the ssh keys, the docker CA and server material) is absent
    unless private keys were asked for, and every path that is neither a prefix
    nor an extension of a hidden key is exported as it is. *)
Theorem export_tree_hides_keys raw private key q :
  key ∈ (Additional ++ (if private : bool then [] else PrivateKeys))%list →
  get_path (VMap (export_tree raw private)) (dotted (Split key ".") ++ q) = None ∧
  ∀ p, Forall (λ key, ¬ (p `prefix_of` dotted (Split key ".")) ∧
                      ¬ (dotted (Split key ".") `prefix_of` p))
              (Additional ++ (if private then [] else PrivateKeys))%list →
       get_path (VMap (export_tree raw private)) p = get_path (VMap raw) p.
Proof.
  intros Hin. assert (export_tree raw private =
    filter_all (Additional ++ (if private then [] else PrivateKeys))%list raw) as ->.
  { unfold export_tree, filterPrivateKeys, filterAdditional, filter_all.
    rewrite foldl_app. by destruct private. }
  split; [by apply filter_all_hides|]. intros p. apply filter_all_keeps.
Qed.

Lemma export_tree_hides_keys_witness :
  let raw : rawmap :=
    {[ SStr "hostname" := VStr "router";
       SStr "rancher" := VMap {[ SStr "password" := VStr "hunter2";
                                 SStr "debug" := VBool true ]} ]} in
  get_path (VMap raw) (dotted ["rancher"; "password"]) = Some (VStr "hunter2") ∧
  get_path (VMap (export_tree raw true)) (dotted ["rancher"; "password"]) = None ∧
  get_path (VMap (export_tree raw true)) (dotted ["rancher"; "debug"]) = Some (VBool true).
Proof.
  intros raw. split_and!; [reflexivity| |].
  - apply (export_tree_hides_keys raw true "rancher.password" []). by left.
  - assert ("rancher.password" ∈ (Additional ++ [])%list) as Hin by (by left).
    rewrite (proj2 (export_tree_hides_keys raw true "rancher.password" [] Hin)); [reflexivity|].
    repeat constructor; intros [k Hk]; discriminate Hk.
Defined.

(** The conversion for the JSON schema is total on configurations whose maps
    are keyed by strings and only on those (another key is a failed type
    assertion, a panic, never an error value), and its result holds no
    [map[interface{}]interface{}] at any depth. *)
Theorem ConvertKeysToStrings_string_keyed v :
  is_ok (ConvertKeysToStrings v) = string_keyed v ∧
  is_panic (ConvertKeysToStrings v) = negb (string_keyed v) ∧
  ∀ v', ConvertKeysToStrings v = Ok v' → json_like v' = true.
Proof.
  pose proof (convert_spec_all v) as Hv. unfold convert_spec in Hv.
  destruct (ConvertKeysToStrings v); simpl; [|done|by rewrite Hv].
  destruct Hv as [-> Hj]. split_and!; [done..|]. intros. by simplify_eq.
Qed.
