(* ===== verification/FS.v ===== *)
(** * Files written atomically ([pkg/util/util.go],
    [config/cloudinit/system/file.go])

    System calls act on a file tree and can fail at any time; every state the
    tree goes through is recorded, so that a statement about all of them is a
    statement about a crash between two calls. *)

From stdpp Require Import prelude gmap strings list.
From S2P Require Import Prelude GoStrings.

Local Open Scope string_scope.

Record inode := { i_content : string; i_mode : Z; i_owner : string }.

Abbreviation files := (gmap string inode).

(** [w_faults]: the outcome of the calls to come, [None] for success and
    [Some n] for a failure (after [n] bytes, for a write). *)
Record world := {
  w_files : files;
  w_dirs : gset string;
  w_faults : list (option nat);
  w_history : list files;
}.

Definition IO (A : Type) : Type := world → result A * world.

Global Instance IO_ret : MRet IO := λ A a w, (Ok a, w).
Global Instance IO_bind : MBind IO := λ A B f m w,
  match m w with
  | (Ok a, w) => f a w
  | (Err e, w) => (Err e, w)
  | (Panic e, w) => (Panic e, w)
  end.

Definition io_err {A} (e : string) : IO A := λ w, (Err e, w).

(** The state after a system call is recorded. *)
Definition step_files (w : world) (fs : files) (dirs : gset string) : world :=
  {| w_files := fs; w_dirs := dirs; w_faults := tail (w_faults w);
     w_history := w_history w ++ [fs] |}.

(** A system call: what it does to the tree, and what it has done when it
    fails. *)
Definition syscall {A} (msg : string)
    (run : files → gset string → result A * files * gset string)
    (fail : nat → files → files) : IO A := λ w,
  match head (w_faults w) with
  | Some (Some n) => (Err msg, step_files w (fail n (w_files w)) (w_dirs w))
  | _ =>
      let '(r, fs, dirs) := run (w_files w) (w_dirs w) in
      (r, step_files w fs dirs)
  end.

Definition no_effect (n : nat) (fs : files) : files := fs.

(** [defer f()]: the deferred call runs whatever happens, its result is
    dropped. *)
Definition defer {A B} (d : IO B) (m : IO A) : IO A := λ w,
  let '(r, w) := m w in
  let '(_, w) := d w in
  (r, w).

Section Calls.
(** The name [ioutil.TempFile] picks. *)
Context (temp_name : files → string → string → string).

Definition TempFile (dir prefix : string) : IO string :=
  syscall "open temporary file" (λ fs dirs,
    let name := temp_name fs dir prefix in
    (Ok name, <[name := {| i_content := ""; i_mode := 384; i_owner := "root" |}]> fs, dirs))
    no_effect.

(** Replace what a file holds; a failed write leaves a prefix. *)
Definition set_content (name data : string) (fs : files) : files :=
  alter (λ i, {| i_content := data; i_mode := i_mode i; i_owner := i_owner i |}) name fs.

Definition Write (name data : string) : IO () :=
  syscall "write" (λ fs dirs, (Ok (), set_content name data fs, dirs))
    (λ n, set_content name (firstn_s n data)).

Definition Close : IO () := syscall "close" (λ fs dirs, (Ok (), fs, dirs)) no_effect.

(** The bits of an [os.FileMode] that chmod sets: the permissions, setuid, setgid and sticky. *)
Definition file_mode (perm : Z) : Z :=
  Z.lor (Z.land perm 511)
    (Z.lor (if Z.testbit perm 23 then 2048 else 0)
      (Z.lor (if Z.testbit perm 22 then 1024 else 0) (if Z.testbit perm 20 then 512 else 0)))%Z.

Lemma file_mode_small perm : (0 ≤ perm < 512)%Z → file_mode perm = perm.
Proof.
  intros Hp. unfold file_mode. rewrite !Z.testbit_eqb by lia.
  rewrite !(Z.div_small perm) by lia. change (511)%Z with (Z.ones 9). rewrite Z.land_ones by lia.
  rewrite Z.mod_small by lia. apply Z.lor_0_r.
Qed.

Definition Chmod (name : string) (perm : Z) : IO () :=
  syscall "chmod" (λ fs dirs, (Ok (),
    alter (λ i, {| i_content := i_content i; i_mode := file_mode perm; i_owner := i_owner i |}) name fs,
    dirs)) no_effect.

Definition Chown (name owner : string) : IO () :=
  syscall "chown" (λ fs dirs, (Ok (),
    alter (λ i, {| i_content := i_content i; i_mode := i_mode i; i_owner := owner |}) name fs,
    dirs)) no_effect.

Definition Rename (old new : string) : IO () :=
  syscall "rename" (λ fs dirs,
    if decide (new ∈ dirs) then (Err "rename: file exists", fs, dirs)
    else match fs !! old with
         | Some i => (Ok (), <[new := i]> (delete old fs), dirs)
         | None => (Err "rename: no such file", fs, dirs)
         end) no_effect.

Definition Remove (name : string) : IO () :=
  syscall "remove" (λ fs dirs,
    match fs !! name with
    | Some _ => (Ok (), delete name fs, dirs)
    | None => (Err "remove: no such file", fs, dirs)
    end) no_effect.

Definition ReadFile (name : string) : IO string :=
  syscall "read" (λ fs dirs,
    match fs !! name with
    | Some i => (Ok (i_content i), fs, dirs)
    | None => (Err "no such file", fs, dirs)
    end) no_effect.

Definition MkdirAll (dir : string) : IO () :=
  syscall "mkdir" (λ fs dirs,
    match fs !! dir with
    | Some _ => (Err "mkdir: not a directory", fs, dirs)
    | None => (Ok (), fs, {[dir]} ∪ dirs)
    end) no_effect.

(** ** [pkg/util] *)

Definition WriteFileAtomic (filename data : string) (perm : Z) : IO () :=
  let '(dir, file) := split_dir filename in
  tempFile ← TempFile dir ("." +:+ file);
  defer (Remove tempFile) (
    _ ← Write tempFile data;
    _ ← Close;
    _ ← Chmod tempFile perm;
    Rename tempFile filename).

Definition FileCopy (src dest : string) : IO () :=
  data ← ReadFile src;
  WriteFileAtomic dest data 438.

(** ** [config/cloudinit/system] *)

Record File := {
  f_Encoding : string;
  f_Content : string;
  f_Owner : string;
  f_Path : string;
  f_RawFilePermissions : string;
}.

Fixpoint octal_val (acc : Z) (s : string) : option Z :=
  match s with
  | "" => Some acc
  | String c s =>
      if (48 <=? byte_of c)%Z && (byte_of c <=? 55)%Z
      then octal_val (acc * 8 + (byte_of c - 48)) s else None
  end.

(** [strconv.ParseInt(s, 8, 32)]: [None] for a syntax or a range error. *)
Definition ParseInt8_32 (s : string) : option Z :=
  let body (neg : bool) (ds : string) : option Z :=
    match ds with
    | "" => None
    | _ =>
        match octal_val 0 ds with
        | Some n =>
            let n := if neg then (- n)%Z else n in
            if (-2147483648 <=? n)%Z && (n <=? 2147483647)%Z then Some n else None
        | None => None
        end
    end in
  match s with
  | String "+" ds => body false ds
  | String "-" ds => body true ds
  | _ => body false s
  end.

(** The mode is the 32-bit pattern of the number. *)
Definition Permissions (f : File) : result Z :=
  if String.eqb (f_RawFilePermissions f) "" then Ok 420%Z
  else match ParseInt8_32 (f_RawFilePermissions f) with
       | Some perm => Ok (perm mod 4294967296)%Z
       | None => Err "Unable to parse file permissions as integer"
       end.

Definition EnsureDirectoryExists (dir : string) : IO () := λ w,
  if decide (dir ∈ w_dirs w) then (Ok (), w)
  else match w_files w !! dir with
       | Some _ => (Err (dir +:+ " is not a directory"), w)
       | None => MkdirAll dir w
       end.

Definition lift {A} (r : result A) : IO A := λ w, (r, w).

Definition WriteFile (f : File) (root : string) : IO string :=
  if negb (String.eqb (f_Encoding f) "") then
    io_err ("Unable to write file with encoding " +:+ f_Encoding f)
  else
    let fullpath := path_Join [root; f_Path f] in
    let dir := Dir fullpath in
    _ ← EnsureDirectoryExists dir;
    perm ← lift (Permissions f);
    tmp ← TempFile dir "cloudinit-temp";
    _ ← Write tmp (f_Content f);
    _ ← Close;
    _ ← Chmod tmp perm;
    _ ← (if String.eqb (f_Owner f) "" then mret () else Chown tmp (f_Owner f));
    _ ← Rename tmp fullpath;
    mret fullpath.

End Calls.

(** ** Lemmas *)

(** [triple I P m Q]: from a state where [P] holds, [m] only goes through states
    where [I] holds, and ends with an outcome and a state that [Q] relates. *)
Definition triple {A} (I P : files → Prop) (m : IO A) (Q : result A → files → Prop) : Prop :=
  ∀ w, I (w_files w) → Forall I (w_history w) → P (w_files w) →
    I (w_files (m w).2) ∧ Forall I (w_history (m w).2) ∧ Q (m w).1 (w_files (m w).2).

(** Success ends in [Q], failure in [E]. *)
Definition post {A} (Q : A → files → Prop) (E : files → Prop) : result A → files → Prop :=
  λ r fs, match r with Ok a => Q a fs | _ => E fs end.

Section triple.
Context (I : files → Prop).

Lemma triple_syscall {A} P msg run fail (Q : result A → files → Prop) :
  (∀ fs dirs, I fs → P fs → I (run fs dirs).1.2 ∧ Q (run fs dirs).1.1 (run fs dirs).1.2) →
  (∀ n fs, I fs → P fs → I (fail n fs) ∧ Q (Err msg) (fail n fs)) →
  triple I P (syscall msg run fail) Q.
Proof.
  intros Hrun Hfail w Hw Hh HP. unfold syscall.
  specialize (Hrun (w_files w) (w_dirs w) Hw HP).
  assert (∀ fs, I fs → Forall I (w_history w ++ [fs])) as Happ.
  { intros fs Hfs. apply Forall_app. split; [done|]. by apply Forall_singleton. }
  destruct (head (w_faults w)) as [[n|]|]; simpl.
  1: by split_and!; [apply Hfail|apply Happ, Hfail|apply Hfail].
  all: destruct (run _ _) as [[r fs] dirs]; simpl in *; destruct Hrun; split_and!; auto.
Qed.

Lemma triple_bind {A B} P Q (E : files → Prop) R (m : IO A) (f : A → IO B) :
  triple I P m (post Q E) → (∀ a, triple I (Q a) (f a) (post R E)) →
  triple I P (m ≫= f) (post R E).
Proof.
  intros Hm Hf w Hw Hh HP. destruct (Hm w Hw Hh HP) as (Hw' & Hh' & HQ).
  unfold mbind, IO_bind. destruct (m w) as [[a|e|e] w']; simpl in *; [|done|done].
  by apply Hf.
Qed.

Lemma triple_defer {A B} P Q (d : IO B) (m : IO A) :
  triple I P m Q → (∀ r, triple I (Q r) d (λ _, Q r)) → triple I P (defer d m) Q.
Proof.
  intros Hm Hd w Hw Hh HP. destruct (Hm w Hw Hh HP) as (Hw' & Hh' & HQ).
  unfold defer. destruct (m w) as [r w1]. simpl in *.
  destruct (Hd r w1 Hw' Hh' HQ) as (? & ? & ?). by destruct (d w1).
Qed.

End triple.

(** A file that is written next to the target and renamed onto it: the calls
    that prepare the temporary file, on any file other than the target. *)
Section Atomic.
Context (target : string) (old : option inode) (new : inode).

Definition untouched (fs : files) : Prop := fs !! target = old.
Definition old_or_new (fs : files) : Prop := fs !! target = old ∨ fs !! target = Some new.

(** The temporary file exists with the given content. *)
Definition prepared (tmp : string) (ok : inode → Prop) (fs : files) : Prop :=
  tmp ≠ target ∧ fs !! target = old ∧ ∃ i, fs !! tmp = Some i ∧ ok i.

Lemma triple_TempFile (temp_name : files → string → string → string) dir prefix :
  (∀ fs, temp_name fs dir prefix ≠ target) →
  triple old_or_new untouched (TempFile temp_name dir prefix)
    (post (λ tmp, prepared tmp (λ i, i_owner i = "root")) untouched).
Proof.
  intros Hne. apply triple_syscall; [|by intros; split].
  intros fs dirs _ Hold. unfold old_or_new, untouched, prepared in *. simpl.
  specialize (Hne fs). rewrite !lookup_insert_ne by done. split; [by left|].
  split_and!; [done..|]. eexists. by rewrite lookup_insert_eq.
Qed.

(** A call that changes only the temporary file. *)
Lemma triple_on_temp tmp ok ok' msg (f : inode → inode) fail_content :
  (∀ i, ok i → ok' (f i)) →
  (∀ n fs, fail_content n fs = fs ∨ ∃ g, fail_content n fs = alter g tmp fs) →
  triple old_or_new (prepared tmp ok)
    (syscall msg (λ fs dirs, (Ok (), alter f tmp fs, dirs)) fail_content)
    (post (λ _, prepared tmp ok') untouched).
Proof.
  intros Hok Hfail. apply triple_syscall.
  - intros fs dirs _ (Hne & Hold & i & Hi & Hoki). unfold old_or_new, prepared. simpl.
    rewrite !lookup_alter_ne by done. split; [by left|]. split_and!; [done..|].
    exists (f i). by rewrite lookup_alter_eq, Hi; auto.
  - intros n fs _ (Hne & Hold & i & Hi & Hoki). unfold old_or_new, untouched. simpl.
    destruct (Hfail n fs) as [->|[g ->]]; [by split; [left|]|].
    rewrite lookup_alter_ne by done. by split; [left|].
Qed.

Lemma triple_Write tmp ok data :
  triple old_or_new (prepared tmp ok) (Write tmp data)
    (post (λ _, prepared tmp (λ i, i_content i = data ∧ ∃ j, ok j ∧ i_owner i = i_owner j))
          untouched).
Proof. apply triple_on_temp; [naive_solver|]. intros n fs. right. by eexists. Qed.

Lemma triple_Close tmp ok :
  triple old_or_new (prepared tmp ok) Close (post (λ _, prepared tmp ok) untouched).
Proof.
  apply triple_syscall; unfold prepared, old_or_new, untouched; simpl; naive_solver.
Qed.

Lemma triple_Chmod tmp ok perm :
  triple old_or_new (prepared tmp ok) (Chmod tmp perm)
    (post (λ _, prepared tmp (λ i, ∃ j, ok j ∧ i = {| i_content := i_content j;
       i_mode := file_mode perm; i_owner := i_owner j |})) untouched).
Proof. apply triple_on_temp; [naive_solver|]. intros n fs. by left. Qed.

Lemma triple_Chown tmp ok owner :
  triple old_or_new (prepared tmp ok) (Chown tmp owner)
    (post (λ _, prepared tmp (λ i, ∃ j, ok j ∧ i = {| i_content := i_content j;
       i_mode := i_mode j; i_owner := owner |})) untouched).
Proof. apply triple_on_temp; [naive_solver|]. intros n fs. by left. Qed.

Lemma triple_Rename tmp :
  triple old_or_new (prepared tmp (λ i, i = new)) (Rename tmp target)
    (post (λ _ fs, fs !! target = Some new ∧ tmp ≠ target) untouched).
Proof.
  apply triple_syscall; [|unfold prepared, old_or_new, untouched; simpl; naive_solver].
  intros fs dirs _ (Hne & Hold & i & Hi & ->). unfold old_or_new, untouched.
  destruct (decide _); simpl; [by split; [left|]|].
  rewrite Hi. simpl. rewrite lookup_insert_eq. eauto.
Qed.

Lemma triple_Remove {A} tmp (r : result A) :
  tmp ≠ target →
  triple old_or_new (post (λ _ fs, fs !! target = Some new) untouched r) (Remove tmp)
    (λ _, post (λ _ fs, fs !! target = Some new) untouched r).
Proof.
  intros Hne. apply triple_syscall; [|by destruct r].
  intros fs dirs HI HP. unfold old_or_new, untouched in *.
  destruct (fs !! tmp); simpl; [|done]. rewrite lookup_delete_ne by done. split; [done|].
  destruct r; simpl in *; by rewrite lookup_delete_ne.
Qed.

End Atomic.

(** The next call of a sequence, and what it establishes. *)
Ltac next_call tac :=
  eapply triple_bind; [tac | let a := fresh "a" in intros a; cbv beta].

(** The whole of [WriteFileAtomic], and of the cloud-init [WriteFile], in terms
    of the target file. *)
Lemma triple_WriteFileAtomic temp_name filename data perm old :
  let '(dir, file) := split_dir filename in
  (∀ fs, temp_name fs dir ("." +:+ file) ≠ filename) →
  let new := {| i_content := data; i_mode := file_mode perm; i_owner := "root" |} in
  triple (old_or_new filename old new) (untouched filename old)
    (WriteFileAtomic temp_name filename data perm)
    (post (λ _ fs, fs !! filename = Some new) (untouched filename old)).
Proof.
  destruct (split_dir filename) as [dir file] eqn:Hs. intros Hne new.
  unfold WriteFileAtomic. rewrite Hs.
  eapply triple_bind; [by apply triple_TempFile|]. intros tmp w Hw Hh HP.
  assert (tmp ≠ filename) as Htmp by apply HP. revert w Hw Hh HP.
  change (triple (old_or_new filename old new)
    (prepared filename old tmp (λ i, i_owner i = "root")) (defer (Remove tmp)
       (_ ← Write tmp data; _ ← Close; _ ← Chmod tmp perm; Rename tmp filename))
    (post (λ _ fs, fs !! filename = Some new) (untouched filename old))).
  apply triple_defer; [|intros r; by apply triple_Remove].
  next_call ltac:(apply triple_Write).
  next_call ltac:(apply triple_Close).
  next_call ltac:(apply triple_Chmod).
  intros w Hw Hh (_ & Hold & i & Hi & j & (Hc & k & Hk & Hj) & ->).
  destruct (triple_Rename filename old new tmp w Hw Hh) as (? & ? & Hpost).
  { split_and!; [done..|]. eexists. split; [done|]. unfold new. by rewrite Hc, Hj, Hk. }
  split_and!; [done..|]. unfold post in *. destruct (Rename tmp filename w).1; [by destruct Hpost|done|done].
Qed.

Lemma triple_frame {A} (m : IO A) (P : files → Prop) (I : files → Prop) (E : files → Prop) :
  (∀ w, w_files (m w).2 = w_files w ∧ (w_history (m w).2 = w_history w ∨
        w_history (m w).2 = (w_history w ++ [w_files w])%list)) →
  (∀ fs, P fs → E fs) → triple I P m (post (λ _, P) E).
Proof.
  intros Hm HE w Hw Hh HP. destruct (Hm w) as [-> Hh']. split_and!; [done| |].
  - destruct Hh' as [->| ->]; [done|]. apply Forall_app. split; [done|by apply Forall_singleton].
  - unfold post. destruct (m w).1; auto.
Qed.

Lemma EnsureDirectoryExists_files dir w :
  w_files (EnsureDirectoryExists dir w).2 = w_files w ∧
  (w_history (EnsureDirectoryExists dir w).2 = w_history w ∨
   w_history (EnsureDirectoryExists dir w).2 = (w_history w ++ [w_files w])%list).
Proof.
  unfold EnsureDirectoryExists, MkdirAll, syscall, no_effect.
  destruct (decide _); [by split; [|left]|].
  destruct (w_files w !! dir) eqn:Hd; [by split; [|left]|].
  destruct (head (w_faults w)) as [[n'|]|]; rewrite ?Hd; simpl; by split; [|right].
Qed.

Lemma lift_files {A} (r : result A) w : (lift r w).2 = w.
Proof. done. Qed.

Lemma triple_WriteFile temp_name f root perm old :
  let target := path_Join [root; f_Path f] in
  (∀ fs, temp_name fs (Dir target) "cloudinit-temp" ≠ target) →
  Permissions f = Ok perm →
  let new := {| i_content := f_Content f; i_mode := file_mode perm;
    i_owner := if String.eqb (f_Owner f) "" then "root" else f_Owner f |} in
  triple (old_or_new target old new) (untouched target old) (WriteFile temp_name f root)
    (post (λ _ fs, fs !! target = Some new) (untouched target old)).
Proof.
  intros target Hne Hperm new. unfold WriteFile. fold target.
  destruct (negb (String.eqb (f_Encoding f) "")).
  { intros w Hw Hh HP. by split_and!. }
  eapply triple_bind.
  { eapply triple_frame; [apply EnsureDirectoryExists_files|done]. }
  intros ?; cbv beta. rewrite Hperm. intros w Hw Hh HP. unfold mbind at 1, IO_bind at 1, lift.
  revert w Hw Hh HP.
  match goal with |- ∀ w, _ → _ → _ → ?G =>
    change (triple (old_or_new target old new) (untouched target old)
      (tmp ← TempFile temp_name (Dir target) "cloudinit-temp";
       _ ← Write tmp (f_Content f); _ ← Close; _ ← Chmod tmp perm;
       _ ← (if String.eqb (f_Owner f) "" then mret () else Chown tmp (f_Owner f));
       _ ← Rename tmp target; mret target)
      (post (λ _ fs, fs !! target = Some new) (untouched target old))) end.
  next_call ltac:(by apply triple_TempFile). rename a0 into tmp.
  next_call ltac:(apply triple_Write).
  next_call ltac:(apply triple_Close).
  next_call ltac:(apply triple_Chmod).
  eapply triple_bind.
  { apply (λ H, H : triple _ _ _ (post (λ _, prepared target old tmp (λ i, i = new)) _)).
    unfold new. destruct (String.eqb (f_Owner f) "").
    - intros w Hw Hh (Htmp & Hold & i & Hi & j & (Hc & k & Hk & Hj) & ->).
      split_and!; [done..|]. simpl. split_and!; [done..|]. eexists. split; [done|].
      by rewrite Hc, Hj, Hk.
    - intros w Hw Hh (Htmp & Hold & i & Hi & j & (Hc & k & Hk & Hj) & ->).
      destruct (triple_Chown target old new tmp (λ i, i = {| i_content := i_content j;
        i_mode := file_mode perm; i_owner := i_owner j |}) (f_Owner f) w Hw Hh) as (? & ? & Hpost).
      { split_and!; [done..|]. by eexists. }
      split_and!; [done..|]. unfold post in *. destruct (Chown _ _ w).1; [|done|done].
      destruct Hpost as (? & ? & i' & ? & j' & -> & ->). split_and!; [done..|].
      eexists. split; [done|]. simpl. by rewrite Hc. }
  intros ?; cbv beta. eapply triple_bind.
  { apply (λ H, H : triple _ _ _ (post (λ _ fs, fs !! target = Some new) _)).
    intros w Hw Hh HP.
    destruct (triple_Rename target old new tmp w Hw Hh HP) as (? & ? & Hpost).
    split_and!; [done..|]. unfold post in *. destruct (Rename tmp target w).1; [by destruct Hpost|done|done]. }
  intros ?; cbv beta. by intros w Hw Hh HP.
Qed.

(** ** Properties *)

(** C8: whatever call fails and wherever the machine stops, a file written by
    [WriteFileAtomic] holds, in every state on the way, either what it held
    before or the complete new content with its mode; it holds the new content
    when the function reports success and the old one when it reports an error. A mode that is
    only permissions is the mode of the new file. *)
Theorem WriteFileAtomic_atomic temp_name filename data perm w :
  (∀ fs, temp_name fs (split_dir filename).1 ("." +:+ (split_dir filename).2) ≠ filename) →
  w_history w = [] →
  let new := Some {| i_content := data; i_mode := file_mode perm; i_owner := "root" |} in
  let '(r, w') := WriteFileAtomic temp_name filename data perm w in
  Forall (λ fs, fs !! filename = w_files w !! filename ∨ fs !! filename = new) (w_history w') ∧
  (w_files w' !! filename = if is_ok r then new else w_files w !! filename) ∧
  ((0 ≤ perm < 512)%Z → file_mode perm = perm).
Proof.
  intros Hne Hh new.
  pose proof (triple_WriteFileAtomic temp_name filename data perm (w_files w !! filename)) as Ht.
  destruct (split_dir filename) as [dir file]. cbv zeta in Ht.
  destruct (Ht Hne w ltac:(by left)) as (_ & Hhist & Hpost); [by rewrite Hh|done|].
  destruct (WriteFileAtomic _ _ _ _ w) as [[[]|e|e] w']; (split; [done|]; split; [done|apply file_mode_small]).
Qed.

(** The same of the cloud-init [WriteFile], for every file whose mode
    parses, with or without an owner. *)
Theorem WriteFile_atomic temp_name f root perm w :
  let target := path_Join [root; f_Path f] in
  (∀ fs, temp_name fs (Dir target) "cloudinit-temp" ≠ target) →
  w_history w = [] → Permissions f = Ok perm →
  let new := Some {| i_content := f_Content f; i_mode := file_mode perm;
    i_owner := if String.eqb (f_Owner f) "" then "root" else f_Owner f |} in
  let '(r, w') := WriteFile temp_name f root w in
  Forall (λ fs, fs !! target = w_files w !! target ∨ fs !! target = new) (w_history w') ∧
  w_files w' !! target = if is_ok r then new else w_files w !! target.
Proof.
  intros target Hne Hh Hp new.
  destruct (triple_WriteFile temp_name f root perm (w_files w !! target) Hne Hp w)
    as (_ & Hhist & Hpost); [by left|by rewrite Hh|done|].
  destruct (WriteFile _ _ _ w) as [[p|e|e] w']; by split.
Qed.

Definition example_temp (fs : files) (dir prefix : string) : string :=
  dir +:+ prefix +:+ "000123".

Definition example_world (faults : list (option nat)) : world :=
  {| w_files := {[ "/etc/hosts" := {| i_content := "old"; i_mode := 420; i_owner := "root" |} ]};
     w_dirs := {[ "/etc" ]}; w_faults := faults; w_history := [] |}.

Lemma WriteFileAtomic_atomic_witness :
  let w := example_world [None; None; None; Some 0] in
  let '(r, w') := WriteFileAtomic example_temp "/etc/hosts" "new" 420 w in
  is_ok r = false ∧ w_files w' !! "/etc/hosts" = w_files w !! "/etc/hosts" ∧
  length (w_history w') = 5.
Proof.
  intros w.
  pose proof (WriteFileAtomic_atomic example_temp "/etc/hosts" "new" 420 w
    ltac:(intros fs; discriminate) ltac:(reflexivity)) as H. cbv zeta in H.
  assert ((WriteFileAtomic example_temp "/etc/hosts" "new" 420 w).1 = Err "chmod") as Hr
    by (vm_compute; reflexivity).
  assert (length (w_history (WriteFileAtomic example_temp "/etc/hosts" "new" 420 w).2) = 5)
    as Hl by (vm_compute; reflexivity).
  destruct (WriteFileAtomic example_temp "/etc/hosts" "new" 420 w) as [r w'].
  destruct H as (_ & H & _). simpl in Hr, Hl. rewrite Hr in *. by split_and!.
Defined.

Lemma WriteFile_atomic_witness :
  let f := {| f_Encoding := ""; f_Content := "new"; f_Owner := ""; f_Path := "etc/hosts";
              f_RawFilePermissions := "0600" |} in
  let w := example_world [] in
  let '(r, w') := WriteFile example_temp f "/" w in
  r = Ok "/etc/hosts" ∧
  w_files w' !! "/etc/hosts" =
    Some {| i_content := "new"; i_mode := 384; i_owner := "root" |}.
Proof.
  intros f w.
  pose proof (WriteFile_atomic example_temp f "/" 384 w
    ltac:(intros fs; discriminate) ltac:(reflexivity) ltac:(vm_compute; reflexivity)) as H.
  cbv zeta in H. change (path_Join ["/"; f_Path f]) with "/etc/hosts" in H.
  assert ((WriteFile example_temp f "/" w).1 = Ok "/etc/hosts") as Hr
    by (vm_compute; reflexivity).
  destruct (WriteFile example_temp f "/" w) as [r w'].
  destruct H as [_ H]. simpl in Hr. rewrite Hr in *. by split.
Defined.
