(* ===== verification/CloudInitEnv.v ===== *)
(** * Variable substitution and environment files
    ([config/cloudinit/initialize/env.go],
    [config/cloudinit/system/env_file.go]) *)

From stdpp Require Import prelude gmap strings list.
From S2P Require Import Prelude GoStrings FS.

Local Open Scope string_scope.

Definition nl : string := String "010" "".

(** ** Metadata and substitutions *)

(** [net.IP]s are held as the text [String] gives, [None] for nil. *)
Record Metadata := {
  md_Hostname : string;
  md_SSHPublicKeys : gmap string string;
  md_RootDisk : string;
  md_PublicIPv4 : option string;
  md_PublicIPv6 : option string;
  md_PrivateIPv4 : option string;
  md_PrivateIPv6 : option string;
}.

Record Environment := {
  e_root : string;
  e_configRoot : string;
  e_workspace : string;
  e_sshKeyName : string;
  e_substitutions : gmap string string;
}.

Definition firstNonNull (ip : option string) (env : string) : string := default env ip.

Definition NewEnvironment (Getenv : string → string)
    (root configRoot workspace sshKeyName : string) (metadata : Metadata) : Environment :=
  {| e_root := root; e_configRoot := configRoot; e_workspace := workspace;
     e_sshKeyName := sshKeyName;
     e_substitutions := list_to_map
       [("$public_ipv4", firstNonNull (md_PublicIPv4 metadata) (Getenv "COREOS_PUBLIC_IPV4"));
        ("$private_ipv4", firstNonNull (md_PrivateIPv4 metadata) (Getenv "COREOS_PRIVATE_IPV4"));
        ("$public_ipv6", firstNonNull (md_PublicIPv6 metadata) (Getenv "COREOS_PUBLIC_IPV6"));
        ("$private_ipv6", firstNonNull (md_PrivateIPv6 metadata) (Getenv "COREOS_PRIVATE_IPV6"))] |}.

(** ** [Regexp.ReplaceAllString] templates *)

Definition word_char (c : ascii) : bool :=
  let b := byte_of c in
  is_digit c || ((65 <=? b) && (b <=? 90) || (97 <=? b) && (b <=? 122))%Z || Ascii.eqb c "_".

(** The text of the group [name]: [g0] is the match, [g1] the first group. *)
Definition group_text (g0 g1 name : string) : string :=
  if String.eqb name "0" then g0 else if String.eqb name "1" then g1 else "".

(** [Expand]: the state is the name being read, if any, and whether it is in
    braces. [$name] takes the longest run of word characters, [$$] is a dollar,
    and a dollar that starts no name is kept. *)
Fixpoint expand (g0 g1 : string) (name : option (bool * string)) (tmpl : string) : string :=
  match name, tmpl with
  | None, "" => ""
  | Some (false, n), "" => if String.eqb n "" then "$" else group_text g0 g1 n
  | Some (true, n), "" => "${" +:+ n
  | None, String c r =>
      if Ascii.eqb c "$" then expand g0 g1 (Some (false, "")) r
      else String c (expand g0 g1 None r)
  | Some (braced, n), String c r =>
      if word_char c then expand g0 g1 (Some (braced, n +:+ String c "")) r
      else if braced && Ascii.eqb c "}" && negb (String.eqb n "") then
        group_text g0 g1 n +:+ expand g0 g1 None r
      else if negb braced && String.eqb n "" && Ascii.eqb c "$" then
        String "$" (expand g0 g1 None r)
      else if negb braced && String.eqb n "" && Ascii.eqb c "{" then
        expand g0 g1 (Some (true, "")) r
      else
        let here :=
          if braced then "${" +:+ n
          else if String.eqb n "" then "$" else group_text g0 g1 n in
        if Ascii.eqb c "$" then here +:+ expand g0 g1 (Some (false, "")) r
        else here +:+ String c (expand g0 g1 None r)
  end.

(** Replace every match of [([^\\]|^)key], an occurrence of [key] at the start
    of the text or after a character that is not a backslash, by that character
    and [val]. Matches do not overlap: [skip] counts the bytes of the last one. *)
Fixpoint sub_plain (key val s : string) (skip : nat) (at_start : bool) : string :=
  match s with
  | "" => ""
  | String c r =>
      match skip with
      | S k => sub_plain key val r k false
      | O =>
          if negb (Ascii.eqb c "\") && HasPrefix r key then
            String c (expand (String c key) (String c "") None val +:+
                      sub_plain key val r (String.length key) false)
          else if at_start && HasPrefix s key then
            expand key "" None val +:+
            sub_plain key val r (String.length key - 1) false
          else String c (sub_plain key val r 0 false)
      end
  end.

(** One round of the loop of [Apply]. *)
Definition apply_one (data : string) (kv : string * string) : string :=
  let '(key, val) := kv in
  let replKey := Replace key "$" "$$" in
  let data := sub_plain key val data 0 true in
  Replace data (String "\" key) (expand (String "\" key) "" None replKey).

Definition Apply_in_order (subs : list (string * string)) (data : string) : string :=
  foldl apply_one data subs.

(** [Apply], for one of the orders in which the map can be visited. *)
Definition Apply (e : Environment) (data : string) : string :=
  Apply_in_order (map_to_list (e_substitutions e)) data.

(** [EnvFile]: the variables and the underlying file. *)
Record EnvFile := { ef_Vars : gmap string string; ef_File : File }.

Definition add_var (name : string) (ip : option string) (vars : gmap string string) :=
  match ip with
  | Some ip => if String.eqb ip "" then vars else <[name := ip]> vars
  | None => vars
  end.

Definition DefaultEnvironmentFile (e : Environment) : option EnvFile :=
  let subs := e_substitutions e in
  let vars := add_var "COREOS_PRIVATE_IPV6" (subs !! "$private_ipv6")
    (add_var "COREOS_PUBLIC_IPV6" (subs !! "$public_ipv6")
    (add_var "COREOS_PRIVATE_IPV4" (subs !! "$private_ipv4")
    (add_var "COREOS_PUBLIC_IPV4" (subs !! "$public_ipv4") ∅))) in
  if decide (vars = ∅) then None
  else Some {| ef_Vars := vars; ef_File := {| f_Encoding := ""; f_Content := ""; f_Owner := "";
    f_Path := "/etc/environment"; f_RawFilePermissions := "" |} |}.

(** ** Environment files *)

Definition key_char (c : ascii) : bool := word_char c.

Fixpoint all_chars (p : ascii → bool) (s : string) : bool :=
  match s with "" => true | String c s => p c && all_chars p s end.

Definition validKey (s : string) : bool := negb (String.eqb s "") && all_chars key_char s.

(** The key of a line: a valid identifier before the first equals sign. *)
Definition line_key (line : string) : string :=
  match cut_char "=" line with
  | Some (k, _) => if validKey k then k else ""
  | None => ""
  end.

Definition trim_cr (line : string) : string := TrimSuffix line (String "013" "").

(** The lines of [lineLexer]: each ends with a newline, a carriage return
    before it is dropped. *)
Definition lex_lines (old : string) : list string :=
  trim_cr <$> removelast (Split old "010").

Definition assignment (key value : string) : string := key +:+ "=" +:+ value +:+ nl.

Fixpoint merge_lines (lines : list string) (pending : gmap string string) :
    string * gmap string string :=
  match lines with
  | [] => ("", pending)
  | line :: lines =>
      let key := line_key line in
      match pending !! key with
      | Some value =>
          let '(buf, rest) := merge_lines lines (delete key pending) in
          (assignment key value +:+ buf, rest)
      | None =>
          let '(buf, rest) := merge_lines lines pending in (line +:+ nl +:+ buf, rest)
      end
  end.

Definition append_pending (pending : gmap string string) : string :=
  foldr (λ key buf, assignment key (default "" (pending !! key)) +:+ buf) ""
    (sorted_keys pending).

Definition mergeEnvContents (old : string) (pending : gmap string string) : string :=
  let old := if negb (String.eqb old "") && negb (HasSuffix old nl) then old +:+ nl else old in
  let '(buf, rest) := merge_lines (lex_lines old) pending in
  buf +:+ append_pending rest.

Inductive read_outcome := ReadOk (content : string) | ReadNotExist | ReadFailed (msg : string).

(** What [WriteEnvFile] decides, from what reading the file gave: an error,
    nothing to do ([Ok None]), or the content to write. *)
Definition WriteEnvFile (ef : EnvFile) (read : read_outcome) : result (option File) :=
  if existsb (λ kv, negb (validKey kv.1)) (map_to_list (ef_Vars ef)) then
    Err "Invalid name"
  else if decide (ef_Vars ef = ∅) then Ok None
  else
    match read with
    | ReadFailed e => Err e
    | _ =>
        let oldContent := match read with ReadOk c => c | _ => "" end in
        let newContent := mergeEnvContents oldContent (ef_Vars ef) in
        if String.eqb oldContent newContent then Ok None
        else Ok (Some {| f_Encoding := f_Encoding (ef_File ef); f_Content := newContent;
          f_Owner := f_Owner (ef_File ef); f_Path := f_Path (ef_File ef);
          f_RawFilePermissions := f_RawFilePermissions (ef_File ef) |})
    end.

Example Apply_test :
  Apply (NewEnvironment (λ _, "") "" "" "" ""
    {| md_Hostname := ""; md_SSHPublicKeys := ∅; md_RootDisk := ""; md_PublicIPv4 := None;
       md_PublicIPv6 := None; md_PrivateIPv4 := Some "127.0.0.1"; md_PrivateIPv6 := None |})
    ("\$private_ipv4" +:+ nl +:+ "$private_ipv4" +:+ nl +:+ "addr: \$private_ipv4" +:+ nl +:+
     "\\$private_ipv4")
  = "$private_ipv4" +:+ nl +:+ "127.0.0.1" +:+ nl +:+ "addr: $private_ipv4" +:+ nl +:+
     "\$private_ipv4".
Proof. vm_compute. reflexivity. Qed.

Example expand_test :
  expand "M" "G" None "a$1b ${1}c $$x $ ${ ${0}$1" = "a Gc $x $ ${ MG".
Proof. vm_compute. reflexivity. Qed.

(** ** Lemmas on environment files *)

Definition text_of (lines : list string) : string :=
  foldr (λ l buf, l +:+ nl +:+ buf) "" lines.

Definition assign_line (key value : string) : string := key +:+ "=" +:+ value.

Fixpoint merged_lines (lines : list string) (pending : gmap string string) :
    list string * gmap string string :=
  match lines with
  | [] => ([], pending)
  | line :: lines =>
      match pending !! line_key line with
      | Some value =>
          let '(ls, rest) := merged_lines lines (delete (line_key line) pending) in
          (assign_line (line_key line) value :: ls, rest)
      | None => let '(ls, rest) := merged_lines lines pending in (line :: ls, rest)
      end
  end.

Definition normal_text (old : string) : string :=
  if negb (String.eqb old "") && negb (HasSuffix old nl) then old +:+ nl else old.

Definition file_lines (old : string) : list string := lex_lines (normal_text old).

(** All the lines of the merged file. *)
Definition all_lines (old : string) (pending : gmap string string) : list string :=
  let '(ls, rest) := merged_lines (file_lines old) pending in
  (ls ++ ((λ k, assign_line k (default "" (rest !! k))) <$> sorted_keys rest))%list.

Lemma text_of_app l1 l2 : text_of (l1 ++ l2)%list = text_of l1 +:+ text_of l2.
Proof.
  induction l1 as [|l l1 IH]; [done|]. cbn [text_of foldr app]. fold text_of.
  change (foldr (λ l buf, l +:+ nl +:+ buf) "" ?x) with (text_of x). rewrite IH.
  by rewrite !app_assoc_s.
Qed.

Lemma merge_lines_text lines pending :
  merge_lines lines pending =
  (text_of (merged_lines lines pending).1, (merged_lines lines pending).2).
Proof.
  revert pending; induction lines as [|l lines IH]; intros pending; [done|]. simpl.
  destruct (pending !! line_key l) as [v|]; rewrite IH;
    destruct (merged_lines lines _) as [ls rest]; simpl; [|done].
  unfold assignment, assign_line. by rewrite !app_assoc_s.
Qed.

Lemma mergeEnvContents_text old pending :
  mergeEnvContents old pending = text_of (all_lines old pending).
Proof.
  unfold mergeEnvContents, all_lines, file_lines. fold (normal_text old).
  rewrite merge_lines_text. destruct (merged_lines _ _) as [ls rest]. cbn [fst snd].
  rewrite text_of_app. f_equal. unfold append_pending.
  induction (sorted_keys rest) as [|k ks IH]; [done|].
  cbn [foldr fmap list_fmap text_of]. rewrite IH. unfold assignment, assign_line.
  by rewrite !app_assoc_s.
Qed.

Lemma all_chars_no p c s :
  all_chars p s = true → p c = false → has_char c s = false.
Proof.
  intros Hs Hc; induction s as [|a s IH]; [done|]. simpl in *.
  apply andb_prop in Hs as [Ha Hs]. rewrite IH by done.
  case_bool_decide; [congruence|done].
Qed.

Lemma line_key_assign k v : validKey k = true → line_key (assign_line k v) = k.
Proof.
  intros Hk. unfold line_key, assign_line. change ("=" +:+ v) with (String "=" v).
  rewrite cut_char_app; [by rewrite Hk|].
  apply andb_prop in Hk as [_ Hk]. by apply (all_chars_no key_char).
Qed.

Definition clean_line (l : string) : Prop := has_char "010" l = false ∧ trim_cr l = l.

Lemma lex_lines_text ls : Forall clean_line ls → lex_lines (text_of ls) = ls.
Proof.
  intros Hls. unfold lex_lines.
  assert (Split (text_of ls) "010" = (ls ++ [""])%list) as ->.
  { induction Hls as [|l ls [Hl _] Hls IH]; [done|]. cbn [text_of foldr].
    change (foldr (λ l buf, l +:+ nl +:+ buf) "" ls) with (text_of ls).
    cbn [nl String.append]. rewrite Split_app, IH by done. done. }
  rewrite removelast_last. induction Hls as [|l ls [_ Hl] Hls IH]; [done|].
  cbn [fmap list_fmap]. by rewrite Hl, IH.
Qed.

Lemma normal_text_text_of ls : normal_text (text_of ls) = text_of ls.
Proof.
  unfold normal_text. destruct ls as [|l ls]; [done|].
  assert (HasSuffix (text_of (l :: ls)) nl = true) as ->; [|by rewrite andb_false_r].
  apply HasSuffix_spec. revert l; induction ls as [|l' ls IH]; intros l.
  - by exists l.
  - destruct (IH l') as [t Ht]. exists (l +:+ nl +:+ t).
    change (text_of (l :: l' :: ls)) with (l +:+ nl +:+ text_of (l' :: ls)).
    rewrite Ht. by rewrite !app_assoc_s.
Qed.

Definition clean_values (pending : gmap string string) : Prop :=
  map_Forall (λ k v, validKey k = true ∧ clean_line (assign_line k v)) pending.

Lemma merged_lines_rest lines pending :
  (merged_lines lines pending).2 ⊆ pending.
Proof.
  revert pending; induction lines as [|l lines IH]; intros pending; [done|]. simpl.
  destruct (pending !! line_key l) as [v|].
  - specialize (IH (delete (line_key l) pending)). destruct (merged_lines _ _). simpl in *.
    etrans; [done|]. apply delete_subseteq.
  - specialize (IH pending). by destruct (merged_lines _ _).
Qed.

Lemma merged_lines_clean lines pending :
  Forall clean_line lines → clean_values pending →
  Forall clean_line (merged_lines lines pending).1.
Proof.
  intros Hl; revert pending; induction Hl as [|l lines Hl Hls IH]; intros pending Hp; [constructor|].
  simpl. destruct (pending !! line_key l) as [v|] eqn:Hv.
  - specialize (IH (delete (line_key l) pending) ltac:(by apply map_Forall_delete)).
    destruct (merged_lines _ _). constructor; [by apply Hp|done].
  - specialize (IH pending Hp). destruct (merged_lines _ _). by constructor.
Qed.

Lemma all_lines_clean old pending :
  Forall clean_line (file_lines old) → clean_values pending →
  Forall clean_line (all_lines old pending).
Proof.
  intros Hl Hp. unfold all_lines.
  pose proof (merged_lines_clean _ _ Hl Hp) as Hm.
  pose proof (merged_lines_rest (file_lines old) pending) as Hr.
  destruct (merged_lines _ _) as [ls rest]. simpl in *. apply Forall_app. split; [done|].
  apply Forall_fmap, Forall_forall. intros k Hk%elem_of_sorted_keys.
  destruct Hk as [v Hv]. simpl. rewrite Hv. simpl. apply Hp. by eapply lookup_weaken.
Qed.

(** Merging the merged lines again changes nothing. *)
Lemma merged_lines_tail ks (m : gmap string string) :
  NoDup ks → (∀ k, k ∈ ks ↔ is_Some (m !! k)) → map_Forall (λ k _, validKey k = true) m →
  merged_lines ((λ k, assign_line k (default "" (m !! k))) <$> ks) m =
  ((λ k, assign_line k (default "" (m !! k))) <$> ks, ∅).
Proof.
  intros Hnd; revert m; induction Hnd as [|k ks Hk Hnd IH]; intros m Hks Hv.
  - simpl. f_equal. apply map_empty. intros k. destruct (m !! k) eqn:E; [|done].
    assert (k ∈ []) by (apply Hks; eauto). by apply not_elem_of_nil in H.
  - destruct (proj1 (Hks k)) as [v Hkv]; [by left|].
    assert (∀ k', k' ∈ ks → delete k m !! k' = m !! k') as Hd.
    { intros k' Hk'. apply lookup_delete_ne. by intros <-. }
    cbn [fmap list_fmap merged_lines]. rewrite Hkv. cbn [default].
    change (default "" (Some v)) with v.
    rewrite line_key_assign by (by eapply Hv). rewrite Hkv.
    specialize (IH (delete k m)).
    assert (((λ k0, assign_line k0 (default "" (delete k m !! k0))) <$> ks) =
            ((λ k0, assign_line k0 (default "" (m !! k0))) <$> ks)) as Hmap.
    { apply list_fmap_ext. intros i x Hx%list_elem_of_lookup_2. by rewrite Hd. }
    rewrite Hmap in IH. unfold fmap in IH |- *. rewrite IH; [done| |by apply map_Forall_delete].
    intros k'. split.
    + intros Hin. rewrite Hd by done. apply Hks. by right.
    + intros [v' Hv'%lookup_delete_Some]. destruct Hv' as [Hne Hv'].
      assert (k' ∈ k :: ks) as Hin by (apply Hks; eauto). apply elem_of_cons in Hin.
      naive_solver.
Qed.

Lemma merged_lines_again lines pending :
  map_Forall (λ k _, validKey k = true) pending →
  let '(ls, rest) := merged_lines lines pending in
  let tail := (λ k, assign_line k (default "" (rest !! k))) <$> sorted_keys rest in
  merged_lines (ls ++ tail)%list pending = ((ls ++ tail)%list, ∅).
Proof.
  revert pending; induction lines as [|l lines IH]; intros pending Hv.
  - simpl. apply merged_lines_tail; [apply NoDup_sorted_keys|apply elem_of_sorted_keys|done].
  - simpl. destruct (pending !! line_key l) as [v|] eqn:Hl.
    + specialize (IH (delete (line_key l) pending) ltac:(by apply map_Forall_delete)).
      destruct (merged_lines lines _) as [ls rest]. cbn [app merged_lines].
      rewrite line_key_assign by (by eapply Hv). rewrite Hl. cbv zeta in IH. by rewrite IH.
    + specialize (IH pending Hv).
      destruct (merged_lines lines _) as [ls rest]. cbn [app merged_lines].
      rewrite Hl. cbv zeta in IH. by rewrite IH.
Qed.

(** The value a shell-like reader that takes the first assignment sees. *)
Fixpoint lines_lookup (k : string) (lines : list string) : option string :=
  match lines with
  | [] => None
  | l :: lines =>
      if String.eqb (line_key l) k then
        match cut_char "=" l with Some (_, v) => Some v | None => lines_lookup k lines end
      else lines_lookup k lines
  end.

Lemma tail_lookup k (rest : gmap string string) ks :
  Forall (λ k, validKey k = true) ks →
  lines_lookup k ((λ k, assign_line k (default "" (rest !! k))) <$> ks) =
  if decide (k ∈ ks) then Some (default "" (rest !! k)) else None.
Proof.
  induction 1 as [|k' ks Hk' Hks IH]; [done|].
  rewrite fmap_cons. cbn [lines_lookup]. rewrite line_key_assign by done. rewrite IH.
  destruct (String.eqb_spec k' k) as [->|Hne].
  - unfold assign_line. change ("=" +:+ ?v) with (String "=" v). rewrite cut_char_app.
    + by rewrite decide_True by (by left).
    + apply andb_prop in Hk' as [_ Hk']. by apply (all_chars_no key_char).
  - destruct (decide (k ∈ ks)) as [Hin|Hin].
    + by rewrite decide_True by (by right).
    + rewrite decide_False; [done|]. rewrite elem_of_cons. naive_solver.
Qed.

Lemma merged_lookup k lines pending :
  map_Forall (λ k _, validKey k = true) pending →
  let '(ls, rest) := merged_lines lines pending in
  lines_lookup k (ls ++ ((λ k, assign_line k (default "" (rest !! k))) <$> sorted_keys rest))%list =
  match pending !! k with Some v => Some v | None => lines_lookup k lines end.
Proof.
  revert pending; induction lines as [|l lines IH]; intros pending Hv.
  - simpl. rewrite tail_lookup.
    + destruct (decide _) as [[v ->]%elem_of_sorted_keys|Hn]; [done|].
      rewrite elem_of_sorted_keys in Hn. destruct (pending !! k); [|done].
      exfalso. by apply Hn.
    + apply Forall_forall. intros k' [v' Hv']%elem_of_sorted_keys. by eapply Hv.
  - simpl. destruct (pending !! line_key l) as [v|] eqn:Hl.
    + assert (validKey (line_key l) = true) as Hkl by (by eapply Hv).
      specialize (IH (delete (line_key l) pending) ltac:(by apply map_Forall_delete)).
      destruct (merged_lines lines _) as [ls rest]. cbn [app lines_lookup].
      rewrite line_key_assign by done. rewrite IH.
      destruct (String.eqb_spec (line_key l) k) as [<-|Hne].
      * rewrite Hl. unfold assign_line. change ("=" +:+ v) with (String "=" v).
        rewrite cut_char_app; [done|].
        apply andb_prop in Hkl as [_ Hkl]. by apply (all_chars_no key_char).
      * rewrite lookup_delete_ne by done. done.
    + specialize (IH pending Hv). destruct (merged_lines lines _) as [ls rest].
      cbn [app lines_lookup]. rewrite IH.
      destruct (String.eqb_spec (line_key l) k) as [<-|Hne]; [|done].
      rewrite Hl. done.
Qed.

(** ** Properties *)

(** C9: after an environment file is updated every new variable has its new
    value and every other variable the value it had, as a reader that takes the
    first assignment of a name sees them; and updating once more with the same
    variables gives the same bytes, so that [WriteEnvFile] then leaves the file
    alone. (No line may end in two carriage returns, of which each update drops one.) *)
Theorem mergeEnvContents_updates old pending :
  Forall clean_line (file_lines old) → clean_values pending →
  let merged := mergeEnvContents old pending in
  (∀ k, lines_lookup k (file_lines merged) =
        match pending !! k with
        | Some v => Some v
        | None => lines_lookup k (file_lines old)
        end) ∧
  mergeEnvContents merged pending = merged.
Proof.
  intros Hold Hp merged.
  assert (map_Forall (λ k _, validKey k = true) pending) as Hv.
  { intros k v Hk. by apply Hp in Hk as [? _]. }
  pose proof (all_lines_clean old pending Hold Hp) as Hc.
  assert (file_lines merged = all_lines old pending) as Hfl.
  { unfold merged, file_lines. rewrite mergeEnvContents_text, normal_text_text_of.
    by apply lex_lines_text. }
  split.
  - intros k. rewrite Hfl. unfold all_lines.
    pose proof (merged_lookup k (file_lines old) pending Hv) as Hk.
    destruct (merged_lines _ _). exact Hk.
  - rewrite mergeEnvContents_text. unfold all_lines. rewrite Hfl. unfold all_lines.
    pose proof (merged_lines_again (file_lines old) pending Hv) as Ha.
    unfold merged. rewrite mergeEnvContents_text. unfold all_lines.
    destruct (merged_lines (file_lines old) pending) as [ls rest]. cbv zeta in Ha.
    rewrite Ha. change (sorted_keys ∅) with (@nil string). cbn [fmap list_fmap].
    by rewrite app_nil_r.
Qed.

Lemma mergeEnvContents_updates_witness :
  let old := "# proxy" +:+ nl +:+ "A=1" +:+ nl +:+ "B=2" in
  let pending : gmap string string := {[ "A" := "9"; "C" := "3" ]} in
  mergeEnvContents old pending =
    "# proxy" +:+ nl +:+ "A=9" +:+ nl +:+ "B=2" +:+ nl +:+ "C=3" +:+ nl ∧
  lines_lookup "B" (file_lines (mergeEnvContents old pending)) = Some "2".
Proof.
  intros old pending. split; [vm_compute; reflexivity|].
  assert (Forall clean_line (file_lines old)) as Hl.
  { change (file_lines old) with ["# proxy"; "A=1"; "B=2"]. repeat constructor. }
  assert (clean_values pending) as Hp.
  { intros k v Hk. apply lookup_insert_Some in Hk as [[<- <-]|[_ Hk]]; [by repeat split|].
    apply lookup_singleton_Some in Hk as [<- <-]. by repeat split. }
  rewrite (proj1 (mergeEnvContents_updates old pending Hl Hp) "B"). reflexivity.
Defined.

(** A variable that follows another one directly is not replaced: the match
    before it has consumed the character it would need. *)
Example Apply_adjacent :
  Apply_in_order [("$public_ipv4", "192.0.2.3")] "$public_ipv4$public_ipv4" =
  "192.0.2.3$public_ipv4".
Proof. vm_compute. reflexivity. Qed.
