(* ===== verification/Cmdline.v ===== *)
(** * The kernel command line as configuration ([config/cmdline/cmdline.go])

    [UnmarshalOrReturnString] goes through the YAML library, which is a
    parameter: [Unmarshal s] is the decoded document, or [None] for an error. *)

From stdpp Require Import prelude gmap strings list.
From S2P Require Import Prelude GoStrings RawTree.

Local Open Scope string_scope.

Definition newline : string := String "010" "".

Definition newlineMagicString : string := "9XsJcx6dR5EERYCC".
Definition colonMagicString : string := "V0Rc21pIVknMm2rr".
Definition questionMarkMagicString : string := "FoPL6JLMAaJqKMJT".

(** ** Values *)

Definition restore_string (s : string) : string :=
  let s := Replace s newlineMagicString newline in
  let s := Replace s colonMagicString ":" in
  Replace s questionMarkMagicString "?".

Fixpoint reverseReplacement (result : val) : val :=
  match result with
  | VMap m => VMap (reverseReplacement <$> m)
  | VList l => VList (reverseReplacement <$> l)
  | VScalar (SStr s) => VStr (restore_string s)
  | _ => result
  end.

Definition protect_string (value : string) : string :=
  let value := Replace value newline newlineMagicString in
  let value := Replace value ":" colonMagicString in
  Replace value "?" questionMarkMagicString.

Definition UnescapeKernelParams (s : string) : string :=
  let s := Replace s (String "\" (String "034" "")) (String "034" "") in
  Replace s "\'" "'".

(** ** Words *)

(** The runes of [unicode.Quotation_Mark]. *)
Definition Quotation_Mark (c : Z) : bool :=
  existsb (λ r, (r.1 <=? c)%Z && (c <=? r.2)%Z)
    [(34, 34); (39, 39); (171, 171); (187, 187); (8216, 8223); (8249, 8250);
     (11842, 11842); (12300, 12303); (12317, 12319); (65089, 65092);
     (65282, 65282); (65287, 65287); (65378, 65379)]%Z.

(** The closure given to [FieldsFunc]: the rune that closes the open quote or
    bracket (0 when there is none), and whether [c] separates two words. *)
Definition split_rune (lastRune c : Z) : Z * bool :=
  if (c =? lastRune)%Z then (0%Z, false)
  else if negb (lastRune =? 0)%Z then (lastRune, false)
  else if Quotation_Mark c then (c, false)
  else if (c =? 91)%Z then (93%Z, false)
  else (lastRune, (c =? 32)%Z).

Fixpoint mark_runes (lastRune : Z) (l : list (Z * string)) : list (bool * string) :=
  match l with
  | [] => []
  | (c, b) :: l =>
      let '(lastRune, sep) := split_rune lastRune c in
      (sep, b) :: mark_runes lastRune l
  end.

Definition splitCmdLine (cmdLine : string) : list string :=
  group_fields (mark_runes 0 (runes cmdLine)) None.

(** ** Reading and writing dotted keys *)

Section Unmarshal.
Context (Unmarshal : string → option val).

Definition UnmarshalOrReturnString (value : string) : val :=
  let value := protect_string value in
  let result := default (VStr value) (Unmarshal value) in
  reverseReplacement result.

Definition is_nil (v : val) : bool :=
  match v with VScalar SNil => true | _ => false end.

(** The value written: strings are decoded, anything else is kept. *)
Definition decode_value (value : val) : val :=
  match value with
  | VScalar (SStr s) => UnmarshalOrReturnString s
  | _ => value
  end.

(** The loop of [GetOrSetVal] from [part] on, in the map [t]. *)
Fixpoint get_or_set (parts : list string) (t : rawmap) (value : val) : val * rawmap :=
  match parts with
  | [] => (VStr "", t)
  | [part] =>
      if negb (is_nil value) then
        let value := decode_value value in (value, <[SStr part := value]> t)
      else match t !! SStr part with
           | Some v => (v, t)
           | None => (VStr "", t)
           end
  | part :: parts =>
      match t !! SStr part with
      | None =>
          if negb (is_nil value) then
            let '(v, newData) := get_or_set parts ∅ value in
            (v, <[SStr part := VMap newData]> t)
          else (VStr "", t)
      | Some (VMap newData) =>
          let '(v, newData) := get_or_set parts newData value in
          (v, <[SStr part := VMap newData]> t)
      | Some _ => (VStr "", t)
      end
  end.

Definition GetOrSetVal (args : string) (data : rawmap) (value : val) : val * rawmap :=
  let parts := Split args "." in
  let tData := if is_nil value then data else MapCopy data in
  get_or_set parts tData value.

(** ** Parsing *)

(** The assignment loop of [Parse]; a plain value on the way drops the
    parameter ([continue outer]). *)
Fixpoint set_keys (keys : list string) (current : rawmap) (value : string) : rawmap :=
  match keys with
  | [] => current
  | [key] => <[SStr key := UnmarshalOrReturnString value]> current
  | key :: keys =>
      match current !! SStr key with
      | Some (VMap newCurrent) =>
          <[SStr key := VMap (set_keys keys newCurrent value)]> current
      | Some _ => current
      | None => <[SStr key := VMap (set_keys keys ∅ value)]> current
      end
  end.

(** A word of the command line as a key and a value, if it is looked at. *)
Definition cmdline_param (parseAll : bool) (part : string) : option (string * string) :=
  let kv part :=
    match SplitN part "=" 2 with
    | [k; v] => Some (k, v)
    | k :: _ => Some (k, "true")
    | [] => None
    end in
  if HasPrefix part "cc." then kv (skipn_s 3 part)
  else if negb (HasPrefix part "rancher.") then
    if negb parseAll then None else kv part
  else kv part.

Definition parse_part (parseAll : bool) (result : rawmap) (part : string) : rawmap :=
  match cmdline_param parseAll part with
  | Some (k, v) => set_keys (Split k ".") result v
  | None => result
  end.

Definition Parse (cmdLine : string) (parseAll : bool) : rawmap :=
  foldl (parse_part parseAll) ∅ (splitCmdLine cmdLine).

(** [Read], given the content of /proc/cmdline ([None]: it cannot be read).
    A nil map reads as an empty one. *)
Definition Read (proc_cmdline : option string) (parseAll : bool) : result rawmap :=
  match proc_cmdline with
  | None => Err "open /proc/cmdline"
  | Some "" => Ok ∅
  | Some cmdLine => Ok (Parse (TrimSpace (UnescapeKernelParams cmdLine)) parseAll)
  end.

Definition GetCmdline (proc_cmdline : option string) (key : string) : val :=
  let parseAll := negb (HasPrefix key "cc." || HasPrefix key "rancher.") in
  let cmdline := match Read proc_cmdline parseAll with Ok m => m | _ => ∅ end in
  (GetOrSetVal key cmdline (VScalar SNil)).1.

End Unmarshal.

(** ** Lemmas *)

Definition quote_state (lastRune : Z) (l : list (Z * string)) : Z :=
  foldl (λ st r, (split_rune st r.1).1) lastRune l.

Lemma mark_runes_app st l1 l2 :
  mark_runes st (l1 ++ l2)%list = (mark_runes st l1 ++ mark_runes (quote_state st l1) l2)%list.
Proof.
  revert st; induction l1 as [|[c b] l1 IH]; intros st; [done|]. simpl.
  destruct (split_rune st c) as [st' sep] eqn:E. simpl. by rewrite IH.
Qed.

(** A word: quotes and brackets are closed in it, and it has no space outside
    of them. *)
Definition closed_word (w : string) : bool :=
  negb (String.eqb w "") && (quote_state 0 (runes w) =? 0)%Z &&
  forallb (λ m, negb m.1) (mark_runes 0 (runes w)).

Lemma group_fields_kept l rest cur :
  forallb (λ m : bool * string, negb m.1) l = true → l ≠ [] →
  group_fields (l ++ rest)%list cur =
  group_fields rest (Some (default "" cur +:+ foldr (λ m acc, m.2 +:+ acc) "" l)).
Proof.
  revert cur; induction l as [|[sep b] l IH]; intros cur Hl Hne; [done|].
  simpl in Hl. destruct sep; [done|]. simpl.
  destruct l as [|m l]; [simpl; by rewrite app_empty_r|].
  rewrite IH by done. simpl. by rewrite app_assoc_s.
Qed.

Lemma mark_runes_bytes st l :
  foldr (λ m acc, m.2 +:+ acc) "" (mark_runes st l) = rune_bytes l.
Proof.
  revert st; induction l as [|[c b] l IH]; intros st; [done|]. simpl.
  destruct (split_rune st c) as [st' sep]. simpl. f_equal. apply IH.
Qed.

Lemma splitCmdLine_word w rest :
  closed_word w = true →
  group_fields (mark_runes 0 (runes w) ++ rest)%list None = group_fields rest (Some w).
Proof.
  unfold closed_word. rewrite !andb_true_iff. intros [[Hne Hq] Hk].
  rewrite group_fields_kept; [|done|].
  - simpl. by rewrite mark_runes_bytes, rune_bytes_runes.
  - destruct w as [|c w]; [done|]. unfold runes. simpl.
    destruct (rune_at _) as [r n]. simpl. by destruct (split_rune 0 r).
Qed.

Lemma closed_word_state w : closed_word w = true → quote_state 0 (runes w) = 0%Z.
Proof. unfold closed_word. rewrite !andb_true_iff. intros [[_ ?] _]. by apply Z.eqb_eq. Qed.

(** [written t t' parts v]: [t'] is [t] with [v] at the path [parts]. *)
Definition written (t t' : rawmap) (parts : list string) (v : val) : Prop :=
  (∀ q, get_path (VMap t') (dotted parts ++ q) = get_path v q) ∧
  (∀ p, ¬ p `prefix_of` dotted parts → ¬ dotted parts `prefix_of` p →
        get_path (VMap t') p = get_path (VMap t) p).

Lemma written_insert t k v : written t (<[SStr k := v]> t) [k] v.
Proof.
  split.
  - intros q. simpl. by rewrite lookup_insert_eq.
  - intros [|k' p] Hp1 Hp2; [by destruct Hp1; apply prefix_nil|]. simpl.
    rewrite lookup_insert_ne; [done|]. intros <-. apply Hp2. by apply prefix_cons, prefix_nil.
Qed.

Lemma written_under t d d' k ks v :
  written d d' ks v → t !! SStr k = None ∧ d = ∅ ∨ t !! SStr k = Some (VMap d) →
  written t (<[SStr k := VMap d']> t) (k :: ks) v.
Proof.
  intros [Hq Hp] Hd. split.
  - intros q. simpl. rewrite lookup_insert_eq. apply Hq.
  - intros [|x p] Hp1 Hp2; [by destruct Hp1; apply prefix_nil|]. simpl.
    destruct (decide (SStr k = x)) as [<-|Hx]; [|by rewrite lookup_insert_ne].
    rewrite lookup_insert_eq, Hp; [|intros ?; apply Hp1; by apply prefix_cons
                                   |intros ?; apply Hp2; by apply prefix_cons].
    destruct Hd as [[-> ->]| ->]; [|done].
    destruct p; [destruct Hp1; by apply prefix_cons, prefix_nil|]. simpl.
    by rewrite lookup_empty.
Qed.

Section write.
Context (Unmarshal : string → option val).

Lemma get_or_set_cons k k' ks t value :
  get_or_set Unmarshal (k :: k' :: ks) t value =
  match t !! SStr k with
  | None =>
      if negb (is_nil value) then
        let '(v, newData) := get_or_set Unmarshal (k' :: ks) ∅ value in
        (v, <[SStr k := VMap newData]> t)
      else (VStr "", t)
  | Some (VMap newData) =>
      let '(v, newData) := get_or_set Unmarshal (k' :: ks) newData value in
      (v, <[SStr k := VMap newData]> t)
  | Some _ => (VStr "", t)
  end.
Proof. done. Qed.

Lemma set_keys_cons k k' ks t value :
  set_keys Unmarshal (k :: k' :: ks) t value =
  match t !! SStr k with
  | Some (VMap newCurrent) =>
      <[SStr k := VMap (set_keys Unmarshal (k' :: ks) newCurrent value)]> t
  | Some _ => t
  | None => <[SStr k := VMap (set_keys Unmarshal (k' :: ks) ∅ value)]> t
  end.
Proof. done. Qed.

Lemma covered_cons k ks t :
  covered (VMap t) (dotted (k :: ks)) =
  match t !! SStr k with Some v' => covered v' (dotted ks) | None => false end.
Proof. done. Qed.

(** The loop's result and the tree it leaves, when it is given a value. *)
Lemma get_or_set_spec parts t value :
  parts ≠ [] → is_nil value = false →
  if covered (VMap t) (dotted parts) then get_or_set Unmarshal parts t value = (VStr "", t)
  else ∃ t', get_or_set Unmarshal parts t value = (decode_value Unmarshal value, t') ∧
             written t t' parts (decode_value Unmarshal value).
Proof.
  intros Hne Hv; revert t. induction parts as [|k ks IH]; intros t; [done|]. clear Hne.
  destruct ks as [|k' ks].
  { assert (covered (VMap t) (dotted [k]) = false) as ->.
    { simpl. by destruct (t !! SStr k) as [[]|]. }
    simpl. rewrite Hv. simpl. eexists. split; [done|]. apply written_insert. }
  specialize (IH ltac:(done)). rewrite covered_cons, get_or_set_cons.
  destruct (t !! SStr k) as [[s|l|d|m]|] eqn:Hk; try done.
  - specialize (IH d). destruct (covered (VMap d) _).
    + rewrite IH. by rewrite insert_id.
    + destruct IH as (d' & -> & Hw). eexists. split; [done|].
      eapply written_under; [done|by right].
  - specialize (IH ∅). rewrite Hv. rewrite covered_cons, lookup_empty in IH.
    destruct IH as (d' & Hd & Hw). cbn [negb]. rewrite Hd. eexists. split; [done|].
    eapply written_under; [done|by left].
Qed.

(** Reading walks the same path. *)
Lemma get_or_set_get parts t :
  parts ≠ [] →
  get_or_set Unmarshal parts t (VScalar SNil) =
  (default (VStr "") (get_path (VMap t) (dotted parts)), t).
Proof.
  intros Hne; revert t. induction parts as [|k ks IH]; intros t; [done|]. clear Hne.
  destruct ks as [|k' ks].
  { simpl. by destruct (t !! SStr k) as [v|]. }
  specialize (IH ltac:(done)). rewrite get_or_set_cons. cbn [is_nil negb].
  change (get_path (VMap t) (dotted (k :: k' :: ks))) with
    (match t !! SStr k with Some v' => get_path v' (dotted (k' :: ks)) | None => None end).
  destruct (t !! SStr k) as [[s|l|d|m]|] eqn:Hk; try done.
  rewrite IH. by rewrite insert_id.
Qed.

(** The two loops that walk a dotted key write the same tree. *)
Lemma set_keys_get_or_set keys t v :
  set_keys Unmarshal keys t v = (get_or_set Unmarshal keys t (VStr v)).2.
Proof.
  revert t; induction keys as [|k ks IH]; intros t; [done|].
  destruct ks as [|k' ks]; [done|]. rewrite set_keys_cons, get_or_set_cons.
  destruct (t !! SStr k) as [[s|l|d|m]|]; cbn [is_nil negb]; try done;
    rewrite IH; by destruct (get_or_set Unmarshal (k' :: ks) _ _).
Qed.

End write.

(** ** Properties *)

(** C4: writing a dotted key. If a plain value sits on the way to the key the
    write is silently dropped (the tree is as before and the result is the empty
    string); otherwise the decoded value is returned, it is what the new tree
    holds at the key, and reading the key back gives it; every path that is
    neither a prefix nor an extension of the key holds what it held. *)
Theorem GetOrSetVal_set Unmarshal args data value :
  is_nil value = false →
  let '(v, data') := GetOrSetVal Unmarshal args data value in
  let key := dotted (Split args ".") in
  if covered (VMap data) key then v = VStr "" ∧ data' = data
  else v = decode_value Unmarshal value ∧ get_path (VMap data') key = Some v ∧
       GetOrSetVal Unmarshal args data' (VScalar SNil) = (v, data') ∧
       ∀ p, ¬ p `prefix_of` key → ¬ key `prefix_of` p →
            get_path (VMap data') p = get_path (VMap data) p.
Proof.
  intros Hv. unfold GetOrSetVal. rewrite Hv, MapCopy_eq.
  pose proof (get_or_set_spec Unmarshal (Split args ".") data value
                (Split_not_nil _ _) Hv) as Hs.
  cbv zeta. destruct (covered (VMap data) _); [by rewrite Hs|].
  destruct Hs as (t' & -> & Hq & Hp). pose proof (Hq []) as Hget. rewrite app_nil_r in Hget.
  split_and!; try done. cbn [is_nil].
  rewrite get_or_set_get by apply Split_not_nil. by rewrite Hget.
Qed.

Lemma GetOrSetVal_set_witness :
  let Unmarshal s := Some (VStr s) in
  let data : rawmap := {[ SStr "rancher" := VMap {[ SStr "debug" := VBool true ]} ]} in
  GetOrSetVal Unmarshal "rancher.console" data (VStr "a:b") =
    (VStr "a:b", {[ SStr "rancher" := VMap {[ SStr "debug" := VBool true;
                                              SStr "console" := VStr "a:b" ]} ]}) ∧
  get_path (VMap (GetOrSetVal Unmarshal "rancher.console" data (VStr "a:b")).2)
    (dotted ["rancher"; "debug"]) = Some (VBool true) ∧
  GetOrSetVal Unmarshal "rancher.debug.x" data (VStr "y") = (VStr "", data).
Proof.
  intros Unmarshal data. split; [vm_compute; reflexivity|]. split.
  - pose proof (GetOrSetVal_set Unmarshal "rancher.console" data (VStr "a:b")
                  ltac:(reflexivity)) as H.
    set (r := GetOrSetVal Unmarshal "rancher.console" data (VStr "a:b")) in H |- *.
    destruct r as [v data']. cbv zeta in H.
    destruct H as (_ & _ & _ & Hp). cbn [snd].
    rewrite Hp; [reflexivity| |]; intros [k Hk]; discriminate Hk.
  - vm_compute. reflexivity.
Defined.

(** [Parse] and the configuration tool agree on what a parameter means: the
    tree of a command line is the one left by [GetOrSetVal] writing, in the
    order of the words, the key and the value of every word that is looked at
    (a missing value reads as true, so a later parameter wins over an earlier
    one and a parameter below a plain value is dropped). *)
Theorem Parse_GetOrSetVal Unmarshal cmdLine parseAll :
  Parse Unmarshal cmdLine parseAll =
  foldl (λ tree kv, (GetOrSetVal Unmarshal kv.1 tree (VStr kv.2)).2) ∅
    (omap (cmdline_param parseAll) (splitCmdLine cmdLine)).
Proof.
  unfold Parse. generalize (∅ : rawmap). induction (splitCmdLine cmdLine) as [|w ws IH];
    intros tree; [done|]. simpl. rewrite IH. unfold parse_part.
  destruct (cmdline_param parseAll w) as [[k v]|]; [|done]. simpl.
  rewrite set_keys_get_or_set. unfold GetOrSetVal. simpl. by rewrite MapCopy_eq.
Qed.

(** *** The grammar of a word *)

(** The characters with the property Quotation_Mark of the Unicode standard. *)
Definition quotation_marks : list Z :=
  [34; 39; 171; 187;
   8216; 8217; 8218; 8219; 8220; 8221; 8222; 8223; 8249; 8250; 11842;
   12300; 12301; 12302; 12303; 12317; 12318; 12319;
   65089; 65090; 65091; 65092; 65282; 65287; 65378; 65379]%Z.

(** Text in which every space is between two equal quotation marks or between
    a bracket [[] and the next []]. Between quotation marks anything but that
    mark may be written, between brackets anything but []]. *)
Inductive phrase : list Z → Prop :=
  | phrase_nil : phrase []
  | phrase_plain c rest :
      c ≠ 32%Z → c ≠ 91%Z → c ∉ quotation_marks →
      phrase rest → phrase (c :: rest)
  | phrase_quoted q inside rest :
      q ∈ quotation_marks → q ∉ inside →
      phrase rest → phrase (q :: inside ++ q :: rest)%list
  | phrase_bracketed inside rest :
      93%Z ∉ inside →
      phrase rest → phrase (91%Z :: inside ++ 93%Z :: rest)%list.

Definition word (w : string) : Prop := w ≠ "" ∧ phrase (runes w).*1.

Lemma Quotation_Mark_spec c : Quotation_Mark c = true ↔ c ∈ quotation_marks.
Proof.
  split.
  - unfold Quotation_Mark. rewrite existsb_exists. intros ([a b] & Hin & Hc).
    simpl in Hc. unfold quotation_marks. rewrite !elem_of_cons, elem_of_nil.
    repeat destruct Hin as [[= <- <-]|Hin]; try lia. destruct Hin.
  - intros Hin. unfold quotation_marks in Hin. rewrite !elem_of_cons, elem_of_nil in Hin.
    repeat destruct Hin as [->|Hin]; try reflexivity. destruct Hin.
Qed.

Lemma not_quotation c : Quotation_Mark c = false → c ∉ quotation_marks.
Proof. intros Hc Hq%Quotation_Mark_spec. congruence. Qed.

Lemma split_rune_quotation q : q ∈ quotation_marks → split_rune 0 q = (q, false).
Proof.
  intros Hq. pose proof (proj2 (Quotation_Mark_spec q) Hq) as Hm.
  unfold split_rune. rewrite Hm. destruct (q =? 0)%Z eqn:E; [|done].
  apply Z.eqb_eq in E as ->. vm_compute in Hm. done.
Qed.

(** Runes between an opening rune and [close], which ends the protection. *)
Lemma protected_runes close inside l :
  close ≠ 0%Z → close ∉ inside.*1 →
  quote_state close (inside ++ l) = quote_state close l ∧
  forallb (λ m, negb m.1) (mark_runes close (inside ++ l)) =
    forallb (λ m, negb m.1) (mark_runes close l).
Proof.
  intros H0. induction inside as [|[c b] inside IH]; [done|]. csimpl.
  rewrite not_elem_of_cons. intros [Hc Hin].
  assert (split_rune close c = (close, false)) as ->
    by (unfold split_rune; rewrite (proj2 (Z.eqb_neq _ _)) by done;
        by rewrite (proj2 (Z.eqb_neq _ _) H0)).
  simpl. by apply IH.
Qed.

Lemma protected_close opening close b inside b' l :
  split_rune 0 opening = (close, false) → close ≠ 0%Z → close ∉ inside.*1 →
  let text := ((opening, b) :: inside ++ (close, b') :: l)%list in
  quote_state 0 text = quote_state 0 l ∧
  forallb (λ m, negb m.1) (mark_runes 0 text) =
    forallb (λ m, negb m.1) (mark_runes 0 l).
Proof.
  intros Ho H0 Hin. unfold quote_state. simpl. rewrite Ho. simpl.
  destruct (protected_runes close inside ((close, b') :: l) H0 Hin) as [Hs Hm].
  unfold quote_state in Hs. rewrite Hs, Hm. simpl.
  assert (split_rune close close = (0%Z, false)) as -> by (unfold split_rune; by rewrite Z.eqb_refl).
  done.
Qed.

Lemma fmap_fst_split (l : list (Z * string)) a c rest :
  l.*1 = (a ++ c :: rest)%list →
  ∃ la b lr, l = (la ++ (c, b) :: lr)%list ∧ la.*1 = a ∧ lr.*1 = rest.
Proof.
  intros H. apply fmap_app_inv in H as (la & l' & -> & H & ->).
  destruct l' as [|[c' b] lr]; [done|]. injection H as -> ->. by exists la, b, lr.
Qed.

(** A phrase leaves no quote open and has no separator. *)
Lemma phrase_protected p :
  phrase p → ∀ l, l.*1 = p →
  quote_state 0 l = 0%Z ∧ forallb (λ m, negb m.1) (mark_runes 0 l) = true.
Proof.
  induction 1 as [|c rest H32 H91 Hq _ IH|q inside rest Hq Hin _ IH|inside rest Hin _ IH];
    intros l Hl.
  - by apply fmap_nil_inv in Hl as ->.
  - destruct l as [|[c' b] l]; [done|]. simplify_eq/=.
    assert (split_rune 0 c = (0%Z, false)) as ->.
    { unfold split_rune. destruct (c =? 0)%Z; [done|]. cbn [negb Z.eqb].
      destruct (Quotation_Mark c) eqn:E; [by apply Quotation_Mark_spec in E|].
      rewrite !(proj2 (Z.eqb_neq _ _)) by done. done. }
    by apply IH.
  - destruct l as [|[c' b] l]; [done|]. injection Hl as -> Hl.
    apply fmap_fst_split in Hl as (la & b' & lr & -> & <- & <-).
    destruct (protected_close q q b la b' lr) as [Hs Hm]; [by apply split_rune_quotation| |done|].
    { intros ->. by apply Quotation_Mark_spec in Hq. }
    rewrite Hs, Hm. by apply IH.
  - destruct l as [|[c' b] l]; [done|]. injection Hl as -> Hl.
    apply fmap_fst_split in Hl as (la & b' & lr & -> & <- & <-).
    destruct (protected_close 91 93 b la b' lr) as [Hs Hm]; [by vm_compute|done|done|].
    rewrite Hs, Hm. by apply IH.
Qed.

Lemma word_runes w p : w ≠ "" → (runes w).*1 = p → phrase p → word w.
Proof. intros ? <-. done. Qed.

Lemma word_closed w : word w → closed_word w = true.
Proof.
  intros [Hne Hp]. destruct (phrase_protected _ Hp _ eq_refl) as [Hs Hm].
  unfold closed_word. rewrite Hs, Hm. by destruct w.
Qed.

Lemma splitCmdLine_closed ws :
  forallb closed_word ws = true → splitCmdLine (Join ws " ") = ws.
Proof.
  intros Hws. unfold splitCmdLine. induction ws as [|w ws IH]; [done|].
  simpl in Hws. apply andb_prop in Hws as [Hw Hws].
  destruct ws as [|w' ws].
  { simpl. rewrite <-(app_nil_r (mark_runes 0 (runes w))). by rewrite splitCmdLine_word. }
  rewrite Join_cons by done. cbn [String.append].
  rewrite runes_app_ascii by (vm_compute; done).
  rewrite mark_runes_app, (closed_word_state w Hw), splitCmdLine_word by done.
  rewrite runes_cons_ascii by (vm_compute; done).
  change (byte_of " ") with 32%Z. cbn [mark_runes].
  change (split_rune 0 32) with (0%Z, true). cbn [group_fields].
  f_equal. by apply IH.
Qed.

(** C5: splitting the command line gives back the words it was joined from, as
    long as every word is a [phrase]: a space in it is between two equal
    quotation marks - any of Unicode's, and between them everything else may
    be written, spaces, brackets and other quotation marks - or between
    brackets. *)
Theorem splitCmdLine_words ws :
  Forall word ws → splitCmdLine (Join ws " ") = ws.
Proof.
  intros Hws. apply splitCmdLine_closed, forallb_forall. intros w Hw.
  apply word_closed. by eapply (proj1 (Forall_forall _ _)), list_elem_of_In.
Qed.

Lemma splitCmdLine_words_witness :
  let hello := "cc.hostname=" +:+ String "034" "my [big host" +:+ String "034" "" in
  let files := "cc.write_files=[{path: /etc/x, content: y}]" in
  Forall word [hello; "rancher.debug=true"; files] ∧
  splitCmdLine (hello +:+ " rancher.debug=true " +:+ files) =
    [hello; "rancher.debug=true"; files].
Proof.
  intros hello files.
  assert (word hello) as Hh.
  { eapply word_runes; [by vm_compute|vm_compute; reflexivity|].
    do 12 (apply phrase_plain; [done|done|by apply not_quotation|]).
    apply (phrase_quoted 34 [109; 121; 32; 91; 98; 105; 103; 32; 104; 111; 115; 116]%Z []);
      [by apply Quotation_Mark_spec|by apply (bool_decide_unpack _)|constructor]. }
  assert (word "rancher.debug=true") as Hr.
  { eapply word_runes; [by vm_compute|vm_compute; reflexivity|].
    repeat (apply phrase_plain; [done|done|by apply not_quotation|]). constructor. }
  assert (word files) as Hf.
  { eapply word_runes; [by vm_compute|vm_compute; reflexivity|].
    do 15 (apply phrase_plain; [done|done|by apply not_quotation|]).
    apply (phrase_bracketed
      [123; 112; 97; 116; 104; 58; 32; 47; 101; 116; 99; 47; 120; 44; 32; 99; 111; 110; 116;
       101; 110; 116; 58; 32; 121; 125]%Z []); [by apply (bool_decide_unpack _)|constructor]. }
  assert (Forall word [hello; "rancher.debug=true"; files]) as Hw.
  { constructor; [exact Hh|]. constructor; [exact Hr|]. constructor; [exact Hf|constructor]. }
  split; [exact Hw|]. exact (splitCmdLine_words _ Hw).
Defined.
