(* ===== verification/DiskConfig.v ===== *)
(** * Loading and changing the configuration ([config/disk.go],
    [config/config.go])

    The YAML library, the struct conversion [util.Convert] and the disk are
    parameters. *)

From stdpp Require Import prelude gmap strings list.
From S2P Require Import Prelude GoStrings RawTree ConfigData FS CloudInitEnv Cmdline.

Local Open Scope string_scope.

Definition CloudConfigDir : string := "/var/lib/rancher/conf/cloud-config.d".
Definition CloudConfigFile : string := "/var/lib/rancher/conf/cloud-config.yml".
Definition MetaDataFile : string := "/var/lib/rancher/conf/metadata".
Definition OsConfigFile : string := "/usr/share/ros/os-config.yml".
Definition OemDir : string := "/usr/share/ros/oem".
Definition OemConfigFile : string := OemDir +:+ "/oem-config.yml".

(** The fields of the configuration the functions below touch; the others are
    kept as the tree they come from. *)
Record ServiceConfigV1 := { sv_ContainerName : string; sv_other : val }.

Record RancherConfig := {
  rc_Environment : option (gmap string string);
  rc_Services : option (gmap string (option ServiceConfigV1));
  rc_BootstrapContainers : option (gmap string (option ServiceConfigV1));
  rc_Debug : bool;
  rc_ServicesInclude : option (gmap string bool);
  rc_RegistryAuths : option (gmap string val);
  rc_Sysctl : option (gmap string string);
  rc_other : val;
}.

Record CloudConfig := { cc_Rancher : RancherConfig; cc_other : val }.

Definition amendNils (c : CloudConfig) : CloudConfig :=
  let r := cc_Rancher c in
  {| cc_Rancher := {|
       rc_Environment := Some (default ∅ (rc_Environment r));
       rc_Services := Some (default ∅ (rc_Services r));
       rc_BootstrapContainers := Some (default ∅ (rc_BootstrapContainers r));
       rc_Debug := rc_Debug r;
       rc_ServicesInclude := Some (default ∅ (rc_ServicesInclude r));
       rc_RegistryAuths := Some (default ∅ (rc_RegistryAuths r));
       rc_Sysctl := Some (default ∅ (rc_Sysctl r));
       rc_other := rc_other r |};
     cc_other := cc_other c |}.

(** One map of services: a nil service is a nil pointer dereference. *)
Definition name_services (scm : gmap string (option ServiceConfigV1)) :
    result (gmap string (option ServiceConfigV1)) :=
  if decide (map_Forall (λ _ v, is_Some v) scm) then
    Ok (map_imap (λ k v,
      Some (match v with
            | Some s => Some {| sv_ContainerName := k; sv_other := sv_other s |}
            | None => None
            end)) scm)
  else Panic "nil pointer dereference".

Definition name_services_opt (scm : option (gmap string (option ServiceConfigV1))) :
    result (option (gmap string (option ServiceConfigV1))) :=
  match scm with
  | Some scm => Some <$> name_services scm
  | None => Ok None
  end.

Definition amendContainerNames (c : CloudConfig) : result CloudConfig :=
  let r := cc_Rancher c in
  bootstrap ← name_services_opt (rc_BootstrapContainers r);
  services ← name_services_opt (rc_Services r);
  Ok {| cc_Rancher := {|
          rc_Environment := rc_Environment r;
          rc_Services := services;
          rc_BootstrapContainers := bootstrap;
          rc_Debug := rc_Debug r;
          rc_ServicesInclude := rc_ServicesInclude r;
          rc_RegistryAuths := rc_RegistryAuths r;
          rc_Sysctl := rc_Sysctl r;
          rc_other := rc_other r |};
        cc_other := cc_other c |}.

(** [Insert]: pairs of keys and values; an odd number of them is a panic, and so
    is a key that cannot be hashed. *)
Fixpoint insert_pairs (m : rawmap) (args : list val) : result rawmap :=
  match args with
  | [] => Ok m
  | VScalar k :: v :: args => insert_pairs (<[k := v]> m) args
  | _ => Panic "unhashable key"
  end.

Definition Insert (m : rawmap) (args : list val) : result rawmap :=
  if negb (Nat.even (length args)) then Panic "must have pairs of keys and values"
  else insert_pairs m args.

(** [GetKernelVersion], given /proc/version. *)
Definition GetKernelVersion (proc_version : option string) : result string :=
  match proc_version with
  | None => Ok ""
  | Some b =>
      match Split b " " !! 2 with
      | Some v => Ok v
      | None => Panic "index out of range"
      end
  end.

(** ** Metadata of the datasource *)

(** The list found under [ssh_authorized_keys]; anything else is no list. *)
Definition as_list (v : option val) : list val :=
  match v with Some (VList l) => l | _ => [] end.

(** [v == ""] on an interface value. *)
Definition is_empty_string (v : val) : bool :=
  match v with VScalar (SStr s) => String.eqb s "" | _ => false end.

Definition mergeMetadata (rawCfg : option rawmap) (md : Metadata) : result (option rawmap) :=
  match rawCfg with
  | None => Ok None
  | Some rawCfg =>
      let out := MapCopy rawCfg in
      let outHostname := default (VStr "") (out !! SStr "hostname") in
      let out :=
        if String.eqb (md_Hostname md) "" then out
        else if negb (is_empty_string outHostname) then out
        else <[SStr "hostname" := VStr (md_Hostname md)]> out in
      let keys := sorted_keys (md_SSHPublicKeys md) in
      let finalKeys := (as_list (out !! SStr "ssh_authorized_keys") ++
        ((λ k, VStr (default "" (md_SSHPublicKeys md !! k))) <$> keys))%list in
      let out := <[SStr "ssh_authorized_keys" := VList finalKeys]> out in
      match out !! SStr "rancher" with
      | Some (VMap rancherOut) =>
          if negb (String.eqb (md_RootDisk md) "") && bool_decide (rancherOut !! SStr "resize_device" = None)
          then Ok (Some (<[SStr "rancher" :=
                 VMap (<[SStr "resize_device" := VStr (md_RootDisk md)]> rancherOut)]> out))
          else Ok (Some out)
      | _ =>
          if negb (String.eqb (md_RootDisk md) "") then Panic "assignment to entry in nil map"
          else Ok (Some out)
      end
  end.

(** ** Reading *)

Section Disk.
Context (Unmarshal : string → option val).
Context (UnmarshalMap : string → option rawmap).
Context (UnmarshalMetadata : string → Metadata).
Context (Convert : rawmap → option CloudConfig).
Context (Getenv : string → string).

(** The disk: what reading a file and a directory gives. *)
Record disk := {
  d_ReadFile : string → read_outcome;
  d_ReadDir : string → option (list (string * bool));
}.

Definition empty_metadata : Metadata :=
  {| md_Hostname := ""; md_SSHPublicKeys := ∅; md_RootDisk := ""; md_PublicIPv4 := None;
     md_PublicIPv6 := None; md_PrivateIPv4 := None; md_PrivateIPv6 := None |}.

Definition readMetadata (d : disk) : Metadata :=
  match d_ReadFile d MetaDataFile with
  | ReadOk b => UnmarshalMetadata b
  | _ => empty_metadata
  end.

Definition readConfigFile (d : disk) (file : string) : result string :=
  match d_ReadFile d file with
  | ReadOk content => Ok content
  | ReadNotExist => Ok ""
  | ReadFailed e => Err e
  end.

Definition substituteVars (userDataBytes : string) (metadata : Metadata) : string :=
  Apply (NewEnvironment Getenv "" "" "" "" metadata) userDataBytes.

(** One document: its text is substituted, decoded and checked against the
    configuration type. *)
Definition decode_layer (substituteMetadataVars : bool) (metadata : Metadata)
    (content : string) : result rawmap :=
  let content := if substituteMetadataVars then substituteVars content metadata else content in
  match UnmarshalMap content with
  | None => Err "yaml"
  | Some doc =>
      match Convert doc with
      | None => Err "not a configuration"
      | Some _ => Ok doc
      end
  end.

(** One turn of the loop over the files. *)
Definition read_step (d : disk) (substituteMetadataVars returnErr : bool) (metadata : Metadata)
    (left : rawmap) (file : string) : result rawmap :=
  match readConfigFile d file with
  | Ok content =>
      if String.eqb content "" then Ok left
      else match decode_layer substituteMetadataVars metadata content with
           | Ok doc => Ok (Merge left doc)
           | Err e => if returnErr then Err e else Ok left
           | Panic e => Panic e
           end
  | Err e => if returnErr then Err e else Ok left
  | Panic e => Panic e
  end.

Definition readConfigs (d : disk) (bytes : string) (substituteMetadataVars returnErr : bool)
    (files : list string) : result rawmap :=
  let metadata := readMetadata d in
  left ← foldM (read_step d substituteMetadataVars returnErr metadata) ∅ files;
  if String.eqb bytes "" then Ok left
  else match decode_layer substituteMetadataVars metadata bytes with
       | Ok doc => Ok (Merge left doc)
       | Err e => if returnErr then Err e else Ok left
       | Panic e => Panic e
       end.

Definition ReadConfig (d : disk) (bytes : string) (substituteMetadataVars : bool)
    (files : list string) : result CloudConfig :=
  data ← readConfigs d bytes substituteMetadataVars true files;
  match Convert data with
  | None => Err "not a configuration"
  | Some c => amendContainerNames (amendNils c)
  end.

Definition CloudConfigDirFiles (d : disk) (dirPrefix : string) : list string :=
  let cloudConfigDir := path_Join [dirPrefix; CloudConfigDir] in
  match d_ReadDir d cloudConfigDir with
  | None => []
  | Some files =>
      (λ f, path_Join [cloudConfigDir; f.1]) <$>
        filter (λ f, negb f.2 && negb (HasPrefix f.1 ".") = true) files
  end.

Definition loadRawDiskConfig (d : disk) (dirPrefix : string) (full : bool) : result rawmap :=
  rawCfg ← (if full then readConfigs d "" true false [OsConfigFile; OemConfigFile] else Ok ∅);
  let files := (CloudConfigDirFiles d dirPrefix ++ [path_Join [dirPrefix; CloudConfigFile]])%list in
  additionalCfgs ← readConfigs d "" true false files;
  Ok (Merge rawCfg additionalCfgs).

Definition loadRawDiskConfigWithError (d : disk) (dirPrefix : string) (full : bool) :
    result rawmap :=
  rawCfg ← readConfigs d "" true true [OsConfigFile; OemConfigFile];
  let files := (CloudConfigDirFiles d dirPrefix ++ [path_Join [dirPrefix; CloudConfigFile]])%list in
  additionalCfgs ← readConfigs d "" true true files;
  Ok (Merge rawCfg additionalCfgs).

(** The command line saved by [SaveInitCmdline]; nil reads as empty. *)
Definition readElidedCmdline (rawCfg : rawmap) : rawmap :=
  match rawCfg !! SStr "EXTRA_CMDLINE" with
  | Some (VScalar (SStr v)) => Parse Unmarshal (TrimSpace (UnescapeKernelParams v)) false
  | _ => ∅
  end.

Definition applyDebugFlags (rawCfg : rawmap) : rawmap :=
  match Convert rawCfg with
  | None => rawCfg
  | Some cfg =>
      if negb (rc_Debug (cc_Rancher cfg)) then rawCfg
      else
        let set key cfg := (GetOrSetVal Unmarshal key cfg (VBool true)).2 in
        set "rancher.log" (set "rancher.bootstrap_docker.debug"
          (set "rancher.system_docker.debug" (set "rancher.docker.debug" rawCfg)))
  end.

(** What both loaders do with the tree of the disk. *)
Definition overlay_cmdline (d : disk) (proc_cmdline : option string) (rawCfg : rawmap) :
    result (option rawmap) :=
  let procCmdline :=
    match Read Unmarshal proc_cmdline false with Ok m => m | _ => ∅ end in
  let rawCfg := Merge rawCfg procCmdline in
  let rawCfg := Merge rawCfg (readElidedCmdline rawCfg) in
  let rawCfg := applyDebugFlags rawCfg in
  mergeMetadata (Some rawCfg) (readMetadata d).

Definition loadRawConfig (d : disk) (proc_cmdline : option string) (dirPrefix : string)
    (full : bool) : result (option rawmap) :=
  rawCfg ← loadRawDiskConfig d dirPrefix full;
  overlay_cmdline d proc_cmdline rawCfg.

Definition loadRawConfigWithError (d : disk) (proc_cmdline : option string) (dirPrefix : string)
    (full : bool) : result (option rawmap) :=
  rawCfg ← loadRawDiskConfigWithError d dirPrefix full;
  overlay_cmdline d proc_cmdline rawCfg.

(** [LoadConfigWithPrefix]: a tree that is no configuration ends the process. *)
Definition LoadConfigWithPrefix (d : disk) (proc_cmdline : option string) (dirPrefix : string) :
    result CloudConfig :=
  rawCfg ← loadRawConfig d proc_cmdline dirPrefix true;
  match Convert (default ∅ rawCfg) with
  | None => Err "EXITING: Failed to parse configuration"
  | Some cfg => amendContainerNames (amendNils cfg)
  end.

(** The tree [Export] prints. *)
Definition Export (d : disk) (proc_cmdline : option string) (private full : bool) :
    result rawmap :=
  rawCfg ← loadRawConfig d proc_cmdline "" full;
  Ok (export_tree (default ∅ rawCfg) private).

(** ** Changing: the tree that is written to [CloudConfigFile] *)

Definition Merge_config (d : disk) (bytes : string) : result rawmap :=
  data ← readConfigs d bytes false true [];
  existing ← readConfigs d "" false true [CloudConfigFile];
  Ok (Merge existing data).

Definition Set_config (d : disk) (key : string) (value : val) : result rawmap :=
  existing ← readConfigs d "" false true [CloudConfigFile];
  let modified := (GetOrSetVal Unmarshal key existing value).2 in
  match Convert modified with
  | None => Err "not a configuration"
  | Some _ => Ok modified
  end.

(** The tree [SaveInitCmdline] writes to [CloudConfigInitFile]. *)
Definition SaveInitCmdline (cmdLineArgs : string) : result rawmap :=
  let elidedCfg := Parse Unmarshal cmdLineArgs false in
  env ← Insert ∅ [VStr "EXTRA_CMDLINE"; VStr cmdLineArgs];
  rancher ← Insert ∅ [VStr "environment"; VMap env];
  newCfg ← Insert elidedCfg [VStr "rancher"; VMap rancher];
  Insert newCfg [VStr "EXTRA_CMDLINE"; VStr cmdLineArgs].

End Disk.

(** ** Layers *)

Section Layers.
Context (UnmarshalMap : string → option rawmap).
Context (UnmarshalMetadata : string → Metadata).
Context (Convert : rawmap → option CloudConfig).
Context (Getenv : string → string).
Context (d : disk) (substituteMetadataVars : bool).

Let metadata := readMetadata UnmarshalMetadata d.

(** The configuration layer a file contributes: [Ok None] for a file that is
    missing or empty, an error for one that cannot be read or decoded. *)
Definition file_layer (file : string) : result (option rawmap) :=
  content ← readConfigFile d file;
  if String.eqb content "" then Ok None
  else Some <$> decode_layer UnmarshalMap Convert Getenv substituteMetadataVars metadata content.

Definition layer_of (file : string) : option rawmap :=
  match file_layer file with Ok l => l | _ => None end.

Lemma decode_layer_not_panic content e :
  decode_layer UnmarshalMap Convert Getenv substituteMetadataVars metadata content ≠ Panic e.
Proof. unfold decode_layer. cases. Qed.

Lemma readConfigFile_not_panic file e : readConfigFile d file ≠ Panic e.
Proof. unfold readConfigFile. cases. Qed.

Lemma read_step_layer returnErr left file :
  read_step UnmarshalMap Convert Getenv d substituteMetadataVars returnErr metadata left file =
  match file_layer file with
  | Ok l => Ok (from_option (Merge left) left l)
  | Err e => if returnErr then Err e else Ok left
  | Panic e => Panic e
  end.
Proof.
  unfold read_step, file_layer, mbind, result_bind.
  destruct (readConfigFile d file) as [content|e|e]; [|done|done].
  destruct (String.eqb content ""); [done|]. unfold fmap, result_fmap.
  by destruct (decode_layer _ _ _ _ _ content).
Qed.

Lemma file_layer_not_panic file e : file_layer file ≠ Panic e.
Proof.
  unfold file_layer, mbind, result_bind.
  destruct (readConfigFile d file) eqn:E; [|done|by apply readConfigFile_not_panic in E].
  destruct (String.eqb _ ""); [done|]. unfold fmap, result_fmap.
  destruct (decode_layer _ _ _ _ _ _) eqn:E'; [done|done|by apply decode_layer_not_panic in E'].
Qed.

Lemma read_files_lenient files left :
  foldM (read_step UnmarshalMap Convert Getenv d substituteMetadataVars false metadata) left files =
  Ok (foldl Merge left (omap layer_of files)).
Proof.
  revert left; induction files as [|f files IH]; intros left; [done|].
  rewrite foldM_cons, read_step_layer. cbn [omap list_omap]. unfold layer_of at 1.
  destruct (file_layer f) as [[l|]|e|e] eqn:E; simpl; try apply IH.
  by apply file_layer_not_panic in E.
Qed.

Lemma read_files_strict files left :
  if forallb (λ f, is_ok (file_layer f)) files then
    foldM (read_step UnmarshalMap Convert Getenv d substituteMetadataVars true metadata) left files =
    Ok (foldl Merge left (omap layer_of files))
  else ∃ e,
    foldM (read_step UnmarshalMap Convert Getenv d substituteMetadataVars true metadata) left files =
    Err e.
Proof.
  revert left; induction files as [|f files IH]; intros left; [done|].
  rewrite foldM_cons, read_step_layer. cbn [omap list_omap forallb]. unfold layer_of at 1.
  destruct (file_layer f) as [[l|]|e|e] eqn:E; simpl; try apply IH; [by exists e|].
  by apply file_layer_not_panic in E.
Qed.

End Layers.

(** ** Properties *)

(** C6: the configuration read from a list of files is the merge, in that order,
    of the layers of the files that exist, are not empty and decode to a
    configuration. Without error reporting the other files are passed over and
    the result is never an error; with it the same tree comes back when every
    file is good, and an error value (never a partial tree) as soon as one is not. *)
Theorem readConfigs_layers UnmarshalMap UnmarshalMetadata Convert Getenv d subst files :
  let read returnErr :=
    readConfigs UnmarshalMap UnmarshalMetadata Convert Getenv d "" subst returnErr files in
  let layer := file_layer UnmarshalMap UnmarshalMetadata Convert Getenv d subst in
  read false =
    Ok (foldl Merge ∅ (omap (λ f, match layer f with Ok l => l | _ => None end) files)) ∧
  if forallb (λ f, is_ok (layer f)) files then read true = read false
  else ∃ e, read true = Err e.
Proof.
  cbv zeta. unfold readConfigs.
  rewrite read_files_lenient. split; [done|].
  pose proof (read_files_strict UnmarshalMap UnmarshalMetadata Convert Getenv d subst files ∅) as Hs.
  destruct (forallb _ files); [by rewrite Hs|].
  destruct Hs as [e ->]. by exists e.
Qed.

(** User data takes precedence over the datasource's metadata: a hostname
    the configuration sets stays, its SSH keys come first and are followed by the
    metadata's in the order of their names, [rancher.resize_device] is only set
    where it is missing, and nothing else changes. The one way this panics is a
    root disk given to a configuration without a [rancher] section. *)
Theorem mergeMetadata_precedence rawCfg md :
  let hostname := SStr "hostname" in
  let ssh := SStr "ssh_authorized_keys" in
  let rancher := SStr "rancher" in
  let resize := SStr "resize_device" in
  match mergeMetadata (Some rawCfg) md with
  | Err _ | Ok None => False
  | Panic _ => md_RootDisk md ≠ "" ∧ ∀ m, rawCfg !! rancher ≠ Some (VMap m)
  | Ok (Some out) =>
      out !! hostname =
        (if String.eqb (md_Hostname md) "" ||
            negb (is_empty_string (default (VStr "") (rawCfg !! hostname)))
         then rawCfg !! hostname else Some (VStr (md_Hostname md))) ∧
      out !! ssh = Some (VList (as_list (rawCfg !! ssh) ++
        ((λ k, VStr (default "" (md_SSHPublicKeys md !! k))) <$>
           sorted_keys (md_SSHPublicKeys md)))) ∧
      (∀ k, k ∉ [hostname; ssh; rancher] → out !! k = rawCfg !! k) ∧
      match rawCfg !! rancher with
      | Some (VMap m) =>
          out !! rancher = Some (VMap
            (if bool_decide (m !! resize = None) && negb (String.eqb (md_RootDisk md) "")
             then <[resize := VStr (md_RootDisk md)]> m else m))
      | v => out !! rancher = v
      end
  end.
Proof.
  intros hostname ssh rancher resize. unfold mergeMetadata. rewrite MapCopy_eq.
  set (out0 := if String.eqb (md_Hostname md) "" then rawCfg else _).
  assert (out0 !! hostname = if String.eqb (md_Hostname md) "" ||
            negb (is_empty_string (default (VStr "") (rawCfg !! hostname)))
         then rawCfg !! hostname else Some (VStr (md_Hostname md))) as Hh.
  { unfold out0, hostname. destruct (String.eqb (md_Hostname md) ""); [done|]. simpl.
    destruct (is_empty_string _); simpl; [by rewrite lookup_insert_eq|done]. }
  assert (∀ k, k ≠ hostname → out0 !! k = rawCfg !! k) as Ho.
  { intros k Hk. unfold out0. destruct (String.eqb _ _); [done|].
    destruct (negb _); [done|]. by rewrite lookup_insert_ne. }
  clearbody out0. cbv zeta. fold ssh rancher resize.
  rewrite lookup_insert_ne by done. rewrite !(Ho ssh), !(Ho rancher) by done.
  set (final := VList _).
  assert (∀ k, k ∉ [hostname; ssh; rancher] → <[ssh := final]> out0 !! k = rawCfg !! k) as Hrest.
  { intros k Hk. rewrite lookup_insert_ne, Ho by set_solver. done. }
  assert (<[ssh := final]> out0 !! hostname = out0 !! hostname) as Hh' by (by rewrite lookup_insert_ne).
  assert (<[ssh := final]> out0 !! ssh = Some final) as Hs' by (by rewrite lookup_insert_eq).
  assert (<[ssh := final]> out0 !! rancher = rawCfg !! rancher) as Hr' by (by rewrite lookup_insert_ne, Ho).
  rewrite Hh in Hh'. clear Hh Ho. generalize dependent (<[ssh := final]> out0). intros out Hrest Hh Hs Hr.
  assert (match rawCfg !! rancher with
          | Some (VMap m) => True
          | _ => if negb (String.eqb (md_RootDisk md) "") then
                   md_RootDisk md ≠ "" ∧ ∀ m, rawCfg !! rancher ≠ Some (VMap m) else True end) as Hp.
  { destruct (String.eqb_spec (md_RootDisk md) ""); cbn [negb]; by destruct (rawCfg !! rancher) as [[]|]. }
  destruct (rawCfg !! rancher) as [[s|l|m|m]|] eqn:Hm.
  1,2,4,5: destruct (negb (String.eqb (md_RootDisk md) "")); [exact Hp|by split_and!].
  rewrite andb_comm. destruct (bool_decide _ && _); [|by split_and!].
  split_and!; [by rewrite lookup_insert_ne|by rewrite lookup_insert_ne| |by rewrite lookup_insert_eq].
  intros k Hk. rewrite lookup_insert_ne by set_solver. by apply Hrest.
Qed.

(** A saved command line comes back: when [init.yml] is merged over any
    configuration, every parameter of the saved command line has its parsed
    value, although the saved tree itself replaces the [rancher] section by the
    environment of the containers. *)
Theorem SaveInitCmdline_restored Unmarshal args :
  ∃ t, SaveInitCmdline Unmarshal args = Ok t ∧
  let params := Parse Unmarshal (TrimSpace (UnescapeKernelParams args)) false in
  ∀ base p v,
    let disk := Merge base t in
    get_path (VMap params) p = Some v → is_map v = false →
    get_path (VMap (Merge disk (readElidedCmdline Unmarshal disk))) p = Some v.
Proof.
  eexists. split; [unfold SaveInitCmdline; simpl; reflexivity|].
  intros params base p v disk Hp Hv.
  assert (readElidedCmdline Unmarshal disk = params) as ->.
  { unfold readElidedCmdline, disk. rewrite lookup_Merge, lookup_insert_eq.
    by destruct (base !! SStr "EXTRA_CMDLINE") as [[]|]. }
  rewrite <-merge_value_maps, get_path_merge_value.
  rewrite (get_path_covered _ _ _ Hp), Hp.
  destruct (get_path (VMap disk) p); [|done]. by rewrite merge_value_not_map_r.
Qed.
