(* ===== verification/Util.v ===== *)
(** * Strings, key-value pairs, container ids, versions and retries
    ([pkg/util/util.go], [pkg/util/versions/compare.go], [pkg/util/backoff.go]) *)

From stdpp Require Import prelude gmap strings list.
From S2P Require Import Prelude GoStrings.

Local Open Scope string_scope.

(** ** Slices of strings *)

Definition Contains (values : list string) (value : string) : bool :=
  if String.eqb value "" then false else existsb (λ i, String.eqb i value) values.

Definition RemoveString (slice : list string) (s : string) : list string :=
  foldl (λ acc elem, if negb (String.eqb elem s) then (acc ++ [elem])%list else acc) [] slice.

(** [Map2KVPairs], for an order of visiting the map. *)
Definition Map2KVPairs (m : list (string * string)) : list string :=
  (λ kv, kv.1 +:+ "=" +:+ kv.2) <$> m.

(** A pair without an equals sign is an index out of range. *)
Definition set_pair (r : gmap string string) (kv : string) : result (gmap string string) :=
  match SplitN kv "=" 2 with
  | [k; v] => Ok (<[k := v]> r)
  | _ => Panic "index out of range"
  end.

Definition KVPairs2Map (kvs : list string) : result (gmap string string) :=
  foldM set_pair ∅ kvs.

Definition TrimSplit (str : string) (sep : ascii) : list string :=
  TrimSpace <$> Split (TrimSpace str) sep.

(** ** Lines of a file, as [bufio.Scanner] gives them *)

Definition max_token : Z := 65536.

(** The lines up to one that does not fit the buffer, and whether there is one. *)
Fixpoint scan_tokens (ls : list string) : list string * option string :=
  match ls with
  | [] => ([], None)
  | l :: ls =>
      if (max_token <=? Z.of_nat (String.length l))%Z then ([], Some "bufio.Scanner: token too long")
      else
        let '(ts, err) := scan_tokens ls in
        (TrimSuffix l (String "013" "") :: ts, err)
  end.

Definition scan_lines (content : string) : list string * option string :=
  let ls := Split content "010" in
  let ls := match last ls with Some "" => removelast ls | _ => ls end in
  scan_tokens ls.

(** ** The container this process runs in *)

Definition containerIDLength : nat := 64.

Definition containerMountPoints : list string := ["/etc/resolv.conf"; "/etc/hostname"; "/etc/hosts"].

Definition hex_rune (c : Z) : bool :=
  negb (((c <? 48) || (57 <? c)) && ((c <? 97) || (102 <? c)))%Z.

Definition isContainerID (s : string) : bool :=
  (String.length s =? containerIDLength)%nat && forallb (λ r, hex_rune r.1) (runes s).

Definition cgroup_part (part : string) : string :=
  TrimPrefix (TrimSuffix part ".scope") "docker-".

(** The first element of a list of strings that is a container id. *)
Definition first_id (parts : list string) : option string := head (filter (λ p, isContainerID p = true) parts).

(** The id named by one line of /proc/self/cgroup. *)
Definition cgroup_line (text : string) : option string :=
  match SplitN text ":" 3 with
  | [_; _; path] => first_id (cgroup_part <$> Split path "/")
  | _ => None
  end.

Definition parseCgroup (content : string) : result string :=
  let '(ls, err) := scan_lines content in
  match head (omap cgroup_line ls) with
  | Some id => Ok id
  | None => match err with Some e => Err e | None => Ok "" end
  end.

Fixpoint containerIDFromParts (parts : list string) : string :=
  match parts with
  | part :: ((next :: _) as rest) =>
      if String.eqb part "containers" && isContainerID next then next
      else containerIDFromParts rest
  | _ => ""
  end.

Definition containerIDFromPath (mountRoot : string) : string :=
  containerIDFromParts (Split mountRoot "/").

(** One turn of the loop: [id] and [otherID]. *)
Definition mount_line (ids : string * string) (text : string) : string * string :=
  let '(id, otherID) := ids in
  match Fields text with
  | _ :: _ :: _ :: root :: point :: _ =>
      let found := containerIDFromPath root in
      if String.eqb found "" then ids
      else if Contains containerMountPoints point then (found, otherID)
      else (id, found)
  | _ => ids
  end.

Definition parseMountInfo (content : string) : result string :=
  let '(ls, err) := scan_lines content in
  let '(id, otherID) := foldl mount_line ("", "") ls in
  let id := if String.eqb id "" then otherID else id in
  match err with Some e => Err e | None => Ok id end.

(** Given the two files ([None]: cannot be opened). A scanner error discards
    the id. *)
Definition GetCurrentContainerID (cgroup mountinfo : option string) : result string :=
  match cgroup with
  | None => Err "open /proc/self/cgroup"
  | Some cgroup =>
      id ← parseCgroup cgroup;
      if negb (String.eqb id "") then Ok id
      else match mountinfo with
           | None => Err "open /proc/self/mountinfo"
           | Some mountinfo =>
               id ← parseMountInfo mountinfo;
               if String.eqb id "" then
                 Err "Found no docker container ID for the current process"
               else Ok id
           end
  end.

(** ** Command sequences *)

(** [StringandSlice]: a shell line or an argument vector. *)
Record StringandSlice := { StringValue : string; SliceValue : list string }.

(** The commands that are run, in order, and the error: [run] is the outcome of
    a command line. *)
Fixpoint RunCommandSequence (run : list string → bool) (cmds : list StringandSlice) :
    list (list string) * result () :=
  match cmds with
  | [] => ([], Ok ())
  | c :: cmds =>
      let argv :=
        if negb (String.eqb (StringValue c) "") then ["sh"; "-c"; StringValue c]
        else SliceValue c in
      match argv with
      | [] => RunCommandSequence run cmds
      | _ =>
          if run argv then
            let '(ran, r) := RunCommandSequence run cmds in (argv :: ran, r)
          else ([argv], Err "Failed to run")
      end
  end.

(** ** Versions *)

Definition version_part (tab : list string) (i : nat) : Z :=
  match tab !! i with Some s => (Atoi s).1 | None => 0 end.

(** The loop of [compare] from [i] on, [n] turns from the end. *)
Fixpoint compare_from (currTab otherTab : list string) (i n : nat) : Z :=
  match n with
  | O => 0
  | S n =>
      let currInt := version_part currTab i in
      let otherInt := version_part otherTab i in
      if (otherInt <? currInt)%Z then 1
      else if (currInt <? otherInt)%Z then -1
      else compare_from currTab otherTab (S i) n
  end.

Definition compare (v1 v2 : string) : Z :=
  let currTab := Split v1 "." in
  let otherTab := Split v2 "." in
  compare_from currTab otherTab 0 (Nat.max (length currTab) (length otherTab)).

Definition LessThan (v other : string) : bool := (compare v other =? -1)%Z.
Definition LessThanOrEqualTo (v other : string) : bool := (compare v other <=? 0)%Z.
Definition GreaterThan (v other : string) : bool := (compare v other =? 1)%Z.
Definition GreaterThanOrEqualTo (v other : string) : bool := (0 <=? compare v other)%Z.
Definition Equal (v other : string) : bool := (compare v other =? 0)%Z.

(** ** Retries *)

Record Backoff := { StartMillis : Z; MaxIntervalMillis : Z; MaxMillis : Z }.

Definition backoff_defaults (b : Backoff) : Backoff :=
  if (StartMillis b =? 0)%Z && (MaxIntervalMillis b =? 0)%Z
  then {| StartMillis := 100; MaxIntervalMillis := 2000; MaxMillis := 300000 |} else b.

(** The next sleep. *)
Definition next_interval (b : Backoff) (currentMillis : Z) : Z :=
  let currentMillis := (currentMillis * 2)%Z in
  if (MaxIntervalMillis b <? currentMillis)%Z then MaxIntervalMillis b else currentMillis.

(** The sleep after the [n]-th value. *)
Fixpoint interval (b : Backoff) (n : nat) : Z :=
  match n with
  | O => StartMillis b
  | S n => next_interval b (interval b n)
  end.

(** ** Lemmas *)

Lemma compare_from_antisym t1 t2 i n : compare_from t2 t1 i n = (- compare_from t1 t2 i n)%Z.
Proof.
  revert i; induction n as [|n IH]; intros i; [done|]. simpl.
  destruct (version_part t1 i <? version_part t2 i)%Z eqn:E1,
    (version_part t2 i <? version_part t1 i)%Z eqn:E2; try done; lia.
Qed.

(** Turns past the end of both lists compare zeros. *)
Lemma compare_from_more t1 t2 i n k :
  (length t1 ≤ i + n)%nat → (length t2 ≤ i + n)%nat →
  compare_from t1 t2 i (n + k) = compare_from t1 t2 i n.
Proof.
  revert i; induction n as [|n IH]; intros i H1 H2; simpl.
  - revert i H1 H2. induction k as [|k IHk]; intros i H1 H2; [done|]. simpl.
    assert (∀ t, (length t ≤ i)%nat → version_part t i = 0%Z) as Hz.
    { intros t Ht. unfold version_part. by rewrite lookup_ge_None_2. }
    rewrite !Hz by lia. simpl. apply IHk; lia.
  - rewrite IH by lia. done.
Qed.

Lemma compare_bound v1 v2 n :
  (length (Split v1 ".") ≤ n)%nat → (length (Split v2 ".") ≤ n)%nat →
  compare v1 v2 = compare_from (Split v1 ".") (Split v2 ".") 0 n.
Proof.
  intros H1 H2. unfold compare.
  rewrite <-(compare_from_more _ _ 0 _ (n - Nat.max (length (Split v1 ".")) (length (Split v2 ".")))) by lia.
  f_equal. lia.
Qed.

Lemma compare_from_range t1 t2 i n :
  compare_from t1 t2 i n = (-1)%Z ∨ compare_from t1 t2 i n = 0%Z ∨ compare_from t1 t2 i n = 1%Z.
Proof.
  revert i; induction n as [|n IH]; intros i; [by right; left|]. simpl.
  repeat case_match; auto.
Qed.

Lemma compare_from_trans t1 t2 t3 i n :
  (compare_from t1 t2 i n ≤ 0 → compare_from t2 t3 i n ≤ 0 → compare_from t1 t3 i n ≤ 0)%Z.
Proof.
  revert i; induction n as [|n IH]; intros i; [done|]. simpl. specialize (IH (S i)).
  repeat case_match; lia.
Qed.

Lemma compare_from_trans_eq t1 t2 t3 i n :
  (compare_from t1 t2 i n = 0 → compare_from t2 t3 i n = compare_from t1 t3 i n)%Z.
Proof.
  revert i; induction n as [|n IH]; intros i; [done|]. simpl. specialize (IH (S i)).
  repeat case_match; lia.
Qed.

Lemma first_id_spec parts id : first_id parts = Some id → isContainerID id = true ∧ id ∈ parts.
Proof.
  unfold first_id. intros Hh. assert (id ∈ filter (λ p, isContainerID p = true) parts) as Hin.
  { destruct (filter _ parts); simplify_eq/=. by left. }
  by apply list_elem_of_filter in Hin.
Qed.

Lemma containerIDFromParts_spec parts id :
  containerIDFromParts parts = id → id = "" ∨ isContainerID id = true.
Proof.
  induction parts as [|part [|next rest] IH]; simpl; [by left|by left|].
  destruct (String.eqb part "containers"); simpl; [|done].
  destruct (isContainerID next) eqn:E; [|done]. intros <-. by right.
Qed.

Lemma mount_lines_ids ls ids :
  (ids.1 = "" ∨ isContainerID ids.1 = true) → (ids.2 = "" ∨ isContainerID ids.2 = true) →
  let ids' := foldl mount_line ids ls in
  (ids'.1 = "" ∨ isContainerID ids'.1 = true) ∧ (ids'.2 = "" ∨ isContainerID ids'.2 = true).
Proof.
  revert ids; induction ls as [|l ls IH]; intros ids H1 H2; [done|]. simpl. apply IH.
  all: unfold mount_line; destruct ids as [id other]; simpl in *.
  all: destruct (Fields l) as [|? [|? [|? [|root [|point ?]]]]]; try done.
  all: pose proof (containerIDFromParts_spec (Split root "/") _ eq_refl) as Hf.
  all: unfold containerIDFromPath;
    destruct (String.eqb (containerIDFromParts (Split root "/")) "");
    destruct (Contains containerMountPoints point); done.
Qed.

Lemma parseCgroup_ids content id :
  parseCgroup content = Ok id → id = "" ∨ isContainerID id = true.
Proof.
  unfold parseCgroup. destruct (scan_lines content) as [ls err].
  destruct (head (omap cgroup_line ls)) as [i|] eqn:Hh; [|cases; naive_solver].
  intros E. injection E as <-. right.
  assert (i ∈ omap cgroup_line ls) as Hi by (destruct (omap cgroup_line ls); simplify_eq/=; by left).
  apply list_elem_of_omap in Hi as (l & _ & Hl). unfold cgroup_line in Hl.
  destruct (SplitN l ":" 3) as [|? [|? [|path [|]]]]; try done. by apply first_id_spec in Hl as [? _].
Qed.

Lemma KVPairs_fold l (r : gmap string string) :
  Forall (λ kv : string * string, has_char "=" kv.1 = false) l →
  foldM set_pair r (Map2KVPairs l) = Ok (foldl (λ r kv, <[kv.1 := kv.2]> r) r l).
Proof.
  intros Hl; revert r; induction Hl as [|[k v] l Hk Hl IH]; intros r; [done|].
  unfold Map2KVPairs in *. rewrite fmap_cons, foldM_cons. cbn [fst snd] in *.
  unfold set_pair at 1. change ("=" +:+ v) with (String "=" v).
  rewrite SplitN2_pair by done. apply IH.
Qed.

(** ** Properties *)

(** An id reported for the current container is always 64 lower-case
    hexadecimal digits, whichever of the two files it comes from; with readable
    files the only errors are a line that does not fit the scanner's buffer and
    no id at all. *)
Theorem GetCurrentContainerID_is_id cgroup mountinfo id :
  GetCurrentContainerID cgroup mountinfo = Ok id → isContainerID id = true.
Proof.
  unfold GetCurrentContainerID. destruct cgroup as [cg|]; [|done]. unfold mbind, result_bind.
  destruct (parseCgroup cg) as [i|e|e] eqn:Hc; [|done|done]. apply parseCgroup_ids in Hc.
  destruct (String.eqb_spec i ""); simpl.
  - destruct mountinfo as [mi|]; [|done].
    unfold parseMountInfo. destruct (scan_lines mi) as [ls err].
    pose proof (mount_lines_ids ls ("", "") (or_introl eq_refl) (or_introl eq_refl)) as Hm.
    cbv zeta in Hm. destruct (foldl mount_line ("", "") ls) as [i1 i2]. simpl in Hm.
    destruct err; [done|]. destruct (String.eqb_spec i1 ""); simpl.
    + destruct (String.eqb_spec i2 ""); [done|]. intros E. injection E as <-.
      by destruct Hm as [_ [?|?]].
    + destruct (String.eqb_spec i1 ""); [done|]. intros E. injection E as <-.
      by destruct Hm as [[?|?] _].
  - intros E. injection E as <-. by destruct Hc.
Qed.

Definition example_id : string :=
  "0123456789abcdef0123456789abcdef0123456789abcdef0123456789abcdef".

Lemma GetCurrentContainerID_is_id_witness :
  let mountinfo := "273 259 8:1 /var/lib/system-docker/containers/" +:+ example_id +:+
                   "/resolv.conf /etc/resolv.conf rw" in
  GetCurrentContainerID (Some "0::/") (Some mountinfo) = Ok example_id ∧
  isContainerID example_id = true.
Proof.
  intros mountinfo.
  assert (GetCurrentContainerID (Some "0::/") (Some mountinfo) = Ok example_id) as H
    by (vm_compute; reflexivity).
  split; [exact H|]. exact (GetCurrentContainerID_is_id _ _ _ H).
Defined.

(** An environment map survives being turned into a list of pairs, in any
    order of visiting it, and back, as long as no name holds an equals sign. *)
Theorem KVPairs_roundtrip (m : gmap string string) l :
  enumerates l m → map_Forall (λ k _, has_char "=" k = false) m →
  KVPairs2Map (Map2KVPairs l) = Ok m.
Proof.
  intros Hl Hm. unfold KVPairs2Map. rewrite KVPairs_fold.
  - f_equal. rewrite <-(enumerates_list_to_map l m Hl).
    pose proof (enumerates_NoDup l m Hl) as Hnd. clear Hl Hm.
    rewrite <-(map_union_empty (list_to_map l)).
    generalize (∅ : gmap string string). induction l as [|[k v] l IH]; intros r; simpl.
    + by rewrite map_empty_union.
    + simpl in Hnd. apply NoDup_cons in Hnd as [Hk Hnd]. rewrite IH by done.
      rewrite <-insert_union_l, insert_union_r; [done|]. by apply not_elem_of_list_to_map_1.
  - apply Forall_forall. intros [k v] Hin. apply (enumerates_elem _ _ _ _ Hl) in Hin. by eapply Hm.
Qed.

Lemma KVPairs_roundtrip_witness :
  let m : gmap string string := {[ "A" := "x=y"; "B" := "" ]} in
  KVPairs2Map ["B="; "A=x=y"] = Ok m.
Proof.
  intros m. apply (KVPairs_roundtrip m [("B", ""); ("A", "x=y")]).
  - unfold enumerates. vm_compute. repeat (first [constructor]).
  - intros k v Hk. apply lookup_insert_Some in Hk as [[<- <-]|[_ Hk]]; [done|].
    by apply lookup_singleton_Some in Hk as [<- <-].
Defined.

(** [compare] is a total preorder on version strings: its result is one of
    -1, 0 and 1, swapping the arguments negates it, it is reflexive and
    transitive, and versions that compare equal are interchangeable. *)
Theorem compare_total_preorder v1 v2 v3 :
  (compare v1 v2 = -1 ∨ compare v1 v2 = 0 ∨ compare v1 v2 = 1)%Z ∧
  compare v2 v1 = (- compare v1 v2)%Z ∧
  (compare v1 v2 ≤ 0 → compare v2 v3 ≤ 0 → compare v1 v3 ≤ 0)%Z ∧
  (compare v1 v2 = 0 → compare v2 v3 = compare v1 v3)%Z.
Proof.
  set (n := Nat.max (length (Split v1 ".")) (Nat.max (length (Split v2 ".")) (length (Split v3 ".")))).
  rewrite !(compare_bound _ _ n) by (unfold n; lia). split_and!.
  - apply compare_from_range.
  - apply compare_from_antisym.
  - apply compare_from_trans.
  - apply compare_from_trans_eq.
Qed.

(** the sleeps between the values of a [Backoff] never get shorter and stay
    between the start and the longest interval, once the defaults are filled in. *)
Theorem backoff_bounded b n :
  let b := backoff_defaults b in
  (0 ≤ StartMillis b ≤ MaxIntervalMillis b)%Z →
  (StartMillis b ≤ interval b n ≤ MaxIntervalMillis b)%Z ∧
  (interval b n ≤ interval b (S n))%Z.
Proof.
  intros b' Hb. assert (StartMillis b' ≤ interval b' n ≤ MaxIntervalMillis b')%Z as Hn.
  { induction n as [|n IH]; simpl; [lia|]. unfold next_interval. case_match; lia. }
  split; [done|]. simpl. unfold next_interval. case_match; lia.
Qed.

Lemma backoff_bounded_witness :
  let b := {| StartMillis := 0; MaxIntervalMillis := 0; MaxMillis := 0 |} in
  interval (backoff_defaults b) 3 = 800%Z ∧
  (interval (backoff_defaults b) 3 ≤ interval (backoff_defaults b) 4)%Z.
Proof. intros b. split; [reflexivity|]. apply (backoff_bounded b 3). simpl. lia. Defined.
