(* ===== verification/ProjectDag.v ===== *)
(** * Dependencies and launch order of services
    ([pkg/libcompose/project/project.go], [utils.go], [service.go],
    [pkg/docker/service.go]) *)

From stdpp Require Import prelude gmap strings list.
From S2P Require Import Prelude GoStrings.

Local Open Scope string_scope.

(** ** Relationships *)

Inductive ServiceRelationshipType :=
  | RelTypeLink | RelTypeNetNamespace | RelTypeIpcNamespace | RelTypeVolumesFrom | RelTypeDependsOn.

Record ServiceRelationship := {
  Target : string;
  Alias : string;
  RelType : ServiceRelationshipType;
  Optional : bool;
}.

Definition NameAlias (name : string) : string * string :=
  match SplitN name ":" 2 with
  | [n; a] => (n, a)
  | n :: _ => (n, n)
  | [] => ("", "")
  end.

Definition NewServiceRelationship (nameAlias : string) (relType : ServiceRelationshipType) :
    ServiceRelationship :=
  let '(name, alias) := NameAlias nameAlias in
  {| Target := name; Alias := alias; RelType := relType; Optional := false |}.

(** The part of a service's configuration that says what it depends on;
    [DependsOn] in one of the orders its map can be visited. *)
Record ServiceConfig := {
  Links : list string;
  VolumesFrom : list string;
  DependsOn : list string;
  NetworkMode : string;
  Ipc : string;
  Image : string;
  Labels : gmap string string;
  Logging : option string;
  LogDriver : string;
}.

(** [IpcMode.Container], or the empty string when it is not of that kind. *)
Definition ipc_container (conf : string) : string :=
  match SplitN conf ":" 2 with
  | [k; c] => if String.eqb k "container" then c else ""
  | _ => ""
  end.

Definition GetContainerFromIpcLikeConfig (has : string → bool) (conf : string) : string :=
  let name := ipc_container conf in
  if String.eqb name "" then "" else if has name then name else "".

Definition appendNs (has : string → bool) (rels : list ServiceRelationship) (conf : string)
    (relType : ServiceRelationshipType) : list ServiceRelationship :=
  let service := GetContainerFromIpcLikeConfig has conf in
  if negb (String.eqb service "") then (rels ++ [NewServiceRelationship service relType])%list
  else rels.

Definition DefaultDependentServices (has : string → bool) (config : option ServiceConfig) :
    list ServiceRelationship :=
  match config with
  | None => []
  | Some config =>
      let result :=
        (((λ l, NewServiceRelationship l RelTypeLink) <$> Links config) ++
         ((λ v, NewServiceRelationship v RelTypeVolumesFrom) <$> VolumesFrom config) ++
         ((λ d, NewServiceRelationship d RelTypeDependsOn) <$> DependsOn config))%list in
      let result := appendNs has result (NetworkMode config) RelTypeNetNamespace in
      appendNs has result (Ipc config) RelTypeIpcNamespace
  end.

(** *** System services ([pkg/docker/service.go]) *)

Definition ScopeLabel : string := "io.rancher.os.scope".
Definition System : string := "system".

Definition appendLink (has : string → bool) (deps : list ServiceRelationship) (name : string)
    (optional : bool) : list ServiceRelationship :=
  if negb (has name) then deps
  else
    let rel := NewServiceRelationship name RelTypeLink in
    (deps ++ [{| Target := Target rel; Alias := Alias rel; RelType := RelType rel;
                 Optional := optional |}])%list.

Definition requiresSyslog (cfg : ServiceConfig) : bool :=
  match Logging cfg with
  | Some driver => String.eqb driver "syslog"
  | None => String.eqb (LogDriver cfg) "syslog"
  end.

Definition requiresUserDocker (cfg : ServiceConfig) : bool :=
  negb (String.eqb (default "" (Labels cfg !! ScopeLabel)) System).

(** [missing]: the image inspection failed. *)
Definition missingImage (missing : string → bool) (cfg : ServiceConfig) : bool :=
  if String.eqb (Image cfg) "" then false else missing (Image cfg).

(** [extra]: the dependencies given to the service factory. *)
Definition DependentServices (has missing : string → bool) (extra : list string)
    (cfg : ServiceConfig) : list ServiceRelationship :=
  let rels := DefaultDependentServices has (Some cfg) in
  let rels := foldl (λ rels dep, appendLink has rels dep true) rels extra in
  let rels := if requiresSyslog cfg then appendLink has rels "syslog" false else rels in
  if requiresUserDocker cfg then appendLink has rels "docker" false
  else if missingImage missing cfg then appendLink has rels "network" false
  else rels.

(** ** Launching *)

(** What [startService] does, in order: [go action(wrapper)], [wrapper.Ignore()]
    and the cycle action on a service. *)
Inductive launch_event :=
  | Launch (name : string)
  | IgnoreService (name : string)
  | CycleAction (name : string).

Global Instance launch_event_eq_dec : EqDecision launch_event.
Proof. solve_decision. Defined.

(** [st_ignored]: pairs of a wrapper and a dependency it ignores. *)
Record launch_state := {
  st_launched : gset string;
  st_ignored : gset (string * string);
  st_events : list launch_event;
}.

Definition event (e : launch_event) (st : launch_state) : launch_state :=
  {| st_launched := st_launched st; st_ignored := st_ignored st;
     st_events := st_events st ++ [e] |}.

Definition IgnoreDep (name target : string) (st : launch_state) : launch_state :=
  {| st_launched := st_launched st; st_ignored := {[(name, target)]} ∪ st_ignored st;
     st_events := st_events st |}.

Definition mark_launched (name : string) (st : launch_state) : launch_state :=
  {| st_launched := {[name]} ∪ st_launched st; st_ignored := st_ignored st;
     st_events := st_events st |}.

Section Launch.
(** The wrappers there are, what each depends on, which are selected ([∅]: all),
    and the outcome of the cycle action on a service, if there is one. *)
Context (wrappers : gset string).
Context (deps : string → list ServiceRelationship).
Context (selected : gset string).
Context (cycleAction : option (string → option string)).

Definition isSelected (name : string) : bool :=
  bool_decide (selected = ∅) || bool_decide (name ∈ selected).

(** The body of the loop over the dependencies of [name]; [start] is the
    recursive call, [history] ends with [name]. *)
Definition visit_dep (start : list string → string → launch_state → result launch_state)
    (history : list string) (name : string) (st : launch_state) (dep : ServiceRelationship) :
    result launch_state :=
  if negb (bool_decide (Target dep ∈ wrappers)) then Ok st
  else if bool_decide (Target dep ∈ history) then
    if Optional dep then
      let st := IgnoreDep name (Target dep) st in
      match cycleAction with
      | None => Ok st
      | Some act =>
          let st := event (CycleAction (Target dep)) st in
          match act (Target dep) with Some e => Err e | None => Ok st end
      end
    else Err ("Cycle detected in path " +:+ Join (history ++ [Target dep])%list "->")
  else start history (Target dep) st.

Fixpoint startService (fuel : nat) (history : list string) (name : string) (st : launch_state) :
    result launch_state :=
  match fuel with
  | O => Panic "out of fuel"
  | S fuel =>
      if bool_decide (name ∈ st_launched st) then Ok st
      else
        let st := mark_launched name st in
        let history := (history ++ [name])%list in
        st ← foldM (visit_dep (startService fuel) history name) st (deps name);
        Ok (event (if isSelected name then Launch name else IgnoreService name) st)
  end.

Definition empty_launch (ignored : gset (string * string)) : launch_state :=
  {| st_launched := ∅; st_ignored := ignored; st_events := [] |}.

(** The part of [traverse] that launches: [order] is the order in which [range]
    visits the wrappers, [ignored] what they ignore from earlier rounds. *)
Definition launch_all (order : list string) (ignored : gset (string * string)) :
    result launch_state :=
  match filter (λ s, s ∉ wrappers) (elements selected) with
  | s :: _ => Err ("No such service: " +:+ s)
  | [] =>
      foldM (λ st name, startService (S (size wrappers)) [] name st) (empty_launch ignored) order
  end.

(** The services whose goroutine was started or that were ignored, in order. *)
Definition event_service (e : launch_event) : option string :=
  match e with Launch n | IgnoreService n => Some n | CycleAction _ => None end.

Definition launch_order (st : launch_state) : list string := omap event_service (st_events st).

(** ** Lemmas *)

(** A dependency that [name] really waits for. *)
Definition waits_for (st : launch_state) (name target : string) : Prop :=
  (∃ dep, dep ∈ deps name ∧ Target dep = target) ∧
  target ∈ wrappers ∧ (name, target) ∉ st_ignored st.

(** Every service comes after everything it waits for. *)
Definition topological (st : launch_state) : Prop :=
  ∀ pre n post, launch_order st = (pre ++ n :: post)%list →
    ∀ t, waits_for st n t → t ∈ pre.

(** Only optional dependencies are ignored, other than those of [ign]. *)
Definition only_optional (ign : gset (string * string)) (st : launch_state) : Prop :=
  ∀ n t, (n, t) ∈ st_ignored st → (n, t) ∈ ign ∨
    ∃ dep, dep ∈ deps n ∧ Target dep = t ∧ Optional dep = true.

(** Between calls: what is launched is either done or on the path being walked. *)
Record launch_inv (ign : gset (string * string)) (history : list string) (st : launch_state) : Prop := {
  inv_launched : ∀ n, n ∈ st_launched st ↔ n ∈ launch_order st ∨ n ∈ history;
  inv_disjoint : ∀ n, n ∈ history → n ∉ launch_order st;
  inv_nodup : NoDup (launch_order st);
  inv_wrappers : st_launched st ⊆ wrappers;
  inv_topo : topological st;
  inv_optional : only_optional ign st;
  inv_events : Forall (λ e,
    match e with
    | Launch n => isSelected n = true
    | IgnoreService n => isSelected n = false
    | CycleAction _ => is_Some cycleAction
    end) (st_events st);
}.

(** What a call leaves behind: more services done, and nothing new ignored for
    those that were done or are still on the path. *)
Record extends (keep : list string) (st st' : launch_state) : Prop := {
  ext_order : ∃ l, launch_order st' = (launch_order st ++ l)%list;
  ext_ignored : ∀ n t, n ∈ launch_order st ∨ n ∈ keep →
    (n, t) ∈ st_ignored st' ↔ (n, t) ∈ st_ignored st;
  ext_mono : st_ignored st ⊆ st_ignored st';
}.

Lemma launch_order_event st e :
  launch_order (event e st) =
  (launch_order st ++ match event_service e with Some n => [n] | None => [] end)%list.
Proof. unfold launch_order, event. simpl. rewrite omap_app. simpl. by destruct (event_service e). Qed.

Lemma extends_refl keep st : extends keep st st.
Proof. split; [exists []; by rewrite app_nil_r|done|done]. Qed.

Lemma extends_trans keep st1 st2 st3 :
  extends keep st1 st2 → extends keep st2 st3 → extends keep st1 st3.
Proof.
  intros [[l1 H1] I1 M1] [[l2 H2] I2 M2]. split; [| |by etrans].
  - exists (l1 ++ l2)%list. by rewrite H2, H1, app_assoc.
  - intros n t Hn. rewrite I2; [by apply I1|]. destruct Hn; [left|by right].
    rewrite H1. apply elem_of_app. by left.
Qed.

Lemma extends_weaken keep keep' st st' :
  keep' ⊆ keep → extends keep st st' → extends keep' st st'.
Proof. intros Hk [Ho Hi]. split; [done| |done]. intros n t [?|?]; apply Hi; auto. Qed.

Lemma extends_order keep st st' n :
  extends keep st st' → n ∈ launch_order st → n ∈ launch_order st'.
Proof. intros [[l ->] _ _] Hn. apply elem_of_app. by left. Qed.

Lemma split_last {A} (l pre post : list A) x n :
  (l ++ [x] = pre ++ n :: post)%list →
  post = [] ∧ pre = l ∧ n = x ∨ ∃ post', post = (post' ++ [x])%list ∧ l = (pre ++ n :: post')%list.
Proof.
  destruct post as [|y post _] using rev_ind; intros H.
  - apply app_inj_tail in H as [-> ->]. by left.
  - rewrite app_comm_cons, app_assoc in H. apply app_inj_tail in H as [-> ->]. right. by exists post.
Qed.

(** Going down to [name]. *)
Lemma inv_enter ign history name st :
  launch_inv ign history st → name ∈ wrappers → name ∉ st_launched st →
  launch_inv ign (history ++ [name]) (mark_launched name st).
Proof.
  intros [Hl Hd Hn Hw Ht Ho He] Hname Hnew. split; simpl; try done.
  - intros n. rewrite elem_of_union, elem_of_singleton, Hl, elem_of_app, list_elem_of_singleton.
    change (launch_order (mark_launched name st)) with (launch_order st). tauto.
  - intros n [Hh| ->%list_elem_of_singleton]%elem_of_app; [by apply Hd|].
    intros Hin. apply Hnew, Hl. by left.
  - apply union_subseteq. split; [|done]. by apply singleton_subseteq_l.
Qed.

(** Coming back from [name], all of whose dependencies are settled. *)
Lemma inv_leave ign history name st e :
  launch_inv ign (history ++ [name]) st → name ∉ history → event_service e = Some name →
  (isSelected name = true ∧ e = Launch name ∨ isSelected name = false ∧ e = IgnoreService name) →
  (∀ dep, dep ∈ deps name → Target dep ∈ wrappers →
     Target dep ∈ launch_order st ∨ (name, Target dep) ∈ st_ignored st) →
  launch_inv ign history (event e st).
Proof.
  intros [Hl Hd Hn Hw Ht Ho He] Hname Hse Hsel Hdeps.
  assert (launch_order (event e st) = (launch_order st ++ [name])%list) as Hlo.
  { by rewrite launch_order_event, Hse. }
  assert (name ∉ launch_order st) as Hnew.
  { apply Hd, elem_of_app. right. by apply list_elem_of_singleton. }
  split; try done.
  - intros n. simpl. rewrite Hl, Hlo, !elem_of_app, list_elem_of_singleton. tauto.
  - intros n Hh. rewrite Hlo, elem_of_app, list_elem_of_singleton. intros [Hin| ->]; [|done].
    eapply Hd; [|done]. apply elem_of_app. by left.
  - rewrite Hlo. apply NoDup_app. split; [done|]. split; [|apply NoDup_singleton].
    by intros n Hin ->%list_elem_of_singleton.
  - intros pre n post Heq t Hwait. rewrite Hlo in Heq.
    apply split_last in Heq as [(-> & -> & ->)|(post' & -> & Heq)].
    + destruct Hwait as ((dep & Hdep & <-) & Htw & Hni).
      destruct (Hdeps dep Hdep Htw); done.
    + by eapply Ht.
  - simpl. apply Forall_app. split; [done|]. apply Forall_singleton.
    destruct Hsel as [[? ->]|[? ->]]; done.
Qed.

Lemma inv_ignore ign history name st t :
  launch_inv ign history st → name ∈ history →
  (∃ dep, dep ∈ deps name ∧ Target dep = t ∧ Optional dep = true) →
  launch_inv ign history (IgnoreDep name t st).
Proof.
  intros [Hl Hd Hn Hw Ht Ho He] Hname Hdep. split; try done.
  - intros pre n post Heq t' (Hd' & Htw & Hni). eapply Ht; [done|]. split_and!; [done..|].
    intros Hin. apply Hni. simpl. by apply elem_of_union_r.
  - intros n t'. simpl. rewrite elem_of_union, elem_of_singleton.
    intros [[= -> ->]|Hin]; [by right|by apply Ho].
Qed.

Lemma inv_cycle_action ign history st t :
  launch_inv ign history st → is_Some cycleAction → launch_inv ign history (event (CycleAction t) st).
Proof.
  intros [Hl Hd Hn Hw Ht Ho He] Hc.
  assert (launch_order (event (CycleAction t) st) = launch_order st) as Hlo.
  { by rewrite launch_order_event, app_nil_r. }
  split; simpl; rewrite ?Hlo; try done.
  - intros pre n post. rewrite Hlo. apply Ht.
  - apply Forall_app. split; [done|]. by apply Forall_singleton.
Qed.

(** What a successful call guarantees. *)
Definition start_ok (ign : gset (string * string))
    (start : list string → string → launch_state → result launch_state) : Prop :=
  ∀ history name st st',
    launch_inv ign history st → name ∈ wrappers → name ∉ history →
    start history name st = Ok st' →
    launch_inv ign history st' ∧ extends history st st' ∧ name ∈ launch_order st'.

Lemma visit_dep_ok ign start history name st dep st' :
  start_ok ign start → launch_inv ign (history ++ [name]) st → name ∉ history →
  dep ∈ deps name → visit_dep start (history ++ [name]) name st dep = Ok st' →
  launch_inv ign (history ++ [name]) st' ∧ extends history st st' ∧
  (Target dep ∈ wrappers → Target dep ∈ launch_order st' ∨ (name, Target dep) ∈ st_ignored st').
Proof.
  intros Hstart Hinv Hname Hdep. unfold visit_dep.
  destruct (bool_decide (Target dep ∈ wrappers)) eqn:Hw; simpl.
  2: { intros [= <-]. apply bool_decide_eq_false in Hw. split_and!; [done|apply extends_refl|done]. }
  apply bool_decide_eq_true in Hw. case_bool_decide as Hh.
  2: { intros Hst. destruct (Hstart _ _ _ _ Hinv Hw Hh Hst) as (Hi & He & Ho).
       split_and!; [done| |by left]. eapply extends_weaken; [|done]. set_solver. }
  destruct (Optional dep) eqn:Hopt; [|done].
  assert (launch_inv ign (history ++ [name]) (IgnoreDep name (Target dep) st)) as Hi.
  { apply inv_ignore; [done|set_solver|by exists dep]. }
  assert (extends history st (IgnoreDep name (Target dep) st)) as He.
  { split; [exists []; by rewrite app_nil_r| |simpl; set_solver]. intros n t Hn. simpl.
    rewrite elem_of_union, elem_of_singleton. split; [|by right]. intros [[= -> ->]|?]; [|done].
    destruct Hn as [Hn|Hn]; [|done]. exfalso. eapply (inv_disjoint _ _ _ Hinv name); [set_solver|done]. }
  destruct cycleAction as [act|] eqn:Hc.
  - destruct (act (Target dep)) as [|]; [done|]. intros [= <-]. split_and!.
    + apply inv_cycle_action; [done|]. by rewrite Hc.
    + eapply extends_trans; [done|]. split; [exists []; by rewrite launch_order_event|done|done].
    + intros _. right. simpl. set_solver.
  - intros [= <-]. split_and!; [done|done|]. intros _. right. simpl. set_solver.
Qed.

Lemma visit_deps_ok ign start history name ds st st' :
  start_ok ign start → launch_inv ign (history ++ [name]) st → name ∉ history →
  ds ⊆ deps name → foldM (visit_dep start (history ++ [name]) name) st ds = Ok st' →
  launch_inv ign (history ++ [name]) st' ∧ extends history st st' ∧
  ∀ dep, dep ∈ ds → Target dep ∈ wrappers →
    Target dep ∈ launch_order st' ∨ (name, Target dep) ∈ st_ignored st'.
Proof.
  intros Hstart Hinv Hname; revert st Hinv. induction ds as [|d ds IH]; intros st Hinv Hds Hst.
  { simpl in Hst. simplify_eq. split_and!; [done|apply extends_refl|]. by intros dep ?%not_elem_of_nil. }
  rewrite foldM_cons in Hst.
  destruct (visit_dep _ _ _ st d) as [st1|e|e] eqn:Hd; [|done|done].
  assert (d ∈ deps name) as Hdin by (apply Hds; by left).
  assert (ds ⊆ deps name) as Hds' by (intros x Hx; apply Hds; by right).
  destruct (visit_dep_ok _ _ _ _ _ _ _ Hstart Hinv Hname Hdin Hd) as (Hi1 & He1 & Hd1).
  destruct (IH st1 Hi1 Hds' Hst) as (Hi2 & He2 & Hd2).
  split_and!; [done|by eapply extends_trans|].
  intros dep [->|Hin]%elem_of_cons Hw; [|by apply Hd2].
  destruct (Hd1 Hw) as [?|Hig]; [left; by eapply extends_order|right].
  by apply (ext_mono _ _ _ He2).
Qed.

Lemma startService_ok ign fuel : start_ok ign (startService fuel).
Proof.
  induction fuel as [|fuel IH]; intros history name st st' Hinv Hw Hh Hst; [done|]. simpl in Hst.
  case_bool_decide as Hl.
  { simplify_eq. split_and!; [done|apply extends_refl|].
    apply (inv_launched _ _ _ Hinv) in Hl. naive_solver. }
  unfold mbind, result_bind in Hst.
  destruct (foldM _ _ (deps name)) as [st1|e|e] eqn:Hf; [|done|done]. injection Hst as <-.
  destruct (visit_deps_ok _ _ _ _ _ _ _ IH (inv_enter _ _ _ _ Hinv Hw Hl) Hh ltac:(done) Hf)
    as (Hi & He & Hd).
  assert (event_service (if isSelected name then Launch name else IgnoreService name) = Some name)
    as Hse by (by destruct (isSelected name)).
  split_and!.
  - apply inv_leave with name; [done..| |done]. destruct (isSelected name); auto.
  - eapply extends_trans; [|split; [eexists; by rewrite launch_order_event, Hse|done|done]].
    destruct He as [Ho Hi' Hm]. by split.
  - rewrite launch_order_event, Hse. set_solver.
Qed.

(** *** Fuel *)

Definition unlaunched (st : launch_state) : nat := size (wrappers ∖ st_launched st).

Lemma unlaunched_mono st st' : st_launched st ⊆ st_launched st' → (unlaunched st' ≤ unlaunched st)%nat.
Proof. intros. unfold unlaunched. apply subseteq_size. set_solver. Qed.

(** A call never forgets what is launched and, with enough fuel, comes back. *)
Definition start_returns (n : nat) (start : list string → string → launch_state → result launch_state) : Prop :=
  ∀ history name st, name ∈ wrappers → (unlaunched st < n)%nat →
    match start history name st with
    | Ok st' => st_launched st ⊆ st_launched st'
    | Err _ => True
    | Panic _ => False
    end.

Lemma visit_deps_returns n start history name ds st :
  start_returns n start → (unlaunched st < n)%nat →
  match foldM (visit_dep start history name) st ds with
  | Ok st' => st_launched st ⊆ st_launched st'
  | Err _ => True
  | Panic _ => False
  end.
Proof.
  intros Hstart; revert st; induction ds as [|d ds IH]; intros st Hn; [simpl; reflexivity|].
  rewrite foldM_cons.
  assert (match visit_dep start history name st d with
          | Ok st' => st_launched st ⊆ st_launched st'
          | Err _ => True | Panic _ => False end) as Hd.
  { unfold visit_dep. destruct (bool_decide (Target d ∈ wrappers)) eqn:Hw; [|simpl; reflexivity]. simpl.
    apply bool_decide_eq_true in Hw. case_bool_decide; [|by apply Hstart].
    destruct (Optional d); [|done]. destruct cycleAction as [act|]; [|simpl; reflexivity].
    destruct (act (Target d)); [done|simpl; reflexivity]. }
  destruct (visit_dep _ _ _ _ _) as [st1| |]; [|done|done].
  specialize (IH st1). pose proof (unlaunched_mono st st1 Hd).
  destruct (foldM _ st1 ds); [|done|apply IH; lia]. etrans; [done|]. apply IH. lia.
Qed.

Lemma startService_returns fuel : start_returns fuel (startService fuel).
Proof.
  induction fuel as [|fuel IH]; intros history name st Hw Hn; [lia|]. simpl.
  case_bool_decide as Hl; [reflexivity|]. unfold mbind, result_bind.
  assert (unlaunched (mark_launched name st) < fuel)%nat as Hlt.
  { assert (unlaunched (mark_launched name st) < unlaunched st)%nat; [|lia].
    unfold unlaunched. apply subset_size. simpl. split; [set_solver|]. intros Hsub.
    assert (name ∈ wrappers ∖ ({[name]} ∪ st_launched st)); [|set_solver].
    apply Hsub. set_solver. }
  pose proof (visit_deps_returns fuel _ (history ++ [name]) name (deps name) _ IH Hlt) as Hv.
  destruct (foldM _ _ (deps name)); [|done|done]. simpl in *. set_solver.
Qed.

(** *** Errors *)

Definition edge (n t : string) : Prop :=
  t ∈ wrappers ∧ ∃ dep, dep ∈ deps n ∧ Target dep = t.

(** A cycle closed by a dependency that is not optional, or a cycle action that failed. *)
Definition launch_failure : Prop :=
  (∃ n dep, dep ∈ deps n ∧ Optional dep = false ∧ Target dep ∈ wrappers ∧ rtc edge (Target dep) n) ∨
  (∃ act t e, cycleAction = Some act ∧ act t = Some e).

Lemma startService_fails fuel : ∀ history name st e,
  (∀ h, h ∈ history → rtc edge h name) →
  startService fuel history name st = Err e → launch_failure.
Proof.
  induction fuel as [|fuel IH]; intros history name st e Hh Hst; [done|]. simpl in Hst.
  case_bool_decide; [done|]. unfold mbind, result_bind in Hst.
  destruct (foldM _ _ (deps name)) as [|e'|] eqn:Hf; [done| |done]. clear Hst.
  assert (∀ h, h ∈ (history ++ [name])%list → rtc edge h name) as Hh'.
  { intros h [?| ->%list_elem_of_singleton]%elem_of_app; [by apply Hh|done]. }
  assert (∀ ds st1, ds ⊆ deps name →
    foldM (visit_dep (startService fuel) (history ++ [name]) name) st1 ds = Err e' →
    launch_failure) as Hloop; [|by eapply Hloop; [|exact Hf]].
  clear Hf. intros ds; induction ds as [|d ds IHds]; intros st1 Hds Hf; [done|].
  rewrite foldM_cons in Hf. assert (d ∈ deps name) as Hd by (apply Hds; by left).
  destruct (visit_dep _ _ _ st1 d) as [st2|e2|] eqn:Hv; [|clear Hf|done].
  { eapply IHds; [|done]. intros x Hx. apply Hds. by right. }
  unfold visit_dep in Hv. destruct (bool_decide (Target d ∈ wrappers)) eqn:Hw; [|done].
  simpl in Hv. apply bool_decide_eq_true in Hw. case_bool_decide as Hin.
  - destruct (Optional d) eqn:Hopt.
    + destruct cycleAction as [act|] eqn:Hc; [|done]. destruct (act (Target d)) eqn:Ha; [|done].
      right. eauto.
    + left. exists name, d. split_and!; try done. by apply Hh'.
  - eapply IH; [|done]. intros h Hin'. eapply rtc_r; [by apply Hh'|]. split; [done|]. by exists d.
Qed.

(** *** The whole launch *)

Lemma empty_inv ign : launch_inv ign [] (empty_launch ign).
Proof.
  split.
  - intros n. simpl. split; [set_solver|]. by intros [?%not_elem_of_nil|?%not_elem_of_nil].
  - by intros n ?%not_elem_of_nil.
  - constructor.
  - simpl. set_solver.
  - intros pre n post Heq. by destruct pre.
  - intros n t ?. by left.
  - constructor.
Qed.

Lemma launch_fold_ok ign order st st' :
  launch_inv ign [] st → order ⊆ elements wrappers →
  foldM (λ st name, startService (S (size wrappers)) [] name st) st order = Ok st' →
  launch_inv ign [] st' ∧ (∀ n, n ∈ launch_order st → n ∈ launch_order st') ∧
  ∀ n, n ∈ order → n ∈ launch_order st'.
Proof.
  revert st; induction order as [|n order IH]; intros st Hinv Hord Hf.
  { simpl in Hf. simplify_eq. split_and!; [done|done|]. by intros n ?%not_elem_of_nil. }
  rewrite foldM_cons in Hf.
  destruct (startService _ [] n st) as [st1|e|e] eqn:Hs; [|done|done].
  assert (n ∈ wrappers) as Hn by (apply elem_of_elements, Hord; by left).
  destruct (startService_ok ign _ _ _ _ _ Hinv Hn (not_elem_of_nil _) Hs) as (Hi & He & Ho).
  destruct (IH st1 Hi ltac:(intros x Hx; apply Hord; by right) Hf) as (Hi' & Hm & Hall).
  split_and!; [done|intros x Hx; apply Hm; by eapply extends_order|].
  intros x [->|Hx]%elem_of_cons; [by apply Hm|by apply Hall].
Qed.

Lemma launch_fold_result order st :
  order ⊆ elements wrappers →
  match foldM (λ st name, startService (S (size wrappers)) [] name st) st order with
  | Ok _ => True
  | Err _ => launch_failure
  | Panic _ => False
  end.
Proof.
  revert st; induction order as [|n order IH]; intros st Hord; [done|]. rewrite foldM_cons.
  assert (n ∈ wrappers) as Hn by (apply elem_of_elements, Hord; by left).
  assert (unlaunched st < S (size wrappers))%nat as Hlt.
  { apply Nat.lt_succ_r. unfold unlaunched. apply subseteq_size. set_solver. }
  pose proof (startService_returns _ [] n st Hn Hlt) as Hr.
  destruct (startService _ [] n st) as [st1|e|e] eqn:Hs; [| |done].
  2: { eapply startService_fails; [|done]. by intros h ?%not_elem_of_nil. }
  apply IH. intros x Hx. apply Hord. by right.
Qed.

End Launch.

(** What a launch gives its callers. *)
Lemma launch_all_facts wrappers deps selected cycleAction order ignored :
  order ≡ₚ elements wrappers →
  match launch_all wrappers deps selected cycleAction order ignored with
  | Ok st =>
      launch_order st ≡ₚ elements wrappers ∧
      topological wrappers deps st ∧
      (∀ n, Launch n ∈ st_events st → isSelected selected n = true) ∧
      only_optional deps ignored st
  | Err _ =>
      ¬ selected ⊆ wrappers ∨ launch_failure wrappers deps cycleAction
  | Panic _ => False
  end.
Proof.
  intros Hord. unfold launch_all.
  destruct (filter (λ s, s ∉ wrappers) (elements selected)) as [|s ss] eqn:Hsel.
  2: { left. intros Hsub. assert (s ∈ filter (λ s, s ∉ wrappers) (elements selected)) as Hin
         by (rewrite Hsel; by left). apply list_elem_of_filter in Hin as [Hs Hin].
       apply Hs, Hsub. by apply elem_of_elements. }
  assert (order ⊆ elements wrappers) as Hsub by (intros x Hx; by rewrite <-Hord).
  pose proof (launch_fold_result wrappers deps selected cycleAction order (empty_launch ignored) Hsub)
    as Hres.
  destruct (foldM _ (empty_launch ignored) order) as [st|e|e] eqn:Hf; [|by right|done].
  destruct (launch_fold_ok wrappers deps selected cycleAction ignored order _ st
    (empty_inv wrappers deps selected cycleAction ignored) Hsub Hf) as (Hi & _ & Hall).
  split_and!.
  - apply NoDup_Permutation; [apply Hi|apply NoDup_elements|]. intros n. split.
    + intros Hn. apply elem_of_elements, (inv_wrappers _ _ _ _ _ _ _ Hi).
      apply (inv_launched _ _ _ _ _ _ _ Hi). by left.
    + intros Hn. apply Hall. by rewrite Hord.
  - apply Hi.
  - intros n Hn. pose proof (inv_events _ _ _ _ _ _ _ Hi) as He.
    rewrite Forall_forall in He. by apply He in Hn.
  - apply Hi.
Qed.

(** ** Properties *)

(** C10: launching terminates (the fuel is one more than the number of services)
    and, however [range] orders the services, it either fails because a selected
    service does not exist, because a dependency that is not optional lies on a
    cycle or because a cycle action failed, or it starts (or ignores, when it is
    not selected) every service exactly once, each of them after everything it
    will wait for; the only dependencies it drops are optional ones. *)
Theorem launch_all_topological wrappers deps selected cycleAction order ignored :
  order ≡ₚ elements wrappers →
  match launch_all wrappers deps selected cycleAction order ignored with
  | Ok st =>
      launch_order st ≡ₚ elements wrappers ∧
      topological wrappers deps st ∧
      only_optional deps ignored st ∧
      ∀ n, Launch n ∈ st_events st → isSelected selected n = true
  | Err _ =>
      ¬ selected ⊆ wrappers ∨ launch_failure wrappers deps cycleAction
  | Panic _ => False
  end.
Proof.
  intros Hord.
  pose proof (launch_all_facts wrappers deps selected cycleAction order ignored Hord) as Hf.
  destruct (launch_all _ _ _ _ _ _); [|done|done]. destruct Hf as (? & ? & ? & ?). by split_and!.
Qed.


Definition dep_on (optional : bool) (t : string) : ServiceRelationship :=
  {| Target := t; Alias := t; RelType := RelTypeLink; Optional := optional |}.

Definition example_deps (n : string) : list ServiceRelationship :=
  if String.eqb n "console" then [dep_on false "network"; dep_on true "docker"]
  else if String.eqb n "docker" then [dep_on true "console"] else [].

Lemma launch_all_topological_witness :
  let wrappers : gset string := {[ "console"; "docker"; "network" ]} in
  ∃ st, launch_all wrappers example_deps ∅ None (elements wrappers) ∅ = Ok st ∧
        topological wrappers example_deps st.
Proof.
  intros wrappers.
  pose proof (launch_all_topological wrappers example_deps ∅ None (elements wrappers) ∅
    ltac:(reflexivity)) as H.
  destruct (launch_all _ _ _ _ _ _) as [st|e|e] eqn:E.
  - exists st. split; [reflexivity|apply H].
  - exfalso. vm_compute in E. discriminate E.
  - exfalso. vm_compute in E. discriminate E.
Defined.

(** Whether a project with a cycle of one optional and one required
    dependency comes up depends on the order in which [range] visits the map of
    wrappers: entered at one service the cycle is dropped, entered at the other
    the whole launch fails. *)
Theorem launch_depends_on_range_order :
  let wrappers : gset string := {[ "a"; "b" ]} in
  let deps n := if String.eqb n "a" then [dep_on true "b"] else [dep_on false "a"] in
  is_ok (launch_all wrappers deps ∅ None ["b"; "a"] ∅) = true ∧
  launch_all wrappers deps ∅ None ["a"; "b"] ∅ = Err "Cycle detected in path a->b->a".
Proof. split; vm_compute; reflexivity. Qed.

(** A system service whose image is missing depends on the network service
    with a dependency that is not optional, the network service included: when
    its own image is missing, launching it alone is reported as a cycle. *)
Theorem network_without_image_is_a_cycle cfg missing :
  default "" (Labels cfg !! ScopeLabel) = System → Image cfg ≠ "" → missing (Image cfg) = true →
  requiresSyslog cfg = false →
  DefaultDependentServices (String.eqb "network") (Some cfg) = [] →
  launch_all {[ "network" ]}
    (λ _, DependentServices (String.eqb "network") missing [] cfg) ∅ None ["network"] ∅ =
  Err "Cycle detected in path network->network".
Proof.
  intros Hs Hi Hm Hsys Hd.
  assert (DependentServices (String.eqb "network") missing [] cfg = [dep_on false "network"]) as Hdep.
  { unfold DependentServices. cbn [foldl]. rewrite Hd, Hsys. unfold requiresUserDocker. rewrite Hs.
    change (negb (System =? System)) with false. unfold missingImage.
    destruct (String.eqb_spec (Image cfg) ""); [done|]. by rewrite Hm. }
  revert Hdep. generalize (DependentServices (String.eqb "network") missing [] cfg).
  intros rels ->. vm_compute. reflexivity.
Qed.

Lemma network_without_image_is_a_cycle_witness :
  let cfg := {| Links := []; VolumesFrom := []; DependsOn := []; NetworkMode := "host"; Ipc := "host";
    Image := "os-base"; Labels := {[ ScopeLabel := System ]}; Logging := None; LogDriver := "" |} in
  launch_all {[ "network" ]}
    (λ _, DependentServices (String.eqb "network") (λ _, true) [] cfg) ∅ None ["network"] ∅ =
  Err "Cycle detected in path network->network".
Proof.
  intros cfg. apply (network_without_image_is_a_cycle cfg (λ _, true));
    solve [reflexivity|discriminate].
Defined.
