(* ===== verification/ProjectExec.v ===== *)
(** * Running the services of a project
    ([pkg/libcompose/project/project.go], [service-wrapper.go])

    One goroutine per launched service waits for its dependencies and runs the
    action; the main goroutine launches them and waits for all of them. A state
    holds where every goroutine is, a step is one of them moving. *)

From stdpp Require Import prelude gmap strings list relations.
From S2P Require Import Prelude GoStrings ProjectDag.

Local Open Scope string_scope.
Local Open Scope nat_scope.

(** The error a wrapper holds; [Success] is nil. *)
Inductive outcome := Success | ErrRestart | Failed (e : string).

Global Instance outcome_eq_dec : EqDecision outcome.
Proof. solve_decision. Defined.

(** Where a goroutine is: not started, at the start of [Do], in the loop of
    [waitForDeps] with the targets left, in the action, or returned. *)
Inductive tstate :=
  | Idle
  | Started
  | Waiting (targets : list string)
  | Acting
  | Finished.

Global Instance tstate_eq_dec : EqDecision tstate.
Proof. solve_decision. Defined.

(** [x_todo]: what the main goroutine still has to launch. *)
Record exec := {
  x_pc : string → tstate;
  x_executed : gset string;
  x_err : string → outcome;
  x_todo : list launch_event;
}.

Definition upd {A} (f : string → A) (n : string) (a : A) : string → A :=
  λ m, if decide (m = n) then a else f m.

Definition set_pc (n : string) (p : tstate) (s : exec) : exec :=
  {| x_pc := upd (x_pc s) n p; x_executed := x_executed s; x_err := x_err s; x_todo := x_todo s |}.

Definition set_err (n : string) (o : outcome) (s : exec) : exec :=
  {| x_pc := x_pc s; x_executed := x_executed s; x_err := upd (x_err s) n o; x_todo := x_todo s |}.

Definition set_executed (n : string) (s : exec) : exec :=
  {| x_pc := x_pc s; x_executed := {[n]} ∪ x_executed s; x_err := x_err s; x_todo := x_todo s |}.

Definition set_todo (l : list launch_event) (s : exec) : exec :=
  {| x_pc := x_pc s; x_executed := x_executed s; x_err := x_err s; x_todo := l |}.

Section Round.
(** The wrappers, their dependencies and what the launch decided; whether [Do]
    is given the wrappers to wait for; what the action returns for a service. *)
Context (wrappers : gset string).
Context (deps : string → list ServiceRelationship).
Context (ignored : gset (string * string)).
Context (use_deps : bool).
Context (action : string → outcome).

Definition targets (n : string) : list string := Target <$> deps n.

Inductive step : exec → exec → Prop :=
  | step_launch s n l :
      x_todo s = Launch n :: l → step s (set_todo l (set_pc n Started s))
  | step_ignore s n l :
      x_todo s = IgnoreService n :: l →
      step s (set_todo l (set_pc n Finished (set_executed n s)))
  | step_cycle s n l :
      x_todo s = CycleAction n :: l → step s (set_todo l s)
  | step_already s n :
      x_pc s n = Started → n ∈ x_executed s → step s (set_pc n Finished s)
  | step_wait s n :
      x_pc s n = Started → n ∉ x_executed s →
      step s (set_pc n (Waiting (if use_deps then targets n else [])) s)
  | step_skip s n t ts :
      x_pc s n = Waiting (t :: ts) → ((n, t) ∈ ignored ∨ t ∉ wrappers) →
      step s (set_pc n (Waiting ts) s)
  | step_dep s n t ts :
      x_pc s n = Waiting (t :: ts) → (n, t) ∉ ignored → t ∈ wrappers →
      x_pc s t = Finished → x_err s t ≠ ErrRestart →
      step s (set_pc n (Waiting ts) s)
  | step_restart s n t ts :
      x_pc s n = Waiting (t :: ts) → (n, t) ∉ ignored → t ∈ wrappers →
      x_pc s t = Finished → x_err s t = ErrRestart →
      step s (set_pc n Finished (set_err n ErrRestart s))
  | step_act s n :
      x_pc s n = Waiting [] → step s (set_pc n Acting (set_executed n s))
  | step_return s n :
      x_pc s n = Acting → step s (set_pc n Finished (set_err n (action n) s)).

(** The start of a round: the wrappers as [Reset] left them. *)
Definition start_round (events : list launch_event) (executed : gset string)
    (err : string → outcome) : exec :=
  {| x_pc := λ _, Idle; x_executed := executed; x_err := err; x_todo := events |}.

(** *** The outcome of a round, computed in launch order *)

Definition awaited (n : string) : list string :=
  if use_deps then filter (λ t, (n, t) ∉ ignored ∧ t ∈ wrappers) (targets n) else [].

Definition blocked (err : string → outcome) (n : string) : bool :=
  existsb (λ t, bool_decide (err t = ErrRestart)) (awaited n).

Definition run_event (executed : gset string) (err : string → outcome) (e : launch_event) :
    string → outcome :=
  match e with
  | Launch n =>
      if decide (n ∈ executed) then err
      else if blocked err n then upd err n ErrRestart else upd err n (action n)
  | _ => err
  end.

Definition round_errors (executed : gset string) (err : string → outcome)
    (events : list launch_event) : string → outcome :=
  foldl (run_event executed) err events.

End Round.

(** ** Lemmas *)

Lemma upd_eq {A} (f : string → A) n a : upd f n a n = a.
Proof. unfold upd. by rewrite decide_True. Qed.

Lemma upd_ne {A} (f : string → A) n m a : m ≠ n → upd f n a m = f m.
Proof. intros. unfold upd. by rewrite decide_False. Qed.

Lemma length_if {A} (b : bool) (l : list A) : length (if b then l else []) ≤ length l.
Proof. destruct b; simpl; lia. Qed.

Section Correctness.
Context (wrappers : gset string).
Context (deps : string → list ServiceRelationship).
Context (ignored : gset (string * string)).
Context (use_deps : bool).
Context (action : string → outcome).
Context (events : list launch_event).
Context (executed0 : gset string).
Context (err0 : string → outcome).

(** The launch was successful: services start once, after what they wait for. *)
Let order := omap event_service events.
Context (order_nodup : NoDup order).
Context (order_topo : ∀ pre n post, order = (pre ++ n :: post)%list →
  ∀ t, t ∈ awaited wrappers deps ignored use_deps n → t ∈ pre).

Let awaits := awaited wrappers deps ignored use_deps.
Let final := round_errors wrappers deps ignored use_deps action executed0 err0 events.
Let init := start_round events executed0 err0.
Let run := step wrappers deps ignored use_deps action.

(** An event only sets the error of its own service. *)
Lemma round_errors_other evs err n :
  n ∉ omap event_service evs →
  round_errors wrappers deps ignored use_deps action executed0 err evs n = err n.
Proof.
  revert err; induction evs as [|e evs IH]; intros err Hn; [done|]. simpl.
  rewrite IH.
  - destruct e as [m|m|m]; simpl in *; [|done|done].
    destruct (decide _); [done|]. destruct (blocked _ _ _ _ _ _); apply upd_ne; set_solver.
  - intros Hin. apply Hn. simpl. destruct (event_service e); [by right|done].
Qed.

(** The equation the final errors satisfy. *)
Lemma final_launch n :
  Launch n ∈ events →
  final n = if decide (n ∈ executed0) then err0 n
            else if existsb (λ t, bool_decide (final t = ErrRestart)) (awaits n) then ErrRestart
            else action n.
Proof.
  intros Hin. apply list_elem_of_split in Hin as (pre & post & Heq).
  assert (order = (omap event_service pre ++ n :: omap event_service post)%list) as Ho.
  { unfold order. rewrite Heq, omap_app. done. }
  pose proof (order_topo _ _ _ Ho) as Htopo. pose proof order_nodup as Hnd.
  rewrite Ho in Hnd. apply NoDup_app in Hnd as (_ & Hdisj & Hnd).
  apply NoDup_cons in Hnd as [Hpost _].
  assert (n ∉ omap event_service pre) as Hpre by (intros Hp; apply (Hdisj n Hp); by left).
  set (epre := round_errors wrappers deps ignored use_deps action executed0 err0 pre).
  assert (∀ t, t ∈ omap event_service pre → final t = epre t) as Hstable.
  { intros t Ht. unfold final. rewrite Heq. unfold round_errors. rewrite foldl_app.
    fold epre. apply (round_errors_other (Launch n :: post)). simpl.
    apply not_elem_of_cons. split; [|intros Hp; apply (Hdisj t Ht); by right].
    intros ->. done. }
  assert (epre n = err0 n) as Hn by by apply round_errors_other.
  assert (final n = run_event wrappers deps ignored use_deps action executed0 epre (Launch n) n) as ->.
  { unfold final. rewrite Heq. unfold round_errors. rewrite foldl_app. fold epre. simpl.
    by apply round_errors_other. }
  assert (blocked wrappers deps ignored use_deps epre n =
          existsb (λ t, bool_decide (final t = ErrRestart)) (awaits n)) as <-.
  { unfold blocked, awaits. apply eq_true_iff_eq. rewrite !existsb_exists.
    split; intros (t & Ht & Hr); exists t; (split; [done|]);
      (assert (final t = epre t) as <- || (assert (final t = epre t) as Hf; [|rewrite Hf]));
      try done; apply Hstable, Htopo; by apply list_elem_of_In. }
  simpl. destruct (decide _); [done|]. destruct (blocked _ _ _ _ _ _); by rewrite upd_eq.
Qed.

(** A service that is not launched keeps its error. *)
Lemma round_errors_no_launch evs err n :
  Launch n ∉ evs →
  round_errors wrappers deps ignored use_deps action executed0 err evs n = err n.
Proof.
  revert err; induction evs as [|e evs IH]; intros err Hn; [done|]. simpl.
  apply not_elem_of_cons in Hn as [He Hn]. rewrite IH by done.
  destruct e as [m|m|m]; simpl; [|done|done].
  destruct (decide _); [done|]. destruct (blocked _ _ _ _ _ _); apply upd_ne; congruence.
Qed.

Lemma ignored_not_launched n : IgnoreService n ∈ events → Launch n ∉ events.
Proof.
  intros Hi Hl. apply list_elem_of_split in Hi as (pre & post & Heq).
  pose proof order_nodup as Hnd. unfold order in Hnd. rewrite Heq, omap_app in Hnd. simpl in Hnd.
  apply NoDup_app in Hnd as (_ & Hdisj & Hnd). apply NoDup_cons in Hnd as [Hpost _].
  rewrite Heq in Hl. apply elem_of_app in Hl as [Hl|Hl].
  - apply (Hdisj n); [|by left]. apply list_elem_of_omap. by exists (Launch n).
  - apply elem_of_cons in Hl as [?|Hl]; [done|]. apply Hpost, list_elem_of_omap. by exists (Launch n).
Qed.

Lemma final_ignored n : IgnoreService n ∈ events → final n = err0 n.
Proof. intros. apply round_errors_no_launch. by apply ignored_not_launched. Qed.

(** *** The invariant *)

Definition settled (s : exec) (t : string) : Prop := x_pc s t = Finished ∧ final t ≠ ErrRestart.

(** What is known of one goroutine. *)
Definition thread_inv (s : exec) (n : string) : Prop :=
  match x_pc s n with
  | Idle => True
  | Started => Launch n ∈ events
  | Waiting ts =>
      Launch n ∈ events ∧ n ∉ executed0 ∧ ts ⊆ (if use_deps then targets deps n else []) ∧
      ∀ t, t ∈ awaits n → t ∈ ts ∨ settled s t
  | Acting => Launch n ∈ events ∧ n ∉ executed0 ∧ ∀ t, t ∈ awaits n → settled s t
  | Finished => x_err s n = final n
  end ∧
  match x_pc s n with
  | Idle | Started | Waiting _ => x_err s n = err0 n ∧ (n ∈ x_executed s ↔ n ∈ executed0)
  | _ => True
  end.

Record exec_inv (s : exec) : Prop := {
  ei_todo : ∃ pre, events = (pre ++ x_todo s)%list ∧
    ∀ n, x_pc s n = Idle ↔ n ∉ omap event_service pre;
  ei_threads : ∀ n, thread_inv s n;
}.

Lemma init_inv : exec_inv init.
Proof.
  split.
  - exists []. split; [done|]. intros n. simpl. split; [intros; apply not_elem_of_nil|done].
  - intros n. by split.
Qed.

(** A step that only touches one goroutine, which had not returned. *)
Record touches (n : string) (s s' : exec) : Prop := {
  to_pc : ∀ m, m ≠ n → x_pc s' m = x_pc s m;
  to_err : ∀ m, m ≠ n → x_err s' m = x_err s m;
  to_exec : ∀ m, m ≠ n → (m ∈ x_executed s' ↔ m ∈ x_executed s);
  to_unfinished : x_pc s n ≠ Finished;
}.

Lemma settled_mono n s s' t : touches n s s' → settled s t → settled s' t.
Proof.
  intros Ht [Hf Hr]. split; [|done]. destruct (decide (t = n)) as [->|Hne].
  - by destruct (to_unfinished _ _ _ Ht).
  - by rewrite (to_pc _ _ _ Ht).
Qed.

Lemma thread_inv_other n s s' m : touches n s s' → m ≠ n → thread_inv s m → thread_inv s' m.
Proof.
  intros Ht Hne. unfold thread_inv.
  rewrite (to_pc _ _ _ Ht m Hne), (to_err _ _ _ Ht m Hne).
  pose proof (to_exec _ _ _ Ht m Hne) as He. pose proof (settled_mono n s s') as Hs.
  destruct (x_pc s m); rewrite ?He; naive_solver.
Qed.

Lemma touches_pc n p s : x_pc s n ≠ Finished → touches n s (set_pc n p s).
Proof. intros. split; simpl; [intros; by apply upd_ne|done|done|done]. Qed.

(** Steps of a goroutine other than the main one. *)
Lemma thread_step_inv n p s s' :
  exec_inv s → touches n s s' → x_todo s' = x_todo s → x_pc s n ≠ Idle →
  x_pc s' n = p → p ≠ Idle → thread_inv s' n → exec_inv s'.
Proof.
  intros [(pre & Hev & Hidle) Hth] Ht Htodo Hn Hp Hpi Hinv. split.
  - exists pre. rewrite Htodo. split; [done|]. intros m. destruct (decide (m = n)) as [->|Hne].
    + rewrite Hp. split; [done|]. intros Hm. by apply Hidle in Hm.
    + by rewrite (to_pc _ _ _ Ht m Hne).
  - intros m. destruct (decide (m = n)) as [->|Hne]; [done|]. by eapply thread_inv_other.
Qed.

(** Steps of the main goroutine that launch [n]. *)
Lemma main_step_inv n e l p s s' :
  exec_inv s → x_todo s = e :: l → event_service e = Some n →
  (∀ m, m ≠ n → x_pc s' m = x_pc s m) → (∀ m, m ≠ n → x_err s' m = x_err s m) →
  (∀ m, m ≠ n → (m ∈ x_executed s' ↔ m ∈ x_executed s)) →
  x_todo s' = l → x_pc s' n = p → p ≠ Idle →
  (x_pc s n = Idle → e ∈ events → thread_inv s n → thread_inv s' n) → exec_inv s'.
Proof.
  intros [(pre & Hev & Hidle) Hth] Htodo He Hpc Herr Hex Htodo' Hp Hpi Hinv.
  assert (x_pc s n = Idle) as Hn.
  { apply Hidle. intros Hin. pose proof order_nodup as Hnd. unfold order in Hnd.
    rewrite Hev, Htodo, omap_app in Hnd. simpl in Hnd. rewrite He in Hnd.
    apply NoDup_app in Hnd as (_ & Hdisj & _). apply (Hdisj n Hin). by left. }
  assert (touches n s s') as Ht by (split; [done..|congruence]).
  split.
  - exists (pre ++ [e])%list. rewrite Htodo', <-app_assoc. rewrite Hev, Htodo at 1. split; [done|].
    intros m. rewrite omap_app. simpl. rewrite He.
    rewrite not_elem_of_app, list_elem_of_singleton. destruct (decide (m = n)) as [->|Hne].
    + rewrite Hp. naive_solver.
    + rewrite (Hpc m Hne), Hidle. naive_solver.
  - intros m. destruct (decide (m = n)) as [->|Hne]; [|by eapply thread_inv_other].
    apply Hinv; [done| |apply Hth]. rewrite Hev, Htodo. apply elem_of_app. right. by left.
Qed.

Lemma awaits_elem n t :
  t ∈ awaits n ↔ use_deps = true ∧ t ∈ targets deps n ∧ (n, t) ∉ ignored ∧ t ∈ wrappers.
Proof.
  unfold awaits, awaited. destruct use_deps; [rewrite list_elem_of_filter; naive_solver|].
  split; [by intros ?%not_elem_of_nil|by intros [? _]].
Qed.

Lemma awaits_head n t ts :
  t :: ts ⊆ (if use_deps then targets deps n else []) → (n, t) ∉ ignored → t ∈ wrappers →
  t ∈ awaits n.
Proof.
  intros Hts Hi Hw. apply awaits_elem.
  assert (t ∈ (if use_deps then targets deps n else [])) as Ht by (apply Hts; by left).
  destruct (bool_decide_reflect (use_deps = true)) as [Hu|Hu].
  - by rewrite Hu in Ht.
  - apply not_true_iff_false in Hu. rewrite Hu in Ht. by apply not_elem_of_nil in Ht.
Qed.

Lemma final_blocked n t :
  Launch n ∈ events → n ∉ executed0 → t ∈ awaits n → final t = ErrRestart → final n = ErrRestart.
Proof.
  intros Hl Hn Ht Hr. rewrite final_launch by done. rewrite decide_False by done.
  assert (existsb (λ t, bool_decide (final t = ErrRestart)) (awaits n) = true) as ->; [|done].
  apply existsb_exists. exists t. split; [by apply list_elem_of_In|]. by apply bool_decide_eq_true.
Qed.

Lemma final_action n :
  Launch n ∈ events → n ∉ executed0 → (∀ t, t ∈ awaits n → final t ≠ ErrRestart) →
  final n = action n.
Proof.
  intros Hl Hn Ht. rewrite final_launch by done. rewrite decide_False by done.
  destruct (existsb _ (awaits n)) eqn:E; [|done].
  apply existsb_exists in E as (t & Hin%list_elem_of_In & Hr). apply bool_decide_eq_true in Hr.
  by destruct (Ht t Hin).
Qed.

Ltac unfold_thread := unfold thread_inv; simpl; rewrite ?upd_eq.

Lemma step_inv s s' : exec_inv s → run s s' → exec_inv s'.
Proof.
  intros Hinv Hstep. pose proof (ei_threads s Hinv) as Hth.
  destruct Hstep as [s n l Htodo|s n l Htodo|s n l Htodo|s n Hpc Hex|s n Hpc Hex
    |s n t ts Hpc Hor|s n t ts Hpc Hig Hw Hf Hr|s n t ts Hpc Hig Hw Hf Hr|s n Hpc|s n Hpc].
  - eapply (main_step_inv n _ l Started); simpl; try done; [intros; by apply upd_ne|by rewrite upd_eq|].
    intros Hi Hev. unfold_thread. rewrite Hi. tauto.
  - eapply (main_step_inv n _ l Finished); simpl; try done;
      [intros; by apply upd_ne|set_solver|by rewrite upd_eq|].
    intros Hi Hev. unfold_thread. rewrite Hi. intros (_ & -> & _).
    split; [|done]. by rewrite final_ignored.
  - destruct Hinv as [(pre & Hev & Hidle) _]. split; [|exact Hth].
    exists (pre ++ [CycleAction n])%list. simpl. rewrite <-app_assoc. rewrite Hev, Htodo at 1.
    split; [done|]. intros m. rewrite omap_app. simpl. by rewrite app_nil_r.
  - pose proof (Hth n) as Hn. unfold thread_inv in Hn. rewrite Hpc in Hn. destruct Hn as (Hl & He & Hx).
    eapply (thread_step_inv n Finished); [done|apply touches_pc; congruence|done|congruence|simpl; by rewrite upd_eq|done|].
    unfold_thread. split; [|done]. rewrite He, final_launch by done. rewrite decide_True by tauto. done.
  - pose proof (Hth n) as Hn. unfold thread_inv in Hn. rewrite Hpc in Hn. destruct Hn as (Hl & He & Hx).
    eapply (thread_step_inv n); [done|apply touches_pc; congruence|done|congruence|simpl; by rewrite upd_eq|done|].
    unfold_thread. split_and!; [done|tauto|done| |done|tauto].
    intros t Ht%awaits_elem. left. destruct Ht as (Hu & ? & _). by rewrite Hu.
  - pose proof (Hth n) as Hn. unfold thread_inv in Hn. rewrite Hpc in Hn.
    destruct Hn as ((Hl & Hx & Hts & Ha) & He).
    assert (touches n s (set_pc n (Waiting ts) s)) as Htouch by (apply touches_pc; congruence).
    eapply (thread_step_inv n); [done|done|done|congruence|simpl; by rewrite upd_eq|done|].
    unfold_thread. split_and!; [done|done|set_solver| |apply He|apply He].
    intros t' Ht'. destruct (Ha t' Ht') as [[->|?]%elem_of_cons|?].
    + apply awaits_elem in Ht'. naive_solver.
    + by left.
    + right. by eapply settled_mono.
  - pose proof (Hth n) as Hn. unfold thread_inv in Hn. rewrite Hpc in Hn.
    destruct Hn as ((Hl & Hx & Hts & Ha) & He).
    assert (touches n s (set_pc n (Waiting ts) s)) as Htouch by (apply touches_pc; congruence).
    eapply (thread_step_inv n); [done|done|done|congruence|simpl; by rewrite upd_eq|done|].
    unfold_thread. split_and!; [done|done|set_solver| |apply He|apply He].
    intros t' Ht'. destruct (Ha t' Ht') as [[->|?]%elem_of_cons|?]; [|by left|].
    + right. eapply settled_mono; [done|]. split; [done|].
      pose proof (Hth t) as Htt. unfold thread_inv in Htt. rewrite Hf in Htt. by rewrite <-(proj1 Htt).
    + right. by eapply settled_mono.
  - pose proof (Hth n) as Hn. unfold thread_inv in Hn. rewrite Hpc in Hn.
    destruct Hn as ((Hl & Hx & Hts & Ha) & He).
    eapply (thread_step_inv n Finished); [done| |done|congruence|simpl; by rewrite upd_eq|done|].
    { split; simpl; [intros; by apply upd_ne..|done|congruence]. }
    unfold_thread. split; [|done]. symmetry. apply (final_blocked n t); [done|done| |].
    + by apply awaits_head with ts.
    + pose proof (Hth t) as Htt. unfold thread_inv in Htt. rewrite Hf in Htt. by rewrite <-(proj1 Htt).
  - pose proof (Hth n) as Hn. unfold thread_inv in Hn. rewrite Hpc in Hn.
    destruct Hn as ((Hl & Hx & Hts & Ha) & He).
    assert (touches n s (set_pc n Acting (set_executed n s))) as Htouch.
    { split; simpl; [intros; by apply upd_ne|done|set_solver|congruence]. }
    eapply (thread_step_inv n Acting); [done|done|done|congruence|simpl; by rewrite upd_eq|done|].
    unfold_thread. split_and!; [done|done| |done]. intros t Ht.
    destruct (Ha t Ht) as [?%not_elem_of_nil|?]; [done|]. by eapply settled_mono.
  - pose proof (Hth n) as Hn. unfold thread_inv in Hn. rewrite Hpc in Hn.
    destruct Hn as ((Hl & Hx & Ha) & _).
    eapply (thread_step_inv n Finished); [done| |done|congruence|simpl; by rewrite upd_eq|done|].
    { split; simpl; [intros; by apply upd_ne..|done|congruence]. }
    unfold_thread. split; [|done]. symmetry. apply final_action; [done|done|].
    intros t Ht. by destruct (Ha t Ht).
Qed.

Lemma reachable_inv s : rtc run init s → exec_inv s.
Proof.
  intros Hr. assert (∀ s0, exec_inv s0 → rtc run s0 s → exec_inv s) as Hgen.
  { clear Hr. intros s0 Hs0 Hrtc. induction Hrtc as [|x y z Hxy _ IH]; [done|]. apply IH. by eapply step_inv. }
  eapply Hgen; [apply init_inv|done].
Qed.

(** *** Progress *)

Lemma thread_progress s n :
  exec_inv s → x_pc s n ≠ Finished → x_pc s n ≠ Idle →
  (∀ t, t ∈ awaits n → x_pc s t = Finished) → ∃ s', run s s'.
Proof.
  intros Hinv Hnf Hni Hdeps. pose proof (ei_threads s Hinv n) as Hn. unfold thread_inv in Hn.
  destruct (x_pc s n) as [| |[|t ts]| |] eqn:Hpc; try done.
  - destruct (decide (n ∈ x_executed s)); eexists; [by eapply step_already|by eapply step_wait].
  - eexists. by eapply step_act.
  - destruct (decide ((n, t) ∈ ignored ∨ t ∉ wrappers)) as [Hor|Hor].
    + eexists. by eapply step_skip.
    + assert ((n, t) ∉ ignored ∧ t ∈ wrappers) as [Hig Hw].
      { split; [tauto|]. destruct (decide (t ∈ wrappers)); [done|tauto]. }
      assert (x_pc s t = Finished) as Hf.
      { destruct Hn as ((_ & _ & Hts & _) & _). apply Hdeps. by apply awaits_head with ts. }
      destruct (decide (x_err s t = ErrRestart)); eexists; [by eapply step_restart|by eapply step_dep].
  - eexists. by eapply step_return.
Qed.

Lemma prefix_progress s l1 l2 :
  exec_inv s → x_todo s = [] → order = (l1 ++ l2)%list → (∀ n, n ∈ l1 → x_pc s n = Finished) →
  (∀ n, n ∈ l2 → x_pc s n = Finished) ∨ ∃ s', run s s'.
Proof.
  intros Hinv Htodo; revert l1; induction l2 as [|n l2 IH]; intros l1 Heq Hl1.
  { left. by intros n ?%not_elem_of_nil. }
  destruct (decide (x_pc s n = Finished)) as [Hf|Hf].
  - destruct (IH (l1 ++ [n])%list) as [Hall|?]; [by rewrite <-app_assoc| |left|by right].
    + intros m [?| ->%list_elem_of_singleton]%elem_of_app; [by apply Hl1|done].
    + intros m [->|?]%elem_of_cons; [done|by apply Hall].
  - right. apply (thread_progress s n); [done|done| |].
    + destruct (ei_todo s Hinv) as (pre & Hev & Hidle). rewrite Htodo, app_nil_r in Hev.
      intros Hi. apply Hidle in Hi. apply Hi. rewrite <-Hev. fold order. rewrite Heq.
      apply elem_of_app. right. by left.
    + intros t Ht. apply Hl1. by eapply order_topo.
Qed.

Lemma progress s :
  exec_inv s → (x_todo s = [] ∧ ∀ n, n ∈ order → x_pc s n = Finished) ∨ ∃ s', run s s'.
Proof.
  intros Hinv. destruct (x_todo s) as [|e l] eqn:Htodo.
  - destruct (prefix_progress s [] order Hinv Htodo eq_refl) as [?|?]; [|by left|by right].
    by intros n ?%not_elem_of_nil.
  - right. destruct e; eexists; [by eapply step_launch|by eapply step_ignore|by eapply step_cycle].
Qed.

(** *** Termination *)

Definition weight (n : string) (p : tstate) : nat :=
  match p with
  | Started => length (targets deps n) + 3
  | Waiting ts => length ts + 2
  | Acting => 1
  | _ => 0
  end.

Definition event_weight (e : launch_event) : nat :=
  match e with Launch n => length (targets deps n) + 4 | _ => 1 end.

Definition measure (s : exec) : nat :=
  list_sum (event_weight <$> x_todo s) + list_sum ((λ n, weight n (x_pc s n)) <$> order).

Lemma todo_weight_cons e l :
  list_sum (event_weight <$> e :: l) = event_weight e + list_sum (event_weight <$> l).
Proof. done. Qed.

Lemma sum_upd (l : list string) (pc : string → tstate) n p :
  NoDup l → n ∈ l →
  list_sum ((λ m, weight m (upd pc n p m)) <$> l) + weight n (pc n) =
  list_sum ((λ m, weight m (pc m)) <$> l) + weight n p.
Proof.
  intros Hnd; induction Hnd as [|m l Hm Hnd IH]; intros Hn; [by apply not_elem_of_nil in Hn|].
  rewrite !fmap_cons. cbn [list_sum foldr]. destruct (decide (m = n)) as [->|Hne].
  - rewrite upd_eq.
    assert ((λ m, weight m (upd pc n p m)) <$> l = (λ m, weight m (pc m)) <$> l) as ->; [|unfold list_sum; lia].
    apply list_fmap_ext. intros i x Hx%list_elem_of_lookup_2. rewrite upd_ne; [done|]. by intros ->.
  - apply elem_of_cons in Hn as [?|Hn]; [done|]. specialize (IH Hn).
    rewrite upd_ne by done. unfold list_sum in *. lia.
Qed.

Lemma step_measure s s' : exec_inv s → run s s' → measure s' < measure s.
Proof.
  intros Hinv Hstep. destruct (ei_todo s Hinv) as (pre & Hev & Hidle).
  assert (∀ n, x_pc s n ≠ Idle → n ∈ order) as Hord.
  { intros n Hn. unfold order. rewrite Hev, omap_app. apply elem_of_app. left.
    destruct (decide (n ∈ omap event_service pre)) as [|Hni]; [done|]. by apply Hidle in Hni. }
  assert (∀ n e l, x_todo s = e :: l → event_service e = Some n → n ∈ order) as Hnext.
  { intros n e l Htodo He. unfold order. rewrite Hev, Htodo, omap_app. apply elem_of_app. right.
    simpl. rewrite He. by left. }
  unfold measure.
  destruct Hstep as [s n l Htodo|s n l Htodo|s n l Htodo|s n Hpc Hex|s n Hpc Hex
    |s n t ts Hpc Hor|s n t ts Hpc Hig Hw Hf Hr|s n t ts Hpc Hig Hw Hf Hr|s n Hpc|s n Hpc]; simpl.
  1,2: pose proof (sum_upd order (x_pc s) n) as Hsum;
    specialize (fun p => Hsum p order_nodup (Hnext n _ _ Htodo eq_refl)).
  - specialize (Hsum Started). rewrite Htodo, todo_weight_cons. simpl in *. lia.
  - specialize (Hsum Finished). rewrite Htodo, todo_weight_cons. simpl in *. lia.
  - rewrite Htodo, todo_weight_cons. simpl. lia.
  - pose proof (sum_upd order (x_pc s) n Finished order_nodup (Hord n ltac:(congruence))) as Hsum.
    rewrite Hpc in Hsum. simpl in *. lia.
  - pose proof (sum_upd order (x_pc s) n (Waiting (if use_deps then targets deps n else []))
      order_nodup (Hord n ltac:(congruence))) as Hsum.
    rewrite Hpc in Hsum. pose proof (length_if use_deps (targets deps n)). cbn [weight] in Hsum. lia.
  - pose proof (sum_upd order (x_pc s) n (Waiting ts) order_nodup (Hord n ltac:(congruence))) as Hsum.
    rewrite Hpc in Hsum. simpl in *. lia.
  - pose proof (sum_upd order (x_pc s) n (Waiting ts) order_nodup (Hord n ltac:(congruence))) as Hsum.
    rewrite Hpc in Hsum. simpl in *. lia.
  - pose proof (sum_upd order (x_pc s) n Finished order_nodup (Hord n ltac:(congruence))) as Hsum.
    rewrite Hpc in Hsum. simpl in *. lia.
  - pose proof (sum_upd order (x_pc s) n Acting order_nodup (Hord n ltac:(congruence))) as Hsum.
    rewrite Hpc in Hsum. simpl in *. lia.
  - pose proof (sum_upd order (x_pc s) n Finished order_nodup (Hord n ltac:(congruence))) as Hsum.
    rewrite Hpc in Hsum. simpl in *. lia.
Qed.

Lemma nsteps_measure k s s' : exec_inv s → nsteps run k s s' → k + measure s' ≤ measure s.
Proof.
  intros Hinv Hn. induction Hn as [|k x y z Hxy _ IH]; [done|].
  pose proof (step_measure _ _ Hinv Hxy). specialize (IH (step_inv _ _ Hinv Hxy)). lia.
Qed.

End Correctness.

(** ** Rounds and reloads *)

(** What a wrapper is after a round: [run_event] for the executed services. *)
Definition run_executed (wrappers : gset string) (deps : string → list ServiceRelationship)
    (ignored : gset (string * string)) (use_deps : bool)
    (err : string → outcome) (executed : gset string) (e : launch_event) : gset string :=
  match e with
  | Launch n =>
      if blocked wrappers deps ignored use_deps err n then executed else {[n]} ∪ executed
  | IgnoreService n => {[n]} ∪ executed
  | CycleAction _ => executed
  end.

Record project_state := {
  ps_executed : gset string;
  ps_err : string → outcome;
  ps_ignored : gset (string * string);
}.

Section Traverse.
Context (wrappers : gset string).
Context (deps : string → list ServiceRelationship).
Context (selected : gset string).
Context (cycleAction : option (string → option string)).
Context (use_deps : bool).
Context (action : string → outcome).
(** The order in which [range wrappers] visits the services. *)
Context (order : list string).

(** [Reset] of every wrapper. *)
Definition reset_errors (err : string → outcome) : string → outcome :=
  λ n, if decide (err n = ErrRestart) then Success else err n.

(** The first error, in range order, that is not a restart. *)
Definition first_error (err : string → outcome) : option string :=
  head (omap (λ n, if isSelected selected n then
                     match err n with Failed e => Some e | _ => None end
                   else None) order).

Definition wants_restart (err : string → outcome) : bool :=
  existsb (λ n, isSelected selected n && bool_decide (err n = ErrRestart)) order.

(** One round: launch, run, wait. [actions]: the services whose action ran. *)
Definition round (st : project_state) : result (project_state * list string) :=
  launched ← launch_all wrappers deps selected cycleAction order (ps_ignored st);
  let ign := st_ignored launched in
  let events := st_events launched in
  let err0 := reset_errors (ps_err st) in
  let err := round_errors wrappers deps ign use_deps action (ps_executed st) err0 events in
  let executed := foldl (run_executed wrappers deps ign use_deps err)
                    (ps_executed st) events in
  let actions := filter (λ n, isSelected selected n = true ∧ n ∉ ps_executed st ∧
                              blocked wrappers deps ign use_deps err n = false)
                   (launch_order launched) in
  Ok ({| ps_executed := executed; ps_err := err; ps_ignored := ign |}, actions).

(** [traverse], without services added while it runs: rounds until none asks for
    a restart. The result is the error, and every action run, in order. *)
Fixpoint traverse (fuel : nat) (st : project_state) : result (option string * list string) :=
  match fuel with
  | O => Panic "out of fuel"
  | S fuel =>
      r ← round st;
      let '(st, actions) := r in
      if wants_restart (ps_err st) then
        r ← traverse fuel st;
        Ok (r.1, (actions ++ r.2)%list)
      else Ok (first_error (ps_err st), actions)
  end.

Definition initial_project : project_state :=
  {| ps_executed := ∅; ps_err := λ _, Success; ps_ignored := ∅ |}.

Definition forEach : result (option string * list string) :=
  traverse (S (size wrappers)) initial_project.

End Traverse.

(** *** Rounds make progress *)

Section Rounds.
Context (wrappers : gset string).
Context (deps : string → list ServiceRelationship).
Context (selected : gset string).
Context (cycleAction : option (string → option string)).
Context (use_deps : bool).
Context (action : string → outcome).
Context (order : list string).
Context (order_wrappers : order ≡ₚ elements wrappers).

Lemma elem_of_run_executed ign err events executed n :
  n ∈ foldl (run_executed wrappers deps ign use_deps err) executed events ↔
  n ∈ executed ∨ (Launch n ∈ events ∧ blocked wrappers deps ign use_deps err n = false) ∨
  IgnoreService n ∈ events.
Proof.
  revert executed; induction events as [|e events IH]; intros executed; simpl.
  { split; [by left|]. by intros [?|[[?%not_elem_of_nil ?]|?%not_elem_of_nil]]. }
  rewrite IH, !elem_of_cons. destruct e as [m|m|m]; simpl.
  - destruct (blocked _ _ _ _ err m) eqn:Hb.
    + split; [naive_solver|]. intros [?|[[[[= ->]|?] ?]|[[=]|?]]]; naive_solver congruence.
    + rewrite elem_of_union, elem_of_singleton. split; [naive_solver|].
      intros [?|[[[[= ->]|?] ?]|[[=]|?]]]; naive_solver.
  - rewrite elem_of_union, elem_of_singleton. split; [naive_solver|].
    intros [?|[[[[=]|?] ?]|[[= ->]|?]]]; naive_solver.
  - split; [naive_solver|]. intros [?|[[[[=]|?] ?]|[[=]|?]]]; naive_solver.
Qed.

(** A successful launch, seen by the runner. *)
Lemma launched_awaited st ign :
  topological wrappers deps st → ign = st_ignored st →
  ∀ pre n post, omap event_service (st_events st) = (pre ++ n :: post)%list →
  ∀ t, t ∈ awaited wrappers deps ign use_deps n → t ∈ pre.
Proof.
  intros Htopo -> pre n post Heq t Ht. eapply Htopo; [done|].
  unfold awaited in Ht. destruct use_deps; [|by apply not_elem_of_nil in Ht].
  apply list_elem_of_filter in Ht as [[Hi Hw] Ht]. split_and!; [|done|done].
  unfold targets in Ht. apply list_elem_of_fmap in Ht as (dep & -> & Hd). by exists dep.
Qed.

(** A restart comes from an action that ran in this round. *)
Lemma restart_source ign executed0 err0 events :
  let order := omap event_service events in
  let final := round_errors wrappers deps ign use_deps action executed0 err0 events in
  NoDup order →
  (∀ pre n post, order = (pre ++ n :: post)%list →
     ∀ t, t ∈ awaited wrappers deps ign use_deps n → t ∈ pre) →
  (∀ n, err0 n ≠ ErrRestart) →
  (∃ n, n ∈ order ∧ final n = ErrRestart) →
  ∃ n, Launch n ∈ events ∧ n ∉ executed0 ∧ blocked wrappers deps ign use_deps final n = false.
Proof.
  intros ord final Hnd Htopo Herr (n & Hin & Hr).
  remember (length ord) as len eqn:Hlen. clear Hlen.
  assert (∀ k n pre post, length pre ≤ k → ord = (pre ++ n :: post)%list → final n = ErrRestart →
    ∃ n, Launch n ∈ events ∧ n ∉ executed0 ∧ blocked wrappers deps ign use_deps final n = false) as Hk.
  { clear n Hin Hr. induction k as [|k IH]; intros n pre post Hl Heq Hr.
    all: assert (Launch n ∈ events) as HL by
      (destruct (decide (Launch n ∈ events)) as [|HnL]; [done|];
       unfold final in Hr; rewrite round_errors_no_launch in Hr by done; by destruct (Herr n)).
    all: unfold final in Hr; rewrite (final_launch wrappers deps ign use_deps action events executed0
           err0 Hnd Htopo n HL) in Hr; fold final in Hr.
    all: destruct (decide (n ∈ executed0)) as [|Hex]; [by destruct (Herr n)|].
    all: destruct (blocked wrappers deps ign use_deps final n) eqn:Hb; [|by exists n].
    all: unfold blocked in Hb; apply existsb_exists in Hb as (t & Ht%list_elem_of_In & Hrt);
      apply bool_decide_eq_true in Hrt; pose proof (Htopo pre n post Heq t Ht) as Htp.
    { destruct pre; [by apply not_elem_of_nil in Htp|simpl in Hl; lia]. }
    apply list_elem_of_split in Htp as (pre1 & pre2 & ->).
    eapply (IH t pre1); [|rewrite Heq, <-app_assoc; reflexivity|done].
    rewrite length_app in Hl. simpl in Hl. lia. }
  apply list_elem_of_split in Hin as (pre & post & Heq). by eapply Hk.
Qed.

Lemma reset_errors_spec err n : reset_errors err n ≠ ErrRestart.
Proof. unfold reset_errors. by destruct (decide _). Qed.

Lemma launch_in_events st n :
  launch_order st ≡ₚ elements wrappers →
  (∀ n, Launch n ∈ st_events st → isSelected selected n = true) →
  n ∈ wrappers → Launch n ∈ st_events st ∨ IgnoreService n ∈ st_events st.
Proof.
  intros Hord _ Hn. apply elem_of_elements in Hn. rewrite <-Hord in Hn.
  unfold launch_order in Hn. apply list_elem_of_omap in Hn as (e & He & Hs).
  destruct e; simplify_eq/=; auto.
Qed.

Lemma round_spec st st' actions :
  ps_executed st ⊆ wrappers →
  round wrappers deps selected cycleAction use_deps action order st = Ok (st', actions) →
  ps_executed st ⊆ ps_executed st' ∧ ps_executed st' ⊆ wrappers ∧ NoDup actions ∧
  (∀ n, n ∈ actions → n ∉ ps_executed st ∧ n ∈ ps_executed st' ∧ isSelected selected n = true) ∧
  (wants_restart selected order (ps_err st') = true → ps_executed st' ⊈ ps_executed st).
Proof.
  intros Hex. unfold round, mbind, result_bind.
  pose proof (launch_all_facts wrappers deps selected cycleAction order (ps_ignored st) order_wrappers)
    as Hl.
  destruct (launch_all _ _ _ _ _ _) as [lst|e|e]; [|done|done].
  destruct Hl as (Hord & Htopo & Hsel & Hign). intros H. injection H as <- <-. simpl.
  set (err := round_errors _ _ _ _ _ _ _ _).
  assert (NoDup (launch_order lst)) as Hnd by (rewrite Hord; apply NoDup_elements).
  assert (∀ n, n ∈ launch_order lst → n ∈ wrappers) as Hw.
  { intros n. rewrite Hord. apply elem_of_elements. }
  assert (∀ n e, e ∈ st_events lst → event_service e = Some n → n ∈ launch_order lst) as Hev.
  { intros n e He Hs. unfold launch_order. apply list_elem_of_omap. by exists e. }
  split_and!.
  - intros n Hn. apply elem_of_run_executed. by left.
  - intros n [Hn|[[Hn _]|Hn]]%elem_of_run_executed; [by apply Hex|apply Hw; by eapply Hev..].
  - by apply NoDup_filter.
  - intros n Hn. apply list_elem_of_filter in Hn as [(Hs & Hne & Hb) Hn]. split_and!; [done| |done].
    apply elem_of_run_executed. right.
    unfold launch_order in Hn. apply list_elem_of_omap in Hn as (e & He & Hs').
    destruct e; simplify_eq/=; [left|right]; done.
  - intros Hr. unfold wants_restart in Hr. apply existsb_exists in Hr as (n & Hn & Hr).
    apply andb_prop in Hr as [_ Hr]. apply bool_decide_eq_true in Hr.
    destruct (restart_source (st_ignored lst) (ps_executed st) (reset_errors (ps_err st))
      (st_events lst)) as (m & Hm & Hme & Hmb).
    + done.
    + by apply (launched_awaited lst).
    + apply reset_errors_spec.
    + exists n. split; [|done]. apply list_elem_of_In in Hn. rewrite order_wrappers, <-Hord in Hn. done.
    + intros Hsub. apply Hme, Hsub, elem_of_run_executed. right. by left.
Qed.

(** Enough rounds, and no action twice. *)
Lemma traverse_spec fuel st :
  ps_executed st ⊆ wrappers → size (wrappers ∖ ps_executed st) < fuel →
  match traverse wrappers deps selected cycleAction use_deps action order fuel st with
  | Ok (_, actions) =>
      NoDup actions ∧
      ∀ n, n ∈ actions → n ∉ ps_executed st ∧ isSelected selected n = true ∧ n ∈ wrappers
  | Err _ => True
  | Panic _ => False
  end.
Proof.
  revert st; induction fuel as [|fuel IH]; intros st Hex Hf; [lia|]. simpl.
  unfold mbind at 1, result_bind at 1.
  pose proof (round_spec st) as Hr.
  destruct (round _ _ _ _ _ _ _ st) as [[st' actions]|e|e] eqn:E; [|done|].
  - destruct (Hr st' actions Hex eq_refl) as (Hsub & Hw & Hnd & Ha & Hwants).
    destruct (wants_restart _ _ _).
    + assert (size (wrappers ∖ ps_executed st') < size (wrappers ∖ ps_executed st)) as Hlt.
      { apply subset_size. split; [set_solver|]. intros Hsub'. apply Hwants; [done|].
        intros n Hn. destruct (decide (n ∈ ps_executed st)); [done|].
        assert (n ∈ wrappers ∖ ps_executed st') by (apply Hsub'; set_solver). set_solver. }
      specialize (IH st' Hw ltac:(lia)). unfold mbind, result_bind.
      destruct (traverse _ _ _ _ _ _ _ fuel st') as [[err actions']|e|e]; [|done|done].
      destruct IH as [Hnd' Ha']. cbn [snd]. split.
      * apply NoDup_app. split_and!; [done| |done]. intros n Hn Hn'.
        destruct (Ha n Hn) as (_ & Hn1 & _). by destruct (Ha' n Hn').
      * intros n [Hn|Hn]%elem_of_app.
        -- destruct (Ha n Hn) as (? & ? & ?). split_and!; [done|done|by apply Hw].
        -- destruct (Ha' n Hn) as (? & ? & ?). split_and!; [|done|done]. intros ?. by apply H, Hsub.
    + split; [done|]. intros n Hn. destruct (Ha n Hn) as (? & ? & ?).
      split_and!; [done|done|by apply Hw].
  - unfold round, mbind, result_bind in E.
    pose proof (launch_all_facts wrappers deps selected cycleAction order (ps_ignored st) order_wrappers)
      as Hl.
    by destruct (launch_all _ _ _ _ _ _).
Qed.

End Rounds.

(** ** Properties *)

(** C11: a round of a project cannot hang. After a successful launch, and however
    the goroutines are scheduled: no execution is longer than a bound that only
    depends on the services; an execution that cannot go on has launched
    everything and every goroutine has returned; and the errors it ends with do
    not depend on the schedule, they are the ones computed in launch order. *)
Theorem round_terminates wrappers deps ignored use_deps action events executed0 err0 :
  let order := omap event_service events in
  NoDup order →
  (∀ pre n post, order = (pre ++ n :: post)%list →
     ∀ t, t ∈ awaited wrappers deps ignored use_deps n → t ∈ pre) →
  let run := step wrappers deps ignored use_deps action in
  let init := start_round events executed0 err0 in
  let final := round_errors wrappers deps ignored use_deps action executed0 err0 events in
  ∀ k s, nsteps run k init s →
    k ≤ list_sum (event_weight deps <$> events) ∧
    ((∃ s', run s s') ∨
     x_todo s = [] ∧ ∀ n, n ∈ order → x_pc s n = Finished ∧ x_err s n = final n).
Proof.
  intros order Hnd Htopo run init final k s Hk.
  assert (rtc run init s) as Hr by (apply rtc_nsteps; by exists k).
  pose proof (reachable_inv wrappers deps ignored use_deps action events executed0 err0 Hnd Htopo s Hr)
    as Hinv.
  split.
  - pose proof (nsteps_measure wrappers deps ignored use_deps action events executed0 err0 Hnd Htopo
      k init s (init_inv _ _ _ _ _ _ _ _) Hk) as Hm.
    unfold measure at 2 in Hm. simpl in Hm.
    assert (∀ l : list string, list_sum ((λ _ : string, 0) <$> l) = 0) as Hz.
    { clear. intros l. induction l as [|x l IH]; [done|exact IH]. }
    change (list_sum ((λ n : string, weight deps n Idle) <$> omap event_service events))
      with (list_sum ((λ _ : string, 0) <$> omap event_service events)) in Hm.
    rewrite Hz in Hm. lia.
  - destruct (progress wrappers deps ignored use_deps action events executed0 err0 Htopo s Hinv)
      as [[Htodo Hall]|?]; [right|by left].
    split; [done|]. intros n Hn. split; [by apply Hall|].
    pose proof (ei_threads _ _ _ _ _ _ _ _ _ Hinv n) as Ht. unfold thread_inv in Ht.
    rewrite (Hall n Hn) in Ht. apply Ht.
Qed.

Definition example_events : list launch_event := [Launch "network"; Launch "docker"].
Definition example_waits (n : string) : list ServiceRelationship :=
  if String.eqb n "docker" then [dep_on false "network"] else [].

(** Membership and steps on concrete states. *)
Ltac evaluate := first [ vm_compute; reflexivity | apply (bool_decide_unpack _); vm_compute; exact I ].
Ltac take rule n := eapply rtc_l; [eapply (rule _ _ _ _ _ _ n); evaluate|].

Lemma example_topological n t pre post :
  omap event_service example_events = (pre ++ n :: post)%list →
  t ∈ awaited {[ "network"; "docker" ]} example_waits ∅ true n → t ∈ pre.
Proof.
  intros Heq Ht. unfold awaited, targets, example_waits in Ht.
  apply list_elem_of_filter in Ht as [_ Ht].
  destruct (String.eqb_spec n "docker") as [->|]; [|by apply not_elem_of_nil in Ht].
  apply list_elem_of_singleton in Ht as ->. vm_compute in Heq.
  destruct pre as [|x [|y pre]]; simplify_eq/=; [by left|by destruct pre].
Qed.

Lemma example_NoDup : NoDup (omap event_service example_events).
Proof. vm_compute. repeat (constructor; [set_solver|]). constructor. Qed.

Lemma round_terminates_witness :
  let run := step {[ "network"; "docker" ]} example_waits ∅ true
    (λ n, if String.eqb n "network" then ErrRestart else Success) in
  ∃ s, nsteps run 0 (start_round example_events ∅ (λ _, Success)) s ∧
    0 ≤ list_sum (event_weight example_waits <$> example_events) ∧ ∃ s', run s s'.
Proof.
  intros run. exists (start_round example_events ∅ (λ _, Success)).
  assert (nsteps run 0 (start_round example_events ∅ (λ _, Success))
    (start_round example_events ∅ (λ _, Success))) as Hk by constructor.
  split; [exact Hk|].
  destruct (round_terminates {[ "network"; "docker" ]} example_waits ∅ true
    (λ n, if String.eqb n "network" then ErrRestart else Success) example_events ∅ (λ _, Success)
    example_NoDup (λ pre n post Heq t, example_topological n t pre post Heq) 0 _ Hk)
    as [Hb [Hs|[Ht _]]].
  - split; [exact Hb|exact Hs].
  - discriminate Ht.
Defined.

(** C12: a service only runs its action once everything it waits for has returned
    without asking for a restart, in every schedule of a round. *)
Theorem action_after_dependencies wrappers deps ignored use_deps action events executed0 err0 s n :
  let order := omap event_service events in
  NoDup order →
  (∀ pre n post, order = (pre ++ n :: post)%list →
     ∀ t, t ∈ awaited wrappers deps ignored use_deps n → t ∈ pre) →
  rtc (step wrappers deps ignored use_deps action) (start_round events executed0 err0) s →
  x_pc s n = Acting →
  n ∉ executed0 ∧
  ∀ t, t ∈ awaited wrappers deps ignored use_deps n →
    x_pc s t = Finished ∧ x_err s t ≠ ErrRestart.
Proof.
  intros order Hnd Htopo Hr Hpc.
  pose proof (reachable_inv wrappers deps ignored use_deps action events executed0 err0 Hnd Htopo s Hr)
    as Hinv.
  pose proof (ei_threads _ _ _ _ _ _ _ _ _ Hinv n) as Ht. unfold thread_inv in Ht. rewrite Hpc in Ht.
  destruct Ht as [(_ & Hn & Ha) _]. split; [done|]. intros t Hin.
  destruct (Ha t Hin) as [Hf Hr']. split; [done|].
  pose proof (ei_threads _ _ _ _ _ _ _ _ _ Hinv t) as Htt. unfold thread_inv in Htt.
  rewrite Hf in Htt. by rewrite (proj1 Htt).
Qed.

Lemma action_after_dependencies_witness :
  let wrappers : gset string := {[ "network"; "docker" ]} in
  let run := step wrappers example_waits ∅ true (λ _, Success) in
  ∃ s, rtc run (start_round example_events ∅ (λ _, Success)) s ∧ x_pc s "docker" = Acting ∧
    ∀ t, t ∈ awaited wrappers example_waits ∅ true "docker" →
      x_pc s t = Finished ∧ x_err s t ≠ ErrRestart.
Proof.
  intros wrappers run.
  assert (∃ s, rtc run (start_round example_events ∅ (λ _, Success)) s ∧ x_pc s "docker" = Acting)
    as (s & Hr & Hpc).
  { eexists. split.
    - take step_launch "network". take step_launch "docker".
      take step_wait "network".
      take step_act "network".
      take step_return "network".
      take step_wait "docker".
      take step_dep "docker".
      take step_act "docker".
      apply rtc_refl.
    - vm_compute. reflexivity. }
  exists s. split; [exact Hr|]. split; [exact Hpc|].
  apply (action_after_dependencies wrappers example_waits ∅ true (λ _, Success) example_events ∅
    (λ _, Success) s "docker" example_NoDup
    (λ pre n post Heq t, example_topological n t pre post Heq) Hr Hpc).
Defined.

(** C13: starting a project terminates even when services ask for restarts: no
    more rounds are needed than there are services, plus one, because every
    restart comes from an action that ran for the first time; and no service's
    action runs twice, nor does that of a service that was not selected. *)
Theorem forEach_terminates wrappers deps selected cycleAction use_deps action order :
  order ≡ₚ elements wrappers →
  match forEach wrappers deps selected cycleAction use_deps action order with
  | Ok (_, actions) =>
      NoDup actions ∧ ∀ n, n ∈ actions → isSelected selected n = true ∧ n ∈ wrappers
  | Err _ => True
  | Panic _ => False
  end.
Proof.
  intros Hord. unfold forEach.
  pose proof (traverse_spec wrappers deps selected cycleAction use_deps action order Hord
    (S (size wrappers)) initial_project) as Ht.
  destruct (traverse _ _ _ _ _ _ _ _ _) as [[err actions]|e|e].
  - destruct Ht as [Hnd Ha]; [set_solver|apply Nat.lt_succ_r, subseteq_size; set_solver|].
    split; [done|]. intros n Hn. by destruct (Ha n Hn).
  - done.
  - apply Ht; [set_solver|apply Nat.lt_succ_r, subseteq_size; set_solver].
Qed.

Lemma forEach_terminates_witness :
  let wrappers : gset string := {[ "network"; "docker" ]} in
  let action n := if String.eqb n "network" then ErrRestart else Success in
  forEach wrappers example_waits ∅ None true action (elements wrappers) =
    Ok (None, ["network"; "docker"]) ∧
  NoDup ["network"; "docker"].
Proof.
  intros wrappers action.
  assert (forEach wrappers example_waits ∅ None true action (elements wrappers) =
    Ok (None, ["network"; "docker"])) as E by (vm_compute; reflexivity).
  split; [exact E|].
  pose proof (forEach_terminates wrappers example_waits ∅ None true action (elements wrappers)
    ltac:(reflexivity)) as H.
  rewrite E in H. apply H.
Defined.
