(* ===== verification/Interpolation.v ===== *)
(** * Variables in compose files ([pkg/libcompose/config/interpolation.go],
    [pkg/docker/env.go]) *)

From stdpp Require Import prelude gmap strings list.
From S2P Require Import Prelude GoStrings RawTree.

Local Open Scope string_scope.

Definition isNum (c : ascii) : bool := is_digit c.

Definition validVariableNameChar (c : ascii) : bool :=
  let b := byte_of c in
  Ascii.eqb c "_" || ((65 <=? b) && (b <=? 90))%Z || ((97 <=? b) && (b <=? 122))%Z || isNum c.

(** The parsers work on what is left of the line; a Go position is the length of
    what was read. [Err] is an invalid format. *)

(** The name and the rest, which starts at the first character that cannot be in
    a name. *)
Fixpoint variable_name (line : string) : string * string :=
  match line with
  | String c r =>
      if validVariableNameChar c then
        let '(name, rest) := variable_name r in (String c name, rest)
      else ("", line)
  | "" => ("", "")
  end.

Definition parseVariable (line : string) (mapping : string → result string) :
    result (string * string) :=
  let '(name, rest) := variable_name line in
  v ← mapping name; Ok (v, rest).

Fixpoint braces_name (buffer line : string) : result (string * string) :=
  match line with
  | "" => Err "invalid format"
  | String c r =>
      if Ascii.eqb c "}" then
        if String.eqb buffer "" then Err "invalid format" else Ok (buffer, r)
      else if validVariableNameChar c then braces_name (buffer +:+ String c "") r
      else Err "invalid format"
  end.

Definition parseVariableWithBraces (line : string) (mapping : string → result string) :
    result (string * string) :=
  nr ← braces_name "" line;
  v ← mapping nr.1; Ok (v, nr.2).

(** What follows a dollar; [line[pos]] is out of range at the end of the line. *)
Definition parseInterpolationExpression (line : string) (mapping : string → result string) :
    result (string * string) :=
  match line with
  | "" => Panic "index out of range"
  | String c r =>
      if Ascii.eqb c "$" then Ok ("$", r)
      else if Ascii.eqb c "{" then parseVariableWithBraces r mapping
      else if negb (isNum c) && validVariableNameChar c then parseVariable line mapping
      else Err "invalid format"
  end.

Fixpoint parse_line (fuel : nat) (line : string) (mapping : string → result string) : result string :=
  match line with
  | "" => Ok ""
  | String c r =>
      match fuel with
      | O => Panic "out of fuel"
      | S fuel =>
          if Ascii.eqb c "$" then
            vr ← parseInterpolationExpression r mapping;
            rest ← parse_line fuel vr.2 mapping;
            Ok (vr.1 +:+ rest)
          else
            rest ← parse_line fuel r mapping;
            Ok (String c rest)
      end
  end.

Definition parseLine (line : string) (mapping : string → result string) : result string :=
  parse_line (String.length line) line mapping.

(** Over a decoded value; lists and maps are changed in place. *)
Fixpoint parseConfig (data : val) (mapping : string → result string) : result val :=
  match data with
  | VScalar (SStr s) => (λ s, VStr s) <$> parseLine s mapping
  | VList l =>
      VList <$> foldr (λ v acc, v ← parseConfig v mapping; acc ← acc; Ok (v :: acc)) (Ok []) l
  | VMap m =>
      VMap <$> map_fold (λ k v acc,
        acc ← acc; v ← parseConfig v mapping; Ok (<[k := v]> acc)) (Ok ∅) m
  | _ => Ok data
  end.

Definition RawService : Type := gmap string val.
Definition RawServiceMap : Type := gmap string (gmap string val).

(** The mapping [Interpolate] uses for a service. *)
Definition lookup_variable (Lookup : string → string → list string) (service s : string) :
    result string :=
  match Lookup s service with
  | [] => Ok ""
  | value :: _ =>
      match SplitN value "=" 2 !! 1 with
      | Some v => Ok v
      | None => Panic "index out of range"
      end
  end.

Definition interpolate_service (Lookup : string → string → list string) (k : string)
    (v : gmap string val) : result (gmap string val) :=
  map_fold (λ k2 v2 acc,
    acc ← acc; v2 ← parseConfig v2 (lookup_variable Lookup k); Ok (<[k2 := v2]> acc)) (Ok ∅) v.

Definition Interpolate (Lookup : string → string → list string) (config : RawServiceMap) :
    result RawServiceMap :=
  map_fold (λ k v acc,
    acc ← acc; v ← interpolate_service Lookup k v; Ok (<[k := v]> acc)) (Ok ∅) config.

(** ** The environment of the cloud config ([pkg/docker/env.go]) *)

Record NetworkProxies := { HTTPProxy : string; HTTPSProxy : string; NoProxy : string }.

(** Write to a map that may be nil. *)
Definition set_env (k v : string) (env : option (gmap string string)) :
    result (option (gmap string string)) :=
  match env with
  | None => Panic "assignment to entry in nil map"
  | Some env => Ok (Some (<[k := v]> env))
  end.

Definition set_proxy (lower upper value : string) (env : option (gmap string string)) :
    result (option (gmap string string)) :=
  if String.eqb value "" then Ok env
  else env ← set_env lower value env; set_env upper value env.

Definition environmentFromCloudConfig (environment : option (gmap string string))
    (proxies : NetworkProxies) (kernel : string) : result (option (gmap string string)) :=
  environment ← set_proxy "http_proxy" "HTTP_PROXY" (HTTPProxy proxies) environment;
  environment ← set_proxy "https_proxy" "HTTPS_PROXY" (HTTPSProxy proxies) environment;
  environment ← set_proxy "no_proxy" "NO_PROXY" (NoProxy proxies) environment;
  if String.eqb kernel "" then Ok environment
  else set_env "KERNEL_VERSION" kernel environment.

Definition appendEnv (array : list string) (key value : string) : list string :=
  let key := match SplitN key "/" 2 with [_; k] => k | _ => key end in
  (array ++ [key +:+ "=" +:+ value])%list.

(** [lookupKeys] on the environment, visited in the order [order]. *)
Fixpoint lookupKeys (environment : gmap string string) (order : list (string * string))
    (keys : list string) : list string :=
  match keys with
  | [] => []
  | key :: keys =>
      if HasSuffix key "*" then
        let keyPrefix := TrimSuffix key "*" in
        let result := foldl (λ result kv,
          if HasPrefix kv.1 keyPrefix then appendEnv result kv.1 kv.2 else result) [] order in
        match result with
        | [] => lookupKeys environment order keys
        | _ => result
        end
      else match environment !! key with
           | Some value => appendEnv [] key value
           | None => lookupKeys environment order keys
           end
  end.

(** [ConfigEnvironment.Lookup]. *)
Definition ConfigEnvironment_Lookup (environment : gmap string string) (key serviceName : string) :
    list string :=
  lookupKeys environment (map_to_list environment) [serviceName +:+ "/" +:+ key; key].

(** ** The grammar of a line *)

Inductive token :=
  | Lit (c : ascii)
  | Dollar
  | Var (name : string)
  | Braced (name : string).

Definition name_string (s : string) : bool :=
  (fix go s := match s with "" => true | String c s => validVariableNameChar c && go s end) s.

Definition starts_name (s : string) : bool :=
  match s with String c _ => validVariableNameChar c | "" => false end.

Definition good_name (s : string) : bool := negb (String.eqb s "") && name_string s.

(** [grammar line ts]: the line is the tokens [ts]; a bare variable is as long
    as it can be and does not start with a digit. *)
Inductive grammar : string → list token → Prop :=
  | grammar_end : grammar "" []
  | grammar_lit c r ts : c ≠ "$"%char → grammar r ts → grammar (String c r) (Lit c :: ts)
  | grammar_dollar r ts : grammar r ts → grammar (String "$" (String "$" r)) (Dollar :: ts)
  | grammar_var name r ts :
      good_name name = true → match name with String c _ => isNum c = false | _ => True end →
      starts_name r = false → grammar r ts →
      grammar (String "$" (name +:+ r)) (Var name :: ts)
  | grammar_braced name r ts :
      good_name name = true → grammar r ts →
      grammar (String "$" (String "{" (name +:+ String "}" r))) (Braced name :: ts).

(** What the tokens stand for. *)
Definition expand_token (f : string → string) (t : token) : string :=
  match t with
  | Lit c => String c ""
  | Dollar => "$"
  | Var name | Braced name => f name
  end.

Definition expand_tokens (f : string → string) (ts : list token) : string :=
  foldr (λ t acc, expand_token f t +:+ acc) "" ts.

(** ** Lemmas *)

Lemma variable_name_spec line :
  let '(name, rest) := variable_name line in
  line = name +:+ rest ∧ name_string name = true ∧ starts_name rest = false.
Proof.
  induction line as [|c r IH]; [done|]. simpl. destruct (validVariableNameChar c) eqn:Hc.
  - destruct (variable_name r) as [name rest]. destruct IH as (-> & Hn & Hs).
    split_and!; [done| |done]. simpl. by rewrite Hc.
  - split_and!; [done|done|exact Hc].
Qed.

Lemma variable_name_app name r :
  name_string name = true → starts_name r = false → variable_name (name +:+ r) = (name, r).
Proof.
  induction name as [|c name IH]; intros Hn Hr.
  - simpl. destruct r as [|c r]; [done|]. simpl in *. by rewrite Hr.
  - simpl in *. apply andb_prop in Hn as [Hc Hn]. by rewrite Hc, IH.
Qed.

Lemma braces_name_app buffer name r :
  name_string name = true → buffer +:+ name ≠ "" →
  braces_name buffer (name +:+ String "}" r) = Ok (buffer +:+ name, r).
Proof.
  revert buffer; induction name as [|c name IH]; intros buffer Hn Hne.
  - simpl in *. rewrite app_empty_r in *. by destruct (String.eqb_spec buffer "").
  - simpl in *. apply andb_prop in Hn as [Hc Hn].
    destruct (Ascii.eqb_spec c "}") as [->|_]; [by vm_compute in Hc|]. rewrite Hc.
    assert (buffer +:+ String c name = (buffer +:+ String c "") +:+ name) as Heq.
    { by rewrite app_assoc_s. }
    rewrite IH; [by rewrite Heq|done|by rewrite <-Heq].
Qed.

Lemma braces_name_spec buffer line name r :
  braces_name buffer line = Ok (name, r) →
  ∃ n, name = buffer +:+ n ∧ line = n +:+ String "}" r ∧ name_string n = true ∧ name ≠ "".
Proof.
  revert buffer; induction line as [|c line IH]; intros buffer H; [done|]. simpl in H.
  destruct (Ascii.eqb_spec c "}") as [->|_].
  - destruct (String.eqb_spec buffer ""); [done|]. injection H as <- <-.
    exists "". by rewrite app_empty_r.
  - destruct (validVariableNameChar c) eqn:Hc; [|done].
    apply IH in H as (n & -> & -> & Hn & Hne). exists (String c n). split_and!; [|done| |done].
    + by rewrite app_assoc_s.
    + simpl. by rewrite Hc.
Qed.

Lemma braces_name_not_panic buffer line e : braces_name buffer line ≠ Panic e.
Proof.
  revert buffer; induction line as [|c line IH]; intros buffer; [done|]. simpl. cases.
Qed.

(** An expression takes at least one character, so that the fuel is enough. *)
Lemma expression_rest line mapping v r :
  parseInterpolationExpression line mapping = Ok (v, r) → (String.length r < String.length line)%nat.
Proof.
  destruct line as [|c line]; [done|]. simpl.
  destruct (Ascii.eqb c "$"); [intros; simplify_eq/=; lia|].
  destruct (Ascii.eqb c "{").
  - unfold parseVariableWithBraces. intros. inv_result. destruct a as [n r'].
    apply braces_name_spec in E as (m & _ & -> & _ & _). rewrite length_app_s. simpl. lia.
  - destruct (negb (isNum c) && validVariableNameChar c) eqn:Hc; [|done].
    apply andb_prop in Hc as [_ Hc]. unfold parseVariable. simpl. rewrite Hc.
    pose proof (variable_name_spec line) as Hl. destruct (variable_name line) as [name rest].
    destruct Hl as (-> & _ & _). intros. inv_result. rewrite length_app_s. lia.
Qed.

Lemma parse_line_fuel fuel line mapping :
  (String.length line ≤ fuel)%nat → parse_line fuel line mapping = parseLine line mapping.
Proof.
  unfold parseLine. remember (String.length line) as n eqn:Hn. revert fuel line Hn.
  induction (lt_wf n) as [n _ IH]. intros fuel [|c r] -> Hf; [by destruct fuel|].
  destruct fuel as [|fuel]; simpl in Hf; [lia|].
  cbn [parse_line String.length]. destruct (Ascii.eqb c "$").
  - unfold mbind, result_bind.
    destruct (parseInterpolationExpression r mapping) as [[v rest]|e|e] eqn:E; [|done|done].
    apply expression_rest in E. cbn [fst snd].
    rewrite (IH (String.length rest) ltac:(simpl; lia) fuel rest eq_refl ltac:(lia)).
    rewrite (IH (String.length rest) ltac:(simpl; lia) (String.length r) rest eq_refl ltac:(lia)).
    done.
  - rewrite (IH (String.length r) ltac:(simpl; lia) fuel r eq_refl ltac:(lia)). done.
Qed.

Lemma parseLine_cons c r mapping :
  parseLine (String c r) mapping =
  if Ascii.eqb c "$" then
    vr ← parseInterpolationExpression r mapping;
    rest ← parseLine vr.2 mapping; Ok (vr.1 +:+ rest)
  else rest ← parseLine r mapping; Ok (String c rest).
Proof.
  unfold parseLine at 1. cbn [String.length parse_line]. destruct (Ascii.eqb c "$"); [|done].
  unfold mbind, result_bind.
  destruct (parseInterpolationExpression r mapping) as [[v rest]|e|e] eqn:E; [|done|done].
  apply expression_rest in E. cbn [fst snd]. by rewrite parse_line_fuel by lia.
Qed.

(** Names hold no other characters. *)
Lemma name_no_char c name :
  good_name name = true → validVariableNameChar c = false → has_char c name = false.
Proof.
  unfold good_name. intros [_ Hn]%andb_prop Hc. induction name as [|x name IH]; [done|].
  simpl in Hn |- *. apply andb_prop in Hn as [Hx Hn]. rewrite IH by done.
  case_bool_decide; [congruence|done].
Qed.

(** The value of a [key=value] pair. *)
Lemma pair_value k v :
  has_char "=" k = false → SplitN (k +:+ "=" +:+ v) "=" 2 !! 1%nat = Some v.
Proof.
  intros Hk. change ("=" +:+ v) with (String "=" v). by rewrite SplitN2_pair.
Qed.

Lemma parseLine_sound f line out :
  parseLine line (λ s, Ok (f s)) = Ok out → ∃ ts, grammar line ts ∧ out = expand_tokens f ts.
Proof.
  remember (String.length line) as n eqn:Hn. revert line out Hn.
  induction (lt_wf n) as [n _ IH]. intros [|c r] out -> H.
  { injection H as <-. exists []. by split; [constructor|]. }
  rewrite parseLine_cons in H. destruct (Ascii.eqb_spec c "$") as [->|Hc].
  - inv_result. destruct a as [v rest]. cbn [fst snd] in *.
    pose proof (expression_rest _ _ _ _ E) as Hlt.
    destruct (IH (String.length rest) ltac:(simpl; lia) rest _ eq_refl E0) as (ts & Hg & ->).
    destruct r as [|c r]; [done|]. simpl in E.
    destruct (Ascii.eqb_spec c "$") as [->|_].
    { simplify_eq. exists (Dollar :: ts). by split; [constructor|]. }
    destruct (Ascii.eqb_spec c "{") as [->|_].
    + unfold parseVariableWithBraces in E. inv_result. destruct a as [name rest']. cbn in *.
      apply braces_name_spec in E1 as (m & -> & -> & Hm & Hne). simplify_eq.
      exists (Braced m :: ts). split; [|done]. constructor; [|done].
      unfold good_name. simpl in Hne. rewrite Hm. by destruct m.
    + destruct (negb (isNum c) && validVariableNameChar c) eqn:Hv; [|done].
      apply andb_prop in Hv as [Hnum Hv]. unfold parseVariable in E.
      pose proof (variable_name_spec (String c r)) as Hspec. simpl in Hspec, E. rewrite Hv in Hspec, E.
      destruct (variable_name r) as [name rest'] eqn:Hvn. destruct Hspec as (Heq & Hname & Hstart).
      inv_result. simplify_eq. exists (Var (String c name) :: ts). split; [|done].
      rewrite Heq. constructor; [|by apply negb_true_iff|done|done]. unfold good_name. by rewrite Hname.
  - inv_result.
    destruct (IH (String.length r) ltac:(simpl; lia) r _ eq_refl E) as (ts & Hg & ->).
    exists (Lit c :: ts). by split; [constructor|].
Qed.

Lemma parseLine_complete f line ts :
  grammar line ts → parseLine line (λ s, Ok (f s)) = Ok (expand_tokens f ts).
Proof.
  induction 1 as [|c r ts Hc Hg IH|r ts Hg IH|name r ts Hname Hnum Hr Hg IH|name r ts Hname Hg IH].
  - done.
  - rewrite parseLine_cons, IH. destruct (Ascii.eqb_spec c "$"); [done|]. done.
  - rewrite parseLine_cons. cbn [parseInterpolationExpression].
    unfold mbind, result_bind. simpl. by rewrite IH.
  - rewrite parseLine_cons. simpl Ascii.eqb. cbv match.
    unfold good_name in Hname. apply andb_prop in Hname as [Hne Hname].
    destruct name as [|c name]; [done|]. simpl in Hname. apply andb_prop in Hname as [Hc Hname].
    assert (parseInterpolationExpression (String c name +:+ r) (λ s, Ok (f s)) =
            Ok (f (String c name), r)) as ->.
    { simpl. destruct (Ascii.eqb_spec c "$") as [->|_]; [by vm_compute in Hc|].
      destruct (Ascii.eqb_spec c "{") as [->|_]; [by vm_compute in Hc|].
      rewrite Hnum, Hc. simpl. unfold parseVariable. simpl. rewrite Hc.
      by rewrite variable_name_app. }
    unfold mbind, result_bind. cbn [fst snd]. by rewrite IH.
  - rewrite parseLine_cons. simpl Ascii.eqb. cbv match.
    unfold good_name in Hname. apply andb_prop in Hname as [Hne Hname].
    assert (parseInterpolationExpression (String "{" (name +:+ String "}" r)) (λ s, Ok (f s)) =
            Ok (f name, r)) as ->.
    { simpl. unfold parseVariableWithBraces. rewrite braces_name_app; [done|done|].
      by destruct name. }
    unfold mbind, result_bind. cbn [fst snd]. by rewrite IH.
Qed.

(** ** Properties *)

(** C15: [parseLine] accepts exactly the lines of the grammar (literal characters,
    [$$], [$name] with the longest name that does not start with a digit, and
    [${name}]) and its result is the line with a dollar for [$$] and the value of
    the variable for the other two; the hand-written scan of positions never
    runs over or loses a character. *)
Theorem parseLine_grammar f line out :
  parseLine line (λ s, Ok (f s)) = Ok out ↔
  ∃ ts, grammar line ts ∧ out = expand_tokens f ts.
Proof.
  split; [apply parseLine_sound|]. intros (ts & Hg & ->). by apply parseLine_complete.
Qed.

(** Text whose dollars are doubled comes out as it was, whatever the
    variables are. *)
Theorem parseLine_escaped s mapping : parseLine (Replace s "$" "$$") mapping = Ok s.
Proof.
  rewrite (Replace_char s "$" "$$"). induction s as [|c s IH]; [done|]. simpl.
  destruct (decide (c = "$"%char)) as [->|Hc].
  - rewrite parseLine_cons. cbn [parseInterpolationExpression]. unfold mbind, result_bind.
    simpl. by rewrite IH.
  - rewrite parseLine_cons. destruct (Ascii.eqb_spec c "$"); [done|].
    unfold mbind, result_bind. by rewrite IH.
Qed.

(** A value that ends in a single dollar after a well-formed text is no
    format error: reading the character after the dollar is out of range and the
    program panics. *)
Theorem parseLine_trailing_dollar f line ts :
  grammar line ts → is_panic (parseLine (line +:+ "$") (λ s, Ok (f s))) = true.
Proof.
  induction 1 as [|c r ts Hc Hg IH|r ts Hg IH|name r ts Hname Hnum Hr Hg IH|name r ts Hname Hg IH].
  - done.
  - simpl. rewrite parseLine_cons. destruct (Ascii.eqb_spec c "$"); [done|].
    unfold mbind, result_bind. by destruct (parseLine _ _).
  - simpl. rewrite parseLine_cons. cbn [parseInterpolationExpression].
    unfold mbind, result_bind. simpl. by destruct (parseLine _ _).
  - simpl. rewrite app_assoc_s, parseLine_cons. simpl Ascii.eqb. cbv match.
    unfold good_name in Hname. apply andb_prop in Hname as [Hne Hname].
    destruct name as [|c name]; [done|]. simpl in Hname. apply andb_prop in Hname as [Hc Hname].
    assert (parseInterpolationExpression (String c name +:+ r +:+ "$") (λ s, Ok (f s)) =
            Ok (f (String c name), r +:+ "$")) as ->.
    { simpl. destruct (Ascii.eqb_spec c "$") as [->|_]; [by vm_compute in Hc|].
      destruct (Ascii.eqb_spec c "{") as [->|_]; [by vm_compute in Hc|].
      rewrite Hnum, Hc. simpl. unfold parseVariable. simpl. rewrite Hc.
      rewrite variable_name_app; [done|done|]. by destruct r. }
    unfold mbind, result_bind. cbn [fst snd]. by destruct (parseLine _ _).
  - simpl. rewrite app_assoc_s, parseLine_cons. simpl Ascii.eqb. cbv match. simpl.
    unfold good_name in Hname. apply andb_prop in Hname as [Hne Hname].
    unfold parseVariableWithBraces. rewrite braces_name_app; [|done|by destruct name].
    unfold mbind, result_bind. simpl. by destruct (parseLine _ _).
Qed.

Lemma parseLine_trailing_dollar_witness :
  is_panic (parseLine "price: 5$" (λ s, Ok s)) = true.
Proof.
  apply (parseLine_trailing_dollar (λ s, s) "price: 5"
    (Lit <$> ["p"; "r"; "i"; "c"; "e"; ":"; " "; "5"]%char)).
  repeat (constructor; [discriminate|]). constructor.
Defined.

(** A variable of a service is looked up in the environment of the cloud
    config under the service's own name first, then under its plain name, and is
    blank otherwise; the lookup never panics. *)
Theorem lookup_variable_environment environment service name :
  good_name name = true → has_char "/" service = false →
  lookup_variable (ConfigEnvironment_Lookup environment) service name =
  Ok (match environment !! (service +:+ "/" +:+ name) with
      | Some v => v
      | None => default "" (environment !! name)
      end).
Proof.
  intros Hn Hs. unfold lookup_variable, ConfigEnvironment_Lookup. cbn [lookupKeys].
  assert (name ≠ "") as Hne by (by intros ->).
  rewrite <-(app_assoc_s service "/" name), (HasSuffix_char_app (service +:+ "/")) by done.
  rewrite HasSuffix_char_no by by apply name_no_char.
  rewrite (app_assoc_s service "/" name).
  destruct (environment !! (service +:+ "/" +:+ name)) as [v|];
    [|destruct (environment !! name) as [v|]; [|done]]; unfold appendEnv.
  - change ("/" +:+ name) with (String "/" name). rewrite SplitN2_pair by done.
    cbn [app]. by rewrite pair_value by by apply name_no_char.
  - rewrite SplitN2_single by by apply name_no_char.
    cbn [app]. by rewrite pair_value by by apply name_no_char.
Qed.

Lemma lookup_variable_environment_witness :
  let environment : gmap string string := {[ "ntp/SERVER" := "pool=1"; "SERVER" := "x" ]} in
  lookup_variable (ConfigEnvironment_Lookup environment) "ntp" "SERVER" = Ok "pool=1".
Proof.
  intros environment. rewrite (lookup_variable_environment environment "ntp" "SERVER");
    reflexivity.
Defined.
