(* ===== verification/ServiceMerge.v ===== *)
(** * Merging two services ([pkg/libcompose/config/merge.go], [utils.go])

    On values, without the sharing of lists and maps; [ServiceStore] has the files with their services in a store,
    and refers to these functions as what its merge means. *)

From stdpp Require Import prelude gmap strings list.
From S2P Require Import Prelude GoStrings RawTree Util Interpolation.

Local Open Scope string_scope.

Abbreviation service_map := (gmap string val).

Definition noMerge : list string := ["links"; "volumes_from"].

(** ** [utils.go] *)

Definition merge (existing value : val) : val :=
  match existing, value with
  | VList l, VList r => VList (l ++ r)
  | VMap l, VMap r => VMap (r ∪ l)
  | _, _ => value
  end.

Definition asString (obj : option val) : string :=
  match obj with Some (VScalar (SStr s)) => s | _ => "" end.

(** ** [merge.go] *)

(** The exclusion of image and build before the entry [k] is written. *)
Definition exclude (k : string) (baseService : service_map) : service_map :=
  if String.eqb k "image" then delete "build" baseService
  else if String.eqb k "build" then delete "image" baseService
  else baseService.

Definition merge_entry (baseService : service_map) (kv : string * val) : service_map :=
  let '(k, v) := kv in
  let baseService := exclude k baseService in
  match baseService !! k with
  | Some existing => <[k := merge existing v]> baseService
  | None => <[k := v]> baseService
  end.

(** [mergeConfig], for one of the orders of visiting [serviceData]. *)
Definition mergeConfig_in_order (baseService : service_map) (serviceData : list (string * val)) :
    service_map :=
  foldl merge_entry baseService serviceData.

Definition mergeConfig (baseService serviceData : service_map) : service_map :=
  mergeConfig_in_order baseService (map_to_list serviceData).

Definition IsValidRemote (remote : string) : bool :=
  existsb (HasPrefix remote) ["http://"; "https://"; "git://"; "github.com/"; "git@"].

(** The part of a line up to and with the first equals sign. *)
Definition env_key (line : string) : string :=
  match cut_char "=" line with Some (k, _) => k +:+ "=" | None => line end.

(** [adjustValues], on the restart policies. *)
Definition adjustValues (restarts : gmap string string) : gmap string string :=
  (λ r, if String.eqb r "false" then "no" else r) <$> restarts.

(** ** Lemmas *)

(** Image and build exclude each other. *)
Definition opposite (k0 k : string) : Prop :=
  k0 = "image" ∧ k = "build" ∨ k0 = "build" ∧ k = "image".

Global Instance opposite_dec k0 k : Decision (opposite k0 k).
Proof. unfold opposite. apply _. Defined.

Lemma lookup_exclude k0 base k :
  exclude k0 base !! k = if decide (opposite k0 k) then None else base !! k.
Proof.
  unfold exclude, opposite. destruct (String.eqb_spec k0 "image") as [->|H1].
  - destruct (decide (k = "build")) as [->|]; case_decide; try naive_solver.
    + by rewrite lookup_delete_eq.
    + by rewrite lookup_delete_ne.
  - destruct (String.eqb_spec k0 "build") as [->|H2]; [|case_decide; naive_solver].
    destruct (decide (k = "image")) as [->|]; case_decide; try naive_solver.
    + by rewrite lookup_delete_eq.
    + by rewrite lookup_delete_ne.
Qed.

Definition merge_into (base : option val) (v : val) : val :=
  match base with Some e => merge e v | None => v end.

Lemma lookup_merge_entry base k0 v0 k :
  merge_entry base (k0, v0) !! k =
  if decide (k = k0) then Some (merge_into (base !! k0) v0) else exclude k0 base !! k.
Proof.
  unfold merge_entry, merge_into. assert (exclude k0 base !! k0 = base !! k0) as ->.
  { rewrite lookup_exclude. rewrite decide_False; [done|]. unfold opposite. naive_solver. }
  destruct (decide (k = k0)) as [->|]; destruct (base !! k0);
    by rewrite ?lookup_insert_eq, ?lookup_insert_ne.
Qed.

Lemma lookup_mergeConfig_in_order (base : service_map) l k :
  NoDup l.*1 → ¬ ("image" ∈ l.*1 ∧ "build" ∈ l.*1) →
  mergeConfig_in_order base l !! k =
  match (list_to_map l : service_map) !! k with
  | Some v => Some (merge_into (base !! k) v)
  | None => if decide (Exists (λ k0, opposite k0 k) l.*1) then None else base !! k
  end.
Proof.
  revert base; induction l as [|[k0 v0] l IH]; intros base Hnd Hone.
  { cbn [list_to_map foldr fmap list_fmap]. rewrite lookup_empty.
    rewrite decide_False; [done|]. intros He. inversion He. }
  rewrite fmap_cons in *. cbn [fst] in *. apply NoDup_cons in Hnd as [Hk0 Hnd].
  assert (¬ ("image" ∈ l.*1 ∧ "build" ∈ l.*1)) as Hone' by set_solver.
  change (mergeConfig_in_order base ((k0, v0) :: l)) with (mergeConfig_in_order (merge_entry base (k0, v0)) l).
  rewrite (IH _ Hnd Hone'), lookup_merge_entry.
  change (list_to_map ((k0, v0) :: l) : service_map) with (<[k0 := v0]> (list_to_map l) : service_map).
  destruct (decide (k = k0)) as [->|Hk].
  - rewrite lookup_insert_eq, not_elem_of_list_to_map_1 by done.
    rewrite decide_False; [done|]. intros Hex. apply Exists_exists in Hex as (k1 & Hk1 & Hop).
    apply Hone. destruct Hop as [[-> ->]|[-> ->]]; set_solver.
  - rewrite lookup_insert_ne by done. rewrite lookup_exclude.
    destruct ((list_to_map l : service_map) !! k) as [v|] eqn:Hl.
    + rewrite decide_False; [done|]. intros Hop. apply Hone.
      assert (k ∈ l.*1) as Hin.
      { apply elem_of_list_to_map_2 in Hl. apply list_elem_of_fmap. by exists (k, v). }
      destruct Hop as [[-> ->]|[-> ->]]; set_solver.
    + destruct (decide (Exists _ l.*1)) as [Hex|Hex].
      * rewrite decide_True; [done|]. by right.
      * destruct (decide (opposite k0 k)) as [Hop|Hop].
        -- rewrite decide_True; [done|]. by left.
        -- rewrite decide_False; [done|]. intros Hex'. apply Exists_cons in Hex' as [?|?]; auto.
Qed.

(** ** Properties *)

(** C16: merging a service into its base, for a service that does not set both
    image and build, whatever the order of visiting its keys. A key it sets
    holds the service's own value; but where both have a list it holds the
    base's items and then the service's, and where both have a map it holds
    the entries of both, the service's where they clash. The other keys of the
    base are kept, but for image and build, one of which drops the other. *)
Theorem mergeConfig_lookup base serviceData order k :
  enumerates order serviceData →
  ¬ (is_Some (serviceData !! "image") ∧ is_Some (serviceData !! "build")) →
  let merged := mergeConfig_in_order base order !! k in
  match serviceData !! k, base !! k with
  | Some (VList service), Some (VList items) => merged = Some (VList (items ++ service))
  | Some (VMap service), Some (VMap entries) =>
      ∃ m, merged = Some (VMap m) ∧
           ∀ x, m !! x = match service !! x with Some y => Some y | None => entries !! x end
  | Some v, _ => merged = Some v
  | None, existing =>
      merged = if decide (k = "build" ∧ is_Some (serviceData !! "image") ∨
                          k = "image" ∧ is_Some (serviceData !! "build"))
               then None else existing
  end.
Proof.
  intros Hord Hone merged.
  assert (∀ k, k ∈ order.*1 ↔ is_Some (serviceData !! k)) as Hin.
  { intros k'. rewrite list_elem_of_fmap. split.
    - intros ([k'' v] & -> & Hv). apply (enumerates_elem _ _ _ _ Hord) in Hv. by exists v.
    - intros [v Hv]. exists (k', v). split; [done|]. by apply (enumerates_elem _ _ _ _ Hord). }
  assert (merged = match serviceData !! k with
                   | Some v => Some (merge_into (base !! k) v)
                   | None => if decide (Exists (λ k0, opposite k0 k) order.*1)
                             then None else base !! k
                   end) as ->.
  { subst merged. rewrite lookup_mergeConfig_in_order; [|by eapply enumerates_NoDup|by rewrite !Hin].
    by rewrite (enumerates_list_to_map _ _ Hord). }
  destruct (serviceData !! k) as [v|].
  { destruct v as [| |rm|], (base !! k) as [[| |lm|]|]; try done.
    exists (rm ∪ lm). split; [done|]. intros x. rewrite lookup_union.
    by destruct (rm !! x), (lm !! x). }
  apply decide_ext. rewrite Exists_exists. unfold opposite. split.
  - intros (k0 & Hk0 & [[-> ->]|[-> ->]]); apply Hin in Hk0; auto.
  - intros [[-> Hs]|[-> Hs]]; apply Hin in Hs; eauto.
Qed.

Definition example_base : service_map :=
  {[ "build" := VStr "."; "ports" := VList [VStr "80"]; "user" := VStr "root";
     "environment" := VMap {[ SStr "A" := VStr "1"; SStr "B" := VStr "2" ]} ]}.
Definition example_service : service_map :=
  {[ "image" := VStr "nginx"; "ports" := VList [VStr "443"]; "user" := VStr "www";
     "environment" := VMap {[ SStr "B" := VStr "3" ]} ]}.

Lemma mergeConfig_lookup_witness :
  let merged := mergeConfig example_base example_service in
  merged !! "ports" = Some (VList [VStr "80"; VStr "443"]) ∧
  merged !! "user" = Some (VStr "www") ∧
  merged !! "build" = None ∧
  ∃ m, merged !! "environment" = Some (VMap m) ∧
       m !! SStr "A" = Some (VStr "1") ∧ m !! SStr "B" = Some (VStr "3").
Proof.
  assert (¬ (is_Some (example_service !! "image") ∧ is_Some (example_service !! "build"))) as Hone.
  { intros [_ [v Hv]]. discriminate Hv. }
  intros merged.
  pose proof (λ k, mergeConfig_lookup example_base example_service _ k
                     (enumerates_map_to_list _) Hone) as Hk.
  split; [exact (Hk "ports")|]. split; [exact (Hk "user")|]. split.
  - refine (eq_trans (Hk "build") _). vm_compute. reflexivity.
  - destruct (Hk "environment") as (m & Hm & Hl). exists m. split; [exact Hm|].
    split; [exact (Hl (SStr "A"))|exact (Hl (SStr "B"))].
Defined.
