(* ===== verification/ServiceStore.v ===== *)
(** * Compose files and what their services share
    ([pkg/libcompose/config/merge_v1.go], [merge_v2.go], [merge.go])

    Services are maps and lists of Go: a service that extends another one shares the lists of its
    base, and what is changed in place is seen by every service that refers to it. The services
    therefore live in a store; a slice is an array with a length and a capacity. Looking up
    other files, YAML and the JSON schema are parameters, as is how far an array grows. *)

From stdpp Require Import prelude gmap strings list.
From S2P Require Import Prelude GoStrings RawTree Util Interpolation ServiceMerge.

Local Open Scope string_scope.

(** ** The store *)

Record slice := { s_array : nat; s_len : nat; s_cap : nat }.

Inductive gval :=
  | GScalar (s : scalar)
  | GSlice (s : slice)
  | GMap (m : nat).

(** Arrays, maps of any keys, and services; [h_next] is the next free place. *)
Record heap := {
  h_arrays : gmap nat (list gval);
  h_maps : gmap nat (gmap scalar gval);
  h_services : gmap nat (gmap string gval);
  h_next : nat;
}.

Definition empty_heap : heap := {| h_arrays := ∅; h_maps := ∅; h_services := ∅; h_next := 0 |}.

(** What changes the store; it stays changed when an error is returned. *)
Definition store (A : Type) : Type := heap → result A * heap.

#[export] Instance store_ret : MRet store := λ A a h, (Ok a, h).
#[export] Instance store_bind : MBind store := λ A B f m h,
  match m h with
  | (Ok a, h) => f a h
  | (Err e, h) => (Err e, h)
  | (Panic e, h) => (Panic e, h)
  end.

Definition lift {A} (r : result A) : store A := λ h, (r, h).
Definition gets {A} (f : heap → A) : store A := λ h, (Ok (f h), h).
Definition update (f : heap → heap) : store () := λ h, (Ok (), f h).

(** An error that is assigned to a variable. *)
Definition attempt {A} (m : store A) : store (result A) := λ h,
  match m h with
  | (Panic e, h) => (Panic e, h)
  | (r, h) => (Ok r, h)
  end.

Definition set_array (a : nat) (l : list gval) (h : heap) : heap :=
  {| h_arrays := <[a := l]> (h_arrays h); h_maps := h_maps h; h_services := h_services h; h_next := h_next h |}.
Definition set_map (r : nat) (m : gmap scalar gval) (h : heap) : heap :=
  {| h_arrays := h_arrays h; h_maps := <[r := m]> (h_maps h); h_services := h_services h; h_next := h_next h |}.
Definition set_service (r : nat) (m : gmap string gval) (h : heap) : heap :=
  {| h_arrays := h_arrays h; h_maps := h_maps h; h_services := <[r := m]> (h_services h); h_next := h_next h |}.
Definition fresh : store nat := λ h,
  (Ok (h_next h), {| h_arrays := h_arrays h; h_maps := h_maps h; h_services := h_services h; h_next := S (h_next h) |}).

Definition array (h : heap) (a : nat) : list gval := default [] (h_arrays h !! a).
Definition elements (h : heap) (s : slice) : list gval := take (s_len s) (array h (s_array s)).
Definition service (h : heap) (r : nat) : gmap string gval := default ∅ (h_services h !! r).
Definition map_of (h : heap) (r : nat) : gmap scalar gval := default ∅ (h_maps h !! r).

(** The value that is seen through a reference, down to a depth. *)
Fixpoint read_val (d : nat) (h : heap) (g : gval) : val :=
  match d with
  | O => VScalar SNil
  | S d =>
      match g with
      | GScalar s => VScalar s
      | GSlice s => VList (read_val d h <$> elements h s)
      | GMap r => VMap (read_val d h <$> map_of h r)
      end
  end.

Section Grow.
(** The capacity of an array that has to hold [n] elements when one of [cap] is too small, and of an
    array that was filled one by one. *)
Context (grow : nat → nat → nat) (filled : nat → nat).

Definition nil_value : gval := GScalar SNil.

Definition alloc_slice (cap : nat) (l : list gval) : store slice :=
  a ← fresh;
  _ ← update (set_array a (l ++ replicate (cap - length l) nil_value));
  mret {| s_array := a; s_len := length l; s_cap := cap |}.

(** [append]: into the array when there is room. *)
Definition append (s : slice) (l : list gval) : store slice :=
  let n := (s_len s + length l)%nat in
  if (n <=? s_cap s)%nat then
    old ← gets (λ h, array h (s_array s));
    _ ← update (set_array (s_array s) (take (s_len s) old ++ l ++ drop n old));
    mret {| s_array := s_array s; s_len := n; s_cap := s_cap s |}
  else
    old ← gets (λ h, elements h s);
    alloc_slice (grow (s_cap s) n) (old ++ l).

Definition alloc_map (m : gmap scalar gval) : store gval := r ← fresh; _ ← update (set_map r m); mret (GMap r).
Definition alloc_service (m : gmap string gval) : store nat := r ← fresh; _ ← update (set_service r m); mret r.

(** A document as the YAML library builds it; it builds no maps of strings. *)
Fixpoint alloc_val (v : val) : store gval :=
  match v with
  | VScalar s => mret (GScalar s)
  | VList l =>
      vs ← foldr (λ v acc, x ← alloc_val v; r ← acc; mret (x :: r)) (mret []) l;
      s ← alloc_slice (filled (length vs)) vs; mret (GSlice s)
  | VMap m =>
      m ← map_fold (λ k v acc, x ← alloc_val v; r ← acc; mret (<[k := x]> r)) (mret ∅) m;
      alloc_map m
  | VSMap _ => mret nil_value
  end.

Definition alloc_service_map (m : service_map) : store nat :=
  m ← map_fold (λ k v acc, x ← alloc_val v; r ← acc; mret (<[k := x]> r)) (mret ∅) m;
  alloc_service m.

(** The services of a file: the place of each. *)
Definition alloc_services (datas : gmap string service_map) : store (gmap string nat) :=
  map_fold (λ k m acc, x ← alloc_service_map m; r ← acc; mret (<[k := x]> r)) (mret ∅) datas.

(** ** Merging ([merge.go], [utils.go]) *)

Definition merge_ref (existing value : gval) : store gval :=
  match existing, value with
  | GSlice old, GSlice new =>
      l ← gets (λ h, elements h new); s ← append old l; mret (GSlice s)
  | GMap old, GMap new =>
      l ← gets (λ h, map_of h old); r ← gets (λ h, map_of h new); alloc_map (r ∪ l)
  | _, _ => mret value
  end.

(** The text of an entry. *)
Definition as_string (v : option gval) : string := match v with Some (GScalar (SStr s)) => s | _ => "" end.

Definition put (r : nat) (k : string) (v : gval) : store () := update (λ h, set_service r (<[k := v]> (service h r)) h).
Definition drop_key (r : nat) (k : string) : store () := update (λ h, set_service r (delete k (service h r)) h).

Definition merge_key (base : nat) (kv : string * gval) : store () :=
  let '(k, v) := kv in
  _ ← (if String.eqb k "image" then drop_key base "build"
       else if String.eqb k "build" then drop_key base "image" else mret ());
  existing ← gets (λ h, service h base !! k);
  match existing with
  | Some existing => v ← merge_ref existing v; put base k v
  | None => put base k v
  end.

Fixpoint each_store {A} (f : A → store ()) (l : list A) : store () :=
  match l with [] => mret () | x :: l => _ ← f x; each_store f l end.

(** The order in which the keys of a service are visited. *)
Context (range_keys : gmap string gval → list (string * gval)).

(** The base is changed in place. *)
Definition merge_config (base data : nat) : store nat :=
  kvs ← gets (λ h, range_keys (service h data));
  _ ← each_store (merge_key base) kvs;
  mret base.

(** A base that is nil is empty. *)
Definition clone (base : option nat) : store nat :=
  m ← gets (λ h, match base with Some r => service h r | None => ∅ end); alloc_service m.

(** ** Files with variables *)

Section Files.
Context (resourceLookup : option (string → string → result (string * string))).

Fixpoint has_variable (key : string) (vars : list gval) : result bool :=
  match vars with
  | [] => Ok false
  | GScalar (SStr v) :: vars => if HasPrefix v key then Ok true else has_variable key vars
  | _ => Panic "interface conversion: not a string"
  end.

Definition add_line (vars : slice) (text : string) : store slice :=
  let line := TrimSpace text in
  l ← gets (λ h, elements h vars);
  found ← lift (has_variable (env_key line) l);
  if found : bool then mret vars else append vars [GScalar (SStr line)].

Fixpoint add_lines (vars : slice) (ls : list string) : store slice :=
  match ls with [] => mret vars | l :: ls => vars ← add_line vars l; add_lines vars ls end.

Definition add_file (inFile : string) (vars : slice) (envFile : gval) : store slice :=
  match envFile, resourceLookup with
  | GScalar (SStr envFile), Some Lookup =>
      cr ← lift (Lookup envFile inFile);
      let '(ls, err) := scan_lines cr.1 in
      vars ← add_lines vars ls;
      match err with Some e => lift (Err e) | None => mret vars end
  | _, _ => lift (Panic "interface conversion: not a string")
  end.

Fixpoint add_files (inFile : string) (vars : slice) (files : list gval) : store slice :=
  match files with [] => mret vars | f :: files => vars ← add_file inFile vars f; add_files inFile vars files end.

Definition nil_slice : store slice := a ← fresh; mret {| s_array := a; s_len := 0; s_cap := 0 |}.

(** The files are read from the last to the first; the service is changed in place. *)
Definition readEnvFile (inFile : string) (r : nat) : store () :=
  data ← gets (λ h, service h r);
  match data !! "env_file" with
  | None => mret ()
  | Some (GSlice envFiles) =>
      if (s_len envFiles =? 0)%nat then mret ()
      else
        match resourceLookup with
        | None => lift (Err "Can not use env_file: no mechanism provided to load files")
        | Some _ =>
            vars ← match data !! "environment" with
                   | None => nil_slice
                   | Some (GSlice vars) => mret vars
                   | Some _ => lift (Panic "interface conversion: not a slice")
                   end;
            files ← gets (λ h, elements h envFiles);
            vars ← add_files inFile vars (reverse files);
            _ ← put r "environment" (GSlice vars);
            drop_key r "env_file"
        end
  | Some _ => lift (Panic "interface conversion: not a slice")
  end.

(** ** The directory of a build ([merge_v1.go], [merge_v2.go]) *)

Inductive version := V1 | V2.

(** Relative to the file; a remote one, and none, stay as they are. *)
Definition resolved (inFile context : string) : option string :=
  if String.eqb context "" then None
  else if IsValidRemote context then None
  else let current := Dir inFile in
       Some (if String.eqb context "." then current else path_Join [current; context]).

Definition resolveContextV1 (inFile : string) (r : nat) : store () :=
  data ← gets (λ h, service h r);
  match resolved inFile (as_string (data !! "build")) with
  | None => mret ()
  | Some current => put r "build" (GScalar (SStr current))
  end.

(** The map of the build is changed in place; a text is a failed assertion. *)
Definition resolveContextV2 (inFile : string) (r : nat) : store () :=
  data ← gets (λ h, service h r);
  match data !! "build" with
  | None => mret ()
  | Some (GMap build) =>
      m ← gets (λ h, map_of h build);
      match resolved inFile (as_string (m !! SStr "context")) with
      | None => mret ()
      | Some current => update (set_map build (<[SStr "context" := GScalar (SStr current)]> m))
      end
  | Some _ => lift (Panic "interface conversion: not a map")
  end.

Definition resolveContext (v : version) (inFile : string) (r : nat) : store () :=
  match v with V1 => resolveContextV1 inFile r | V2 => resolveContextV2 inFile r end.

(** ** Extending ([parseV1], [parseV2]) *)

(** The options, and the parsers of the files; what is done to a document before it is stored is
    done to a tree without any sharing. *)
Context (UnmarshalServices : version → string → option (gmap string service_map)).
Context (interpolate : bool) (environmentLookup : string → string → list string).
Context (Preprocess : option (gmap string service_map → result (gmap string service_map))).
Context (validate : option (gmap string service_map → option string)).
Context (validateServiceConstraints : service_map → option string).

Definition preprocess (raw : gmap string service_map) : result (gmap string service_map) :=
  match Preprocess with Some f => f raw | None => Ok raw end.
Definition validated (raw : gmap string service_map) : result (gmap string service_map) :=
  match validate with
  | Some v => match v raw with Some e => Err e | None => Ok raw end
  | None => Ok raw
  end.

(** The services of the file of a base; those of version 2 are neither preprocessed nor validated. *)
Definition base_services (v : version) (file inFile : string) : result (gmap string service_map * string) :=
  match resourceLookup with
  | None => Panic "nil pointer dereference"
  | Some Lookup =>
      br ← Lookup file inFile;
      match UnmarshalServices v br.1 with
      | None => Err "yaml"
      | Some raw =>
          raw ← (if interpolate then Interpolate environmentLookup raw else Ok raw);
          raw ← match v with V1 => (raw ← preprocess raw; validated raw) | V2 => Ok raw end;
          Ok (raw, br.2)
      end
  end.

(** The base of a service in another file: its error is assigned to the [err] of the inner block, and the
    base is nil. *)
Definition other_base (parse : string → nat → gmap string nat → store nat) (v : version) (file inFile name : string) :
    store (option nat) :=
  rs ← lift (base_services v file inFile);
  raw ← alloc_services rs.1;
  match raw !! name with
  | None => lift (Err "Failed to find service in file")
  | Some base =>
      x ← attempt (parse rs.2 base raw);
      mret (match x with Ok base => Some base | _ => None end)
  end.

Definition file_base (parse : string → nat → gmap string nat → store nat) (datas : gmap string nat) (inFile name : string) :
    store (option nat) :=
  match datas !! name with
  | Some base => r ← parse inFile base datas; mret (Some r)
  | None => lift (Err "Failed to find service to extend")
  end.

(** [parseV1] and [parseV2]; the fuel bounds the chain of [extends]. *)
Fixpoint parse (v : version) (fuel : nat) (inFile : string) (r : nat) (datas : gmap string nat) : store nat :=
  match fuel with
  | O => lift (Panic "out of fuel")
  | S fuel =>
      _ ← readEnvFile inFile r;
      _ ← resolveContext v inFile r;
      data ← gets (λ h, service h r);
      match data !! "extends" with
      | Some (GMap ext) =>
          match resourceLookup with
          | None => lift (Err "Can not use extends: no mechanism provided to files")
          | Some _ =>
              m ← gets (λ h, map_of h ext);
              let file := as_string (m !! SStr "file") in
              let name := as_string (m !! SStr "service") in
              if String.eqb name "" then mret r
              else
                base ← (if String.eqb file "" then file_base (parse v fuel) datas inFile name
                        else other_base (parse v fuel) v file inFile name);
                base ← clone base;
                b ← gets (λ h, service h base);
                match filter (λ k, is_Some (b !! k)) noMerge with
                | [] => merge_config base r
                | _ => lift (Err "Cannot extend service: services with links or volumes_from cannot be extended")
                end
          end
      | _ => mret r
      end
  end.

Definition parseV1 : nat → string → nat → gmap string nat → store nat := parse V1.
Definition parseV2 : nat → string → nat → gmap string nat → store nat := parse V2.

(** ** The files themselves ([MergeServicesV1], [MergeServicesV2]) *)

(** One turn of the loop: [existing] is the raw form of a service that the project already has. *)
Definition merge_one (v : version) (fuel : nat) (file : string) (existing : string → option (result service_map))
    (datas : gmap string nat) (name : string) : store (gmap string nat) :=
  match datas !! name with
  | None => mret datas
  | Some data =>
      data ← parse v fuel file data datas;
      data ← match existing name with
             | Some raw => raw ← lift raw; r ← alloc_service_map raw; merge_config r data
             | None => mret data
             end;
      mret (<[name := data]> datas)
  end.

Fixpoint merge_all (v : version) (fuel : nat) (file : string) (existing : string → option (result service_map))
    (order : list string) (datas : gmap string nat) : store (gmap string nat) :=
  match order with
  | [] => mret datas
  | name :: order => datas ← merge_one v fuel file existing datas name; merge_all v fuel file existing order datas
  end.

(** The services as they are seen in the end. *)
Definition read_services (depth : nat) (datas : gmap string nat) : store (gmap string service_map) :=
  gets (λ h, (λ r, read_val depth h <$> service h r) <$> datas).

Definition check_constraint (datas : gmap string service_map) (name : string) : result () :=
  match validateServiceConstraints (default ∅ (datas !! name)) with
  | Some e => Err e
  | None => Ok ()
  end.

(** [order] is the order in which the services are visited. *)
Definition merge_services (v : version) (fuel depth : nat) (file : string) (existing : string → option (result service_map))
    (order : list string) (datas : gmap string service_map) : result (gmap string service_map) :=
  ((merged ← alloc_services datas;
    merged ← merge_all v fuel file existing order merged;
    read_services depth merged) empty_heap).1.

Definition MergeServicesV1 (fuel depth : nat) (file bytes : string) (existing : string → option (result service_map))
    (order : list string) : result (gmap string service_map) :=
  match UnmarshalServices V1 bytes with
  | None => Err "yaml"
  | Some datas =>
      datas ← (if interpolate then Interpolate environmentLookup datas else Ok datas);
      datas ← preprocess datas;
      datas ← validated datas;
      datas ← merge_services V1 fuel depth file existing order datas;
      _ ← match validate with
          | Some _ => foldM (λ _ name, check_constraint datas name) () order
          | None => Ok ()
          end;
      Ok datas
  end.

Definition MergeServicesV2 (fuel depth : nat) (file bytes : string) (existing : string → option (result service_map))
    (order : list string) : result (gmap string service_map) :=
  match UnmarshalServices V2 bytes with
  | None => Err "yaml"
  | Some datas =>
      datas ← (if interpolate then Interpolate environmentLookup datas else Ok datas);
      datas ← preprocess datas;
      merge_services V2 fuel depth file existing order datas
  end.
End Files.
End Grow.

(** ** The store and the functions on values *)

(** A reference is good when what it refers to is there and holds no further references. *)
Definition is_scalar (g : gval) : Prop := match g with GScalar _ => True | _ => False end.

Definition good (h : heap) (g : gval) : Prop :=
  match g with
  | GScalar _ => True
  | GSlice s =>
      (s_len s ≤ s_cap s)%nat ∧ length (array h (s_array s)) = s_cap s ∧ (s_array s < h_next h)%nat ∧
      Forall is_scalar (elements h s)
  | GMap r => (r < h_next h)%nat ∧ map_Forall (λ _, is_scalar) (map_of h r)
  end.

(** The array that a value occupies. *)
Definition arr (g : gval) : option nat := match g with GSlice s => Some (s_array s) | _ => None end.

(** What is seen of a good value. *)
Definition seen (h : heap) (g : gval) : val := read_val 2 h g.

(** A change of the store that concerns one array at most. *)
Definition changes (a : option nat) (h h' : heap) : Prop :=
  (h_next h ≤ h_next h')%nat ∧ h_services h' = h_services h ∧
  ∀ g, good h g → (arr g = None ∨ arr g ≠ a) → good h' g ∧ seen h' g = seen h g.

Lemma read_scalar d h g : is_scalar g → read_val (S d) h g = match g with GScalar s => VScalar s | _ => VScalar SNil end.
Proof. by destruct g. Qed.

Lemma read_scalars d h h' l : Forall is_scalar l → read_val (S d) h <$> l = read_val (S d) h' <$> l.
Proof. induction 1 as [|g l Hg _ IH]; [done|]. rewrite !fmap_cons, IH. f_equal. by rewrite !read_scalar. Qed.

Lemma seen_slice h h' s s' :
  elements h' s' = elements h s → Forall is_scalar (elements h s) → seen h' (GSlice s') = seen h (GSlice s).
Proof. intros E Hs. change (VList (read_val 1 h' <$> elements h' s') = VList (read_val 1 h <$> elements h s)).
  rewrite E. f_equal. by apply read_scalars. Qed.

Lemma seen_map h h' r r' :
  map_of h' r' = map_of h r → map_Forall (λ _, is_scalar) (map_of h r) → seen h' (GMap r') = seen h (GMap r).
Proof.
  intros E Hs. change (VMap (read_val 1 h' <$> map_of h' r') = VMap (read_val 1 h <$> map_of h r)).
  rewrite E. f_equal. apply map_fmap_ext. intros k g Hk. specialize (Hs k g Hk).
  by destruct g.
Qed.

Section Refines.
Context (grow : nat → nat → nat) (grow_enough : ∀ cap n, (n ≤ grow cap n)%nat).

Lemma changes_refl h : changes None h h.
Proof using Type. by split. Qed.

Lemma alloc_slice_reads cap l h :
  (length l ≤ cap)%nat → Forall is_scalar l →
  ∃ s h', alloc_slice cap l h = (Ok s, h') ∧ good h' (GSlice s) ∧ elements h' s = l ∧ s_array s = h_next h ∧
    changes None h h'.
Proof using Type.
  intros Hc Hl. eexists {| s_array := h_next h; s_len := length l; s_cap := cap |}, _. split; [reflexivity|].
  unfold good, elements, array. cbn. rewrite lookup_insert_eq. cbn.
  rewrite length_app, length_replicate, take_app_length. split_and!; try done; try lia.
  unfold changes. cbn. split_and!; [lia|done|]. intros [s|s|r]; cbn; try done.
  - intros (H1 & H2 & H3 & H4) _.
    assert (elements (set_array (h_next h) (l ++ replicate (cap - length l) nil_value)
      {| h_arrays := h_arrays h; h_maps := h_maps h; h_services := h_services h; h_next := S (h_next h) |}) s = elements h s) as E.
    { unfold elements, array. cbn. by rewrite lookup_insert_ne by lia. }
    split; [|by apply seen_slice]. unfold elements, array in *. cbn in *. rewrite lookup_insert_ne in * by lia.
    split_and!; [done|done|lia|done].
  - intros [H1 H2] _. split; [|by apply seen_map]. split; [lia|done].
Qed.

Lemma append_reads s l h :
  good h (GSlice s) → Forall is_scalar l →
  ∃ s' h', append grow s l h = (Ok s', h') ∧ good h' (GSlice s') ∧ elements h' s' = (elements h s ++ l)%list ∧
    (s_array s' = s_array s ∨ s_array s' = h_next h) ∧ changes (Some (s_array s)) h h'.
Proof using grow_enough.
  intros (H1 & H2 & H3 & H4) Hl. unfold append. destruct (Nat.leb_spec (s_len s + length l) (s_cap s)) as [Hc|Hc].
  - eexists {| s_array := s_array s; s_len := s_len s + length l; s_cap := s_cap s |}, _. split; [reflexivity|].
    set (old := array h (s_array s)) in *. unfold good, elements, array. cbn. rewrite lookup_insert_eq. cbn.
    fold (array h (s_array s)). fold old.
    assert (take (s_len s + length l) (take (s_len s) old ++ l ++ drop (s_len s + length l) old) = (take (s_len s) old ++ l)%list) as E.
    { rewrite app_assoc, take_app_length'; [done|]. rewrite length_app, length_take. lia. }
    rewrite !E. split_and!; try done.
    + rewrite !length_app, length_take, length_drop. lia.
    + by apply Forall_app.
    + by left.
    + unfold changes. cbn. split_and!; [lia|done|]. intros [t|t|r]; cbn; [done| |].
      * intros (G1 & G2 & G3 & G4) [?|Hne]; [done|]. assert (s_array t ≠ s_array s) by congruence.
        assert (elements (set_array (s_array s) (take (s_len s) old ++ l ++ drop (s_len s + length l) old) h) t = elements h t) as Et.
        { unfold elements, array. cbn. by rewrite lookup_insert_ne. }
        split; [|by apply seen_slice]. unfold elements, array in *. cbn in *. rewrite lookup_insert_ne in * by done. done.
      * intros [G1 G2] _. split; [done|by apply seen_map].
  - unfold mbind, store_bind, gets. edestruct (alloc_slice_reads (grow (s_cap s) (s_len s + length l)) (elements h s ++ l) h)
      as (s' & h' & -> & Hg & He & Ha & Hn & Hs & Hch).
    + rewrite length_app. unfold elements. rewrite length_take. specialize (grow_enough (s_cap s) (s_len s + length l)). lia.
    + by apply Forall_app.
    + exists s', h'. split_and!; try done; [by right|]. split_and!; [done|done|]. intros g Hgood _. by apply Hch; [|destruct g; auto].
Qed.

Lemma changes_trans a h1 h2 h3 : changes a h1 h2 → changes None h2 h3 → changes a h1 h3.
Proof using Type.
  intros (H1 & H2 & H3) (H4 & H5 & H6). split_and!; [lia|congruence|]. intros g Hg Ha.
  destruct (H3 g Hg Ha) as [Hg' E]. destruct (H6 g Hg') as [? E'].
  { destruct (arr g); [by right|by left]. }
  split; [done|]. by rewrite E'.
Qed.

Lemma alloc_map_reads m h :
  map_Forall (λ _, is_scalar) m →
  ∃ h', alloc_map m h = (Ok (GMap (h_next h)), h') ∧ good h' (GMap (h_next h)) ∧ map_of h' (h_next h) = m ∧ changes None h h'.
Proof using Type.
  intros Hm. eexists. split; [reflexivity|].
  assert (map_of (set_map (h_next h) m {| h_arrays := h_arrays h; h_maps := h_maps h; h_services := h_services h;
            h_next := S (h_next h) |}) (h_next h) = m) as E by (unfold map_of; cbn; by rewrite lookup_insert_eq).
  split; [split; [cbn; lia|by rewrite E]|]. split; [exact E|].
  unfold changes. cbn. split_and!; [lia|done|]. intros [s|s|r]; cbn; [done| |].
  - intros (H1 & H2 & H3 & H4) _. split; [split_and!; [done|done|lia|done]|by apply seen_slice].
  - intros [H1 H2] _. assert (map_of (set_map (h_next h) m {| h_arrays := h_arrays h; h_maps := h_maps h;
      h_services := h_services h; h_next := S (h_next h) |}) r = map_of h r) as Er.
    { unfold map_of. cbn. by rewrite lookup_insert_ne by lia. }
    split; [|by apply seen_map]. split; [lia|]. unfold map_of in *. cbn in *. by rewrite Er.
Qed.

(** Merging two good values is [ServiceMerge.merge] of what is seen of them; the result is in the array of the
    old value, in a new one, or the new value itself, and nothing else is changed. *)
Lemma merge_ref_reads old new h :
  good h old → good h new →
  ∃ g h', merge_ref grow old new h = (Ok g, h') ∧ good h' g ∧ seen h' g = merge (seen h old) (seen h new) ∧
    (arr g = None ∨ arr g = arr old ∨ arr g = arr new ∨ arr g = Some (h_next h)) ∧ changes (arr old) h h'.
Proof using grow_enough.
  intros Ho Hn.
  assert (∀ old, ∃ g h', mret (M := store) new h = (Ok g, h') ∧ good h' g ∧ seen h' g = seen h new ∧
    (arr g = None ∨ arr g = arr old ∨ arr g = arr new ∨ arr g = Some (h_next h)) ∧ changes (arr old) h h') as Hval.
  { intros o. exists new, h. split; [done|]. split; [done|]. split; [done|]. split; [auto|]. by split_and!. }
  destruct old as [s|s|r]; [apply (Hval (GScalar s))| |].
  - destruct new as [t|t|q]; [apply (Hval (GSlice s))| |apply (Hval (GSlice s))].
    destruct Hn as (N1 & N2 & N3 & N4). unfold merge_ref, mbind, store_bind, gets.
    destruct (append_reads s (elements h t) h Ho N4) as (s' & h' & -> & Hg & He & Ha & Hch).
    exists (GSlice s'), h'. split_and!; [done|done| |cbn; destruct Ha as [-> | ->]; auto|done].
    change (VList (read_val 1 h' <$> elements h' s') =
            VList ((read_val 1 h <$> elements h s) ++ (read_val 1 h <$> elements h t))).
    rewrite He, fmap_app. destruct Ho as (_ & _ & _ & O4). f_equal. by f_equal; apply read_scalars.
  - destruct new as [t|t|q]; [apply (Hval (GMap r))|apply (Hval (GMap r))|].
    destruct Ho as [O1 O2], Hn as [N1 N2]. unfold merge_ref, mbind, store_bind, gets.
    destruct (alloc_map_reads (map_of h q ∪ map_of h r) h) as (h' & -> & Hg & He & Hch).
    { intros k g [Hk|[_ Hk]]%lookup_union_Some_raw; eauto. }
    exists (GMap (h_next h)), h'. split_and!; [done|done| |by left|done].
    change (VMap (read_val 1 h' <$> map_of h' (h_next h)) =
            VMap ((read_val 1 h <$> map_of h q) ∪ (read_val 1 h <$> map_of h r))).
    rewrite He, <- map_fmap_union. f_equal. apply map_fmap_ext.
    intros k g [Hk|[_ Hk]]%lookup_union_Some_raw; [specialize (N2 k g Hk)|specialize (O2 k g Hk)]; by destruct g.
Qed.

(** ** Merging whole services *)

(** Two values do not share an array. *)
Definition apart (g1 g2 : gval) : Prop := arr g1 = None ∨ arr g1 ≠ arr g2.

Fixpoint all_apart (kvs : list (string * gval)) : Prop :=
  match kvs with
  | [] => True
  | kv :: kvs => Forall (λ kv', apart kv.2 kv'.2) kvs ∧ all_apart kvs
  end.

(** The entries of a base and those that are still to be merged into it share nothing. *)
Record separate (h : heap) (b : gmap string gval) (kvs : list (string * gval)) : Prop := {
  sep_base : map_Forall (λ _, good h) b;
  sep_data : Forall (λ kv, good h kv.2) kvs;
  sep_entries : ∀ k1 k2 g1 g2, k1 ≠ k2 → b !! k1 = Some g1 → b !! k2 = Some g2 → apart g1 g2;
  sep_new : ∀ k g, b !! k = Some g → Forall (λ kv, apart g kv.2) kvs;
  sep_apart : all_apart kvs;
}.

Definition seen_service (h : heap) (r : nat) : service_map := seen h <$> service h r.

Lemma apart_sym g1 g2 : apart g1 g2 → apart g2 g1.
Proof using Type. intros [H|H]; [|by right]. destruct (arr g2) eqn:E; [|by left]. right. congruence. Qed.

Lemma apart_fresh h g1 g2 : good h g2 → arr g1 = Some (h_next h) → apart g1 g2.
Proof using Type.
  intros Hg E. right. rewrite E. destruct g2 as [s|s|r]; cbn; [done| |done]. destruct Hg as (_ & _ & Hlt & _). intros [= E']. lia.
Qed.

(** The value that is stored under a key: merged with the old one, if there is one. *)
Lemma merge_option_reads o v h :
  (∀ e, o = Some e → good h e) → good h v →
  ∃ g h', match o with Some e => merge_ref grow e v h | None => (Ok v, h) end = (Ok g, h') ∧
    good h' g ∧ seen h' g = merge_into (seen h <$> o) (seen h v) ∧
    (∀ g', good h g' → (∀ e, o = Some e → apart e g') → good h' g' ∧ seen h' g' = seen h g') ∧
    (∀ g', good h g' → (∀ e, o = Some e → apart e g') → apart v g' → apart g g') ∧
    h_services h' = h_services h.
Proof using grow_enough.
  intros Ho Hv. destruct o as [e|].
  - destruct (merge_ref_reads e v h (Ho e eq_refl) Hv) as (g & h' & E & Hg & Hs & Ha & Hn & Hsv & Hf).
    exists g, h'. split; [done|]. split; [done|]. split; [done|]. split; [|split; [|done]].
    + intros g' Hg' Hap. apply Hf; [done|]. destruct (apart_sym _ _ (Hap e eq_refl)); auto.
    + intros g' Hg' Hap Hvg. specialize (Hap e eq_refl).
      destruct Ha as [Ha|[Ha|[Ha|Ha]]]; [by left| | |by eapply apart_fresh].
      * destruct Hap as [Hap|Hap]; [left|right]; congruence.
      * destruct Hvg as [Hvg|Hvg]; [left|right]; congruence.
  - exists v, h. split; [done|]. split; [done|]. split; [done|]. by split; [|split].
Qed.

Definition exclude_key (k : string) (b : gmap string gval) : gmap string gval :=
  if String.eqb k "image" then delete "build" b else if String.eqb k "build" then delete "image" b else b.

Lemma exclude_key_seen h k b : seen h <$> exclude_key k b = exclude k (seen h <$> b).
Proof using Type. unfold exclude_key, exclude. destruct (String.eqb k "image"), (String.eqb k "build"); by rewrite ?fmap_delete. Qed.

Lemma exclude_key_subseteq k b : exclude_key k b ⊆ b.
Proof using Type. unfold exclude_key. repeat case_match; [apply delete_subseteq..|done]. Qed.

Lemma exclude_key_own k b : exclude_key k b !! k = b !! k.
Proof using Type.
  unfold exclude_key. destruct (String.eqb_spec k "image") as [->|]; [by rewrite lookup_delete_ne|].
  destruct (String.eqb_spec k "build") as [->|]; [by rewrite lookup_delete_ne|done].
Qed.

Lemma separate_subseteq h b b' kvs : b' ⊆ b → separate h b kvs → separate h b' kvs.
Proof using Type.
  intros Hsub [S1 S2 S3 S4 S5]. split; [|done| | |done].
  - intros k g Hk. eapply S1, lookup_weaken; eauto.
  - intros k1 k2 g1 g2 Hne H1 H2. eapply S3; [exact Hne|by eapply lookup_weaken..].
  - intros k g Hk. eapply S4, lookup_weaken; eauto.
Qed.

(** The services of the store play no part in what a value is. *)
Lemma seen_set_service h r m g : seen (set_service r m h) g = seen h g ∧ (good (set_service r m h) g ↔ good h g).
Proof using Type. split; [done|]. by destruct g. Qed.

Lemma merge_key_reads base k v kvs h :
  separate h (service h base) ((k, v) :: kvs) →
  ∃ h', merge_key grow base (k, v) h = (Ok (), h') ∧ separate h' (service h' base) kvs ∧
    seen_service h' base = merge_entry (seen_service h base) (k, seen h v) ∧
    (∀ r, r ≠ base → service h' r = service h r) ∧ Forall (λ kv, seen h' kv.2 = seen h kv.2) kvs.
Proof using grow_enough.
  intros Hsep. set (b := exclude_key k (service h base)).
  set (h0 := if String.eqb k "image" || String.eqb k "build" then set_service base b h else h).
  assert ((if String.eqb k "image" then drop_key base "build"
           else if String.eqb k "build" then drop_key base "image" else mret ()) h = (Ok (), h0)) as Hdrop.
  { unfold h0, b, exclude_key. by destruct (String.eqb k "image"), (String.eqb k "build"). }
  assert (service h0 base = b) as Hb.
  { unfold h0, b, exclude_key, service. destruct (String.eqb k "image"), (String.eqb k "build"); cbn;
      rewrite ?lookup_insert_eq; done. }
  assert (∀ r, r ≠ base → service h0 r = service h r) as Hother.
  { intros r Hr. unfold h0, service. destruct (_ || _); [|done]. cbn. by rewrite lookup_insert_ne. }
  assert (∀ g, seen h0 g = seen h g ∧ (good h0 g ↔ good h g)) as Hseen.
  { intros g. unfold h0. destruct (_ || _); [apply seen_set_service|done]. }
  assert (separate h b ((k, v) :: kvs)) as [S1 S2 S3 S4 S5] by (eapply separate_subseteq; [apply exclude_key_subseteq|exact Hsep]).
  apply Forall_cons in S2 as [Hv S2]. destruct S5 as [S5 S6]. cbn [fst snd] in *.
  destruct (merge_option_reads (b !! k) v h0) as (g & h1 & E & Hg & Hs & Hframe & Hapart & Hsv).
  { intros e He. apply Hseen. by eapply S1. }
  { by apply Hseen. }
  exists (set_service base (<[k := g]> b) h1).
  assert (service h1 base = b) as Hb1 by (unfold service; by rewrite Hsv).
  assert (merge_key grow base (k, v) h = (Ok (), set_service base (<[k := g]> b) h1)) as Hrun.
  { cbn [merge_key]. unfold mbind at 1, store_bind at 1. rewrite Hdrop. unfold mbind at 1, store_bind at 1, gets. rewrite Hb.
    destruct (b !! k) as [e|].
    - unfold mbind, store_bind. rewrite E. unfold put, update. by rewrite Hb1.
    - injection E as <- <-. unfold put, update. by rewrite Hb. }
  assert (∀ k' g', b !! k' = Some g' → k' ≠ k → good h1 g' ∧ seen h1 g' = seen h0 g') as Hbase.
  { intros k' g' Hk' Hne. apply Hframe; [apply Hseen; by eapply S1|]. intros e He. by eapply S3; [|exact He|exact Hk']. }
  assert (Forall (λ kv, good h1 kv.2 ∧ seen h1 kv.2 = seen h0 kv.2) kvs) as Hdata.
  { apply Forall_forall. intros kv Hkv. apply Hframe; [apply Hseen; by eapply Forall_forall in S2|]. intros e He.
    specialize (S4 k e He). apply Forall_cons in S4 as [_ S4]. by eapply Forall_forall in S4. }
  split; [exact Hrun|]. split; [|split; [|split]].
  - assert (service (set_service base (<[k := g]> b) h1) base = <[k := g]> b) as Hbn.
    { unfold service. cbn. by rewrite lookup_insert_eq. }
    rewrite Hbn. split; [| | | |exact S6].
    + intros k' g' [[<- <-]|[Hne Hk']]%lookup_insert_Some; apply seen_set_service; [done|]. by eapply Hbase.
    + eapply Forall_impl; [exact Hdata|]. intros kv [Hkv _]. by apply seen_set_service.
    + intros k1 k2 g1 g2 Hne [[<- <-]|[N1 H1]]%lookup_insert_Some [[<- <-]|[N2 H2]]%lookup_insert_Some; [done| | |by eapply (S3 k1 k2)].
      * apply Hapart; [apply Hseen; by eapply S1|intros e He; by eapply S3; [|exact He|exact H2]|].
        specialize (S4 _ _ H2). apply Forall_cons in S4 as [S4 _]. by apply apart_sym.
      * apply apart_sym, Hapart; [apply Hseen; by eapply S1|intros e He; by eapply S3; [|exact He|exact H1]|].
        specialize (S4 _ _ H1). apply Forall_cons in S4 as [S4 _]. by apply apart_sym.
    + intros k' g' [[<- <-]|[Hne Hk']]%lookup_insert_Some.
      * apply Forall_forall. intros kv Hkv. apply Hapart; [apply Hseen; by eapply Forall_forall in S2| |by eapply Forall_forall in S5].
        intros e He. specialize (S4 k e He). apply Forall_cons in S4 as [_ S4]. by eapply Forall_forall in S4.
      * specialize (S4 _ _ Hk'). by apply Forall_cons in S4 as [_ S4].
  - unfold seen_service at 1. unfold service at 1. cbn [set_service h_services]. rewrite lookup_insert_eq. cbn [default from_option id].
    apply map_eq. intros k'. rewrite lookup_merge_entry. unfold seen_service at 2. rewrite <- exclude_key_seen. fold b.
    rewrite lookup_fmap. destruct (decide (k' = k)) as [->|Hne].
    + rewrite lookup_insert_eq. cbn. f_equal. transitivity (seen h1 g); [done|]. rewrite Hs.
      unfold seen_service. rewrite lookup_fmap, <- (exclude_key_own k (service h base)). fold b.
      destruct (Hseen v) as [-> _]. destruct (b !! k) as [e|]; [|done]. unfold fmap, option_fmap, option_map. by destruct (Hseen e) as [-> _].
    + rewrite lookup_insert_ne, lookup_fmap by done. destruct (b !! k') as [g'|] eqn:Hk'; [|done]. cbn. f_equal.
      transitivity (seen h1 g'); [done|]. destruct (Hbase k' g' Hk' Hne) as [_ ->]. apply Hseen.
  - intros r Hr. unfold service at 1. cbn. rewrite lookup_insert_ne by done. rewrite Hsv. by apply Hother.
  - eapply Forall_impl; [exact Hdata|]. intros kv [_ Hkv]. transitivity (seen h1 kv.2); [done|]. rewrite Hkv. apply Hseen.
Qed.

Lemma merge_keys_reads base kvs h :
  separate h (service h base) kvs →
  ∃ h', each_store (merge_key grow base) kvs h = (Ok (), h') ∧
    seen_service h' base = mergeConfig_in_order (seen_service h base) ((λ kv, (kv.1, seen h kv.2)) <$> kvs) ∧
    (∀ r, r ≠ base → service h' r = service h r).
Proof using grow_enough.
  revert h. induction kvs as [|[k v] kvs IH]; intros h Hsep; [by exists h|].
  destruct (merge_key_reads base k v kvs h Hsep) as (h1 & E1 & Hsep1 & Hs1 & Ho1 & Hkvs).
  destruct (IH h1 Hsep1) as (h2 & E2 & Hs2 & Ho2). exists h2. split; [|split].
  - cbn [each_store]. unfold mbind, store_bind. by rewrite E1.
  - rewrite Hs2, Hs1. unfold mergeConfig_in_order. rewrite fmap_cons. cbn [foldl fst snd]. f_equal.
    apply list_fmap_ext. intros i kv Hkv. apply list_elem_of_lookup_2 in Hkv.
    rewrite Forall_forall in Hkvs. by rewrite (Hkvs kv Hkv).
  - intros r Hr. rewrite Ho2, Ho1; done.
Qed.
End Refines.

(** C17: merging a service into another one in the store, where the lists and maps of Go are shared and changed
    in place, ends without an error in a base that reads as [ServiceMerge.mergeConfig_in_order] of what was read
    of the two, whatever the growth of the arrays and the order of the keys, and no other service gets other
    entries; this needs that no two of the lists involved are in one array. *)
Theorem merge_config_reads grow range_keys base data h :
  (∀ cap n, (n ≤ grow cap n)%nat) →
  separate h (service h base) (range_keys (service h data)) →
  ∃ h', merge_config grow range_keys base data h = (Ok base, h') ∧
    seen_service h' base = mergeConfig_in_order (seen_service h base)
                             ((λ kv, (kv.1, seen h kv.2)) <$> range_keys (service h data)) ∧
    (∀ r, r ≠ base → service h' r = service h r).
Proof.
  intros Hgrow Hsep. destruct (merge_keys_reads grow Hgrow base _ h Hsep) as (h' & E & Hs & Ho).
  exists h'. split; [|done]. unfold merge_config, mbind, store_bind, gets. by rewrite E.
Qed.

(** Go doubles small arrays. *)
Definition doubling (cap n : nat) : nat := Nat.max n (2 * cap).

Definition strings_array (l : list string) : list gval := (λ s, GScalar (SStr s)) <$> l.

(** Two services: a base with three lists' elements in an array of four, and one that adds an element. *)
Definition two_services : heap := {|
  h_arrays := {[ 0%nat := strings_array ["80"; "81"; "82"; ""]; 1%nat := strings_array ["443"] ]};
  h_maps := ∅;
  h_services := {[ 2%nat := {[ "ports" := GSlice {| s_array := 0; s_len := 3; s_cap := 4 |} ]};
                   3%nat := {[ "ports" := GSlice {| s_array := 1; s_len := 1; s_cap := 1 |} ]} ]};
  h_next := 4;
|}.

Lemma merge_config_reads_witness :
  (∀ cap n, (n ≤ doubling cap n)%nat) ∧
  separate two_services (service two_services 2) (map_to_list (service two_services 3)) ∧
  ∃ h', merge_config doubling map_to_list 2 3 two_services = (Ok 2%nat, h') ∧
    seen_service h' 2 = mergeConfig_in_order (seen_service two_services 2)
                             ((λ kv, (kv.1, seen two_services kv.2)) <$> map_to_list (service two_services 3)) ∧
    (∀ r, r ≠ 2%nat → service h' r = service two_services r).
Proof.
  assert (∀ cap n, (n ≤ doubling cap n)%nat) as Hg by (unfold doubling; lia).
  assert (separate two_services (service two_services 2) (map_to_list (service two_services 3))) as Hsep.
  { change (service two_services 2) with ({[ "ports" := GSlice {| s_array := 0; s_len := 3; s_cap := 4 |} ]} : gmap string gval).
    change (map_to_list (service two_services 3)) with [("ports", GSlice {| s_array := 1; s_len := 1; s_cap := 1 |})].
    split.
    - intros k g [<- <-]%lookup_singleton_Some. vm_compute. repeat constructor.
    - constructor; [|constructor]. vm_compute. repeat constructor.
    - intros k1 k2 g1 g2 Hne [<- <-]%lookup_singleton_Some [<- <-]%lookup_singleton_Some. done.
    - intros k g [<- <-]%lookup_singleton_Some. constructor; [right; discriminate|constructor].
    - split; constructor. }
  split; [exact Hg|]. split; [exact Hsep|].
  exact (merge_config_reads doubling map_to_list 2 3 two_services Hg Hsep).
Defined.

(** ** What sharing does *)

(** Two appends to one slice that has room write to the same place: what the first one added reads as what the
    second one did. *)
Lemma append_clobbers grow s x y h s1 h1 s2 h2 :
  good h (GSlice s) → (s_len s < s_cap s)%nat →
  append grow s [x] h = (Ok s1, h1) → append grow s [y] h1 = (Ok s2, h2) →
  elements h1 s1 = (elements h s ++ [x])%list ∧ elements h2 s1 = (elements h s ++ [y])%list ∧ s1 = s2.
Proof.
  intros (H1 & H2 & H3 & H4) Hroom. unfold append, mbind, store_bind, gets, update.
  cbn [length]. destruct (Nat.leb_spec (s_len s + 1) (s_cap s)) as [_|?]; [|lia].
  set (old := array h (s_array s)) in *.
  assert (∀ h0 z, array h0 (s_array s) = old ∨ (∃ z', array h0 (s_array s) = (take (s_len s) old ++ [z'] ++ drop (s_len s + 1) old)%list) →
    elements (set_array (s_array s) (take (s_len s) (array h0 (s_array s)) ++ [z] ++ drop (s_len s + 1) (array h0 (s_array s))) h0)
      {| s_array := s_array s; s_len := s_len s + 1; s_cap := s_cap s |} = (elements h s ++ [z])%list) as Hel.
  { intros h0 z H. unfold elements at 1, array at 1. cbn. rewrite lookup_insert_eq. cbn.
    unfold elements. fold old.
    assert (take (s_len s) (array h0 (s_array s)) = take (s_len s) old) as ->.
    { destruct H as [-> | [z' ->]]; [done|]. rewrite take_app_length'; [done|]. rewrite length_take. lia. }
    rewrite (cons_middle z), app_assoc, take_app_length'; [done|]. rewrite length_app, length_take. cbn. lia. }
  intros [= <- <-]. cbn [s_len s_cap s_array]. destruct (Nat.leb_spec (s_len s + 1) (s_cap s)) as [_|?]; [|lia].
  intros [= <- <-].  split; [by apply Hel; left|]. split; [|done].
  apply Hel. right. exists x. unfold array. cbn. by rewrite lookup_insert_eq.
Qed.

Definition texts (l : list string) : val := VList ((λ s, VStr s) <$> l).

Definition extending (s : string) (ports : list string) : service_map :=
  {[ "extends" := VMap {[ SStr "service" := VStr s ]}; "ports" := texts ports ]}.

Definition next_power (n : nat) : nat := 2 ^ Nat.log2_up n.

Definition merged_file (v : version) (file : string) (order : list string) (datas : gmap string service_map) :
    result (gmap string service_map) :=
  merge_services doubling next_power map_to_list (Some (λ _ _, Err "none")) (λ _ _, None) false (λ _ _, []) None None
    v 4 3 file (λ _, None) order datas.

Definition shared_base : gmap string service_map :=
  {[ "base" := {[ "ports" := texts ["80"; "81"; "82"] ]};
     "a" := extending "base" ["1"]; "b" := extending "base" ["2"] ]}.

Definition ports_in (r : result (gmap string service_map)) (name : string) : option val :=
  match r with Ok datas => default ∅ (datas !! name) !! "ports" | _ => None end.

(** The services [a] and [b] extend one whose list of three ports lies in an array of four. The file is read in
    the order [base], [a], [b]; [a] gets the port of [b]. *)
Lemma extensions_share_the_base :
  let merged := merged_file V1 "docker-compose.yml" ["base"; "a"; "b"] shared_base in
  ports_in merged "base" = Some (texts ["80"; "81"; "82"]) ∧
  ports_in merged "b" = Some (texts ["80"; "81"; "82"; "2"]) ∧
  ports_in merged "a" = Some (texts ["80"; "81"; "82"; "2"]).
Proof. vm_compute. repeat split. Qed.

(** The directory of a build is resolved in place, and again when the service is extended in the same file. *)
Definition built (context : string) : gmap string service_map :=
  {[ "base" := {[ "build" := VMap {[ SStr "context" := VStr context ]} ]}; "a" := extending "base" [] ]}.

Definition context_in (r : result (gmap string service_map)) (name : string) : option val :=
  match r with
  | Ok datas => match default ∅ (datas !! name) !! "build" with Some (VMap m) => m !! SStr "context" | _ => None end
  | _ => None
  end.

Lemma contexts_are_resolved_twice :
  let merged := merged_file V2 "dir/docker-compose.yml" ["a"; "base"] (built "app") in
  context_in merged "a" = Some (VStr "dir/dir/app") ∧ context_in merged "base" = Some (VStr "dir/dir/app").
Proof. vm_compute. repeat split. Qed.

(** A build that is given as a text, which the format allows, is a failed assertion. *)
Lemma textual_build_panics :
  merged_file V2 "docker-compose.yml" ["a"] {[ "a" := {[ "build" := VStr "." ]} ]} =
  Panic "interface conversion: not a map".
Proof. by vm_compute. Qed.

(** A merged service keeps its [extends] and replaces the original in the map that is being read, so that a
    service that extends it merges the base a second time when it is visited later. *)
Lemma merging_depends_on_range_order :
  let datas := {[ "base" := {[ "ports" := VList [VStr "80"] ]}; "a" := extending "base" ["81"];
                  "b" := extending "a" [] ]} in
  let ports order := ports_in (merged_file V1 "docker-compose.yml" order datas) "b" in
  ports ["base"; "b"; "a"] = Some (texts ["80"; "81"]) ∧
  ports ["base"; "a"; "b"] = Some (texts ["80"; "80"; "81"]).
Proof. vm_compute. repeat split. Qed.

(** ** Errors and ends of [extends] *)

(** A service that only extends another one. *)
Definition extends_only (h : heap) (r : nat) (file name : string) : Prop :=
  service h r !! "env_file" = None ∧ service h r !! "build" = None ∧
  ∃ ext, service h r !! "extends" = Some (GMap ext) ∧
    as_string (map_of h ext !! SStr "file") = file ∧ as_string (map_of h ext !! SStr "service") = name.

Lemma readEnvFile_absent grow lookup inFile r h :
  service h r !! "env_file" = None → readEnvFile grow lookup inFile r h = (Ok (), h).
Proof. intros E. unfold readEnvFile, mbind, store_bind, gets. by rewrite E. Qed.

Lemma resolveContext_absent v inFile r h :
  service h r !! "build" = None → resolveContext v inFile r h = (Ok (), h).
Proof. intros E. destruct v; unfold resolveContext, resolveContextV1, resolveContextV2, mbind, store_bind, gets; by rewrite E. Qed.

Lemma no_entries (b : gmap string gval) (l : list string) : b = ∅ → filter (λ k, is_Some (b !! k)) l = [].
Proof. intros ->. induction l as [|k l IH]; [done|]. by rewrite filter_cons. Qed.

Section Extends.
Context (grow : nat → nat → nat) (filled : nat → nat) (range_keys : gmap string gval → list (string * gval)).
Context (Lookup : string → string → result (string * string)) (unmarshal : version → string → option (gmap string service_map)).
Context (interpolate : bool) (envl : string → string → list string).
Context (pre : option (gmap string service_map → result (gmap string service_map))).
Context (vld : option (gmap string service_map → option string)).

Local Abbreviation parse := (parse grow filled range_keys (Some Lookup) unmarshal interpolate envl pre vld).

(** What follows the steps that leave such a service as it is. *)
Lemma parse_extends_only v fuel inFile r datas h file name :
  extends_only h r file name → name ≠ "" →
  parse v (S fuel) inFile r datas h =
  (base ← (if String.eqb file "" then file_base (parse v fuel) datas inFile name
           else other_base filled (Some Lookup) unmarshal interpolate envl pre vld (parse v fuel) v file inFile name);
   base ← clone base;
   b ← gets (λ h, service h base);
   match filter (λ k, is_Some (b !! k)) noMerge with
   | [] => merge_config grow range_keys base r
   | _ => lift (Err "Cannot extend service: services with links or volumes_from cannot be extended")
   end) h.
Proof using Type.
  intros (He & Hb & ext & Hx & Hf & Hn) Hname. cbn [ServiceStore.parse].
  unfold mbind at 1, store_bind at 1. rewrite readEnvFile_absent by done.
  unfold mbind at 1, store_bind at 1. rewrite resolveContext_absent by done.
  unfold mbind at 1, store_bind at 1, gets at 1. rewrite Hx.
  unfold mbind at 1, store_bind at 1, gets at 1. rewrite Hf, Hn. by rewrite (proj2 (String.eqb_neq name "") Hname).
Qed.

(** A service that extends itself has no end: nothing looks for a cycle. *)
Lemma parse_self_extends v fuel inFile r datas h name :
  extends_only h r "" name → name ≠ "" → datas !! name = Some r →
  parse v fuel inFile r datas h = (Panic "out of fuel", h).
Proof using Type.
  intros Hx Hname Hr. induction fuel as [|fuel IH]; [done|].
  rewrite (parse_extends_only v fuel inFile r datas h "" name Hx Hname). cbn [String.eqb].
  unfold file_base. rewrite Hr. unfold mbind, store_bind. by rewrite IH.
Qed.

(** The error of a base in another file is lost: it is assigned to the [err] of the inner block, and the service
    is merged into an empty one, in the store as the failed parse left it. *)
Lemma parse_drops_base_error v fuel inFile r datas h file name raw resolved h1 base e h2 places :
  extends_only h r file name → name ≠ "" → file ≠ "" →
  base_services (Some Lookup) unmarshal interpolate envl pre vld v file inFile = Ok (raw, resolved) →
  alloc_services filled raw h = (Ok places, h1) → places !! name = Some base →
  parse v fuel resolved base places h1 = (Err e, h2) →
  parse v (S fuel) inFile r datas h =
  (base ← alloc_service ∅; merge_config grow range_keys base r) h2.
Proof using Type.
  intros Hx Hname Hfile Hbs Hal Hp Herr. rewrite (parse_extends_only v fuel inFile r datas h file name Hx Hname).
  rewrite (proj2 (String.eqb_neq file "") Hfile). unfold other_base, clone, alloc_service, attempt, lift, gets, fresh, update.
  unfold mbind, store_bind. rewrite Hbs. cbn [fst snd]. rewrite Hal, Hp, Herr.
  unfold mret, store_ret. rewrite no_entries; [done|]. unfold service. cbn. by rewrite lookup_insert_eq.
Qed.
End Extends.
