(* ===== verification/NetLinks.v ===== *)
(** * Links of the kernel: bridges, VLANs, bonds and link-local addresses
    ([pkg/netconf]: [types.go], [bridge.go], [vlan.go], [bonding.go],
    [ipv4ll_linux.go])

    The network configuration, and the calls to the kernel and to other programs
    that applying it makes. The netlink library and the file system are the
    surroundings: every call is answered by them. *)

From stdpp Require Import prelude gmap strings list.
From S2P Require Import Prelude GoStrings GoNet Prog.

Local Open Scope string_scope.

(** ** Configuration *)

Record InterfaceConfig := {
  Match : string; DHCP : bool; DHCPArgs : string;
  Address : string; Addresses : list string; IPV4LL : bool;
  Gateway : string; GatewayIpv6 : string; MTU : Z;
  Bridge : string; Bond : string; BondOpts : gmap string string;
  PostUp : list string; PreUp : list string;
  Vlans : string; WifiNetwork : string;
}.

Definition zero_InterfaceConfig : InterfaceConfig := {|
  Match := ""; DHCP := false; DHCPArgs := ""; Address := ""; Addresses := []; IPV4LL := false;
  Gateway := ""; GatewayIpv6 := ""; MTU := 0; Bridge := ""; Bond := ""; BondOpts := ∅;
  PostUp := []; PreUp := []; Vlans := ""; WifiNetwork := "" |}.

Abbreviation interfaces := (gmap string InterfaceConfig).

(** Of [WifiNetworkConfig] only the presence of the network matters here. *)
Record NetworkConfig := {
  PreCmds : list string; DHCPTimeout : Z; Interfaces : interfaces;
  PostCmds : list string; WifiNetworks : gset string;
}.

(** ** Calls *)

(** [netlink.Link]: what the code reads of the attributes, and [Type()]. *)
Record Link := {
  Name : string; Index : Z; MasterIndex : Z; HardwareAddr : list Z; Type_ : string;
}.

(** [netlink.Addr], with [IPNet.String()]. *)
Record Addr := { IPNet : string; Label : string }.

Definition Addr_String (a : Addr) : string := TrimSpace (IPNet a +:+ " " +:+ Label a).

Inductive errno := NoError | EEXIST | OtherError (msg : string).

(** Answer of [os.Stat]. *)
Inductive stat := Exists | NotExist | StatError.

(** [Range] and [RangeOpts] stand for the order in which a map is visited. *)
Inductive net_call :=
  | Range (m : interfaces)
  | RangeOpts (m : gmap string string)
  | Exec (argv : list string)
  | Output (argv : list string)
  | Stat (path : string)
  | ReadFile (path : string)
  | WriteFile (path data : string)
  | Sleep (millis : Z)
  | Uint32
  | Ping (ip : list Z) (iface : string)
  | LinkList
  | LinkByName (name : string)
  | LinkAddBridge (name : string)
  | LinkAddVlan (parent : Z) (name : string) (id : Z)
  | LinkSetDown (link : Link)
  | LinkSetUp (link : Link)
  | LinkSetMaster (link master : Link)
  | LinkSetMTU (link : Link) (mtu : Z)
  | AddrList (link : Link)
  | AddrAdd (link : Link) (addr : Addr)
  | AddrDel (link : Link) (addr : Addr)
  | RouteAdd (gw : list Z).

(** [true]: the call succeeded; [None]: it failed. *)
Definition net_ans (c : net_call) : Type :=
  match c with
  | Range m => {l : list (string * InterfaceConfig) | enumerates l m}
  | RangeOpts m => {l : list (string * string) | enumerates l m}
  | Output _ => string
  | Stat _ => stat
  | ReadFile _ => option string
  | Sleep _ => ()
  | Uint32 => Z
  | LinkList => option (list Link)
  | LinkByName _ => option Link
  | AddrList _ => option (list Addr)
  | AddrAdd _ _ | AddrDel _ _ | RouteAdd _ => errno
  | _ => bool
  end.

Abbreviation Net := (prog net_ans).

Definition fail {A} (msg : string) : Net A := Done (Err msg).
Definition crash {A} (msg : string) : Net A := Done (Panic msg).

(** A call that can fail, as a Go error. *)
Definition check (ok : bool) (msg : string) : Net () := if ok then mret () else fail msg.

(** ** Bridges *)

(** [*netlink.Bridge] and [*netlink.Vlan] are the links of these types. *)
Definition is_bridge (l : Link) : bool := String.eqb (Type_ l) "bridge".
Definition is_vlan (l : Link) : bool := String.eqb (Type_ l) "vlan".

Definition NewBridge (name : string) : Net () :=
  link ← invoke (LinkByName name);
  match link with
  | Some link => check (is_bridge link) (name +:+ " is not a bridge device")
  | None => ok ← invoke (LinkAddBridge name); check ok "link add"
  end.

Definition AddLink (bridge : string) (link : Link) : Net () :=
  existing ← invoke (LinkByName bridge);
  match existing with
  | None => fail "link not found"
  | Some existing =>
      if is_bridge existing then
        if negb (MasterIndex link =? Index existing)%Z
        then ok ← invoke (LinkSetMaster link existing); check ok "link set master"
        else mret ()
      else fail (bridge +:+ " is not a bridge")
  end.

(** ** VLANs *)

Record VlanDefinition := { ID : Z; VlanName : string }.

Definition NewVlan (link : Link) (name : string) (id : Z) : Net () :=
  let name := if String.eqb name "" then Name link +:+ "." +:+ Itoa id else name in
  existing ← invoke (LinkByName name);
  match existing with
  | Some l => check (is_vlan l) (name +:+ " is not a VLAN device")
  | None => ok ← invoke (LinkAddVlan (Index link) name id); check ok "link add"
  end.

Definition vlan_definition (vlan : string) : result VlanDefinition :=
  match SplitN (TrimSpace vlan) ":" 2 with
  | [] => Panic "index out of range"
  | id :: rest =>
      let '(id, bad) := Atoi id in
      if bad : bool then Err "Invalid format"
      else Ok {| ID := id; VlanName := default "" (head rest) |}
  end.

Definition ParseVlanDefinitions (vlans : string) : result (list VlanDefinition) :=
  let vlans := TrimSpace vlans in
  if String.eqb vlans "" then Ok [] else mapR vlan_definition (Split vlans ",").

(** ** Bonds *)

Definition base : string := "/sys/class/net/".
Definition bondingMasters : string := "/sys/class/net/bonding_masters".
Definition slaves_file (bond : string) : string := base +:+ bond +:+ "/bonding/slaves".
Definition opt_file (bond key : string) : string := base +:+ bond +:+ "/bonding/" +:+ key.

Definition words_of (content : string) : list string := Split (TrimSpace content) " ".

Definition contains (file word : string) : Net bool :=
  words ← invoke (ReadFile file);
  match words with
  | None => fail "open"
  | Some words => mret (existsb (String.eqb (TrimSpace word)) (words_of words))
  end.

(** Waiting for the module, [n] more times. *)
Fixpoint wait_for_bonding (n : nat) : Net () :=
  match n with
  | O => mret ()
  | S n =>
      st ← invoke (Stat bondingMasters);
      match st with
      | Exists => mret ()
      | _ => _ ← invoke (Sleep 100); wait_for_bonding n
      end
  end.

Definition Bonding_init : Net () :=
  st ← invoke (Stat bondingMasters);
  _ ← match st with
      | NotExist =>
          ok ← invoke (Exec ["modprobe"; "bonding"]);
          if ok : bool then mret () else wait_for_bonding 30
      | _ => mret ()
      end;
  st ← invoke (Stat bondingMasters);
  match st with Exists => mret () | _ => fail "stat" end.

Definition linkDown (bond : string) : Net () :=
  link ← invoke (LinkByName bond);
  match link with
  | None => fail "link not found"
  | Some link => ok ← invoke (LinkSetDown link); check ok "link set down"
  end.

Definition ListSlaves (bond : string) : Net (list string) :=
  words ← invoke (ReadFile (slaves_file bond));
  match words with
  | None => fail "open"
  | Some words => mret (filter (λ s, s ≠ "") (words_of words))
  end.

Definition write (path data : string) : Net () :=
  ok ← invoke (WriteFile path data); check ok "write".

Definition RemoveSlave (bond slave : string) : Net () :=
  there ← contains (slaves_file bond) slave;
  if there : bool then write (slaves_file bond) ("-" +:+ slave) else mret ().

Definition AddSlave (bond slave : string) : Net () :=
  there ← contains (slaves_file bond) slave;
  if there : bool then mret () else write (slaves_file bond) ("+" +:+ slave).

Definition MODE : string := "mode".

Definition Opt (bond key value : string) : Net () :=
  _ ← (if String.eqb key "mode" then
         _ ← ignore (linkDown bond);
         slaves ← attempt (ListSlaves bond);
         each (λ s, ignore (RemoveSlave bond s))
           (match slaves with Ok l => l | _ => [] end)
       else mret ());
  write (opt_file bond key) value.

Definition NewBond (name : string) : Net () :=
  _ ← Bonding_init;
  there ← contains bondingMasters name;
  if there : bool then mret () else write bondingMasters ("+" +:+ name).

(** ** Link-local addresses *)

Section LinkLocal.
(** The netlink library's parser of addresses. *)
Context (ParseAddr : string → option Addr).

Definition getNewIPV4LLAddr (randomNum : Z) : list Z :=
  let byte1 := Z.land randomNum 255 in
  let byte2 := Z.shiftr randomNum 24 in
  [169; 254; byte1 mod 256; byte2 mod 256]%Z.

(** [IP.String] of four bytes. *)
Definition ip4_String (ip : list Z) : string := Join (Itoa <$> ip) ".".

(** The addresses of a link; an error is logged and the list is empty. *)
Definition getLinkAddrs (link : Link) : Net (list Addr) :=
  addrs ← invoke (AddrList link); mret (default [] addrs).

(** The first of the addresses that is link-local: [addr.String()[:7]]. *)
Fixpoint find_link_local (addrs : list Addr) : result (option Addr) :=
  match addrs with
  | [] => Ok None
  | a :: addrs =>
      if (String.length (Addr_String a) <? 7)%nat then Panic "slice bounds out of range"
      else if String.eqb (firstn_s 7 (Addr_String a)) "169.254" then Ok (Some a)
      else find_link_local addrs
  end.

(** The loop: [tries] pings left; a reserved address costs none, so [fuel] bounds
    the numbers that are drawn. *)
Fixpoint try_link_local (fuel tries : nat) (link : Link) : Net () :=
  match fuel, tries with
  | _, O => fail "Could not find a suitable ipv4ll"
  | O, _ => crash "no suitable random number"
  | S fuel, S tries' =>
      randomNum ← invoke Uint32;
      let dstIP := getNewIPV4LLAddr randomNum in
      let third := nth 2 dstIP 0%Z in
      if (third =? 0)%Z || (third =? 255)%Z then try_link_local fuel tries link
      else
        answered ← invoke (Ping dstIP (Name link));
        if answered : bool then try_link_local fuel tries' link
        else
          match ParseAddr (ip4_String dstIP +:+ "/16") with
          | None => fail "parse ipv4ll addr"
          | Some addr =>
              e ← invoke (AddrAdd link addr);
              match e with NoError => mret () | _ => fail "ipv4ll addr add failed" end
          end
  end.

Definition AssignLinkLocalIP (fuel : nat) (link : Link) : Net () :=
  addrs ← getLinkAddrs link;
  found ← Done (find_link_local addrs);
  match found : option Addr with
  | Some _ => mret ()
  | None => try_link_local fuel 10 link
  end.

Definition RemoveLinkLocalIP (link : Link) : Net () :=
  addrs ← getLinkAddrs link;
  found ← Done (find_link_local addrs);
  match found : option Addr with
  | Some a =>
      e ← invoke (AddrDel link a);
      match e with NoError => mret () | _ => fail "ipv4ll addr del failed" end
  | None => mret ()
  end.
End LinkLocal.

(** ** Lemmas: link-local addresses *)

Definition is_ping (c : net_call) : bool := match c with Ping _ _ => true | _ => false end.

(** Every address that is added is one of 169.254.1.0 to 169.254.254.255, was just
    asked for, and is the last thing that is done. *)
Definition assigned (ParseAddr : string → option Addr) (link : Link) (t : list net_call) : Prop :=
  ∀ pre l a post, t = (pre ++ AddrAdd l a :: post)%list →
    l = link ∧ post = [] ∧
    ∃ x y pre', (1 ≤ x ≤ 254)%Z ∧ (0 ≤ y ≤ 255)%Z ∧
      pre = (pre' ++ [Ping [169; 254; x; y]%Z (Name link)])%list ∧
      ParseAddr (ip4_String [169; 254; x; y]%Z +:+ "/16") = Some a.

Definition ll_post (ParseAddr : string → option Addr) (link : Link) (tries : nat)
    (t : list net_call) (r : result ()) : Prop :=
  (length (filter is_ping t) ≤ tries)%nat ∧ assigned ParseAddr link t ∧
  (r = Ok () → ∃ a, last t = Some (AddrAdd link a)).

Lemma assigned_cons ParseAddr link c t :
  (∀ l a, c ≠ AddrAdd l a) → assigned ParseAddr link t → assigned ParseAddr link (c :: t).
Proof.
  intros Hc Ht pre l a post E. destruct pre as [|c' pre]; simplify_eq/=; [by destruct (Hc l a)|].
  destruct (Ht pre l a post eq_refl) as (-> & -> & x & y & pre' & ? & ? & -> & ?).
  split_and!; [done..|]. exists x, y, (c' :: pre'). done.
Qed.

Lemma ll_post_cons ParseAddr link n c t r :
  (∀ l a, c ≠ AddrAdd l a) → is_ping c = false →
  ll_post ParseAddr link n t r → ll_post ParseAddr link n (c :: t) r.
Proof.
  intros Hc Hp (Hn & Ha & Hr). split_and!.
  - rewrite filter_cons_False; [done|]. rewrite Hp. intros [].
  - by apply assigned_cons.
  - intros Hok. destruct (Hr Hok) as [a Hl]. exists a. destruct t; [done|]. done.
Qed.

Lemma ll_post_ping ParseAddr link n ip iface t r :
  ll_post ParseAddr link n t r → ll_post ParseAddr link (S n) (Ping ip iface :: t) r.
Proof.
  intros (Hn & Ha & Hr). split_and!.
  - rewrite filter_cons_True; [|done]. simpl. lia.
  - by apply assigned_cons.
  - intros Hok. destruct (Hr Hok) as [a Hl]. exists a. destruct t; [done|]. done.
Qed.

Lemma ll_post_nothing ParseAddr link n r : is_ok r = false → ll_post ParseAddr link n [] r.
Proof.
  intros Hr. split_and!; [simpl; lia|intros pre l a post E; by destruct pre|].
  intros ->. discriminate Hr.
Qed.

Lemma ll_post_add ParseAddr link n x y a r :
  (1 ≤ x ≤ 254)%Z → (0 ≤ y ≤ 255)%Z →
  ParseAddr (ip4_String [169; 254; x; y]%Z +:+ "/16") = Some a →
  ll_post ParseAddr link (S n) [Ping [169; 254; x; y]%Z (Name link); AddrAdd link a] r.
Proof.
  intros Hx Hy Ha. split_and!; [simpl; lia| |eauto].
  intros pre l b post E. destruct pre as [|c [|c' pre]]; simplify_eq/=.
  - split_and!; [done..|]. by exists x, y, [].
  - by destruct pre.
Qed.

Lemma byte_range n : (0 ≤ n mod 256 ≤ 255)%Z.
Proof. pose proof (Z.mod_pos_bound n 256). lia. Qed.

Lemma wp_try_link_local ParseAddr link fuel : ∀ tries,
  wp (try_link_local ParseAddr fuel tries link) (ll_post ParseAddr link tries).
Proof.
  induction fuel as [|fuel IH]; intros [|tries]; [by apply ll_post_nothing..|].
  cbn [try_link_local]. unfold mbind, prog_mbind, invoke. cbn [prog_bind wp].
  intros n. cbv zeta.
  set (x := (Z.land n 255 mod 256)%Z). set (y := (Z.shiftr n 24 mod 256)%Z).
  pose proof (byte_range (Z.land n 255)) as Hx. pose proof (byte_range (Z.shiftr n 24)) as Hy.
  fold x in Hx. fold y in Hy.
  change (nth 2 (getNewIPV4LLAddr n) 0%Z) with x.
  destruct (_ || _) eqn:Hres.
  - eapply wp_mono, IH. intros t r. by apply ll_post_cons.
  - apply orb_false_iff in Hres as [H0 H255].
    apply Z.eqb_neq in H0, H255. cbn [prog_bind wp]. intros [].
    + eapply wp_mono, IH. intros t r H. apply ll_post_cons; [done..|]. by apply ll_post_ping.
    + cbn [wp prog_bind]. destruct (ParseAddr _) as [a|] eqn:Ha.
      * intros e. assert (ll_post ParseAddr link (S tries)
          [Uint32; Ping (getNewIPV4LLAddr n) (Name link); AddrAdd link a]
          (match e with NoError => Ok () | _ => Err "ipv4ll addr add failed" end)).
        { apply ll_post_cons; [done..|]. apply ll_post_add; [lia|lia|done]. }
        by destruct e.
      * apply ll_post_cons; [done..|]. apply ll_post_ping. by apply ll_post_nothing.
Qed.

(** Assigning a link-local address asks for at most ten addresses, and an
    address is only added when it is one of 169.254.1.0 to 169.254.254.255 that
    nobody answered for just before; nothing is done after. When the assignment
    succeeds, either the link had such an address and nothing was changed, or one
    was added. *)
Theorem AssignLinkLocalIP_range (ParseAddr : string → option Addr) fuel link :
  wp (AssignLinkLocalIP ParseAddr fuel link) (λ t r,
    (length (filter is_ping t) ≤ 10)%nat ∧ assigned ParseAddr link t ∧
    (r = Ok () → t = [AddrList link] ∨ ∃ a, last t = Some (AddrAdd link a))).
Proof.
  unfold AssignLinkLocalIP, getLinkAddrs. unfold mbind, prog_mbind, invoke.
  cbn [prog_bind wp]. intros addrs. unfold mret, prog_ret. cbn [prog_bind].
  assert (Hnone : ∀ r : result (), is_ok r = false → assigned ParseAddr link [AddrList link]).
  { intros r _. intros pre l a post E. destruct pre as [|? [|? ?]]; simplify_eq/=. }
  destruct (find_link_local _) as [[a|]|e|e]; cbn [prog_bind].
  - split_and!; [simpl; lia|by apply (Hnone (Err ""))|by left].
  - eapply wp_mono, wp_try_link_local. intros t r H.
    destruct (ll_post_cons ParseAddr link 10 (AddrList link) t r) as (? & ? & ?); [done..|].
    split_and!; [done..|]. intros Hok. right. auto.
  - split_and!; [simpl; lia|by apply (Hnone (Err ""))|done].
  - split_and!; [simpl; lia|by apply (Hnone (Err ""))|done].
Qed.
