(* ===== verification/Netconf.v ===== *)
(** * Applying a network configuration
    ([pkg/netconf/netconf_linux.go])

    Which entry of the configuration a link gets, what is done to the link, and
    in which order. *)

From stdpp Require Import prelude gmap strings list.
From S2P Require Import Prelude GoStrings GoNet Prog NetLinks.

Local Open Scope string_scope.

Definition defaultDhcpArgs : list string := ["dhcpcd"; "-MA4"].
Definition exitDhcpArgs : list string := ["dhcpcd"; "-x"].
Definition exitWpaArgs : list string := ["wpa_cli"; "terminate"].
Definition dhcpReleaseCmd : string := "dhcpcd --release".

Section Netconf.
(** Third-party code: the glob matcher, the shell lexer (the words, up to
    an error, and whether there is one) and netlink's parser of addresses. *)
Context (Glob : string → string → bool).
Context (shlex_Split : string → list string * bool).
Context (ParseAddr : string → option Addr).

(** ** Which entry a link gets *)

Definition with_match (key : string) (netConf : InterfaceConfig) : InterfaceConfig :=
  if String.eqb (Match netConf) "" then
    {| Match := key; DHCP := DHCP netConf; DHCPArgs := DHCPArgs netConf;
       Address := Address netConf; Addresses := Addresses netConf; IPV4LL := IPV4LL netConf;
       Gateway := Gateway netConf; GatewayIpv6 := GatewayIpv6 netConf; MTU := MTU netConf;
       Bridge := Bridge netConf; Bond := Bond netConf; BondOpts := BondOpts netConf;
       PostUp := PostUp netConf; PreUp := PreUp netConf; Vlans := Vlans netConf;
       WifiNetwork := WifiNetwork netConf |}
  else netConf.

(** What one entry says of a link: nothing, a match of its hardware address, or
    how its name compares. *)
Inductive selection :=
  | Skip
  | ByAddress
  | ByName (wildcard exact : bool).

Definition select (link : Link) (netConf : InterfaceConfig) : result selection :=
  let m := Match netConf in
  let by_name := Ok (ByName (Glob m (Name link)) (String.eqb m (Name link))) in
  let real := negb (String.eqb (Name link) (Bond netConf)) && negb (String.eqb (Type_ link) "vlan") in
  if String.eqb m "" then Ok Skip
  else if HasPrefix m "mac" then
    if (String.length m <? 4)%nat then Panic "slice bounds out of range"
    else if Contains m "*" then
      if Glob (skipn_s 4 m) (mac_String (HardwareAddr link)) && real then Ok ByAddress else Ok Skip
    else
      match ParseMAC (skipn_s 4 m) with
      | None => Ok Skip
      | Some haAddr =>
          if bool_decide (haAddr = HardwareAddr link) && real then Ok ByAddress else by_name
      end
  else by_name.

(** The loop of [findMatch]: [match_], [exactMatch] and [found]. *)
Fixpoint find_match (link : Link) (order : list (string * InterfaceConfig))
    (match_ : InterfaceConfig) (exactMatch found : bool) : result (InterfaceConfig * bool) :=
  match order with
  | [] => Ok (match_, exactMatch || found)
  | (key, netConf) :: order =>
      let netConf := with_match key netConf in
      s ← select link netConf;
      match s with
      | Skip => find_match link order match_ exactMatch found
      | ByAddress => Ok (netConf, true)
      | ByName wildcard exact =>
          let takes := negb exactMatch && wildcard in
          find_match link order (if takes || exact then netConf else match_)
            (exactMatch || exact) (found || takes)
      end
  end.

Definition findMatch_in_order (link : Link) (order : list (string * InterfaceConfig)) :
    result (InterfaceConfig * bool) :=
  find_match link order zero_InterfaceConfig false false.

Definition findMatch (link : Link) (netCfg : NetworkConfig) : Net (InterfaceConfig * bool) :=
  order ← invoke (Range (Interfaces netCfg));
  Done (findMatch_in_order link (`order)).

Definition eth_config : InterfaceConfig := {|
  Match := ""; DHCP := true; DHCPArgs := ""; Address := ""; Addresses := []; IPV4LL := false;
  Gateway := ""; GatewayIpv6 := ""; MTU := 0; Bridge := ""; Bond := ""; BondOpts := ∅;
  PostUp := []; PreUp := []; Vlans := ""; WifiNetwork := "" |}.

Definition lo_config : InterfaceConfig := {|
  Match := ""; DHCP := false; DHCPArgs := ""; Address := "";
  Addresses := ["127.0.0.1/8"; "::1/128"]; IPV4LL := false;
  Gateway := ""; GatewayIpv6 := ""; MTU := 0; Bridge := ""; Bond := ""; BondOpts := ∅;
  PostUp := []; PreUp := []; Vlans := ""; WifiNetwork := "" |}.

Definition populateDefault (netCfg : NetworkConfig) : NetworkConfig :=
  let ifaces := Interfaces netCfg in
  let ifaces := if (size ifaces =? 0)%nat then <["eth*" := eth_config]> ifaces else ifaces in
  let ifaces := match ifaces !! "lo" with
                | Some _ => ifaces
                | None => <["lo" := lo_config]> ifaces
                end in
  {| PreCmds := PreCmds netCfg; DHCPTimeout := DHCPTimeout netCfg; Interfaces := ifaces;
     PostCmds := PostCmds netCfg; WifiNetworks := WifiNetworks netCfg |}.

(** ** Commands *)

(** [exec.Command(args[0], args[1:]...)], run; a failure is logged. *)
Definition exec_command (args : list string) : Net () :=
  match args with
  | [] => crash "index out of range"
  | _ => _ ← invoke (Exec args); mret ()
  end.

Definition run_cmd (iface cmd : string) : Net () :=
  let cmd := TrimSpace cmd in
  if String.eqb cmd "" then mret ()
  else
    let '(args, err) := shlex_Split (Replace cmd "$iface" iface) in
    if err : bool then mret () else exec_command args.

Definition runCmds (cmds : list string) (iface : string) : Net () := each (run_cmd iface) cmds.

(** ** DHCP *)

Definition getDhcpLeaseString (iface : string) : Net string :=
  invoke (Output (defaultDhcpArgs ++ ["-U"; iface])%list).

Definition lease_line (lease : gmap string string) (line : string) : gmap string string :=
  match SplitN line "=" 2 with
  | k :: v :: _ => <[k := v]> lease
  | _ => lease
  end.

Definition parse_lease (out : string) : gmap string string :=
  foldl lease_line ∅ (Split out "010").

Definition GetDhcpLease (iface : string) : Net (gmap string string) :=
  out ← getDhcpLeaseString iface; mret (parse_lease out).

Definition hasDhcp (iface : string) : Net bool :=
  out ← getDhcpLeaseString iface; mret (0 <? String.length out)%nat.

Definition dhcp_args (netCfg : NetworkConfig) (iface argstr : string) (setHostname setDNS : bool) :
    list string :=
  let args := if negb (String.eqb argstr "") then (shlex_Split argstr).1 else [] in
  let args := match args with [] => defaultDhcpArgs | _ => args end in
  let args := if setHostname then (args ++ ["-e"; "force_hostname=true"])%list else args in
  let args := if negb setDNS then (args ++ ["--nohook"; "resolv.conf"])%list else args in
  let args := if (0 <? DHCPTimeout netCfg)%Z
              then (args ++ ["--timeout"; Itoa (DHCPTimeout netCfg)])%list else args in
  (args ++ ["-w"; "--debug"] ++ [iface])%list.

Definition runDhcp (netCfg : NetworkConfig) (iface argstr : string) (setHostname setDNS : bool) :
    Net () := exec_command (dhcp_args netCfg iface argstr setHostname setDNS).

(** ** One link *)

Definition removeAddress (link : Link) (addr : Addr) : Net () :=
  _ ← invoke (AddrDel link addr); mret ().

Definition runWifiDhcp (netCfg : NetworkConfig) (link : Link) (network : string)
    (setHostname setDNS : bool) : Net () :=
  let iface := Name link in
  if bool_decide (network ∈ WifiNetworks netCfg) then
    has ← hasDhcp iface;
    _ ← (if has : bool then runDhcp netCfg iface dhcpReleaseCmd false true else mret ());
    existAddress ← getLinkAddrs link;
    _ ← each (removeAddress link) existAddress;
    runDhcp netCfg iface "" setHostname setDNS
  else mret ().

Definition linkUp (link : Link) : Net () :=
  ok ← invoke (LinkSetUp link); check ok "failed to setup link".

Definition applyAddress (link : Link) (address : string) : Net () :=
  match ParseAddr address with
  | None => fail "invalid address"
  | Some addr => _ ← invoke (AddrAdd link addr); mret ()
  end.

(** [add] is true in every call: the branch that replaces a route is not used. *)
Definition setGateway (gateway : string) : Net () :=
  if String.eqb gateway "" then mret ()
  else match ParseIP gateway with
       | None => fail ("Invalid gateway address " +:+ gateway)
       | Some gatewayIP =>
           e ← invoke (RouteAdd gatewayIP);
           match e with OtherError msg => fail msg | _ => mret () end
       end.

(** The addresses of the configuration, the single one first. *)
Definition wanted_addresses (netConf : InterfaceConfig) : list string :=
  ((if negb (String.eqb (Address netConf) "") then [Address netConf] else []) ++
   Addresses netConf)%list.

Definition applyInterfaceConfig (fuel : nat) (link : Link) (netConf : InterfaceConfig) : Net () :=
  if negb (String.eqb (Bond netConf) "") then
    ok ← invoke (LinkSetDown link);
    _ ← check ok "link set down";
    _ ← NewBond (Bond netConf);
    AddSlave (Bond netConf) (Name link)
  else if negb (String.eqb (Bridge netConf) "") && negb (String.eqb (Bridge netConf) "true") then
    _ ← NewBridge (Bridge netConf);
    _ ← AddLink (Bridge netConf) link;
    linkUp link
  else
    _ ← (if IPV4LL netConf then AssignLinkLocalIP ParseAddr fuel link else RemoveLinkLocalIP link);
    let addresses := wanted_addresses netConf in
    existingAddrs ← getLinkAddrs link;
    _ ← each (λ addr,
          if bool_decide (IPNet addr ∈ addresses) then mret ()
          else if DHCP netConf || IPV4LL netConf then mret ()
          else removeAddress link addr) existingAddrs;
    _ ← each (λ address, ignore (applyAddress link address)) addresses;
    _ ← (if (0 <? MTU netConf)%Z then
           ok ← invoke (LinkSetMTU link (MTU netConf)); check ok "set MTU"
         else mret ());
    _ ← linkUp link;
    _ ← ignore (setGateway (Gateway netConf));
    ignore (setGateway (GatewayIpv6 netConf)).

(** The body of [applyOuter] once the link has an entry; [dhcp] is [match.DHCP]
    after the wireless case. *)
Definition apply_link (fuel : nat) (link : Link) (netCfg : NetworkConfig) (m : InterfaceConfig)
    (userSetHostname userSetDNS : bool) : Net () :=
  let dhcp := negb (String.eqb (WifiNetwork m) "") || DHCP m in
  _ ← (if dhcp then mret () else ignore (applyInterfaceConfig fuel link m));
  go_on ← (if dhcp then mret true else hasDhcp (Name link));
  if (go_on : bool) then
    if dhcp then
      if negb (String.eqb (WifiNetwork m) "")
      then runWifiDhcp netCfg link (WifiNetwork m) (negb userSetHostname) (negb userSetDNS)
      else runDhcp netCfg (Name link) (DHCPArgs m) (negb userSetHostname) (negb userSetDNS)
    else runDhcp netCfg (Name link) dhcpReleaseCmd false true
  else mret ().

Definition applyOuter (fuel : nat) (netCfg : NetworkConfig) (userSetHostname userSetDNS : bool)
    (link : Link) : Net () :=
  m ← findMatch link netCfg;
  if (m.2 : bool) then
    _ ← runCmds (PreUp m.1) (Name link);
    defer_call (runCmds (PostUp m.1) (Name link))
      (apply_link fuel link netCfg m.1 userSetHostname userSetDNS)
  else mret ().

(** ** The links that are made *)

(** The options of a bond, the mode first. *)
Definition set_bond_opts (bond : string) (opts : gmap string string) : Net () :=
  _ ← match opts !! MODE with Some v => ignore (Opt bond MODE v) | None => mret () end;
  order ← invoke (RangeOpts opts);
  each (λ kv, if String.eqb kv.1 MODE then mret () else ignore (Opt bond kv.1 kv.2)) (`order).

(** The loop of [createInterfaces]; [configured]: the bonds whose options are set. *)
Fixpoint create_interfaces (netCfg : NetworkConfig) (order : list (string * InterfaceConfig))
    (configured : gset string) : Net () :=
  match order with
  | [] => mret ()
  | (name, iface) :: order =>
      if String.eqb (Bridge iface) "true" then
        _ ← ignore (NewBridge name); create_interfaces netCfg order configured
      else if negb (String.eqb (Bridge iface) "") then
        _ ← ignore (NewBridge (Bridge iface)); create_interfaces netCfg order configured
      else if negb (String.eqb (Bond iface) "") then
        bond ← attempt (NewBond (Bond iface));
        match bond with
        | Ok _ =>
            if bool_decide (Bond iface ∈ configured) then create_interfaces netCfg order configured
            else
              match Interfaces netCfg !! Bond iface with
              | Some bondIface =>
                  _ ← set_bond_opts (Bond iface) (BondOpts bondIface);
                  create_interfaces netCfg order ({[Bond iface]} ∪ configured)
              | None => create_interfaces netCfg order configured
              end
        | _ => create_interfaces netCfg order configured
        end
      else create_interfaces netCfg order configured
  end.

Definition createInterfaces (netCfg : NetworkConfig) : Net () :=
  order ← invoke (Range (Interfaces netCfg));
  create_interfaces netCfg (`order) ∅.

Definition hidden_link (l : Link) : bool :=
  existsb (String.eqb (Name l)) ["lo"; "docker-sys"; "docker0"].

Definition GetValidLinkList : Net (list Link) :=
  links ← invoke LinkList;
  match links with
  | None => fail "link list"
  | Some links => mret (filter (λ l, hidden_link l = false) links)
  end.

Definition create_slaves (netCfg : NetworkConfig) (link : Link) : Net () :=
  m ← findMatch link netCfg;
  if (m.2 : bool) then
    match ParseVlanDefinitions (Vlans m.1) with
    | Ok vlanDefs => each (λ d, ignore (NewVlan link (VlanName d) (ID d))) vlanDefs
    | Err _ => mret ()
    | Panic e => crash e
    end
  else mret ().

Definition createSlaveInterfaces (netCfg : NetworkConfig) : Net () :=
  links ← attempt GetValidLinkList;
  match links with
  | Ok links => each (create_slaves netCfg) links
  | _ => mret ()
  end.

(** ** The whole configuration *)

Definition is_wlan (l : Link) : bool := Contains (Name l) "wlan".

(** Whether the lease of one of the links names a server. *)
Fixpoint dns_set (links : list Link) (dnsSet : bool) : Net bool :=
  match links with
  | [] => mret dnsSet
  | l :: links =>
      lease ← GetDhcpLease (Name l);
      dns_set links (dnsSet || bool_decide (is_Some (lease !! "domain_name_servers")))
  end.

Definition apply_links (fuel : nat) (netCfg : NetworkConfig) (userSetHostname userSetDNS : bool) :
    Net bool :=
  _ ← createInterfaces netCfg;
  _ ← createSlaveInterfaces netCfg;
  links ← GetValidLinkList;
  _ ← each (λ l, if is_wlan l then mret ()
                 else applyOuter fuel netCfg userSetHostname userSetDNS l) links;
  _ ← each (λ l, if is_wlan l then applyOuter fuel netCfg userSetHostname userSetDNS l
                 else mret ()) links;
  dns_set links false.

Definition ApplyNetworkConfigs (fuel : nat) (netCfg : NetworkConfig)
    (userSetHostname userSetDNS : bool) : Net bool :=
  let netCfg := populateDefault netCfg in
  _ ← runCmds (PreCmds netCfg) "";
  defer_call (runCmds (PostCmds netCfg) "")
    (apply_links fuel netCfg userSetHostname userSetDNS).

Definition StopDhcpcd : Net () := exec_command exitDhcpArgs.

Definition StopWpaSupplicant : Net () :=
  links ← attempt GetValidLinkList;
  match links with
  | Ok links => each (λ l, exec_command (exitWpaArgs ++ ["-i"; Name l])%list) links
  | _ => mret ()
  end.

(** ** Lemmas: the entry of a link *)

(** The entry as [findMatch] looks at it, and what it says of the link. *)
Definition conf_of (e : string * InterfaceConfig) : InterfaceConfig := with_match e.1 e.2.
Definition selection_of (link : Link) (e : string * InterfaceConfig) : result selection :=
  select link (conf_of e).

(** The text that selects links: the entry's own, or its key. *)
Definition selector (e : string * InterfaceConfig) : string :=
  if decide (Match e.2 = "") then e.1 else Match e.2.

(** What a link gets from an entry: all it says, with its selector filled in. *)
Definition given (e : string * InterfaceConfig) : InterfaceConfig := {|
  Match := selector e; DHCP := DHCP e.2; DHCPArgs := DHCPArgs e.2;
  Address := Address e.2; Addresses := Addresses e.2; IPV4LL := IPV4LL e.2;
  Gateway := Gateway e.2; GatewayIpv6 := GatewayIpv6 e.2; MTU := MTU e.2;
  Bridge := Bridge e.2; Bond := Bond e.2; BondOpts := BondOpts e.2;
  PostUp := PostUp e.2; PreUp := PreUp e.2; Vlans := Vlans e.2;
  WifiNetwork := WifiNetwork e.2 |}.

(** The selector "mac:<text>" selects by the hardware address: with a star in
    it the address must match the text as a pattern, else it must be the
    address that the text is. Neither the bond that the entry makes nor a VLAN
    is selected so, which have the address of their parts. *)
Inductive by_mac (link : Link) (e : string * InterfaceConfig) : Prop :=
  | by_mac_intro colon text :
      selector e = "mac" +:+ String colon text →
      (if Contains (selector e) "*" then Glob text (mac_String (HardwareAddr link)) = true
       else ParseMAC text = Some (HardwareAddr link)) →
      Name link ≠ Bond e.2 → Type_ link ≠ "vlan" →
      by_mac link e.

(** A selector that is compared with the name: not empty, and either it does
    not begin with "mac" or it is "mac:" with a well-formed address. *)
Definition nameable (e : string * InterfaceConfig) : Prop :=
  selector e ≠ "" ∧
  ∀ rest, selector e = "mac" +:+ rest →
    Contains (selector e) "*" = false ∧
    ∃ colon text, rest = String colon text ∧ ParseMAC text ≠ None.

Definition by_name (link : Link) (e : string * InterfaceConfig) : Prop :=
  nameable e ∧ selector e = Name link.

Definition by_wildcard (link : Link) (e : string * InterfaceConfig) : Prop :=
  nameable e ∧ Glob (selector e) (Name link) = true.

(** The best of the entries: by address before by exact name before by
    wildcard; and the empty configuration when no entry selects the link. *)
Definition best (link : Link) (l : list (string * InterfaceConfig)) (c : InterfaceConfig)
    (found : bool) : Prop :=
  let one P := ∃ e, e ∈ l ∧ P e ∧ c = given e in
  let none P := ∀ e, e ∈ l → ¬ P e in
  found = true ∧ one (by_mac link) ∨
  none (by_mac link) ∧
    (found = true ∧ one (by_name link) ∨
     none (by_name link) ∧
       (found = true ∧ one (by_wildcard link) ∨
        none (by_wildcard link) ∧ found = false ∧ c = zero_InterfaceConfig)).

Lemma conf_of_given e : conf_of e = given e.
Proof.
  destruct e as [key c]. unfold conf_of, with_match, given, selector.
  destruct (String.eqb_spec (Match (key, c).2) "") as [He|Hne];
    [by rewrite (decide_True _ _ He)|rewrite (decide_False _ _ Hne)]. by destruct c.
Qed.

(** What [select] says of an entry, in terms of its selector. *)
Lemma selection_of_spec link e :
  match selection_of link e with
  | Ok ByAddress => by_mac link e
  | Ok Skip => ¬ by_mac link e ∧ ¬ nameable e
  | Ok (ByName w x) =>
      ¬ by_mac link e ∧ nameable e ∧ w = Glob (selector e) (Name link) ∧
      x = String.eqb (selector e) (Name link)
  | _ => ¬ by_mac link e ∧ ¬ nameable e ∧ selector e = "mac"
  end.
Proof using Glob.
  clear shlex_Split ParseAddr. unfold selection_of. rewrite conf_of_given. unfold select. cbv zeta.
  change (Match (given e)) with (selector e). change (Bond (given e)) with (Bond e.2).
  destruct (String.eqb_spec (selector e) "") as [He|Hne].
  { split; [intros [c t Hs]; by rewrite He in Hs|]. by intros [? _]. }
  destruct (HasPrefix (selector e) "mac") eqn:Hp.
  2: { assert (∀ rest, selector e ≠ "mac" +:+ rest) as Hno.
       { intros rest Hs. rewrite Hs in Hp. by destruct rest. }
       split; [intros [c t Hs]; by apply Hno in Hs|]. split; [|done].
       split; [done|]. intros rest Hs. by apply Hno in Hs. }
  apply HasPrefix_spec in Hp as [rest Hs]. destruct rest as [|colon text].
  { rewrite Hs. cbn [String.length String.append Nat.ltb Nat.leb].
    split_and!; [..|done]; [intros [c t Hs']|intros [_ Hn]]; [by rewrite Hs in Hs'|].
    destruct (Hn _ Hs) as (_ & c & t & ? & _). done. }
  assert (∀ c t, selector e = "mac" +:+ String c t → t = text) as Huniq
    by (intros c t Ht; rewrite Hs in Ht; by injection Ht).
  assert ((String.length (selector e) <? 4)%nat = false) as -> by (by rewrite Hs).
  assert (skipn_s 4 (selector e) = text) as -> by (by rewrite Hs).
  set (real := negb (String.eqb (Name link) (Bond e.2)) && negb (String.eqb (Type_ link) "vlan")).
  assert (by_mac link e ↔
    (if Contains (selector e) "*" then Glob text (mac_String (HardwareAddr link)) = true
     else ParseMAC text = Some (HardwareAddr link)) ∧ real = true) as Hmac.
  { unfold real. rewrite andb_true_iff, !negb_true_iff, !String.eqb_neq. split.
    - intros [c t Ht HG ? ?]. rewrite (Huniq c t Ht) in HG. done.
    - intros (HG & ? & ?). by apply (by_mac_intro _ _ colon text). }
  assert (nameable e ↔ Contains (selector e) "*" = false ∧ ParseMAC text ≠ None) as Hna.
  { split.
    - intros [_ Hn]. destruct (Hn _ Hs) as (? & c & t & Ht & ?). by injection Ht as <- <-.
    - intros [? ?]. split; [done|]. intros rest Hr. split; [done|]. exists colon, text.
      split; [|done]. rewrite Hs in Hr. by injection Hr. }
  clearbody real. clear Hs Huniq.
  destruct real, (Contains (selector e) "*"); rewrite ?andb_true_r, ?andb_false_r.
  1,3: destruct (Glob text _); cbn; rewrite ?Hmac, ?Hna; intuition congruence.
  all: destruct (ParseMAC text) as [addr|]; [|cbn; rewrite Hmac, Hna; intuition congruence];
    rewrite ?andb_true_r, ?andb_false_r.
  1: case_bool_decide as Ha.
  all: cbn; rewrite ?Hmac, ?Hna; intuition congruence.
Qed.

(** What has been found in the entries [seen]. *)
Record match_inv (link : Link) (seen : list (string * InterfaceConfig))
    (match_ : InterfaceConfig) (exactMatch found : bool) : Prop := {
  mi_address : ∀ e, e ∈ seen → selection_of link e ≠ Ok ByAddress;
  mi_exact : exactMatch = true → ∃ e w, e ∈ seen ∧ match_ = conf_of e ∧
    selection_of link e = Ok (ByName w true);
  mi_not_exact : exactMatch = false → ∀ e w, e ∈ seen → selection_of link e ≠ Ok (ByName w true);
  mi_found : exactMatch = false → found = true → ∃ e, e ∈ seen ∧ match_ = conf_of e ∧
    selection_of link e = Ok (ByName true false);
  mi_not_found : exactMatch = false → found = false → match_ = zero_InterfaceConfig ∧
    ∀ e, e ∈ seen → selection_of link e ≠ Ok (ByName true false);
}.

(** The same in terms of [select]. *)
Definition best_selection (link : Link) (l : list (string * InterfaceConfig)) (c : InterfaceConfig)
    (found : bool) : Prop :=
  let chosen s := ∃ e, e ∈ l ∧ c = conf_of e ∧ selection_of link e = Ok s in
  let absent s := ∀ e, e ∈ l → selection_of link e ≠ Ok s in
  (found = true ∧ chosen ByAddress) ∨
  absent ByAddress ∧
    ((found = true ∧ ∃ w, chosen (ByName w true)) ∨
     (∀ w, absent (ByName w true)) ∧
       ((found = true ∧ chosen (ByName true false)) ∨
        absent (ByName true false) ∧ found = false ∧ c = zero_InterfaceConfig)).

Lemma match_inv_best link l c exact found :
  match_inv link l c exact found → best_selection link l c (exact || found).
Proof using Glob.
  intros [Ha He Hne Hf Hnf]. right. split; [done|]. destruct exact; simpl.
  - left. split; [done|]. destruct (He eq_refl) as (e & w & ?). exists w. by exists e.
  - right. split; [intros w e; by apply Hne|]. destruct found.
    + left. split; [done|]. destruct (Hf eq_refl eq_refl) as (e & ?). by exists e.
    + right. destruct (Hnf eq_refl eq_refl). done.
Qed.

(** One more entry that is not chosen by its address. *)
Lemma match_inv_skip link seen c exact found e :
  match_inv link seen c exact found → selection_of link e = Ok Skip →
  match_inv link (seen ++ [e]) c exact found.
Proof using Glob.
  intros [Ha He Hne Hf Hnf] Hs. split.
  - intros e' [?|He']%elem_of_app; [auto|apply list_elem_of_singleton in He' as ->; congruence].
  - intros H. destruct (He H) as (e' & w & ? & ?). exists e', w. split; [|done].
    apply elem_of_app. by left.
  - intros H e' w [?|He']%elem_of_app; [auto|apply list_elem_of_singleton in He' as ->; congruence].
  - intros H1 H2. destruct (Hf H1 H2) as (e' & ? & ?). exists e'. split; [|done].
    apply elem_of_app. by left.
  - intros H1 H2. destruct (Hnf H1 H2) as (? & Hn). split; [done|].
    intros e' [?|He']%elem_of_app; [auto|apply list_elem_of_singleton in He' as ->; congruence].
Qed.

Lemma match_inv_name link seen c exact found e w x :
  match_inv link seen c exact found → selection_of link e = Ok (ByName w x) →
  match_inv link (seen ++ [e]) (if negb exact && w || x then conf_of e else c)
    (exact || x) (found || negb exact && w).
Proof using Glob.
  intros [Ha He Hne Hf Hnf] Hs.
  assert (e ∈ (seen ++ [e])%list) by set_solver.
  split.
  - intros e' [?|He']%elem_of_app; [auto|apply list_elem_of_singleton in He' as ->; congruence].
  - intros H'. destruct x.
    + exists e, w. rewrite orb_true_r. done.
    + rewrite orb_false_r in *. subst exact. simpl.
      destruct (He eq_refl) as (e' & w' & ? & ?). exists e', w'. split; [|done]. set_solver.
  - intros [-> ->]%orb_false_iff e' w' [?|He']%elem_of_app;
      [by apply Hne|apply list_elem_of_singleton in He' as ->; congruence].
  - intros [-> ->]%orb_false_iff H'. simpl in *. destruct w; simpl in *.
    + by exists e.
    + rewrite orb_false_r in H'. destruct (Hf eq_refl H') as (e' & ? & ?).
      exists e'. split; [|done]. set_solver.
  - intros [-> ->]%orb_false_iff [-> Hw]%orb_false_iff. simpl in *. subst w.
    destruct (Hnf eq_refl eq_refl) as [-> Hn]. split; [done|].
    intros e' [?|He']%elem_of_app; [auto|apply list_elem_of_singleton in He' as ->; congruence].
Qed.

Lemma best_selection_best link l c found : best_selection link l c found → best link l c found.
Proof using Glob.
  clear shlex_Split ParseAddr.
  assert (∀ e, selection_of link e = Ok ByAddress ↔ by_mac link e) as Hmac.
  { intros e. pose proof (selection_of_spec link e). destruct (selection_of link e) as [[| |w x]| |]; naive_solver. }
  assert (∀ e w x, selection_of link e = Ok (ByName w x) →
            nameable e ∧ w = Glob (selector e) (Name link) ∧
            x = String.eqb (selector e) (Name link)) as Hsel.
  { intros e w x He. pose proof (selection_of_spec link e). rewrite He in *. naive_solver. }
  assert (∀ e, nameable e → ¬ by_mac link e → selection_of link e =
            Ok (ByName (Glob (selector e) (Name link)) (String.eqb (selector e) (Name link)))) as Hn.
  { intros e ? Hno. pose proof (selection_of_spec link e).
    destruct (selection_of link e) as [[| |w x]| |]; naive_solver. }
  unfold best_selection, best. cbv zeta. intros [[Hf (e & He & -> & Hs)]|[Ha Hrest]].
  { left. split; [done|]. exists e. split; [done|]. split; [by apply Hmac|apply conf_of_given]. }
  right. split; [intros e He Hm; by apply (Ha e He), Hmac|].
  assert (∀ e, e ∈ l → ¬ by_mac link e) as Hno by (intros e He Hm; by apply (Ha e He), Hmac).
  destruct Hrest as [[Hf (w & e & He & -> & Hs)]|[Hx Hrest]].
  { left. split; [done|]. exists e. destruct (Hsel _ _ _ Hs) as (? & _ & Hx).
    split; [done|]. split; [|apply conf_of_given]. split; [done|]. by apply String.eqb_eq. }
  right. assert (∀ e, e ∈ l → ¬ by_name link e) as Hnn.
  { intros e He [Hna Hq]. apply (Hx (Glob (selector e) (Name link)) e He).
    rewrite (Hn e Hna (Hno e He)). by rewrite (proj2 (String.eqb_eq _ _) Hq). }
  split; [done|]. destruct Hrest as [[Hf (e & He & -> & Hs)]|(Hw & -> & ->)].
  - left. split; [done|]. exists e. destruct (Hsel _ _ _ Hs) as (? & Hw & _).
    split; [done|]. split; [by split|apply conf_of_given].
  - right. split_and!; [|done..]. intros e He [Hna Hg]. apply (Hw e He).
    rewrite (Hn e Hna (Hno e He)), Hg. destruct (String.eqb_spec (selector e) (Name link)) as [Hq|]; [|done].
    by destruct (Hnn e He).
Qed.

(** The loop ends with the best of the entries, or at the one selector it
    cannot slice. *)
Lemma find_match_best_selection link order : ∀ seen c exact found,
  match_inv link seen c exact found →
  match find_match link order c exact found with
  | Ok (c', found') => best_selection link (seen ++ order)%list c' found'
  | _ => ∃ e, e ∈ order ∧ selector e = "mac"
  end.
Proof using Glob.
  clear shlex_Split ParseAddr.
  induction order as [|[key netConf] order IH]; intros seen c exact found Hinv; cbn [find_match].
  - rewrite app_nil_r. by apply match_inv_best.
  - rewrite (cons_middle (key, netConf) seen order), app_assoc.
    change (select link (with_match key netConf)) with (selection_of link (key, netConf)).
    destruct (selection_of link (key, netConf)) as [s|err|err] eqn:Hs.
    2,3: pose proof (selection_of_spec link (key, netConf)) as Hspec; rewrite Hs in Hspec;
         exists (key, netConf); split; [by left|apply Hspec].
    unfold mbind, result_bind. cbv zeta.
    assert (∀ seen' c' exact' found', match_inv link seen' c' exact' found' →
      match find_match link order c' exact' found' with
      | Ok (c'', found'') => best_selection link (seen' ++ order)%list c'' found''
      | _ => ∃ e, e ∈ (key, netConf) :: order ∧ selector e = "mac"
      end) as IH'.
    { intros seen' c' exact' found' Hinv'. specialize (IH _ _ _ _ Hinv').
      destruct (find_match _ _ _ _ _) as [[]| |]; [done|set_solver..]. }
    destruct s as [| |w x].
    + apply IH'. by apply match_inv_skip.
    + left. split; [done|]. exists (key, netConf). split; [set_solver|done].
    + apply IH'. pose proof (match_inv_name link seen c exact found (key, netConf) w x Hinv Hs). done.
Qed.

Lemma findMatch_in_order_best link order :
  match findMatch_in_order link order with
  | Ok (c, found) => best link order c found
  | _ => ∃ e, e ∈ order ∧ selector e = "mac"
  end.
Proof using Glob.
  clear shlex_Split ParseAddr. pose proof (find_match_best_selection link order [] zero_InterfaceConfig false false) as H.
  unfold findMatch_in_order. destruct (find_match _ _ _ _ _) as [[c found]| |].
  - apply best_selection_best. apply H. split; [|done|..]; set_solver.
  - apply H. split; [|done|..]; set_solver.
  - apply H. split; [|done|..]; set_solver.
Qed.

Lemma best_given link l c : best link l c true → ∃ e, e ∈ l ∧ c = given e.
Proof using Glob. clear shlex_Split ParseAddr. unfold best. cbv zeta. naive_solver. Qed.

(** ** Lemmas: commands *)

(** What a configured command runs. *)
Definition cmd_argv (iface cmd : string) : option (list string) :=
  if String.eqb (TrimSpace cmd) "" then None
  else let '(args, err) := shlex_Split (Replace (TrimSpace cmd) "$iface" iface) in
       if err : bool then None else Some args.

(** The calls of a list of commands. *)
Definition execs (iface : string) (cmds : list string) : list net_call :=
  Exec <$> omap (cmd_argv iface) cmds.

(** No command lexes to no words at all (a comment does). *)
Definition runnable (iface : string) (cmds : list string) : Prop :=
  Forall (λ cmd, cmd_argv iface cmd ≠ Some []) cmds.

Lemma wp_run_cmd iface cmd :
  cmd_argv iface cmd ≠ Some [] →
  wp (run_cmd iface cmd) (λ t r, t = execs iface [cmd] ∧ r = Ok ()).
Proof.
  unfold run_cmd, execs, cmd_argv. cbv zeta. simpl.
  destruct (String.eqb (TrimSpace cmd) ""); [done|].
  destruct (shlex_Split _) as [[|a args] []]; simpl; done.
Qed.

Lemma wp_runCmds iface cmds :
  runnable iface cmds → wp (runCmds cmds iface) (λ t r, t = execs iface cmds ∧ r = Ok ()).
Proof.
  unfold runCmds. induction 1 as [|cmd cmds Hc _ IH]; [done|]. cbn [each].
  apply wp_bind. eapply wp_mono, wp_run_cmd; [|done]. intros t ? [-> ->].
  eapply wp_mono, IH. intros t' r' [-> ->]. split; [|done].
  unfold execs. simpl. destruct (cmd_argv iface cmd); [|done].
  by rewrite <-fmap_app.
Qed.

(** A body between its commands: the last ones run whatever happens in between. *)
Lemma wp_bracket {A} iface pre post (p : Net A) :
  runnable iface pre → runnable iface post →
  wp (_ ← runCmds pre iface; defer_call (runCmds post iface) p)
    (λ t _, ∃ mid, t = execs iface pre ++ mid ++ execs iface post)%list.
Proof.
  intros Hpre Hpost. apply wp_bind. eapply wp_mono, wp_runCmds; [|done]. intros t r [-> ->].
  apply wp_defer. eapply wp_mono; [|apply (wp_true p)]. intros mid r' _.
  eapply wp_mono, wp_runCmds; [|done]. intros ? ? [-> ->]. eauto.
Qed.
End Netconf.

(** ** Lemmas: bonds *)

(** What is written to a file: a bond is created or a slave is moved, or it is an
    option of a bond of the configuration, whose mode (if it has one) was written
    before, in [done] or in the calls themselves. *)
Definition good_write (ifaces : interfaces) (before : list net_call) (path data : string) : Prop :=
  path = bondingMasters ∨ (∃ b, path = slaves_file b) ∨
  ∃ b k c, path = opt_file b k ∧ ifaces !! b = Some c ∧ BondOpts c !! k = Some data ∧
    (k = MODE ∨ ∀ m, BondOpts c !! MODE = Some m → WriteFile (opt_file b MODE) m ∈ before).

Definition mode_first (ifaces : interfaces) (done_ t : list net_call) : Prop :=
  ∀ pre path data post, t = (pre ++ WriteFile path data :: post)%list →
    good_write ifaces (done_ ++ pre)%list path data.

Lemma good_write_mono ifaces before before' path data :
  before ⊆ before' → good_write ifaces before path data → good_write ifaces before' path data.
Proof.
  intros Hsub [?|[?|(b & k & c & ? & ? & ? & Hm)]]; [by left|by right; left|].
  right; right. exists b, k, c. split_and!; [done..|]. destruct Hm as [?|Hm]; [by left|right; auto].
Qed.

Lemma mode_first_nil ifaces done_ : mode_first ifaces done_ [].
Proof. intros pre path data post E. by destruct pre. Qed.

Lemma mode_first_app ifaces done_ t t' :
  mode_first ifaces done_ t → mode_first ifaces (done_ ++ t) t' → mode_first ifaces done_ (t ++ t').
Proof.
  intros H H' pre path data post E. apply app_eq_inv in E as [(k & -> & E)|(k & E & ->)].
  - destruct k as [|c k]; simplify_eq/=.
    + specialize (H' [] path data post eq_refl). by rewrite !app_nil_r in *.
    + by apply (H pre path data k).
  - subst pre. specialize (H' k path data post eq_refl). by rewrite <-app_assoc in H'.
Qed.

Lemma mode_first_weaken ifaces done_ done' t :
  done_ ⊆ done' → mode_first ifaces done_ t → mode_first ifaces done' t.
Proof.
  intros Hsub H pre path data post E. eapply good_write_mono, H, E. set_solver.
Qed.

(** Composition of loops and of sequences. *)
Lemma mode_first_app' ifaces done_ t t' :
  mode_first ifaces done_ t → mode_first ifaces done_ t' → mode_first ifaces done_ (t ++ t').
Proof.
  intros. apply mode_first_app; [done|]. eapply mode_first_weaken; [|done]. set_solver.
Qed.

Lemma mode_first_bind {A B} ifaces done_ (p : Net A) (f : A → Net B) :
  wp p (λ t _, mode_first ifaces done_ t) → (∀ a, wp (f a) (λ t _, mode_first ifaces done_ t)) →
  wp (p ≫= f) (λ t _, mode_first ifaces done_ t).
Proof.
  intros Hp Hf. apply wp_bind. eapply wp_mono, Hp. intros t [a|e|e] Ht; [|done..].
  eapply wp_mono, Hf. intros. by apply mode_first_app'.
Qed.

Lemma mode_first_invoke ifaces done_ c :
  (∀ path data, c ≠ WriteFile path data) → wp (invoke c : Net (net_ans c)) (λ t _, mode_first ifaces done_ t).
Proof.
  intros Hc x pre path data post E. destruct pre as [|? [|? ?]]; simplify_eq/=.
  by destruct (Hc path data).
Qed.

Lemma mode_first_write ifaces done_ path data :
  good_write ifaces done_ path data → wp (write path data) (λ t _, mode_first ifaces done_ t).
Proof.
  intros Hg. unfold write. apply wp_bind. intros ok. simpl.
  assert (mode_first ifaces done_ [WriteFile path data]).
  { intros pre path' data' post E. destruct pre as [|? [|? ?]]; simplify_eq/=.
    by rewrite app_nil_r. }
  by destruct ok.
Qed.

Lemma mode_first_done {A} ifaces done_ (r : result A) :
  wp (Done r : Net A) (λ t _, mode_first ifaces done_ t).
Proof. apply mode_first_nil. Qed.

Lemma mode_first_ignore {A} ifaces done_ (p : Net A) :
  wp p (λ t _, mode_first ifaces done_ t) → wp (ignore p) (λ t _, mode_first ifaces done_ t).
Proof. intros H. apply wp_ignore. eapply wp_mono, H. by intros t [?|?|?] ?. Qed.

Lemma mode_first_attempt {A} ifaces done_ (p : Net A) :
  wp p (λ t _, mode_first ifaces done_ t) → wp (attempt p) (λ t _, mode_first ifaces done_ t).
Proof. intros H. apply wp_attempt. eapply wp_mono, H. by intros t [?|?|?] ?. Qed.

Lemma mode_first_each {A} ifaces done_ (f : A → Net ()) l :
  (∀ x, x ∈ l → wp (f x) (λ t _, mode_first ifaces done_ t)) →
  wp (each f l) (λ t _, mode_first ifaces done_ t).
Proof.
  intros H. apply wp_each; [apply mode_first_nil|by intros; apply mode_first_app'|done].
Qed.
#[export] Hint Resolve mode_first_nil mode_first_done mode_first_ignore mode_first_attempt : burmilla.

(** Reading and moving slaves writes no option. *)
Lemma mode_first_contains ifaces done_ file word :
  wp (contains file word) (λ t _, mode_first ifaces done_ t).
Proof.
  apply mode_first_bind; [by apply mode_first_invoke|]. intros [?|]; apply mode_first_done.
Qed.

Lemma mode_first_wait ifaces done_ n : wp (wait_for_bonding n) (λ t _, mode_first ifaces done_ t).
Proof.
  induction n as [|n IH]; [apply mode_first_done|].
  apply mode_first_bind; [by apply mode_first_invoke|]. intros [| |]; [apply mode_first_done|..].
  all: apply mode_first_bind; [by apply mode_first_invoke|done].
Qed.

Lemma mode_first_NewBond ifaces done_ name : wp (NewBond name) (λ t _, mode_first ifaces done_ t).
Proof.
  apply mode_first_bind.
  - apply mode_first_bind; [by apply mode_first_invoke|]. intros st.
    apply mode_first_bind.
    + destruct st; [apply mode_first_done| |apply mode_first_done].
      apply mode_first_bind; [by apply mode_first_invoke|].
      intros [|]; [apply mode_first_done|apply mode_first_wait].
    + intros _. apply mode_first_bind; [by apply mode_first_invoke|].
      intros [| |]; apply mode_first_done.
  - intros _. apply mode_first_bind; [apply mode_first_contains|].
    intros [|]; [apply mode_first_done|]. apply mode_first_write. by left.
Qed.

Lemma mode_first_RemoveSlave ifaces done_ bond slave :
  wp (RemoveSlave bond slave) (λ t _, mode_first ifaces done_ t).
Proof.
  apply mode_first_bind; [apply mode_first_contains|]. intros [|]; [|apply mode_first_done].
  apply mode_first_write. right; left. by exists bond.
Qed.

(** What [Opt] does before it writes the mode: the bond is taken down and emptied. *)
Definition prepare (bond key : string) : Net () :=
  if String.eqb key "mode" then
    _ ← ignore (linkDown bond);
    slaves ← attempt (ListSlaves bond);
    each (λ s, ignore (RemoveSlave bond s)) (match slaves with Ok l => l | _ => [] end)
  else mret ().

Lemma mode_first_prepare ifaces done_ bond key :
  wp (prepare bond key) (λ t _, mode_first ifaces done_ t).
Proof.
  unfold prepare. destruct (String.eqb _ _); [|apply mode_first_done].
  apply mode_first_bind.
  - apply mode_first_ignore, mode_first_bind; [by apply mode_first_invoke|]. intros [link|]; [|apply mode_first_done].
    apply mode_first_bind; [by apply mode_first_invoke|]. intros [|]; apply mode_first_done.
  - intros _. apply mode_first_bind.
    + apply mode_first_attempt, mode_first_bind; [by apply mode_first_invoke|].
      intros [?|]; apply mode_first_done.
    + intros slaves. apply mode_first_each. intros s _.
      apply mode_first_ignore, mode_first_RemoveSlave.
Qed.

Lemma prepare_no_error bond key : wp (prepare bond key) (λ _, no_error).
Proof.
  unfold prepare. destruct (String.eqb _ _); [|by intros e].
  apply no_error_bind; [apply no_error_ignore|]. intros _.
  apply no_error_bind; [apply no_error_attempt|]. intros slaves.
  apply no_error_each. intros s. apply no_error_ignore.
Qed.

Lemma mode_first_Opt ifaces done_ bond key value :
  good_write ifaces done_ (opt_file bond key) value →
  wp (Opt bond key value) (λ t _, mode_first ifaces done_ t).
Proof.
  intros Hg. apply (mode_first_bind _ _ (prepare bond key)); [apply mode_first_prepare|].
  intros _. by apply mode_first_write.
Qed.

(** The mode is written before the call returns. *)
Lemma Opt_writes bond key value :
  wp (Opt bond key value) (λ t r, is_panic r = false → WriteFile (opt_file bond key) value ∈ t).
Proof.
  apply (wp_bind (prepare bond key)). eapply wp_mono, (prepare_no_error bond key).
  intros t [[]|e|e] H; [|by destruct (H e)|done].
  unfold write. apply wp_bind. intros ok. simpl. destruct ok; intros _; set_solver.
Qed.

Lemma mode_first_set_bond_opts ifaces done_ bond c :
  ifaces !! bond = Some c →
  wp (set_bond_opts bond (BondOpts c)) (λ t _, mode_first ifaces done_ t).
Proof.
  intros Hc. unfold set_bond_opts. apply wp_bind.
  assert (wp (match BondOpts c !! MODE with Some v => ignore (Opt bond MODE v) | None => mret () end)
    (λ t r, mode_first ifaces done_ t ∧ (is_panic r = false →
       ∀ m, BondOpts c !! MODE = Some m → WriteFile (opt_file bond MODE) m ∈ t))) as Hmode.
  { destruct (BondOpts c !! MODE) as [v|] eqn:Hv; [|by split; [apply mode_first_nil|]].
    apply wp_and.
    - apply mode_first_ignore, mode_first_Opt. right; right. exists bond, MODE, c. auto.
    - apply wp_ignore. eapply wp_mono, Opt_writes. intros t [[]|e|e] H; try done.
      all: intros _ m [= <-]; by apply H. }
  eapply wp_mono, Hmode. intros t [[]|e|e] [Ht Hin]; [|done..].
  specialize (Hin eq_refl).
  eapply wp_mono; [intros t' r Ht'; apply mode_first_app; [exact Ht|exact Ht']|].
  apply (mode_first_bind _ _ (invoke (RangeOpts (BondOpts c)))); [by apply mode_first_invoke|].
  intros [order Horder]. simpl. apply mode_first_each. intros [k v] Hkv. simpl.
  destruct (String.eqb k MODE); [apply mode_first_done|].
  apply mode_first_ignore, mode_first_Opt. right; right. exists bond, k, c.
  split_and!; [done..|by apply (enumerates_elem _ _ _ _ Horder)|]. right. intros m Hm.
  apply elem_of_app. right. auto.
Qed.

Lemma mode_first_LinkByName_then ifaces done_ {A} name (f : option Link → Net A) :
  (∀ l, wp (f l) (λ t _, mode_first ifaces done_ t)) →
  wp (l ← invoke (LinkByName name); f l) (λ t _, mode_first ifaces done_ t).
Proof. intros. apply (mode_first_bind _ _ (invoke (LinkByName name))); [by apply mode_first_invoke|done]. Qed.

Lemma mode_first_NewBridge ifaces done_ name :
  wp (NewBridge name) (λ t _, mode_first ifaces done_ t).
Proof.
  apply mode_first_LinkByName_then. intros [l|].
  - unfold check. destruct (is_bridge l); apply mode_first_done.
  - apply (mode_first_bind _ _ (invoke (LinkAddBridge name))); [by apply mode_first_invoke|].
    intros [|]; apply mode_first_done.
Qed.

Lemma mode_first_create netCfg order : ∀ configured done_,
  wp (create_interfaces netCfg order configured) (λ t _, mode_first (Interfaces netCfg) done_ t).
Proof.
  induction order as [|[name iface] order IH]; intros configured done_; [apply mode_first_done|].
  cbn [create_interfaces].
  destruct (String.eqb _ "true").
  { apply mode_first_bind; [apply mode_first_ignore, mode_first_NewBridge|auto]. }
  destruct (negb _).
  { apply mode_first_bind; [apply mode_first_ignore, mode_first_NewBridge|auto]. }
  destruct (negb _); [|auto].
  apply mode_first_bind; [apply mode_first_attempt, mode_first_NewBond|]. intros [[]|e|e]; [|auto..].
  destruct (bool_decide _); [auto|]. destruct (Interfaces netCfg !! Bond iface) as [c|] eqn:Hc; [|auto].
  apply mode_first_bind; [by apply mode_first_set_bond_opts|auto].
Qed.

(** C18: Of all the entries that apply to a link, [findMatch] gives it the best in
    every order of visiting the configuration: one that selects the link by its
    hardware address before one with its exact name before a wildcard, and the
    empty configuration exactly when no entry applies. The one selector that
    breaks this is the text "mac", which is sliced out of range. *)
Theorem findMatch_best (Glob : string → string → bool) (link : Link) (netCfg : NetworkConfig) :
  (∀ key netConf, Interfaces netCfg !! key = Some netConf → selector (key, netConf) ≠ "mac") →
  wp (findMatch Glob link netCfg) (λ t r,
    ∃ l c found, enumerates l (Interfaces netCfg) ∧ r = Ok (c, found) ∧ best Glob link l c found).
Proof.
  intros Hm order. simpl. destruct order as [l Hl]. simpl.
  pose proof (findMatch_in_order_best Glob link l) as Hb.
  destruct (findMatch_in_order Glob link l) as [[c found]|err|err].
  - exists l, c, found. done.
  - destruct Hb as ([key netConf] & He & Hs). exfalso. apply (Hm key netConf); [|done].
    by apply (enumerates_elem _ _ _ _ Hl).
  - destruct Hb as ([key netConf] & He & Hs). exfalso. apply (Hm key netConf); [|done].
    by apply (enumerates_elem _ _ _ _ Hl).
Qed.

(** C19: The commands around a configuration are run in order and frame everything
    else: the network's own before the first link is made and after the last one
    is configured. And around the configuration of a link, which comes after
    the look-up of its entry, those of the entry that is best for it: PreUp
    before, PostUp after. A link without an entry runs nothing, nor does one
    whose look-up panics at the selector "mac". The ones at the end run even
    when the links cannot be listed, a step fails or panics. *)
Theorem ApplyNetworkConfigs_brackets Glob shlex_Split ParseAddr fuel netCfg userSetHostname userSetDNS :
  runnable shlex_Split "" (PreCmds netCfg) → runnable shlex_Split "" (PostCmds netCfg) →
  wp (ApplyNetworkConfigs Glob shlex_Split ParseAddr fuel netCfg userSetHostname userSetDNS)
    (λ t _, ∃ mid, t = execs shlex_Split "" (PreCmds netCfg) ++ mid ++
                       execs shlex_Split "" (PostCmds netCfg))%list ∧
  ∀ link, (∀ key m, Interfaces netCfg !! key = Some m →
             runnable shlex_Split (Name link) (PreUp m) ∧
             runnable shlex_Split (Name link) (PostUp m)) →
    wp (applyOuter Glob shlex_Split ParseAddr fuel netCfg userSetHostname userSetDNS link)
      (λ t _, ∃ l, enumerates l (Interfaces netCfg) ∧
         ((∃ m mid, best Glob link l m true ∧
             t = Range (Interfaces netCfg) :: execs shlex_Split (Name link) (PreUp m) ++ mid ++
                   execs shlex_Split (Name link) (PostUp m)) ∨
          (t = [Range (Interfaces netCfg)] ∧
           (best Glob link l zero_InterfaceConfig false ∨ ∃ e, e ∈ l ∧ selector e = "mac"))))%list.
Proof.
  intros Hpre Hpost. split; [by apply wp_bracket|]. intros link Hup. unfold applyOuter.
  intros order. simpl. destruct order as [l Hl]. simpl. unfold mbind, prog_mbind.
  pose proof (findMatch_in_order_best Glob link l) as Hb.
  destruct (findMatch_in_order Glob link l) as [[m found]|e|e]; simpl;
    [|exists l; split; [done|]; right; split; [done|]; by right..].
  destruct found; simpl.
  2: { exists l. split; [done|]. right. split; [done|]. left.
       enough (m = zero_InterfaceConfig) as <- by done. revert Hb. unfold best. cbv zeta. naive_solver. }
  assert (runnable shlex_Split (Name link) (PreUp m) ∧
          runnable shlex_Split (Name link) (PostUp m)) as [Hu Hd].
  { destruct (best_given _ _ _ _ Hb) as ([key c] & He & ->).
    apply (enumerates_elem _ _ _ _ Hl) in He. apply (Hup key c He). }
  eapply wp_mono; [|apply (wp_bracket _ _ _ _ _ Hu Hd)]. intros t _ [mid ->].
  exists l. split; [done|]. left. by exists m, mid.
Qed.

(** When the interfaces of a configuration are made, the only files written are
    the list of bonds, the slaves of a bond and the options that the configuration
    gives a bond, with their configured values; and no option of a bond is
    written before its mode, in whichever orders the interfaces and the options
    are visited and whatever fails. *)
Theorem createInterfaces_mode_first (netCfg : NetworkConfig) :
  wp (createInterfaces netCfg) (λ t _, ∀ pre path data post,
    t = (pre ++ WriteFile path data :: post)%list →
    path = bondingMasters ∨ (∃ b, path = slaves_file b) ∨
    ∃ b k c, path = opt_file b k ∧ Interfaces netCfg !! b = Some c ∧
      BondOpts c !! k = Some data ∧
      (k = MODE ∨ ∀ m, BondOpts c !! MODE = Some m → WriteFile (opt_file b MODE) m ∈ pre)).
Proof.
  apply (mode_first_bind (Interfaces netCfg) [] (invoke (Range (Interfaces netCfg))));
    [by apply mode_first_invoke|].
  intros [order Horder]. apply mode_first_create.
Qed.

(** *** A concrete surrounding *)

(** A glob with at most one star, at the end. *)
Definition example_Glob (pattern subj : string) : bool :=
  if HasSuffix pattern "*" then HasPrefix subj (TrimSuffix pattern "*") else String.eqb pattern subj.

(** Words between blanks; a comment has none. *)
Definition example_shlex (s : string) : list string * bool :=
  (if HasPrefix s "#" then [] else Fields s, false).

Definition example_addr (s : string) : option Addr :=
  if String.eqb s "" then None else Some {| IPNet := s; Label := "" |}.

Definition example_iface (match_ bond : string) : InterfaceConfig := {|
  Match := match_; DHCP := true; DHCPArgs := ""; Address := ""; Addresses := []; IPV4LL := false;
  Gateway := ""; GatewayIpv6 := ""; MTU := 0; Bridge := ""; Bond := bond; BondOpts := ∅;
  PostUp := ["echo $iface up"]; PreUp := []; Vlans := ""; WifiNetwork := "" |}.

Definition example_link (name type : string) (mac : string) : Link := {|
  Name := name; Index := 2; MasterIndex := 0;
  HardwareAddr := default [] (ParseMAC mac); Type_ := type |}.

(** The cases of [TestFindMatch]. *)
Example TestFindMatch :
  let test match_ mac name bond :=
    snd <$> findMatch_in_order example_Glob (example_link name "" mac)
              [(name, example_iface match_ bond)] in
  test "mac:aa:bb:cc:dd:ee:ff" "aa:bb:cc:dd:ee:ff" "eth0" "bond0" = Ok true ∧
  test "mac:aa:bb:cc:*" "aa:bb:cc:12:34:56" "eth0" "bond0" = Ok true ∧
  test "mac:aa:bb:cc:*" "11:bb:cc:dd:ee:ff" "eth0" "bond0" = Ok false ∧
  test "mac:aa:bb:cc:dd:ee:ff" "aa:bb:cc:dd:ee:11" "eth0" "bond0" = Ok false ∧
  test "mac:aa:bb:*" "aa:bb:cc:dd:ee:11" "bond0" "bond0" = Ok false.
Proof. by vm_compute. Qed.

(** An interface whose name begins with "mac" is never configured by its name,
    and one whose selector is "mac" stops the program. *)
Example macvlan_not_matched :
  let link := example_link "macvlan0" "macvlan" "aa:bb:cc:dd:ee:ff" in
  findMatch_in_order example_Glob link [("macvlan0", example_iface "" "")] =
    Ok (zero_InterfaceConfig, false) ∧
  findMatch_in_order example_Glob link [("mac", example_iface "" "")] =
    Panic "slice bounds out of range".
Proof. by vm_compute. Qed.

Definition example_netcfg : NetworkConfig := {|
  PreCmds := ["modprobe dummy"]; DHCPTimeout := 10;
  Interfaces := {[ "eth*" := example_iface "" ""; "eth0" := example_iface "" "" ]};
  PostCmds := ["echo done"]; WifiNetworks := ∅ |}.

Lemma findMatch_best_witness :
  (∀ key netConf, Interfaces example_netcfg !! key = Some netConf →
    selector (key, netConf) ≠ "mac") ∧
  wp (findMatch example_Glob (example_link "eth0" "device" "aa:bb:cc:dd:ee:ff") example_netcfg)
    (λ t r, ∃ l c found, enumerates l (Interfaces example_netcfg) ∧ r = Ok (c, found) ∧
       best example_Glob (example_link "eth0" "device" "aa:bb:cc:dd:ee:ff") l c found).
Proof.
  assert (H : ∀ key netConf, Interfaces example_netcfg !! key = Some netConf →
    selector (key, netConf) ≠ "mac").
  { intros key netConf. simpl. intros [[<- <-]|[_ Hk]]%lookup_insert_Some; [done|].
    apply lookup_singleton_Some in Hk as [<- <-]. done. }
  split; [exact H|]. exact (findMatch_best example_Glob _ example_netcfg H).
Defined.

Lemma ApplyNetworkConfigs_brackets_witness :
  let eth0 := example_link "eth0" "device" "aa:bb:cc:dd:ee:ff" in
  runnable example_shlex "" (PreCmds example_netcfg) ∧
  wp (ApplyNetworkConfigs example_Glob example_shlex example_addr 100 example_netcfg false false)
    (λ t _, ∃ mid, t = [Exec ["modprobe"; "dummy"]] ++ mid ++ [Exec ["echo"; "done"]])%list ∧
  wp (applyOuter example_Glob example_shlex example_addr 100 example_netcfg false false eth0)
    (λ t _, ∃ l, enumerates l (Interfaces example_netcfg) ∧
       ((∃ m mid, best example_Glob eth0 l m true ∧
           t = Range (Interfaces example_netcfg) :: execs example_shlex "eth0" (PreUp m) ++ mid ++
                 execs example_shlex "eth0" (PostUp m)) ∨
        (t = [Range (Interfaces example_netcfg)] ∧
         (best example_Glob eth0 l zero_InterfaceConfig false ∨ ∃ e, e ∈ l ∧ selector e = "mac"))))%list.
Proof.
  intros eth0.
  assert (Hpre : runnable example_shlex "" (PreCmds example_netcfg)).
  { constructor; [by vm_compute|constructor]. }
  assert (Hpost : runnable example_shlex "" (PostCmds example_netcfg)).
  { constructor; [by vm_compute|constructor]. }
  assert (Hup : ∀ key m, Interfaces example_netcfg !! key = Some m →
    runnable example_shlex (Name eth0) (PreUp m) ∧ runnable example_shlex (Name eth0) (PostUp m)).
  { assert (runnable example_shlex "eth0" ["echo $iface up"]) as Hr
      by (constructor; [by vm_compute|constructor]).
    intros key m. simpl. intros [[<- <-]|[_ Hk]]%lookup_insert_Some; [by split; [constructor|]|].
    apply lookup_singleton_Some in Hk as [<- <-]. by split; [constructor|]. }
  split; [exact Hpre|].
  destruct (ApplyNetworkConfigs_brackets example_Glob example_shlex example_addr 100
    example_netcfg false false Hpre Hpost) as [Hall Hlink].
  split; [exact Hall|exact (Hlink eth0 Hup)].
Defined.
