(* ===== verification/NetCache.v ===== *)
(** * Resources loaded from the network, with a cache
    ([pkg/util/network/network.go], [cache.go], [route.go])

    The files are those of [FS]; the routes file, the HTTP client and the YAML
    decoder are parameters. *)

From stdpp Require Import prelude gmap strings list.
From S2P Require Import Prelude GoStrings FS Interpolation.

Local Open Scope string_scope.

(** A Go error that the caller looks at. *)
Definition attempt_io {A} (m : IO A) : IO (result A) := λ w,
  match m w with
  | (Panic e, w) => (Panic e, w)
  | (r, w) => (Ok r, w)
  end.

(** An error that is dropped. *)
Definition ignore_io {A} (m : IO A) : IO () := _ ← attempt_io m; mret ().

(** A loop that goes on whatever its body returns. *)
Fixpoint each_io {A} (f : A → IO ()) (l : list A) : IO () :=
  match l with
  | [] => mret ()
  | x :: l => _ ← f x; each_io f l
  end.

(** ** Routes ([route.go]) *)

Definition ipv4DefaultGWFlags : string := "0003".
Definition ipv6DefaultGWFlags : string := "00450003".

(** The lines of a file that end in a newline. *)
Definition full_lines (content : string) : list string := removelast (Split content "010").

(** The loops of [checkIPv4GW] and [checkIPv6GW]. *)
Fixpoint gateway_line (header : option string) (flags : string) (lines : list string) : result bool :=
  match lines with
  | [] => Ok false
  | line :: lines =>
      if match header with Some h => HasPrefix line h | None => false end
      then gateway_line header flags lines
      else match Fields line !! 3%nat with
           | None => Panic "index out of range"
           | Some f => if String.eqb f flags then Ok true else gateway_line header flags lines
           end
  end.

(** [None]: the file cannot be opened. *)
Definition checkIPv4GW (file : option string) : result bool :=
  match file with
  | None => Ok false
  | Some content => gateway_line (Some "Iface") ipv4DefaultGWFlags (full_lines content)
  end.

Definition checkIPv6GW (file : option string) : result bool :=
  match file with
  | None => Ok false
  | Some content => gateway_line None ipv6DefaultGWFlags (full_lines content)
  end.

Definition checkAllDefaultGW (ipv4 ipv6 : option string) : result bool :=
  ok ← checkIPv4GW ipv4;
  if ok : bool then Ok true else checkIPv6GW ipv6.

(** [AllDefaultGWOK], on what the backoff's channel gives: each value with the
    two routes files at that time. A closed channel ends the loop without an
    error. *)
Fixpoint AllDefaultGWOK (ticks : list (bool * option string * option string)) : result () :=
  match ticks with
  | [] => Ok ()
  | (ok, ipv4, ipv6) :: ticks =>
      if negb ok then Err "Timeout waiting for the default gateway ready"
      else
        up ← checkAllDefaultGW ipv4 ipv6;
        if up : bool then Ok () else AllDefaultGWOK ticks
  end.

(** ** The cache ([cache.go]) *)

Definition cacheDirectory : string := "/var/lib/rancher/cache/".

Section Cache.
Context (temp_name : files → string → string → string).
(** The MD5 sum of a text in hexadecimal. *)
Context (locationHash : string → string).

Definition cache_file (location : string) : string := cacheDirectory +:+ locationHash location.

Definition cacheLookup (location : string) : IO (option string) :=
  r ← attempt_io (ReadFile (cache_file location));
  mret (match r with Ok bytes => Some bytes | _ => None end).

Definition cacheAdd (location data : string) : IO () :=
  ignore_io (
    tempFile ← TempFile temp_name cacheDirectory "";
    defer (Remove tempFile) (
      _ ← Write tempFile data;
      Rename tempFile (cache_file location))).

Definition cacheMove (location : string) : IO string :=
  let tempFile := cache_file location +:+ "_temp" in
  _ ← Rename (cache_file location) tempFile; mret tempFile.

Definition cacheMoveBack (name : string) : IO () := Rename name (TrimRight name "_temp").

(** ** Loading ([network.go]) *)

Definition ErrNoNetwork : string := "Networking not available to load resource".
Definition ErrNotFound : string := "Failed to find resource".

(** The default gateway check, [os.Setenv] and [config.Set], and the answer of
    the HTTP client. *)
Context (gateway : result ()).
Context (Setenv : string → string → IO ()) (SetConfig : string → string → IO ()).
Context (proxies : NetworkProxies).
Context (GetRetry : string → result string).

Definition set_proxy_env (name value : string) : IO () :=
  if String.eqb value "" then mret () else ignore_io (Setenv name value).

Definition set_proxy_config (lower upper value : string) : IO () :=
  if String.eqb value "" then mret ()
  else
    _ ← ignore_io (SetConfig ("rancher.environment." +:+ lower) value);
    ignore_io (SetConfig ("rancher.environment." +:+ upper) value).

Definition SetProxyEnvironmentVariables : IO () :=
  _ ← set_proxy_env "HTTP_PROXY" (HTTPProxy proxies);
  _ ← set_proxy_env "HTTPS_PROXY" (HTTPSProxy proxies);
  _ ← set_proxy_env "NO_PROXY" (NoProxy proxies);
  _ ← set_proxy_config "http_proxy" "HTTP_PROXY" (HTTPProxy proxies);
  _ ← set_proxy_config "https_proxy" "HTTPS_PROXY" (HTTPSProxy proxies);
  set_proxy_config "no_proxy" "NO_PROXY" (NoProxy proxies).

Definition LoadFromNetwork (location : string) : IO string :=
  _ ← lift gateway;
  _ ← SetProxyEnvironmentVariables;
  bytes ← lift (GetRetry location);
  _ ← cacheAdd location bytes;
  mret bytes.

Definition LoadFromNetworkWithCache (location : string) : IO string :=
  bytes ← cacheLookup location;
  match bytes with
  | Some bytes => mret bytes
  | None => LoadFromNetwork location
  end.

Definition is_url (location : string) : bool :=
  HasPrefix location "http:/" || HasPrefix location "https:/".

Definition LoadResource (location : string) (network : bool) : IO string :=
  if is_url location then
    if negb network then io_err ErrNoNetwork else LoadFromNetworkWithCache location
  else if HasPrefix location "/" then ReadFile location
  else io_err ErrNotFound.

(** [name[0:1]] is out of range for the empty name. *)
Definition serviceURL (url name : string) : result string :=
  match name with
  | "" => Panic "slice bounds out of range"
  | String c _ => Ok (url +:+ "/" +:+ String c "" +:+ "/" +:+ name +:+ ".yml")
  end.

(** The loop over the repositories, with the last error. *)
Fixpoint load_from_urls (urls : list string) (name : string) (useNetwork : bool) (err : string) :
    IO string :=
  match urls with
  | [] => io_err err
  | url :: urls =>
      u ← lift (serviceURL url name);
      r ← attempt_io (LoadResource u useNetwork);
      match r with
      | Ok bytes => mret bytes
      | Err e | Panic e => load_from_urls urls name useNetwork e
      end
  end.

Definition LoadServiceResource (name : string) (useNetwork : bool) (urls : list string) : IO string :=
  r ← attempt_io (LoadResource name useNetwork);
  match r with
  | Ok bytes => mret bytes
  | Err e | Panic e =>
      if String.eqb e ErrNoNetwork || negb useNetwork then io_err ErrNoNetwork
      else load_from_urls urls name useNetwork e
  end.

(** The YAML decoder, to lists of names by key. *)
Context (Unmarshal : string → option (gmap string (list string))).

Definition index_services (key url : string) : IO (list string) :=
  r ← attempt_io (LoadResource (url +:+ "/index.yml") true);
  match r with
  | Ok content =>
      mret (match Unmarshal content with
            | Some services => default [] (services !! key)
            | None => []
            end)
  | _ => mret []
  end.

Fixpoint getServices (urls : list string) (key : string) : IO (list string) :=
  match urls with
  | [] => mret []
  | url :: urls =>
      services ← index_services key url;
      rest ← getServices urls key;
      mret (services ++ rest)%list
  end.

Definition GetServices (urls : list string) : IO (list string) := getServices urls "services".
Definition GetConsoles (urls : list string) : IO (list string) := getServices urls "consoles".
Definition GetEngines (urls : list string) : IO (list string) := getServices urls "engines".

Definition UpdateCache (location : string) : IO string :=
  tempFile ← cacheMove location;
  content ← attempt_io (LoadResource location true);
  match content with
  | Ok content => _ ← Remove tempFile; mret content
  | _ => _ ← cacheMoveBack tempFile; ReadFile location
  end.

(** A service of the index; its error is dropped. *)
Definition update_service (url name : string) : IO () :=
  u ← lift (serviceURL url name); ignore_io (UpdateCache u).

Fixpoint UpdateCaches (urls : list string) (key : string) : IO () :=
  match urls with
  | [] => mret ()
  | url :: urls =>
      content ← UpdateCache (url +:+ "/index.yml");
      match Unmarshal content with
      | None => io_err "yaml"
      | Some services =>
          _ ← each_io (update_service url) (default [] (services !! key));
          UpdateCaches urls key
      end
  end.

(** ** Lemmas *)

(** The temporary file is new, empty and private. *)
Lemma triple_private_TempFile target old new dir prefix :
  (∀ fs, temp_name fs dir prefix ≠ target) →
  triple (old_or_new target old new) (untouched target old) (TempFile temp_name dir prefix)
    (post (λ tmp, prepared target old tmp (λ i, i_mode i = 384%Z ∧ i_owner i = "root"))
          (untouched target old)).
Proof.
  intros Hne. apply triple_syscall; [|by intros; split].
  intros fs dirs _ Hold. unfold old_or_new, untouched, prepared in *. simpl.
  specialize (Hne fs). rewrite !lookup_insert_ne by done. split; [by left|].
  split_and!; [done..|]. eexists. by rewrite lookup_insert_eq.
Qed.

Lemma triple_ignore_io {A} (I P : files → Prop) (m : IO A) (Q : result A → files → Prop) :
  triple I P m Q →
  triple I P (ignore_io m) (λ _ fs, ∃ r, Q r fs).
Proof.
  intros Hm w Hw Hh HP. destruct (Hm w Hw Hh HP) as (? & ? & ?).
  unfold ignore_io, mbind, IO_bind, attempt_io, mret, IO_ret.
  destruct (m w) as [[a|e|e] w']; simpl in *; eauto.
Qed.

Lemma triple_cacheAdd location data old :
  let target := cache_file location in
  (∀ fs, temp_name fs cacheDirectory "" ≠ target) →
  let new := {| i_content := data; i_mode := 384; i_owner := "root" |} in
  triple (old_or_new target old new) (untouched target old) (cacheAdd location data)
    (λ _, old_or_new target old new).
Proof.
  intros target Hne new.
  assert (triple (old_or_new target old new) (untouched target old)
    (tempFile ← TempFile temp_name cacheDirectory "";
     defer (Remove tempFile) (_ ← Write tempFile data; Rename tempFile target))
    (post (λ _ fs, fs !! target = Some new) (untouched target old))) as H.
  { eapply triple_bind; [by apply triple_private_TempFile|]. intros tmp w Hw Hh HP.
    assert (tmp ≠ target) as Htmp by apply HP. revert w Hw Hh HP.
    apply (triple_defer (old_or_new target old new)
      (prepared target old tmp (λ i, i_mode i = 384%Z ∧ i_owner i = "root")));
      [|intros r; by apply triple_Remove].
    next_call ltac:(apply (triple_on_temp target old new tmp _ (λ i, i = new));
      [|intros n fs; right; by eexists]).
    { intros i [Hm Ho]. unfold new. by rewrite Hm, Ho. }
    intros w Hw Hh HP.
    destruct (triple_Rename target old new tmp w Hw Hh HP) as (? & ? & Hpost).
    split_and!; [done..|]. unfold post in *.
    destruct (Rename tmp target w).1; [by destruct Hpost|done|done]. }
  intros w Hw Hh HP. destruct (triple_ignore_io _ _ _ _ H w Hw Hh HP) as (? & ? & r & Hr).
  split_and!; [done..|]. destruct r; simpl in Hr; [by right|by left..].
Qed.
End Cache.

(** ** Lemmas: without faults *)

Lemma TrimRight_app_all s t cutset :
  TrimRight t cutset = "" → TrimRight (s +:+ t) cutset = TrimRight s cutset.
Proof. intros Ht. induction s as [|c s IH]; simpl; [done|]. by rewrite IH. Qed.

Lemma TrimRight_prefix s cutset : HasPrefix s (TrimRight s cutset) = true.
Proof.
  apply HasPrefix_spec. induction s as [|c s [t IH]]; [by exists ""|]. simpl.
  destruct (TrimRight s cutset) as [|d r].
  - case_match; [by exists (String c s)|]. exists s. done.
  - exists t. simpl in *. congruence.
Qed.

Lemma app_suffix_ne s c t : s ≠ s +:+ String c t.
Proof. intros E. apply (f_equal String.length) in E. rewrite length_app_s in E. simpl in E. lia. Qed.

(** A system call that does not fail. *)
Lemma syscall_run {A} msg (run : files → gset string → result A * files * gset string) fail_ w :
  w_faults w = [] →
  syscall msg run fail_ w =
    ((run (w_files w) (w_dirs w)).1.1,
     step_files w (run (w_files w) (w_dirs w)).1.2 (run (w_files w) (w_dirs w)).2).
Proof.
  intros Hf. unfold syscall. rewrite Hf. simpl. by destruct (run _ _) as [[r fs] dirs].
Qed.

Lemma Rename_run old new i w :
  w_faults w = [] → new ∉ w_dirs w → w_files w !! old = Some i →
  ∃ w', Rename old new w = (Ok (), w') ∧ w_files w' = <[new := i]> (delete old (w_files w)) ∧
    w_faults w' = [] ∧ w_dirs w' = w_dirs w.
Proof.
  intros Hf Hn Ho. unfold Rename. rewrite syscall_run by done.
  rewrite decide_False by done. rewrite Ho. eexists. split; [done|]. simpl. by rewrite Hf.
Qed.

Lemma ReadFile_run name w :
  w_faults w = [] →
  ∃ w', ReadFile name w =
    (match w_files w !! name with Some i => Ok (i_content i) | None => Err "no such file" end, w') ∧
    w_files w' = w_files w ∧ w_faults w' = [] ∧ w_dirs w' = w_dirs w.
Proof.
  intros Hf. unfold ReadFile. rewrite syscall_run by done.
  destruct (w_files w !! name) as [i|]; eexists; (split; [done|]); simpl; by rewrite Hf.
Qed.

Lemma cacheLookup_run locationHash location w :
  w_faults w = [] →
  ∃ w', cacheLookup locationHash location w =
    (Ok (i_content <$> w_files w !! cache_file locationHash location), w') ∧
    w_files w' = w_files w ∧ w_faults w' = [] ∧ w_dirs w' = w_dirs w.
Proof.
  intros Hf. destruct (ReadFile_run (cache_file locationHash location) w Hf) as (w' & Hr & H).
  exists w'. split; [|done].
  unfold cacheLookup, attempt_io, mbind, IO_bind, mret, IO_ret. rewrite Hr.
  by destruct (w_files w !! _).
Qed.

Lemma url_not_path location p : is_url location = true → HasPrefix p "/" = true → location ≠ p.
Proof.
  intros Hu Hp ->. apply HasPrefix_spec in Hp as [t ->]. discriminate Hu.
Qed.

Lemma cut_cache_path_not_url locationHash location l :
  is_url l = true → l ≠ TrimRight (cache_file locationHash location) "_temp".
Proof.
  intros Hu E. pose proof (TrimRight_prefix (cache_file locationHash location) "_temp") as Hp.
  rewrite <-E in Hp. apply HasPrefix_spec in Hp as [t Ht].
  destruct l as [|c l]; [discriminate Hu|]. unfold cache_file, cacheDirectory in Ht.
  injection Ht as <- _. discriminate Hu.
Qed.

(** Storing a resource in the cache is atomic: whatever call fails, and at
    every moment in between, its entry is the old one or the complete new one,
    readable by its owner only. *)
Theorem cacheAdd_atomic temp_name locationHash location data w :
  (∀ fs, temp_name fs cacheDirectory "" ≠ cache_file locationHash location) →
  w_history w = [] →
  let entry := cache_file locationHash location in
  let new := {| i_content := data; i_mode := 384; i_owner := "root" |} in
  let w' := (cacheAdd temp_name locationHash location data w).2 in
  Forall (λ fs, fs !! entry = w_files w !! entry ∨ fs !! entry = Some new)
    (w_files w' :: w_history w').
Proof.
  intros Hne Hh entry new w'.
  destruct (triple_cacheAdd temp_name locationHash location data (w_files w !! entry) Hne w)
    as (? & ? & ?); [by left|by rewrite Hh|done|]. by constructor.
Qed.

(** A cache update without a network gives an error, although the entry is
    there; and it moves the entry back to a name with more than the suffix cut
    off: the entry survives when its hash does not end in one of the letters of
    "_temp" (the "e" is the one a hash can end in), and is lost otherwise. *)
Theorem UpdateCache_without_network temp_name locationHash Setenv SetConfig proxies GetRetry
    location e i w :
  let entry := cache_file locationHash location in
  let back := TrimRight entry "_temp" in
  w_faults w = [] → is_url location = true → w_files w !! entry = Some i →
  entry +:+ "_temp" ∉ w_dirs w → back ∉ w_dirs w → w_files w !! location = None →
  let '(r, w') := UpdateCache temp_name locationHash (Err e) Setenv SetConfig proxies GetRetry
                    location w in
  is_ok r = false ∧ w_files w' !! back = Some i ∧
  w_files w' !! entry = if String.eqb back entry then Some i else None.
Proof.
  intros entry back Hf Hu Hi Htemp Hback Hloc.
  assert (entry ≠ entry +:+ "_temp") as Hne by apply app_suffix_ne.
  assert (TrimRight (entry +:+ "_temp") "_temp" = back) as Htrim by by apply TrimRight_app_all.
  assert (location ≠ back) as Hlb by by apply cut_cache_path_not_url.
  assert (location ≠ entry +:+ "_temp") as Hlt
    by (apply url_not_path; [done|reflexivity]).
  assert (location ≠ entry) as Hle by (apply url_not_path; [done|reflexivity]).
  destruct (Rename_run entry (entry +:+ "_temp") i w Hf Htemp Hi) as (w1 & E1 & F1 & Hf1 & D1).
  destruct (cacheLookup_run locationHash location w1 Hf1) as (w2 & E2 & F2 & Hf2 & D2).
  fold entry in E2. rewrite F1, lookup_insert_ne, lookup_delete_eq in E2 by done.
  destruct (Rename_run (entry +:+ "_temp") back i w2 Hf2) as (w3 & E3 & F3 & Hf3 & D3).
  { by rewrite D2, D1. }
  { by rewrite F2, F1, lookup_insert_eq. }
  destruct (ReadFile_run location w3 Hf3) as (w4 & E4 & F4 & _).
  rewrite F3, lookup_insert_ne, lookup_delete_ne, F2, F1, lookup_insert_ne, lookup_delete_ne,
    Hloc in E4 by congruence.
  unfold UpdateCache, cacheMove, cacheMoveBack, attempt_io, LoadResource,
    LoadFromNetworkWithCache, LoadFromNetwork, lift, mbind, IO_bind, mret, IO_ret.
  fold entry. rewrite E1, Hu. cbn [negb]. rewrite E2. cbn [fmap option_fmap option_map].
  cbv beta iota. rewrite Htrim, E3, E4. cbv beta iota. cbn [is_ok].
  rewrite F4, F3. split; [done|]. split; [by rewrite lookup_insert_eq|].
  destruct (String.eqb_spec back entry) as [->|Hbe]; [by rewrite lookup_insert_eq|].
  rewrite lookup_insert_ne, lookup_delete_ne, F2, F1, lookup_insert_ne by done.
  by rewrite lookup_delete_eq.
Qed.

Definition example_hash (tail : string) (location : string) : string := "d41d8cd98f00b204" +:+ tail.

Definition cached_world (tail : string) : world :=
  {| w_files := {[ cache_file (example_hash tail) "http://repo/index.yml" :=
        {| i_content := "services: []"; i_mode := 384; i_owner := "root" |} ]};
     w_dirs := {[ "/var" ]}; w_faults := []; w_history := [] |}.

Definition example_proxies : NetworkProxies := {| HTTPProxy := ""; HTTPSProxy := ""; NoProxy := "" |}.

Lemma cacheAdd_atomic_witness :
  let w := cached_world "1" in
  let w' := (cacheAdd example_temp (example_hash "1") "http://repo/index.yml" "new" w).2 in
  Forall (λ fs, fs !! cache_file (example_hash "1") "http://repo/index.yml" ∈
      [w_files w !! cache_file (example_hash "1") "http://repo/index.yml";
       Some {| i_content := "new"; i_mode := 384; i_owner := "root" |}])
    (w_files w' :: w_history w') ∧
  i_content <$> w_files w' !! cache_file (example_hash "1") "http://repo/index.yml" = Some "new".
Proof.
  intros w w'. split; [|by vm_compute].
  eapply Forall_impl; [apply (cacheAdd_atomic example_temp (example_hash "1") "http://repo/index.yml"
    "new" w); [intros fs; discriminate|reflexivity]|].
  cbv beta. intros fs H. apply list_elem_of_In. simpl. destruct H as [H|H]; rewrite H; auto.
Defined.

(** The entry of a resource whose hash ends in "1" survives; with "e" it is lost. *)
Lemma UpdateCache_without_network_witness :
  let update tail := UpdateCache example_temp (example_hash tail) (Err "no gateway")
    (λ _ _, mret ()) (λ _ _, mret ()) example_proxies (λ _, Err "") "http://repo/index.yml"
    (cached_world tail) in
  let entry tail := w_files (update tail).2 !! cache_file (example_hash tail) "http://repo/index.yml" in
  entry "1" = w_files (cached_world "1") !! cache_file (example_hash "1") "http://repo/index.yml" ∧
  entry "e" = None ∧ is_ok (update "1").1 = false.
Proof.
  intros update entry.
  assert (∀ tail, tail = "1" ∨ tail = "e" →
    is_ok (update tail).1 = false ∧
    entry tail = if String.eqb (TrimRight (cache_file (example_hash tail) "") "_temp")
                    (cache_file (example_hash tail) "")
                 then w_files (cached_world tail) !! cache_file (example_hash tail) "" else None) as H.
  { intros tail Ht.
    pose proof (UpdateCache_without_network example_temp (example_hash tail) (λ _ _, mret ())
      (λ _ _, mret ()) example_proxies (λ _, Err "") "http://repo/index.yml" "no gateway"
      {| i_content := "services: []"; i_mode := 384; i_owner := "root" |} (cached_world tail)) as H.
    cbv zeta in H. unfold entry, update.
    destruct (UpdateCache _ _ _ _ _ _ _ _ (cached_world tail)) as [r w'].
    destruct H as (Hr & _ & He);
      [reflexivity|reflexivity|destruct Ht as [->| ->]; vm_compute; reflexivity|..|
       split; [exact Hr|]]; try (destruct Ht as [->| ->]; vm_compute; try reflexivity; set_solver). }
  destruct (H "1" (or_introl eq_refl)) as [Hr H1]. destruct (H "e" (or_intror eq_refl)) as [_ He].
  rewrite H1, He. split_and!; [vm_compute; reflexivity|vm_compute; reflexivity|exact Hr].
Defined.
