(* ===== verification/Debian.v ===== *)
(** * Debian network configuration
    ([config/cloudinit/network/debian.go], [stanza.go])

    The address types of the [net] package and their parsers are parameters. *)

From stdpp Require Import prelude gmap strings list.
From S2P Require Import Prelude GoStrings GoNet.

Local Open Scope string_scope.

Definition nl : string := String "010" "".

(** ** Lines *)

(** [fuel]: the number of lines left is at most the length of the text. *)
Fixpoint format_lines (fuel : nat) (config : string) : list string :=
  match fuel with
  | O => []
  | S fuel =>
      if String.eqb config "" then []
      else
        let split := SplitN config "010" 2 in
        let line := TrimSpace (default "" (head split)) in
        let config := match split with [_; rest] => rest | _ => "" end in
        if HasPrefix line "#" || String.eqb line "" then format_lines fuel config
        else line :: format_lines fuel config
  end.

Definition formatConfig (config : string) : list string :=
  let config := Replace config (String "\" nl) "" in
  format_lines (S (String.length config)) config.

Definition isStanzaStart (line : string) : bool :=
  let word := default "" (head (Split line " ")) in
  String.eqb word "auto" || String.eqb word "iface" || String.eqb word "mapping" ||
  HasPrefix line "allow-".

(** The loop of [splitStanzas]: the stanza being read, newest stanza last. *)
Fixpoint split_stanzas (lines : list string) (curStanza : option (list string)) :
    result (list (list string)) :=
  match lines with
  | [] => Ok (match curStanza with Some s => [s] | None => [] end)
  | line :: lines =>
      if isStanzaStart line then
        stanzas ← split_stanzas lines (Some [line]);
        Ok (match curStanza with Some s => s :: stanzas | None => stanzas end)
      else
        match curStanza with
        | Some s => split_stanzas lines (Some (s ++ [line])%list)
        | None => Err "missing stanza start"
        end
  end.

Definition splitStanzas (lines : list string) : result (list (list string)) :=
  split_stanzas lines None.

(** ** Stanzas *)

Definition options : Type := gmap string (list string).

(** [net.IP], [net.IPMask] and [net.HardwareAddr] are lists of bytes; [nil] is
    [None]. *)
Definition IP : Type := list Z.
Definition Mask : Type := list Z.
Definition HardwareAddr : Type := list Z.

Definition zero_IP : IP := (v4InV6Prefix ++ [0; 0; 0; 0])%list%Z.
Definition zero_Mask : Mask := [0; 0; 0; 0]%Z.

Record route := {
  destination_IP : option IP;
  destination_Mask : option Mask;
  gateway : option IP;
}.

Record static_config := {
  addresses : list (option IP * option Mask);
  nameservers : list (option IP);
  domains : list string;
  routes : list route;
  static_hwaddress : option HardwareAddr;
}.

Inductive configMethod :=
  | configMethodStatic (c : static_config)
  | configMethodLoopback
  | configMethodManual
  | configMethodDHCP (hwaddress : option HardwareAddr).

Inductive interfaceKind := interfaceBond | interfacePhysical | interfaceVLAN.

Record stanzaInterface := {
  si_name : string;
  si_kind : interfaceKind;
  si_auto : bool;
  si_configMethod : configMethod;
  si_options : gmap string (list string);
}.

Inductive stanza :=
  | stanzaAuto (interfaces : list string)
  | stanzaIface (s : stanzaInterface).

(** Options whose value is the rest of the line, one entry per line. *)
Definition add_command (key option_ : string) (optionMap : options) : options :=
  match SplitAfter2 option_ " " with
  | [_; command] =>
      <[key := (default [] (optionMap !! key) ++ [command])%list]> optionMap
  | _ => optionMap
  end.

Definition add_option (optionMap : options) (option_ : string) : result options :=
  if HasPrefix option_ "post-up" then Ok (add_command "post-up" option_ optionMap)
  else if HasPrefix option_ "pre-down" then Ok (add_command "pre-down" option_ optionMap)
  else match Fields option_ with
       | [] => Panic "index out of range"
       | key :: values => Ok (<[key := values]> optionMap)
       end.

Definition parseHwaddress (opts : options) : result (option HardwareAddr) :=
  match opts !! "hwaddress" with
  | Some [kind; address] =>
      if String.eqb kind "ether" then
        match ParseMAC address with
        | Some a => Ok (Some a)
        | None => Err "malformed hwaddress option"
        end
      else Ok None
  | _ => Ok None
  end.

(** The value of an option that must have exactly one. *)
Definition single (opts : options) (key : string) : option string :=
  match opts !! key with Some [v] => Some v | _ => None end.

(** The words of a [route add] command, looking at each with its successor. *)
Fixpoint route_words (fields : list string) (r : route) : route :=
  match fields with
  | field :: ((next :: _) as rest) =>
      let r :=
        if String.eqb field "-net" then
          match ParseCIDR next with
          | Some (ip, mask) =>
              {| destination_IP := Some ip; destination_Mask := Some mask; gateway := gateway r |}
          | None =>
              {| destination_IP := ParseIP next; destination_Mask := destination_Mask r;
                 gateway := gateway r |}
          end
        else if String.eqb field "netmask" then
          {| destination_IP := destination_IP r; destination_Mask := ParseMask next;
             gateway := gateway r |}
        else if String.eqb field "gw" then
          {| destination_IP := destination_IP r; destination_Mask := destination_Mask r;
             gateway := ParseIP next |}
        else r in
      route_words rest r
  | _ => r
  end.

Definition complete_route (r : route) : bool :=
  match destination_IP r, destination_Mask r, gateway r with
  | Some _, Some _, Some _ => true
  | _, _, _ => false
  end.

(** The route a [post-up] command adds; [fields[:len(fields)-1]] is out of range
    for no words at all. *)
Definition postup_route (postup : string) : result (list route) :=
  if HasPrefix postup "route add" then
    match Fields postup with
    | [] => Panic "slice bounds out of range"
    | fields =>
        let r := route_words fields
          {| destination_IP := None; destination_Mask := None; gateway := None |} in
        Ok (if complete_route r then [r] else [])
    end
  else Ok [].

Definition parse_static (opts : options) : result configMethod :=
  let ip := single opts "address" ≫= ParseIP in
  let mask := single opts "netmask" ≫= ParseMask in
  match ip, mask with
  | Some ip, Some mask =>
      let default_route :=
        match single opts "gateway" with
        | Some gw => [{| destination_IP := Some zero_IP; destination_Mask := Some zero_Mask;
                         gateway := ParseIP gw |}]
        | None => []
        end in
      hwaddress ← parseHwaddress opts;
      extra ← mapR postup_route (default [] (opts !! "post-up"));
      Ok (configMethodStatic {|
        addresses := [(Some ip, Some mask)];
        nameservers := ParseIP <$> default [] (opts !! "dns-nameservers");
        domains := [];
        routes := (default_route ++ concat extra)%list;
        static_hwaddress := hwaddress |})
  | _, _ => Err "malformed static network config"
  end.

Definition parse_method (confMethod : string) (opts : options) : result configMethod :=
  if String.eqb confMethod "static" then parse_static opts
  else if String.eqb confMethod "loopback" then Ok configMethodLoopback
  else if String.eqb confMethod "manual" then Ok configMethodManual
  else if String.eqb confMethod "dhcp" then
    hwaddress ← parseHwaddress opts; Ok (configMethodDHCP hwaddress)
  else Err "invalid config method".

Definition mk_stanza (iface : string) (kind : interfaceKind) (conf : configMethod)
    (opts : options) : stanzaInterface :=
  {| si_name := iface; si_kind := kind; si_auto := false; si_configMethod := conf;
     si_options := opts |}.

Definition parseBondStanza (iface : string) (conf : configMethod) (opts : options) :
    result stanzaInterface := Ok (mk_stanza iface interfaceBond conf opts).

Definition parsePhysicalStanza (iface : string) (conf : configMethod) (opts : options) :
    result stanzaInterface := Ok (mk_stanza iface interfacePhysical conf opts).

Definition vlan_id (iface : string) : result string :=
  if Contains iface "." then Ok (default "" (last (Split iface ".")))
  else if HasPrefix iface "vlan" then Ok (TrimPrefix iface "vlan")
  else Err "malformed vlan name".

Definition parseVLANStanza (iface : string) (conf : configMethod) (opts : options) :
    result stanzaInterface :=
  id ← vlan_id iface;
  if (Atoi id).2 then Err "malformed vlan name"
  else
    let opts := <["id" := [id]]> opts in
    let opts := <["raw_device" := default [] (opts !! "vlan_raw_device")]> opts in
    Ok (mk_stanza iface interfaceVLAN conf opts).

Definition parseInterfaceStanza (attributes opts : list string) : result stanzaInterface :=
  match attributes with
  | [iface; _; confMethod] =>
      optionMap ← foldM add_option ∅ opts;
      conf ← parse_method confMethod optionMap;
      match optionMap !! "vlan_raw_device" with
      | Some _ => parseVLANStanza iface conf optionMap
      | None =>
          if Contains iface "." then parseVLANStanza iface conf optionMap
          else match optionMap !! "bond-slaves" with
               | Some _ => parseBondStanza iface conf optionMap
               | None => parsePhysicalStanza iface conf optionMap
               end
      end
  | _ => Err "incorrect number of attributes"
  end.

Definition parseStanza (rawStanza : list string) : result stanza :=
  match rawStanza with
  | [] => Panic "empty stanza"
  | first :: rest =>
      match Fields first with
      | kind :: ((_ :: _) as attributes) =>
          if String.eqb kind "auto" then Ok (stanzaAuto attributes)
          else if String.eqb kind "iface" then stanzaIface <$> parseInterfaceStanza attributes rest
          else Err "unknown stanza"
      | _ => Err "malformed stanza start"
      end
  end.

(** *** The auto attribute *)

Definition autos_of (stanzas : list stanza) : list string :=
  stanzas ≫= λ s, match s with stanzaAuto names => names | stanzaIface _ => [] end.

(** The flag is set on the interface that is last under its name, which is the
    one the map holds. *)
Fixpoint apply_auto (autos : list string) (stanzas : list stanza) : list stanza :=
  match stanzas with
  | [] => []
  | stanzaIface s :: stanzas =>
      let later := existsb (λ t, match t with
        | stanzaIface t => String.eqb (si_name t) (si_name s)
        | stanzaAuto _ => false end) stanzas in
      stanzaIface
        {| si_name := si_name s; si_kind := si_kind s;
           si_auto := si_auto s || bool_decide (si_name s ∈ autos) && negb later;
           si_configMethod := si_configMethod s; si_options := si_options s |}
        :: apply_auto autos stanzas
  | s :: stanzas => s :: apply_auto autos stanzas
  end.

Definition parseStanzas (lines : list string) : result (list stanza) :=
  rawStanzas ← splitStanzas lines;
  stanzas ← mapR parseStanza rawStanzas;
  Ok (apply_auto (autos_of stanzas) stanzas).

Definition interface_stanzas (stanzas : list stanza) : list stanzaInterface :=
  stanzas ≫= λ s, match s with stanzaIface s => [s] | stanzaAuto _ => [] end.

(** [ProcessDebianNetconf] up to the construction of the interfaces. *)
Definition debian_stanzas (config : string) : result (list stanzaInterface) :=
  match parseStanzas (formatConfig config) with
  | Ok stanzas => Ok (interface_stanzas stanzas)
  | Err e => Err e
  | Panic e => Panic e
  end.

(** ** Lemmas: stanzas *)

(** A stanza: a start line and lines that are none. *)
Definition is_stanza (stanza_ : list string) : Prop :=
  ∃ first rest, stanza_ = first :: rest ∧ isStanzaStart first = true ∧
    Forall (λ l, isStanzaStart l = false) rest.

Lemma split_stanzas_some lines : ∀ cur, is_stanza cur →
  ∃ stanzas, split_stanzas lines (Some cur) = Ok stanzas ∧
    concat stanzas = (cur ++ lines)%list ∧ Forall is_stanza stanzas.
Proof.
  induction lines as [|line lines IH]; intros cur Hcur; cbn [split_stanzas].
  - exists [cur]. split_and!; [done| |by constructor]. simpl. by rewrite app_nil_r.
  - destruct (isStanzaStart line) eqn:Hs.
    + destruct (IH [line]) as (stanzas & -> & Hc & Hall); [by exists line, []|].
      exists (cur :: stanzas). split_and!; [done|simpl; by rewrite Hc|by constructor].
    + destruct (IH (cur ++ [line])%list) as (stanzas & -> & Hc & Hall).
      { destruct Hcur as (f & r & -> & ? & ?). exists f, (r ++ [line])%list.
        split_and!; [done..|]. apply Forall_app. by repeat constructor. }
      exists stanzas. split_and!; [done| |done]. by rewrite Hc, <-app_assoc.
Qed.

Lemma splitStanzas_cases lines :
  match splitStanzas lines with
  | Ok stanzas => concat stanzas = lines ∧ Forall is_stanza stanzas
  | Err _ => ∃ l rest, lines = l :: rest ∧ isStanzaStart l = false
  | Panic _ => False
  end.
Proof.
  unfold splitStanzas. destruct lines as [|l lines]; [done|]. cbn [split_stanzas].
  destruct (isStanzaStart l) eqn:Hs; [|eauto].
  destruct (split_stanzas_some lines [l]) as (stanzas & -> & Hc & Hall); [by exists l, []|].
  done.
Qed.

(** *** No panic *)

(** A line the parser gets: something is left of it when blanks are dropped. *)
Definition has_word (line : string) : Prop := Fields line ≠ [].

Lemma format_lines_words fuel config : Forall has_word (format_lines fuel config).
Proof.
  revert config. induction fuel as [|fuel IH]; intros config; [constructor|]. cbn [format_lines].
  repeat (case_match; simplify_eq; try apply Forall_nil_2; try apply IH).
  all: constructor; [|apply IH]; apply Fields_TrimSpace; intros E;
    match goal with H : _ || _ = false |- _ => apply orb_false_iff in H as [_ H] end;
    rewrite E in *; done.
Qed.

Lemma no_panic_add_option optionMap option_ : has_word option_ → no_panic (add_option optionMap option_).
Proof. unfold has_word, add_option. intros. by repeat case_match. Qed.

Lemma no_panic_parseHwaddress opts : no_panic (parseHwaddress opts).
Proof. unfold parseHwaddress. by repeat case_match. Qed.

Lemma no_panic_postup_route postup : no_panic (postup_route postup).
Proof.
  unfold postup_route. destruct (HasPrefix _ _) eqn:Hp; [|done].
  destruct (Fields postup) eqn:Hf; [|done]. exfalso. revert Hf.
  apply HasPrefix_spec in Hp as [t ->]. apply Fields_some; [done|].
  by change ("route add" +:+ t) with (String "r" ("oute add" +:+ t)).
Qed.

Lemma no_panic_parse_static opts : no_panic (parse_static opts).
Proof.
  unfold parse_static. repeat (case_match; try done).
  all: apply no_panic_bind; [apply no_panic_parseHwaddress|]; intros h _.
  all: apply no_panic_bind; [|done]; apply no_panic_mapR; intros p _; apply no_panic_postup_route.
Qed.

Lemma no_panic_parse_method confMethod opts : no_panic (parse_method confMethod opts).
Proof.
  unfold parse_method. repeat (case_match; try done).
  - apply no_panic_parse_static.
  - apply no_panic_bind; [apply no_panic_parseHwaddress|done].
Qed.

Lemma no_panic_parseVLANStanza iface conf opts : no_panic (parseVLANStanza iface conf opts).
Proof.
  unfold parseVLANStanza, vlan_id. apply no_panic_bind; [by repeat case_match|].
  intros id _. by case_match.
Qed.

Lemma no_panic_parseInterfaceStanza attributes opts :
  Forall has_word opts → no_panic (parseInterfaceStanza attributes opts).
Proof.
  intros Hopts. destruct attributes as [|iface [|? [|confMethod [|? ?]]]]; try done.
  unfold parseInterfaceStanza.
  apply no_panic_bind.
  { apply no_panic_foldM. intros m o Ho. apply no_panic_add_option.
    by eapply Forall_forall in Ho. }
  intros optionMap _. apply no_panic_bind; [apply no_panic_parse_method|]. intros c _.
  repeat case_match; (apply no_panic_parseVLANStanza || done).
Qed.

Lemma no_panic_parseStanza raw :
  is_stanza raw → Forall has_word raw → no_panic (parseStanza raw).
Proof.
  intros (first & rest & -> & _ & _) Hw. apply Forall_cons in Hw as [_ Hrest].
  unfold parseStanza. repeat (case_match; try done).
  by apply no_panic_fmap, no_panic_parseInterfaceStanza.
Qed.

Lemma no_panic_debian_stanzas config : no_panic (debian_stanzas config).
Proof.
  pose proof (splitStanzas_cases (formatConfig config)) as Hsplit.
  unfold debian_stanzas, parseStanzas. unfold mbind at 1, result_bind at 1.
  destruct (splitStanzas (formatConfig config)) as [stanzas|e|e]; [|done..].
  destruct Hsplit as [Hc Hall].
  assert (no_panic (mapR parseStanza stanzas)) as Hm; [|by destruct (mapR _ _)].
  apply no_panic_mapR. intros raw Hraw. apply no_panic_parseStanza.
  - by eapply Forall_forall in Hraw.
  - pose proof (format_lines_words (S (String.length (Replace config (String "\" nl) "")))
      (Replace config (String "\" nl) "")) as Hw.
    apply Forall_forall. intros l Hl. eapply Forall_forall in Hw; [exact Hw|].
    change (l ∈ formatConfig config). rewrite <-Hc. apply list_elem_of_In, in_concat.
    exists raw. by rewrite <-!list_elem_of_In.
Qed.

(** *** VLANs *)

(** A VLAN has its number among its options. *)
Definition vlan_has_id (s : stanzaInterface) : Prop :=
  si_kind s = interfaceVLAN → ∃ id, si_options s !! "id" = Some [id].

Lemma parseInterfaceStanza_vlan attributes opts s :
  parseInterfaceStanza attributes opts = Ok s → vlan_has_id s.
Proof.
  destruct attributes as [|iface [|? [|confMethod [|? ?]]]]; try done.
  unfold parseInterfaceStanza. intros H.
  unfold mbind, result_bind in H. destruct (foldM add_option ∅ opts) as [om|e|e]; [|done..].
  destruct (parse_method confMethod om) as [conf|e|e]; [|done..].
  assert (∀ s, parseVLANStanza iface conf om = Ok s → vlan_has_id s) as Hv.
  { unfold parseVLANStanza, mbind, result_bind. intros s' Hs'.
    destruct (vlan_id iface) as [id|e|e]; [|done..]. destruct (Atoi id).2; [done|].
    injection Hs' as <-. intros _. exists id. cbv zeta. unfold mk_stanza. cbn [si_options].
    transitivity ((<["id" := [id]]> om : gmap string (list string)) !! "id").
    - by apply (lookup_insert_ne (M := gmap string)).
    - apply (lookup_insert_eq (M := gmap string)). }
  destruct (om !! "vlan_raw_device"); [by apply Hv|].
  destruct (Contains iface "."); [by apply Hv|].
  destruct (om !! "bond-slaves"); by injection H as <-.
Qed.

Lemma apply_auto_vlan autos stanzas :
  Forall vlan_has_id (interface_stanzas stanzas) →
  Forall vlan_has_id (interface_stanzas (apply_auto autos stanzas)).
Proof.
  induction stanzas as [|[names|s] stanzas IH]; intros H; [done|by apply IH|].
  cbn [interface_stanzas mbind list_bind app] in H. apply Forall_cons in H as [Hs H].
  constructor; [|by apply IH]. exact Hs.
Qed.

Lemma debian_stanzas_vlan config stanzas :
  debian_stanzas config = Ok stanzas → Forall vlan_has_id stanzas.
Proof.
  unfold debian_stanzas, parseStanzas, mbind, result_bind.
  destruct (splitStanzas (formatConfig config)) as [raws|e|e]; [|done..].
  destruct (mapR parseStanza raws) as [parsed|e|e] eqn:Hp; [|done..]. intros [= <-].
  apply apply_auto_vlan. apply mapR_Forall2 in Hp.
  induction Hp as [|raw s raws parsed Hs Hp IH]; [constructor|].
  destruct s as [names|s]; [exact IH|]. constructor; [|exact IH].
  unfold parseStanza in Hs. repeat (case_match; try done).
  match type of Hs with stanzaIface <$> ?m = _ => destruct m as [s'|e|e] eqn:E; try done end.
  injection Hs as ->. by eapply parseInterfaceStanza_vlan.
Qed.

(** The parser of Debian network configurations never panics, whatever the
    text; and the stanzas it works on are the lines of the text without blanks
    and comments, each stanza a start line and the lines up to the next one. The
    only error of that step is a first line that starts no stanza. *)
Theorem debian_stanzas_no_panic (config : string) :
  no_panic (debian_stanzas config) ∧
  match splitStanzas (formatConfig config) with
  | Ok stanzas => concat stanzas = formatConfig config ∧ Forall is_stanza stanzas
  | Err _ => ∃ l rest, formatConfig config = l :: rest ∧ isStanzaStart l = false
  | Panic _ => False
  end.
Proof. split; [apply no_panic_debian_stanzas|apply splitStanzas_cases]. Qed.

Example debian_example :
  is_ok (debian_stanzas ("auto eth0" +:+ nl +:+ "iface eth0 inet static" +:+ nl +:+
    " address 10.0.0.5" +:+ nl +:+ " netmask 255.255.255.0" +:+ nl +:+
    " post-up route add -net 10.1.0.0/16 gw 10.0.0.1" +:+ nl)) = true.
Proof. by vm_compute. Qed.
