(* ===== verification/InterfaceGraph.v ===== *)
(** * Network interfaces built from stanzas
    ([config/cloudinit/network/interface.go], [packet.go])

    Interfaces refer to each other: a VLAN to its raw device, a bond to its slaves. The
    objects of the Go code are the entries of one map, under their own names, so
    a pointer to an interface is its name; a child also carries its kind, which is all
    the printers ask of it. *)

From stdpp Require Import prelude gmap strings list sorting.
From S2P Require Import Prelude GoStrings GoNet Debian.

Local Open Scope string_scope.

(** ** Data *)

Inductive interface_type : Type :=
  | physicalInterface
  | bondInterface (slaves : list string) (options : gmap string string)
  | vlanInterface (id : Z) (rawDevice : string).

Inductive child : Type :=
  | VlanChild (name : string)
  | BondChild (name : string).

Definition child_name (c : child) : string :=
  match c with VlanChild name | BondChild name => name end.

Record networkInterface := {
  ni_name : string;
  ni_hwaddr : option HardwareAddr;
  ni_config : configMethod;
  ni_children : list child;
  ni_depth : nat;
  ni_type : interface_type;
}.

Abbreviation interfaces := (gmap string networkInterface).

Definition new_interface (name : string) (config : configMethod) (type : interface_type) : networkInterface :=
  {| ni_name := name; ni_hwaddr := None; ni_config := config; ni_children := []; ni_depth := 0;
     ni_type := type |}.

Definition add_child (c : child) (i : networkInterface) : networkInterface :=
  {| ni_name := ni_name i; ni_hwaddr := ni_hwaddr i; ni_config := ni_config i;
     ni_children := (ni_children i ++ [c])%list; ni_depth := ni_depth i; ni_type := ni_type i |}.

Definition setConfigDepth (depth : nat) (i : networkInterface) : networkInterface :=
  {| ni_name := ni_name i; ni_hwaddr := ni_hwaddr i; ni_config := ni_config i;
     ni_children := ni_children i; ni_depth := depth; ni_type := ni_type i |}.

(** ** Creating *)

Definition bond_option (opts : options) (bondOptions : gmap string string) (k : string) :
    gmap string string :=
  match opts !! ("bond-" +:+ k) with
  | Some (v :: _) => <[k := v]> bondOptions
  | _ => bondOptions
  end.

(** A physical interface under the name, unless there is one. *)
Definition ensure_physical (m : interfaces) (name : string) : interfaces :=
  match m !! name with
  | Some _ => m
  | None => <[name := new_interface name configMethodManual physicalInterface]> m
  end.

Definition create_interface (m : interfaces) (iface : stanzaInterface) : result interfaces :=
  let name := si_name iface in
  let opts := si_options iface in
  let conf := si_configMethod iface in
  match si_kind iface with
  | interfaceBond =>
      let slaves := default [] (opts !! "bond-slaves") in
      let bondOptions := foldl (bond_option opts) ∅ ["mode"; "miimon"; "lacp-rate"] in
      Ok (foldl ensure_physical (<[name := new_interface name conf (bondInterface slaves bondOptions)]> m)
            slaves)
  | interfacePhysical =>
      Ok (match conf with
          | configMethodLoopback => m
          | _ => <[name := new_interface name conf physicalInterface]> m
          end)
  | interfaceVLAN =>
      match opts !! "id" with
      | Some (id :: _) =>
          let '(rawDevice, m) :=
            match opts !! "raw_device" with
            | Some [device] => (device, ensure_physical m device)
            | _ => ("", m)
            end in
          Ok (<[name := new_interface name conf (vlanInterface (Atoi id).1 rawDevice)]> m)
      | _ => Panic "index out of range"
      end
  end.

Definition createInterfaces (stanzas : list stanzaInterface) : result interfaces :=
  foldM create_interface ∅ stanzas.

(** ** Linking *)

(** A VLAN has no children. *)
Definition link_child (c : child) (m : interfaces) (parent : string) : interfaces :=
  match m !! parent with
  | Some p =>
      match ni_type p with
      | vlanInterface _ _ => m
      | _ => <[parent := add_child c p]> m
      end
  | None => m
  end.

Definition link_interface (m : interfaces) (name : string) : interfaces :=
  match m !! name with
  | Some iface =>
      match ni_type iface with
      | vlanInterface _ rawDevice => link_child (VlanChild name) m rawDevice
      | bondInterface slaves _ => foldl (link_child (BondChild name)) m slaves
      | physicalInterface => m
      end
  | None => m
  end.

Definition linkAncestors (m : interfaces) : interfaces := foldl link_interface m (sorted_keys m).

(** ** Depths *)

(** The children in their order, with the greatest depth so far. *)
Section Children.
Context (setDepth : interfaces → string → option (interfaces * nat)).

Fixpoint visit_children (children : list child) (m : interfaces) (maxDepth : nat) :
    option (interfaces * nat) :=
  match children with
  | [] => Some (m, maxDepth)
  | c :: children =>
      md ← setDepth m (child_name c);
      visit_children children md.1 (Nat.max maxDepth md.2)
  end.
End Children.

(** [None] is a recursion deeper than [fuel]. A child is always in the map. *)
Fixpoint setDepth (fuel : nat) (m : interfaces) (name : string) : option (interfaces * nat) :=
  match fuel with
  | O => None
  | S fuel =>
      match m !! name with
      | None => Some (m, O)
      | Some iface =>
          md ← visit_children (setDepth fuel) (ni_children iface) m 0;
          Some (alter (setConfigDepth md.2) name md.1, S md.2)
      end
  end.

Definition children_names (m : interfaces) : gset string :=
  list_to_set ((map_to_list m).*2 ≫= λ i, child_name <$> ni_children i).

Definition root_interfaces (m : interfaces) : gset string := dom m ∖ children_names m.

(** The roots in the order [range] visits them. *)
Fixpoint mark_roots (fuel : nat) (roots : list string) (m : interfaces) : option interfaces :=
  match roots with
  | [] => Some m
  | root :: roots => md ← setDepth fuel m root; mark_roots fuel roots md.1
  end.

Definition markConfigDepths (fuel : nat) (order : list string) (m : interfaces) : option interfaces :=
  mark_roots fuel order m.

(** The interfaces by name, or a recursion deeper than [fuel]. *)
Definition buildInterfaces (fuel : nat) (order : interfaces → list string)
    (stanzas : list stanzaInterface) : result (option (list networkInterface)) :=
  interfaceMap ← createInterfaces stanzas;
  let interfaceMap := linkAncestors interfaceMap in
  Ok (m ← markConfigDepths fuel (order interfaceMap) interfaceMap;
      Some (omap (λ name, m !! name) (sorted_keys m))).

Definition ProcessDebianNetconf (fuel : nat) (order : interfaces → list string) (config : string) :
    result (option (list networkInterface)) :=
  stanzas ← debian_stanzas config;
  buildInterfaces fuel order stanzas.

(** ** The files of networkd *)

Definition line (s : string) : string := s +:+ nl.

Definition child_line (c : child) : string :=
  match c with VlanChild name => line ("VLAN=" +:+ name) | BondChild name => line ("Bond=" +:+ name) end.

Definition static_lines (conf : static_config) : string :=
  (match domains conf with [] => "" | ds => line ("Domains=" +:+ Join ds " ") end) +:+
  Join ((λ n, line ("DNS=" +:+ IP_String n)) <$> nameservers conf) "" +:+
  Join ((λ a, nl +:+ line "[Address]" +:+ line ("Address=" +:+ IPNet_String a.1 a.2)) <$> addresses conf) "" +:+
  Join ((λ r, nl +:+ line "[Route]" +:+
    line ("Destination=" +:+ IPNet_String (destination_IP r) (destination_Mask r)) +:+
    line ("Gateway=" +:+ IP_String (gateway r))) <$> routes conf) "".

Definition Network (i : networkInterface) : string :=
  line "[Match]" +:+
  (if String.eqb (ni_name i) "" then "" else line ("Name=" +:+ ni_name i)) +:+
  (match ni_hwaddr i with Some a => line ("MACAddress=" +:+ mac_String a) | None => "" end) +:+
  nl +:+ line "[Network]" +:+
  Join (child_line <$> ni_children i) "" +:+
  match ni_config i with
  | configMethodStatic conf => static_lines conf
  | configMethodDHCP _ => line "DHCP=true"
  | _ => ""
  end.

Definition bond_line (options : gmap string string) (name : string) : string :=
  name +:+ "=" +:+ default "" (options !! name).

Definition Netdev (i : networkInterface) : string :=
  match ni_type i with
  | physicalInterface => ""
  | bondInterface _ options =>
      line "[NetDev]" +:+ line "Kind=bond" +:+ line ("Name=" +:+ ni_name i) +:+
      (match ni_hwaddr i with Some a => line ("MACAddress=" +:+ mac_String a) | None => "" end) +:+
      nl +:+ line "[Bond]" +:+
      Join ((λ name, line (bond_line options name)) <$> sorted_keys options) ""
  | vlanInterface id _ =>
      line "[NetDev]" +:+ line "Kind=vlan" +:+ line ("Name=" +:+ ni_name i) +:+
      (match ni_config i with
       | configMethodStatic {| static_hwaddress := Some a |} | configMethodDHCP (Some a) =>
           line ("MACAddress=" +:+ mac_String a)
       | _ => ""
       end) +:+
      nl +:+ line "[VLAN]" +:+ line ("Id=" +:+ Itoa id)
  end.

Definition ModprobeParams (i : networkInterface) : string :=
  match ni_type i with
  | bondInterface _ options =>
      TrimSuffix (Join ((λ name, bond_line options name +:+ " ") <$> sorted_keys options) "") " "
  | _ => ""
  end.

(** [%02x]. *)
Fixpoint hex_nat (fuel n : nat) : string :=
  match fuel with
  | O => ""
  | S fuel =>
      let d := String (hex_digit (Z.of_nat (n mod 16))) "" in
      if (n <? 16)%nat then d else hex_nat fuel (n / 16) +:+ d
  end.

Definition hex02 (n : nat) : string :=
  let s := hex_nat (S n) n in if (String.length s <? 2)%nat then "0" +:+ s else s.

Definition Filename (i : networkInterface) : string :=
  hex02 (ni_depth i) +:+ "-" +:+
  (if String.eqb (ni_name i) "" then match ni_hwaddr i with Some a => mac_String a | None => "" end
   else ni_name i).

(** ** Packet *)

(** The entry for the bond and one for each of its slaves, for an order of the
    configured interfaces. *)
Definition packet_bond (nameservers_ : list (option IP)) (slaves : list string) : networkInterface :=
  {| ni_name := "bond0"; ni_hwaddr := None;
     ni_config := configMethodStatic
       {| addresses := []; nameservers := nameservers_; domains := []; routes := [];
          static_hwaddress := None |};
     ni_children := []; ni_depth := 0;
     ni_type := bondInterface slaves
       (list_to_map [("Mode", "802.3ad"); ("LACPTransmitRate", "fast"); ("MIIMonitorSec", ".2");
                     ("UpDelaySec", ".2"); ("DownDelaySec", ".2")]) |}.

Definition packet_slave (nameservers_ : list (option IP)) (index : nat) (name : string) : networkInterface :=
  {| ni_name := name; ni_hwaddr := None;
     ni_config := configMethodStatic
       {| addresses := []; nameservers := nameservers_; domains := []; routes := [];
          static_hwaddress := None |};
     ni_children := [BondChild "bond0"]; ni_depth := index; ni_type := physicalInterface |}.

Definition parseNetwork (names : list string) (nameservers_ : list (option IP)) : list networkInterface :=
  (imap (packet_slave nameservers_) names ++ [packet_bond nameservers_ names])%list.

Definition ProcessPacketNetconf (dns_nameservers names : list string) : list networkInterface :=
  let nameservers_ := ParseIP <$> dns_nameservers in
  parseNetwork names
    (match nameservers_ with [] => [ParseIP "8.8.8.8"; ParseIP "8.8.4.4"] | _ => nameservers_ end).

(** ** Lemmas: the map of interfaces *)

(** An interface is under its name, has no children yet, and what it refers to is
    in the map. *)
Definition refers (i : networkInterface) (name : string) : Prop :=
  match ni_type i with
  | physicalInterface => False
  | bondInterface slaves _ => name ∈ slaves
  | vlanInterface _ rawDevice => rawDevice ≠ "" ∧ name = rawDevice
  end.

Definition wf_entry (m : interfaces) (name : string) (i : networkInterface) : Prop :=
  ni_name i = name ∧ ni_children i = [] ∧ ∀ r, refers i r → is_Some (m !! r).

Definition wf_interfaces (m : interfaces) : Prop := map_Forall (wf_entry m) m.

Lemma wf_entry_mono m m' name i : dom m ⊆ dom m' → wf_entry m name i → wf_entry m' name i.
Proof.
  intros Hd (Hn & Hc & Hr). split_and!; [done..|]. intros r Hrr.
  apply elem_of_dom, Hd, elem_of_dom. by apply Hr.
Qed.

Lemma wf_insert m name i :
  wf_interfaces m → wf_entry (<[name := i]> m) name i → wf_interfaces (<[name := i]> m).
Proof.
  intros Hm Hi. apply map_Forall_insert_2; [done|].
  eapply map_Forall_impl; [exact Hm|]. intros n j. apply wf_entry_mono.
  rewrite dom_insert_L. set_solver.
Qed.

Lemma ensure_physical_wf m name : wf_interfaces m → wf_interfaces (ensure_physical m name).
Proof.
  intros Hm. unfold ensure_physical. destruct (m !! name); [done|]. by apply wf_insert.
Qed.

Lemma ensure_physical_dom m name : dom (ensure_physical m name) = {[name]} ∪ dom m.
Proof.
  unfold ensure_physical. destruct (m !! name) eqn:E; [|by rewrite dom_insert_L].
  assert (name ∈ dom m) by (apply elem_of_dom; by eexists). set_solver.
Qed.

Lemma ensure_physical_all_dom names m : dom (foldl ensure_physical m names) = list_to_set names ∪ dom m.
Proof.
  revert m. induction names as [|n names IH]; intros m; [simpl; set_solver|]. cbn [foldl].
  rewrite IH, ensure_physical_dom. set_solver.
Qed.

Lemma ensure_physical_all_lookup names m n i :
  m !! n = Some i → foldl ensure_physical m names !! n = Some i.
Proof.
  revert m. induction names as [|n' names IH]; intros m Hn; [done|]. cbn [foldl]. apply IH.
  unfold ensure_physical. destruct (m !! n') eqn:E; [done|].
  rewrite lookup_insert_ne; [done|]. congruence.
Qed.

(** A map that satisfies the invariant but for one entry. *)
Lemma ensure_physical_all_wf_except names m name :
  (∀ n i, n ≠ name → m !! n = Some i → wf_entry m n i) → is_Some (m !! name) →
  ∀ n i, n ≠ name → foldl ensure_physical m names !! n = Some i →
  wf_entry (foldl ensure_physical m names) n i.
Proof.
  revert m. induction names as [|n' names IH]; intros m Hm Hs; [done|]. cbn [foldl].
  apply IH; unfold ensure_physical; destruct (m !! n') eqn:E; try done.
  - intros n i Hne. destruct (decide (n = n')) as [->|Hn].
    + rewrite lookup_insert_eq. by intros [= <-].
    + rewrite lookup_insert_ne by done. intros Hi. eapply wf_entry_mono; [|by apply Hm].
      rewrite dom_insert_L. set_solver.
  - rewrite lookup_insert_ne; [done|]. intros ->. rewrite E in Hs. by destruct Hs.
Qed.

Lemma create_interface_wf m iface m' :
  wf_interfaces m → create_interface m iface = Ok m' → wf_interfaces m'.
Proof.
  intros Hm. unfold create_interface. destruct (si_kind iface).
  - intros [= <-]. set (slaves := default [] _). set (i := new_interface _ _ _).
    intros n j Hj. destruct (decide (n = si_name iface)) as [->|Hne].
    + rewrite (ensure_physical_all_lookup _ _ _ i) in Hj by apply lookup_insert_eq.
      injection Hj as <-. split_and!; [done..|]. intros r Hr. apply elem_of_dom.
      rewrite ensure_physical_all_dom. cbn in Hr. set_solver.
    + eapply (ensure_physical_all_wf_except _ _ (si_name iface)); [| |done..].
      * intros n' i' Hn'. rewrite lookup_insert_ne by done. intros Hi'.
        eapply wf_entry_mono; [|by apply Hm]. rewrite dom_insert_L. set_solver.
      * rewrite lookup_insert_eq. by eexists.
  - intros [= <-]. destruct (si_configMethod iface); [|done|..]; by apply wf_insert.
  - destruct (si_options iface !! "id") as [[|id ?]|]; [done| |done].
    destruct (si_options iface !! "raw_device") as [[|device [|]]|]; intros [= <-]; apply wf_insert;
      try done; try by apply ensure_physical_wf.
    all: split_and!; [done..|].
    2: { intros r [_ ->]. apply elem_of_dom. rewrite dom_insert_L, ensure_physical_dom. set_solver. }
    all: by intros r [? _].
Qed.

(** ** Lemmas: linking *)

(** A VLAN has no children. *)
Definition adopt (cs : list child) (i : networkInterface) : networkInterface :=
  match ni_type i with
  | vlanInterface _ _ => i
  | _ => {| ni_name := ni_name i; ni_hwaddr := ni_hwaddr i; ni_config := ni_config i;
            ni_children := (ni_children i ++ cs)%list; ni_depth := ni_depth i; ni_type := ni_type i |}
  end.

Lemma adopt_nil i : adopt [] i = i.
Proof. destruct i as [? ? ? cs ? []]; unfold adopt; simpl; by rewrite ?app_nil_r. Qed.

Lemma adopt_app cs cs' i : adopt cs' (adopt cs i) = adopt (cs ++ cs') i.
Proof. destruct i as [? ? ? ? ? []]; unfold adopt; simpl; by rewrite <-?app_assoc. Qed.

Lemma adopt_type cs i : ni_type (adopt cs i) = ni_type i.
Proof. by destruct i as [? ? ? ? ? []]. Qed.

Lemma adopt_fmap_nil (o : option networkInterface) : adopt [] <$> o = o.
Proof. destruct o; simpl; by rewrite ?adopt_nil. Qed.

Lemma adopt_fmap_app cs cs' (o : option networkInterface) :
  adopt cs' <$> (adopt cs <$> o) = adopt (cs ++ cs') <$> o.
Proof. destruct o; simpl; by rewrite ?adopt_app. Qed.

(** What one interface adds to the children of another. *)
Definition links_of (m : interfaces) (parent name : string) : list child :=
  match ni_type <$> m !! name with
  | Some (vlanInterface _ rawDevice) => if decide (parent = rawDevice) then [VlanChild name] else []
  | Some (bondInterface slaves _) => (λ _, BondChild name) <$> filter (λ s, parent = s) slaves
  | _ => []
  end.

Lemma link_child_lookup c m parent p :
  link_child c m parent !! p = adopt (if decide (p = parent) then [c] else []) <$> m !! p.
Proof.
  unfold link_child. destruct (m !! parent) as [i|] eqn:E.
  - destruct (decide (p = parent)) as [->|Hne].
    + rewrite E. destruct i as [? ? ? ? ? []]; unfold adopt, add_child; simpl;
        rewrite ?lookup_insert_eq, ?E; done.
    + rewrite adopt_fmap_nil. destruct (ni_type i); by rewrite ?lookup_insert_ne by done.
  - destruct (decide (p = parent)) as [->|Hne]; [by rewrite E|by rewrite adopt_fmap_nil].
Qed.

Lemma link_bond_lookup c slaves m p :
  foldl (link_child c) m slaves !! p = adopt ((λ _, c) <$> filter (λ s, p = s) slaves) <$> m !! p.
Proof.
  revert m. induction slaves as [|s slaves IH]; intros m; [by rewrite adopt_fmap_nil|].
  cbn [foldl]. rewrite IH, link_child_lookup, filter_cons.
  destruct (decide (p = s)) as [->|Hne].
  - by rewrite adopt_fmap_app.
  - by rewrite adopt_fmap_nil.
Qed.

Lemma link_interface_lookup m name p :
  link_interface m name !! p = adopt (links_of m p name) <$> m !! p.
Proof.
  unfold link_interface, links_of. destruct (m !! name) as [i|]; [|by rewrite adopt_fmap_nil].
  cbn [fmap option_fmap option_map]. destruct (ni_type i).
  - by rewrite adopt_fmap_nil.
  - apply link_bond_lookup.
  - apply link_child_lookup.
Qed.

Lemma links_of_types m m' parent name :
  ni_type <$> m !! name = ni_type <$> m' !! name → links_of m parent name = links_of m' parent name.
Proof. unfold links_of. by intros ->. Qed.

(** The children of an interface: the VLANs on it and the bonds it is a slave of, by
    name. *)
Definition children_of (m : interfaces) (parent : string) : list child :=
  sorted_keys m ≫= links_of m parent.

Lemma link_all_lookup m names : ∀ m0 p,
  (∀ n, ni_type <$> m0 !! n = ni_type <$> m !! n) →
  foldl link_interface m0 names !! p = adopt (names ≫= links_of m p) <$> m0 !! p.
Proof.
  induction names as [|n names IH]; intros m0 p Ht; [by rewrite adopt_fmap_nil|]. cbn [foldl].
  rewrite IH.
  - rewrite link_interface_lookup, adopt_fmap_app, (links_of_types m0 m) by apply Ht. done.
  - intros n'. rewrite link_interface_lookup, <-Ht. destruct (m0 !! n'); [|done].
    simpl. by rewrite adopt_type.
Qed.

Lemma linkAncestors_lookup m p : linkAncestors m !! p = adopt (children_of m p) <$> m !! p.
Proof. by apply link_all_lookup. Qed.

Lemma elem_of_children_of m parent c :
  c ∈ children_of m parent ↔ c ∈ links_of m parent (child_name c) ∧ is_Some (m !! child_name c).
Proof.
  unfold children_of. rewrite list_elem_of_bind. split.
  - intros (name & Hc & Hn%elem_of_sorted_keys). assert (child_name c = name) as ->; [|done].
    unfold links_of in Hc. destruct (ni_type <$> m !! name) as [[| |]|].
    + by apply not_elem_of_nil in Hc.
    + apply list_elem_of_fmap in Hc as (? & -> & _). done.
    + destruct (decide _); [|by apply not_elem_of_nil in Hc]. by apply list_elem_of_singleton in Hc as ->.
    + by apply not_elem_of_nil in Hc.
  - intros [Hc Hn]. exists (child_name c). split; [done|]. by apply elem_of_sorted_keys.
Qed.

(** A child refers to its parent. *)
Lemma links_of_refers m parent name c i :
  m !! name = Some i → c ∈ links_of m parent name →
  match ni_type i with
  | physicalInterface => False
  | bondInterface slaves _ => parent ∈ slaves
  | vlanInterface _ rawDevice => parent = rawDevice
  end.
Proof.
  unfold links_of. intros ->. cbn [fmap option_fmap option_map].
  destruct (ni_type i) as [|slaves o|id raw].
  - by intros ?%not_elem_of_nil.
  - intros (x & _ & [-> Hx]%list_elem_of_filter)%list_elem_of_fmap. done.
  - destruct (decide _); [done|]. by intros ?%not_elem_of_nil.
Qed.

(** ** Lemmas: depths *)

(** Equal but for the depths. *)
Definition same_but_depth (m m' : interfaces) : Prop :=
  ∀ n, setConfigDepth 0 <$> m !! n = setConfigDepth 0 <$> m' !! n.

Global Instance same_but_depth_equiv : Equivalence same_but_depth.
Proof. split; [by intros m n|by intros m m' H n|]. intros m1 m2 m3 H1 H2 n. by rewrite H1. Qed.

Lemma same_but_depth_children m m' n i :
  same_but_depth m m' → m !! n = Some i → ∃ i', m' !! n = Some i' ∧ ni_children i' = ni_children i.
Proof.
  intros H Hi. specialize (H n). rewrite Hi in H. destruct (m' !! n) as [i'|]; [|done].
  exists i'. split; [done|]. by injection H.
Qed.

Lemma same_but_depth_alter m n d : same_but_depth m (alter (setConfigDepth d) n m).
Proof.
  intros n'. destruct (decide (n = n')) as [->|Hne].
  - rewrite lookup_alter_eq. by destruct (m !! n').
  - by rewrite lookup_alter_ne.
Qed.

Definition max_depths (l : list nat) : nat := foldr Nat.max 0 l.

(** The length of the longest chain of children below an interface, up to [fuel]. *)
Fixpoint height (m : interfaces) (fuel : nat) (name : string) : nat :=
  match fuel with
  | O => O
  | S fuel =>
      match m !! name with
      | None => O
      | Some i => max_depths ((λ c, S (height m fuel (child_name c))) <$> ni_children i)
      end
  end.

Definition depth_of (m : interfaces) (name : string) : option nat := ni_depth <$> m !! name.

Section Depths.
Context (m : interfaces) (rank : string → nat).
(** Children are in the map and rank lower. *)
Context (Hrank : ∀ n i c, m !! n = Some i → c ∈ ni_children i →
  is_Some (m !! child_name c) ∧ rank (child_name c) < rank n).

Definition depth (name : string) : nat := height m (S (rank name)) name.

Lemma height_stable f1 : ∀ f2 n, rank n < f1 → rank n < f2 → height m f1 n = height m f2 n.
Proof using Hrank.
  induction f1 as [|f1 IH]; intros f2 n H1 H2; [lia|]. destruct f2 as [|f2]; [lia|].
  cbn [height]. destruct (m !! n) as [i|] eqn:E; [|done]. f_equal. apply list_fmap_ext.
  intros k c Hc. f_equal. destruct (Hrank n i c) as [_ Hlt]; [done|by eapply list_elem_of_lookup_2|].
  apply IH; lia.
Qed.

Lemma depth_eq n i :
  m !! n = Some i → depth n = max_depths ((λ c, S (depth (child_name c))) <$> ni_children i).
Proof using Hrank.
  intros Hi. unfold depth at 1. cbn [height]. rewrite Hi. f_equal. apply list_fmap_ext.
  intros k c Hc. f_equal. destruct (Hrank n i c) as [_ Hlt]; [done|by eapply list_elem_of_lookup_2|].
  apply height_stable; lia.
Qed.

Definition is_child (n n' : string) : Prop :=
  ∃ i c, m !! n = Some i ∧ c ∈ ni_children i ∧ child_name c = n'.

(** What a call of [setDepth] or a visit has done: nothing but setting depths, and
    the right ones for [done_]. *)
Definition progress (done_ : string → Prop) (m1 m2 : interfaces) : Prop :=
  same_but_depth m1 m2 ∧
  ∀ n, depth_of m1 n = Some (depth n) ∨ (done_ n ∧ is_Some (m !! n)) → depth_of m2 n = Some (depth n).

Lemma progress_trans d1 d2 m1 m2 m3 :
  progress d1 m1 m2 → progress d2 m2 m3 → progress (λ n, d1 n ∨ d2 n) m1 m3.
Proof.
  intros [H1 P1] [H2 P2]. split; [by etrans|]. intros n [Hn|[[Hn|Hn] Hs]]; apply P2; auto.
Qed.

Lemma progress_weaken (d1 d2 : string → Prop) m1 m2 :
  (∀ n, d1 n → d2 n) → progress d2 m1 m2 → progress d1 m1 m2.
Proof. intros Hd [H P]. split; [done|]. intros n [Hn|[Hn Hs]]; apply P; auto. Qed.

Lemma visit_children_progress (call : interfaces → string → option (interfaces * nat)) cs :
  (∀ c m1, c ∈ cs → same_but_depth m m1 → ∃ m2,
    call m1 (child_name c) = Some (m2, S (depth (child_name c))) ∧
    progress (rtc is_child (child_name c)) m1 m2) →
  ∀ m1 mx, same_but_depth m m1 → ∃ m2,
    visit_children call cs m1 mx =
      Some (m2, Nat.max mx (max_depths ((λ c, S (depth (child_name c))) <$> cs))) ∧
    progress (λ n, ∃ c, c ∈ cs ∧ rtc is_child (child_name c) n) m1 m2.
Proof using Type.
  induction cs as [|c cs IH]; intros Hcall m1 mx Hm1.
  - exists m1. split; [simpl; by rewrite Nat.max_0_r|]. split; [done|].
    intros n [?|[(? & ?%not_elem_of_nil & _) _]]; done.
  - destruct (Hcall c m1) as (m2 & Hc & Hp); [apply list_elem_of_here|done|].
    destruct (IH (λ c' m0 H, Hcall c' m0 (proj2 (elem_of_cons _ _ _) (or_intror H))) m2
      (Nat.max mx (S (depth (child_name c))))) as (m3 & Hv & Hp').
    { destruct Hp as [Hs _]. by etrans. }
    exists m3. cbn [visit_children]. rewrite Hc. unfold mbind, option_bind. cbn [fst snd]. rewrite Hv.
    split; [do 2 f_equal; unfold max_depths; cbn [fmap list_fmap foldr]; lia|].
    eapply progress_weaken; [|by eapply progress_trans].
    intros n (c' & [->|Hin]%elem_of_cons & Hr); [by left|right; eauto].
Qed.

Lemma setDepth_progress fuel : ∀ m1 n,
  rank n < fuel → same_but_depth m m1 → is_Some (m !! n) → ∃ m2,
  setDepth fuel m1 n = Some (m2, S (depth n)) ∧ progress (rtc is_child n) m1 m2.
Proof using Hrank.
  induction fuel as [|fuel IH]; intros m1 n Hf Hm1 [i Hi]; [lia|].
  destruct (same_but_depth_children m m1 n i Hm1 Hi) as (i1 & Hi1 & Hc).
  cbn [setDepth]. rewrite Hi1, Hc.
  destruct (visit_children_progress (setDepth fuel) (ni_children i)) with (m1 := m1) (mx := 0)
    as (m2 & -> & Hp); [|done|].
  { intros c m0 Hin Hm0. destruct (Hrank n i c Hi Hin) as [Hs Hlt]. apply IH; [lia|done..]. }
  simpl. rewrite <-(depth_eq n i Hi). eexists. split; [done|].
  destruct Hp as [Hs Hp]. split.
  - etrans; [exact Hs|apply same_but_depth_alter].
  - intros n' Hn'. unfold depth_of in *. destruct (decide (n = n')) as [->|Hne].
    + rewrite lookup_alter_eq. destruct (same_but_depth_children m m2 n' i) as (i2 & -> & _);
        [by etrans|done|]. done.
    + rewrite lookup_alter_ne by done. apply Hp. destruct Hn' as [?|[Hr Hn']]; [by left|right].
      split; [|done]. apply rtc_inv in Hr as [?|(y & (i' & c & Hi' & Hcin & <-) & Hr)]; [done|].
      rewrite Hi in Hi'. injection Hi' as <-. eauto.
Qed.

Lemma mark_roots_progress fuel roots : ∀ m1,
  (∀ n, n ∈ roots → is_Some (m !! n) ∧ rank n < fuel) → same_but_depth m m1 → ∃ m2,
  mark_roots fuel roots m1 = Some m2 ∧
  progress (λ n, ∃ r, r ∈ roots ∧ rtc is_child r n) m1 m2.
Proof using Hrank.
  induction roots as [|r roots IH]; intros m1 Hr Hm1.
  - exists m1. split; [done|]. split; [done|]. intros n [?|[(? & ?%not_elem_of_nil & _) _]]; done.
  - destruct (Hr r) as [Hs Hf]; [apply list_elem_of_here|].
    destruct (setDepth_progress fuel m1 r Hf Hm1 Hs) as (m2 & Hset & Hp).
    destruct (IH m2) as (m3 & Hmark & Hp').
    { intros n Hn. apply Hr. by apply list_elem_of_further. }
    { destruct Hp as [Hsd _]. by etrans. }
    exists m3. cbn [mark_roots]. rewrite Hset. simpl. split; [done|].
    eapply progress_weaken; [|by eapply progress_trans].
    intros n (c' & [->|Hin]%elem_of_cons & Hrtc); [by left|right; eauto].
Qed.
End Depths.

(** ** Lemmas: roots *)

Lemma rank_bound {V} (m : gmap string V) (rank : string → nat) :
  ∃ R, ∀ n, is_Some (m !! n) → (rank n ≤ R)%nat.
Proof.
  exists (max_depths (rank <$> (map_to_list m).*1)). intros n [v Hv].
  apply elem_of_map_to_list in Hv. unfold max_depths.
  induction (map_to_list m) as [|[n' v'] l IH]; [by apply not_elem_of_nil in Hv|].
  rewrite !fmap_cons. cbn [foldr fst].
  apply elem_of_cons in Hv as [[= <- <-]|Hv]; [lia|]. specialize (IH Hv). lia.
Qed.

Lemma children_names_parent m n : n ∈ children_names m → ∃ p, is_child m p n.
Proof.
  unfold children_names. intros Hn%elem_of_list_to_set.
  apply list_elem_of_bind in Hn as (i & Hn & Hi).
  apply list_elem_of_fmap in Hn as (c & -> & Hc).
  apply list_elem_of_fmap in Hi as ([p i'] & -> & Hp%elem_of_map_to_list). by exists p, i', c.
Qed.

(** Every interface is below a root. *)
Lemma below_root m rank n :
  (∀ n i c, m !! n = Some i → c ∈ ni_children i →
    is_Some (m !! child_name c) ∧ rank (child_name c) < rank n) →
  is_Some (m !! n) → ∃ r, r ∈ root_interfaces m ∧ rtc (is_child m) r n.
Proof.
  intros Hrank. destruct (rank_bound m rank) as [R HR].
  assert (∀ k n, (R - rank n < k)%nat → is_Some (m !! n) → ∃ r, r ∈ root_interfaces m ∧ rtc (is_child m) r n)
    as H; [|intros Hn; by eapply (H (S R)); [lia|]].
  induction k as [|k IH]; intros n' Hk Hn'; [lia|].
  destruct (decide (n' ∈ children_names m)) as [Hc|Hc].
  - destruct (children_names_parent m n' Hc) as (p & i & c & Hp & Hcin & <-).
    destruct (Hrank p i c Hp Hcin) as [_ Hlt].
    assert (rank p ≤ R)%nat by (apply HR; by eexists).
    destruct (IH p) as (r & Hr & Hrtc); [lia|by eexists|].
    exists r. split; [done|]. eapply rtc_r; [exact Hrtc|]. by exists i, c.
  - exists n'. split; [|done]. apply elem_of_difference. split; [by apply elem_of_dom|done].
Qed.

(** *** Acyclic bonds *)

(** No bond is, through bonds that are slaves of bonds, a slave of itself. *)
Definition bonds_ranked (rank : string → nat) (m : interfaces) : Prop :=
  ∀ b i slaves o s i' slaves' o',
    m !! b = Some i → ni_type i = bondInterface slaves o → s ∈ slaves →
    m !! s = Some i' → ni_type i' = bondInterface slaves' o' → rank b < rank s.

Definition link_rank (rank : string → nat) (R : nat) (m : interfaces) (n : string) : nat :=
  match ni_type <$> m !! n with
  | Some physicalInterface => S (S R)
  | Some (bondInterface _ _) => S (rank n)
  | _ => 0
  end.

Lemma linked_rank rank R m :
  wf_interfaces m → bonds_ranked rank m → (∀ n, is_Some (m !! n) → (rank n ≤ R)%nat) →
  ∀ n i c, linkAncestors m !! n = Some i → c ∈ ni_children i →
    is_Some (linkAncestors m !! child_name c) ∧ link_rank rank R m (child_name c) < link_rank rank R m n.
Proof.
  intros Hwf Hb HR n i c Hi Hc. rewrite linkAncestors_lookup in Hi.
  destruct (m !! n) as [j|] eqn:Hj; [|done]. injection Hi as <-.
  destruct (Hwf n j Hj) as (_ & Hnil & _).
  assert (c ∈ children_of m n ∧ (ni_type j = physicalInterface ∨ ∃ sl o, ni_type j = bondInterface sl o))
    as [Hcin Hty].
  { unfold adopt in Hc. destruct (ni_type j) as [|sl o|id raw]; cbn in Hc; rewrite Hnil in Hc.
    - split; [done|by left].
    - split; [done|right; by eexists _, _].
    - by apply not_elem_of_nil in Hc. }
  apply elem_of_children_of in Hcin as [Hl [ic Hic]].
  pose proof (links_of_refers m n (child_name c) c ic Hic Hl) as Hr.
  rewrite linkAncestors_lookup, Hic. split; [by eexists|]. unfold link_rank. rewrite Hic, Hj. simpl.
  destruct (ni_type ic) as [|sl o|id raw] eqn:Htc; [done| |].
  - destruct Hty as [->|(sl' & o' & Htj)].
    + assert (rank (child_name c) ≤ R)%nat by (apply HR; by eexists). lia.
    + rewrite Htj. assert (rank (child_name c) < rank n); [|lia]. eapply Hb; eauto.
  - destruct Hty as [->|(sl' & o' & ->)]; lia.
Qed.

Lemma createInterfaces_all_wf stanzas m : createInterfaces stanzas = Ok m → wf_interfaces m.
Proof.
  intros H. eapply (foldM_inv _ wf_interfaces); [|apply map_Forall_empty|exact H].
  intros m0 i m1 Hm. by apply create_interface_wf.
Qed.

(** The interfaces a stanza is about. *)
Definition mentioned (iface : stanzaInterface) : list string :=
  match si_kind iface with
  | interfaceBond => si_name iface :: default [] (si_options iface !! "bond-slaves")
  | interfacePhysical =>
      match si_configMethod iface with configMethodLoopback => [] | _ => [si_name iface] end
  | interfaceVLAN =>
      si_name iface :: match si_options iface !! "raw_device" with Some [device] => [device] | _ => [] end
  end.

Lemma create_interface_dom m iface m' :
  create_interface m iface = Ok m' → dom m' = list_to_set (mentioned iface) ∪ dom m.
Proof.
  unfold create_interface, mentioned. destruct (si_kind iface).
  - intros [= <-]. rewrite ensure_physical_all_dom, dom_insert_L. set_solver.
  - intros [= <-]. destruct (si_configMethod iface); rewrite ?dom_insert_L; set_solver.
  - destruct (si_options iface !! "id") as [[|id ?]|]; [done| |done].
    destruct (si_options iface !! "raw_device") as [[|device [|]]|]; intros [= <-];
      rewrite dom_insert_L, ?ensure_physical_dom; set_solver.
Qed.

Lemma create_interfaces_dom stanzas : ∀ m m',
  foldM create_interface m stanzas = Ok m' → dom m' = list_to_set (stanzas ≫= mentioned) ∪ dom m.
Proof.
  induction stanzas as [|s stanzas IH]; intros m m'.
  - intros [= <-]. simpl. set_solver.
  - rewrite foldM_cons. destruct (create_interface m s) as [m1|e|e] eqn:E; [|done..].
    intros ->%IH. rewrite (create_interface_dom m s m1 E). simpl.
    rewrite list_to_set_app_L. set_solver.
Qed.

Lemma setDepth_same fuel : ∀ m n m' d, setDepth fuel m n = Some (m', d) → same_but_depth m m'.
Proof.
  induction fuel as [|fuel IH]; intros m n m' d; [done|]. cbn [setDepth].
  destruct (m !! n) as [i|]; [|by intros [= <- _]].
  assert (∀ cs m1 mx m2 d', visit_children (setDepth fuel) cs m1 mx = Some (m2, d') →
    same_but_depth m1 m2) as Hv.
  { induction cs as [|c cs IHc]; intros m1 mx m2 d'; [by intros [= <- _]|]. cbn [visit_children].
    destruct (setDepth fuel m1 (child_name c)) as [[m3 d3]|] eqn:E; [|done]. simpl.
    intros H%IHc. etrans; [by eapply IH|exact H]. }
  destruct (visit_children (setDepth fuel) (ni_children i) m 0) as [[m2 d2]|] eqn:E; [|done]. simpl.
  intros [= <- _]. etrans; [by eapply Hv|apply same_but_depth_alter].
Qed.

Lemma setDepth_cycle L (P : string → Prop) fuel :
  (∀ n, P n → ∃ i c, L !! n = Some i ∧ c ∈ ni_children i ∧ P (child_name c)) →
  ∀ m n, same_but_depth L m → P n → setDepth fuel m n = None.
Proof.
  intros HP. induction fuel as [|fuel IH]; intros m n Hm Hn; [done|].
  destruct (HP n Hn) as (i & c & Hi & Hc & Hcn).
  destruct (same_but_depth_children L m n i Hm Hi) as (i' & Hi' & Hci). cbn [setDepth].
  rewrite Hi', Hci.
  assert (∀ cs m1 mx, c ∈ cs → same_but_depth L m1 → visit_children (setDepth fuel) cs m1 mx = None)
    as ->; [|done..].
  induction cs as [|c' cs IHc]; intros m1 mx Hin Hm1; [by apply not_elem_of_nil in Hin|].
  cbn [visit_children]. destruct (setDepth fuel m1 (child_name c')) as [[m2 d2]|] eqn:E; [|done]. simpl.
  apply elem_of_cons in Hin as [<-|Hin]; [by rewrite IH in E|]. apply IHc; [done|].
  etrans; [exact Hm1|by eapply setDepth_same].
Qed.

Lemma mark_roots_cycle L (P : string → Prop) fuel roots r :
  (∀ n, P n → ∃ i c, L !! n = Some i ∧ c ∈ ni_children i ∧ P (child_name c)) →
  r ∈ roots → P r → ∀ m, same_but_depth L m → mark_roots fuel roots m = None.
Proof.
  intros HP Hr HPr. induction roots as [|r' roots IH]; intros m Hm; [by apply not_elem_of_nil in Hr|].
  cbn [mark_roots]. destruct (setDepth fuel m r') as [[m2 d2]|] eqn:E; [|done]. simpl.
  apply elem_of_cons in Hr as [<-|Hr]; [by erewrite setDepth_cycle in E|]. apply IH; [done|].
  etrans; [exact Hm|by eapply setDepth_same].
Qed.

(** ** Theorems *)

(** The interfaces that are created are those the stanzas mention, each under
    its own name, and every raw device and every slave is among them, so the links
    between interfaces can be followed. *)
Theorem createInterfaces_wf stanzas m :
  createInterfaces stanzas = Ok m →
  wf_interfaces m ∧ dom m = list_to_set (stanzas ≫= mentioned).
Proof.
  intros H. split; [by eapply createInterfaces_all_wf|].
  rewrite (create_interfaces_dom stanzas ∅ m H). set_solver.
Qed.

(** When no bond is a slave of itself, however indirectly, the depths are
    computed in every order of the roots, with enough fuel: nothing else is changed,
    and the depth of an interface is zero without children and one more than the
    greatest depth of a child with some. *)
Theorem buildInterfaces_depths stanzas m rank :
  createInterfaces stanzas = Ok m → bonds_ranked rank m →
  ∃ fuel0, ∀ fuel order, (fuel0 ≤ fuel)%nat → order ≡ₚ elements (root_interfaces (linkAncestors m)) →
  ∃ m', markConfigDepths fuel order (linkAncestors m) = Some m' ∧
    same_but_depth (linkAncestors m) m' ∧
    ∀ n i, m' !! n = Some i →
      ni_depth i = max_depths ((λ c, S (default 0 (depth_of m' (child_name c)))) <$> ni_children i).
Proof.
  intros Hm Hb. apply createInterfaces_all_wf in Hm as Hwf.
  destruct (rank_bound m rank) as [R HR].
  pose proof (linked_rank rank R m Hwf Hb HR) as Hrank. set (L := linkAncestors m) in *.
  destruct (rank_bound L (link_rank rank R m)) as [R' HR'].
  exists (S R'). intros fuel order Hfuel Horder.
  destruct (mark_roots_progress L (link_rank rank R m) Hrank fuel order L) as (m' & Hmark & Hsame & Hp).
  { intros n Hn. rewrite Horder in Hn. apply elem_of_elements, elem_of_difference in Hn as [Hn _].
    apply elem_of_dom in Hn. split; [done|]. specialize (HR' n Hn). lia. }
  { done. }
  assert (∀ n, is_Some (L !! n) → depth_of m' n = Some (depth L (link_rank rank R m) n)) as Hdepth.
  { intros n Hn. apply Hp. right. split; [|done].
    destruct (below_root L _ n Hrank Hn) as (r & Hr & Hrtc). exists r. split; [|done].
    rewrite Horder. by apply elem_of_elements. }
  exists m'. split_and!; [done..|]. intros n i Hi.
  destruct (same_but_depth_children m' L n i) as (iL & HiL & Hc); [done|done|].
  assert (depth_of m' n = Some (ni_depth i)) as Hd by (unfold depth_of; by rewrite Hi).
  rewrite Hdepth in Hd by (by eexists). injection Hd as Hd. rewrite <-Hd.
  rewrite (depth_eq L _ Hrank n iL HiL), Hc. f_equal. apply list_fmap_ext.
  intros k c Hcin%list_elem_of_lookup_2. rewrite Hdepth; [done|].
  rewrite <-Hc in Hcin. by destruct (Hrank n iL c HiL Hcin).
Qed.

(** When, from a root on, every interface of some set has a child in the set,
    the depths are never computed, with any amount of fuel: the program runs out of
    stack. *)
Theorem buildInterfaces_cycle stanzas m (P : string → Prop) r fuel order :
  createInterfaces stanzas = Ok m →
  (∀ n, P n → ∃ i c, linkAncestors m !! n = Some i ∧ c ∈ ni_children i ∧ P (child_name c)) →
  r ∈ order (linkAncestors m) → P r →
  buildInterfaces fuel order stanzas = Ok None.
Proof.
  intros Hm HP Hr HPr. unfold buildInterfaces, mbind, result_bind. rewrite Hm.
  unfold markConfigDepths. by erewrite mark_roots_cycle.
Qed.

(** *** No panic *)

Lemma createInterfaces_no_panic stanzas : ∀ m,
  Forall vlan_has_id stanzas → is_ok (foldM create_interface m stanzas) = true.
Proof.
  induction stanzas as [|s stanzas IH]; intros m H; [done|]. apply Forall_cons in H as [Hs H].
  rewrite foldM_cons. unfold create_interface. destruct (si_kind s) eqn:Hk; [by apply IH..|].
  destruct (Hs Hk) as [id ->].
  destruct (si_options s !! "raw_device") as [[|device [|]]|]; by apply IH.
Qed.

(** A Debian network configuration is never the cause of a panic of the parser
    or of the construction of the interfaces, and once its stanzas are parsed the
    construction does not fail. *)
Theorem ProcessDebianNetconf_no_panic fuel order config :
  no_panic (ProcessDebianNetconf fuel order config) ∧
  (is_ok (debian_stanzas config) = true → is_ok (ProcessDebianNetconf fuel order config) = true).
Proof.
  unfold ProcessDebianNetconf. pose proof (no_panic_debian_stanzas config) as Hp.
  pose proof (debian_stanzas_vlan config) as Hv.
  destruct (debian_stanzas config) as [stanzas|e|e]; [|done..]. simpl.
  unfold buildInterfaces, createInterfaces. specialize (Hv stanzas eq_refl).
  pose proof (createInterfaces_no_panic stanzas ∅ Hv) as Hok.
  unfold mbind at 1 3, result_bind.
  destruct (foldM create_interface ∅ stanzas); done.
Qed.

(** *** The order of the files *)

Lemma compare_app_lt s t x y :
  String.length s = String.length t → String.compare s t = Lt →
  String.compare (s +:+ x) (t +:+ y) = Lt.
Proof.
  revert t. induction s as [|a s IH]; intros [|b t] Hl Hc; try done. cbn [String.compare String.append] in *.
  destruct (Ascii.compare a b); [|done..]. apply IH; [by injection Hl|done].
Qed.

Lemma hex02_order a b :
  (a < b < 256)%nat →
  String.length (hex02 a) = String.length (hex02 b) ∧ String.compare (hex02 a) (hex02 b) = Lt.
Proof.
  intros [Hab Hb].
  assert (forallb (λ b, forallb (λ a,
    (String.length (hex02 a) =? String.length (hex02 b))%nat &&
    match String.compare (hex02 a) (hex02 b) with Lt => true | _ => false end) (seq 0 b)) (seq 0 256) = true)
    as H by (vm_compute; reflexivity).
  rewrite forallb_forall in H. specialize (H b). rewrite forallb_forall in H.
  rewrite in_seq in H. assert (In a (seq 0 b)) as Ha by (apply in_seq; lia).
  assert (0 ≤ b < 0 + 256)%nat as Hr by lia. specialize (H Hr a Ha).
  apply andb_true_iff in H as [Hl%Nat.eqb_eq Hc]. split; [done|].
  by destruct (String.compare (hex02 a) (hex02 b)).
Qed.

(** Below 256 levels, the files of interfaces are read in the order of their
    depths: a child before what it is stacked on. *)
Theorem Filename_order m i j c :
  (∀ n i, m !! n = Some i →
    ni_depth i = max_depths ((λ c, S (default 0 (depth_of m (child_name c)))) <$> ni_children i)) →
  m !! ni_name j = Some j → c ∈ ni_children j → m !! child_name c = Some i → (ni_depth j < 256)%nat →
  String.compare (Filename i) (Filename j) = Lt.
Proof.
  intros Hdepth Hj Hc Hi Hlt.
  assert (ni_depth i < ni_depth j)%nat as Hij.
  { rewrite (Hdepth _ j Hj). apply list_elem_of_lookup in Hc as [k Hk].
    assert (∀ l k, l !! k = Some (S (ni_depth i)) → ni_depth i < max_depths l)%nat as Hmax.
    { induction l as [|x l IH]; intros [|k'] Hl; [done..| |]; unfold max_depths; cbn [foldr].
      - injection Hl as ->. lia.
      - specialize (IH k' Hl). unfold max_depths in IH. lia. }
    apply (Hmax _ k). rewrite list_lookup_fmap, Hk. simpl. unfold depth_of. by rewrite Hi. }
  destruct (hex02_order (ni_depth i) (ni_depth j)) as [Hl Hcmp]; [lia|].
  unfold Filename. by apply compare_app_lt.
Qed.

(** A check for bonds that are not stacked on bonds. *)
Definition is_bond (m : interfaces) (name : string) : bool :=
  match ni_type <$> m !! name with Some (bondInterface _ _) => true | _ => false end.

Definition flat_bonds (m : interfaces) : bool :=
  forallb (λ ni, match ni_type ni.2 with
    | bondInterface slaves _ => forallb (λ s, negb (is_bond m s)) slaves
    | _ => true end) (map_to_list m).

Lemma flat_bonds_ranked m rank : flat_bonds m = true → bonds_ranked rank m.
Proof.
  unfold flat_bonds. intros H b i slaves o s i' slaves' o' Hb Ht Hs Hs' Ht'. exfalso.
  rewrite forallb_forall in H. specialize (H (b, i)).
  apply elem_of_map_to_list in Hb. rewrite <-list_elem_of_In in H. specialize (H Hb). cbn [snd] in H.
  rewrite Ht, forallb_forall in H. specialize (H s). rewrite <-list_elem_of_In in H. specialize (H Hs).
  unfold is_bond in H. rewrite Hs' in H. cbn [fmap option_fmap option_map] in H. by rewrite Ht' in H.
Qed.

(** *** Examples *)

Definition text (lines : list string) : string := Join lines nl.

Definition order_of (m : interfaces) : list string := elements (root_interfaces m).

Definition stacked : string := text
  ["iface eth0 inet manual"; "iface eth1 inet manual";
   "iface bond0 inet static"; "  address 10.0.0.2"; "  netmask 255.255.255.0"; "  bond-slaves eth0 eth1";
   "  bond-mode 802.3ad"; "iface bond0.7 inet dhcp"; "  vlan_raw_device bond0"].

Example stacked_files :
  match ProcessDebianNetconf 5 order_of stacked with
  | Ok (Some l) => Filename <$> l = ["01-bond0"; "00-bond0.7"; "02-eth0"; "02-eth1"] ∧
      (Network <$> head l) = Some (text
        ["[Match]"; "Name=bond0"; ""; "[Network]"; "VLAN=bond0.7"; ""; "[Address]";
         "Address=10.0.0.2/24"; ""])
  | _ => False
  end.
Proof. vm_compute. split; reflexivity. Qed.

(** Two bonds that are slaves of each other. *)
Definition bonded_cycle : string := text
  ["iface bond0 inet dhcp"; "  bond-slaves eth0 bond1"; "iface bond1 inet manual"; "  bond-slaves bond0"].

Definition the_stanzas (config : string) : list stanzaInterface :=
  match debian_stanzas config with Ok s => s | _ => [] end.

Definition the_map (config : string) : interfaces :=
  match createInterfaces (the_stanzas config) with Ok m => m | _ => ∅ end.

Lemma createInterfaces_wf_witness :
  wf_interfaces (the_map stacked) ∧
  dom (the_map stacked) = list_to_set (the_stanzas stacked ≫= mentioned).
Proof. apply (createInterfaces_wf (the_stanzas stacked) (the_map stacked)). vm_compute. reflexivity. Defined.

Lemma buildInterfaces_depths_witness :
  ∃ fuel0, ∃ m', markConfigDepths fuel0 (order_of (linkAncestors (the_map stacked)))
    (linkAncestors (the_map stacked)) = Some m' ∧ same_but_depth (linkAncestors (the_map stacked)) m'.
Proof.
  destruct (buildInterfaces_depths (the_stanzas stacked) (the_map stacked) (λ _, 0)) as [fuel0 H].
  - vm_compute. reflexivity.
  - apply flat_bonds_ranked. vm_compute. reflexivity.
  - exists fuel0. destruct (H fuel0 (order_of (linkAncestors (the_map stacked)))) as (m' & Hm & Hs & _);
      [apply Nat.le_refl|reflexivity|]. exists m'. split; [exact Hm|exact Hs].
Defined.

(** The set of the two bonds and the interface they are stacked on. *)
Lemma buildInterfaces_cycle_witness :
  buildInterfaces 1000 order_of (the_stanzas bonded_cycle) = Ok None ∧
  ProcessDebianNetconf 1000 order_of bonded_cycle = Ok None.
Proof.
  assert (buildInterfaces 1000 order_of (the_stanzas bonded_cycle) = Ok None) as H.
  { apply (buildInterfaces_cycle (the_stanzas bonded_cycle) (the_map bonded_cycle)
      (λ n, n ∈ ["eth0"; "bond0"; "bond1"]) "eth0").
    - vm_compute. reflexivity.
    - intros n [->|[->|[->|[]%not_elem_of_nil]%elem_of_cons]%elem_of_cons]%elem_of_cons.
      + eexists _, (BondChild "bond0"). split; [vm_compute; reflexivity|].
        split; [vm_compute; apply list_elem_of_here|set_solver].
      + eexists _, (BondChild "bond1"). split; [vm_compute; reflexivity|].
        split; [vm_compute; apply list_elem_of_here|set_solver].
      + eexists _, (BondChild "bond0"). split; [vm_compute; reflexivity|].
        split; [vm_compute; apply list_elem_of_here|set_solver].
    - apply (bool_decide_unpack _). vm_compute. exact I.
    - set_solver. }
  split; [exact H|]. unfold ProcessDebianNetconf.
  assert (debian_stanzas bonded_cycle = Ok (the_stanzas bonded_cycle)) as -> by (vm_compute; reflexivity).
  exact H.
Defined.

Lemma Filename_order_witness :
  ∃ i j, String.compare (Filename i) (Filename j) = Lt ∧ ni_name j = "bond0".
Proof.
  set (i := new_interface "bond0.7" (configMethodDHCP None) (vlanInterface 7 "bond0")).
  set (j := setConfigDepth 1 (add_child (VlanChild "bond0.7")
              (new_interface "bond0" configMethodManual (bondInterface [] ∅)))).
  exists i, j. split; [|done].
  apply (Filename_order {["bond0.7" := i; "bond0" := j]} i j (VlanChild "bond0.7")).
  - intros n k [[<- <-]|[_ [<- <-]%lookup_singleton_Some]]%lookup_insert_Some; vm_compute; reflexivity.
  - vm_compute. reflexivity.
  - vm_compute. apply list_elem_of_here.
  - vm_compute. reflexivity.
  - vm_compute. lia.
Defined.
