(* ===== verification/VMware.v ===== *)
(** * Network interfaces of a VMware guest ([config/cloudinit/network/vmware.go])

    The host describes the interfaces as numbered keys. The loops of the code count until a key is
    missing; [None] is a loop that has not ended after [fuel] turns. *)

From stdpp Require Import prelude gmap strings list pretty.
From S2P Require Import Prelude GoStrings GoNet Debian InterfaceGraph.

Local Open Scope string_scope.

(** ** Counting loops *)

(** [for i := 0; ; i++]: the body breaks, adds an element or fails. *)
Fixpoint count {A} (body : nat → result (option A)) (fuel i : nat) : option (result (list A)) :=
  match fuel with
  | O => None
  | S fuel =>
      match body i with
      | Ok None => Some (Ok [])
      | Ok (Some a) =>
          rest ← count body fuel (S i);
          Some (match rest with Ok l => Ok (a :: l) | e => e end)
      | Err e => Some (Err e)
      | Panic e => Some (Panic e)
      end
  end.

Section Config.
Context (config : gmap string string).

Definition num (i : nat) : string := Itoa (Z.of_nat i).

Definition dns_server (i : nat) : result (option (option IP)) :=
  match config !! ("dns.server." +:+ num i) with
  | None => Ok None
  | Some ipStr =>
      match ParseIP ipStr with
      | Some ip => Ok (Some (Some ip))
      | None => Err "invalid nameserver"
      end
  end.

Definition dns_domain (i : nat) : result (option string) := Ok (config !! ("dns.domain." +:+ num i)).

Definition processDHCPConfig (prefix : string) : result bool :=
  match config !! (prefix +:+ "dhcp") with
  | None => Ok false
  | Some "yes" => Ok true
  | Some "no" => Ok false
  | Some _ => Err "invalid DHCP option"
  end.

Definition address_entry (prefix : string) (a : nat) : result (option (option IP * option Mask)) :=
  match config !! (prefix +:+ "ip." +:+ num a +:+ "." +:+ "address") with
  | None => Ok None
  | Some addressStr =>
      match ParseCIDR_IP addressStr, ParseCIDR addressStr with
      | Some ip, Some (_, mask) => Ok (Some (Some ip, Some mask))
      | _, _ => Err "invalid address"
      end
  end.

Definition processAddressConfig (fuel : nat) (prefix : string) :
    option (result (list (option IP * option Mask))) := count (address_entry prefix) fuel 0.

Definition route_entry (prefix : string) (r : nat) : result (option route) :=
  let prefix := prefix +:+ "route." +:+ num r +:+ "." in
  match config !! (prefix +:+ "gateway"), config !! (prefix +:+ "destination") with
  | Some _, None => Err "missing destination key"
  | None, Some _ => Err "missing gateway key"
  | None, None => Ok None
  | Some gatewayStr, Some destinationStr =>
      match ParseIP gatewayStr with
      | None => Err "invalid gateway"
      | Some gw =>
          match ParseCIDR destinationStr with
          | None => Err "invalid CIDR address"
          | Some (ip, mask) =>
              Ok (Some {| destination_IP := Some ip; destination_Mask := Some mask; gateway := Some gw |})
          end
      end
  end.

Definition processRouteConfig (fuel : nat) (prefix : string) : option (result (list route)) :=
  count (route_entry prefix) fuel 0.

(** The hardware address, if there is one. *)
Definition vmware_mac (prefix : string) : result (option HardwareAddr) :=
  match config !! (prefix +:+ "mac") with
  | None => Ok None
  | Some mac => match ParseMAC mac with
                | Some hwaddr => Ok (Some hwaddr)
                | None => Err "error while parsing MAC address"
                end
  end.

Definition vmware_interface (nameservers_ : list (option IP)) (domains_ : list string)
    (addresses_ : list (option IP * option Mask)) (routes_ : list route) (dhcp : bool)
    (hwaddr : option HardwareAddr) (name : string) : option networkInterface :=
  let mk conf :=
    {| ni_name := name; ni_hwaddr := hwaddr; ni_config := conf; ni_children := []; ni_depth := 0;
       ni_type := physicalInterface |} in
  match addresses_, routes_ with
  | [], [] => if dhcp then Some (mk (configMethodDHCP hwaddr)) else None
  | _, _ =>
      Some (mk (configMethodStatic
        {| addresses := addresses_; nameservers := nameservers_; domains := domains_;
           routes := routes_; static_hwaddress := hwaddr |}))
  end.

(** One turn of the loop over the interfaces; an inner loop that does not end is a
    [Panic] here. *)
Definition interface_prefix (i : nat) : string := "interface." +:+ num i +:+ ".".

Definition looped {A} (r : option (result A)) : result A := default (Panic "loop") r.

Definition interface_entry (fuel : nat) (nameservers_ : list (option IP)) (domains_ : list string) (i : nat) :
    result (option networkInterface) :=
  let prefix := interface_prefix i in
  dhcp ← processDHCPConfig prefix;
  addresses_ ← looped (processAddressConfig fuel prefix);
  routes_ ← looped (processRouteConfig fuel prefix);
  hwaddr ← vmware_mac prefix;
  let name := default "" (config !! (prefix +:+ "name")) in
  Ok (vmware_interface nameservers_ domains_ addresses_ routes_ dhcp hwaddr name).

Definition ProcessVMwareNetconf (fuel : nat) : option (result (list networkInterface)) :=
  nameservers_ ← count dns_server fuel 0;
  domains_ ← count dns_domain fuel 0;
  match nameservers_, domains_ with
  | Ok nameservers_, Ok domains_ => count (interface_entry fuel nameservers_ domains_) fuel 0
  | Err e, _ | _, Err e => Some (Err e)
  | Panic e, _ | _, Panic e => Some (Panic e)
  end.

(** ** Every loop ends *)

Lemma num_inj i j : num i = num j → i = j.
Proof. unfold num, Itoa. intros H%(inj pretty). lia. Qed.

Lemma num_plain i : has_char "." (num i) = false.
Proof.
  unfold num, Itoa. destruct i as [|i]; [done|].
  change (pretty (Z.of_nat (S i))) with (pretty_N_go (N.pos (Pos.of_succ_nat i)) "").
  generalize (N.pos (Pos.of_succ_nat i)). intros n.
  assert (∀ s, has_char "." s = false → has_char "." (pretty_N_go n s) = false) as H; [|by apply H].
  induction (N.lt_wf_0 n) as [n _ IH]; intros s Hs.
  destruct (decide (n = 0)%N) as [->|Hn]; [by rewrite pretty_N_go_0|].
  rewrite pretty_N_go_step by lia. apply IH; [apply N.div_lt; lia|].
  cbn [has_char]. rewrite Hs. unfold pretty_N_char. by repeat case_match.
Qed.

Lemma numbered_inj p i r j r' : p +:+ num i +:+ "." +:+ r = p +:+ num j +:+ "." +:+ r' → i = j.
Proof.
  intros H%(inj (String.append p)). simpl in H.
  pose proof (cut_char_app "." (num i) r (num_plain i)) as Hi.
  pose proof (cut_char_app "." (num j) r' (num_plain j)) as Hj.
  apply num_inj. congruence.
Qed.

(** A loop that goes on finds, in every turn, a key of its own. *)
Lemma count_ends {A} (body : nat → result (option A)) (key : nat → string) fuel i :
  (∀ n m, key n = key m → n = m) →
  (∀ n a, body n = Ok (Some a) → key n ∈ dom config) →
  (size config < fuel)%nat → is_Some (count body fuel i).
Proof.
  intros Hinj Hkey Hf.
  assert (∀ fuel i (seen : gset string), seen ⊆ dom config → (size (dom config) - size seen < fuel)%nat →
    (∀ n, i ≤ n → key n ∉ seen)%nat → is_Some (count body fuel i)) as H.
  { clear fuel i Hf. induction fuel as [|fuel IH]; intros i seen Hs Hf Hn; [lia|]. cbn [count].
    destruct (body i) as [[a|]|e|e] eqn:E; [|by eexists..].
    assert (key i ∈ dom config) as Hi by by eapply Hkey.
    destruct (IH (S i) ({[key i]} ∪ seen)) as [r ->].
    - set_solver.
    - assert (key i ∉ seen) by by apply Hn.
      assert (size ({[key i]} ∪ seen) = S (size seen)) as Hsz.
      { rewrite size_union by set_solver. by rewrite size_singleton. }
      assert (size ({[key i]} ∪ seen) ≤ size (dom config))%nat by (apply subseteq_size; set_solver). lia.
    - intros n Hle [Hk%elem_of_singleton|Hk]%elem_of_union; [apply Hinj in Hk; lia|].
      revert Hk. apply Hn. lia.
    - simpl. by eexists. }
  apply (H fuel i ∅); [set_solver| |set_solver]. rewrite size_empty, size_dom. lia.
Qed.

Lemma count_Ok {A} (body : nat → result (option A)) fuel : ∀ i l,
  count body fuel i = Some (Ok l) →
  (∀ k a, l !! k = Some a → body (i + k)%nat = Ok (Some a)) ∧ body (i + length l)%nat = Ok None.
Proof using Type.
  induction fuel as [|fuel IH]; intros i l; [done|]. cbn [count].
  destruct (body i) as [[a|]|e|e] eqn:E; [| |done..].
  - destruct (count body fuel (S i)) as [[l'|e|e]|] eqn:Ec; [|done..]. intros [= <-].
    destruct (IH _ _ Ec) as [Hk Hend]. split.
    + intros [|k] b; simpl; [|intros Hb].
      * intros [= ->]. by rewrite Nat.add_0_r.
      * rewrite Nat.add_succ_r. by apply Hk.
    + cbn [length]. by rewrite Nat.add_succ_r.
  - intros [= <-]. split; [done|]. by rewrite Nat.add_0_r.
Qed.

Lemma count_no_panic {A} (body : nat → result (option A)) fuel : ∀ i r,
  (∀ n, no_panic (body n)) → count body fuel i = Some r → no_panic r.
Proof using Type.
  induction fuel as [|fuel IH]; intros i r Hb; [done|]. cbn [count]. specialize (Hb i) as Hbi.
  destruct (body i) as [[a|]|e|e]; [| | |done].
  - destruct (count body fuel (S i)) as [r'|] eqn:E; [|done]. intros [= <-].
    apply IH in E; [|done]. by destruct r'.
  - by intros [= <-].
  - by intros [= <-].
Qed.

(** *** The loops of the code *)

Lemma address_ends fuel prefix : (size config < fuel)%nat → is_Some (processAddressConfig fuel prefix).
Proof.
  apply (count_ends _ (λ n, prefix +:+ "ip." +:+ num n +:+ "." +:+ "address")).
  - intros n m H%(inj (String.append prefix)). by eapply numbered_inj.
  - intros n a. unfold address_entry. intros H. apply elem_of_dom.
    destruct (config !! _); [by eexists|done].
Qed.

Lemma route_ends fuel prefix : (size config < fuel)%nat → is_Some (processRouteConfig fuel prefix).
Proof.
  apply (count_ends _ (λ n, (prefix +:+ "route." +:+ num n +:+ ".") +:+ "gateway")).
  - intros n m. rewrite !app_assoc_s. intros H%(inj (String.append prefix)). by eapply numbered_inj.
  - intros n a. unfold route_entry. intros H. apply elem_of_dom.
    destruct (config !! _); [by eexists|]. by destruct (config !! _).
Qed.

(** The key an interface has at least. *)
Definition interface_key (i : nat) : string :=
  interface_prefix i +:+
  (if decide (is_Some (config !! (interface_prefix i +:+ "dhcp"))) then "dhcp"
   else if decide (is_Some (config !! (interface_prefix i +:+ "ip." +:+ num 0 +:+ "." +:+ "address")))
   then "ip." +:+ num 0 +:+ "." +:+ "address"
   else ("route." +:+ num 0 +:+ ".") +:+ "gateway").

Lemma interface_entry_key fuel ns ds i a :
  interface_entry fuel ns ds i = Ok (Some a) → interface_key i ∈ dom config.
Proof.
  unfold interface_entry, interface_key. set (prefix := interface_prefix i). intros H.
  apply elem_of_dom. destruct (decide (is_Some (config !! (prefix +:+ "dhcp")))) as [?|Hd]; [done|].
  destruct (decide (is_Some (config !! (prefix +:+ "ip." +:+ num 0 +:+ "." +:+ "address")))) as [?|Ha];
    [done|].
  unfold mbind, result_bind in H.
  assert (processDHCPConfig prefix = Ok false) as Hdhcp.
  { unfold processDHCPConfig. destruct (config !! (prefix +:+ "dhcp")); [|done]. by destruct Hd. }
  rewrite Hdhcp in H.
  destruct (processAddressConfig fuel prefix) as [[as_|e|e]|] eqn:Ea; simpl in H; [|done..].
  destruct (processRouteConfig fuel prefix) as [[rs|e|e]|] eqn:Er; simpl in H; [|done..].
  destruct (vmware_mac prefix); [|done..]. injection H as H.
  apply count_Ok in Ea as [Ea _]. apply count_Ok in Er as [Er _].
  destruct as_ as [|addr0 as_].
  - destruct rs as [|r0 rs]; [done|]. specialize (Er 0%nat r0 eq_refl). unfold route_entry in Er.
    change (0 + 0)%nat with 0%nat in Er. rewrite !app_assoc_s in Er. rewrite !app_assoc_s.
    destruct (config !! (prefix +:+ "route." +:+ num 0 +:+ "." +:+ "gateway")); [by eexists|].
    by destruct (config !! _).
  - specialize (Ea 0%nat addr0 eq_refl). unfold address_entry in Ea.
    change (0 + 0)%nat with 0%nat in Ea. destruct Ha.
    destruct (config !! _); [by eexists|done].
Qed.

Lemma interfaces_end fuel ns ds : (size config < fuel)%nat → is_Some (count (interface_entry fuel ns ds) fuel 0).
Proof.
  apply (count_ends _ interface_key).
  - intros n m. unfold interface_key, interface_prefix. rewrite !app_assoc_s. apply numbered_inj.
  - intros n a. apply interface_entry_key.
Qed.

Lemma interface_entry_no_panic fuel ns ds i :
  (size config < fuel)%nat → no_panic (interface_entry fuel ns ds i).
Proof.
  intros Hf. unfold interface_entry. set (prefix := interface_prefix i).
  apply no_panic_bind; [unfold processDHCPConfig; by repeat case_match|]. intros dhcp _.
  apply no_panic_bind.
  { destruct (address_ends fuel prefix Hf) as [r Hr]. rewrite Hr. simpl. eapply count_no_panic; [|exact Hr].
    intros n. unfold address_entry. by repeat case_match. }
  intros as_ _. apply no_panic_bind.
  { destruct (route_ends fuel prefix Hf) as [r Hr]. rewrite Hr. simpl. eapply count_no_panic; [|exact Hr].
    intros n. unfold route_entry. by repeat case_match. }
  intros rs _. apply no_panic_bind; [unfold vmware_mac; by repeat case_match|]. done.
Qed.

(** The description of a VMware guest is read in finitely many turns of every
    loop, at most one more than it has keys, and never panics; the interfaces are those
    numbered from 0 up to the first that has neither an address nor a route nor
    DHCP, in their order. *)
Theorem ProcessVMwareNetconf_ends fuel :
  (size config < fuel)%nat →
  ∃ r, ProcessVMwareNetconf fuel = Some r ∧ no_panic r ∧
  ∀ l, r = Ok l → ∃ ns ds, count dns_server fuel 0 = Some (Ok ns) ∧ count dns_domain fuel 0 = Some (Ok ds) ∧
    (∀ i a, l !! i = Some a → interface_entry fuel ns ds i = Ok (Some a)) ∧
    interface_entry fuel ns ds (length l) = Ok None.
Proof.
  intros Hf. unfold ProcessVMwareNetconf.
  destruct (count_ends dns_server (λ n, "dns.server." +:+ num n) fuel 0) as [ns Hns]; [| |done|].
  { intros n m H%(inj (String.append _)). by apply num_inj. }
  { intros n a. unfold dns_server. intros H. apply elem_of_dom. by destruct (config !! _); [eexists|]. }
  destruct (count_ends dns_domain (λ n, "dns.domain." +:+ num n) fuel 0) as [ds Hds]; [| |done|].
  { intros n m H%(inj (String.append _)). by apply num_inj. }
  { intros n a. unfold dns_domain. intros [= H]. apply elem_of_dom. by eexists. }
  rewrite Hns, Hds. simpl.
  assert (no_panic ns) as Hnsp.
  { eapply count_no_panic; [|exact Hns]. intros n. unfold dns_server. by repeat case_match. }
  assert (no_panic ds) as Hdsp by (eapply count_no_panic; [|exact Hds]; by intros n).
  destruct ns as [ns|e|e]; [|exists (Err e); by split_and!|discriminate Hnsp].
  destruct ds as [ds|e|e]; [|exists (Err e); by split_and!|discriminate Hdsp].
  destruct (interfaces_end fuel ns ds Hf) as [r Hr]. exists r. split_and!; [done| |].
  - eapply count_no_panic; [|exact Hr]. intros n. by apply interface_entry_no_panic.
  - intros l ->. exists ns, ds. apply count_Ok in Hr as [Hr1 Hr2]. by split_and!.
Qed.
End Config.

Definition guest : gmap string string := list_to_map
  [("dns.server.0", "10.0.0.1"); ("dns.domain.0", "lan"); ("interface.0.name", "eth0");
   ("interface.0.ip.0.address", "10.0.0.7/24"); ("interface.0.route.0.gateway", "10.0.0.1");
   ("interface.0.route.0.destination", "0.0.0.0/0"); ("interface.1.mac", "00:0c:29:01:02:03");
   ("interface.1.dhcp", "yes"); ("interface.3.dhcp", "yes")].

(** The third interface ends the list, though there is a fourth. *)
Example guest_interfaces :
  match ProcessVMwareNetconf guest 10 with
  | Some (Ok l) => Filename <$> l = ["00-eth0"; "00-00:0c:29:01:02:03"] ∧
      (Network <$> head l) = Some (text
        ["[Match]"; "Name=eth0"; ""; "[Network]"; "Domains=lan"; "DNS=10.0.0.1"; ""; "[Address]";
         "Address=10.0.0.7/24"; ""; "[Route]"; "Destination=0.0.0.0/0"; "Gateway=10.0.0.1"; ""])
  | _ => False
  end.
Proof. vm_compute. split; reflexivity. Qed.

Lemma ProcessVMwareNetconf_ends_witness : ∃ r, ProcessVMwareNetconf guest 10 = Some r ∧ no_panic r.
Proof.
  destruct (ProcessVMwareNetconf_ends guest 10) as (r & Hr & Hp & _); [vm_compute; lia|].
  exists r. split; [exact Hr|exact Hp].
Defined.
