(* ===== verification/CloudInitSave.v ===== *)
(** * Saving the cloud configuration ([cmd/cloudinitsave/cloudinitsave.go])

    Which data sources are asked, how one of them is chosen, what its user data
    is taken for, and which files are written. *)

From stdpp Require Import prelude gmap strings list relations.
From S2P Require Import Prelude GoStrings RawTree FS.

Local Open Scope string_scope.

(** ** The data sources *)

Inductive Datasource :=
  | Proxmox (root : string) | Exoscale (root : string) | Cloudstack (source : string)
  | Ec2 (root : string) | FileSource (root : string) | Tftp (root : string) | UrlSource (root : string)
  | ProcCmdline | ConfigDrive (root : string) | DigitalOcean (root : string) | Gce (root : string)
  | PacketSource (root : string) | VMware (root : string) | Aliyun (root : string) | Azure (root : string).

Section Sources.
(** [cloudstack.NewDatasource] gives a list, [vmware.NewDatasource] nothing when
    no hypervisor is found. *)
Context (cloudstack : string → list Datasource) (vmware : string → option Datasource).

Definition or_root (root dflt : string) : string := if String.eqb root "" then dflt else root.

(** One name other than the star; [alone]: it has no colon. *)
Definition datasource_of (name root : string) (alone : bool) : list Datasource :=
  if String.eqb name "proxmox" then [Proxmox (or_root root "/media/pve-config")]
  else if String.eqb name "exoscale" then [Exoscale root]
  else if String.eqb name "cloudstack" then cloudstack root
  else if String.eqb name "ec2" then [Ec2 root]
  else if String.eqb name "file" then (if negb (String.eqb root "") then [FileSource root] else [])
  else if String.eqb name "tftp" then [Tftp root]
  else if String.eqb name "url" then (if negb (String.eqb root "") then [UrlSource root] else [])
  else if String.eqb name "cmdline" then (if alone then [ProcCmdline] else [])
  else if String.eqb name "configdrive" then [ConfigDrive (or_root root "/media/config-2")]
  else if String.eqb name "digitalocean" then [DigitalOcean root]
  else if String.eqb name "gce" then [Gce root]
  else if String.eqb name "packet" then [PacketSource root]
  else if String.eqb name "vmware" then (match vmware root with Some v => [v] | None => [] end)
  else if String.eqb name "aliyun" then [Aliyun root]
  else if String.eqb name "azure" then [Azure root]
  else [].

Definition split_source (ds : string) : string * string * bool :=
  match SplitN ds ":" 2 with
  | name :: root :: _ => (name, root, false)
  | [name] => (name, "", true)
  | [] => ("", "", true)
  end.

Definition all_sources : list string :=
  ["configdrive"; "vmware"; "ec2"; "digitalocean"; "packet"; "gce"; "cloudstack"; "exoscale"; "proxmox"].

Definition getDatasources (datasources : list string) : list Datasource :=
  datasources ≫= λ ds,
    let '(name, root, alone) := split_source ds in
    if String.eqb name "*" then
      all_sources ≫= λ ds, let '(name, root, alone) := split_source ds in datasource_of name root alone
    else datasource_of name root alone.
End Sources.

(** ** Choosing one *)

Definition datasourceInterval : Z := 100.
Definition datasourceMaxInterval : Z := 30000.

(** In milliseconds. *)
Definition ExpBackoff (interval max : Z) : Z :=
  let interval := (interval * 2)%Z in if (max <? interval)%Z then max else interval.

(** The goroutine of a source: about to ask, blocked on the channel with itself,
    waiting to ask again, or returned. *)
Inductive source_state :=
  | Asking (duration : Z)
  | Offering
  | Sleeping (duration : Z)
  | Gone.

Inductive main_state := Selecting | Fetching (i : nat) | Returned (i : option nat).

(** [m_reported]: the sources that were available when they were asked;
    [m_refused]: those that gave up; [m_timeout]: the time was up. *)
Record selection_state := {
  m_sources : nat → source_state;
  m_main : main_state;
  m_stop : bool;
  m_reported : gset nat;
  m_refused : gset nat;
  m_timeout : bool;
}.

Definition set_source (i : nat) (p : source_state) (s : selection_state) : selection_state :=
  {| m_sources := λ j, if decide (j = i) then p else m_sources s j; m_main := m_main s;
     m_stop := m_stop s; m_reported := m_reported s; m_refused := m_refused s; m_timeout := m_timeout s |}.

Definition report (i : nat) (s : selection_state) : selection_state :=
  {| m_sources := m_sources s; m_main := m_main s; m_stop := m_stop s;
     m_reported := {[i]} ∪ m_reported s; m_refused := m_refused s; m_timeout := m_timeout s |}.

Definition refuse (i : nat) (s : selection_state) : selection_state :=
  {| m_sources := m_sources s; m_main := m_main s; m_stop := m_stop s;
     m_reported := m_reported s; m_refused := {[i]} ∪ m_refused s; m_timeout := m_timeout s |}.

Definition set_main (m : main_state) (stop timeout : bool) (s : selection_state) : selection_state :=
  {| m_sources := m_sources s; m_main := m; m_stop := stop; m_reported := m_reported s;
     m_refused := m_refused s; m_timeout := timeout |}.

Section Select.
(** [n] sources; [AvailabilityChanges] of each. *)
Context (n : nat) (AvailabilityChanges : nat → bool).

Inductive select_step : selection_state → selection_state → Prop :=
  | ask_available s i d :
      (i < n)%nat → m_sources s i = Asking d → select_step s (report i (set_source i Offering s))
  | ask_unavailable s i d :
      (i < n)%nat → m_sources s i = Asking d → AvailabilityChanges i = false →
      select_step s (refuse i (set_source i Gone s))
  | ask_retry s i d :
      (i < n)%nat → m_sources s i = Asking d → AvailabilityChanges i = true →
      select_step s (set_source i (Sleeping d) s)
  | wake_up s i d :
      (i < n)%nat → m_sources s i = Sleeping d →
      select_step s (set_source i (Asking (ExpBackoff d datasourceMaxInterval)) s)
  | stopped s i d :
      (i < n)%nat → m_sources s i = Sleeping d → m_stop s = true →
      select_step s (set_source i Gone s)
  | receive s i :
      (i < n)%nat → m_main s = Selecting → m_sources s i = Offering →
      select_step s (set_main (Fetching i) false (m_timeout s) (set_source i Gone s))
  | all_done s :
      m_main s = Selecting → (∀ i, (i < n)%nat → m_sources s i = Gone) →
      select_step s (set_main (Returned None) true (m_timeout s) s)
  | time_out s :
      m_main s = Selecting → select_step s (set_main (Returned None) true true s)
  | fetched s i :
      m_main s = Fetching i → select_step s (set_main (Returned (Some i)) true (m_timeout s) s).

Definition selection_start : selection_state :=
  {| m_sources := λ _, Asking datasourceInterval; m_main := Selecting; m_stop := false;
     m_reported := ∅; m_refused := ∅; m_timeout := false |}.

(** What holds in every state of the selection. *)
Record select_inv (s : selection_state) : Prop := {
  si_offering : ∀ i, m_sources s i = Offering → i ∈ m_reported s;
  si_reported : ∀ i, i ∈ m_reported s → (i < n)%nat;
  si_refused : ∀ i, i ∈ m_refused s →
    AvailabilityChanges i = false ∧ i ∉ m_reported s ∧ m_sources s i = Gone;
  si_asking : ∀ i d, m_sources s i = Asking d → i ∉ m_reported s;
  si_sleeping : ∀ i d, m_sources s i = Sleeping d → i ∉ m_reported s;
  si_gone : m_main s = Selecting → m_stop s = false ∧
    ∀ i, (i < n)%nat → m_sources s i = Gone → i ∈ m_refused s;
  si_main : match m_main s with
            | Selecting => True
            | Fetching i | Returned (Some i) => i ∈ m_reported s
            | Returned None => m_timeout s = true ∨ ∀ i, (i < n)%nat → i ∈ m_refused s
            end;
  si_duration : ∀ i d, m_sources s i = Asking d ∨ m_sources s i = Sleeping d →
    (datasourceInterval ≤ d ≤ datasourceMaxInterval)%Z;
}.

Lemma ExpBackoff_range d :
  (datasourceInterval ≤ d ≤ datasourceMaxInterval)%Z →
  (datasourceInterval ≤ ExpBackoff d datasourceMaxInterval ≤ datasourceMaxInterval)%Z.
Proof.
  unfold ExpBackoff, datasourceInterval, datasourceMaxInterval. intros.
  destruct (_ <? _)%Z eqn:E; lia.
Qed.

Lemma select_inv_start : select_inv selection_start.
Proof.
  split; simpl; try done; try set_solver.
  intros i d [[= <-]|[=]]. done.
Qed.

(** A source that moves without a report. *)
Lemma select_inv_move s i p :
  select_inv s → m_sources s i ≠ Gone → p ≠ Offering →
  (∀ d, p = Asking d ∨ p = Sleeping d → i ∉ m_reported s ∧
     (datasourceInterval ≤ d ≤ datasourceMaxInterval)%Z) →
  (p = Gone → m_main s ≠ Selecting) →
  select_inv (set_source i p s).
Proof.
  intros [Ho Hr Hf Ha Hs Hg Hm Hd] Hnow Hno Hp Hgone. split; simpl; try done.
  - intros j. destruct (decide (j = i)) as [->|]; [done|apply Ho].
  - intros j Hj. destruct (Hf j Hj) as (? & ? & ?).
    destruct (decide (j = i)) as [->|]; [congruence|done].
  - intros j d. destruct (decide (j = i)) as [->|]; [|apply Ha]. intros ->. apply (Hp d). by left.
  - intros j d. destruct (decide (j = i)) as [->|]; [|apply Hs]. intros ->. apply (Hp d). by right.
  - intros Hma. destruct (Hg Hma) as [Hst Hall]. split; [done|]. intros j Hj.
    destruct (decide (j = i)) as [->|]; [|by apply Hall]. intros ->. by destruct Hgone.
  - intros j d. destruct (decide (j = i)) as [->|]; [|apply Hd]. intros H. by apply (Hp d).
Qed.

Lemma select_inv_report s i d :
  select_inv s → (i < n)%nat → m_sources s i = Asking d →
  select_inv (report i (set_source i Offering s)).
Proof.
  intros [Ho Hr Hf Ha Hs Hg Hm Hd] Hi Hp. split; simpl.
  - intros j. destruct (decide (j = i)) as [->|]; [set_solver|]. intros Hj. specialize (Ho j Hj). set_solver.
  - intros j [->%elem_of_singleton|Hj]%elem_of_union; [done|auto].
  - intros j Hj. destruct (Hf j Hj) as (Hc & Hn & Hgo).
    assert (j ≠ i) as Hne by congruence. rewrite decide_False by done. set_solver.
  - intros j d'. destruct (decide (j = i)) as [->|]; [done|]. intros Hj. specialize (Ha j d' Hj). set_solver.
  - intros j d'. destruct (decide (j = i)) as [->|]; [done|]. intros Hj. specialize (Hs j d' Hj). set_solver.
  - intros Hma. destruct (Hg Hma) as [Hst Hall]. split; [done|]. intros j Hj.
    destruct (decide (j = i)) as [->|]; [done|by apply Hall].
  - destruct (m_main s) as [|j|[j|]]; [done|set_solver..|].
    destruct Hm as [Ht|Hall]; [by left|]. right. done.
  - intros j d'. destruct (decide (j = i)) as [->|]; [intros [?|?]; done|apply Hd].
Qed.

Lemma select_inv_refuse s i d :
  select_inv s → m_sources s i = Asking d → AvailabilityChanges i = false →
  select_inv (refuse i (set_source i Gone s)).
Proof.
  intros [Ho Hr Hf Ha Hs Hg Hm Hd] Hp Hc. split; simpl; try done.
  - intros j. destruct (decide (j = i)) as [->|]; [done|apply Ho].
  - intros j [->%elem_of_singleton|Hj]%elem_of_union.
    + rewrite decide_True by done. split_and!; [done|by eapply Ha|done].
    + destruct (Hf j Hj) as (? & ? & ?). by destruct (decide (j = i)).
  - intros j d'. destruct (decide (j = i)) as [->|]; [done|apply Ha].
  - intros j d'. destruct (decide (j = i)) as [->|]; [done|apply Hs].
  - intros Hma. destruct (Hg Hma) as [Hst Hall]. split; [done|]. intros j Hj.
    destruct (decide (j = i)) as [->|]; [set_solver|]. intros Hgo. specialize (Hall j Hj Hgo). set_solver.
  - destruct (m_main s) as [|j|[j|]]; [done..|].
    destruct Hm as [Ht|Hall]; [by left|]. right. intros j Hj. specialize (Hall j Hj). set_solver.
  - intros j d'. destruct (decide (j = i)) as [->|]; [intros [?|?]; done|apply Hd].
Qed.

(** The main goroutine moves on; nothing is asked of the sources. *)
Lemma select_inv_main s m stop timeout :
  select_inv s → m ≠ Selecting →
  match m with
  | Selecting => True
  | Fetching i | Returned (Some i) => i ∈ m_reported s
  | Returned None => timeout = true ∨ ∀ i, (i < n)%nat → i ∈ m_refused s
  end → select_inv (set_main m stop timeout s).
Proof. intros [Ho Hr Hf Ha Hs Hg Hm Hd] Hne Hmain. by split. Qed.

Lemma select_inv_step s s' : select_inv s → select_step s s' → select_inv s'.
Proof.
  intros Hinv Hstep. pose proof Hinv as [Ho Hr Hf Ha Hs Hg Hm Hd].
  destruct Hstep as [s i d Hi Hp|s i d Hi Hp Hc|s i d Hi Hp Hc|s i d Hi Hp|s i d Hi Hp Hst
    |s i Hi Hma Hp|s Hma Hall|s Hma|s i Hma].
  - by eapply select_inv_report.
  - by eapply select_inv_refuse.
  - apply select_inv_move; try done; [congruence|]. intros d' [[=]|[= <-]].
    split; [by eapply Ha|]. apply (Hd i). by left.
  - apply select_inv_move; try done; [congruence|]. intros d' [[= <-]|[=]].
    split; [by eapply Hs|]. apply ExpBackoff_range, (Hd i). by right.
  - apply select_inv_move; try done; [congruence|intros d' [[=]|[=]]|].
    intros _ Hma. destruct (Hg Hma). congruence.
  - change (select_inv (set_source i Gone (set_main (Fetching i) false (m_timeout s) s))).
    apply select_inv_move; try done; [|simpl; congruence|intros d' [[=]|[=]]].
    apply select_inv_main; [done..|by apply Ho].
  - apply select_inv_main; [done..|]. right. intros i Hi. destruct (Hg Hma) as [_ Hall']. auto.
  - apply select_inv_main; [done..|by left].
  - rewrite Hma in Hm. by apply select_inv_main.
Qed.

Lemma select_inv_reachable s : rtc select_step selection_start s → select_inv s.
Proof.
  intros H. pose proof select_inv_start as H0. revert H0.
  induction H as [|s0 s1 s2 Hstep _ IH]; [done|]. intros H0. by apply IH, (select_inv_step s0).
Qed.
End Select.

(** C20: In every interleaving of the goroutines that ask the data sources, the
    source that is fetched and returned is one that was available when it was
    asked; and no source is returned only when the time is up or every source was
    asked, was not available and will not become so. A source that is asked again
    waits between 100 milliseconds and 30 seconds. *)
Theorem selectDatasource_contract (n : nat) (AvailabilityChanges : nat → bool) s :
  rtc (select_step n AvailabilityChanges) selection_start s →
  match m_main s with
  | Selecting => m_stop s = false
  | Fetching i | Returned (Some i) => (i < n)%nat ∧ i ∈ m_reported s
  | Returned None =>
      m_timeout s = true ∨
      ∀ i, (i < n)%nat → AvailabilityChanges i = false ∧ i ∉ m_reported s ∧ m_sources s i = Gone
  end ∧
  ∀ i d, m_sources s i = Sleeping d → (100 ≤ d ≤ 30000)%Z.
Proof.
  intros Hr. apply select_inv_reachable in Hr as [Ho Hre Hf Ha Hs Hg Hm Hd]. split.
  - destruct (m_main s) as [|i|[i|]]; [by apply Hg|by split; [apply Hre|]|by split; [apply Hre|]|].
    destruct Hm as [?|Hall]; [by left|]. right. auto.
  - intros i d Hi. apply (Hd i). by right.
Qed.

(** Two sources offer themselves: one is taken, and the other's goroutine is
    blocked on the channel for ever after the selection returned. *)
Example selectDatasource_leaks :
  ∃ s, rtc (select_step 2 (λ _, true)) selection_start s ∧
    m_main s = Returned (Some 0) ∧ m_sources s 1 = Offering ∧
    ∀ s', rtc (select_step 2 (λ _, true)) s s' → m_sources s' 1 = Offering.
Proof.
  exists (set_main (Returned (Some 0)) true false (set_main (Fetching 0) false false
    (set_source 0 Gone (report 1 (set_source 1 Offering
      (report 0 (set_source 0 Offering selection_start))))))).
  split_and!; [|done..|].
  - eapply rtc_l; [eapply (ask_available _ _ _ 0); [lia|done]|].
    eapply rtc_l; [eapply (ask_available _ _ _ 1); [lia|done]|].
    eapply rtc_l; [eapply (receive _ _ _ 0); [lia|done..]|].
    eapply rtc_l; [by eapply (fetched _ _ _ 0)|]. apply rtc_refl.
  - assert (∀ s s', m_main s = Returned (Some 0) ∧ m_sources s 1 = Offering →
      select_step 2 (λ _, true) s s' → m_main s' = Returned (Some 0) ∧ m_sources s' 1 = Offering) as Hstep.
    { intros s s' [Hm H1] Hst. revert Hm H1. destruct Hst; intros Hmain Hoff; simpl; try congruence; split; try done.
      all: destruct (decide (1 = i)) as [<-|]; [congruence|done]. }
    intros s' Hr. match type of Hr with rtc _ ?s0 _ =>
      assert (m_main s0 = Returned (Some 0) ∧ m_sources s0 1 = Offering) as H0 by done end.
    revert H0. induction Hr as [s0|s0 s1 s2 H01 _ IH]; intros H0; [apply H0|].
    by apply IH, (Hstep s0).
Qed.

Lemma selectDatasource_contract_witness :
  ∃ s, rtc (select_step 1 (λ _, false)) selection_start s ∧ m_main s = Returned (Some 0) ∧
    0 ∈ m_reported s.
Proof.
  assert (∃ s, rtc (select_step 1 (λ _, false)) selection_start s ∧ m_main s = Returned (Some 0))
    as (s & Hr & Hm).
  { eexists. split.
    - eapply rtc_l; [eapply (ask_available _ _ _ 0); [lia|reflexivity]|].
      eapply rtc_l; [eapply (receive _ _ _ 0); [lia|reflexivity..]|].
      eapply rtc_l; [eapply (fetched _ _ _ 0); reflexivity|]. apply rtc_refl.
    - reflexivity. }
  exists s. split; [exact Hr|]. split; [exact Hm|].
  pose proof (selectDatasource_contract 1 (λ _, false) s Hr) as [H _]. rewrite Hm in H. apply H.
Defined.

(** ** Saving *)

Definition IsScript (userdata : string) : bool :=
  HasPrefix (default "" (head (SplitN userdata "010" 2))) "#!".

Definition IsCloudConfig (userdata : string) : bool :=
  String.eqb (TrimRightSpace (default "" (head (SplitN userdata "010" 2)))) "#cloud-config".

Definition isCompose (content : string) : bool :=
  HasPrefix content ("#compose" +:+ String "010" "").

Definition gzipMagicBytes : string := String "031" (String "139" "").

Definition CloudConfigBootFile : string := "/var/lib/rancher/conf/cloud-config.d/boot.yml".
Definition CloudConfigNetworkFile : string := "/var/lib/rancher/conf/cloud-config.d/network.yml".
Definition CloudConfigScriptFile : string := "/var/lib/rancher/conf/cloud-config-script".
Definition SavedMetaDataFile : string := "/var/lib/rancher/conf/metadata".
Definition SavedConfigDir : string := "/var/lib/rancher/conf/cloud-config.d".

Section Save.
Context (temp_name : files → string → string → string).
(** The gzip and YAML libraries, on the metadata of the source and the network
    configuration in it. *)
Context (DecompressGzip : string → result string).
Context {Metadata : Type}.
Context (MarshalMetadata : Metadata → result string) (empty_metadata : Metadata).
Context (MarshalNetwork : Metadata → result string).
Context (Unmarshal : string → result rawmap) (Marshal : rawmap → result string).
(** [config.ReadConfig], which refuses what is not a configuration. *)
Context {CloudConfig : Type} (ReadConfig : string → result CloudConfig).

Definition decompressIfGzip (userdataBytes : string) : result string :=
  if negb (HasPrefix userdataBytes gzipMagicBytes) then Ok userdataBytes
  else DecompressGzip userdataBytes.

Definition composeToCloudConfig (bytes : string) : result string :=
  compose ← Unmarshal bytes;
  Marshal {[ SStr "rancher" := VMap {[ SStr "services" := VMap compose ]} ]}.

(** An error that is only logged. *)
Definition log_error {A} (m : IO A) : IO () := λ w,
  match m w with
  | (Panic e, w) => (Panic e, w)
  | (_, w) => (Ok (), w)
  end.

(** [config.WriteToFile]. *)
Definition WriteToFile (content : result string) (filename : string) : IO () :=
  content ← lift content;
  _ ← MkdirAll (Dir filename);
  WriteFileAtomic temp_name filename content 400.

(** The file is written when there is something to write. *)
Definition write_unless_empty (filename content : string) (perm : Z) : IO () :=
  if String.eqb content "" then mret () else WriteFileAtomic temp_name filename content perm.

Definition saveFiles (cloudConfigBytes scriptBytes : string) (metadata : Metadata) : IO () :=
  _ ← log_error (MkdirAll SavedConfigDir);
  _ ← write_unless_empty CloudConfigScriptFile scriptBytes 500;
  _ ← write_unless_empty CloudConfigBootFile cloudConfigBytes 400;
  metaDataBytes ← lift (MarshalMetadata metadata);
  _ ← WriteFileAtomic temp_name SavedMetaDataFile metaDataBytes 400;
  emptyMeta ← lift (MarshalMetadata empty_metadata);
  if String.eqb metaDataBytes emptyMeta then mret ()
  else
    _ ← log_error (MkdirAll (Dir CloudConfigNetworkFile));
    log_error (WriteToFile (MarshalNetwork metadata) CloudConfigNetworkFile).

(** What the user data is taken for: the configuration and the script. *)
Definition classify (userData : string) : result (string * string) :=
  if IsScript userData then Ok ("", userData)
  else if isCompose userData then bytes ← composeToCloudConfig userData; Ok (bytes, "")
  else if IsCloudConfig userData then
    match ReadConfig userData with
    | Ok _ => Ok (userData, "")
    | Err _ => Ok ("", "")
    | Panic e => Panic e
    end
  else Ok ("", "").

(** [fetchUserdata] and [fetchMetadata]: what the source gives. *)
Definition fetchAndSave (fetchUserdata : result string) (fetchMetadata : result Metadata) : IO () :=
  userDataBytes ← lift fetchUserdata;
  userData ← lift (decompressIfGzip userDataBytes);
  metadata ← lift fetchMetadata;
  cs ← lift (classify userData);
  match ReadConfig cs.1 with
  | Err _ => io_err "Failed to parse cloud-config"
  | Panic e => λ w, (Panic e, w)
  | Ok _ => saveFiles cs.1 cs.2 metadata
  end.

End Save.

(** ** Lemmas: saving *)

Section Writes.
Context (temp_name : files → string → string → string).

(** A call that leaves a file as it is, at every moment. *)
Definition keeps {A} (g : string) (m : IO A) : Prop :=
  ∀ (J : option inode → Prop) old,
    triple (λ fs, J (fs !! g)) (λ fs, fs !! g = old) m (λ _ fs, fs !! g = old).

Lemma keeps_syscall {A} g msg (run_ : files → gset string → result A * files * gset string) fail_ :
  (∀ fs dirs, (run_ fs dirs).1.2 !! g = fs !! g) → (∀ n fs, fail_ n fs !! g = fs !! g) →
  keeps g (syscall msg run_ fail_).
Proof.
  intros Hrun Hfail J old. apply triple_syscall.
  - intros fs dirs HJ Hg. by rewrite Hrun.
  - intros n fs HJ Hg. by rewrite Hfail.
Qed.

Lemma keeps_bind_result {A B} g (m : IO A) (f : A → IO B) :
  keeps g m → (∀ a w w', m w = (Ok a, w') → keeps g (f a)) → keeps g (m ≫= f).
Proof.
  intros Hm Hf J old w Hw Hh Hold. destruct (Hm J old w Hw Hh Hold) as (Hw' & Hh' & Ho').
  unfold mbind, IO_bind. destruct (m w) as [[a|e|e] w'] eqn:E; [|done..].
  exact (Hf a w w' E J old w' Hw' Hh' Ho').
Qed.

Lemma keeps_bind {A B} g (m : IO A) (f : A → IO B) :
  keeps g m → (∀ a, keeps g (f a)) → keeps g (m ≫= f).
Proof. intros Hm Hf. by apply keeps_bind_result. Qed.

Lemma keeps_defer {A B} g (d : IO B) (m : IO A) : keeps g d → keeps g m → keeps g (defer d m).
Proof.
  intros Hd Hm J old w Hw Hh Ho. destruct (Hm J old w Hw Hh Ho) as (Hw' & Hh' & Ho').
  unfold defer. destruct (m w) as [r w1]. destruct (Hd J old w1 Hw' Hh' Ho') as (? & ? & ?).
  by destruct (d w1).
Qed.

Lemma keeps_pure {A} g (r : result A) : keeps g (λ w, (r, w)).
Proof. by intros J old w. Qed.

Lemma keeps_log_error {A} g (m : IO A) : keeps g m → keeps g (log_error m).
Proof.
  intros Hm J old w Hw Hh Ho. destruct (Hm J old w Hw Hh Ho) as (? & ? & ?).
  unfold log_error. by destruct (m w) as [[a|e|e] w'].
Qed.

Lemma keeps_MkdirAll g dir : keeps g (MkdirAll dir).
Proof. apply keeps_syscall; [|done]. intros fs dirs. by destruct (fs !! dir). Qed.

Lemma keeps_WriteFileAtomic g filename data perm :
  g ≠ filename → (∀ fs dir prefix, temp_name fs dir prefix ≠ g) →
  keeps g (WriteFileAtomic temp_name filename data perm).
Proof.
  intros Hne Htemp. unfold WriteFileAtomic. destruct (split_dir filename) as [dir file].
  apply keeps_bind_result.
  { apply keeps_syscall; [|done]. intros fs dirs. simpl. by rewrite lookup_insert_ne. }
  intros tmp w w' E.
  assert (tmp ≠ g) as Hg.
  { revert E. unfold TempFile, syscall. destruct (head (w_faults w)) as [[k|]|]; [done| |].
    all: intros [= <- _]; apply Htemp. }
  apply keeps_defer.
  - apply keeps_syscall; [|done]. intros fs dirs. destruct (fs !! tmp); [|done].
    simpl. by rewrite lookup_delete_ne.
  - apply keeps_bind; [|intros _; apply keeps_bind; [|intros _; apply keeps_bind; [|intros _]]].
    + apply keeps_syscall; intros; simpl; by apply lookup_alter_ne.
    + by apply keeps_syscall.
    + apply keeps_syscall; intros; simpl; [by apply lookup_alter_ne|done].
    + apply keeps_syscall; [|done]. intros fs dirs. destruct (decide _); [done|].
      destruct (fs !! tmp); [|done]. simpl. by rewrite lookup_insert_ne, lookup_delete_ne.
Qed.

(** *** What saving writes to one file *)

(** The content is the old one or, if something is written, the new one. *)
Definition old_or (old new v : option inode) : Prop := v = old ∨ (new ≠ None ∧ v = new).

(** At every moment. *)
Definition replaces {A} (g : string) (new : option inode) (m : IO A) : Prop :=
  ∀ old, triple (λ fs, old_or old new (fs !! g)) (λ fs, fs !! g = old) m (λ _ _, True).

Lemma triple_weaken {A} (I I' P : files → Prop) (m : IO A) Q :
  (∀ fs, I fs ↔ I' fs) → triple I P m Q → triple I' P m (λ _ _, True).
Proof.
  intros HI Hm w Hw Hh HP. destruct (Hm w) as (? & Hhist & _); [by apply HI| |done|].
  - eapply Forall_impl; [exact Hh|]. intros fs. by apply HI.
  - split_and!; [by apply HI| |done]. eapply Forall_impl; [exact Hhist|]. intros fs. by apply HI.
Qed.

Lemma keeps_replaces {A} g new (m : IO A) : keeps g m → replaces g new m.
Proof.
  intros Hm old. eapply triple_weaken; [|apply (Hm (old_or old new) old)]. done.
Qed.

Lemma replaces_before {A B} g new (m : IO A) (f : A → IO B) :
  keeps g m → (∀ a, replaces g new (f a)) → replaces g new (m ≫= f).
Proof.
  intros Hm Hf old w Hw Hh Ho.
  destruct (Hm (old_or old new) old w Hw Hh Ho) as (Hw' & Hh' & Ho').
  unfold mbind, IO_bind. destruct (m w) as [[a|e|e] w']; [|done..]. exact (Hf a old w' Hw' Hh' Ho').
Qed.

Lemma replaces_after {A B} g new (m : IO A) (f : A → IO B) :
  replaces g new m → (∀ a, keeps g (f a)) → replaces g new (m ≫= f).
Proof.
  intros Hm Hf old w Hw Hh Ho. destruct (Hm old w Hw Hh Ho) as (Hw' & Hh' & _).
  unfold mbind, IO_bind. destruct (m w) as [[a|e|e] w']; [|done..].
  destruct (Hf a (old_or old new) (w_files w' !! g) w' Hw' Hh' eq_refl) as (? & ? & _). done.
Qed.

(** What [write_unless_empty] puts into its file. *)
Definition written (content : string) (perm : Z) : option inode :=
  if String.eqb content "" then None
  else Some {| i_content := content; i_mode := perm; i_owner := "root" |}.

Lemma replaces_write_unless_empty filename content perm :
  (∀ fs dir prefix, temp_name fs dir prefix ≠ filename) → (0 ≤ perm < 512)%Z →
  replaces filename (written content perm) (write_unless_empty temp_name filename content perm).
Proof.
  intros Htemp Hperm. unfold write_unless_empty, written. destruct (String.eqb content "").
  { by apply keeps_replaces, keeps_pure. }
  intros old. pose proof (triple_WriteFileAtomic temp_name filename content perm old) as H.
  rewrite (file_mode_small perm Hperm) in H.
  destruct (split_dir filename) as [dir file]. specialize (H (λ fs, Htemp fs dir _)).
  eapply triple_weaken; [|exact H]. intros fs. unfold old_or_new, old_or. naive_solver.
Qed.

Lemma keeps_write_unless_empty g filename content perm :
  g ≠ filename → (∀ fs dir prefix, temp_name fs dir prefix ≠ g) →
  keeps g (write_unless_empty temp_name filename content perm).
Proof.
  intros. unfold write_unless_empty. destruct (String.eqb content ""); [apply keeps_pure|].
  by apply keeps_WriteFileAtomic.
Qed.

End Writes.

Section SaveFiles.
Context (temp_name : files → string → string → string).
Context {Metadata : Type} (MarshalMetadata : Metadata → result string) (empty_metadata : Metadata).
Context (MarshalNetwork : Metadata → result string).

(** The metadata and the network configuration are other files. *)
Lemma keeps_save_metadata g metadata :
  g ≠ SavedMetaDataFile → g ≠ CloudConfigNetworkFile →
  (∀ fs dir prefix, temp_name fs dir prefix ≠ g) →
  keeps g (
    metaDataBytes ← lift (MarshalMetadata metadata);
    _ ← WriteFileAtomic temp_name SavedMetaDataFile metaDataBytes 400;
    emptyMeta ← lift (MarshalMetadata empty_metadata);
    if String.eqb metaDataBytes emptyMeta then mret ()
    else
      _ ← log_error (MkdirAll (Dir CloudConfigNetworkFile));
      log_error (WriteToFile temp_name (MarshalNetwork metadata) CloudConfigNetworkFile)).
Proof.
  intros Hm Hn Htemp.
  apply keeps_bind; [apply keeps_pure|]. intros b.
  apply keeps_bind; [by apply keeps_WriteFileAtomic|]. intros _.
  apply keeps_bind; [apply keeps_pure|]. intros e. destruct (String.eqb _ _); [apply keeps_pure|].
  apply keeps_bind; [apply keeps_log_error, keeps_MkdirAll|]. intros _. apply keeps_log_error.
  apply keeps_bind; [apply keeps_pure|]. intros c.
  apply keeps_bind; [apply keeps_MkdirAll|]. intros _. by apply keeps_WriteFileAtomic.
Qed.

Lemma saveFiles_replaces c s_ metadata :
  (∀ fs dir prefix, temp_name fs dir prefix ∉ [CloudConfigBootFile; CloudConfigScriptFile]) →
  replaces CloudConfigBootFile (written c 400) (saveFiles temp_name MarshalMetadata empty_metadata MarshalNetwork c s_ metadata) ∧
  replaces CloudConfigScriptFile (written s_ 500)
    (saveFiles temp_name MarshalMetadata empty_metadata MarshalNetwork c s_ metadata).
Proof.
  intros Htemp.
  assert (∀ fs dir prefix, temp_name fs dir prefix ≠ CloudConfigBootFile) as Hb.
  { intros fs dir prefix E. apply (Htemp fs dir prefix). rewrite E. left. }
  assert (∀ fs dir prefix, temp_name fs dir prefix ≠ CloudConfigScriptFile) as Hs.
  { intros fs dir prefix E. apply (Htemp fs dir prefix). rewrite E. right. left. }
  split; unfold saveFiles; (apply replaces_before; [apply keeps_log_error, keeps_MkdirAll|]; intros _).
  - apply replaces_before; [by apply keeps_write_unless_empty|]. intros _.
    apply replaces_after; [by apply replaces_write_unless_empty|]. intros _.
    by apply keeps_save_metadata.
  - apply replaces_after; [by apply replaces_write_unless_empty|]. intros _.
    apply keeps_bind; [by apply keeps_write_unless_empty|]. intros _.
    by apply keeps_save_metadata.
Qed.

End SaveFiles.

Lemma classify_spec Unmarshal Marshal {CloudConfig : Type} (ReadConfig : string → result CloudConfig)
    userData c s_ :
  classify Unmarshal Marshal ReadConfig userData = Ok (c, s_) →
  (s_ ≠ "" → IsScript userData = true ∧ s_ = userData ∧ c = "") ∧
  (c ≠ "" → IsScript userData = false ∧
     (isCompose userData = true ∧ composeToCloudConfig Unmarshal Marshal userData = Ok c ∨
      IsCloudConfig userData = true ∧ c = userData)).
Proof.
  unfold classify. destruct (IsScript userData); [naive_solver|].
  destruct (isCompose userData).
  - unfold mbind, result_bind. destruct (composeToCloudConfig _ _ userData); naive_solver.
  - destruct (IsCloudConfig userData); [|naive_solver]. destruct (ReadConfig userData); naive_solver.
Qed.

(** C21: Saving what a data source gives touches the boot configuration and the boot
    script only like this, at every moment and whatever call fails: the
    configuration stays, or is replaced as a whole by one that can be read, which
    is the user data itself when it is a cloud-config and its conversion when it
    is a compose file; the script stays, or is replaced as a whole by user data
    that is a script. When something cannot be fetched, decompressed, converted or
    read, no file is touched. *)
Theorem fetchAndSave_saves temp_name DecompressGzip {Metadata : Type} MarshalMetadata
    (empty_metadata : Metadata) MarshalNetwork Unmarshal Marshal {CloudConfig : Type}
    (ReadConfig : string → result CloudConfig) fetchUserdata fetchMetadata w :
  (∀ fs dir prefix, temp_name fs dir prefix ∉ [CloudConfigBootFile; CloudConfigScriptFile]) →
  w_history w = [] →
  let '(r, w') := fetchAndSave temp_name DecompressGzip MarshalMetadata empty_metadata
    MarshalNetwork Unmarshal Marshal ReadConfig fetchUserdata fetchMetadata w in
  (w' = w ∧ is_ok r = false) ∨
  ∃ raw userData config cfg,
    fetchUserdata = Ok raw ∧ decompressIfGzip DecompressGzip raw = Ok userData ∧
    ReadConfig config = Ok cfg ∧
    ∀ fs, fs ∈ w_files w' :: w_history w' →
      (fs !! CloudConfigBootFile = w_files w !! CloudConfigBootFile ∨
       fs !! CloudConfigBootFile = Some {| i_content := config; i_mode := 400; i_owner := "root" |} ∧
       IsScript userData = false ∧
       (isCompose userData = true ∧ composeToCloudConfig Unmarshal Marshal userData = Ok config ∨
        IsCloudConfig userData = true ∧ config = userData)) ∧
      (fs !! CloudConfigScriptFile = w_files w !! CloudConfigScriptFile ∨
       fs !! CloudConfigScriptFile = Some {| i_content := userData; i_mode := 500; i_owner := "root" |} ∧
       IsScript userData = true).
Proof.
  intros Htemp Hh. unfold fetchAndSave, lift, mbind, IO_bind.
  destruct fetchUserdata as [raw|e|e]; [|by left..].
  destruct (decompressIfGzip DecompressGzip raw) as [userData|e|e] eqn:Ed; [|by left..].
  destruct fetchMetadata as [metadata|e|e]; [|by left..].
  destruct (classify Unmarshal Marshal ReadConfig userData) as [[c s]|e|e] eqn:Ec; [|by left..].
  cbn [fst snd]. destruct (ReadConfig c) as [cfg|e|e] eqn:Er; [|by left..].
  destruct (saveFiles_replaces temp_name MarshalMetadata empty_metadata MarshalNetwork c s metadata
    Htemp) as [Hb Hs].
  specialize (Hb _ w (or_introl eq_refl) ltac:(by rewrite Hh) eq_refl) as (Hb & Hbh & _).
  specialize (Hs _ w (or_introl eq_refl) ltac:(by rewrite Hh) eq_refl) as (Hs & Hsh & _).
  destruct (saveFiles _ _ _ _ _ _ _ w) as [r w']. right. cbn [fst snd] in *.
  destruct (classify_spec _ _ _ _ _ _ Ec) as [Hscript Hconfig].
  exists raw, userData, c, cfg. split_and!; [done..|]. intros fs Hfs.
  assert (old_or (w_files w !! CloudConfigBootFile) (written c 400) (fs !! CloudConfigBootFile)) as Hb'.
  { apply elem_of_cons in Hfs as [->|Hfs]; [done|]. by eapply Forall_forall in Hbh. }
  assert (old_or (w_files w !! CloudConfigScriptFile) (written s 500) (fs !! CloudConfigScriptFile)) as Hs'.
  { apply elem_of_cons in Hfs as [->|Hfs]; [done|]. by eapply Forall_forall in Hsh. }
  unfold written in Hb', Hs'. split.
  - destruct Hb' as [?|[Hne Hb']]; [by left|]. right.
    destruct (String.eqb_spec c ""); [done|]. by split; [|apply Hconfig].
  - destruct Hs' as [?|[Hne Hs']]; [by left|]. right.
    destruct (String.eqb_spec s "") as [|Hs0]; [done|].
    destruct (Hscript Hs0) as (? & -> & _). done.
Qed.

Lemma fetchAndSave_saves_witness :
  let script := "#!/bin/sh" +:+ String "010" "echo hello" in
  let w := {| w_files := ∅; w_dirs := {[ "/var/lib/rancher/conf" ]}; w_faults := []; w_history := [] |} in
  let '(r, w') := fetchAndSave example_temp (λ _, Err "gzip") (λ m : string, Ok m) "" (λ m, Ok m)
    (λ _, Err "yaml") (λ _, Err "yaml") (λ _, Ok ()) (Ok script) (Ok "hostname: a") w in
  r = Ok () ∧ i_content <$> w_files w' !! CloudConfigScriptFile = Some script ∧
  w_files w' !! CloudConfigBootFile = None.
Proof.
  intros script w.
  assert (Htemp : ∀ fs dir prefix, example_temp fs dir prefix ∉ [CloudConfigBootFile; CloudConfigScriptFile]).
  { intros fs dir prefix. unfold example_temp, CloudConfigBootFile, CloudConfigScriptFile.
    assert (∀ s t, HasSuffix s "000123" = false → t +:+ "000123" ≠ s) as Hsuf.
    { intros s t Hs <-. revert Hs. clear. induction t as [|c t IH]; [done|]. simpl.
      intros [_ H]%orb_false_iff. by apply IH. }
    rewrite <-app_assoc_s. intros Hin. apply list_elem_of_In in Hin. simpl in Hin.
    destruct Hin as [E|[E|[]]]; symmetry in E; revert E; apply Hsuf; reflexivity. }
  pose proof (fetchAndSave_saves example_temp (λ _, Err "gzip") (λ m : string, Ok m) "" (λ m, Ok m)
    (λ _, Err "yaml") (λ _, Err "yaml") (λ _, Ok ()) (Ok script) (Ok "hostname: a") w Htemp eq_refl) as H.
  assert (E : (fetchAndSave example_temp (λ _, Err "gzip") (λ m : string, Ok m) "" (λ m, Ok m)
    (λ _, Err "yaml") (λ _, Err "yaml") (λ _, Ok ()) (Ok script) (Ok "hostname: a") w).1 = Ok ())
    by (vm_compute; reflexivity).
  assert (Es : i_content <$> w_files (fetchAndSave example_temp (λ _, Err "gzip") (λ m : string, Ok m) ""
    (λ m, Ok m) (λ _, Err "yaml") (λ _, Err "yaml") (λ _, Ok ()) (Ok script) (Ok "hostname: a") w).2
    !! CloudConfigScriptFile = Some script) by (vm_compute; reflexivity).
  destruct (fetchAndSave _ _ _ _ _ _ _ _ _ _ w) as [r w'].
  cbn [fst snd] in E, Es. split; [exact E|]. split; [exact Es|].
  destruct H as [[_ Hr]|(raw & ud & c & cfg & Hraw & Hd & _ & Hall)]; [rewrite E in Hr; discriminate Hr|].
  destruct (Hall (w_files w') (list_elem_of_here _ _)) as [[Hb|(_ & Hns & _)] _]; [exact Hb|].
  injection Hraw as <-. vm_compute in Hd. injection Hd as <-. vm_compute in Hns. discriminate Hns.
Defined.
