(* ===== verification/Compose.v ===== *)
(** * The project of the system services
    ([pkg/compose/project.go], [pkg/compose/reload.go], and the operations of
    [pkg/libcompose/project/project.go] they use)

    The services of the configuration are added to a project, and others are
    loaded by name; a reload does it again and skips what it knows. The order in
    which [range] visits a map is the order of a list. *)

From stdpp Require Import prelude gmap strings list.
From S2P Require Import Prelude GoStrings RawTree NetCache.

Local Open Scope string_scope.

(** ** Preparing services for interpolation *)

Section Preprocess.
(** [fmt.Sprint] of a float and of a [map[string]interface{}]. *)
Context (Sprint_other : val → string).

Definition Sprint (item : val) : string :=
  match item with
  | VScalar SNil => "<nil>"
  | VScalar (SBool b) => if b then "true" else "false"
  | VScalar (SInt z) => Itoa z
  | VScalar (SStr s) => s
  | _ => Sprint_other item
  end.

Fixpoint preprocess (item : val) (replaceTypes : bool) : val :=
  match item with
  | VMap m => VMap ((λ v, preprocess v replaceTypes) <$> m)
  | VList l => VList ((λ v, preprocess v replaceTypes) <$> l)
  | _ => if replaceTypes then VStr (Sprint item) else item
  end.

Definition stringifyValues (key : string) : bool :=
  String.eqb key "environment" || String.eqb key "labels".

Definition preprocessServiceMap (serviceMap : gmap string (gmap string val)) :
    gmap string (gmap string val) :=
  (λ service : gmap string val,
    (map_imap (λ key value, Some (preprocess value (stringifyValues key))) service
      : gmap string val)) <$> serviceMap.
End Preprocess.

(** [adjustContainerNames]: a service without a container name gets its own. *)
Definition adjust_service (k : scalar) (v : val) : val :=
  match k, v with
  | SStr k, VMap v =>
      VMap (match v !! SStr "container_name" with
            | Some _ => v
            | None => <[SStr "container_name" := VStr k]> v
            end)
  | _, _ => v
  end.

Definition adjustContainerNames (m : rawmap) : rawmap := map_imap (λ k v, Some (adjust_service k v)) m.

(** ** The project *)

Section Project.
Context {ServiceConfig VolumeConfig NetworkConfig : Type}.

Record project := {
  p_services : gmap string ServiceConfig;
  p_volumes : gmap string VolumeConfig;
  p_networks : gmap string NetworkConfig;
  p_reload : list string;
}.

(** [ServiceConfigs.Add]. *)
Definition Add (name : string) (config : ServiceConfig) (p : project) : project :=
  {| p_services := <[name := config]> (p_services p); p_volumes := p_volumes p;
     p_networks := p_networks p; p_reload := p_reload p |}.

(** The three never return an error. *)
Definition AddConfig (name : string) (config : ServiceConfig) (p : project) : project :=
  {| p_services := <[name := config]> (p_services p); p_volumes := p_volumes p;
     p_networks := p_networks p; p_reload := (p_reload p ++ [name])%list |}.

Definition AddVolumeConfig (name : string) (config : VolumeConfig) (p : project) : project :=
  {| p_services := p_services p; p_volumes := <[name := config]> (p_volumes p);
     p_networks := p_networks p; p_reload := p_reload p |}.

Definition AddNetworkConfig (name : string) (config : NetworkConfig) (p : project) : project :=
  {| p_services := p_services p; p_volumes := p_volumes p;
     p_networks := <[name := config]> (p_networks p); p_reload := p_reload p |}.

(** [config.Merge] of a file into the services, in the orders [range] visits what
    it gives. *)
Context (Merge_ : gmap string ServiceConfig → string →
  result (list (string * ServiceConfig) * list (string * VolumeConfig) * list (string * NetworkConfig))).

Definition add_all {A} (add : string → A → project → project) (l : list (string * A)) (p : project) :
    project := foldl (λ p kv, add kv.1 kv.2 p) p l.

Definition Load (bytes : string) (p : project) : result project :=
  scvn ← Merge_ (p_services p) bytes;
  let '(services, volumes, networks) := scvn in
  Ok (add_all AddNetworkConfig networks (add_all AddVolumeConfig volumes (add_all AddConfig services p))).

(** ** Adding services *)

Context (GetServiceHash : string → ServiceConfig → string).

(** [enabled]: the hash of every service that was added, and the name of every
    service that was loaded by name. *)
Definition add_service (st : project * gmap string string) (ns : string * ServiceConfig) :
    project * gmap string string :=
  let '(p, enabled) := st in
  let hash := GetServiceHash ns.1 ns.2 in
  if bool_decide (enabled !! ns.1 = Some hash) then st
  else (AddConfig ns.1 ns.2 p, <[ns.1 := hash]> enabled).

(** On the converted services. *)
Definition addServices (p : project) (enabled : gmap string string)
    (serviceConfigsV2 : list (string * ServiceConfig)) : project * gmap string string :=
  foldl add_service (p, enabled) serviceConfigsV2.

(** ** Loading services by name *)

(** The file of the engines, if there is one, and the YAML library on the services
    of such a file. *)
Context {ServiceConfigV1 : Type}.
Context (MultiDockerConf : option (result string)).
Context (unmarshal_v1 : string → result (gmap string ServiceConfigV1)).
Context (marshal_v1 : gmap string ServiceConfigV1 → result string).

Definition LoadMultiEngineResource (name : string) : result string :=
  composeConfigs ← match MultiDockerConf with
                   | Some file => bytes ← file; unmarshal_v1 bytes
                   | None => Ok ∅
                   end;
  match composeConfigs !! name with
  | None => Err "failed to find the service"
  | Some c => marshal_v1 {[name := c]}
  end.

(** What [LoadServiceResource] gives (the calls it makes are those of the file
    [NetCache]) and the YAML library. *)
Context (LoadServiceResource : string → bool → result string).
Context (Unmarshal : string → result rawmap) (Marshal : rawmap → result string).
(** The zero value. *)
Context (empty_config : ServiceConfig).

Definition LoadService (useNetwork : bool) (service : string) (p : project) : result project :=
  bytes ← match LoadMultiEngineResource service with
          | Err _ => LoadServiceResource service useNetwork
          | r => r
          end;
  m ← Unmarshal bytes;
  bytes ← Marshal (adjustContainerNames m);
  Load bytes p.

(** The project afterwards, and the error. *)
Definition LoadSpecialService (serviceName serviceValue : string) (p : project) : project * result () :=
  if String.eqb serviceValue "" then (p, Err "empty service value")
  else
    let previousConfig := p_services p !! serviceName in
    let p := Add serviceName empty_config p in
    match LoadService true serviceValue p with
    | Ok p => (p, Ok ())
    | Err e =>
        (match previousConfig with Some c => Add serviceName c p | None => p end, Err e)
    | Panic e => (p, Panic e)
    end.

(** What a reload reads of the configuration. *)
Record reload_config := {
  rc_services : list (string * ServiceConfig);
  rc_include : list (string * bool);
  rc_console : string;
  rc_engine : string;
  rc_default_engine : string;
}.

Definition loadConsoleService (cfg : reload_config) (p : project) : project * result () :=
  if String.eqb (rc_console cfg) "" || String.eqb (rc_console cfg) "default" then (p, Ok ())
  else LoadSpecialService "console" (rc_console cfg) p.

Definition loadEngineService (cfg : reload_config) (p : project) : project * result () :=
  if String.eqb (rc_engine cfg) "" || String.eqb (rc_engine cfg) (rc_default_engine cfg) then (p, Ok ())
  else LoadSpecialService "docker" (rc_engine cfg) p.

Definition include_service (useNetwork : bool) (st : project * gmap string string)
    (service : string * bool) : result (project * gmap string string) :=
  let '(p, enabled) := st in
  if bool_decide (is_Some (enabled !! service.1)) || negb service.2 then Ok st
  else match LoadService useNetwork service.1 p with
       | Ok p => Ok (p, <[service.1 := service.1]> enabled)
       | Err _ => Ok st
       | Panic e => Panic e
       end.

(** An error of a special service is logged. *)
Definition logged (r : project * result ()) : result project :=
  match r with (_, Panic e) => Panic e | (p, _) => Ok p end.

(** The callback: the project and [enabled], which it keeps between calls. *)
Definition projectReload (useNetwork loadConsole : bool) (cfg : reload_config)
    (st : project * gmap string string) : result (project * gmap string string) :=
  let st := addServices st.1 st.2 (rc_services cfg) in
  st ← foldM (include_service useNetwork) st (rc_include cfg);
  if negb useNetwork then Ok st
  else
    p ← (if loadConsole then logged (loadConsoleService cfg st.1) else Ok st.1);
    p ← logged (loadEngineService cfg p);
    Ok (p, st.2).

(** [CreateServiceSet] on an empty project. *)
Definition CreateServiceSet (configs : list (string * ServiceConfig)) : project :=
  (addServices {| p_services := ∅; p_volumes := ∅; p_networks := ∅; p_reload := [] |} ∅ configs).1.

(** ** Lemmas: adding services *)

(** The services whose hash is not the one that is known. *)
Definition changed (enabled : gmap string string) (l : list (string * ServiceConfig)) :
    list (string * ServiceConfig) :=
  filter (λ ns, enabled !! ns.1 ≠ Some (GetServiceHash ns.1 ns.2)) l.

Lemma add_service_other p enabled ns name :
  name ≠ ns.1 →
  p_services (add_service (p, enabled) ns).1 !! name = p_services p !! name ∧
  (add_service (p, enabled) ns).2 !! name = enabled !! name.
Proof.
  intros Hne. unfold add_service. destruct (bool_decide _); [done|]. simpl.
  by rewrite !lookup_insert_ne by done.
Qed.

Lemma addServices_other l : ∀ p enabled name,
  name ∉ l.*1 →
  p_services (addServices p enabled l).1 !! name = p_services p !! name ∧
  (addServices p enabled l).2 !! name = enabled !! name.
Proof.
  unfold addServices. induction l as [|ns l IH]; intros p enabled name Hn; [done|].
  rewrite fmap_cons in Hn. apply not_elem_of_cons in Hn as [Hne Hn]. cbn [foldl].
  destruct (add_service_other p enabled ns name Hne) as [Hp He].
  destruct (add_service (p, enabled) ns) as [p' enabled'].
  destruct (IH p' enabled' name Hn) as [-> ->]. done.
Qed.

(** Nothing is added when every hash is known. *)
Lemma addServices_known l : ∀ p enabled,
  (∀ name sc, (name, sc) ∈ l → enabled !! name = Some (GetServiceHash name sc)) →
  addServices p enabled l = (p, enabled).
Proof.
  unfold addServices. induction l as [|[name sc] l IH]; intros p enabled Hk; [done|].
  cbn [foldl]. unfold add_service at 2. rewrite bool_decide_true by (apply Hk; left).
  apply IH. intros n s Hin. apply Hk. by right.
Qed.

Lemma changed_ext enabled enabled' l :
  (∀ ns, ns ∈ l → enabled !! ns.1 = enabled' !! ns.1) → changed enabled l = changed enabled' l.
Proof.
  unfold changed. induction l as [|ns l IH]; intros H; [done|]. rewrite !filter_cons.
  rewrite (H ns) by left. rewrite IH; [done|]. intros x Hx. apply H. by right.
Qed.

Lemma addServices_spec l : ∀ p enabled,
  NoDup l.*1 →
  let '(p', enabled') := addServices p enabled l in
  p_reload p' = (p_reload p ++ (changed enabled l).*1)%list ∧
  ∀ name sc, (name, sc) ∈ l →
    enabled' !! name = Some (GetServiceHash name sc) ∧
    p_services p' !! name =
      if decide (enabled !! name = Some (GetServiceHash name sc)) then p_services p !! name else Some sc.
Proof.
  induction l as [|[n s] l IH]; intros p enabled Hnd.
  { split; [by rewrite app_nil_r|]. by intros ? ? ?%not_elem_of_nil. }
  rewrite fmap_cons in Hnd. apply NoDup_cons in Hnd as [Hn Hnd].
  change (addServices p enabled ((n, s) :: l)) with
    (foldl add_service (add_service (p, enabled) (n, s)) l).
  destruct (add_service (p, enabled) (n, s)) as [p1 en1] eqn:E1.
  specialize (IH p1 en1 Hnd). pose proof (addServices_other l p1 en1 n Hn) as [Ho1 Ho2].
  change (foldl add_service (p1, en1) l) with (addServices p1 en1 l) in *.
  destruct (addServices p1 en1 l) as [p2 en2]. destruct IH as [Hr Hl]. simpl in Ho1, Ho2.
  assert (∀ name sc, (name, sc) ∈ l → en1 !! name = enabled !! name ∧
    p_services p1 !! name = p_services p !! name) as Hsame.
  { intros name sc Hin. assert (name ≠ n) as Hne.
    { intros ->. apply Hn. apply list_elem_of_fmap. by exists (n, sc). }
    destruct (add_service_other p enabled (n, s) name Hne) as [H1 H2]. rewrite E1 in H1, H2. done. }
  assert (changed en1 l = changed enabled l) as Hch.
  { apply changed_ext. intros [name sc] Hin. by destruct (Hsame name sc Hin). }
  unfold add_service in E1. cbn [fst snd] in E1. unfold changed. rewrite filter_cons. cbn [fst snd].
  fold (changed enabled l).
  case_bool_decide as Hk; injection E1 as <- <-.
  - rewrite decide_False by (by intros ?). rewrite Hr. split; [done|].
    intros name sc [[= -> ->]|Hin]%elem_of_cons.
    + rewrite decide_True by done. by rewrite Ho1, Ho2.
    + destruct (Hl name sc Hin) as [? ->]. destruct (Hsame name sc Hin) as [_ _]. done.
  - rewrite decide_True by done. rewrite Hr, Hch. simpl. rewrite <-app_assoc. split; [done|].
    intros name sc [[= -> ->]|Hin]%elem_of_cons.
    + rewrite decide_False by done. rewrite Ho1, Ho2. simpl. by rewrite !lookup_insert_eq.
    + destruct (Hl name sc Hin) as [? ->]. destruct (Hsame name sc Hin) as [-> ->]. done.
Qed.

(** ** Lemmas: loading *)

Lemma add_all_reload {A} (add : string → A → project → project) l :
  (∀ k v p, ∃ r, p_reload (add k v p) = (p_reload p ++ r)%list) →
  ∀ p, ∃ r, p_reload (add_all add l p) = (p_reload p ++ r)%list.
Proof.
  intros Hadd. unfold add_all. induction l as [|[k v] l IH]; intros p; [exists []; by rewrite app_nil_r|].
  cbn [foldl fst snd]. destruct (IH (add k v p)) as [r ->]. destruct (Hadd k v p) as [r' ->].
  exists (r' ++ r)%list. by rewrite app_assoc.
Qed.

Lemma Load_reload bytes p p' : Load bytes p = Ok p' → ∃ r, p_reload p' = (p_reload p ++ r)%list.
Proof.
  unfold Load, mbind, result_bind. destruct (Merge_ _ _) as [[[ss vs] ns]|e|e]; [|done..].
  intros [= <-].
  destruct (add_all_reload AddNetworkConfig ns) with
    (p := add_all AddVolumeConfig vs (add_all AddConfig ss p)) as [r1 ->].
  { intros. exists []. by rewrite app_nil_r. }
  destruct (add_all_reload AddVolumeConfig vs) with (p := add_all AddConfig ss p) as [r2 ->].
  { intros. exists []. by rewrite app_nil_r. }
  destruct (add_all_reload AddConfig ss) with (p := p) as [r3 ->].
  { intros k v q. by exists [k]. }
  exists (r3 ++ r2 ++ r1)%list. by rewrite !app_assoc.
Qed.

Lemma LoadService_reload useNetwork service p p' :
  LoadService useNetwork service p = Ok p' → ∃ r, p_reload p' = (p_reload p ++ r)%list.
Proof.
  unfold LoadService, mbind, result_bind. intros H.
  repeat match type of H with match ?m with Ok _ => _ | _ => _ end = _ => destruct m; try done end.
  by eapply Load_reload.
Qed.

(** What the included services leave alone. *)
Definition included (st st' : project * gmap string string) : Prop :=
  (∃ r, p_reload st'.1 = (p_reload st.1 ++ r)%list) ∧ st.2 ⊆ st'.2.

Lemma included_trans st1 st2 st3 : included st1 st2 → included st2 st3 → included st1 st3.
Proof.
  intros [[r1 Hr1] H1] [[r2 Hr2] H2]. split; [|by transitivity (st2.2)].
  exists (r1 ++ r2)%list. by rewrite Hr2, Hr1, app_assoc.
Qed.

Lemma include_service_included useNetwork st s st' :
  include_service useNetwork st s = Ok st' → included st st'.
Proof.
  destruct st as [p enabled]. unfold include_service.
  destruct (bool_decide _ || _) eqn:Hk.
  - intros [= <-]. split; [exists []; by rewrite app_nil_r|done].
  - apply orb_false_iff in Hk as [Hk _]. apply bool_decide_eq_false in Hk.
    destruct (LoadService useNetwork s.1 p) as [p'|e|e] eqn:E; [|intros [= <-]|done].
    + intros [= <-]. split; [by apply LoadService_reload in E|]. apply insert_subseteq.
      by apply eq_None_not_Some.
    + split; [exists []; by rewrite app_nil_r|done].
Qed.

Lemma include_services_included useNetwork l : ∀ st st',
  foldM (include_service useNetwork) st l = Ok st' → included st st'.
Proof.
  induction l as [|s l IH]; intros st st'.
  - intros [= <-]. split; [exists []; by rewrite app_nil_r|done].
  - rewrite foldM_cons. destruct (include_service useNetwork st s) as [st1|e|e] eqn:E; [|done..].
    intros H. eapply included_trans; [by eapply include_service_included|by apply IH].
Qed.

(** Services that are known, or not enabled, are not loaded again. *)
Lemma include_services_known useNetwork l p enabled :
  (∀ s, (s, true) ∈ l → is_Some (enabled !! s)) →
  foldM (include_service useNetwork) (p, enabled) l = Ok (p, enabled).
Proof.
  induction l as [|[s b] l IH]; intros Hk; [done|]. rewrite foldM_cons. unfold include_service at 1.
  cbn [fst snd].
  assert (bool_decide (is_Some (enabled !! s)) || negb b = true) as ->.
  { destruct b; [|apply orb_true_r]. rewrite bool_decide_true; [done|]. apply Hk. left. }
  apply IH. intros s' Hs'. apply Hk. by right.
Qed.

(** No special console or engine is asked for. *)
Definition no_special (loadConsole : bool) (cfg : reload_config) : Prop :=
  (loadConsole = true → rc_console cfg ∈ [""; "default"]) ∧
  rc_engine cfg ∈ [""; rc_default_engine cfg].

Lemma projectReload_no_special useNetwork loadConsole cfg st :
  no_special loadConsole cfg →
  projectReload useNetwork loadConsole cfg st =
    foldM (include_service useNetwork) (addServices st.1 st.2 (rc_services cfg)) (rc_include cfg).
Proof.
  intros [Hc He]. unfold projectReload, mbind, result_bind.
  destruct (foldM _ _ _) as [[p enabled]|e|e]; [|done..].
  destruct useNetwork; [|done]. cbn [negb fst snd].
  assert (loadEngineService cfg p = (p, Ok ())) as Hengine.
  { unfold loadEngineService. apply elem_of_cons in He as [->|He%list_elem_of_singleton]; [done|].
    rewrite He, String.eqb_refl, orb_true_r. done. }
  assert ((if loadConsole then logged (loadConsoleService cfg p) else Ok p) = Ok p) as ->.
  { destruct loadConsole; [|done]. unfold loadConsoleService.
    specialize (Hc eq_refl). apply elem_of_cons in Hc as [->|Hc%list_elem_of_singleton]; [done|].
    by rewrite Hc. }
  by rewrite Hengine.
Qed.

Lemma projectReload_result useNetwork loadConsole cfg st p' enabled' :
  no_special loadConsole cfg → NoDup (rc_services cfg).*1 →
  projectReload useNetwork loadConsole cfg st = Ok (p', enabled') →
  (∃ loaded, p_reload p' = (p_reload st.1 ++ (changed st.2 (rc_services cfg)).*1 ++ loaded)%list) ∧
  ∀ name sc, (name, sc) ∈ rc_services cfg → enabled' !! name = Some (GetServiceHash name sc).
Proof.
  intros Hno Hnd. rewrite projectReload_no_special by done.
  pose proof (addServices_spec (rc_services cfg) st.1 st.2 Hnd) as Hadd.
  destruct (addServices st.1 st.2 (rc_services cfg)) as [p1 en1]. destruct Hadd as [Hr Hs].
  intros [[r Hr'] Hsub]%include_services_included. cbn [fst snd] in *. split.
  - exists r. by rewrite Hr', Hr, <-app_assoc.
  - intros name sc Hin. eapply lookup_weaken; [by apply Hs|done].
Qed.

Lemma Add_previous name c p :
  p_services p !! name = Some c → Add name c (Add name empty_config p) = p.
Proof.
  intros Hc. unfold Add. simpl. rewrite insert_insert_eq, insert_id by done. by destruct p.
Qed.

(** After a reload without a special console or engine, the services whose
    hash was not known are added, in the order they are visited, before what is
    loaded by name, and a further reload, from any configuration whose services
    have the hashes of these and that includes only what is loaded, changes
    nothing. *)
Theorem projectReload_idempotent useNetwork loadConsole cfg st st1 useNetwork' cfg' :
  no_special loadConsole cfg → NoDup (rc_services cfg).*1 →
  projectReload useNetwork loadConsole cfg st = Ok st1 →
  no_special loadConsole cfg' →
  (∀ name sc', (name, sc') ∈ rc_services cfg' →
    ∃ sc, (name, sc) ∈ rc_services cfg ∧ GetServiceHash name sc' = GetServiceHash name sc) →
  (∀ s, (s, true) ∈ rc_include cfg' → is_Some (st1.2 !! s)) →
  (∃ loaded, p_reload st1.1 =
    (p_reload st.1 ++ (changed st.2 (rc_services cfg)).*1 ++ loaded)%list) ∧
  projectReload useNetwork' loadConsole cfg' st1 = Ok st1.
Proof.
  destruct st1 as [p1 en1]. intros Hno Hnd H1 Hno' Hsvc Hinc.
  destruct (projectReload_result _ _ _ _ _ _ Hno Hnd H1) as [Hr Hen]. split; [done|].
  rewrite projectReload_no_special by done. cbn [fst snd] in *.
  rewrite addServices_known; [by apply include_services_known|].
  intros name sc' Hin. destruct (Hsvc name sc' Hin) as (sc & Hin' & ->). by apply Hen.
Qed.

(** A special service that cannot be loaded leaves the project as it was when
    there is nothing to load or the service had a configuration, and otherwise
    leaves the empty placeholder; its configuration is never lost, and the error
    is that of the load. *)
Theorem LoadSpecialService_error serviceName serviceValue p p' e :
  LoadSpecialService serviceName serviceValue p = (p', Err e) →
  p' = (if decide (serviceValue = "" ∨ is_Some (p_services p !! serviceName)) then p
        else Add serviceName empty_config p) ∧
  (serviceValue ≠ "" → LoadService true serviceValue (Add serviceName empty_config p) = Err e).
Proof.
  unfold LoadSpecialService. destruct (String.eqb_spec serviceValue "") as [->|Hne].
  { intros [= <- <-]. rewrite decide_True by (by left). done. }
  destruct (LoadService true serviceValue (Add serviceName empty_config p)) as [|e'|]; [done| |done].
  destruct (p_services p !! serviceName) as [c|] eqn:Hc.
  - rewrite Add_previous by done. intros [= <- <-].
    rewrite decide_True by (by right). done.
  - intros [= <- <-]. rewrite decide_False; [done|]. intros [?|[? ?]]; [done|congruence].
Qed.
End Project.

(** ** Concrete runs *)

(** Services that are strings, files of one service, no network. *)
Definition example_Merge (existing : gmap string string) (bytes : string) :
    result (list (string * string) * list (string * ()) * list (string * ())) :=
  Ok ([(bytes, "image")], [], []).

Definition example_load (service : string) (useNetwork : bool) : result string :=
  if String.eqb service "missing" then Err "not found" else Ok service.

Definition example_unmarshal (bytes : string) : result rawmap :=
  Ok {[SStr bytes := VMap ∅]}.

Definition example_marshal (m : rawmap) : result string :=
  match map_to_list m with
  | (SStr k, _) :: _ => Ok k
  | _ => Err "no service"
  end.

Definition example_reload (cfg : reload_config (ServiceConfig := string)) :=
  projectReload example_Merge (λ name s, name +:+ ":" +:+ s) (ServiceConfigV1 := ()) None
    (λ _, Ok ∅) (λ _, Ok "") example_load example_unmarshal example_marshal "" true true cfg.

Definition example_cfg (image console : string) : reload_config :=
  {| rc_services := [("syslog", "os-syslog"); ("docker", image)];
     rc_include := [("crontab", true); ("kernel-extras", false); ("missing", true)];
     rc_console := console; rc_engine := "e1"; rc_default_engine := "e1" |}.

Definition example_start : project (ServiceConfig := string) * gmap string string :=
  ({| p_services := ∅; p_volumes := (∅ : gmap string ()); p_networks := (∅ : gmap string ());
      p_reload := [] |}, ∅).

(** A changed service is added again; the others are not. *)
Example reload_changed :
  (st ← example_reload (example_cfg "docker1" "default") example_start;
   st ← example_reload (example_cfg "docker2" "default") st;
   Ok (p_reload st.1, p_services st.1 !! "docker")) =
    Ok (["syslog"; "docker"; "crontab"; "docker"], Some "docker2").
Proof. vm_compute. reflexivity. Qed.

(** A special console is loaded again at every reload, and one that fails
    leaves a placeholder. *)
Example reload_console :
  (st ← example_reload (example_cfg "docker1" "ubuntu") example_start;
   st ← example_reload (example_cfg "docker1" "ubuntu") st;
   Ok (p_reload st.1)) = Ok ["syslog"; "docker"; "crontab"; "ubuntu"; "ubuntu"] ∧
  (st ← example_reload (example_cfg "docker1" "missing") example_start;
   Ok (p_services st.1 !! "console")) = Ok (Some "").
Proof. split; vm_compute; reflexivity. Qed.

Lemma projectReload_idempotent_witness :
  ∃ st1, example_reload (example_cfg "docker1" "default") example_start = Ok st1 ∧
  (∃ loaded, p_reload st1.1 = (["syslog"; "docker"] ++ loaded)%list) ∧
  example_reload {| rc_services := [("docker", "docker1"); ("syslog", "os-syslog")];
                    rc_include := [("crontab", true)];
                    rc_console := "default"; rc_engine := ""; rc_default_engine := "e1" |} st1 = Ok st1.
Proof.
  eexists. split; [vm_compute; reflexivity|].
  unshelve epose proof (projectReload_idempotent example_Merge (λ name s, name +:+ ":" +:+ s)
    None (λ _, Ok ∅) (λ _ : gmap string (), Ok "") example_load example_unmarshal example_marshal ""
    true true (example_cfg "docker1" "default") example_start _ true
    {| rc_services := [("docker", "docker1"); ("syslog", "os-syslog")];
       rc_include := [("crontab", true)];
       rc_console := "default"; rc_engine := ""; rc_default_engine := "e1" |} _ _ _ _ _ _) as [Hr Hi];
    [..|split; [exact Hr|exact Hi]].
  - vm_compute. split; [intros _; right; left|right; left].
  - apply (bool_decide_unpack _). vm_compute. exact I.
  - vm_compute. reflexivity.
  - split; [intros _; right; left|left].
  - intros name sc' [[= -> ->]|[[= -> ->]|[]%not_elem_of_nil]%elem_of_cons]%elem_of_cons.
    + exists "docker1". split; [right; left|done].
    + exists "os-syslog". split; [left|done].
  - intros s [[= ->]|[]%not_elem_of_nil]%elem_of_cons. vm_compute. by eexists.
Defined.

Lemma LoadSpecialService_error_witness :
  let special := LoadSpecialService example_Merge (ServiceConfigV1 := ()) None
    (λ _, Ok ∅) (λ _, Ok "") example_load example_unmarshal example_marshal "" "console" "missing" in
  let p := Add "console" "default" example_start.1 in
  (special p).1 = p ∧ (special example_start.1).1 = Add "console" "" example_start.1.
Proof.
  cbv zeta. split.
  - eapply (LoadSpecialService_error example_Merge None (λ _, Ok ∅) (λ _ : gmap string (), Ok "")
      example_load example_unmarshal example_marshal "" "console" "missing"
      (Add "console" "default" example_start.1)).
    vm_compute. reflexivity.
  - eapply (LoadSpecialService_error example_Merge None (λ _, Ok ∅) (λ _ : gmap string (), Ok "")
      example_load example_unmarshal example_marshal "" "console" "missing" example_start.1).
    vm_compute. reflexivity.
Defined.
