(* ===== verification/ServiceConvert.v ===== *)
(** * From the configuration of a service to a container
    ([pkg/libcompose/config/compat.go], [pkg/libcompose/config/hash.go],
    [pkg/libcompose/docker/convert.go])

    Services of the configuration are converted to the type of the compose
    library, and that to the two records the docker API takes. Ports, volumes and
    the environment are parsed in the first step and printed again in the second.
    A slice or a map that is [nil] is an empty one, except where the code asks. *)

From stdpp Require Import prelude gmap strings list pretty sorting.
From S2P Require Import Prelude GoStrings.

Local Open Scope string_scope.

(** ** The two configurations of a service *)

Module V1.
Record ServiceConfigV1 := {
  Build : string; CapAdd : list string; CapDrop : list string; CgroupParent : string;
  CPUQuota : Z; CPUSet : string; CPUShares : Z; Command : list string; ContainerName : string;
  Devices : list string; DNS : list string; DNSSearch : list string; Dockerfile : string;
  DomainName : string; Entrypoint : list string; EnvFile : list string; Environment : list string;
  Hostname : string; Image : string; Labels : gmap string string; Links : list string;
  LogDriver : string; MacAddress : string; MemLimit : Z; MemSwapLimit : Z; Name : string;
  Net : string; OomScoreAdj : Z; Pid : string; Uts : string; Ipc : string; Ports : list string;
  Privileged : bool; Restart : string; ReadOnly : bool; StdinOpen : bool;
  SecurityOpt : list string; Tty : bool; User : string; VolumeDriver : string;
  Volumes : list string; VolumesFrom : list string; WorkingDir : string; Expose : list string;
  ExternalLinks : list string; LogOpt : option (gmap string string); ExtraHosts : list string;
  (** Name, soft and hard limit. *)
  Ulimits : list (string * (Z * Z));
}.
End V1.

(** The fields of the library's types that are used. *)
Module Sc.
Record ServicePortConfig := {
  HostIP : string; Published : string; Target : Z; Protocol : string;
}.

Inductive volume_type : Type := VolumeTypeBind | VolumeTypeVolume.

Record ServiceVolumeConfig := {
  Type_ : volume_type; Source : string; VTarget : string; VReadOnly : bool;
}.

Record ServiceConfig := {
  Name : string; CapAdd : list string; CapDrop : list string; CgroupParent : string;
  CPUQuota : Z; CPUSet : string; CPUShares : Z; Command : list string; ContainerName : string;
  Devices : list string; DNS : list string; DNSSearch : list string; DomainName : string;
  Entrypoint : list string; EnvFile : list string; Environment : gmap string (option string);
  Expose : list string; ExternalLinks : list string; ExtraHosts : gmap string string;
  Hostname : string; Image : string; Labels : gmap string string; Links : list string;
  LogDriver : string; LogOpt : option (gmap string string); MacAddress : string;
  MemLimit : Z; MemSwapLimit : Z; Net : string; NetworkMode : string; OomScoreAdj : Z;
  Pid : string; Ports : list ServicePortConfig; Privileged : bool; Restart : string;
  ReadOnly : bool; StdinOpen : bool; SecurityOpt : list string; Tty : bool; User : string;
  Uts : string; Ipc : string; VolumeDriver : string; Volumes : list ServiceVolumeConfig;
  VolumesFrom : list string; WorkingDir : string;
  (** Driver and options; context and file. *)
  Logging : option (string * option (gmap string string));
  Build : option (string * string);
  Ulimits : gmap string (Z * Z);
}.
End Sc.
Import Sc (ServicePortConfig, ServiceVolumeConfig, ServiceConfig, VolumeTypeBind, VolumeTypeVolume).

(** ** Ports *)

(** The two sides of the last separator. *)
Fixpoint cut_last (c : ascii) (s : string) : option (string * string) :=
  match s with
  | "" => None
  | String a t =>
      match cut_last c t with
      | Some (l, r) => Some (String a l, r)
      | None => if decide (a = c) then Some ("", t) else None
      end
  end.
Arguments cut_last _%_char _%_string.

Definition validatePortString (s : string) : result () :=
  if String.eqb s "" then Err "empty port specification"
  else
    match cut_last "/" s with
    | Some (_, proto) =>
        if negb (String.eqb proto "tcp") && negb (String.eqb proto "udp")
        then Err "unsupported protocol" else Ok ()
    | None => Ok ()
    end.

(** The digits at the beginning of a text. *)
Fixpoint scan_digits (acc : Z) (s : string) : Z :=
  match s with
  | String c t => if is_digit c then scan_digits (10 * acc + (byte_of c - 48))%Z t else acc
  | "" => acc
  end.

(** [fmt.Sscanf] of a decimal into a variable of type uint32 that is 0: white space
    but not a line feed is skipped, what follows the digits is not read, and the
    variable is unchanged on an error. *)
Fixpoint scan_space (s : list (Z * string)) : list (Z * string) :=
  match s with
  | (r, b) :: t => if (r =? 10)%Z then [] else if IsSpace r then scan_space t else s
  | [] => []
  end.

Definition Sscanf_uint32 (s : string) : Z :=
  match rune_bytes (scan_space (runes s)) with
  | String c t =>
      if is_digit c
      then let n := scan_digits 0 (String c t) in if (n <? 2 ^ 32)%Z then n else 0%Z
      else 0%Z
  | "" => 0%Z
  end.

Definition parsePortString (s : string) : ServicePortConfig :=
  let '(protocol, portPart) :=
    match cut_last "/" s with Some (l, r) => (r, l) | None => ("tcp", s) end in
  let pc host published target :=
    {| Sc.HostIP := host; Sc.Published := published; Sc.Target := target; Sc.Protocol := protocol |} in
  match SplitN portPart ":" 3 with
  | [t] => pc "" "" (Sscanf_uint32 t)
  | [p; t] => pc "" p (Sscanf_uint32 t)
  | [h; p; t] => pc h p (Sscanf_uint32 t)
  | _ => pc "" "" 0%Z
  end.

Definition portConfigToString (p : ServicePortConfig) : string :=
  let s := if String.eqb (Sc.HostIP p) "" then "" else Sc.HostIP p +:+ ":" in
  let s := if String.eqb (Sc.Published p) "" then s else s +:+ Sc.Published p +:+ ":" in
  let s := s +:+ Itoa (Sc.Target p) in
  if String.eqb (Sc.Protocol p) "" || String.eqb (Sc.Protocol p) "tcp" then s
  else s +:+ "/" +:+ Sc.Protocol p.

Definition stringSliceToPortConfigs (ports : list string) : list ServicePortConfig := parsePortString <$> ports.

Definition PortsToStringSlice (ports : list ServicePortConfig) : list string := portConfigToString <$> ports.

(** ** Volumes *)

Definition isPathLike (s : string) : bool := HasPrefix s "/" || HasPrefix s ".".

Definition parseVolumeString (s : string) : ServiceVolumeConfig :=
  let vc type source target ro :=
    {| Sc.Type_ := type; Sc.Source := source; Sc.VTarget := target; Sc.VReadOnly := ro |} in
  match SplitN s ":" 3 with
  | [t] =>
      if isPathLike t then vc VolumeTypeBind "" t false else vc VolumeTypeVolume t t false
  | [s; t] => vc VolumeTypeBind s t false
  | [s; t; o] => vc VolumeTypeBind s t (String.eqb o "ro")
  | _ => vc VolumeTypeBind "" "" false
  end.

Definition volumeConfigToString (v : ServiceVolumeConfig) : string :=
  (if String.eqb (Sc.Source v) "" then "" else Sc.Source v +:+ ":") +:+ Sc.VTarget v +:+
  (if Sc.VReadOnly v then ":ro" else "").

Definition stringSliceToVolumeConfigs (volumes : list string) : list ServiceVolumeConfig :=
  parseVolumeString <$> volumes.

Definition VolumesToStringSlice (volumes : list ServiceVolumeConfig) : list string :=
  volumeConfigToString <$> volumes.

(** ** The environment and hosts *)

(** [NewMappingWithEquals]. *)
Definition set_env (m : gmap string (option string)) (env : string) : gmap string (option string) :=
  match SplitN env "=" 2 with
  | [k; v] => <[k := Some v]> m
  | _ => <[env := None]> m
  end.

Definition sliceToMappingWithEquals (slice : list string) : gmap string (option string) :=
  foldl set_env ∅ slice.

(** In the order [range] visits the map. *)
Definition env_entry (kv : string * option string) : string :=
  match kv.2 with Some v => kv.1 +:+ "=" +:+ v | None => kv.1 end.

Definition EnvironmentToSlice (env : list (string * option string)) : list string := env_entry <$> env.

Definition set_host (hosts : gmap string string) (s : string) : gmap string string :=
  match SplitN s ":" 2 with
  | [h; ip] => <[h := ip]> hosts
  | _ => hosts
  end.

Definition sliceToHostsList (slice : list string) : gmap string string := foldl set_host ∅ slice.

(** [HostsList.AsList]. *)
Definition hosts_AsList (hosts : list (string * string)) : list string :=
  (λ kv, kv.1 +:+ ":" +:+ kv.2) <$> hosts.

(** ** The conversion of a service *)

Definition convertLogging (v1 : V1.ServiceConfigV1) : option (string * option (gmap string string)) :=
  if String.eqb (V1.LogDriver v1) "" && bool_decide (V1.LogOpt v1 = None) then None
  else Some (V1.LogDriver v1, V1.LogOpt v1).

Definition convertBuild (v1 : V1.ServiceConfigV1) : option (string * string) :=
  if String.eqb (V1.Build v1) "" then None else Some (V1.Build v1, V1.Dockerfile v1).

Definition convertUlimits (v1 : V1.ServiceConfigV1) : gmap string (Z * Z) :=
  foldl (λ m u, <[u.1 := u.2]> m) ∅ (V1.Ulimits v1).

(** On a configuration that is not [nil]; the name is set by the caller. *)
Definition ServiceConfigV1ToServiceConfig (v1 : V1.ServiceConfigV1) (name : string) : ServiceConfig := {|
  Sc.Name := name; Sc.CapAdd := V1.CapAdd v1; Sc.CapDrop := V1.CapDrop v1;
  Sc.CgroupParent := V1.CgroupParent v1; Sc.CPUQuota := V1.CPUQuota v1; Sc.CPUSet := V1.CPUSet v1;
  Sc.CPUShares := V1.CPUShares v1; Sc.Command := V1.Command v1;
  Sc.ContainerName := V1.ContainerName v1; Sc.Devices := V1.Devices v1; Sc.DNS := V1.DNS v1;
  Sc.DNSSearch := V1.DNSSearch v1; Sc.DomainName := V1.DomainName v1;
  Sc.Entrypoint := V1.Entrypoint v1; Sc.EnvFile := V1.EnvFile v1;
  Sc.Environment := sliceToMappingWithEquals (V1.Environment v1); Sc.Expose := V1.Expose v1;
  Sc.ExternalLinks := V1.ExternalLinks v1; Sc.ExtraHosts := sliceToHostsList (V1.ExtraHosts v1);
  Sc.Hostname := V1.Hostname v1; Sc.Image := V1.Image v1; Sc.Labels := V1.Labels v1;
  Sc.Links := V1.Links v1; Sc.LogDriver := V1.LogDriver v1; Sc.LogOpt := V1.LogOpt v1;
  Sc.MacAddress := V1.MacAddress v1; Sc.MemLimit := V1.MemLimit v1;
  Sc.MemSwapLimit := V1.MemSwapLimit v1; Sc.Net := V1.Net v1; Sc.NetworkMode := V1.Net v1;
  Sc.OomScoreAdj := V1.OomScoreAdj v1; Sc.Pid := V1.Pid v1;
  Sc.Ports := stringSliceToPortConfigs (V1.Ports v1); Sc.Privileged := V1.Privileged v1;
  Sc.Restart := V1.Restart v1; Sc.ReadOnly := V1.ReadOnly v1; Sc.StdinOpen := V1.StdinOpen v1;
  Sc.SecurityOpt := V1.SecurityOpt v1; Sc.Tty := V1.Tty v1; Sc.User := V1.User v1;
  Sc.Uts := V1.Uts v1; Sc.Ipc := V1.Ipc v1; Sc.VolumeDriver := V1.VolumeDriver v1;
  Sc.Volumes := stringSliceToVolumeConfigs (V1.Volumes v1); Sc.VolumesFrom := V1.VolumesFrom v1;
  Sc.WorkingDir := V1.WorkingDir v1;
  Sc.Logging := convertLogging v1; Sc.Build := convertBuild v1; Sc.Ulimits := convertUlimits v1;
|}.

Definition ValidateV1ServiceConfig (v1 : option V1.ServiceConfigV1) : result () :=
  match v1 with
  | None => Err "config is nil"
  | Some v1 =>
      _ ← mapR validatePortString (V1.Ports v1);
      if existsb (λ v, String.eqb v "") (V1.Volumes v1) then Err "empty volume specification" else Ok ()
  end.

(** An invalid service is skipped. *)
Definition convert_v1 (name : string) (v1 : option V1.ServiceConfigV1) : option ServiceConfig :=
  match ValidateV1ServiceConfig v1, v1 with
  | Ok _, Some v1 => Some (ServiceConfigV1ToServiceConfig v1 name)
  | _, _ => None
  end.

Definition ConvertV1Services (v1Services : gmap string (option V1.ServiceConfigV1)) :
    gmap string ServiceConfig := map_imap convert_v1 v1Services.

Definition LoggingDriver (sc : ServiceConfig) : string :=
  match Sc.Logging sc with Some (driver, _) => driver | None => Sc.LogDriver sc end.

Definition LoggingOptions (sc : ServiceConfig) : option (gmap string string) :=
  match Sc.Logging sc with Some (_, options) => options | None => Sc.LogOpt sc end.

(** ** The hash of a service *)

(** The kinds of values [GetServiceHash] distinguishes: a [map[string]string] in
    the order [range] visits it, a [[]string], and the rest as [%v] prints it. *)
Inductive hash_value : Type :=
  | HashMap_ (m : list (string * string))
  | HashSlice (s : list string)
  | HashOther (printed : string).

Definition hash_field (key : string) (value : hash_value) : string :=
  String "010" ("  " +:+ key +:+ ": " +:+
  match value with
  | HashMap_ m =>
      Join ((λ k, k +:+ "=" +:+ default "" ((list_to_map m : gmap string string) !! k) +:+ ", ") <$>
        sort_strings m.*1) ""
  | HashSlice s => Join ((λ k, k +:+ ", ") <$> sort_strings s) ""
  | HashOther printed => printed
  end).

(** The fields of the structure by name. *)
Definition GetServiceHash (sha1_hex : string → string) (name : string)
    (config : gmap string hash_value) : string :=
  sha1_hex (name +:+ Join ((λ k, match config !! k with Some v => hash_field k v | None => "" end) <$>
    sorted_keys config) "").

(** ** The configuration of a container *)

Module Api.
Record Config := {
  Entrypoint : list string; Hostname : string; Domainname : string; User : string;
  Env : list string; Cmd : list string; Image : string; Labels : gmap string string;
  ExposedPorts : gset string; Tty : bool; OpenStdin : bool; WorkingDir : string;
  Volumes : gset string; MacAddress : string;
}.

Record Resources := {
  CgroupParent : string; Memory : Z; MemorySwap : Z; CPUShares : Z; CPUQuota : Z;
  CpusetCpus : string; Ulimits : list (string * (Z * Z)); Devices : list (string * (string * string));
}.

Record HostConfig := {
  VolumesFrom : list string; CapAdd : list string; CapDrop : list string; ExtraHosts : list string;
  Privileged : bool; Binds : list string; DNS : list string; DNSSearch : list string;
  LogType : string; LogConfig : option (gmap string string); NetworkMode : string;
  ReadonlyRootfs : bool; OomScoreAdj : Z; PidMode : string; UTSMode : string; IpcMode : string;
  PortBindings : gmap string (list (string * string)); RestartPolicy : string * Z;
  SecurityOpt : list string; VolumeDriver : string; Resources_ : Resources;
}.
End Api.

Definition isBind (s : string) : bool := has_char ":" s.

Definition isVolume (s : string) : bool := negb (isBind s).

Definition isNamedVolume (volume : string) : bool :=
  negb (HasPrefix volume ".") && negb (HasPrefix volume "/") && negb (HasPrefix volume "~").

Definition Filter (vs : list string) (f : string → bool) : list string := filter (λ v, f v = true) vs.

Definition volumes (c : ServiceConfig) : gset string :=
  list_to_set (Filter (VolumesToStringSlice (Sc.Volumes c)) isVolume).

Definition getVolumesFrom (volumesFrom : list string) (serviceConfigs : gmap string ServiceConfig)
    (projectName : string) : list string :=
  (λ volumeFrom,
    match serviceConfigs !! volumeFrom with
    | Some serviceConfig =>
        if String.eqb (Sc.ContainerName serviceConfig) ""
        then projectName +:+ "_" +:+ volumeFrom +:+ "_1" else Sc.ContainerName serviceConfig
    | None => volumeFrom
    end) <$> volumesFrom.

Section Convert.
(** The parsers of the docker libraries: exposed ports and bindings, a restart
    policy, a device. *)
Context (ParsePortSpecs : list string → result (gset string * gmap string (list (string * string)))).
Context (ParseRestartPolicy : string → result (string * Z)).
Context (ParseDevice : string → result (string * (string * string))).

Definition ports (c : ServiceConfig) :
    result (gset string * gmap string (list (string * string))) :=
  sb ← ParsePortSpecs (PortsToStringSlice (Sc.Ports c));
  ex ← ParsePortSpecs (Sc.Expose c);
  Ok (sb.1 ∪ ex.1, sb.2).

Definition parseDevices (devices : list string) : result (list (string * (string * string))) :=
  mapR ParseDevice devices.

(** The services of the project and its name; maps are visited in one order. *)
Definition Convert (serviceConfigs : gmap string ServiceConfig) (projectName : string)
    (c : ServiceConfig) : result (Api.Config * Api.HostConfig) :=
  restartPolicy ← ParseRestartPolicy (Sc.Restart c);
  pb ← ports c;
  deviceMappings ← parseDevices (Sc.Devices c);
  let volumesFrom := getVolumesFrom (Sc.VolumesFrom c) serviceConfigs projectName in
  let envSlice := EnvironmentToSlice (map_to_list (Sc.Environment c)) in
  let volumeStrs := VolumesToStringSlice (Sc.Volumes c) in
  let networkMode := if String.eqb (Sc.NetworkMode c) "" then Sc.Net c else Sc.NetworkMode c in
  Ok ({| Api.Entrypoint := Sc.Entrypoint c; Api.Hostname := Sc.Hostname c;
         Api.Domainname := Sc.DomainName c; Api.User := Sc.User c; Api.Env := envSlice;
         Api.Cmd := Sc.Command c; Api.Image := Sc.Image c; Api.Labels := Sc.Labels c;
         Api.ExposedPorts := pb.1; Api.Tty := Sc.Tty c; Api.OpenStdin := Sc.StdinOpen c;
         Api.WorkingDir := Sc.WorkingDir c; Api.Volumes := volumes c;
         Api.MacAddress := Sc.MacAddress c |},
      {| Api.VolumesFrom := volumesFrom; Api.CapAdd := Sc.CapAdd c; Api.CapDrop := Sc.CapDrop c;
         Api.ExtraHosts := hosts_AsList (map_to_list (Sc.ExtraHosts c));
         Api.Privileged := Sc.Privileged c; Api.Binds := Filter volumeStrs isBind;
         Api.DNS := Sc.DNS c; Api.DNSSearch := Sc.DNSSearch c; Api.LogType := LoggingDriver c;
         Api.LogConfig := LoggingOptions c; Api.NetworkMode := networkMode;
         Api.ReadonlyRootfs := Sc.ReadOnly c; Api.OomScoreAdj := Sc.OomScoreAdj c;
         Api.PidMode := Sc.Pid c; Api.UTSMode := Sc.Uts c; Api.IpcMode := Sc.Ipc c;
         Api.PortBindings := pb.2; Api.RestartPolicy := restartPolicy;
         Api.SecurityOpt := Sc.SecurityOpt c; Api.VolumeDriver := Sc.VolumeDriver c;
         Api.Resources_ :=
           {| Api.CgroupParent := Sc.CgroupParent c; Api.Memory := Sc.MemLimit c;
              Api.MemorySwap := Sc.MemSwapLimit c; Api.CPUShares := Sc.CPUShares c;
              Api.CPUQuota := Sc.CPUQuota c; Api.CpusetCpus := Sc.CPUSet c;
              Api.Ulimits := map_to_list (Sc.Ulimits c); Api.Devices := deviceMappings |} |}).
End Convert.

(** ** Lemmas: numbers *)

Lemma is_digit_pretty (x : N) :
  (x < 10)%N → is_digit (pretty_N_char x) = true ∧ (byte_of (pretty_N_char x) - 48 = Z.of_N x)%Z.
Proof.
  intros Hx.
  assert (x = 0 ∨ x = 1 ∨ x = 2 ∨ x = 3 ∨ x = 4 ∨ x = 5 ∨ x = 6 ∨ x = 7 ∨ x = 8 ∨ x = 9)%N as Hc
    by lia.
  by destruct_or!; subst x.
Qed.

Lemma scan_digits_go (x : N) s : scan_digits 0 (pretty_N_go x s) = scan_digits (Z.of_N x) s.
Proof.
  revert s. induction (N.lt_wf_0 x) as [x _ IH]; intros s.
  destruct (decide (x = 0)%N) as [->|Hx]; [by rewrite pretty_N_go_0|].
  rewrite pretty_N_go_step by lia. rewrite IH by (apply N.div_lt; lia).
  destruct (is_digit_pretty (x `mod` 10)) as [Hd Hv]; [by apply N.mod_lt|].
  cbn [scan_digits]. rewrite Hd, Hv. f_equal.
  pose proof (N.div_mod x 10 ltac:(done)). lia.
Qed.

(** A text whose characters are digits. *)
Fixpoint digits (s : string) : bool :=
  match s with "" => true | String c t => is_digit c && digits t end.

Lemma digits_go (x : N) s : digits s = true → digits (pretty_N_go x s) = true.
Proof.
  revert s. induction (N.lt_wf_0 x) as [x _ IH]; intros s Hs.
  destruct (decide (x = 0)%N) as [->|Hx]; [by rewrite pretty_N_go_0|].
  rewrite pretty_N_go_step by lia. apply IH; [apply N.div_lt; lia|].
  cbn [digits]. destruct (is_digit_pretty (x `mod` 10)) as [-> _]; [by apply N.mod_lt|done].
Qed.

Lemma Itoa_digits n : (0 ≤ n)%Z → digits (Itoa n) = true ∧ scan_digits 0 (Itoa n) = n ∧ Itoa n ≠ "".
Proof.
  intros Hn. destruct n as [|p|p]; [done| |lia].
  change (Itoa (Z.pos p)) with (pretty_N_go (N.pos p) "").
  split; [by apply digits_go|]. rewrite scan_digits_go. split; [done|].
  intros E. pose proof (scan_digits_go (N.pos p) "") as H. rewrite E in H. done.
Qed.

Lemma digits_no_char c s : is_digit c = false → digits s = true → has_char c s = false.
Proof.
  intros Hc. induction s as [|a s IH]; intros Hs; [done|]. cbn [digits] in Hs.
  apply andb_true_iff in Hs as [Ha Hs]. cbn [has_char]. rewrite IH by done.
  rewrite bool_decide_false; [done|]. congruence.
Qed.

Lemma Sscanf_Itoa n : (0 ≤ n < 2 ^ 32)%Z → Sscanf_uint32 (Itoa n) = n.
Proof.
  intros [Hn Hlt]. destruct (Itoa_digits n Hn) as (Hd & Hv & Hne).
  destruct (Itoa n) as [|c t] eqn:E; [done|]. cbn [digits] in Hd.
  apply andb_true_iff in Hd as [Hc _]. unfold Sscanf_uint32.
  assert (48 ≤ byte_of c ≤ 57)%Z as Hb.
  { unfold is_digit in Hc. unfold byte_of. apply andb_true_iff in Hc as [H1%Nat.leb_le H2%Nat.leb_le].
    lia. }
  rewrite runes_cons_ascii by lia. cbn [scan_space].
  assert (IsSpace (byte_of c) = false) as Hs by (unfold IsSpace; lia).
  assert ((byte_of c =? 10)%Z = false) as -> by lia. rewrite Hs.
  rewrite rune_bytes_cons, rune_bytes_runes. cbn [fst snd]. cbn [String.append].
  rewrite Hc. cbv zeta. rewrite Hv. by rewrite (proj2 (Z.ltb_lt _ _)).
Qed.

(** ** Lemmas: cutting *)

Lemma cut_last_None c s : has_char c s = false → cut_last c s = None.
Proof.
  induction s as [|a s IH]; [done|]. cbn [has_char cut_last]. intros [Ha Hs]%orb_false_iff.
  rewrite IH by done. rewrite decide_False; [done|]. by apply bool_decide_eq_false in Ha.
Qed.

Lemma cut_last_app c a b : has_char c b = false → cut_last c (a +:+ String c b) = Some (a, b).
Proof.
  intros Hb. induction a as [|x a IH]; simpl.
  - rewrite cut_last_None by done. by rewrite decide_True.
  - by rewrite IH.
Qed.

Lemma SplitN3_2 c a b : has_char c a = false → has_char c b = false →
  SplitN (a +:+ String c b) c 3 = [a; b].
Proof.
  intros Ha Hb. cbn [SplitN]. rewrite cut_char_app by done.
  by rewrite (proj2 (cut_char_None c b) Hb).
Qed.

Lemma SplitN3_3 c a b r : has_char c a = false → has_char c b = false →
  SplitN (a +:+ String c (b +:+ String c r)) c 3 = [a; b; r].
Proof. intros Ha Hb. cbn [SplitN]. by rewrite !cut_char_app by done. Qed.

Lemma SplitN3_1 c a : has_char c a = false → SplitN a c 3 = [a].
Proof. intros Ha. cbn [SplitN]. by rewrite (proj2 (cut_char_None c a) Ha). Qed.

(** ** Ports *)

(** A port as it is written: an address, a port of the host, the port of the
    container and a protocol, the first two and the last possibly empty. *)
Definition port_text (host published : string) (target : Z) (protocol : string) : string :=
  (if decide (host = "") then (if decide (published = "") then "" else published +:+ ":")
   else host +:+ ":" +:+ published +:+ ":") +:+ Itoa target +:+
  (if decide (protocol = "") then "" else "/" +:+ protocol).

Definition plain (s : string) : Prop := has_char ":" s = false ∧ has_char "/" s = false.

Lemma plain_Itoa n : (0 ≤ n)%Z → plain (Itoa n).
Proof. intros Hn. destruct (Itoa_digits n Hn) as (Hd & _). by split; apply digits_no_char. Qed.

Definition port_parts (host published : string) (target : Z) : list string :=
  if decide (host = "") then (if decide (published = "") then [Itoa target] else [published; Itoa target])
  else [host; published; Itoa target].

Lemma split_port host published target :
  plain host → plain published → (0 ≤ target)%Z →
  let l := (if decide (host = "") then (if decide (published = "") then "" else published +:+ ":")
            else host +:+ ":" +:+ published +:+ ":") +:+ Itoa target in
  SplitN l ":" 3 = port_parts host published target ∧ has_char "/" l = false.
Proof.
  intros [Hh1 Hh2] [Hp1 Hp2] Ht. destruct (plain_Itoa target Ht) as [Hi1 Hi2]. unfold port_parts.
  destruct (decide (host = "")); [destruct (decide (published = ""))|]; cbv zeta.
  - split; [by apply SplitN3_1|done].
  - rewrite app_assoc_s. split; [by apply SplitN3_2|]. rewrite !has_char_app. by rewrite Hp2, Hi2.
  - rewrite !app_assoc_s. split; [by apply SplitN3_3|]. rewrite !has_char_app. by rewrite Hh2, Hp2, Hi2.
Qed.

Lemma parsePortString_text host published target protocol :
  plain host → plain published → has_char "/" protocol = false → (0 ≤ target < 2 ^ 32)%Z →
  parsePortString (port_text host published target protocol) =
    {| Sc.HostIP := host; Sc.Published := published; Sc.Target := target;
       Sc.Protocol := if decide (protocol = "") then "tcp" else protocol |}.
Proof.
  intros Hh Hp Hpr Ht.
  destruct (split_port host published target) as [Hs Hl]; [done..|lia|].
  unfold parsePortString, port_text. rewrite <-app_assoc_s.
  match type of Hl with has_char _ ?t = _ => set (l := t) in * end.
  assert (cut_last "/" (l +:+ (if decide (protocol = "") then "" else "/" +:+ protocol)) =
    if decide (protocol = "") then None else Some (l, protocol)) as ->.
  { destruct (decide (protocol = "")); [|by apply (cut_last_app "/")].
    rewrite app_empty_r. by apply cut_last_None. }
  assert (Sscanf_uint32 (Itoa target) = target) as Hi by by apply Sscanf_Itoa.
  destruct (decide (protocol = "")) as [->|]; [rewrite app_empty_r|]; rewrite Hs; unfold port_parts;
    destruct (decide (host = "")); [destruct (decide (published = ""))| |
      destruct (decide (published = ""))|]; rewrite Hi; by subst.
Qed.

(** A port that is written with an address, a port of the host, a port of the
    container and a protocol reaches the docker library as it was written, without
    the default protocol, but for one form: an address with an empty port of the host is
    turned into a port of the host. *)
Theorem ports_kept host published target protocol :
  plain host → plain published → has_char "/" protocol = false → (0 ≤ target < 2 ^ 32)%Z →
  PortsToStringSlice (stringSliceToPortConfigs [port_text host published target protocol]) =
    [if decide (host ≠ "" ∧ published = "")
     then port_text "" host target (if decide (protocol = "tcp") then "" else protocol)
     else port_text host published target (if decide (protocol = "tcp") then "" else protocol)].
Proof.
  intros Hh Hp Hpr Ht. cbn [fmap list_fmap stringSliceToPortConfigs PortsToStringSlice].
  unfold stringSliceToPortConfigs, PortsToStringSlice. cbn [fmap list_fmap]. f_equal.
  rewrite parsePortString_text by done. unfold portConfigToString. cbn [Sc.HostIP Sc.Published Sc.Target Sc.Protocol].
  unfold port_text.
  destruct (String.eqb_spec host "") as [Hh0|Hh0]; destruct (String.eqb_spec published "") as [Hp0|Hp0];
    repeat case_decide; try tauto; subst; try done; simpl;
    rewrite ?app_empty_r, ?app_assoc_s; try done.
  all: try (rewrite (proj2 (String.eqb_neq protocol "")), (proj2 (String.eqb_neq protocol "tcp")) by done).
  all: simpl; by rewrite ?app_assoc_s.
Qed.

(** ** Volumes *)

(** The forms of a volume. *)
Inductive mount : Type :=
  | Anonymous (path : string)
  | Named (name : string)
  | Bind (source target : string)
  | BindOptions (source target options : string).

Definition mount_text (m : mount) : string :=
  match m with
  | Anonymous path => path
  | Named name => name
  | Bind source target => source +:+ ":" +:+ target
  | BindOptions source target options => source +:+ ":" +:+ target +:+ ":" +:+ options
  end.

Definition wf_mount (m : mount) : Prop :=
  match m with
  | Anonymous path => has_char ":" path = false ∧ isPathLike path = true
  | Named name => has_char ":" name = false ∧ isPathLike name = false ∧ name ≠ ""
  | Bind source target => has_char ":" source = false ∧ has_char ":" target = false ∧ source ≠ ""
  | BindOptions source target _ =>
      has_char ":" source = false ∧ has_char ":" target = false ∧ source ≠ ""
  end.

(** The bind of the container for a volume, or the volume. *)
Definition mount_bind (m : mount) : option string :=
  match m with
  | Anonymous _ => None
  | Named name => Some (name +:+ ":" +:+ name)
  | Bind source target => Some (source +:+ ":" +:+ target)
  | BindOptions source target options =>
      Some (source +:+ ":" +:+ target +:+ (if decide (options = "ro") then ":ro" else ""))
  end.

Definition mount_volume (m : mount) : option string :=
  match m with Anonymous path => Some path | _ => None end.

Lemma bind_text_isBind a b : isBind (a +:+ ":" +:+ b) = true.
Proof. unfold isBind. rewrite has_char_app. simpl. apply orb_true_r. Qed.

Lemma volume_text m :
  wf_mount m →
  volumeConfigToString (parseVolumeString (mount_text m)) =
    default "" (mount_bind m) +:+ default "" (mount_volume m).
Proof.
  unfold parseVolumeString, volumeConfigToString.
  destruct m as [path|name|source target|source target options]; cbn [mount_text wf_mount].
  - intros [Hc Hp]. rewrite SplitN3_1 by done. rewrite Hp. simpl. by rewrite app_empty_r.
  - intros (Hc & Hp & Hne). rewrite SplitN3_1 by done. rewrite Hp. simpl.
    rewrite (proj2 (String.eqb_neq name "")) by done. by rewrite !app_assoc_s, !app_empty_r.
  - intros (Hs & Ht & Hne). simpl (":" +:+ _). rewrite SplitN3_2 by done. simpl.
    rewrite (proj2 (String.eqb_neq source "")) by done. by rewrite ?app_assoc_s, !app_empty_r.
  - intros (Hs & Ht & Hne). simpl (":" +:+ _). rewrite SplitN3_3 by done. simpl.
    rewrite (proj2 (String.eqb_neq source "")) by done.
    destruct (String.eqb_spec options "ro"); [rewrite decide_True by done|rewrite decide_False by done];
      by rewrite !app_assoc_s, ?app_empty_r.
Qed.

Lemma volumes_texts ms :
  Forall wf_mount ms →
  let texts := VolumesToStringSlice (stringSliceToVolumeConfigs (mount_text <$> ms)) in
  Filter texts isBind = omap mount_bind ms ∧ Filter texts isVolume = omap mount_volume ms.
Proof.
  unfold Filter, VolumesToStringSlice, stringSliceToVolumeConfigs. cbv zeta.
  induction 1 as [|m ms Hm Hms [IH1 IH2]]; [done|]. rewrite !fmap_cons, !filter_cons, IH1, IH2.
  unfold isVolume. rewrite volume_text by done. cbn [omap list_omap].
  assert (isBind (default "" (mount_bind m) +:+ default "" (mount_volume m)) =
    bool_decide (is_Some (mount_bind m))) as Hb.
  { destruct m as [path|name|source target|source target options]; simpl.
    - destruct Hm as [Hm _]. done.
    - rewrite app_empty_r. apply bind_text_isBind.
    - rewrite app_empty_r. apply bind_text_isBind.
    - rewrite app_empty_r. apply bind_text_isBind. }
  rewrite Hb. destruct m; simpl; rewrite ?app_empty_r; done.
Qed.

(** ** The environment and hosts *)

Definition env_pair (e : string) : string * option string :=
  match SplitN e "=" 2 with [k; v] => (k, Some v) | _ => (e, None) end.

Lemma env_entry_pair e : env_entry (env_pair e) = e.
Proof.
  unfold env_pair. destruct (cut_char "=" e) as [[k v]|] eqn:E.
  - apply cut_char_Some in E as [-> Hk]. by rewrite SplitN2_pair.
  - by rewrite SplitN2_single by (by apply cut_char_None).
Qed.

Definition host_pair (s : string) : option (string * string) :=
  match SplitN s ":" 2 with [h; ip] => Some (h, ip) | _ => None end.

Lemma host_entry_pair s p : host_pair s = Some p → p.1 +:+ ":" +:+ p.2 = s.
Proof.
  unfold host_pair. destruct (cut_char ":" s) as [[k v]|] eqn:E.
  - apply cut_char_Some in E as [-> Hk]. rewrite SplitN2_pair by done. by intros [= <-].
  - by rewrite SplitN2_single by (by apply cut_char_None).
Qed.

(** Inserting pairs with different keys. *)
Lemma foldl_insert_to_list {V} (l : list (string * V)) (m : gmap string V) :
  NoDup l.*1 → (∀ k, k ∈ l.*1 → m !! k = None) →
  map_to_list (foldl (λ m kv, <[kv.1 := kv.2]> m) m l) ≡ₚ (l ++ map_to_list m)%list.
Proof.
  revert m. induction l as [|[k v] l IH]; intros m Hnd Hm; [done|].
  rewrite fmap_cons in Hnd, Hm. apply NoDup_cons in Hnd as [Hk Hnd]. cbn [foldl fst snd].
  rewrite IH; [|done|].
  - rewrite map_to_list_insert by (apply Hm; left). by rewrite <-Permutation_middle.
  - intros k' Hk'. rewrite lookup_insert_ne by (by intros ->). apply Hm. by right.
Qed.

Lemma EnvironmentToSlice_slice l :
  NoDup (env_pair <$> l).*1 →
  EnvironmentToSlice (map_to_list (sliceToMappingWithEquals l)) ≡ₚ l.
Proof.
  intros Hnd. unfold EnvironmentToSlice, sliceToMappingWithEquals.
  assert (∀ m, foldl set_env m l = foldl (λ m kv, <[kv.1 := kv.2]> m) m (env_pair <$> l)) as ->.
  { clear Hnd. induction l as [|e l IH]; intros m; [done|]. cbn [fmap list_fmap foldl]. rewrite IH.
    unfold set_env, env_pair. destruct (SplitN e "=" 2) as [|? [|? [|]]]; done. }
  rewrite foldl_insert_to_list by (done || (intros; apply lookup_empty)).
  rewrite map_to_list_empty, app_nil_r, <-list_fmap_compose.
  rewrite (list_fmap_ext _ id); [by rewrite list_fmap_id|]. intros i x _. apply env_entry_pair.
Qed.

Lemma hosts_AsList_slice l :
  Forall (λ s, has_char ":" s = true) l → NoDup (omap host_pair l).*1 →
  hosts_AsList (map_to_list (sliceToHostsList l)) ≡ₚ l.
Proof.
  intros Hl Hnd. unfold hosts_AsList, sliceToHostsList.
  assert (∀ m, foldl set_host m l = foldl (λ m kv, <[kv.1 := kv.2]> m) m (omap host_pair l)) as ->.
  { clear Hnd Hl. induction l as [|e l IH]; intros m; [done|]. cbn [omap list_omap foldl].
    unfold set_host, host_pair. destruct (SplitN e ":" 2) as [|? [|? [|]]]; by rewrite IH. }
  rewrite foldl_insert_to_list by (done || (intros; apply lookup_empty)).
  rewrite map_to_list_empty, app_nil_r. clear Hnd.
  induction Hl as [|s l Hs Hl IH]; [done|]. cbn [omap list_omap].
  destruct (host_pair s) as [p|] eqn:E.
  - cbn [fmap list_fmap]. rewrite (host_entry_pair s p E). by constructor.
  - exfalso. unfold host_pair in E. destruct (cut_char ":" s) as [[k v]|] eqn:Ec.
    + apply cut_char_Some in Ec as [-> Hk]. by rewrite SplitN2_pair in E.
    + apply cut_char_None in Ec. congruence.
Qed.

(** ** Containers *)

Section Container.
Context (ParsePortSpecs : list string → result (gset string * gmap string (list (string * string)))).
Context (ParseRestartPolicy : string → result (string * Z)).
Context (ParseDevice : string → result (string * (string * string))).

Local Abbreviation convert := (Convert ParsePortSpecs ParseRestartPolicy ParseDevice).

Lemma Convert_Ok scs project c cfg host :
  convert scs project c = Ok (cfg, host) →
  Api.Env cfg = EnvironmentToSlice (map_to_list (Sc.Environment c)) ∧
  Api.Volumes cfg = volumes c ∧
  Api.Binds host = Filter (VolumesToStringSlice (Sc.Volumes c)) isBind ∧
  Api.ExtraHosts host = hosts_AsList (map_to_list (Sc.ExtraHosts c)).
Proof.
  unfold Convert, mbind, result_bind. intros H.
  repeat match type of H with match ?m with Ok _ => _ | _ => _ end = _ => destruct m; try done end.
  by injection H as <- <-.
Qed.

(** The volumes of a service become binds of its container, in their order,
    except for a path alone, which is an anonymous volume; of the options of a
    bind only an [ro] that stands alone is kept. *)
Theorem container_mounts scs project name v1 ms cfg host :
  V1.Volumes v1 = mount_text <$> ms → Forall wf_mount ms →
  convert scs project (ServiceConfigV1ToServiceConfig v1 name) = Ok (cfg, host) →
  Api.Binds host = omap mount_bind ms ∧ Api.Volumes cfg = list_to_set (omap mount_volume ms).
Proof.
  intros Hv Hms (_ & Hvol & Hbinds & _)%Convert_Ok. cbn [Sc.Volumes ServiceConfigV1ToServiceConfig] in *.
  destruct (volumes_texts ms Hms) as [Hb Hn]. rewrite Hvol, Hbinds, Hv. split; [done|].
  unfold volumes. cbn [Sc.Volumes ServiceConfigV1ToServiceConfig]. by rewrite Hv, Hn.
Qed.

(** The container of a service has the variables of its environment, with and
    without a value, and its extra hosts, each as it was written and once, when
    no name is set twice. *)
Theorem container_environment scs project name v1 cfg host :
  NoDup (env_pair <$> V1.Environment v1).*1 →
  Forall (λ s, has_char ":" s = true) (V1.ExtraHosts v1) →
  NoDup (omap host_pair (V1.ExtraHosts v1)).*1 →
  convert scs project (ServiceConfigV1ToServiceConfig v1 name) = Ok (cfg, host) →
  Api.Env cfg ≡ₚ V1.Environment v1 ∧ Api.ExtraHosts host ≡ₚ V1.ExtraHosts v1.
Proof.
  intros He Hh Hhd (Henv & _ & _ & Hhosts)%Convert_Ok.
  rewrite Henv, Hhosts. split; [by apply EnvironmentToSlice_slice|by apply hosts_AsList_slice].
Qed.
End Container.

(** ** The hash of a service *)

(** Values [GetServiceHash] is meant not to tell apart. *)
Inductive same_hash_value : hash_value → hash_value → Prop :=
  | SameMap m m' : NoDup m.*1 → m ≡ₚ m' → same_hash_value (HashMap_ m) (HashMap_ m')
  | SameSlice s s' : s ≡ₚ s' → same_hash_value (HashSlice s) (HashSlice s')
  | SameOther t : same_hash_value (HashOther t) (HashOther t).

Lemma hash_field_same k v v' : same_hash_value v v' → hash_field k v = hash_field k v'.
Proof.
  intros [m m' Hnd Hm|s s' Hs|t]; unfold hash_field; [| |done].
  - rewrite (sort_strings_proper m.*1 m'.*1) by (by rewrite Hm).
    by rewrite (list_to_map_proper (M := gmap string) m m').
  - by rewrite (sort_strings_proper s s').
Qed.

(** The hash of a service does not depend on the order in which [range] visits
    the maps of its configuration, nor on the order of the elements of its lists
    of strings. *)
Theorem GetServiceHash_order sha1_hex name config config' :
  (∀ k, option_Forall2 same_hash_value (config !! k) (config' !! k)) →
  GetServiceHash sha1_hex name config = GetServiceHash sha1_hex name config'.
Proof.
  intros Hsame. unfold GetServiceHash.
  assert (sorted_keys config = sorted_keys config') as <-.
  { apply (StronglySorted_unique String.le); [apply sort_strings_sorted..|].
    apply NoDup_Permutation; [apply NoDup_sorted_keys..|]. intros k. rewrite !elem_of_sorted_keys.
    specialize (Hsame k). by inv Hsame; split; intros [? ?]; eexists. }
  do 3 f_equal. apply list_fmap_ext. intros i k _. specialize (Hsame k).
  inv Hsame; [|done]. by apply hash_field_same.
Qed.

(** ** Concrete services *)

Definition example_v1 : V1.ServiceConfigV1 := {|
  V1.Build := ""; V1.CapAdd := []; V1.CapDrop := []; V1.CgroupParent := ""; V1.CPUQuota := 0;
  V1.CPUSet := ""; V1.CPUShares := 0; V1.Command := ["ros"; "console-init"]; V1.ContainerName := "";
  V1.Devices := []; V1.DNS := []; V1.DNSSearch := []; V1.Dockerfile := ""; V1.DomainName := "";
  V1.Entrypoint := []; V1.EnvFile := []; V1.Environment := ["HTTP_PROXY"; "A=b=c"]; V1.Hostname := "";
  V1.Image := "os-console"; V1.Labels := {["io.rancher.os.scope" := "system"]}; V1.Links := [];
  V1.LogDriver := ""; V1.MacAddress := ""; V1.MemLimit := 0; V1.MemSwapLimit := 0; V1.Name := "";
  V1.Net := "host"; V1.OomScoreAdj := 0; V1.Pid := "host"; V1.Uts := "host"; V1.Ipc := "host";
  V1.Ports := ["8080:80"; "127.0.0.1::53/udp"]; V1.Privileged := true; V1.Restart := "always";
  V1.ReadOnly := false; V1.StdinOpen := false; V1.SecurityOpt := []; V1.Tty := false; V1.User := "";
  V1.VolumeDriver := "";
  V1.Volumes := ["/media:/media:shared"; "/usr/bin/ros:/usr/bin/ros:ro"; "/opt"; "data"; "/etc:/etc:ro,z"];
  V1.VolumesFrom := ["user-volumes"]; V1.WorkingDir := ""; V1.Expose := []; V1.ExternalLinks := [];
  V1.LogOpt := None; V1.ExtraHosts := ["db:10.0.0.2"]; V1.Ulimits := [] |}.

Definition example_mounts : list mount :=
  [BindOptions "/media" "/media" "shared"; BindOptions "/usr/bin/ros" "/usr/bin/ros" "ro";
   Anonymous "/opt"; Named "data"; BindOptions "/etc" "/etc" "ro,z"].

Definition example_convert (v1 : V1.ServiceConfigV1) : result (Api.Config * Api.HostConfig) :=
  Convert (λ ps, Ok (list_to_set ps, ∅)) (λ r, Ok (r, 0%Z)) (λ d, Ok (d, (d, "rwm"))) ∅ "os"
    (ServiceConfigV1ToServiceConfig v1 "console").

(** The propagation of [/media] and the read-only flag of [/etc] are lost, and an
    address whose port of the host is left open becomes that port. *)
Example container_of_console :
  match example_convert example_v1 with
  | Ok (cfg, host) =>
      Api.Binds host = ["/media:/media"; "/usr/bin/ros:/usr/bin/ros:ro"; "data:data"; "/etc:/etc"] ∧
      Api.VolumesFrom host = ["user-volumes"] ∧ Api.ExtraHosts host = ["db:10.0.0.2"] ∧
      Api.ExposedPorts cfg = {["8080:80"; "127.0.0.1:53/udp"]}
  | _ => False
  end.
Proof. repeat split; vm_compute; reflexivity. Qed.

(** A range of ports keeps its first port, and a port that is no number is valid. *)
Example port_oddities :
  PortsToStringSlice (stringSliceToPortConfigs ["8000-8010:9000-9010"; "[::1]:80:80"; "http"]) =
    ["8000-8010:9000"; "[:1"; "0"] ∧
  validatePortString "http" = Ok ().
Proof. split; vm_compute; reflexivity. Qed.

(** Two lists of options have the same hash. *)
Example hash_collision :
  GetServiceHash id "s" {["CapAdd" := HashSlice ["a, b"]]} =
  GetServiceHash id "s" {["CapAdd" := HashSlice ["a"; "b"]]}.
Proof. vm_compute. reflexivity. Qed.

Lemma ports_kept_witness :
  PortsToStringSlice (stringSliceToPortConfigs ["127.0.0.1:8080:80/udp"]) = ["127.0.0.1:8080:80/udp"] ∧
  PortsToStringSlice (stringSliceToPortConfigs ["127.0.0.1::80/tcp"]) = ["127.0.0.1:80"].
Proof.
  split.
  - apply (ports_kept "127.0.0.1" "8080" 80 "udp"); [done..|lia].
  - apply (ports_kept "127.0.0.1" "" 80 "tcp"); [done..|lia].
Defined.

Lemma container_mounts_witness :
  ∃ cfg host, example_convert example_v1 = Ok (cfg, host) ∧
  Api.Binds host = omap mount_bind example_mounts ∧
  Api.Volumes cfg = list_to_set (omap mount_volume example_mounts).
Proof.
  do 2 eexists. split; [vm_compute; reflexivity|].
  eapply (container_mounts (λ ps, Ok (list_to_set ps, ∅)) (λ r, Ok (r, 0%Z)) (λ d, Ok (d, (d, "rwm")))
    ∅ "os" "console" example_v1 example_mounts).
  - reflexivity.
  - repeat constructor; done.
  - vm_compute. reflexivity.
Defined.

Lemma container_environment_witness :
  ∃ cfg host, example_convert example_v1 = Ok (cfg, host) ∧
  Api.Env cfg ≡ₚ ["HTTP_PROXY"; "A=b=c"] ∧ Api.ExtraHosts host ≡ₚ ["db:10.0.0.2"].
Proof.
  do 2 eexists. split; [vm_compute; reflexivity|].
  eapply (container_environment (λ ps, Ok (list_to_set ps, ∅)) (λ r, Ok (r, 0%Z)) (λ d, Ok (d, (d, "rwm")))
    ∅ "os" "console" example_v1).
  - apply (bool_decide_unpack _). vm_compute. exact I.
  - repeat constructor.
  - apply (bool_decide_unpack _). vm_compute. exact I.
  - vm_compute. reflexivity.
Defined.

Lemma GetServiceHash_order_witness :
  GetServiceHash id "s" {["LogOpt" := HashMap_ [("a", "1"); ("b", "2")]; "Dns" := HashOther "x"]} =
  GetServiceHash id "s" {["LogOpt" := HashMap_ [("b", "2"); ("a", "1")]; "Dns" := HashOther "x"]}.
Proof.
  apply (GetServiceHash_order id). intros k.
  destruct (decide (k = "LogOpt")) as [->|H1]; [|destruct (decide (k = "Dns")) as [->|H2]].
  - constructor. constructor; [apply (bool_decide_unpack _); vm_compute; exact I|apply Permutation_swap].
  - constructor. constructor.
  - rewrite !lookup_insert_ne, !lookup_singleton_ne by done. constructor.
Defined.
