(* ===== verification/Conc.v ===== *)
(** * Programs against a surrounding with laws, and programs that run in parallel

    [Prog] quantifies over every answer. Here the surroundings have a state and obey a
    relation, [law c w x w']: in the state [w], the call [c] can be answered [x], leading
    to the state [w']. Goroutines that only share their surroundings are call trees
    whose calls are interleaved by a scheduler. *)

From stdpp Require Import prelude gmap strings list.
From S2P Require Import Prelude Prog.

Lemma Forall2_impl_in {A B} (P Q : A → B → Prop) l k :
  Forall2 P l k → (∀ x y, x ∈ l → y ∈ k → P x y → Q x y) → Forall2 Q l k.
Proof.
  induction 1 as [|x y l k Hxy _ IH]; intros H; constructor.
  - apply H; [left|left|done].
  - apply IH. intros x' y' Hx' Hy'. apply H; by right.
Qed.

Section conc.
Context {call : Type} {ans : call → Type} {W : Type}.
Context (law : ∀ c : call, W → ans c → W → Prop).

Abbreviation prg := (prog ans).

(** ** One program *)

(** Between two calls, others change the state by [R]; every call of the program
    changes it by [G]. At the end [Q] holds, whatever the others have done. *)
Fixpoint rg {A} (R G : relation W) (p : prg A) (Q : result A → W → Prop) (w : W) : Prop :=
  match p with
  | Done r => ∀ w1, rtc R w w1 → Q r w1
  | Call c k => ∀ w1, rtc R w w1 → ∀ x w2, law c w1 x w2 → G w1 w2 ∧ rg R G (k x) Q w2
  end.

Lemma rg_mono {A} (R G : relation W) (p : prg A) (Q Q' : result A → W → Prop) w :
  (∀ r w, Q r w → Q' r w) → rg R G p Q w → rg R G p Q' w.
Proof using Type.
  revert w. induction p as [r|c k IH]; intros w HQ; cbn [rg]; [by eauto|].
  intros H w1 Hw1 x w2 Hx. destruct (H w1 Hw1 x w2 Hx) as [Hg Hk]. split; [done|]. by apply IH.
Qed.

Lemma rg_weaken {A} (R R' G G' : relation W) (p : prg A) Q w :
  (∀ a b, R' a b → R a b) → (∀ a b, G a b → G' a b) → rg R G p Q w → rg R' G' p Q w.
Proof using Type.
  intros HR HG. assert (∀ a b, rtc R' a b → rtc R a b) as HRR.
  { intros a b Hab. induction Hab as [|a b c Hab _ IH]; [done|]. eapply rtc_l; [by apply HR|done]. }
  revert w. induction p as [r|c k IH]; intros w; cbn [rg]; [by eauto|].
  intros H w1 Hw1 x w2 Hx. destruct (H w1 (HRR _ _ Hw1) x w2 Hx) as [Hg Hk]. split; [by apply HG|].
  by apply IH.
Qed.

(** What the others do before the first call does not matter. *)
Lemma rg_stable {A} (R G : relation W) (p : prg A) Q w w1 : rtc R w w1 → rg R G p Q w → rg R G p Q w1.
Proof using Type.
  intros Hw. destruct p as [r|c k]; cbn [rg]; intros H w2 Hw2; apply H; by etrans.
Qed.

Lemma rg_bind {A B} (R G : relation W) (p : prg A) (f : A → prg B) Q w :
  rg R G p (λ r w, match r with
    | Ok a => rg R G (f a) Q w
    | Err e => ∀ w1, rtc R w w1 → Q (Err e) w1
    | Panic e => ∀ w1, rtc R w w1 → Q (Panic e) w1 end) w →
  rg R G (p ≫= f) Q w.
Proof using Type.
  unfold mbind, prog_mbind. revert w. induction p as [r|c k IH]; intros w; cbn [rg prog_bind].
  - intros H. specialize (H w (rtc_refl _ _)). destruct r; [done|exact H|exact H].
  - intros H w1 Hw1 x w2 Hx. destruct (H w1 Hw1 x w2 Hx) as [Hg Hk]. split; [done|]. by apply IH.
Qed.

Lemma rg_ret {A} (R G : relation W) (a : A) (Q : result A → W → Prop) w :
  (∀ w1, rtc R w w1 → Q (Ok a) w1) → rg R G (mret a) Q w.
Proof using Type. done. Qed.

Lemma rg_invoke (R G : relation W) c (Q : result (ans c) → W → Prop) w :
  (∀ w1, rtc R w w1 → ∀ x w2, law c w1 x w2 → G w1 w2 ∧ ∀ w3, rtc R w2 w3 → Q (Ok x) w3) →
  rg R G (invoke c) Q w.
Proof using Type. intros H w1 Hw1 x w2 Hx. by apply H. Qed.

Lemma rg_attempt {A} (R G : relation W) (p : prg A) Q w :
  rg R G p (λ r w, match r with
    | Panic e => Q (Panic e) w
    | r => Q (Ok r) w end) w →
  rg R G (attempt p) Q w.
Proof using Type.
  revert w. induction p as [r|c k IH]; intros w; cbn [rg attempt].
  - intros H. destruct r; cbn [rg]; intros w1 Hw1; by specialize (H w1 Hw1).
  - intros H w1 Hw1 x w2 Hx. destruct (H w1 Hw1 x w2 Hx) as [Hg Hk]. split; [done|]. by apply IH.
Qed.

(** ** Interleavings *)

(** Two programs; [sched n] says which of them makes the [n]-th call while both have
    one to make. Both results are given, also when one is a panic. *)
Section par2.
Context {A B : Type} (sched : nat → bool).

Fixpoint finish_right (ra : result A) (q : prg B) : prg (result A * result B) :=
  match q with
  | Done rb => Done (Ok (ra, rb))
  | Call c k => Call c (λ x, finish_right ra (k x))
  end.

Fixpoint finish_left (p : prg A) (rb : result B) : prg (result A * result B) :=
  match p with
  | Done ra => Done (Ok (ra, rb))
  | Call c k => Call c (λ x, finish_left (k x) rb)
  end.

Fixpoint par2 (p : prg A) : prg B → nat → prg (result A * result B) :=
  match p with
  | Done ra => λ q _, finish_right ra q
  | Call c k =>
      fix go (q : prg B) (n : nat) : prg (result A * result B) :=
        match q with
        | Done rb => Call c (λ x, finish_left (k x) rb)
        | Call c' k' =>
            if sched n then Call c (λ x, par2 (k x) q (S n))
            else Call c' (λ x, go (k' x) (S n))
        end
  end.
End par2.

(** A list of programs, each merged with the interleaving of those after it. *)
Fixpoint par {A} (scheds : nat → nat → bool) (l : list (prg A)) : prg (list (result A)) :=
  match l with
  | [] => mret []
  | p :: l => rs ← par2 (scheds (length l)) p (par scheds l) 0;
              match rs with
              | (r, Ok rs) => mret (r :: rs)
              | (_, Err e) => Done (Err e)
              | (_, Panic e) => Done (Panic e)
              end
  end.

Lemma rg_finish_right {A B} (R G : relation W) (ra : result A) (q : prg B) (QB : result B → W → Prop)
    (Q : result (result A * result B) → W → Prop) w :
  (∀ rb w, QB rb w → Q (Ok (ra, rb)) w) → rg R G q QB w → rg R G (finish_right ra q) Q w.
Proof using Type.
  intros HQ. revert w. induction q as [r|c k IH]; intros w; cbn [rg finish_right]; [by eauto|].
  intros H w1 Hw1 x w2 Hx. destruct (H w1 Hw1 x w2 Hx) as [Hg Hk]. split; [done|]. by apply IH.
Qed.

Lemma rg_finish_left {A B} (R G : relation W) (p : prg A) (rb : result B) (QA : result A → W → Prop)
    (Q : result (result A * result B) → W → Prop) w :
  (∀ ra w, QA ra w → Q (Ok (ra, rb)) w) → rg R G p QA w → rg R G (finish_left p rb) Q w.
Proof using Type.
  intros HQ. revert w. induction p as [r|c k IH]; intros w; cbn [rg finish_left]; [by eauto|].
  intros H w1 Hw1 x w2 Hx. destruct (H w1 Hw1 x w2 Hx) as [Hg Hk]. split; [done|]. by apply IH.
Qed.

(** When each of two programs tolerates what the other does, both do what they do
    alone, in every interleaving. The others, [R], are tolerated by both. *)
Lemma rg_par2 {A B} (sched : nat → bool) (R G1 G2 : relation W) (p : prg A) (q : prg B)
    (Q1 : result A → W → Prop) (Q2 : result B → W → Prop) :
  (∀ r a b, Q1 r a → R a b ∨ G2 a b → Q1 r b) →
  (∀ r a b, Q2 r a → R a b ∨ G1 a b → Q2 r b) →
  ∀ w n,
  rg (λ a b, R a b ∨ G2 a b) G1 p Q1 w → rg (λ a b, R a b ∨ G1 a b) G2 q Q2 w →
  rg R (λ a b, G1 a b ∨ G2 a b) (par2 sched p q n)
    (λ r w, ∃ ra rb, r = Ok (ra, rb) ∧ Q1 ra w ∧ Q2 rb w) w.
Proof using Type.
  intros HS1 HS2. revert q.
  assert (∀ P : W → Prop, (∀ a b, P a → R a b → P b) → ∀ a b, rtc R a b → P a → P b) as Hrtc.
  { intros P HP a b Hab. induction Hab; eauto. }
  assert (∀ (S : relation W) a b, rtc R a b → rtc (λ a b, R a b ∨ S a b) a b) as Hsub.
  { intros S a b Hab. induction Hab; [done|]. eapply rtc_l; [by left|done]. }
  (** one of the two is done, with its postcondition *)
  assert (∀ (ra : result A) (q : prg B) w, Q1 ra w → rg (λ a b, R a b ∨ G1 a b) G2 q Q2 w →
    rg R (λ a b, G1 a b ∨ G2 a b) (finish_right ra q)
      (λ r w, ∃ ra rb, r = Ok (ra, rb) ∧ Q1 ra w ∧ Q2 rb w) w) as Hright.
  { intros ra q. induction q as [rb|c k IH]; intros w Hq1 Hq; cbn [rg finish_right] in *.
    - intros w1 Hw1. exists ra, rb. split_and!; [done| |by apply Hq, Hsub].
      eapply (Hrtc (Q1 ra)); [|done..]. intros a b Ha HR. by eapply HS1; [|left].
    - intros w1 Hw1 x w2 Hx. destruct (Hq w1 (Hsub _ _ _ Hw1) x w2 Hx) as [Hg Hk]. split; [by right|].
      apply IH; [|done]. eapply HS1; [|by right]. eapply (Hrtc (Q1 ra)); [|done..].
      intros a b Ha HR. by eapply HS1; [|left]. }
  assert (∀ (p : prg A) (rb : result B) w, Q2 rb w → rg (λ a b, R a b ∨ G2 a b) G1 p Q1 w →
    rg R (λ a b, G1 a b ∨ G2 a b) (finish_left p rb)
      (λ r w, ∃ ra rb, r = Ok (ra, rb) ∧ Q1 ra w ∧ Q2 rb w) w) as Hleft.
  { intros p' rb. induction p' as [ra|c k IH]; intros w Hq2 Hp; cbn [rg finish_left] in *.
    - intros w1 Hw1. exists ra, rb. split_and!; [done|by apply Hp, Hsub|].
      eapply (Hrtc (Q2 rb)); [|done..]. intros a b Ha HR. by eapply HS2; [|left].
    - intros w1 Hw1 x w2 Hx. destruct (Hp w1 (Hsub _ _ _ Hw1) x w2 Hx) as [Hg Hk]. split; [by left|].
      apply IH; [|done]. eapply HS2; [|by right]. eapply (Hrtc (Q2 rb)); [|done..].
      intros a b Ha HR. by eapply HS2; [|left]. }
  induction p as [ra|c k IHp]; intros q.
  { intros w n Hp Hq. cbn [par2]. apply Hright; [by apply Hp|done]. }
  induction q as [rb|c' k' IHq]; intros w n Hp Hq.
  { cbn [par2]. change (rg R (λ a b, G1 a b ∨ G2 a b) (finish_left (Call c k) rb)
      (λ r w, ∃ ra rb, r = Ok (ra, rb) ∧ Q1 ra w ∧ Q2 rb w) w). apply Hleft; [by apply Hq|done]. }
  cbn [par2]. destruct (sched n).
  - cbn [rg]. intros w1 Hw1 x w2 Hx. cbn [rg] in Hp.
    destruct (Hp w1 (Hsub _ _ _ Hw1) x w2 Hx) as [Hg Hk]. split; [by left|]. apply IHp; [done|].
    eapply rg_stable; [|exact Hq]. etrans; [by apply Hsub|]. by apply rtc_once; right.
  - intros w1 Hw1 x w2 Hx. cbn [rg] in Hq.
    destruct (Hq w1 (Hsub _ _ _ Hw1) x w2 Hx) as [Hg Hk]. split; [by right|].
    apply (IHq x w2 (S n)); [|done].
    eapply rg_stable; [|exact Hp]. etrans; [by apply Hsub|]. by apply rtc_once; right.
Qed.

(** *** Any number of programs *)

Definition others {T} (l : list T) (G : T → relation W) (t : T) : relation W :=
  λ a b, ∃ t', t' ∈ l ∧ t' ≠ t ∧ G t' a b.

Lemma rg_par {T A} (scheds : nat → nat → bool) (prog_of : T → prg A) (G : T → relation W)
    (Q : T → result A → W → Prop) (l : list T) : ∀ (R : relation W) w,
  NoDup l →
  (∀ t r a b, t ∈ l → Q t r a → R a b ∨ others l G t a b → Q t r b) →
  (∀ t, t ∈ l → rg (λ a b, R a b ∨ others l G t a b) (G t) (prog_of t) (Q t) w) →
  rg R (λ a b, ∃ t, t ∈ l ∧ G t a b) (par scheds (prog_of <$> l))
    (λ r w, ∃ rs, r = Ok rs ∧ Forall2 (λ t r, Q t r w) l rs) w.
Proof using Type.
  induction l as [|t l IH]; intros R w Hnd HS Hp.
  { intros w1 _. exists []. by split. }
  apply NoDup_cons in Hnd as [Ht Hnd]. cbn [fmap list_fmap par]. apply rg_bind.
  eapply rg_mono; [|eapply rg_weaken; [done| |eapply rg_par2 with
    (G1 := G t) (G2 := λ a b, ∃ t', t' ∈ l ∧ G t' a b)
    (Q1 := Q t) (Q2 := λ r w, ∃ rs, r = Ok rs ∧ Forall2 (λ t r, Q t r w) l rs)]].
  - intros r w' (ra & rb & -> & Hq & rs & -> & Hqs) w1 Hw1. exists (ra :: rs). split; [done|].
    assert (∀ P : W → Prop, (∀ a b, P a → R a b → P b) → P w' → P w1) as Hrtc.
    { intros P HP. clear -HP Hw1. induction Hw1; eauto. }
    constructor.
    + apply (Hrtc (Q t ra)); [|done]. intros a b Ha HR. eapply HS; [left|exact Ha|by left].
    + apply (Hrtc (λ w, Forall2 (λ t r, Q t r w) l rs)); [|done]. intros a b Ha HR.
      eapply Forall2_impl_in; [exact Ha|]. intros t' r' Ht' _ Hq'. eapply HS; [by right|exact Hq'|by left].
  - intros a b [Hg|(t' & Ht' & Hg)]; [exists t|exists t']; (split; [|done]); [by left|by right].
  - intros r a b Hq Hab. eapply HS; [left|exact Hq|].
    destruct Hab as [HR|(t' & Ht' & Hg)]; [by left|right]. exists t'. split_and!; [by right| |done].
    by intros ->.
  - intros r a b (rs & -> & Hqs) Hab. exists rs. split; [done|].
    eapply Forall2_impl_in; [exact Hqs|]. intros t' r' Ht' _ Hq'. eapply HS; [by right|exact Hq'|].
    destruct Hab as [HR|Hg]; [by left|right]. exists t. split_and!; [left| |done]. by intros ->.
  - eapply rg_weaken; [| |by apply Hp; left]; [|done].
    intros a b [HR|(t' & Ht' & Hg)]; [by left|right]. exists t'. split_and!; [by right| |done]. by intros ->.
  - apply IH; [done| |].
    + intros t' r a b Ht' Hq Hab. eapply HS; [by right|exact Hq|].
      destruct Hab as [[HR|Hg]|(t'' & Ht'' & Hne & Hg)]; [by left|right|right].
      * exists t. split_and!; [left| |done]. by intros ->.
      * exists t''. split_and!; [by right|done|done].
    + intros t' Ht'. eapply rg_weaken; [| |by apply Hp; right]; [|done].
      intros a b [[HR|Hg]|(t'' & Ht'' & Hne & Hg)]; [by left|right|right].
      * exists t. split_and!; [left| |done]. by intros ->.
      * exists t''. split_and!; [by right|done|done].
Qed.

(** ** Running *)

(** A run against a surrounding that obeys the law ends as [rg] says. *)
Lemma rg_run {A} (R G : relation W) (h : ∀ c, W → ans c * W) (p : prg A) Q w :
  (∀ c w, law c w (h c w).1 (h c w).2) → rg R G p Q w → Q (run h p w).1.2 (run h p w).2.
Proof using Type.
  intros Hh. revert w. induction p as [r|c k IH]; intros w; cbn [rg run].
  - intros H. by apply H.
  - intros H. specialize (Hh c w). destruct (h c w) as [x w'].
    destruct (H w (rtc_refl _ _) x w' Hh) as [_ Hk]. specialize (IH x w' Hk).
    by destruct (run h (k x) w') as [[t r] w''].
Qed.
(** *** The calls a program can make *)

(** Every call of [p] satisfies [P], whatever the answers. *)
Fixpoint only {A} (P : call → Prop) (p : prg A) : Prop :=
  match p with
  | Done _ => True
  | Call c k => P c ∧ ∀ x, only P (k x)
  end.

Lemma only_mono {A} (P P' : call → Prop) (p : prg A) : (∀ c, P c → P' c) → only P p → only P' p.
Proof using Type. intros HP. induction p as [|c k IH]; cbn [only]; [done|]. intros [Hc Hk]. split; auto. Qed.

Lemma only_bind {A B} (P : call → Prop) (p : prg A) (f : A → prg B) :
  only P p → (∀ a, only P (f a)) → only P (p ≫= f).
Proof using Type.
  unfold mbind, prog_mbind. intros Hp Hf. induction p as [[a|e|e]|c k IH]; cbn [only prog_bind] in *; [done..|].
  destruct Hp as [Hc Hk]. split; auto.
Qed.

Lemma only_bind_assoc {A B C} (P : call → Prop) (p : prg A) (f : A → prg B) (g : B → prg C) :
  only P p → (∀ a, only P (f a ≫= g)) → only P ((p ≫= f) ≫= g).
Proof using Type.
  unfold mbind, prog_mbind. intros Hp Hf. induction p as [[a|e|e]|c k IH]; cbn [only prog_bind] in *; [done..|].
  destruct Hp as [Hc Hk]. split; auto.
Qed.

Lemma only_ret {A} (P : call → Prop) (a : A) : only P (mret a).
Proof using Type. done. Qed.

Lemma only_invoke (P : call → Prop) c : P c → only P (invoke c).
Proof using Type. by split. Qed.

Lemma only_attempt {A} (P : call → Prop) (p : prg A) : only P p → only P (attempt p).
Proof using Type. induction p as [[a|e|e]|c k IH]; cbn [only attempt]; [done..|]. intros [Hc Hk]. split; auto. Qed.

Lemma only_ignore {A} (P : call → Prop) (p : prg A) : only P p → only P (ignore p).
Proof using Type. intros Hp. apply only_bind; [by apply only_attempt|done]. Qed.

Lemma only_each {A} (P : call → Prop) (f : A → prg ()) l : (∀ a, only P (f a)) → only P (each f l).
Proof using Type. intros Hf. induction l; cbn [each]; [done|]. apply only_bind; [done|by intros _]. Qed.

Lemma only_expect {A} (P : call → Prop) (x : api A) : only P (expect x).
Proof using Type. by destruct x. Qed.

Lemma only_par2 {A B} (P : call → Prop) sched (p : prg A) (q : prg B) n :
  only P p → only P q → only P (par2 sched p q n).
Proof using Type.
  assert (∀ (ra : result A) (q : prg B), only P q → only P (finish_right ra q)) as Hright.
  { intros ra q'. induction q'; cbn [only finish_right]; [done|]. intros [? ?]; split; auto. }
  assert (∀ (p : prg A) (rb : result B), only P p → only P (finish_left p rb)) as Hleft.
  { intros p' rb. induction p'; cbn [only finish_left]; [done|]. intros [? ?]; split; auto. }
  intros Hp. revert q n. induction p as [ra|c k IHp]; intros q; [by intros; apply Hright|].
  destruct Hp as [Hc Hk]. induction q as [rb|c' k' IHq]; intros n Hq; cbn [par2].
  { split; [done|]. intros x. by apply Hleft. }
  destruct (sched n); (split; [by try destruct Hq|]); intros x; [by apply IHp|].
  apply (IHq x (S n)). by destruct Hq.
Qed.

Lemma only_par {A} (P : call → Prop) scheds (l : list (prg A)) :
  Forall (only P) l → only P (par scheds l).
Proof using Type.
  induction 1 as [|p l Hp _ IH]; cbn [par]; [done|].
  apply only_bind; [by apply only_par2|]. by intros [r [rs|e|e]].
Qed.

(** *** Behaviours *)

(** A call with its answer. *)
Definition exchange : Type := {c : call & ans c}.

(** [p] can make these calls, get these answers, and end with [r]. *)
Fixpoint behaves {A} (p : prg A) (l : list exchange) (r : result A) : Prop :=
  match p with
  | Done r' => l = [] ∧ r = r'
  | Call c k => ∃ x l', l = existT c x :: l' ∧ behaves (k x) l' r
  end.

(** The behaviour of a run. *)
Fixpoint exchanges {V A} (h : ∀ c, V → ans c * V) (p : prg A) (w : V) : list exchange * result A :=
  match p with
  | Done r => ([], r)
  | Call c k =>
      let '(x, w) := h c w in
      let '(l, r) := exchanges h (k x) w in (existT c x :: l, r)
  end.

Lemma exchanges_behaves {V A} (h : ∀ c, V → ans c * V) (p : prg A) w :
  behaves p (exchanges h p w).1 (exchanges h p w).2.
Proof using Type.
  revert w. induction p as [r|c k IH]; intros w; cbn [exchanges behaves]; [done|].
  destruct (h c w) as [x w']. specialize (IH x w'). destruct (exchanges h (k x) w') as [l r].
  by exists x, l.
Qed.

Lemma behaves_invoke c l r : behaves (invoke c) l r → ∃ x, l = [existT c x] ∧ r = Ok x.
Proof using Type. intros (x & l' & -> & -> & ->). by exists x. Qed.

Lemma behaves_call_bind {B} c (f : ans c → prg B) l r :
  behaves (invoke c ≫= f) l r → ∃ x l', l = existT c x :: l' ∧ behaves (f x) l' r.
Proof using Type. done. Qed.

Lemma behaves_bind {A B} (p : prg A) (f : A → prg B) l r :
  behaves (p ≫= f) l r →
  (∃ l1 l2 a, l = l1 ++ l2 ∧ behaves p l1 (Ok a) ∧ behaves (f a) l2 r) ∨
  (∃ e, behaves p l (Err e) ∧ r = Err e) ∨ (∃ e, behaves p l (Panic e) ∧ r = Panic e).
Proof using Type.
  unfold mbind, prog_mbind. revert l. induction p as [[a|e|e]|c k IH]; intros l; cbn [prog_bind behaves].
  - intros H. left. by exists [], l, a.
  - intros [-> ->]. right; left. by exists e.
  - intros [-> ->]. right; right. by exists e.
  - intros (x & l' & -> & Hk).
    destruct (IH x l' Hk) as [(l1 & l2 & a & -> & H1 & H2)|[(e & H1 & ->)|(e & H1 & ->)]].
    + left. exists (existT c x :: l1), l2, a. split_and!; [done| |done]. by exists x, l1.
    + right; left. exists e. split; [|done]. by exists x, l'.
    + right; right. exists e. split; [|done]. by exists x, l'.
Qed.

Lemma behaves_bind_intro {A B} (p : prg A) (f : A → prg B) l1 l2 a r :
  behaves p l1 (Ok a) → behaves (f a) l2 r → behaves (p ≫= f) (l1 ++ l2) r.
Proof using Type.
  unfold mbind, prog_mbind. revert l1. induction p as [r'|c k IH]; intros l1; cbn [prog_bind behaves].
  - by intros [-> <-].
  - intros (x & l' & -> & Hk) Hf. exists x, (l' ++ l2). split; [done|]. by apply IH.
Qed.

Lemma behaves_bind_panic {A B} (p : prg A) (f : A → prg B) l e :
  behaves p l (Panic e) → behaves (p ≫= f) l (Panic e).
Proof using Type.
  unfold mbind, prog_mbind. revert l. induction p as [r'|c k IH]; intros l; cbn [prog_bind behaves].
  - by intros [-> <-].
  - intros (x & l' & -> & Hk). exists x, l'. split; [done|]. by apply IH.
Qed.

Lemma behaves_attempt_intro {A} (p : prg A) l (r : result A) :
  behaves p l r → behaves (attempt p) l (match r with Panic e => Panic e | r => Ok r end).
Proof using Type.
  revert l. induction p as [r'|c k IH]; intros l; cbn [attempt behaves].
  - intros [-> <-]. by destruct r.
  - intros (x & l' & -> & Hk). exists x, l'. split; [done|]. by apply IH.
Qed.

Lemma behaves_bind_ok {A B} (p : prg A) (f : A → prg B) l b :
  behaves (p ≫= f) l (Ok b) → ∃ l1 l2 a, l = l1 ++ l2 ∧ behaves p l1 (Ok a) ∧ behaves (f a) l2 (Ok b).
Proof using Type.
  intros [(l1 & l2 & a & -> & H1 & H2)|[(e & _ & [=])|(e & _ & [=])]]%behaves_bind. by exists l1, l2, a.
Qed.

Lemma only_behaves {A} (P : call → Prop) (p : prg A) l r :
  behaves p l r → only P p → Forall (λ e : exchange, P (projT1 e)) l.
Proof using Type.
  revert l. induction p as [r'|c k IH]; intros l; cbn [only behaves]; [by intros [-> _]|].
  intros (x & l' & -> & Hk) [Hc Hp]. constructor; [done|]. by eapply IH.
Qed.
End conc.

Create HintDb calls.
#[export] Hint Resolve only_expect : calls.

(** Walks through a program; [leaf] proves that a call is allowed, and the database knows
    what other programs call. *)
Tactic Notation "walk" tactic3(leaf) :=
  repeat first
    [ progress intros
    | exact I
    | by auto with calls
    | apply only_bind
    | apply only_invoke; leaf
    | apply only_attempt
    | apply only_ignore
    | apply only_each
    | case_match ].

(** ** Programs whose surroundings may answer anything *)

Section logs.
Context {call : Type} {ans : call → Type}.

Abbreviation log := (list (@exchange call ans)).

(** The state is what has been called and answered. *)
Definition log_law (c : call) (w : log) (x : ans c) (w' : log) : Prop := w' = (w ++ [existT c x])%list.

(** [p] run at a moment when the log is [w], while others make calls of their own: each
    call of [p] satisfies [G], which sees the log before it, and at the end [Q] holds. *)
Definition spec {A} (G : log → exchange → Prop) (p : prog ans A) (Q : result A → log → Prop) (w : log) : Prop :=
  rg log_law prefix (λ a b, ∃ e, b = a ++ [e] ∧ G a e)%list p Q w.

(** What has happened stays so. *)
Definition monotone (P : log → Prop) : Prop := ∀ w w', w `prefix_of` w' → P w → P w'.

Lemma rtc_prefix (w w' : log) : rtc prefix w w' ↔ w `prefix_of` w'.
Proof using Type.
  split; [|by apply rtc_once]. induction 1 as [|a b c Hab _ IH]; [done|]. by etrans.
Qed.

Lemma spec_mono {A} G (p : prog ans A) (Q Q' : result A → log → Prop) w :
  (∀ r w, Q r w → Q' r w) → spec G p Q w → spec G p Q' w.
Proof using Type. apply rg_mono. Qed.

Lemma spec_done {A} G (r : result A) (Q : result A → log → Prop) w :
  monotone (Q r) → Q r w → spec G (Done r) Q w.
Proof using Type. intros Hm HQ w1 Hw1. eapply Hm; [|done]. by apply rtc_prefix. Qed.

Lemma spec_bind {A B} G (p : prog ans A) (f : A → prog ans B) Q w :
  (∀ e, monotone (Q (Err e))) → (∀ e, monotone (Q (Panic e))) →
  spec G p (λ r w, match r with
    | Ok a => spec G (f a) Q w
    | Err e => Q (Err e) w
    | Panic e => Q (Panic e) w end) w →
  spec G (p ≫= f) Q w.
Proof using Type.
  intros HE HP Hp. apply rg_bind. eapply rg_mono; [|exact Hp].
  intros [a|e|e] w1; [done|..]; intros HQ w2 Hw2%rtc_prefix; [by eapply HE|by eapply HP].
Qed.

Lemma spec_invoke G c (Q : result (ans c) → log → Prop) w :
  (∀ x, monotone (Q (Ok x))) →
  (∀ w1 x, w `prefix_of` w1 → G w1 (existT c x) ∧ Q (Ok x) (w1 ++ [existT c x])%list) →
  spec G (invoke c) Q w.
Proof using Type.
  intros HQ H w1 Hw1%rtc_prefix x w2 ->. destruct (H w1 x Hw1) as [HG HQx]. split; [by eexists|].
  intros w3 Hw3%rtc_prefix. by eapply HQ.
Qed.

Lemma spec_attempt {A} G (p : prog ans A) Q w :
  spec G p (λ r w, match r with Panic e => Q (Panic e) w | r => Q (Ok r) w end) w →
  spec G (attempt p) Q w.
Proof using Type. apply rg_attempt. Qed.

(** Calls of which [G] holds at every moment from now on. *)
Lemma spec_only_from {A} G (p : prog ans A) w :
  only (λ c, ∀ w' x, w `prefix_of` w' → G w' (existT c x)) p → spec G p (λ _ _, True) w.
Proof using Type.
  assert (∀ w0, w `prefix_of` w0 → only (λ c, ∀ w' x, w `prefix_of` w' → G w' (existT c x)) p →
    spec G p (λ _ _, True) w0) as H; [|by apply H].
  induction p as [r|c k IH]; intros w0 Hw; [done|]. intros [Hc Hk] w1 Hw1%rtc_prefix x w2 ->.
  assert (w `prefix_of` w1) as Hww by (by etrans).
  split; [eexists; split; [done|by apply Hc]|]. apply IH; [by apply prefix_app_r|apply Hk].
Qed.

(** Calls of which [G] holds at every moment. *)
Lemma spec_only {A} G (p : prog ans A) w :
  only (λ c, ∀ w x, G w (existT c x)) p → spec G p (λ _ _, True) w.
Proof using Type. intros Hp. apply spec_only_from. eapply only_mono; [|exact Hp]. auto. Qed.

(** Programs that run in parallel satisfy what each of them does alone. *)
Lemma spec_par {A} G scheds (l : list (prog ans A)) w :
  Forall (λ p, ∀ w, spec G p (λ _ _, True) w) l → spec G (par scheds l) (λ _ _, True) w.
Proof using Type.
  intros Hl.
  assert (l = (λ i, default (Done (Err EmptyString)) (l !! i)) <$> seq 0 (length l)) as Hseq.
  { apply list_eq. intros i. rewrite list_lookup_fmap. destruct (l !! i) eqn:E.
    - rewrite lookup_seq_lt by (by eapply lookup_lt_Some). cbn. by rewrite E.
    - apply lookup_ge_None in E. by rewrite lookup_seq_ge. }
  rewrite Hseq. unfold spec.
  eapply rg_mono; [|eapply rg_weaken; [done| |apply (rg_par log_law scheds _
    (λ _ a b, ∃ e, b = a ++ [e] ∧ G a e)%list (λ _ _ _, True))]]; [done| |apply NoDup_seq|done|].
  - by intros a b (i & _ & H).
  - intros i Hi. cbv beta. destruct (l !! i) as [p|] eqn:E; cbn [default from_option id]; [|done].
    eapply rg_weaken; [| |exact (proj1 (Forall_lookup _ l) Hl i p E w)]; [|done].
    intros a b [Hab|(j & _ & _ & e & -> & _)]; [done|by eexists].
Qed.

(** The log only grows. *)
Lemma spec_prefix {A} G (p : prog ans A) Q w :
  spec G p Q w → spec G p (λ r w', w `prefix_of` w' ∧ Q r w') w.
Proof using Type.
  unfold spec. assert (∀ w0, w0 `prefix_of` w → rg log_law prefix (λ a b, ∃ e, b = a ++ [e] ∧ G a e)%list p Q w →
    rg log_law prefix (λ a b, ∃ e, b = a ++ [e] ∧ G a e)%list p (λ r w', w0 `prefix_of` w' ∧ Q r w') w) as H;
    [|by apply H].
  revert w. induction p as [r|c k IH]; intros w w0 Hw Hp.
  - intros w1 Hw1. split; [|by apply Hp]. apply rtc_prefix in Hw1. by etrans.
  - intros w1 Hw1 x w2 Hx. destruct (Hp w1 Hw1 x w2 Hx) as [HG Hk]. split; [done|]. apply IH; [|done].
    apply rtc_prefix in Hw1. rewrite Hx. etrans; [exact Hw|]. etrans; [exact Hw1|]. by apply prefix_app_r.
Qed.

(** What holds when [p] returns without an error. *)
Definition ok_spec {A} G (p : prog ans A) (P : A → log → Prop) (w : log) : Prop :=
  spec G p (λ r w', ∀ a, r = Ok a → P a w') w.

Lemma ok_bind {A B} G (p : prog ans A) (f : A → prog ans B) P Q w :
  ok_spec G p P w →
  (∀ a w', w `prefix_of` w' → P a w' → ok_spec G (f a) Q w') →
  ok_spec G (p ≫= f) Q w.
Proof using Type.
  intros Hp Hf. apply spec_bind; [by intros e w1 w2 _ _|by intros e w1 w2 _ _|].
  eapply spec_mono; [|apply spec_prefix, Hp]. intros [a|e|e] w1 [Hw1 HP]; [|done..]. apply Hf; auto.
Qed.

Lemma ok_done {A} G (r : result A) (P : A → log → Prop) w :
  (∀ a, monotone (P a)) → (∀ a, r = Ok a → P a w) → ok_spec G (Done r) P w.
Proof using Type.
  intros Hm HP. apply spec_done; [|done]. intros w1 w2 Hw H a Ha. eapply Hm; [done|by apply H].
Qed.

Lemma ok_invoke G c (P : ans c → log → Prop) w :
  (∀ x, monotone (P x)) →
  (∀ w1 x, w `prefix_of` w1 → G w1 (existT c x) ∧ P x (w1 ++ [existT c x])%list) →
  ok_spec G (invoke c) P w.
Proof using Type.
  intros Hm H. apply spec_invoke.
  - intros x w1 w2 Hw Hx a [= <-]. by eapply Hm; [|apply Hx].
  - intros w1 x Hw1. destruct (H w1 x Hw1) as [HG HP]. split; [done|]. by intros a [= <-].
Qed.

Lemma ok_only {A} G (p : prog ans A) w :
  only (λ c, ∀ w x, G w (existT c x)) p → ok_spec G p (λ _ _, True) w.
Proof using Type. intros Hp. eapply spec_mono; [|by apply spec_only]. done. Qed.

Lemma ok_only_from {A} G (p : prog ans A) w :
  only (λ c, ∀ w' x, w `prefix_of` w' → G w' (existT c x)) p → ok_spec G p (λ _ _, True) w.
Proof using Type. intros Hp. eapply spec_mono; [|by apply spec_only_from]. done. Qed.

Lemma ok_true {A} G (p : prog ans A) P w : ok_spec G p P w → spec G p (λ _ _, True) w.
Proof using Type. by apply spec_mono. Qed.

Lemma expect_spec {A} G (x : api A) w : ok_spec G (expect x : prog ans A) (λ a _, x = AOk a) w.
Proof using Type.
  destruct x; apply ok_done; try (intros ? ? ? _ E; exact E); intros b Hb; [by injection Hb as ->|done..].
Qed.

(** [e] has happened after the moment when the log was [w0]. *)
Definition since (w0 : log) (e : exchange) (w : log) : Prop :=
  ∃ w1 w2, w = (w1 ++ e :: w2)%list ∧ w0 `prefix_of` w1.

Lemma since_monotone w0 e : monotone (since w0 e).
Proof using Type. intros w w' [k ->] (w1 & w2 & -> & H). exists w1, (w2 ++ k)%list. by rewrite <-app_assoc. Qed.

Lemma since_now w0 e w : w0 `prefix_of` w → since w0 e (w ++ [e])%list.
Proof using Type. intros H. by exists w, []. Qed.

Lemma since_elem w0 e w : since w0 e w → e ∈ w.
Proof using Type. intros (w1 & w2 & -> & _). set_solver. Qed.

Lemma ok_call {B} G c (f : ans c → prog ans B) Q w :
  (∀ w1 x, w `prefix_of` w1 → G w1 (existT c x)) →
  (∀ x w', w `prefix_of` w' → since w (existT c x) w' → ok_spec G (f x) Q w') →
  ok_spec G (invoke c ≫= f) Q w.
Proof using Type.
  intros HG Hf. eapply (ok_bind _ _ _ (λ x, since w (existT c x))); [|done].
  apply ok_invoke; [intros x; apply since_monotone|]. intros w1 x Hw1. split; [by apply HG|by apply since_now].
Qed.

Lemma ok_each {A} G (f : A → prog ans ()) l w :
  (∀ a w', a ∈ l → w `prefix_of` w' → ok_spec G (f a) (λ _ _, True) w') → ok_spec G (each f l) (λ _ _, True) w.
Proof using Type.
  revert w. induction l as [|a l IH]; intros w Hf; cbn [each]; [by apply ok_only|].
  eapply ok_bind; [apply Hf; [by left|done]|]. intros _ w1 Hw1 _. apply IH. intros b w2 Hb Hw2.
  apply Hf; [by right|by etrans].
Qed.

(** What each turn of a loop establishes holds at its end. *)
Lemma ok_each_post {A} G (f : A → prog ans ()) (P : A → log → Prop) l w :
  (∀ a, monotone (P a)) →
  (∀ a w', a ∈ l → w `prefix_of` w' → ok_spec G (f a) (λ _, P a) w') →
  ok_spec G (each f l) (λ _ w', ∀ a, a ∈ l → P a w') w.
Proof using Type.
  intros HP. revert w. induction l as [|a l IH]; intros w Hf; cbn [each].
  { apply ok_done; [by intros _ w1 w2 _ H b Hb%not_elem_of_nil|]. by intros _ _ b Hb%not_elem_of_nil. }
  eapply ok_bind; [apply Hf; [by left|done]|]. intros [] w1 Hw1 Ha.
  assert (ok_spec G (each f l) (λ _ w', ∀ a, a ∈ l → P a w') w1) as Hl.
  { apply IH. intros b w2 Hb Hw2. apply Hf; [by right|by etrans]. }
  eapply spec_mono; [|apply spec_prefix, Hl]. intros r w2 [Hw2 Hr] u Hu b Hb. apply elem_of_cons in Hb as [E|Hb].
  - rewrite E. by eapply HP.
  - by eapply Hr.
Qed.

(** What held at the start and stays so can be used at every call. *)
Lemma spec_stable {A} G (I : log → Prop) (p : prog ans A) Q w :
  monotone I → I w → spec G p Q w → spec (λ w' e, I w' ∧ G w' e) p Q w.
Proof using Type.
  intros Hm. revert w. induction p as [r|c k IH]; intros w HI Hp; [exact Hp|].
  intros w1 Hw1 x w2 Hx. destruct (Hp w1 Hw1 x w2 Hx) as [(e & He & HG) Hk].
  assert (I w1) as HI1 by (eapply Hm; [by apply rtc_prefix|done]).
  split; [by exists e|]. apply IH; [|done]. rewrite Hx. eapply Hm; [by apply prefix_app_r|done].
Qed.

Lemma ok_attempt {A} G (p : prog ans A) (P : A → log → Prop) w :
  ok_spec G p P w → ok_spec G (attempt p) (λ r w', ∀ a, r = Ok a → P a w') w.
Proof using Type.
  intros Hp. apply spec_attempt. eapply spec_mono; [|exact Hp].
  intros [a|e|e] w' H r [= <-] b; [intros [= <-]; by apply H|by intros [=]..].
Qed.

(** What a program establishes alone, in a log that keeps it when others add to it. *)
Lemma spec_of_behaves {A} G (p : prog ans A) (Q : result A → log → Prop) w :
  only (λ c, ∀ w' x, w `prefix_of` w' → G w' (existT c x)) p →
  (∀ l r w', behaves p l r → sublist l w' → Q r w') →
  spec G p Q w.
Proof using Type.
  assert (∀ acc w0, w `prefix_of` w0 → sublist acc w0 →
    only (λ c, ∀ w' x, w `prefix_of` w' → G w' (existT c x)) p →
    (∀ l r w', behaves p l r → sublist (acc ++ l) w' → Q r w') → spec G p Q w0) as H.
  { induction p as [r|c k IH]; intros acc w0 Hw Hacc.
    - intros _ HQ w1 Hw1%rtc_prefix. apply (HQ []); [done|]. rewrite app_nil_r.
      etrans; [exact Hacc|]. destruct Hw1 as [k' ->]. by apply sublist_inserts_r.
    - intros [Hc Hk] HQ w1 Hw1%rtc_prefix x w2 ->. assert (w `prefix_of` w1) as Hww by (by etrans).
      split; [eexists; split; [done|by apply Hc]|]. apply (IH x (acc ++ [existT c x])%list).
      + by apply prefix_app_r.
      + apply sublist_app; [|done]. etrans; [exact Hacc|]. destruct Hw1 as [k' ->]. by apply sublist_inserts_r.
      + apply Hk.
      + intros l r w' Hb Hl. apply (HQ (existT c x :: l)); [by exists x, l|]. by rewrite <-app_assoc in Hl. }
  intros Hp HQ. eapply (H [] w); [done|apply sublist_nil_l|done|done].
Qed.

Lemma since_weaken w0 w1 e w : w0 `prefix_of` w1 → since w1 e w → since w0 e w.
Proof using Type. intros H0 (k1 & k2 & -> & H). exists k1, k2. split; [done|]. by etrans. Qed.

(** From the proof about a program to its behaviours. *)
Lemma spec_behaves {A} G (p : prog ans A) Q l r w :
  behaves p l r → spec G p Q w →
  Q r (w ++ l)%list ∧ ∀ i e, l !! i = Some e → G (w ++ take i l)%list e.
Proof using Type.
  revert l w. induction p as [r'|c k IH]; intros l w; cbn [behaves].
  - intros [-> ->] Hp. split; [rewrite app_nil_r; by apply Hp|done].
  - intros (x & l' & -> & Hb) Hp. destruct (Hp w (rtc_refl _ _) x _ eq_refl) as [(e & He & HG) Hk].
    apply app_inv_head in He as [= <-]. destruct (IH _ _ _ Hb Hk) as [HQ Hl]. rewrite <-app_assoc in HQ.
    split; [done|]. intros [|i] e' Hi; cbn in Hi |- *; [injection Hi as <-; by rewrite app_nil_r|].
    specialize (Hl _ _ Hi). by rewrite <-app_assoc in Hl.
Qed.
End logs.

(** The next call of a program. *)
Ltac ok_call :=
  match goal with |- ok_spec ?G (invoke ?c ≫= ?f) ?Q ?w => refine (ok_call G c f Q w _ _) end.
