(* ===== verification/Docker.v ===== *)
(** * Containers ([pkg/libcompose/docker/container.go], [name.go], [functions.go], [image.go])

    The operations on a container are programs over the calls of the docker API. There are
    two daemons, that of the system and that of the user; a call names the one it is
    made to. *)

From stdpp Require Import prelude gmap strings list.
From S2P Require Import Prelude GoStrings Prog Conc ProjectDag ServiceConvert.

Local Open Scope string_scope.

(** ** The docker API *)

Inductive daemon : Type := SystemDocker | UserDocker.

Record ContainerJSON := {
  j_ID : string;
  j_Name : string;
  j_Running : bool;
  j_Paused : bool;
  j_ExitCode : Z;
  j_ConfigImage : string;
  j_Image : string;
  j_Labels : gmap string string;
  j_Mounts : list (string * string);
  j_Networks : list (string * list string);
}.

(** The end of the stream of a pull: success, or a message, with a code when it
    is an error of the daemon. *)
Inductive pull_stream : Type :=
  | PullDone
  | PullError (msg : string) (code : option Z).

Inductive docker_call : Type :=
  | ContainerList (labels : list string)
  | ContainerInspect (id : string)
  | ContainerCreate (config : Api.Config) (host : Api.HostConfig) (links : list string)
      (network : option (string * option string * list string)) (name : string)
  | ContainerRename (id newName : string)
  | ContainerRemove (id : string) (force removeVolumes : bool)
  | ContainerStart (id : string)
  | ContainerStop (id : string) (timeout : Z)
  | ContainerRestart (id : string) (timeout : Z)
  | ContainerKill (id signal : string)
  | ContainerPause (id : string)
  | ContainerUnpause (id : string)
  | ContainerWait (id : string)
  | ContainerAttach (id : string) (stdin tty : bool)
  | AttachEnd
  | NetworkConnect (net id ip : string)
  | NetworkDisconnect (net id : string)
  | ImageInspect (image : string)
  | ImagePull (image tag : string)
  | ImageBuild (contextDirectory image : string)
  | ImageRemove (image : string)
  | ImageTag (image repository tag : string)
  | WaitForNetwork
  | ConfigSet (key : string) (value : bool)
  | Notify (event service name : string).

Definition answer (c : daemon * docker_call) : Type :=
  match c.2 with
  | ContainerList _ => api (list (list string * gmap string string))
  | ContainerInspect _ => api ContainerJSON
  | ContainerCreate _ _ _ _ _ => api string
  | ContainerWait _ => api Z
  | ImageInspect _ => api string
  | ImagePull _ _ => api pull_stream
  | Notify _ _ _ => ()
  | _ => api ()
  end.

Abbreviation docker := (prog answer).

Definition call (d : daemon) (c : docker_call) : docker (answer (d, c)) := invoke (d, c).

(** ** Labels *)

Definition NUMBER : string := "com.docker.compose.container-number".
Definition ONEOFF : string := "com.docker.compose.oneoff".
Definition PROJECT : string := "com.docker.compose.project".
Definition SERVICE : string := "com.docker.compose.service".
Definition HASH : string := "com.docker.compose.config-hash".
Definition VERSION : string := "com.docker.compose.version".
Definition PROJECT_LEGACY : string := "io.docker.compose.project".
Definition SERVICE_LEGACY : string := "io.docker.compose.service".
Definition HASH_LEGACY : string := "io.docker.compose.config-hash".
Definition ComposeVersion : string := "1.5.0".

(** [Label.Eq]: the value of the filter [label]. *)
Definition label_eq (label value : string) : string := label +:+ "=" +:+ value.

Definition GetContainersByFilter (d : daemon) (labels : list string) :
    docker (list (list string * gmap string string)) :=
  x ← call d (ContainerList labels); expect x.

Definition GetContainer (d : daemon) (id : string) : docker (option ContainerJSON) :=
  x ← call d (ContainerInspect id);
  match x with
  | AOk container => mret (Some container)
  | ANotFound _ => mret None
  | AErr e => Done (Err e)
  end.

Definition inspect (d : daemon) (id : string) : docker ContainerJSON :=
  x ← call d (ContainerInspect id); expect x.

(** ** Names *)

Inductive Namer : Type :=
  | defaultNamer (project service : string) (oneOff : bool) (currentNumber : Z)
  | singleNamer (name : string).

Definition Next (n : Namer) : string * Z * Namer :=
  match n with
  | defaultNamer project service oneOff number =>
      let service' := if oneOff then service +:+ "_run" else service in
      (project +:+ "_" +:+ service' +:+ "_" +:+ Itoa number, number,
       defaultNamer project service oneOff (number + 1))
  | singleNamer name => (name, 1%Z, n)
  end.

(** The number after the greatest of the labels; a container without a number makes
    it 1. *)
Fixpoint next_number (containers : list (list string * gmap string string)) (maxNumber : Z) : result Z :=
  match containers with
  | [] => Ok (maxNumber + 1)%Z
  | (_, labels) :: containers =>
      let numberLabel := default "" (labels !! NUMBER) in
      if String.eqb numberLabel "" then Ok 1%Z
      else match Atoi numberLabel with
           | (_, true) => Err "invalid syntax"
           | (number, false) => next_number containers (Z.max number maxNumber)
           end
  end.

Definition NewNamer (d : daemon) (project service : string) (oneOff : bool) : docker Namer :=
  containers ← GetContainersByFilter d
    [label_eq PROJECT project; label_eq SERVICE service; label_eq ONEOFF (if oneOff then "True" else "False")];
  match next_number containers 0 with
  | Ok number => mret (defaultNamer project service oneOff number)
  | Err e => Done (Err e)
  | Panic e => Done (Panic e)
  end.

(** ** Containers *)

Record service := {
  s_name : string;
  s_config : Sc.ServiceConfig;
}.

Record Container := {
  k_name : string;
  k_number : Z;
  k_oneOff : bool;
  k_service : service;
}.

Definition NewContainer (name : string) (number : Z) (s : service) : Container :=
  {| k_name := name; k_number := number; k_oneOff := false; k_service := s |}.

Definition NewOneOffContainer (name : string) (number : Z) (s : service) : Container :=
  {| k_name := name; k_number := number; k_oneOff := true; k_service := s |}.

Definition IsSystemContainer (c : Sc.ServiceConfig) : bool :=
  String.eqb (default "" (Sc.Labels c !! ScopeLabel)) System.

(** The client the factory gives a service. *)
Definition daemon_of (s : service) : daemon :=
  if IsSystemContainer (s_config s) then SystemDocker else UserDocker.

Definition findExisting (c : Container) : docker (option ContainerJSON) :=
  GetContainer (daemon_of (k_service c)) (k_name c).

(** What a relationship needs of a configuration; the conversion sets no
    [depends_on]. *)
Definition dep_config (c : Sc.ServiceConfig) : ProjectDag.ServiceConfig :=
  {| ProjectDag.Links := Sc.Links c; ProjectDag.VolumesFrom := Sc.VolumesFrom c;
     ProjectDag.DependsOn := []; ProjectDag.NetworkMode := Sc.NetworkMode c;
     ProjectDag.Ipc := Sc.Ipc c; ProjectDag.Image := Sc.Image c; ProjectDag.Labels := Sc.Labels c;
     ProjectDag.Logging := fst <$> Sc.Logging c; ProjectDag.LogDriver := Sc.LogDriver c |}.

(** [NetworkMode.IsUserDefined] of the library. *)
Definition IsUserDefined (mode : string) : bool :=
  negb (existsb (String.eqb mode) ["default"; "bridge"; "host"; "none"] ||
        match SplitN mode ":" 2 with [p; _] => String.eqb p "container" | _ => false end).

(** The parsers of the docker libraries (see [Convert]), the hash of a service (see
    [GetServiceHash]), and the project. *)
Class Library := {
  ParsePortSpecs : list string → result (gset string * gmap string (list (string * string)));
  ParseRestartPolicy : string → result (string * Z);
  ParseDevice : string → result (string * (string * string));
  ServiceHash : string → Sc.ServiceConfig → string;
  (** The name of an image and its tag. *)
  ParseNamed : string → result (string * string);
}.

Class Project := {
  ProjectName : string;
  ServiceConfigs : gmap string Sc.ServiceConfig;
}.

Section Containers.
Context `{Library, Project}.

Definition lift {A} (r : result A) : docker A := Done r.

Definition getHash (c : Container) : string :=
  ServiceHash (s_name (k_service c)) (s_config (k_service c)).

(** [Has] of the services of the project. *)
Definition HasService (name : string) : bool := bool_decide (is_Some (ServiceConfigs !! name)).

(** *** The containers of a service ([service.go]) *)

(** The name of a container is what follows the last slash; a container has a name. *)
Definition own_name (names : list string) : result string :=
  match names with
  | [] => Panic "index out of range"
  | name :: _ => Ok (default "" (last (Split name "/")))
  end.

(** A container without a number ends the list. *)
Fixpoint number_containers (s : service) (containers : list (list string * gmap string string)) :
    result (list Container) :=
  match containers with
  | [] => Ok []
  | (names, labels) :: containers =>
      name ← own_name names;
      let numberLabel := default "" (labels !! NUMBER) in
      if String.eqb numberLabel "" then Ok [NewContainer name 1 s]
      else match Atoi numberLabel with
           | (_, true) => Err "invalid syntax"
           | (number, false) =>
               rest ← number_containers s containers;
               Ok (NewContainer name number s :: rest)
           end
  end.

Definition collectContainers (s : service) : docker (list Container) :=
  containers ← GetContainersByFilter (daemon_of s) [label_eq SERVICE (s_name s); label_eq PROJECT ProjectName];
  legacyContainers ← GetContainersByFilter (daemon_of s)
    [label_eq SERVICE_LEGACY (s_name s); label_eq PROJECT_LEGACY ProjectName];
  lift (number_containers s (match containers with [] => legacyContainers | _ => containers end)).

(** *** Creating a container *)

Definition ID (c : Container) : docker string :=
  container ← findExisting c;
  mret (match container with Some j => j_ID j | None => "" end).

Definition set_namespaces (ipc net : string → string) (h : Api.HostConfig) : Api.HostConfig :=
  {| Api.VolumesFrom := Api.VolumesFrom h; Api.CapAdd := Api.CapAdd h; Api.CapDrop := Api.CapDrop h;
     Api.ExtraHosts := Api.ExtraHosts h; Api.Privileged := Api.Privileged h; Api.Binds := Api.Binds h;
     Api.DNS := Api.DNS h; Api.DNSSearch := Api.DNSSearch h; Api.LogType := Api.LogType h;
     Api.LogConfig := Api.LogConfig h; Api.NetworkMode := net (Api.NetworkMode h);
     Api.ReadonlyRootfs := Api.ReadonlyRootfs h; Api.OomScoreAdj := Api.OomScoreAdj h;
     Api.PidMode := Api.PidMode h; Api.UTSMode := Api.UTSMode h; Api.IpcMode := ipc (Api.IpcMode h);
     Api.PortBindings := Api.PortBindings h; Api.RestartPolicy := Api.RestartPolicy h;
     Api.SecurityOpt := Api.SecurityOpt h; Api.VolumeDriver := Api.VolumeDriver h;
     Api.Resources_ := Api.Resources_ h |}.

Definition set_binds (binds : list string) (h : Api.HostConfig) : Api.HostConfig :=
  {| Api.VolumesFrom := Api.VolumesFrom h; Api.CapAdd := Api.CapAdd h; Api.CapDrop := Api.CapDrop h;
     Api.ExtraHosts := Api.ExtraHosts h; Api.Privileged := Api.Privileged h; Api.Binds := binds;
     Api.DNS := Api.DNS h; Api.DNSSearch := Api.DNSSearch h; Api.LogType := Api.LogType h;
     Api.LogConfig := Api.LogConfig h; Api.NetworkMode := Api.NetworkMode h;
     Api.ReadonlyRootfs := Api.ReadonlyRootfs h; Api.OomScoreAdj := Api.OomScoreAdj h;
     Api.PidMode := Api.PidMode h; Api.UTSMode := Api.UTSMode h; Api.IpcMode := Api.IpcMode h;
     Api.PortBindings := Api.PortBindings h; Api.RestartPolicy := Api.RestartPolicy h;
     Api.SecurityOpt := Api.SecurityOpt h; Api.VolumeDriver := Api.VolumeDriver h;
     Api.Resources_ := Api.Resources_ h |}.

(** [links]: from an alias or a container to the container. *)
Definition addLinks (links : gmap string string) (rel : ServiceRelationship)
    (containers : list Container) : gmap string string :=
  foldl (λ links c,
    let links := match links !! Alias rel with
                 | Some _ => links
                 | None => <[Alias rel := k_name c]> links
                 end in
    <[k_name c := k_name c]> links) links containers.

Definition addIpc (h : Api.HostConfig) (containers : list Container) : docker Api.HostConfig :=
  match containers with
  | [] => lift (Err "Failed to find container for IPC")
  | c :: _ => id ← ID c; mret (set_namespaces (λ _, "container:" +:+ id) (λ m, m) h)
  end.

Definition addNetNs (h : Api.HostConfig) (containers : list Container) : docker Api.HostConfig :=
  match containers with
  | [] => lift (Err "Failed to find container for networks ns")
  | c :: _ => id ← ID c; mret (set_namespaces (λ m, m) (λ _, "container:" +:+ id) h)
  end.

(** One turn of the loop over the services a container depends on. *)
Definition add_dependency (st : Api.HostConfig * gmap string string) (link : ServiceRelationship) :
    docker (Api.HostConfig * gmap string string) :=
  match ServiceConfigs !! Target link with
  | None => mret st
  | Some config =>
      containers ← collectContainers {| s_name := Target link; s_config := config |};
      match RelType link with
      | RelTypeLink => mret (st.1, addLinks st.2 link containers)
      | RelTypeIpcNamespace => h ← addIpc st.1 containers; mret (h, st.2)
      | RelTypeNetNamespace => h ← addNetNs st.1 containers; mret (h, st.2)
      | _ => mret st
      end
  end.

Fixpoint add_dependencies (st : Api.HostConfig * gmap string string) (l : list ServiceRelationship) :
    docker (Api.HostConfig * gmap string string) :=
  match l with
  | [] => mret st
  | link :: l => st ← add_dependency st link; add_dependencies st l
  end.

(** The configuration and its links, of which [range] gives some order. *)
Definition populateAdditionalHostConfig (c : Container) (h : Api.HostConfig) :
    docker (Api.HostConfig * list string) :=
  let deps := DefaultDependentServices HasService (dep_config <$> ServiceConfigs !! s_name (k_service c)) in
  st ← add_dependencies (h, ∅) deps;
  mret (st.1, ((λ kv : string * string, kv.2 +:+ ":" +:+ kv.1) <$> map_to_list st.2) ++
              Sc.ExternalLinks (s_config (k_service c)))%list.

Definition volumeBinds (volumes : gset string) (container : ContainerJSON) : list string :=
  (λ m : string * string, m.1 +:+ ":" +:+ m.2) <$> filter (λ m, m.2 ∈ volumes) (j_Mounts container).

(** [utils.Merge]: the union, in some order. *)
Definition merge_binds (coll1 coll2 : list string) : list string := remove_dups (coll1 ++ coll2).

Definition own_labels (c : Container) (labels : gmap string string) : gmap string string :=
  <[VERSION := ComposeVersion]>
  (<[NUMBER := Itoa (k_number c)]>
  (<[ONEOFF := if k_oneOff c then "True" else "False"]>
  (<[HASH := getHash c]>
  (<[PROJECT := ProjectName]>
  (<[SERVICE := s_name (k_service c)]> labels))))).

Definition set_image_labels (image : string) (labels : gmap string string) (c : Api.Config) : Api.Config :=
  {| Api.Entrypoint := Api.Entrypoint c; Api.Hostname := Api.Hostname c; Api.Domainname := Api.Domainname c;
     Api.User := Api.User c; Api.Env := Api.Env c; Api.Cmd := Api.Cmd c; Api.Image := image;
     Api.Labels := labels; Api.ExposedPorts := Api.ExposedPorts c; Api.Tty := Api.Tty c;
     Api.OpenStdin := Api.OpenStdin c; Api.WorkingDir := Api.WorkingDir c; Api.Volumes := Api.Volumes c;
     Api.MacAddress := Api.MacAddress c |}.

Definition FIX_IP : string := "io.rancher.user_docker.fix_ip".

(** The endpoint of a user defined network: its address, if one is fixed, and the
    name of the service. *)
Definition network_config (c : Container) (cfg : Api.Config) (h : Api.HostConfig) :
    option (string * option string * list string) :=
  let mode := Api.NetworkMode h in
  if String.eqb mode "" || negb (IsUserDefined mode) then None
  else Some (mode, Api.Labels cfg !! FIX_IP, [s_name (k_service c)]).

(** [oldContainer] is empty when there is none. *)
Definition createContainer (c : Container) (imageName oldContainer : string) :
    docker (option ContainerJSON) :=
  let d := daemon_of (k_service c) in
  cfg_host ← lift (Convert ParsePortSpecs ParseRestartPolicy ParseDevice ServiceConfigs ProjectName
                     (s_config (k_service c)));
  let cfg := set_image_labels imageName (own_labels c (Api.Labels cfg_host.1)) cfg_host.1 in
  host_links ← populateAdditionalHostConfig c cfg_host.2;
  host ← (if String.eqb oldContainer "" then mret host_links.1
          else
            info ← inspect d oldContainer;
            mret (set_binds (merge_binds (Api.Binds host_links.1) (volumeBinds (Api.Volumes cfg) info))
                    host_links.1));
  x ← call d (ContainerCreate cfg host host_links.2 (network_config c cfg host) (k_name c));
  id ← expect x;
  GetContainer d id.

(** *** Operations *)

(** [container.Name[1:]]. *)
Definition tail_name (name : string) : result string :=
  match name with "" => Panic "slice bounds out of range" | String _ n => Ok n end.

(** [container.ID[:12]]. *)
Definition short_id (id : string) : result string :=
  if (String.length id <? 12)%nat then Panic "slice bounds out of range" else Ok (firstn_s 12 id).

Definition old_hash (container : ContainerJSON) : string :=
  let hash := default "" (j_Labels container !! HASH) in
  let legacyHash := default "" (j_Labels container !! HASH_LEGACY) in
  if String.eqb hash "" && negb (String.eqb legacyHash "") then legacyHash else hash.

(** A container that was created and is gone when it is looked up is a nil pointer. *)
Definition deref (container : option ContainerJSON) : docker ContainerJSON :=
  match container with Some j => mret j | None => Done (Panic "nil pointer") end.

Definition Recreate (c : Container) (imageName : string) : docker (option ContainerJSON) :=
  let d := daemon_of (k_service c) in
  container ← findExisting c;
  match container with
  | None => mret None
  | Some container =>
      if String.eqb (old_hash container) "" then lift (Err "Failed to find hash on old container")
      else
        name ← lift (tail_name (j_Name container));
        short ← lift (short_id (j_ID container));
        x ← call d (ContainerRename (j_ID container) (name +:+ "_" +:+ short));
        _ ← expect x;
        newContainer ← createContainer c imageName (j_ID container);
        newContainer ← deref newContainer;
        x ← call d (ContainerRemove (j_ID container) true false);
        _ ← expect x;
        mret (Some newContainer)
  end.

(** [Create] without an override; the container that exists is returned. *)
Definition Create (c : Container) (imageName : string) : docker (option ContainerJSON) :=
  container ← findExisting c;
  match container with
  | Some j => mret (Some j)
  | None =>
      container ← createContainer c imageName "";
      _ ← call (daemon_of (k_service c)) (Notify "ContainerCreated" (s_name (k_service c)) (k_name c));
      mret container
  end.

(** [withContainer]: nothing to do without a container. *)
Definition withContainer (c : Container) (action : ContainerJSON → docker ()) : docker () :=
  container ← findExisting c;
  match container with Some j => action j | None => mret () end.

Definition do_call (c : Container) (k : docker_call) (H : answer (daemon_of (k_service c), k) = api ()) :
    docker () :=
  x ← call (daemon_of (k_service c)) k; expect (eq_rect _ (λ T, T) x _ H).

Definition Stop (c : Container) (timeout : Z) : docker () :=
  withContainer c (λ j, do_call c (ContainerStop (j_ID j) timeout) eq_refl).

Definition Pause (c : Container) : docker () :=
  withContainer c (λ j, if j_Paused j then mret () else do_call c (ContainerPause (j_ID j)) eq_refl).

Definition Unpause (c : Container) : docker () :=
  withContainer c (λ j, if j_Paused j then do_call c (ContainerUnpause (j_ID j)) eq_refl else mret ()).

Definition Kill (c : Container) (signal : string) : docker () :=
  withContainer c (λ j, do_call c (ContainerKill (j_ID j) signal) eq_refl).

Definition Restart (c : Container) (timeout : Z) : docker () :=
  withContainer c (λ j, do_call c (ContainerRestart (j_ID j) timeout) eq_refl).

(** A container that runs is left alone. *)
Definition Delete (c : Container) (removeVolume : bool) : docker () :=
  withContainer c (λ j,
    info ← inspect (daemon_of (k_service c)) (j_ID j);
    if j_Running info then mret ()
    else do_call c (ContainerRemove (j_ID j) true removeVolume) eq_refl).

Definition IsRunning (c : Container) : docker bool :=
  container ← findExisting c;
  match container with
  | None => mret false
  | Some j => info ← inspect (daemon_of (k_service c)) (j_ID j); mret (j_Running info)
  end.

Definition Start (c : Container) (container : ContainerJSON) : docker () :=
  _ ← do_call c (ContainerStart (j_ID container)) eq_refl;
  _ ← call (daemon_of (k_service c)) (Notify "ContainerStarted" (s_name (k_service c)) (k_name c));
  mret ().

(** The error of [Start] is dropped. *)
Definition Up (c : Container) (imageName : string) : docker () :=
  container ← Create c imageName;
  container ← deref container;
  if j_Running container then mret () else ignore (Start c container).

Definition OutOfSync (c : Container) (imageName : string) : docker bool :=
  container ← findExisting c;
  match container with
  | None => mret false
  | Some j =>
      if negb (String.eqb (j_ConfigImage j) imageName) then mret true
      else if negb (String.eqb (default "" (j_Labels j !! HASH)) (getHash c)) then mret true
      else
        x ← call (daemon_of (k_service c)) (ImageInspect (j_ConfigImage j));
        match x with
        | AOk image => mret (negb (String.eqb image (j_Image j)))
        | ANotFound _ => mret false
        | AErr e => lift (Err e)
        end
  end.

(** The overrides of a one-off container are written to the configuration of the
    service itself. *)
Definition override (command : list string) (tty stdinOpen : bool) (c : Sc.ServiceConfig) : Sc.ServiceConfig :=
  {| Sc.Name := Sc.Name c; Sc.CapAdd := Sc.CapAdd c; Sc.CapDrop := Sc.CapDrop c;
     Sc.CgroupParent := Sc.CgroupParent c; Sc.CPUQuota := Sc.CPUQuota c; Sc.CPUSet := Sc.CPUSet c;
     Sc.CPUShares := Sc.CPUShares c; Sc.Command := command; Sc.ContainerName := Sc.ContainerName c;
     Sc.Devices := Sc.Devices c; Sc.DNS := Sc.DNS c; Sc.DNSSearch := Sc.DNSSearch c;
     Sc.DomainName := Sc.DomainName c; Sc.Entrypoint := Sc.Entrypoint c; Sc.EnvFile := Sc.EnvFile c;
     Sc.Environment := Sc.Environment c; Sc.Expose := Sc.Expose c; Sc.ExternalLinks := Sc.ExternalLinks c;
     Sc.ExtraHosts := Sc.ExtraHosts c; Sc.Hostname := Sc.Hostname c; Sc.Image := Sc.Image c;
     Sc.Labels := Sc.Labels c; Sc.Links := Sc.Links c; Sc.LogDriver := Sc.LogDriver c;
     Sc.LogOpt := Sc.LogOpt c; Sc.MacAddress := Sc.MacAddress c; Sc.MemLimit := Sc.MemLimit c;
     Sc.MemSwapLimit := Sc.MemSwapLimit c; Sc.Net := Sc.Net c; Sc.NetworkMode := Sc.NetworkMode c;
     Sc.OomScoreAdj := Sc.OomScoreAdj c; Sc.Pid := Sc.Pid c; Sc.Ports := Sc.Ports c;
     Sc.Privileged := Sc.Privileged c; Sc.Restart := Sc.Restart c; Sc.ReadOnly := Sc.ReadOnly c;
     Sc.StdinOpen := stdinOpen; Sc.SecurityOpt := Sc.SecurityOpt c; Sc.Tty := tty; Sc.User := Sc.User c;
     Sc.Uts := Sc.Uts c; Sc.Ipc := Sc.Ipc c; Sc.VolumeDriver := Sc.VolumeDriver c;
     Sc.Volumes := Sc.Volumes c; Sc.VolumesFrom := Sc.VolumesFrom c; Sc.WorkingDir := Sc.WorkingDir c;
     Sc.Logging := Sc.Logging c; Sc.Build := Sc.Build c; Sc.Ulimits := Sc.Ulimits c |}.

(** The exit code, and the service afterwards. The terminal is left out. *)
Definition Run (c : Container) (imageName : string) (command : list string) (tty stdinOpen : bool) :
    docker (Z * service) :=
  let s := {| s_name := s_name (k_service c); s_config := override command tty stdinOpen (s_config (k_service c)) |} in
  let c := {| k_name := k_name c; k_number := k_number c; k_oneOff := k_oneOff c; k_service := s |} in
  let d := daemon_of s in
  container ← createContainer c imageName "";
  container ← deref container;
  _ ← do_call c (ContainerAttach (j_ID container) stdinOpen tty) eq_refl;
  _ ← do_call c (ContainerStart (j_ID container)) eq_refl;
  _ ← do_call c AttachEnd eq_refl;
  exited ← inspect d (j_ID container);
  mret (j_ExitCode exited, s).

(** *** What is shown of containers *)

(** An address, the ports and a protocol; a public port of 0 is none. *)
Definition port_string (port : string * Z * Z * string) : string :=
  let '(ip, public, private, type) := port in
  if (0 <? public)%Z then ip +:+ ":" +:+ Itoa public +:+ "->" +:+ Itoa private +:+ "/" +:+ type
  else Itoa private +:+ "/" +:+ type.

Definition portString (ports : list (string * Z * Z * string)) : string := Join (port_string <$> ports) ", ".

(** The first of the shortest names, without its slash; without names, the slice
    panics. *)
Definition container_name (names : list string) : result string :=
  tail_name (default "" (foldl (λ cur v,
    match cur with
    | Some c => if (String.length v <? String.length c)%nat then Some v else cur
    | None => Some v
    end) None names)).
End Containers.

(** ** Which calls an operation makes *)

Inductive kind : Type :=
  | KRead | KCreate | KRename | KRemove | KStart | KSignal | KAttach | KNetwork | KImage | KWait | KSystem.

#[export] Instance kind_eq_dec : EqDecision kind.
Proof. solve_decision. Defined.

Definition kind_of (c : docker_call) : kind :=
  match c with
  | ContainerList _ | ContainerInspect _ | ImageInspect _ | Notify _ _ _ => KRead
  | ContainerCreate _ _ _ _ _ => KCreate
  | ContainerRename _ _ => KRename
  | ContainerRemove _ _ _ => KRemove
  | ContainerStart _ => KStart
  | ContainerStop _ _ | ContainerRestart _ _ | ContainerKill _ _ | ContainerPause _ | ContainerUnpause _ => KSignal
  | ContainerAttach _ _ _ | AttachEnd => KAttach
  | NetworkConnect _ _ _ | NetworkDisconnect _ _ => KNetwork
  | ImagePull _ _ | ImageBuild _ _ | ImageRemove _ | ImageTag _ _ _ => KImage
  | ContainerWait _ => KWait
  | WaitForNetwork | ConfigSet _ _ => KSystem
  end.

Definition within (ks : list kind) (c : daemon * docker_call) : Prop := kind_of c.2 ∈ ks.

Ltac in_kinds := unfold within; cbn; repeat first [by apply list_elem_of_here | apply list_elem_of_further].

Ltac calls := walk in_kinds.

Lemma within_mono {A} (ks ks' : list kind) (p : docker A) :
  ks ⊆ ks' → only (within ks) p → only (within ks') p.
Proof. intros Hks. apply only_mono. intros c. apply Hks. Qed.

Lemma only_lift {A} P (r : result A) : only P (lift r).
Proof. done. Qed.
#[export] Hint Resolve only_lift : calls.

Section Calls.
Context `{Library, Project}.

Lemma collectContainers_calls ks s : KRead ∈ ks → only (within ks) (collectContainers s).
Proof using Type.
  intros Hks. eapply (within_mono [KRead]); [by intros k ->%list_elem_of_singleton|].
  unfold collectContainers, GetContainersByFilter, call. calls.
Qed.

Lemma findExisting_calls ks c : KRead ∈ ks → only (within ks) (findExisting c).
Proof using Type.
  intros Hks. eapply (within_mono [KRead]); [by intros k ->%list_elem_of_singleton|].
  unfold findExisting, GetContainer, call. calls.
Qed.

Lemma inspect_calls ks d id : KRead ∈ ks → only (within ks) (inspect d id).
Proof using Type.
  intros Hks. eapply (within_mono [KRead]); [by intros k ->%list_elem_of_singleton|].
  unfold inspect, call. calls.
Qed.

Lemma ID_calls ks c : KRead ∈ ks → only (within ks) (ID c).
Proof using Type. intros. unfold ID. apply only_bind; [by apply findExisting_calls|calls]. Qed.
End Calls.

#[export] Hint Extern 1 (only (within _) (collectContainers _)) => apply collectContainers_calls; in_kinds : calls.
#[export] Hint Extern 1 (only (within _) (findExisting _)) => apply findExisting_calls; in_kinds : calls.
#[export] Hint Extern 1 (only (within _) (inspect _ _)) => apply inspect_calls; in_kinds : calls.
#[export] Hint Extern 1 (only (within _) (ID _)) => apply ID_calls; in_kinds : calls.

Section Creating.
Context `{Library, Project}.

Lemma add_dependencies_calls st l : only (within [KRead]) (add_dependencies st l).
Proof using Type.
  revert st. induction l as [|link l IH]; intros st; cbn [add_dependencies]; [done|].
  apply only_bind; [|intros st'; by apply IH]. unfold add_dependency, addIpc, addNetNs. calls.
Qed.

Lemma populate_calls c h : only (within [KRead]) (populateAdditionalHostConfig c h).
Proof using Type. unfold populateAdditionalHostConfig. apply only_bind; [apply add_dependencies_calls|calls]. Qed.
End Creating.

(** The lemma [H] for a smaller set of kinds. *)
Ltac calls_from H :=
  eapply within_mono; [|apply H];
  let k := fresh in let Hk := fresh in
  intros k Hk; repeat (apply elem_of_cons in Hk as [->|Hk]; [in_kinds|]); by apply not_elem_of_nil in Hk.

Section Operations.
Context `{Library, Project}.

Lemma createContainer_calls c image old : only (within [KRead; KCreate]) (createContainer c image old).
Proof using Type.
  unfold createContainer, GetContainer, call. apply only_bind; [done|]. intros [cfg host].
  apply only_bind; [calls_from populate_calls|]. calls.
Qed.

Lemma Create_calls c image : only (within [KRead; KCreate]) (Create c image).
Proof using Type.
  unfold Create, call. apply only_bind; [calls|]. intros [j|]; [calls|].
  apply only_bind; [apply createContainer_calls|]. calls.
Qed.

Lemma Recreate_calls c image : only (within [KRead; KCreate; KRename; KRemove]) (Recreate c image).
Proof using Type.
  unfold Recreate, deref, call. apply only_bind; [calls|]. intros [j|]; [|calls]. case_match; [calls|].
  do 4 (apply only_bind; [calls|intros ?]). apply only_bind; [calls_from createContainer_calls|]. calls.
Qed.

Lemma Up_calls c image : only (within [KRead; KCreate; KStart]) (Up c image).
Proof using Type.
  unfold Up, Start, do_call, deref, call. apply only_bind; [calls_from Create_calls|]. calls.
Qed.

Lemma OutOfSync_calls c image : only (within [KRead]) (OutOfSync c image).
Proof using Type. unfold OutOfSync, call. calls. Qed.
End Operations.

#[export] Hint Extern 1 (only (within _) (Create _ _)) => calls_from Create_calls : calls.
#[export] Hint Extern 1 (only (within _) (Recreate _ _)) => calls_from Recreate_calls : calls.
#[export] Hint Extern 1 (only (within _) (Up _ _)) => calls_from Up_calls : calls.
#[export] Hint Extern 1 (only (within _) (OutOfSync _ _)) => calls_from OutOfSync_calls : calls.

(** ** Replacing a container *)

Abbreviation docker_exchange := (@exchange (daemon * docker_call)%type answer).

Section Replacing.
Context `{Library, Project}.
Abbreviation log := (list docker_exchange).

Definition ev (d : daemon) (c : docker_call) (x : answer (d, c)) : docker_exchange :=
  existT (d, c) x.

(** [old] was the container of some name, and since then another container was created under
    that name for the service, and was found. *)
Definition replaced (s : service) (d : daemon) (old : string) (w : log) : Prop :=
  ∃ name j cfg host links net new j' w1 w2,
    ev d (ContainerInspect name) (AOk j) ∈ w1 ∧ j_ID j = old ∧
    since w1 (ev d (ContainerCreate cfg host links net name) (AOk new)) w2 ∧
    Api.Labels cfg !! SERVICE = Some (s_name s) ∧
    since w2 (ev d (ContainerInspect new) (AOk j')) w.

(** Only a container that was replaced is removed. *)
Definition keeps (s : service) (w : log) (e : docker_exchange) : Prop :=
  match projT1 e with
  | (d, ContainerRemove old _ _) => replaced s d old w
  | _ => True
  end.

Lemma keeps_only {A} s (p : docker A) ks :
  KRemove ∉ ks → only (within ks) p → only (λ c, ∀ w x, keeps s w (existT c x)) p.
Proof using Type.
  intros Hks. apply only_mono. intros [d []] Hk w x; try exact I. by destruct Hks.
Qed.

Lemma keeps_calls {A} s (p : docker A) ks w :
  KRemove ∉ ks → only (within ks) p → ok_spec (keeps s) p (λ _ _, True) w.
Proof using Type. intros Hks Hp. by eapply ok_only, keeps_only. Qed.

Lemma number_containers_service s l containers :
  number_containers s l = Ok containers → Forall (λ c, k_service c = s) containers.
Proof using Type.
  revert containers. induction l as [|[names labels] l IH]; intros containers; cbn [number_containers].
  { by intros [= <-]. }
  destruct (own_name names) as [name|e|e]; [|done..]. cbn [mbind result_bind].
  case_match; [intros [= <-]; by repeat constructor|].
  destruct (Atoi _) as [number []]; [done|].
  destruct (number_containers s l) as [rest|e|e]; [|done..]. intros [= <-]. constructor; [done|]. by apply IH.
Qed.

Lemma GetContainer_spec s d id w :
  ok_spec (keeps s) (GetContainer d id)
    (λ r w', ∀ j, r = Some j → since w (ev d (ContainerInspect id) (AOk j)) w') w.
Proof using Type.
  unfold GetContainer, call. ok_call; [done|].
  intros [j|e|e] w1 Hw1 Hx; apply ok_done; try done.
  - intros [j'|] w2 w3 Hw H' j'' [= <-]. eapply since_monotone; [done|by apply H'].
  - by intros a [= <-] j' [= <-].
  - intros a w2 w3 Hw H' j' ->. eapply since_monotone; [done|by apply H'].
  - by intros a [= <-].
  - intros a w2 w3 Hw H' j' ->. eapply since_monotone; [done|by apply H'].
Qed.

(** A container that was created for the service of [c], and looked up since. *)
Definition created_since (c : Container) (w0 w : log) : Prop :=
  ∃ cfg host links net new j' w2,
    since w0 (ev (daemon_of (k_service c)) (ContainerCreate cfg host links net (k_name c)) (AOk new)) w2 ∧
    Api.Labels cfg !! SERVICE = Some (s_name (k_service c)) ∧
    since w2 (ev (daemon_of (k_service c)) (ContainerInspect new) (AOk j')) w.

Lemma created_since_monotone c w0 : monotone (created_since c w0).
Proof using Type.
  intros w w' Hw (cfg & host & links & net & new & j' & w2 & H1 & H2 & H3).
  exists cfg, host, links, net, new, j', w2. split_and!; [done..|]. by eapply since_monotone.
Qed.

Lemma createContainer_spec c image old w :
  ok_spec (keeps (k_service c)) (createContainer c image old)
    (λ r w', is_Some r → created_since c w w') w.
Proof using Type.
  unfold createContainer, call. eapply ok_bind; [by apply ok_only|]. intros [cfg host] w1 Hw1 _.
  eapply ok_bind; [eapply ok_only, keeps_only, populate_calls; set_solver|]. intros hl w2 Hw2 _.
  eapply ok_bind.
  { apply ok_only. eapply (keeps_only _ _ [KRead]); [set_solver|]. case_match; calls. }
  intros h w3 Hw3 _. ok_call; [done|]. intros x w4 Hw4 Hx.
  eapply ok_bind; [apply expect_spec|]. intros new w5 Hw5 ->. eapply spec_mono; [|apply GetContainer_spec].
  intros r w6 H6 a -> [j' ->]. specialize (H6 _ eq_refl j' eq_refl).
  do 5 eexists. exists j', w5. split_and!; [|..|exact H6].
  - eapply since_monotone; [done|]. eapply since_weaken; [|exact Hx]. by do 2 (etrans; [done|]).
  - cbn. unfold own_labels. rewrite !lookup_insert_ne by done. apply lookup_insert_eq.
Qed.

Lemma Recreate_spec c image w : ok_spec (keeps (k_service c)) (Recreate c image) (λ _ _, True) w.
Proof using Type.
  unfold Recreate, call. eapply ok_bind; [apply GetContainer_spec|]. intros [j|] w1 Hw1 Hj; [|by apply ok_done].
  specialize (Hj j eq_refl). case_match; [by apply ok_done|].
  eapply ok_bind; [by apply ok_only|]. intros name w2 Hw2 _.
  eapply ok_bind; [by apply ok_only|]. intros short w3 Hw3 _.
  ok_call; [done|]. intros x w4 Hw4 _.
  eapply ok_bind; [by apply ok_only; destruct x|]. intros [] w5 Hw5 _.
  eapply ok_bind; [apply createContainer_spec|]. intros new w6 Hw6 Hnew.
  eapply (ok_bind _ _ _ (λ _, created_since c w5)).
  { unfold deref. case_match; (apply ok_done; [intros _; apply created_since_monotone|]); [|done].
    intros a _. by apply Hnew. }
  intros new' w7 Hw7 Hc. ok_call.
  { intros w8 x8 Hw8. cbn. destruct Hc as (cfg & host & links & net & new2 & j' & k & Hk1 & Hk2 & Hk3).
    exists (k_name c), j, cfg, host, links, net, new2, j', w5, k. split_and!; [|done..|].
    - eapply elem_of_prefix; [by eapply since_elem|]. by do 3 (etrans; [done|]).
    - by eapply since_monotone. }
  intros x8 w8 _ _. eapply ok_bind; [by apply ok_only; destruct x8|]. intros [] w9 _ _. by apply ok_done.
Qed.

Lemma collectContainers_spec s w :
  ok_spec (keeps s) (collectContainers s) (λ l _, Forall (λ c, k_service c = s) l) w.
Proof using Type.
  unfold collectContainers. do 2 (eapply ok_bind;
    [apply (keeps_calls _ _ [KRead]); [set_solver|unfold GetContainersByFilter, call; calls]|];
    intros ? ? _ _). apply ok_done; [by intros ? ? ? _|]. intros l. apply number_containers_service.
Qed.
End Replacing.

(** ** Names *)

(** The next [count] names of a namer. *)
Fixpoint names (count : nat) (n : Namer) : list (string * Z) :=
  match count with
  | O => []
  | S count => let '(name, number, n) := Next n in (name, number) :: names count n
  end.

Definition number_label (labels : gmap string string) : string := default "" (labels !! NUMBER).

Lemma next_number_greater containers maxNumber number :
  (∀ c, c ∈ containers → number_label c.2 ≠ "") →
  next_number containers maxNumber = Ok number →
  (maxNumber < number)%Z ∧
  ∀ c v, c ∈ containers → Atoi (number_label c.2) = (v, false) → (v < number)%Z.
Proof.
  revert maxNumber. induction containers as [|[ns labels] containers IH]; intros maxNumber Hl; cbn [next_number].
  { intros [= <-]. split; [lia|set_solver]. }
  pose proof (Hl (ns, labels) ltac:(left)) as Hn. unfold number_label in Hn. cbn in Hn.
  rewrite (proj2 (String.eqb_neq _ _) Hn). destruct (Atoi _) as [v []] eqn:Ha; [done|]. intros Hnum.
  destruct (IH (Z.max v maxNumber) ltac:(intros; apply Hl; by right) Hnum) as [Hmax Hc].
  split; [lia|]. intros c v' [->|Hin]%elem_of_cons; [|by apply Hc].
  unfold number_label. cbn. rewrite Ha. intros [= <-]. lia.
Qed.

Lemma names_numbers count project service oneOff number name n :
  (name, n) ∈ names count (defaultNamer project service oneOff number) →
  (number ≤ n)%Z ∧
  name = project +:+ "_" +:+ (if oneOff then service +:+ "_run" else service) +:+ "_" +:+ Itoa n.
Proof.
  revert number. induction count as [|count IH]; intros number; cbn [names Next]; [set_solver|].
  intros [[= -> ->]|Hin]%elem_of_cons; [by split|]. destruct (IH _ Hin) as [? ?]. split; [lia|done].
Qed.

Lemma Itoa_inj m n : (0 ≤ m)%Z → (0 ≤ n)%Z → Itoa m = Itoa n → m = n.
Proof.
  intros Hm Hn E. destruct (Itoa_digits m Hm) as (_ & <- & _). by destruct (Itoa_digits n Hn) as (_ & <- & _); rewrite E.
Qed.

(** The names for new containers of a service are new: when every container of the
    service has a number, the names given have greater numbers than all of them, and
    no two of them are the same. *)
Theorem Namer_fresh containers number project service oneOff count :
  next_number containers 0 = Ok number →
  (∀ c, c ∈ containers → number_label c.2 ≠ "") →
  NoDup (names count (defaultNamer project service oneOff number)).*1 ∧
  ∀ c v name n, c ∈ containers → Atoi (number_label c.2) = (v, false) →
    (name, n) ∈ names count (defaultNamer project service oneOff number) → (v < n)%Z.
Proof.
  intros Hnum Hl. destruct (next_number_greater _ _ _ Hl Hnum) as [Hpos Hc]. split.
  - clear -Hpos. revert number Hpos. induction count as [|count IH]; intros number Hpos; cbn [names Next]; [constructor|].
    rewrite fmap_cons. constructor; [|apply IH; lia].
    intros ([name n] & E & Hin)%list_elem_of_fmap. apply names_numbers in Hin as [Hn ->]. cbn [fst] in E.
    do 4 apply (inj (String.append _)) in E. apply Itoa_inj in E; lia.
  - intros c v name n Hin Hv [Hn _]%names_numbers. specialize (Hc c v Hin Hv). lia.
Qed.

Lemma Namer_fresh_witness :
  let containers := [(["/os_web_7"], {[ NUMBER := "7" ]}); (["/os_web_2"], {[ NUMBER := "2" ]})] in
  next_number containers 0 = Ok 8%Z ∧
  NoDup (names 3 (defaultNamer "os" "web" false 8)).*1.
Proof.
  intros containers. assert (next_number containers 0 = Ok 8%Z) as Hn by (vm_compute; reflexivity).
  split; [exact Hn|]. refine (proj1 (Namer_fresh containers 8 "os" "web" false 3 Hn _)).
  intros c Hc. repeat (apply elem_of_cons in Hc as [->|Hc]; [vm_compute; discriminate|]).
  exact (False_ind _ (not_elem_of_nil _ Hc)).
Defined.

(** A container without a number makes the next name one that may exist. *)
Example unnumbered_container :
  next_number [(["/os_web_1"], {[ NUMBER := "1" ]}); (["/web"], ∅)] 0 = Ok 1%Z.
Proof. vm_compute. reflexivity. Qed.

(** ** The steps of a replacement *)

(** The calls that are more than a question. *)
Definition writes (t : list (daemon * docker_call)) : list kind :=
  filter (λ k, k ≠ KRead) ((λ c, kind_of c.2) <$> t).

Lemma writes_app t t' : writes (t ++ t') = (writes t ++ writes t')%list.
Proof. unfold writes. by rewrite fmap_app, filter_app. Qed.

(** [p] makes these writes, unless an error ends it. *)
Definition steps {A} (ks : list kind) (p : docker A) : Prop :=
  wp p (λ t r, writes t `prefix_of` ks ∧ ∀ a, r = Ok a → writes t = ks).

Lemma steps_bind {A B} ks ks' (p : docker A) (f : A → docker B) :
  steps ks p → (∀ a, steps ks' (f a)) → steps (ks ++ ks') (p ≫= f).
Proof.
  intros Hp Hf. apply wp_bind. eapply wp_mono; [|exact Hp]. intros t [b|e|e] [Ht Hb].
  - eapply wp_mono; [|apply Hf]. intros t' r [Ht' Hr].
    rewrite writes_app, (Hb b eq_refl). split; [by apply prefix_app|]. intros a Ha. by rewrite (Hr a Ha).
  - split; [|done]. etrans; [exact Ht|by apply prefix_app_r].
  - split; [|done]. etrans; [exact Ht|by apply prefix_app_r].
Qed.

Lemma steps_reads {A} (p : docker A) : only (within [KRead]) p → steps [] p.
Proof.
  intros Hp. assert (wp p (λ t _, writes t = [])) as H.
  { induction p as [r|c k IH]; cbn [only wp] in *; [done|]. destruct Hp as [Hc Hk]. intros x.
    eapply wp_mono; [|by apply IH]. intros t r Ht. unfold writes in *.
    apply list_elem_of_singleton in Hc. rewrite fmap_cons, filter_cons_False; [done|]. intros E. by apply E. }
  eapply wp_mono; [|exact H]. by intros t r ->.
Qed.

Lemma steps_call d c : kind_of c ≠ KRead → steps [kind_of c] (call d c).
Proof.
  intros Hc x. assert (writes [(d, c)] = [kind_of c]) as E; [|cbn [wp]; by rewrite E].
  unfold writes. by rewrite fmap_cons, filter_cons_True.
Qed.

Lemma steps_reads_bind {A B} ks (p : docker A) (f : A → docker B) :
  only (within [KRead]) p → (∀ a, steps ks (f a)) → steps ks (p ≫= f).
Proof. intros Hp Hf. by apply (steps_bind [] ks); [apply steps_reads|]. Qed.

Section Steps.
Context `{Library, Project}.

Lemma createContainer_steps c image old : steps [KCreate] (createContainer c image old).
Proof using Type.
  unfold createContainer. apply steps_reads_bind; [done|]. intros [cfg host].
  apply steps_reads_bind; [apply populate_calls|]. intros hl.
  apply steps_reads_bind; [case_match; calls|]. intros h.
  apply (steps_bind [KCreate] []); [by apply steps_call|]. intros x.
  apply steps_reads. unfold GetContainer, call. calls.
Qed.

(** A container is replaced in three steps: the old one is renamed, a new one is created,
    and the old one is removed. An error ends the replacement after any of them, and nothing
    is undone: a container whose replacement cannot be created keeps the other name.
    A success is the three of them. *)
Theorem Recreate_steps c image :
  wp (Recreate c image) (λ t r,
    writes t `prefix_of` [KRename; KCreate; KRemove] ∧
    ∀ j, r = Ok (Some j) → writes t = [KRename; KCreate; KRemove]).
Proof using Type.
  unfold Recreate. apply wp_bind. eapply wp_mono; [|apply steps_reads, findExisting_calls; in_kinds].
  intros t r0 [Ht%prefix_nil_inv _].
  assert (∀ r : result (option ContainerJSON), (∀ j, r ≠ Ok (Some j)) →
    writes t `prefix_of` [KRename; KCreate; KRemove] ∧
    ∀ j, r = Ok (Some j) → writes t = [KRename; KCreate; KRemove]) as Hearly.
  { intros r Hr. rewrite Ht. split; [apply prefix_nil|]. by intros j ?%Hr. }
  destruct r0 as [[j|]|e|e]; [|by unfold mret, prog_ret; cbn [wp]; rewrite ?app_nil_r; apply Hearly..].
  match goal with |- wp ?p _ => assert (steps [KRename; KCreate; KRemove] p) as Hp end.
  { case_match; [split; [apply prefix_nil|done]|].
    apply steps_reads_bind; [done|]. intros name. apply steps_reads_bind; [done|]. intros short.
    apply (steps_bind [KRename] [KCreate; KRemove]); [by apply steps_call|]. intros x.
    apply steps_reads_bind; [by destruct x|]. intros [].
    apply (steps_bind [KCreate] [KRemove]); [apply createContainer_steps|]. intros new.
    apply steps_reads_bind; [by destruct new|]. intros new'.
    apply (steps_bind [KRemove] []); [by apply steps_call|]. intros x'.
    apply steps_reads. by destruct x'. }
  eapply wp_mono; [|exact Hp]. intros t' r [Ht' Hr]. rewrite writes_app, Ht. split; [done|].
  intros j'. apply Hr.
Qed.
End Steps.

(** ** A daemon *)

(** For examples: a daemon that keeps a list of containers, and has every image. [fails]
    says which creations it refuses. *)
Module Sim.

Record state := { containers : list ContainerJSON; created : nat }.

Definition container (id name image : string) (labels : gmap string string) (running : bool) : ContainerJSON :=
  {| j_ID := id; j_Name := name; j_Running := running; j_Paused := false; j_ExitCode := 0;
     j_ConfigImage := image; j_Image := image; j_Labels := labels; j_Mounts := []; j_Networks := [] |}.

Definition has_label (j : ContainerJSON) (l : string) : bool :=
  existsb (λ kv : string * string, String.eqb (label_eq kv.1 kv.2) l) (map_to_list (j_Labels j)).

Definition named (id : string) (j : ContainerJSON) : bool :=
  String.eqb (j_ID j) id || String.eqb (j_Name j) ("/" +:+ id).

Definition update (w : state) (id : string) (f : ContainerJSON → ContainerJSON) : state :=
  {| containers := (λ j, if named id j then f j else j) <$> containers w; created := created w |}.

Definition step (fails : string → bool) (c : daemon * docker_call) (w : state) : answer c * state :=
  match c as c return answer c * state with
  | (d, ContainerList labels) =>
      (AOk ((λ j, ([j_Name j], j_Labels j)) <$>
        filter (λ j, forallb (has_label j) labels = true) (containers w)), w)
  | (d, ContainerInspect id) =>
      (match find (named id) (containers w) with Some j => AOk j | None => ANotFound "No such container" end, w)
  | (d, ContainerCreate cfg _ _ _ name) =>
      if fails name then (AErr "Cannot create", w)
      else
        let id := "0123456789ab" +:+ Itoa (Z.of_nat (created w)) in
        (AOk id, {| containers := container id ("/" +:+ name) (Api.Image cfg) (Api.Labels cfg) false :: containers w;
                    created := S (created w) |})
  | (d, ContainerRename id newName) =>
      (AOk (), update w id (λ j, container (j_ID j) ("/" +:+ newName) (j_Image j) (j_Labels j) (j_Running j)))
  | (d, ContainerRemove id _ _) =>
      (AOk (), {| containers := filter (λ j, named id j = false) (containers w); created := created w |})
  | (d, ContainerStart id) =>
      (AOk (), update w id (λ j, container (j_ID j) (j_Name j) (j_Image j) (j_Labels j) true))
  | (d, ContainerWait _) => (AOk 0%Z, w)
  | (d, ImageInspect image) => (AOk image, w)
  | (d, ImagePull _ _) => (AOk PullDone, w)
  | (d, Notify _ _ _) => ((), w)
  | (d, _) => (AOk (), w)
  end.

#[local] Instance library : Library := {|
  ParsePortSpecs ps := Ok (list_to_set ps, ∅);
  ParseRestartPolicy r := Ok (r, 0%Z);
  ParseDevice x := Ok (x, (x, "rwm"));
  ServiceHash name c := name +:+ "@" +:+ Sc.Image c;
  ParseNamed image := Ok (image, "latest");
|}.

Definition console : service :=
  {| s_name := "console"; s_config := ServiceConfigV1ToServiceConfig example_v1 "console" |}.

Definition set_labels (labels : gmap string string) (c : Sc.ServiceConfig) : Sc.ServiceConfig :=
  {| Sc.Name := Sc.Name c; Sc.CapAdd := Sc.CapAdd c; Sc.CapDrop := Sc.CapDrop c;
     Sc.CgroupParent := Sc.CgroupParent c; Sc.CPUQuota := Sc.CPUQuota c; Sc.CPUSet := Sc.CPUSet c;
     Sc.CPUShares := Sc.CPUShares c; Sc.Command := Sc.Command c; Sc.ContainerName := Sc.ContainerName c;
     Sc.Devices := Sc.Devices c; Sc.DNS := Sc.DNS c; Sc.DNSSearch := Sc.DNSSearch c;
     Sc.DomainName := Sc.DomainName c; Sc.Entrypoint := Sc.Entrypoint c; Sc.EnvFile := Sc.EnvFile c;
     Sc.Environment := Sc.Environment c; Sc.Expose := Sc.Expose c; Sc.ExternalLinks := Sc.ExternalLinks c;
     Sc.ExtraHosts := Sc.ExtraHosts c; Sc.Hostname := Sc.Hostname c; Sc.Image := Sc.Image c;
     Sc.Labels := labels; Sc.Links := Sc.Links c; Sc.LogDriver := Sc.LogDriver c;
     Sc.LogOpt := Sc.LogOpt c; Sc.MacAddress := Sc.MacAddress c; Sc.MemLimit := Sc.MemLimit c;
     Sc.MemSwapLimit := Sc.MemSwapLimit c; Sc.Net := Sc.Net c; Sc.NetworkMode := Sc.NetworkMode c;
     Sc.OomScoreAdj := Sc.OomScoreAdj c; Sc.Pid := Sc.Pid c; Sc.Ports := Sc.Ports c;
     Sc.Privileged := Sc.Privileged c; Sc.Restart := Sc.Restart c; Sc.ReadOnly := Sc.ReadOnly c;
     Sc.StdinOpen := Sc.StdinOpen c; Sc.SecurityOpt := Sc.SecurityOpt c; Sc.Tty := Sc.Tty c; Sc.User := Sc.User c;
     Sc.Uts := Sc.Uts c; Sc.Ipc := Sc.Ipc c; Sc.VolumeDriver := Sc.VolumeDriver c;
     Sc.Volumes := Sc.Volumes c; Sc.VolumesFrom := Sc.VolumesFrom c; Sc.WorkingDir := Sc.WorkingDir c;
     Sc.Logging := Sc.Logging c; Sc.Build := Sc.Build c; Sc.Ulimits := Sc.Ulimits c |}.

(** A service with these labels. *)
Definition labelled (labels : gmap string string) : service :=
  {| s_name := "console"; s_config := set_labels (<[ScopeLabel := System]> labels) (s_config console) |}.

#[local] Instance project : Project := {|
  ProjectName := "os";
  ServiceConfigs := {[ "console" := s_config console ]};
|}.

(** The console, of an older image. *)
Definition before : state := {|
  containers := [container "ab0123456789c" "/os_console_1" "os-console-old"
    {[ SERVICE := "console"; PROJECT := "os"; NUMBER := "1"; HASH := "console@os-console-old" ]} true];
  created := 0;
|}.
End Sim.
