(* ===== verification/DockerService.v ===== *)
(** * Services ([pkg/libcompose/docker/service.go], [image.go], [pkg/libcompose/utils/util.go],
    [pkg/docker/service.go], [pkg/docker/service_factory.go])

    The operations of a service on its containers. Those on several containers run in
    parallel: [scheds] says how their calls interleave. *)

From stdpp Require Import prelude gmap strings list.
From S2P Require Import Prelude GoStrings Util Prog Conc ProjectDag ServiceConvert Docker.

Local Open Scope string_scope.

Section Services.
Context `{Library, Project}.

(** ** Images *)

Definition imageName (s : service) : string :=
  if String.eqb (Sc.Image (s_config s)) "" then ProjectName +:+ "_" +:+ s_name s
  else Sc.Image (s_config s).

(** The loop of [pullImage] with [turns] turns left; the error after the last turn is one
    that is shadowed in the loop, and [nil]. *)
Fixpoint pull_loop (d : daemon) (image tag : string) (turns : nat) (timeoutsRemaining : Z) : docker () :=
  match turns with
  | O => mret ()
  | S turns =>
      x ← call d (ImagePull image tag);
      match x with
      | AErr e | ANotFound e => lift (Err e)
      | AOk PullDone => mret ()
      | AOk (PullError msg code) =>
          if GoStrings.Contains msg "timed out" then
            let timeoutsRemaining := (timeoutsRemaining - 1)%Z in
            if (timeoutsRemaining =? 0)%Z then lift (Err msg)
            else pull_loop d image tag turns timeoutsRemaining
          else if GoStrings.Contains msg "connection" || GoStrings.Contains msg "unreachable" then
            pull_loop d image tag turns timeoutsRemaining
          else match code with
               | Some c => lift (Err ("Status: " +:+ msg +:+ ", Code: " +:+ Itoa (if (c =? 0)%Z then 1 else c)%Z))
               | None => pull_loop d image tag turns timeoutsRemaining
               end
      end
  end.

Definition pullImage (d : daemon) (image : string) : docker () :=
  nt ← lift (ParseNamed image);
  pull_loop d nt.1 nt.2 100 3.

Definition Pull (s : service) : docker () :=
  if String.eqb (Sc.Image (s_config s)) "" then mret ()
  else pullImage (daemon_of s) (Sc.Image (s_config s)).

Definition has_build (s : service) : option string :=
  match Sc.Build (s_config s) with
  | Some (context, _) => if String.eqb context "" then None else Some context
  | None => None
  end.

Definition build (s : service) : docker () :=
  match has_build s with
  | None => lift (Err "Specified service does not have a build section")
  | Some context => x ← call (daemon_of s) (ImageBuild context (imageName s)); expect x
  end.

Definition Build (s : service) : docker () :=
  if String.eqb (Sc.Image (s_config s)) "" then build s else mret ().

Definition ensureImageExists (s : service) (noBuild : bool) : docker string :=
  x ← call (daemon_of s) (ImageInspect (imageName s));
  match x with
  | AOk _ => mret (imageName s)
  | AErr e => lift (Err e)
  | ANotFound _ =>
      match has_build s with
      | Some _ =>
          if noBuild then lift (Err "the service needs to be built")
          else _ ← build s; mret (imageName s)
      | None => _ ← Pull s; mret (imageName s)
      end
  end.

(** ** In parallel *)

(** [InParallel]: the errors go to a [sync.Pool], from which [pick] takes one, if the
    pool still has any. A panic of a goroutine is one of the program. *)
Fixpoint first_panic {A} (rs : list (result A)) : option string :=
  match rs with
  | [] => None
  | Panic e :: _ => Some e
  | _ :: rs => first_panic rs
  end.

Definition errors {A} (rs : list (result A)) : list string :=
  omap (λ r, match r with Err e => Some e | _ => None end) rs.

Definition in_parallel (pick : list string → option string) (scheds : nat → nat → bool)
    (tasks : list (docker ())) : docker () :=
  rs ← par scheds tasks;
  match first_panic rs, pick (errors rs) with
  | Some e, _ => Done (Panic e)
  | None, Some e => Done (Err e)
  | None, None => mret ()
  end.

Context (pick : list string → option string) (scheds : nat → nat → bool).

Definition eachContainer (s : service) (action : Container → docker ()) : docker () :=
  containers ← collectContainers s;
  in_parallel pick scheds (action <$> containers).

(** ** Creating and starting *)

Fixpoint construct (s : service) (image : string) (count : nat) (namer : Namer) : docker (list Container) :=
  match count with
  | O => mret []
  | S count =>
      let '(containerName, containerNumber, namer) := Next namer in
      let c := NewContainer containerName containerNumber s in
      dockerContainer ← Create c image;
      _ ← deref dockerContainer;
      rest ← construct s image count namer;
      mret (c :: rest)
  end.

Definition constructContainers (s : service) (image : string) (count : nat) : docker (list Container) :=
  result ← collectContainers s;
  namer ← (if String.eqb (Sc.ContainerName (s_config s)) ""
           then NewNamer (daemon_of s) ProjectName (s_name s) false
           else mret (singleNamer (Sc.ContainerName (s_config s))));
  new ← construct s image (count - length result) namer;
  mret (result ++ new)%list.

Definition createOne (s : service) (image : string) : docker Container :=
  containers ← constructContainers s image 1;
  match containers with
  | c :: _ => mret c
  | [] => Done (Panic "index out of range")
  end.

Definition recreateIfNeeded (image : string) (noRecreate forceRecreate : bool) (c : Container) : docker () :=
  if noRecreate then mret ()
  else
    outOfSync ← OutOfSync c image;
    if forceRecreate || outOfSync then _ ← Recreate c image; mret () else mret ().

Definition NET : string := "io.rancher.user_docker.net".

Definition ServiceNetworkConnect (c : Container) (net ip : string) : docker () :=
  id ← ID c;
  do_call c (NetworkConnect net id ip) eq_refl.

Definition ServiceNetworkDisconnect (c : Container) (net : string) : docker () :=
  id ← ID c;
  do_call c (NetworkDisconnect net id) eq_refl.

(** Whether one of the aliases is the short id of the container, which is looked up for
    every alias. *)
Fixpoint alias_present (c : Container) (aliases : list string) (present : bool) : docker bool :=
  match aliases with
  | [] => mret present
  | alias :: aliases =>
      id ← attempt (ID c);
      short ← lift (short_id (match id with Ok id => id | _ => "" end));
      alias_present c aliases (present || String.eqb alias short)
  end.

Definition connectContainerToNetworks (s : service) (c : Container) : docker () :=
  existing ← attempt (findExisting c);
  match existing with
  | Ok None => Done (Panic "nil pointer")
  | Ok (Some j) =>
      match Sc.Labels (s_config s) !! NET with
      | None => mret ()
      | Some net =>
          _ ← each (λ na,
            present ← alias_present c na.2 false;
            if present : bool then mret () else ServiceNetworkDisconnect c na.1) (j_Networks j);
          match Sc.Labels (s_config s) !! FIX_IP with
          | Some ip => ServiceNetworkConnect c net ip
          | None => mret ()
          end
      end
  | _ => mret ()
  end.

Record up_options := {
  NoRecreate : bool;
  ForceRecreate : bool;
  NoBuild : bool;
}.

Definition ServiceCreate (s : service) (options : up_options) : docker () :=
  containers ← collectContainers s;
  image ← ensureImageExists s (NoBuild options);
  match containers with
  | [] => _ ← createOne s image; mret ()
  | _ => eachContainer s (recreateIfNeeded image (NoRecreate options) (ForceRecreate options))
  end.

Definition up_container (s : service) (image : string) (create : bool) (options : up_options)
    (c : Container) : docker () :=
  _ ← (if create then recreateIfNeeded image (NoRecreate options) (ForceRecreate options) c else mret ());
  _ ← connectContainerToNetworks s c;
  Up c image.

Definition up (s : service) (image : string) (create : bool) (options : up_options) : docker () :=
  containers ← collectContainers s;
  _ ← (match containers, create with [], true => _ ← createOne s image; mret () | _, _ => mret () end);
  eachContainer s (up_container s image create options).

Definition ServiceUp (s : service) (options : up_options) : docker () :=
  containers ← collectContainers s;
  image ← (if bool_decide (containers = []) || negb (NoRecreate options)
           then ensureImageExists s (NoBuild options) else mret (imageName s));
  up s image true options.

Definition no_options : up_options := {| NoRecreate := false; ForceRecreate := false; NoBuild := false |}.

Definition ServiceStart (s : service) : docker () := up s "" false no_options.

Definition ServiceRun (s : service) (commandParts : list string) : docker (Z * service) :=
  image ← ensureImageExists s false;
  namer ← NewNamer (daemon_of s) ProjectName (s_name s) true;
  let '(containerName, containerNumber, _) := Next namer in
  let c := NewOneOffContainer containerName containerNumber s in
  _ ← connectContainerToNetworks s c;
  Run c image commandParts true true.

Definition ServiceStop (s : service) (timeout : Z) : docker () := eachContainer s (λ c, Stop c timeout).
Definition ServiceRestart (s : service) (timeout : Z) : docker () := eachContainer s (λ c, Restart c timeout).
Definition ServiceKill (s : service) (signal : string) : docker () := eachContainer s (λ c, Kill c signal).
Definition ServiceDelete (s : service) (removeVolume : bool) : docker () :=
  eachContainer s (λ c, Delete c removeVolume).
Definition ServicePause (s : service) : docker () := eachContainer s Pause.
Definition ServiceUnpause (s : service) : docker () := eachContainer s Unpause.

(** The counter is shared by the goroutines without a lock: [seen] is what each
    reads of it after its increment, [foundCount] what it holds at the end. *)
Definition scale_container (scale : nat) (timeout : Z) (seen : nat) (c : Container) : docker () :=
  if (scale <? seen)%nat then _ ← Stop c timeout; Delete c false else mret ().

Definition Scale (seen : list Container → list nat) (foundCount : list Container → nat)
    (s : service) (scale : nat) (timeout : Z) : docker () :=
  containers ← collectContainers s;
  _ ← in_parallel pick scheds
        (zip_with (λ n c, scale_container scale timeout n c) (seen containers) containers);
  _ ← (if (foundCount containers =? scale)%nat then mret ()
       else image ← ensureImageExists s false; _ ← constructContainers s image scale; mret ());
  up s "" false no_options.

Definition RemoveImage (s : service) (imageType : string) : docker () :=
  let remove := x ← call (daemon_of s) (ImageRemove (imageName s)); expect x in
  if String.eqb imageType "local" then
    if String.eqb (Sc.Image (s_config s)) "" then remove else mret ()
  else if String.eqb imageType "all" then remove
  else mret ().

Definition specificiesHostPort (s : service) : bool :=
  match ParsePortSpecs (PortsToStringSlice (Sc.Ports (s_config s))) with
  | Ok (_, bindings) => existsb (λ kb, existsb (λ b, negb (String.eqb b.2 "")) kb.2) (map_to_list bindings)
  | _ => false
  end.

(** ** Which calls the operations make *)

Lemma pull_loop_calls d image tag turns n : only (within [KImage]) (pull_loop d image tag turns n).
Proof using Type.
  revert n. induction turns as [|turns IH]; intros n; cbn [pull_loop]; [done|].
  apply only_bind; [apply only_invoke; in_kinds|]. intros [a|e|e]; [|done..].
  destruct a as [|msg code]; [done|]. repeat case_match; try done; apply IH.
Qed.

Lemma ensureImageExists_calls s noBuild : only (within [KRead; KImage]) (ensureImageExists s noBuild).
Proof using Type.
  unfold ensureImageExists, build, Pull, pullImage, call.
  apply only_bind; [calls|]. intros [a|e|e]; [calls| |calls]. case_match; [calls|].
  apply only_bind; [|calls]. case_match; [done|]. apply only_bind; [done|]. intros nt. calls_from pull_loop_calls.
Qed.

Lemma in_parallel_calls ks tasks : Forall (only (within ks)) tasks → only (within ks) (in_parallel pick scheds tasks).
Proof using Type. intros Ht. unfold in_parallel. apply only_bind; [by apply only_par|]. calls. Qed.

Lemma eachContainer_calls ks s action :
  KRead ∈ ks → (∀ c, only (within ks) (action c)) → only (within ks) (eachContainer s action).
Proof using Type.
  intros Hks Ha. apply only_bind; [by apply collectContainers_calls|]. intros containers.
  apply in_parallel_calls, Forall_fmap, Forall_true. done.
Qed.

Lemma construct_calls s image count namer : only (within [KRead; KCreate]) (construct s image count namer).
Proof using Type.
  revert namer. induction count as [|count IH]; intros namer; cbn [construct]; [done|].
  destruct (Next namer) as [[name number] namer']. apply only_bind; [calls|]. intros d.
  apply only_bind; [unfold deref; calls|]. intros _. apply only_bind; [apply IH|calls].
Qed.

Lemma createOne_calls s image : only (within [KRead; KCreate]) (createOne s image).
Proof using Type.
  unfold createOne, constructContainers, NewNamer, GetContainersByFilter, call.
  apply only_bind; [|calls]. apply only_bind; [calls|]. intros result. apply only_bind; [calls|]. intros namer.
  apply only_bind; [apply construct_calls|calls].
Qed.

Lemma recreateIfNeeded_calls image no force c :
  only (within [KRead; KCreate; KRename; KRemove]) (recreateIfNeeded image no force c).
Proof using Type. unfold recreateIfNeeded. calls. Qed.

Lemma alias_present_calls c aliases b : only (within [KRead]) (alias_present c aliases b).
Proof using Type.
  revert b. induction aliases as [|alias aliases IH]; intros b; cbn [alias_present]; [done|].
  apply only_bind; [calls|]. intros id. apply only_bind; [done|]. intros short. apply IH.
Qed.

Lemma connect_calls s c : only (within [KRead; KNetwork]) (connectContainerToNetworks s c).
Proof using Type.
  unfold connectContainerToNetworks, ServiceNetworkConnect, ServiceNetworkDisconnect, do_call, call.
  apply only_bind; [calls|]. intros [[j|]|e|e]; [|done..]. case_match; [|done].
  apply only_bind; [|calls]. apply only_each. intros na.
  apply only_bind; [calls_from alias_present_calls|]. calls.
Qed.

(** ** Containers are only removed when they were replaced *)

Lemma in_parallel_spec s (tasks : list (docker ())) w :
  Forall (λ p, ∀ w, ok_spec (keeps s) p (λ _ _, True) w) tasks →
  ok_spec (keeps s) (in_parallel pick scheds tasks) (λ _ _, True) w.
Proof using Type.
  intros Ht. eapply (ok_bind _ _ _ (λ _ _, True)); [|intros rs w' _ _; apply ok_only; repeat case_match; exact I].
  eapply spec_mono; [|apply spec_par]; [done|]. eapply Forall_impl; [exact Ht|].
  intros p Hp w'. eapply ok_true, Hp.
Qed.

Lemma eachContainer_spec s action w :
  (∀ c w, k_service c = s → ok_spec (keeps s) (action c) (λ _ _, True) w) →
  ok_spec (keeps s) (eachContainer s action) (λ _ _, True) w.
Proof using Type.
  intros Ha. eapply ok_bind; [apply collectContainers_spec|]. intros l w' _ Hl.
  apply in_parallel_spec, Forall_fmap. eapply Forall_impl; [exact Hl|]. intros c Hc w1. by apply Ha.
Qed.

Lemma recreateIfNeeded_spec image no force c w :
  ok_spec (keeps (k_service c)) (recreateIfNeeded image no force c) (λ _ _, True) w.
Proof using Type.
  unfold recreateIfNeeded. destruct no; [by apply ok_done|].
  eapply ok_bind; [apply (keeps_calls _ _ [KRead]); [set_solver|calls]|]. intros outOfSync w1 _ _.
  case_match; [|by apply ok_done]. eapply ok_bind; [apply Recreate_spec|]. intros. by apply ok_done.
Qed.

Lemma ServiceCreate_spec s options w : ok_spec (keeps s) (ServiceCreate s options) (λ _ _, True) w.
Proof using Type.
  unfold ServiceCreate. eapply ok_bind; [apply collectContainers_spec|]. intros l w1 _ _.
  eapply ok_bind; [eapply keeps_calls, ensureImageExists_calls; set_solver|]. intros image w2 _ _.
  case_match.
  - eapply ok_bind; [eapply keeps_calls, createOne_calls; set_solver|]. intros. by apply ok_done.
  - apply eachContainer_spec. intros c' w' <-. apply recreateIfNeeded_spec.
Qed.

Lemma up_container_spec s image create options c w :
  k_service c = s → ok_spec (keeps s) (up_container s image create options c) (λ _ _, True) w.
Proof using Type.
  intros <-. unfold up_container. eapply (ok_bind _ _ _ (λ _ _, True)).
  { destruct create; [apply recreateIfNeeded_spec|by apply ok_done]. }
  intros _ w1 _ _. eapply ok_bind; [eapply keeps_calls, connect_calls; set_solver|]. intros _ w2 _ _.
  eapply keeps_calls, Up_calls. set_solver.
Qed.

Lemma ServiceUp_spec s options w : ok_spec (keeps s) (ServiceUp s options) (λ _ _, True) w.
Proof using Type.
  unfold ServiceUp, up. eapply ok_bind; [apply collectContainers_spec|]. intros l w1 _ _.
  eapply (ok_bind _ _ _ (λ _ _, True)).
  { case_match; [|by apply ok_done]. eapply keeps_calls, ensureImageExists_calls. set_solver. }
  intros image w2 _ _. eapply ok_bind; [apply collectContainers_spec|]. intros l' w3 _ _.
  eapply (ok_bind _ _ _ (λ _ _, True)).
  { case_match; [|by apply ok_done].
    eapply ok_bind; [eapply keeps_calls, createOne_calls; set_solver|]. intros. by apply ok_done. }
  intros _ w4 _ _. apply eachContainer_spec. intros c w5 Hc. by apply up_container_spec.
Qed.
End Services.

(** ** Pulling an image *)

Section Pulling.
Context `{Library}.

(** At most [turns] pulls of the image; a success is an image, or [turns] of them. *)
Definition pulls (d : daemon) (image tag : string) (turns : nat) (l : list docker_exchange) (r : result ()) : Prop :=
  (length l ≤ turns)%nat ∧ Forall (λ e : docker_exchange, projT1 e = (d, ImagePull image tag)) l ∧
  (r = Ok () → last l = Some (ev d (ImagePull image tag) (AOk PullDone)) ∨ length l = turns).

Lemma pulls_end d image tag turns x r :
  (r = Ok () → x = AOk PullDone) → pulls d image tag (S turns) [ev d (ImagePull image tag) x] r.
Proof using Type.
  intros Hx. split_and!; [cbn; lia|by repeat constructor|]. intros Hr. left. by rewrite (Hx Hr).
Qed.

Lemma pulls_next d image tag turns x l r :
  pulls d image tag turns l r → pulls d image tag (S turns) (ev d (ImagePull image tag) x :: l) r.
Proof using Type.
  intros (Hl & Hf & Hr). split_and!; [by apply le_n_S|by constructor|].
  intros ->. destruct (Hr eq_refl) as [Hlast|Hlen]; [left|right; cbn; by f_equal].
  by destruct l as [|e l].
Qed.

Lemma pull_loop_behaves d image tag turns n l r :
  behaves (pull_loop d image tag turns n) l r → pulls d image tag turns l r.
Proof using Type.
  revert n l. induction turns as [|turns IH]; intros n l; cbn [pull_loop].
  { intros [-> ->]. split_and!; [done|constructor|by right]. }
  intros (x & l' & -> & Hb). unfold prog_mbind in Hb. cbn [prog_bind] in Hb.
  assert (∀ e, behaves (lift (Err e)) l' r →
    pulls d image tag (S turns) (ev d (ImagePull image tag) x :: l') r) as Herr.
  { intros e [-> ->]. by apply pulls_end. }
  destruct x as [[|msg code]|e|e]; [| |by eapply Herr, Hb|by eapply Herr, Hb].
  { destruct Hb as [-> ->]. by apply pulls_end. }
  cbn zeta in Hb. repeat case_match; try (by apply pulls_next, (IH _ _ Hb)); by eapply Herr, Hb.
Qed.

Lemma pull_loop_unreachable d image tag turns n msg code :
  GoStrings.Contains msg "timed out" = false → GoStrings.Contains msg "connection" = true →
  behaves (pull_loop d image tag turns n)
    (replicate turns (ev d (ImagePull image tag) (AOk (PullError msg code)))) (Ok ()).
Proof using Type.
  intros Ht Hc. induction turns as [|turns IH]; cbn [pull_loop replicate]; [done|].
  eexists _, _. split; [reflexivity|]. unfold prog_mbind. cbn [prog_bind]. rewrite Ht, Hc. exact IH.
Qed.

(** An image is asked for at most 100 times. A pull that reports success either got the
    image with the last answer, or was refused 100 times: with no connection to the
    registry, all of the 100 fail and the image is reported as pulled. *)
Theorem pullImage_attempts d image name tag :
  ParseNamed image = Ok (name, tag) →
  (∀ l r, behaves (pullImage d image) l r →
     (length l ≤ 100)%nat ∧ Forall (λ e : docker_exchange, projT1 e = (d, ImagePull name tag)) l ∧
     (r = Ok () → last l = Some (ev d (ImagePull name tag) (AOk PullDone)) ∨ length l = 100%nat)) ∧
  (∀ msg code, GoStrings.Contains msg "timed out" = false → GoStrings.Contains msg "connection" = true →
     behaves (pullImage d image)
       (replicate 100 (ev d (ImagePull name tag) (AOk (PullError msg code)))) (Ok ())).
Proof using Type.
  intros Hn. unfold pullImage. rewrite Hn. split; [intros l r; apply pull_loop_behaves|].
  intros msg code. apply pull_loop_unreachable.
Qed.
End Pulling.

Section PullingExample.
#[local] Existing Instance Sim.library.

Lemma pullImage_attempts_witness :
  ParseNamed "busybox" = Ok ("busybox", "latest") ∧
  behaves (pullImage UserDocker "busybox")
    (replicate 100 (ev UserDocker (ImagePull "busybox" "latest")
       (AOk (PullError "dial tcp: connection refused" (Some 1%Z))))) (Ok ()).
Proof.
  split; [reflexivity|].
  refine (proj2 (pullImage_attempts UserDocker "busybox" "busybox" "latest" eq_refl) _ _ _ _); reflexivity.
Defined.
End PullingExample.

(** ** One-off containers *)

Section OneOff.
Context `{Library, Project}.

(** A container is only created when the answer for its name was not that there is none. *)
Definition found_before (w : list docker_exchange) (e : docker_exchange) : Prop :=
  match projT1 e with
  | (d, ContainerCreate _ _ _ _ name) =>
      ∃ y, ev d (ContainerInspect name) y ∈ w ∧ ∀ msg, y ≠ ANotFound msg
  | _ => True
  end.

Lemma found_calls {A} (p : docker A) ks w :
  KCreate ∉ ks → only (within ks) p → ok_spec found_before p (λ _ _, True) w.
Proof using Type.
  intros Hks Hp. eapply ok_only, only_mono; [|exact Hp].
  intros [d []] Hk w' x; try exact I. by destruct Hks.
Qed.

Lemma createContainer_found c image old y w :
  ev (daemon_of (k_service c)) (ContainerInspect (k_name c)) y ∈ w → (∀ msg, y ≠ ANotFound msg) →
  ok_spec found_before (createContainer c image old) (λ _ _, True) w.
Proof using Type.
  intros Hy Hne. unfold createContainer, call. eapply ok_bind; [by apply ok_only|]. intros [cfg host] w1 Hw1 _.
  eapply ok_bind; [eapply found_calls, populate_calls; set_solver|]. intros hl w2 Hw2 _.
  eapply ok_bind; [apply (found_calls _ [KRead]); [set_solver|case_match; calls]|]. intros h w3 Hw3 _.
  ok_call.
  { intros w4 x Hw4. exists y. split; [|done]. eapply elem_of_prefix; [exact Hy|]. by do 3 (etrans; [done|]). }
  intros x w4 _ _. eapply ok_bind; [by apply ok_only; destruct x|]. intros id w5 _ _.
  apply (found_calls _ [KRead]); [set_solver|]. unfold GetContainer, call. calls.
Qed.

(** The container was looked up, and the answer was not that there is none. *)
Definition looked_up (c : Container) (w : list docker_exchange) : Prop :=
  ∃ y, ev (daemon_of (k_service c)) (ContainerInspect (k_name c)) y ∈ w ∧ ∀ msg, y ≠ ANotFound msg.

Lemma looked_up_monotone c : monotone (looked_up c).
Proof using Type. intros w w' Hw (y & Hy & Hne). exists y. split; [by eapply elem_of_prefix|done]. Qed.

Lemma findExisting_found c w :
  ok_spec found_before (attempt (findExisting c)) (λ r w', r ≠ Ok None → looked_up c w') w.
Proof using Type.
  apply spec_attempt. unfold findExisting, GetContainer, call.
  apply spec_bind.
  { intros e w1 w2 Hw H1 a [= <-] Hne. eapply looked_up_monotone; [done|]. by eapply H1. }
  { intros e w1 w2 Hw H1 a [= <-]. }
  refine (spec_invoke _ (daemon_of (k_service c), ContainerInspect (k_name c)) _ w _ _).
  { intros x w1 w2 Hw Hs. eapply rg_stable; [|exact Hs]. by apply rtc_prefix. }
  intros w1 x Hw1. split; [done|].
  destruct x as [j|e|e]; apply spec_done; try (by intros ? ? Hw H1 ? ? ?; eapply looked_up_monotone, H1).
  - intros a [= <-] _. eexists. split; [by apply elem_of_app; right; left|done].
  - by intros a [= <-].
  - intros a [= <-] _. eexists. split; [by apply elem_of_app; right; left|done].
Qed.

Lemma connect_found s c w :
  ok_spec found_before (connectContainerToNetworks s c) (λ _, looked_up c) w.
Proof using Type.
  unfold connectContainerToNetworks. eapply ok_bind; [apply findExisting_found|].
  intros [[j|]|e|e] w1 _ H1; try (apply ok_done; [intros _; apply looked_up_monotone|];
    by intros [] _; apply H1).
  2: { by apply ok_done; [intros _; apply looked_up_monotone|]. }
  specialize (H1 ltac:(done)).
  match goal with |- ok_spec _ ?p _ _ => assert (only (within [KRead; KNetwork]) p) as Hp end.
  { unfold ServiceNetworkConnect, ServiceNetworkDisconnect, do_call, call.
    case_match; [|done]. apply only_bind; [|calls]. apply only_each. intros na.
    apply only_bind; [calls_from alias_present_calls|]. calls. }
  eapply spec_mono; [|apply spec_prefix, (found_calls _ [KRead; KNetwork]); [set_solver|exact Hp]].
  intros r w2 [Hw2 _] a _. by eapply looked_up_monotone.
Qed.

(** A one-off container is only created when one of its name is found first, or the daemon
    cannot tell. Its name is the next one of the service, so there is none: the run is a
    nil pointer, before anything is created. *)
Theorem ServiceRun_needs_container s commandParts l r i d cfg host links net name x :
  behaves (ServiceRun s commandParts) l r →
  l !! i = Some (ev d (ContainerCreate cfg host links net name) x) →
  ∃ y, ev d (ContainerInspect name) y ∈ take i l ∧ ∀ msg, y ≠ ANotFound msg.
Proof using Type.
  intros Hb Hi. assert (ok_spec found_before (ServiceRun s commandParts) (λ _ _, True) []) as Hs;
    [|destruct (spec_behaves _ _ _ _ _ [] Hb Hs) as [_ Hk]; exact (Hk i _ Hi)].
  unfold ServiceRun. eapply ok_bind; [eapply found_calls, ensureImageExists_calls; set_solver|]. intros image w1 _ _.
  eapply ok_bind; [apply (found_calls _ [KRead]); [set_solver|unfold NewNamer, GetContainersByFilter, call; calls]|].
  intros namer w2 _ _. destruct (Next namer) as [[containerName containerNumber] namer'].
  eapply ok_bind; [apply connect_found|]. intros u w3 _ Hl. unfold Run. cbv zeta.
  eapply ok_bind.
  { destruct Hl as (y & Hy & Hne). eapply createContainer_found; [|exact Hne]. exact Hy. }
  intros container w4 _ _. apply (found_calls _ [KRead; KAttach; KStart]); [set_solver|].
  unfold deref, do_call, call. calls.
Qed.
End OneOff.

Section OneOffExample.
#[local] Existing Instances Sim.library Sim.project.

(** One that exists is run again under its name, which a daemon refuses; without one,
    nothing is created. *)
Example ServiceRun_panics :
  let l := exchanges (Sim.step (λ _, false)) (ServiceRun Sim.console ["sh"]) Sim.before in
  l.2 = Panic "nil pointer" ∧ KCreate ∉ (λ e : docker_exchange, kind_of (projT1 e).2) <$> l.1.
Proof.
  intros l. split; [vm_compute; reflexivity|].
  apply (bool_decide_unpack _). vm_compute. exact I.
Qed.

Definition example_leftover : Sim.state := {|
  Sim.containers := [Sim.container "ab0123456789c" "/os_console_run_1" "os-console" ∅ false];
  Sim.created := 0;
|}.

Lemma ServiceRun_needs_container_witness :
  ∃ l r i d cfg host links net name x y, behaves (ServiceRun Sim.console ["sh"]) l r ∧
    l !! i = Some (ev d (ContainerCreate cfg host links net name) x) ∧
    ev d (ContainerInspect name) y ∈ take i l ∧ ∀ msg, y ≠ ANotFound msg.
Proof.
  pose proof (exchanges_behaves (Sim.step (λ _, false)) (ServiceRun Sim.console ["sh"]) example_leftover) as Hb.
  assert (∃ d cfg host links net name x,
    (exchanges (Sim.step (λ _, false)) (ServiceRun Sim.console ["sh"]) example_leftover).1 !! 3%nat =
    Some (ev d (ContainerCreate cfg host links net name) x)) as (d & cfg & host & links & net & name & x & Hi).
  { vm_compute. do 7 eexists. reflexivity. }
  destruct (ServiceRun_needs_container _ _ _ _ _ _ _ _ _ _ _ _ Hb Hi) as (y & Hy & Hne).
  do 2 eexists. exists 3%nat, d, cfg, host, links, net, name, x, y. exact (conj Hb (conj Hi (conj Hy Hne))).
Defined.
End OneOffExample.
