(* ===== verification/SystemService.v ===== *)
(** * Services of the system ([pkg/docker/service.go], [pkg/docker/service_factory.go])

    A service of the operating system is one of the compose library with labels that say
    when it is rebuilt, that it is only created, or that it must end before others go on. *)

From stdpp Require Import prelude gmap strings list.
From S2P Require Import Prelude GoStrings Util Prog Conc ProjectDag ServiceConvert Docker DockerService.

Local Open Scope string_scope.

Definition DetachLabel : string := "io.rancher.os.detach".
Definition CreateOnlyLabel : string := "io.rancher.os.createonly".
Definition ReloadConfigLabel : string := "io.rancher.os.reloadconfig".
Definition ConsoleLabel : string := "io.rancher.os.console".
Definition RebuildLabel : string := "io.docker.compose.rebuild".

Definition ErrRestart : string := "Restart execution".
Definition ErrMountNameConflict : string := "mount already exists with name".

(** What the operations read of the configuration of the system. *)
Record system_config := {
  registry_domain : option string;
  ForceConsoleRebuild : bool;
}.

(** ** The service factory *)

Definition depAliases : gmap string string := {[ "cloud-init" := "cloud-init-execute" ]}.

Definition append_dep (Deps : gmap string (list string)) (name dep : string) : gmap string (list string) :=
  <[name := (default [] (Deps !! name) ++ [dep])%list]> Deps.

Definition dep_alias (dep : string) : string := default dep (depAliases !! dep).

(** What [Create] does to the dependencies of the factory. They are appended at every
    creation of the service. *)
Definition factory_Create (Deps : gmap string (list string)) (name : string) (labels : gmap string string) :
    gmap string (list string) :=
  let after := default "" (labels !! "io.rancher.os.after") in
  let before := default "" (labels !! "io.rancher.os.before") in
  let Deps := if String.eqb after "" then Deps
              else foldl (λ Deps dep, append_dep Deps name (dep_alias dep)) Deps (TrimSplit after ",") in
  if String.eqb before "" then Deps
  else foldl (λ Deps dep, append_dep Deps (dep_alias dep) name) Deps (TrimSplit before ",").

(** The services of a project are created one after the other. *)
Definition factory_all (services : list (string * gmap string string)) : gmap string (list string) :=
  foldl (λ Deps s, factory_Create Deps s.1 s.2) ∅ services.

Definition deps_of (Deps : gmap string (list string)) (name : string) : list string := default [] (Deps !! name).

(** The names in a label, which may be missing. *)
Definition label_names (labels : gmap string string) (key : string) : list string :=
  let v := default "" (labels !! key) in if String.eqb v "" then [] else TrimSplit v ",".

Lemma append_dep_elem Deps name dep n d :
  d ∈ deps_of (append_dep Deps name dep) n ↔ d ∈ deps_of Deps n ∨ (n = name ∧ d = dep).
Proof.
  unfold deps_of, append_dep. destruct (decide (n = name)) as [->|Hn].
  - rewrite lookup_insert_eq. cbn. set_solver.
  - rewrite lookup_insert_ne by done. set_solver.
Qed.

Lemma append_all_elem (f g : string → string) l Deps n d :
  d ∈ deps_of (foldl (λ Deps x, append_dep Deps (f x) (g x)) Deps l) n ↔
  d ∈ deps_of Deps n ∨ ∃ x, x ∈ l ∧ n = f x ∧ d = g x.
Proof.
  revert Deps. induction l as [|x l IH]; intros Deps; cbn [foldl]; [set_solver|].
  rewrite IH, append_dep_elem. set_solver.
Qed.

Lemma factory_Create_elem Deps name labels n d :
  d ∈ deps_of (factory_Create Deps name labels) n ↔
  d ∈ deps_of Deps n ∨
  (n = name ∧ ∃ x, x ∈ label_names labels "io.rancher.os.after" ∧ d = dep_alias x) ∨
  (d = name ∧ ∃ x, x ∈ label_names labels "io.rancher.os.before" ∧ n = dep_alias x).
Proof.
  unfold factory_Create, label_names. cbv zeta.
  destruct (String.eqb (default "" (labels !! "io.rancher.os.after")) ""),
    (String.eqb (default "" (labels !! "io.rancher.os.before")) "");
    rewrite ?append_all_elem; set_solver.
Qed.

Lemma factory_all_elem services Deps n d :
  d ∈ deps_of (foldl (λ Deps s, factory_Create Deps s.1 s.2) Deps services) n ↔
  d ∈ deps_of Deps n ∨
  (∃ labels x, (n, labels) ∈ services ∧ x ∈ label_names labels "io.rancher.os.after" ∧ d = dep_alias x) ∨
  (∃ labels x, (d, labels) ∈ services ∧ x ∈ label_names labels "io.rancher.os.before" ∧ n = dep_alias x).
Proof.
  revert Deps. induction services as [|[name labels] services IH]; intros Deps; cbn [foldl]; [set_solver|].
  rewrite IH, factory_Create_elem. set_solver.
Qed.

Lemma appendLink_incl has deps name optional rel : rel ∈ deps → rel ∈ appendLink has deps name optional.
Proof. unfold appendLink. case_match; set_solver. Qed.

(** The dependencies of the factory are links. *)
Lemma DependentServices_extra has missing extra cfg d :
  has d = true → d ∈ extra →
  ∃ rel, rel ∈ DependentServices has missing extra cfg ∧ Target rel = (NameAlias d).1 ∧ RelType rel = RelTypeLink.
Proof.
  intros Hd Hin.
  assert (∀ rels, ∃ rel, rel ∈ foldl (λ rels dep, appendLink has rels dep true) rels extra ∧
    Target rel = (NameAlias d).1 ∧ RelType rel = RelTypeLink) as Hf.
  { assert (∀ l rels rel, rel ∈ rels → rel ∈ foldl (λ rels dep, appendLink has rels dep true) rels l) as Hkeep.
    { induction l as [|x l IH]; intros rels rel Hr; [done|]. by apply IH, appendLink_incl. }
    induction Hin as [d l|d y l _ IH]; intros rels; cbn [foldl]; [|by apply IH].
    eexists. split; [apply Hkeep; unfold appendLink; rewrite Hd; apply elem_of_app; right; left|].
    unfold NewServiceRelationship. by destruct (NameAlias d). }
  unfold DependentServices. cbv zeta.
  destruct (Hf (DefaultDependentServices has (Some cfg))) as (rel & Hrel & Ht). exists rel. split; [|done].
  repeat case_match; repeat apply appendLink_incl; done.
Qed.

(** C23: The labels [after] and [before] mean the same wherever they stand and in whichever
    order the services are created: a service depends on another one exactly when its own
    label [after] or the other's label [before] says so, and each such dependency that is a
    service of the project is one the launch order respects as a link. *)
Theorem factory_dependencies services n d :
  (d ∈ deps_of (factory_all services) n ↔
   (∃ labels x, (n, labels) ∈ services ∧ x ∈ label_names labels "io.rancher.os.after" ∧ d = dep_alias x) ∨
   (∃ labels x, (d, labels) ∈ services ∧ x ∈ label_names labels "io.rancher.os.before" ∧ n = dep_alias x)) ∧
  (∀ has missing cfg, has d = true → d ∈ deps_of (factory_all services) n →
   ∃ rel, rel ∈ DependentServices has missing (deps_of (factory_all services) n) cfg ∧
     Target rel = (NameAlias d).1 ∧ RelType rel = RelTypeLink).
Proof.
  split; [unfold factory_all; rewrite factory_all_elem; set_solver|].
  intros has missing cfg Hd Hin. apply DependentServices_extra; done.
Qed.

Definition example_services : list (string * gmap string string) :=
  [("console", {["io.rancher.os.after" := "cloud-init, network"]});
   ("network", {["io.rancher.os.before" := "docker"]})].

Lemma factory_dependencies_witness :
  let cfg := {| Links := []; VolumesFrom := []; DependsOn := []; NetworkMode := "host"; Ipc := "host";
    Image := "os-console"; Labels := {[ ScopeLabel := System ]}; Logging := None; LogDriver := "" |} in
  "network" ∈ deps_of (factory_all example_services) "console" ∧
  ∃ rel, rel ∈ DependentServices (λ _, true) (λ _, false) (deps_of (factory_all example_services) "console") cfg ∧
    Target rel = (NameAlias "network").1 ∧ RelType rel = RelTypeLink.
Proof.
  intros cfg. assert ("network" ∈ deps_of (factory_all example_services) "console") as Hin
    by (apply (bool_decide_unpack _); vm_compute; exact I).
  split; [exact Hin|].
  exact (proj2 (factory_dependencies example_services "console" "network")
    (λ _, true) (λ _, false) cfg eq_refl Hin).
Defined.

(** A service that is created again has its dependencies twice. *)
Example factory_twice :
  let labels := {["io.rancher.os.after" := "network"]} in
  deps_of (factory_all [("console", labels); ("console", labels)]) "console" = ["network"; "network"].
Proof. vm_compute. reflexivity. Qed.

(** ** Operations *)

Section SystemServices.
Context `{Library, Project} (cfg : system_config).
Context (pick : list string → option string) (scheds : nat → nat → bool).

(** Tag the image without the domain of the registry as the image with it. *)
Definition tag_image (d : daemon) (image registryDomain : string) : docker () :=
  if negb (String.eqb registryDomain "docker.io") && GoStrings.Contains image registryDomain then
    match SplitN image "/" 2 with
    | [_; orginImage] =>
        if String.eqb orginImage "" then mret ()
        else
          x ← call d (ImageInspect orginImage);
          match x with
          | AOk _ =>
              let tagParts := SplitN image ":" 2 in
              let tag := match tagParts with [_; tag] => tag | _ => "latest" end in
              _ ← call d (ImageTag orginImage (default "" (head tagParts)) tag); mret ()
          | _ => mret ()
          end
    | _ => mret ()
    end
  else mret ().

Definition missingImage (s : service) : docker bool :=
  let image := Sc.Image (s_config s) in
  if String.eqb image "" then mret false
  else
    let domain := default "" (registry_domain cfg) in
    _ ← tag_image (daemon_of s) image (if String.eqb domain "" then "docker.io" else domain);
    x ← call (daemon_of s) (ImageInspect image);
    mret (match x with AOk _ => false | _ => true end).

Definition getContainer (s : service) : docker ContainerJSON :=
  containers ← collectContainers s;
  match containers with
  | [] => lift (Err ("No containers found for " +:+ s_name s))
  | c :: _ => id ← ID c; inspect (daemon_of s) id
  end.

Definition label (s : service) (key : string) : string := default "" (Sc.Labels (s_config s) !! key).

(** One turn of the loop of [shouldRebuild]: [true] leaves it. *)
Definition rebuild_container (s : service) (c : Container) : docker bool :=
  outOfSync ← OutOfSync c (Sc.Image (s_config s));
  containerInfo ← getContainer s;
  _ ← lift (tail_name (j_Name containerInfo));
  let orig key := default "" (j_Labels containerInfo !! key) in
  let rebuildLabelChanged := negb (String.eqb (label s RebuildLabel) (orig RebuildLabel)) in
  if String.eqb (label s RebuildLabel) "always" then mret true
  else if String.eqb (s_name s) "console" && ForceConsoleRebuild cfg then
    x ← call (daemon_of s) (ConfigSet "rancher.force_console_rebuild" false);
    _ ← expect x;
    mret true
  else if negb outOfSync then mret false
  else if String.eqb (s_name s) "console" then
    mret (negb (String.eqb (label s ConsoleLabel) (orig ConsoleLabel)))
  else mret (rebuildLabelChanged || negb (String.eqb (orig RebuildLabel) "false")).

Fixpoint rebuild_loop (s : service) (containers : list Container) : docker bool :=
  match containers with
  | [] => mret false
  | c :: containers => b ← rebuild_container s c; if b : bool then mret true else rebuild_loop s containers
  end.

Definition shouldRebuild (s : service) : docker bool :=
  containers ← collectContainers s;
  rebuild_loop s containers.

(** An error about a name of a mount is only logged. *)
Definition recreate_logged (s : service) (c : Container) : docker () :=
  r ← attempt (Recreate c (Sc.Image (s_config s)));
  match r with
  | Err e => if GoStrings.Contains e ErrMountNameConflict then mret () else lift (Err e)
  | _ => mret ()
  end.

Definition rename (s : service) : docker () :=
  info ← getContainer s;
  match j_Name info with
  | "" => mret ()
  | String _ name =>
      if String.eqb name (s_name s) then mret ()
      else x ← call (daemon_of s) (ContainerRename (j_ID info) (s_name s)); expect x
  end.

Definition wait (s : service) : docker () :=
  info ← getContainer s;
  x ← call (daemon_of s) (ContainerWait (j_ID info));
  _ ← expect x;
  mret ().

Definition checkReload (s : service) : docker () :=
  if String.eqb (label s ReloadConfigLabel) "true" then lift (Err ErrRestart) else mret ().

Definition wait_network (s : service) : docker () :=
  if String.eqb (label s "io.rancher.os.after") "network" then
    _ ← call (daemon_of s) WaitForNetwork; mret ()
  else mret ().

Definition rebuild (s : service) : docker () :=
  cs ← collectContainers s;
  _ ← each (recreate_logged s) cs;
  rename s.

Definition SystemUp (s : service) (options : up_options) : docker () :=
  _ ← wait_network s;
  _ ← ServiceCreate pick scheds s options;
  shouldRebuild ← shouldRebuild s;
  _ ← (if shouldRebuild : bool then rebuild s else mret ());
  if String.eqb (label s CreateOnlyLabel) "true" then checkReload s
  else
    _ ← ServiceUp pick scheds s options;
    _ ← (if String.eqb (label s DetachLabel) "false" then wait s else mret ());
    checkReload s.

(** [Create] of the service is that of the library. *)
Definition SystemCreate (s : service) (options : up_options) : docker () :=
  ServiceCreate pick scheds s options.

(** ** Containers are only removed when they were replaced *)

Lemma shouldRebuild_calls s : only (within [KRead; KSystem]) (shouldRebuild s).
Proof using Type.
  unfold shouldRebuild. apply only_bind; [calls|]. intros l.
  induction l as [|c l IH]; cbn [rebuild_loop]; [done|].
  apply only_bind; [|intros []; [done|exact IH]].
  unfold rebuild_container, getContainer, call. calls.
Qed.

Lemma rename_calls s : only (within [KRead; KRename]) (rename s).
Proof using Type. unfold rename, getContainer, call. calls. Qed.

Lemma recreate_all_spec s cs w :
  Forall (λ c, k_service c = s) cs → ok_spec (keeps s) (each (recreate_logged s) cs) (λ _ _, True) w.
Proof using Type.
  intros Hcs. revert w. induction Hcs as [|c cs <- _ IH]; intros w; cbn [each]; [by apply ok_done|].
  eapply (ok_bind _ _ _ (λ _ _, True)); [|intros _ w1 _ _; apply IH].
  unfold recreate_logged. eapply (ok_bind _ _ _ (λ _ _, True)).
  { apply spec_attempt. eapply spec_mono; [|apply Recreate_spec]. by intros []. }
  intros. apply ok_only. repeat case_match; exact I.
Qed.

Lemma rebuild_spec s w : ok_spec (keeps s) (rebuild s) (λ _ _, True) w.
Proof using Type.
  unfold rebuild. eapply ok_bind; [apply collectContainers_spec|]. intros cs w1 _ Hcs.
  eapply ok_bind; [by apply recreate_all_spec|]. intros _ w2 _ _.
  eapply keeps_calls, rename_calls. set_solver.
Qed.

Lemma SystemUp_spec s options w : ok_spec (keeps s) (SystemUp s options) (λ _ _, True) w.
Proof using Type.
  unfold SystemUp. eapply ok_bind.
  { apply (keeps_calls _ _ [KSystem]); [set_solver|]. unfold wait_network, call. calls. }
  intros _ w1 _ _. eapply ok_bind; [apply ServiceCreate_spec|]. intros _ w2 _ _.
  eapply ok_bind; [eapply keeps_calls, shouldRebuild_calls; set_solver|]. intros b w3 _ _.
  eapply (ok_bind _ _ _ (λ _ _, True)); [destruct b; [apply rebuild_spec|by apply ok_done]|].
  intros _ w4 _ _. unfold checkReload. case_match; [apply ok_only; case_match; exact I|].
  eapply ok_bind; [apply ServiceUp_spec|]. intros _ w5 _ _. eapply ok_bind.
  { apply (keeps_calls _ _ [KRead; KWait]); [set_solver|]. unfold wait, getContainer, call. calls. }
  intros _ w6 _ _. apply ok_only. case_match; exact I.
Qed.

(** C22: When a service of the system comes up, a container is only removed after another one
    was created under the name it was found by, for the same service, and found: whatever the
    daemon answers, in whichever order the containers of the service are handled, and
    whichever of their errors is reported. *)
Theorem SystemUp_replaces s options l r i d old force vols x :
  behaves (SystemUp s options) l r →
  l !! i = Some (ev d (ContainerRemove old force vols) x) →
  replaced s d old (take i l).
Proof using Type.
  intros Hb Hi. destruct (spec_behaves _ _ _ _ _ [] Hb (SystemUp_spec s options [])) as [_ Hk].
  exact (Hk i _ Hi).
Qed.

(** ** What the labels of a service do *)

Lemma behaves_ok_bind {A B} (p : docker A) (f : A → docker B) l b :
  behaves (p ≫= f) l (Ok b) → ∃ l1 l2 a, l = (l1 ++ l2)%list ∧ behaves p l1 (Ok a) ∧ behaves (f a) l2 (Ok b).
Proof using Type. by intros [?|[(e & _ & ?)|(e & _ & ?)]]%behaves_bind. Qed.

(** A service that is only created is never started. *)
Lemma ServiceCreate_calls s options :
  only (within [KRead; KCreate; KRename; KRemove; KImage]) (ServiceCreate pick scheds s options).
Proof using Type.
  unfold ServiceCreate. apply only_bind; [calls|]. intros l.
  apply only_bind; [calls_from ensureImageExists_calls|]. intros image. case_match.
  - apply only_bind; [calls_from createOne_calls|calls].
  - apply eachContainer_calls; [in_kinds|]. intros c'. calls_from recreateIfNeeded_calls.
Qed.

Lemma rebuild_calls s : only (within [KRead; KCreate; KRename; KRemove]) (rebuild s).
Proof using Type.
  unfold rebuild, recreate_logged. apply only_bind; [calls|]. intros cs.
  apply only_bind; [calls|]. intros _. calls_from rename_calls.
Qed.

Lemma wait_ok s l :
  behaves (wait s) l (Ok ()) → ∃ id code, last l = Some (ev (daemon_of s) (ContainerWait id) (AOk code)).
Proof using Type.
  intros (l1 & l2 & j & -> & _ & Hb)%behaves_ok_bind.
  destruct Hb as (x & l3 & -> & Hb). change (behaves (expect x ≫= λ _, mret ()) l3 (Ok ())) in Hb.
  apply behaves_ok_bind in Hb as (l4 & l5 & code & -> & Hx & [-> _]).
  destruct x as [a|e|e]; destruct Hx as [-> [= ->]]. exists (j_ID j), a. by rewrite last_app.
Qed.

(** The labels of a service of the system do what they are for: a service after the
    network waits for it before anything else, a service that is only created is never
    started, a service that is not detached returns when its container has ended, and one
    that reloads the configuration never returns without asking for a restart. *)
Theorem SystemUp_labels s options l r :
  behaves (SystemUp s options) l r →
  (label s "io.rancher.os.after" = "network" →
     ∃ x l', l = ev (daemon_of s) WaitForNetwork x :: l') ∧
  (label s CreateOnlyLabel = "true" → ∀ e, e ∈ l → kind_of (projT1 e).2 ≠ KStart) ∧
  (label s CreateOnlyLabel ≠ "true" → label s DetachLabel = "false" → r = Ok () →
     ∃ id code, last l = Some (ev (daemon_of s) (ContainerWait id) (AOk code))) ∧
  (label s ReloadConfigLabel = "true" → r ≠ Ok ()).
Proof using Type.
  intros Hb. split_and!.
  - intros Hl. unfold SystemUp, wait_network in Hb. rewrite Hl in Hb.
    destruct Hb as (x & l' & -> & _). by exists x, l'.
  - intros Hc e He Hk. unfold SystemUp in Hb. rewrite Hc in Hb.
    assert (Forall (λ e : docker_exchange, within [KRead; KCreate; KRename; KRemove; KImage; KSystem] (projT1 e)) l)
      as Hl.
    { eapply only_behaves; [exact Hb|]. apply only_bind; [unfold wait_network, call; calls|]. intros _.
      apply only_bind; [calls_from ServiceCreate_calls|]. intros _.
      apply only_bind; [calls_from shouldRebuild_calls|]. intros b.
      apply only_bind; [destruct b; [calls_from rebuild_calls|calls]|]. intros _. unfold checkReload. calls. }
    rewrite Forall_forall in Hl. specialize (Hl e He).
    assert (KStart ∈ [KRead; KCreate; KRename; KRemove; KImage; KSystem]) as Hs by (rewrite <-Hk; exact Hl).
    clear -Hs. rename Hs into Hl.
    by repeat (apply elem_of_cons in Hl as [|Hl]; [done|]); apply not_elem_of_nil in Hl.
  - intros Hc Hd ->. unfold SystemUp in Hb.
    do 4 (apply behaves_ok_bind in Hb as (? & ? & ? & -> & _ & Hb)).
    rewrite (proj2 (String.eqb_neq _ _) Hc), Hd in Hb.
    change (String.eqb "false" "false") with true in Hb. cbv iota in Hb.
    apply behaves_ok_bind in Hb as (? & ? & ? & -> & _ & Hb).
    apply behaves_ok_bind in Hb as (? & l6 & [] & -> & Hw & Hb).
    assert (l6 = []) as ->.
    { unfold checkReload in Hb. case_match; [by destruct Hb|by destruct Hb]. }
    rewrite app_nil_r, !app_assoc. apply wait_ok in Hw as (id & code & Hw).
    exists id, code. by rewrite last_app, Hw.
  - intros Hr ->. unfold SystemUp, checkReload in Hb. rewrite Hr in Hb.
    do 4 (apply behaves_ok_bind in Hb as (? & ? & ? & -> & _ & Hb)).
    case_match; [by destruct Hb|].
    do 2 (apply behaves_ok_bind in Hb as (? & ? & ? & -> & _ & Hb)). by destruct Hb.
Qed.
End SystemServices.

Section SystemExamples.
#[local] Existing Instances Sim.library Sim.project.

Definition example_system : system_config := {| registry_domain := None; ForceConsoleRebuild := false |}.

(** What happens when the console comes up with a new image. *)
Definition example_up : list docker_exchange * result () :=
  exchanges (Sim.step (λ _, false)) (SystemUp example_system head (λ _ _, true) Sim.console no_options) Sim.before.

Lemma SystemUp_replaces_witness :
  ∃ l r i old, behaves (SystemUp example_system head (λ _ _, true) Sim.console no_options) l r ∧
    l !! i = Some (ev SystemDocker (ContainerRemove old true false) (AOk ())) ∧
    replaced Sim.console SystemDocker old (take i l).
Proof.
  assert (example_up.1 !! 11%nat =
    Some (ev SystemDocker (ContainerRemove "ab0123456789c" true false) (AOk ()))) as Hi by (vm_compute; reflexivity).
  pose proof (exchanges_behaves (Sim.step (λ _, false))
    (SystemUp example_system head (λ _ _, true) Sim.console no_options) Sim.before) as Hb.
  exists example_up.1, example_up.2, 11%nat, "ab0123456789c". split; [exact Hb|]. split; [exact Hi|].
  exact (SystemUp_replaces _ _ _ _ _ _ _ _ _ _ _ _ _ Hb Hi).
Defined.

Definition example_labelled : service :=
  Sim.labelled {["io.rancher.os.after" := "network"; DetachLabel := "false"; ReloadConfigLabel := "true"]}.

Lemma SystemUp_labels_witness :
  ∃ l r, behaves (SystemUp example_system head (λ _ _, true) example_labelled no_options) l r ∧
    (∃ x l', l = ev SystemDocker WaitForNetwork x :: l') ∧ r ≠ Ok ().
Proof.
  pose proof (exchanges_behaves (Sim.step (λ _, false))
    (SystemUp example_system head (λ _ _, true) example_labelled no_options) Sim.before) as Hb.
  destruct (SystemUp_labels _ _ _ _ _ _ _ Hb) as (Hw & _ & _ & Hr).
  do 2 eexists. split; [exact Hb|]. split; [apply Hw; reflexivity|apply Hr; reflexivity].
Defined.
End SystemExamples.
