(* ===== verification/OS.v ===== *)
(** * The operating system ([pkg/util/util_linux.go], [pkg/util/util.go])

    Code that mounts, copies and starts processes is a program over the calls of Go's
    packages os, io/ioutil, os/exec and syscall, of the mount library and of blkid. Any
    answer is possible. *)

From stdpp Require Import prelude gmap strings list.
From S2P Require Import Prelude GoStrings Prog Conc.

Local Open Scope string_scope.

(** ** Calls *)

(** What the code asks of [os.FileInfo]. *)
Record file_info := {
  fi_dir : bool;
  fi_regular : bool;
  fi_symlink : bool;
  fi_perm : Z;
  fi_size : Z;
}.

Inductive os_call : Type :=
  (** files *)
  | Stat (p : string)
  | Lstat (p : string)
  | Mkdir (p : string) (perm : Z)
  | MkdirAll (p : string) (perm : Z)
  | ReadFile (p : string)
  | WriteFile (p data : string) (perm : Z)
  | WriteFileAtomic (p data : string) (perm : Z)
  | OpenCreate (p : string) (perm : Z)
  | CloseFile (p : string)
  | SyncFile (p : string)
  | Open (p : string)
  | ReadBytes (p : string) (n : nat)
  | Scan (p : string)
  | Create (p : string)
  | CopyContent (src dst : string)
  | CopyWithTar (src dst : string)
  | Symlink (target p : string)
  | Readlink (p : string)
  | ReadDir (p : string)
  | Remove (p : string)
  | RemoveAll (p : string)
  | Rename (p q : string)
  | Unlink (p : string)
  | Chmod (p : string) (perm : Z)
  | TempDir (dir prefix : string)
  | Glob (pattern : string)
  (** mounts *)
  | SysMount (device target fsType flags : string)
  | SysUnmount (target : string)
  | LibMount (device target fsType options : string)
  | LibUnmount (target : string)
  | GetMounts
  | MakeShared (target : string)
  | Chdir (p : string)
  | Chroot (p : string)
  | Statfs (p : string)
  | ResolveDevice (spec : string)
  | GetFsType (device : string)
  (** processes *)
  | LookPath (name : string)
  | Exec (path : string) (argv env : list string)
  | Start (path : string) (argv env : list string)
  | RunCommand (argv : list string)
  | Output (argv : list string)
  | PidOne
  | Environ
  | Setenv (key value : string)
  | Unsetenv (key : string)
  | Hostname
  | Getrlimit
  | Setrlimit (cur max : Z)
  | LogTo (path : string)
  | Hypervisor
  | Sync
  | Reboot (code : Z)
  (** other parts of the system *)
  | BuildResolvConf
  | ApplyBridge (name address : string) (mtu : Z).

Definition os_answer (c : os_call) : Type :=
  match c with
  | Stat _ | Lstat _ => api file_info
  | ReadFile _ | ReadBytes _ _ | Readlink _ | TempDir _ _ | Output _ | Hostname | LookPath _ | GetFsType _ => api string
  | ReadDir _ => api (list (string * bool))
  | Glob _ => api (list string)
  | GetMounts => api (list (string * string))
  | Statfs _ => api Z
  | ResolveDevice _ | Hypervisor => string
  | Environ => list string
  | Getrlimit => api (Z * Z)
  | Scan _ => string * option string
  | _ => api ()
  end.

(** ** Programs that use them

    A call that only fails or succeeds is [do_sys], one whose error is dropped [try_sys]. *)

Abbreviation os := (prog os_answer).

Definition sys (c : os_call) : os (os_answer c) := invoke c.

(** A call that only succeeds or fails. *)
Definition do_sys {A} (c : os_call) (H : os_answer c = api A) : os A :=
  x ← sys c; expect (eq_rect _ (λ T, T) x _ H).

(** A call whose error is dropped or only logged. *)
Definition try_sys {A} (c : os_call) (H : os_answer c = api A) : os () :=
  _ ← sys c; mret ().

Definition not_exist {A} (x : api A) : bool := match x with ANotFound _ => true | _ => false end.
Definition ok {A} (x : api A) : bool := match x with AOk _ => true | _ => false end.

Definition lift {A} (r : result A) : os A := Done r.

(** Permissions in decimal: 493 is 0755. *)

(** ** Mounting ([pkg/util/util_linux.go]) *)

Definition mountProc : os () :=
  x ← sys (Stat "/proc/self/mountinfo");
  if negb (not_exist x) then mret ()
  else
    y ← sys (Stat "/proc");
    _ ← (if not_exist y then do_sys (Mkdir "/proc" 493) eq_refl else mret ());
    do_sys (SysMount "none" "/proc" "proc" "") eq_refl.

(** Without /proc nothing is mounted, and that is no error. *)
Definition Mount (device target fsType options : string) : os () :=
  proc ← attempt mountProc;
  match proc with
  | Ok _ =>
      fsType ← (
        if existsb (String.eqb "bind") (Split options ",") then
          info ← do_sys (Stat device) eq_refl;
          _ ← (if fi_dir info then do_sys (MkdirAll target 493) eq_refl
               else if fi_regular info then
                 _ ← do_sys (MkdirAll (Dir target) 493) eq_refl;
                 _ ← do_sys (OpenCreate target (fi_perm info)) eq_refl;
                 do_sys (CloseFile target) eq_refl
               else lift (Err "invalid argument"));
          mret fsType
        else
          _ ← do_sys (MkdirAll target 493) eq_refl;
          if String.eqb fsType "auto" || String.eqb fsType "" then do_sys (GetFsType device) eq_refl
          else mret fsType);
      do_sys (LibMount device target fsType options) eq_refl
  | _ => mret ()
  end.

Definition Unmount (target : string) : os () := do_sys (LibUnmount target) eq_refl.

(** The last entry is the file system that is visible. *)
Definition mount_type (target : string) (mounts : list (string * string)) : string :=
  foldl (λ fsType m, if String.eqb m.1 target then m.2 else fsType) "" mounts.

Definition GetMountFsType (target : string) : os string :=
  mounts ← do_sys GetMounts eq_refl; mret (mount_type target mounts).

(** ** Block devices *)

Definition nl_char : ascii := "010"%char.
Definition dquote_char : ascii := "034"%char.
Definition dquote : string := String dquote_char "".

(** The lines of a [bufio.Scanner]. *)
Definition scan_lines (out : string) : list string :=
  let lines := Split out nl_char in
  (λ l, TrimSuffix l (String "013" "")) <$>
    (if String.eqb (default "" (last lines)) "" then take (length lines - 1) lines else lines).

Definition quoted (key value : string) : string := key +:+ "=" +:+ dquote +:+ value +:+ dquote.

(** The type is cut at the quotes after TYPE=; a line without one panics. *)
Definition blkid_type (line : string) : result string :=
  let sep := "TYPE=" +:+ dquote in
  match cut sep line with
  | None => Panic "index out of range"
  | Some (_, rest) =>
      let s2 := match cut sep rest with Some (s2, _) => s2 | None => rest end in
      Ok (default "" (head (Split s2 dquote_char)))
  end.

Fixpoint blkid_label (lines : list string) (label : string) : result (string * string) :=
  match lines with
  | [] => Ok ("", "")
  | line :: lines =>
      if GoStrings.Contains line (quoted "LABEL" label) then
        type ← blkid_type line;
        Ok (default "" (head (Split line ":")), type)
      else blkid_label lines label
  end.

Definition Blkid (label : string) : os (string * string) :=
  out ← do_sys (Output ["blkid"]) eq_refl;
  lift (blkid_label (scan_lines out) label).

Definition blkid_devices (lines : list string) (deviceType : string) : list string :=
  (λ line, default "" (head (Split line ":"))) <$>
    filter (λ line, GoStrings.Contains line (quoted "TYPE" deviceType) = true) lines.

Definition BlkidType (deviceType : string) : os (list string) :=
  out ← do_sys (Output ["blkid"]) eq_refl;
  mret (blkid_devices (scan_lines out) deviceType).

(** ** Scripts ([pkg/util/util.go]) *)

(** Any bit of the permissions counts, not only those of execution. *)
Definition ExistsAndExecutable (path : string) : os bool :=
  x ← sys (Stat path);
  mret (match x with AOk info => negb (fi_perm info =? 0)%Z | _ => false end).

Definition RunScript (path : string) (args : list string) : os () :=
  executable ← ExistsAndExecutable path;
  if negb executable then mret ()
  else
    _ ← do_sys (Open path) eq_refl;
    magic ← do_sys (ReadBytes path 2) eq_refl;
    do_sys (RunCommand (if String.eqb magic "#!" then path :: args else ["/bin/sh"; path])) eq_refl.

(** ** What the operations call *)

Abbreviation os_exchange := (@exchange os_call os_answer).
Abbreviation os_log := (list os_exchange).

Definition ev (c : os_call) (x : os_answer c) : os_exchange := existT c x.

Lemma only_do_sys {A} (P : os_call → Prop) c (H : os_answer c = api A) : P c → only P (do_sys c H).
Proof. intros HP. apply only_bind; [by apply only_invoke|]. intros x. apply only_expect. Qed.

Lemma only_try_sys {A} (P : os_call → Prop) c (H : os_answer c = api A) : P c → only P (try_sys c H).
Proof. intros HP. by apply only_bind; [apply only_invoke|]. Qed.

Lemma only_os_lift {A} (P : os_call → Prop) (r : result A) : only P (lift r).
Proof. done. Qed.
#[export] Hint Resolve only_os_lift : calls.

Ltac os_calls leaf :=
  unfold sys in *;
  repeat first
    [ progress intros
    | exact I
    | progress (auto with calls; fail)
    | apply only_do_sys; leaf
    | apply only_try_sys; leaf
    | apply only_bind
    | apply only_invoke; leaf
    | apply only_attempt
    | apply only_ignore
    | apply only_each
    | case_match ].

(** /proc is not there and could not be mounted. *)
Definition no_proc (l : os_log) : Prop :=
  ∃ x : api (), ok x = false ∧ (ev (Mkdir "/proc" 493) x ∈ l ∨ ev (SysMount "none" "/proc" "proc" "") x ∈ l).

(** Case analysis on the answers of a program that makes few calls. *)
Ltac inv_behaves H :=
  unfold do_sys, try_sys, sys, lift, mbind, prog_mbind, mret, prog_ret, invoke in H;
  repeat match type of H with
  | context [mret _] => progress unfold mret, prog_ret in H
  | _ => progress (cbn [behaves prog_bind attempt expect eq_rect not_exist ok negb] in H)
  | ∃ x l', _ = _ ∧ _ => let x := fresh "x" in let l := fresh "l" in let E := fresh "E" in
      destruct H as (x & l & E & H); try subst
  | _ = _ ∧ _ = _ => let E1 := fresh "E" in let E2 := fresh "E" in destruct H as [E1 E2]; simplify_eq
  | context [expect ?x] => is_var x; destruct x
  | behaves (if match ?x with _ => _ end then _ else _) _ _ => destruct x
  | behaves (prog_bind (if match ?x with _ => _ end then _ else _) _) _ _ => destruct x
  | behaves (if ?b then _ else _) _ _ => destruct b eqn:?
  | behaves (prog_bind (if ?b then _ else _) _) _ _ => destruct b eqn:?
  end.

Lemma behaves_attempt {call} {ans : call → Type} {A} (p : prog ans A) l r :
  behaves (attempt p) l r → (∃ r', behaves p l r' ∧ r = Ok r') ∨ (∃ e, behaves p l (Panic e) ∧ r = Panic e).
Proof.
  revert l. induction p as [[a|e|e]|c k IH]; intros l; cbn [attempt behaves].
  - intros [-> ->]. left. by eexists.
  - intros [-> ->]. left. by eexists.
  - intros [-> ->]. right. by eexists.
  - intros (x & l' & -> & H). destruct (IH x l' H) as [(r' & Hr & ->)|(e & Hr & ->)].
    + left. exists r'. split; [by exists x, l'|done].
    + right. exists e. split; [by exists x, l'|done].
Qed.

(** Membership in a log that is written out. *)
Ltac in_log :=
  repeat match goal with a : () |- _ => destruct a end;
  repeat first [by apply list_elem_of_here | apply list_elem_of_further]; fail.

Lemma mountProc_fails l r : behaves mountProc l r → r = Ok () ∨ no_proc l.
Proof.
  unfold mountProc. intros H.
  inv_behaves H; try (left; repeat match goal with a : () |- _ => destruct a end; reflexivity); right;
    (let go x := (exists x; split; [done|]; first [by left; in_log | by right; in_log]) in
     first [go (ANotFound (A := ()) msg) | go (AErr (A := ()) msg)]).
Qed.

Lemma no_proc_subseteq (l l' : os_log) : l ⊆ l' → no_proc l → no_proc l'.
Proof. intros Hl (x & Hx & H). exists x. split; [done|]. by destruct H as [H|H]; [left|right]; apply Hl. Qed.

(** A mount that is neither a bind mount nor has to find out its type. *)
Lemma Mount_ok device target fsType options l :
  existsb (String.eqb "bind") (Split options ",") = false → fsType ≠ "auto" → fsType ≠ "" →
  behaves (Mount device target fsType options) l (Ok ()) →
  ev (LibMount device target fsType options) (AOk ()) ∈ l ∨ no_proc l.
Proof.
  intros Hb Ha%String.eqb_neq He%String.eqb_neq. unfold Mount. rewrite Hb, Ha, He. cbn [orb].
  intros [(l1 & l2 & r & -> & H1 & H2)|[(e & _ & [=])|(e & _ & [=])]]%behaves_bind.
  apply behaves_attempt in H1 as [(r' & H1 & [= ->])|(e & _ & [=])].
  destruct (mountProc_fails _ _ H1) as [->|Hn]; [left|right; eapply no_proc_subseteq; [|done]; set_solver].
  inv_behaves H2. apply elem_of_app; right. in_log.
Qed.

(** Any mount. *)
Lemma Mount_mounts device target fsType l :
  behaves (Mount device target fsType "") l (Ok ()) →
  (∃ t, ev (LibMount device target t "") (AOk ()) ∈ l) ∨ no_proc l.
Proof.
  unfold Mount.
  intros (l1 & l2 & r & -> & H1 & H2)%behaves_bind_ok. apply behaves_attempt in H1 as [(r' & H1 & [= ->])|(e & _ & [=])].
  destruct (mountProc_fails _ _ H1) as [->|Hn]; [left|right; eapply no_proc_subseteq; [|done]; set_solver].
  change (existsb (String.eqb "bind") (Split "" ",")) with false in H2.
  inv_behaves H2; eexists; apply elem_of_app; right; in_log.
Qed.

Lemma only_mountProc (P : os_call → Prop) :
  P (Stat "/proc/self/mountinfo") → P (Stat "/proc") → P (Mkdir "/proc" 493) →
  P (SysMount "none" "/proc" "proc" "") → only P mountProc.
Proof. intros. unfold mountProc. os_calls done. Qed.

(** Its calls: what prepares the mount, and the mount itself. *)
Definition mount_aid (c : os_call) : Prop :=
  match c with
  | Stat _ | Mkdir _ _ | MkdirAll _ _ | SysMount _ "/proc" _ _ => True
  | _ => False
  end.

(** Its calls, whatever is mounted. *)
Lemma only_Mount_any (P : os_call → Prop) device target fsType options :
  (∀ c, match c with
        | Stat _ | Mkdir _ _ | MkdirAll _ _ | SysMount _ _ _ _ | OpenCreate _ _ | CloseFile _ | GetFsType _
        | LibMount _ _ _ _ => True
        | _ => False
        end → P c) → only P (Mount device target fsType options).
Proof. intros HP. unfold Mount, mountProc, lift. os_calls ltac:(by apply HP). Qed.

Lemma only_Mount (P : os_call → Prop) device target fsType options :
  existsb (String.eqb "bind") (Split options ",") = false → fsType ≠ "auto" → fsType ≠ "" →
  (∀ c, mount_aid c → P c) → P (LibMount device target fsType options) →
  only P (Mount device target fsType options).
Proof.
  intros Hb Ha%String.eqb_neq He%String.eqb_neq Haid Hl. unfold Mount. rewrite Hb, Ha, He. cbn [orb].
  apply only_bind; [apply only_attempt, only_mountProc; by apply Haid|]. intros [a|e|e]; [|done..].
  apply only_bind_assoc; [apply only_do_sys; by apply Haid|]. intros _. by apply only_do_sys.
Qed.

(** ** Programs about logs *)

Lemma ok_do_sys {A} (G : os_log → os_exchange → Prop) c (H : os_answer c = api A) w :
  (∀ w1 x, w `prefix_of` w1 → G w1 (existT c x)) →
  ok_spec G (do_sys c H) (λ a w', ∃ x, eq_rect _ (λ T, T) x _ H = AOk a ∧ since w (existT c x) w') w.
Proof.
  intros HG. unfold do_sys, sys. ok_call; [done|]. intros x w1 Hw1 Hx.
  eapply spec_mono; [|apply spec_prefix, expect_spec]. intros r w2 [Hw2 Hr] a Ha.
  exists x. split; [by apply Hr|]. by eapply since_monotone.
Qed.

Lemma ok_GetMountFsType (G : os_log → os_exchange → Prop) target w :
  (∀ w1 x, w `prefix_of` w1 → G w1 (ev GetMounts x)) →
  ok_spec G (GetMountFsType target)
    (λ fsType w', ∃ ms, ev GetMounts (AOk ms) ∈ w' ∧ fsType = mount_type target ms) w.
Proof.
  intros HG. eapply ok_bind; [by apply ok_do_sys|]. intros ms w1 Hw1 (x & Hx & Hs). cbn in Hx. subst x.
  apply ok_done.
  - intros t w2 w3 Hw (ms' & H & Ht). exists ms'. split; [|done]. by eapply elem_of_prefix.
  - intros t [= <-]. exists ms. split; [|done]. by eapply since_elem.
Qed.

(** ** A plain machine, for examples *)

Definition dir_info : file_info :=
  {| fi_dir := true; fi_regular := false; fi_symlink := false; fi_perm := 493; fi_size := 4096 |}.
Definition regular_info : file_info :=
  {| fi_dir := false; fi_regular := true; fi_symlink := false; fi_perm := 420; fi_size := 10 |}.

(** Every path is a directory, every file is empty and every other call succeeds. *)
Definition plain (c : os_call) : os_answer c :=
  match c with
  | Stat _ | Lstat _ => AOk dir_info
  | ReadFile _ | ReadBytes _ _ | Readlink _ | TempDir _ _ | Output _ | Hostname | LookPath _ | GetFsType _ => AOk ""
  | ReadDir _ => AOk []
  | Glob _ => AOk []
  | GetMounts => AOk []
  | Statfs _ => AOk 0%Z
  | ResolveDevice _ | Hypervisor => ""
  | Environ => []
  | Getrlimit => AOk (0%Z, 0%Z)
  | Scan _ => ("", None)
  | _ => AOk ()
  end.
