(* ===== verification/Dfs.v ===== *)
(** * Preparing a root file system and launching docker ([pkg/dfs/scratch.go])

    The init process and the launcher of user docker mount the file systems of the kernel,
    create a minimal layout, and execute the daemon. *)

From stdpp Require Import prelude gmap strings list.
From S2P Require Import Prelude GoStrings Prog Conc RawTree Cmdline OS.

Local Open Scope string_scope.

(** ** Data *)

Definition defaultPrefix : string := "/usr".
Definition iptables : string := "/sbin/iptables".
Definition modprobe : string := "/sbin/modprobe".
Definition distSuffix : string := ".dist".
Definition cgroupRoot : string := "/sys/fs/cgroup".
Definition cgroupV2Fs : string := "cgroup2".

Record mount := { m_device : string; m_target : string; m_type : string; m_options : string }.

Definition entry (device target type options : string) : mount :=
  {| m_device := device; m_target := target; m_type := type; m_options := options |}.

Definition mounts : list mount := [
  entry "devtmpfs" "/dev" "devtmpfs" "";
  entry "none" "/dev/pts" "devpts" "";
  entry "shm" "/dev/shm" "tmpfs" "rw,nosuid,nodev,noexec,relatime,size=65536k";
  entry "mqueue" "/dev/mqueue" "mqueue" "rw,nosuid,nodev,noexec,relatime";
  entry "none" "/proc" "proc" "";
  entry "none" "/run" "tmpfs" "";
  entry "none" "/sys" "sysfs" "";
  entry "debugfs" "/sys/kernel/debug" "debugfs" ""].

Definition cgroupV2Mount : mount :=
  entry cgroupV2Fs cgroupRoot cgroupV2Fs "rw,nosuid,nodev,noexec,relatime,nsdelegate".

Definition cgroupV2Controllers : list string :=
  ["cpu"; "cpuset"; "io"; "memory"; "pids"; "hugetlb"; "rdma"; "misc"].

Record Config := {
  Fork : bool;
  PidOne_ : bool;
  CommandName : string;
  Nameservers : list string;
  BridgeName : string;
  BridgeAddress : string;
  BridgeMtu : Z;
  LogFile : string;
  NoFiles : Z;
  Environment : list string;
  DataRootDirectory : string;
  DaemonConfig : string;
}.

(** ** Mounts and directories *)

Definition createMounts (ms : list mount) : os () :=
  each (λ m, Mount (m_device m) (m_target m) (m_type m) (m_options m)) ms.

Definition createDir (dir : string) : os () :=
  x ← sys (Stat dir);
  if not_exist x then do_sys (MkdirAll dir 493) eq_refl else mret ().

Definition createDirs (dirs : list string) : os () := each createDir dirs.

(** Every error is only logged. *)
Definition enable_controller (enabled : list string) (controller : string) : os () :=
  if existsb (String.eqb controller) enabled then
    try_sys (WriteFile (path_Join [cgroupRoot; "cgroup.subtree_control"]) ("+" +:+ controller) 420) eq_refl
  else mret ().

Definition enableCgroupV2Controllers : os () :=
  available ← sys (ReadFile (path_Join [cgroupRoot; "cgroup.controllers"]));
  match available with
  | AOk available => each (enable_controller (Fields available)) cgroupV2Controllers
  | _ => mret ()
  end.

Definition mountCgroupV2 : os () :=
  _ ← createDirs [cgroupRoot];
  fsType ← GetMountFsType cgroupRoot;
  _ ← (if String.eqb fsType cgroupV2Fs then mret ()
       else if String.eqb fsType "" then createMounts [cgroupV2Mount]
       else _ ← Unmount cgroupRoot; createMounts [cgroupV2Mount]);
  enableCgroupV2Controllers.

Definition CreateSymlink (src dest : string) : os () :=
  x ← sys (Lstat dest);
  if not_exist x then do_sys (Symlink src dest) eq_refl else mret ().

Definition CreateSymlinks (pathSets : list (string * string)) : os () :=
  each (λ p, CreateSymlink p.1 p.2) pathSets.

(** ** Default files *)

Definition CopyFileOverwrite (src folder name : string) (overwrite : bool) : os () :=
  x ← sys (Lstat src);
  if not_exist x then mret ()
  else
    let dst := path_Join [folder; name] in
    exists_ ← (if overwrite then mret false else y ← sys (Lstat dst); mret (ok y));
    if exists_ : bool then mret ()
    else
      _ ← createDirs [folder];
      info ← do_sys (Lstat src) eq_refl;
      if fi_symlink info then
        symDst ← do_sys (Readlink src) eq_refl;
        do_sys (Symlink symDst dst) eq_refl
      else
        _ ← do_sys (Open src) eq_refl;
        _ ← do_sys (Create dst) eq_refl;
        do_sys (CopyContent src dst) eq_refl.

Definition CopyFile (src folder name : string) : os () := CopyFileOverwrite src folder name false.

Definition copyDefault (folder name : string) : os () :=
  CopyFile (path_Join [defaultPrefix; folder; name]) folder name.

(** The directories below a folder, as deep as [fuel]; an error of [ReadDir] is an empty
    directory. *)
Fixpoint copyDefaultFolder (fuel : nat) (folder : string) : os () :=
  match fuel with
  | O => lift (Err "fuel")
  | S fuel =>
      files ← sys (ReadDir (path_Join [defaultPrefix; folder]));
      each (λ file : string * bool,
        if file.2 then copyDefaultFolder fuel (path_Join [folder; file.1])
        else copyDefault folder file.1) (match files with AOk files => files | _ => [] end)
  end.

Definition defaultFiles (files : list string) : os () :=
  each (λ file, copyDefault (Dir file) (Base file)) files.

Definition defaultFolders (fuel : nat) (folders : list string) : os () :=
  each (copyDefaultFolder fuel) folders.

Definition tryCreateFile (name content : string) : os () :=
  x ← sys (Stat name);
  if ok x then mret ()
  else _ ← createDirs [Dir name]; do_sys (WriteFile name content 420) eq_refl.

Definition newline : string := String "010" "".

Definition createPasswd : os () := tryCreateFile "/etc/passwd" ("root:x:0:0:root:/root:/bin/sh" +:+ newline).
Definition createGroup : os () := tryCreateFile "/etc/group" ("root:x:0:" +:+ newline).

(** ** Network *)

Definition hosts (hostname : string) : string :=
  Join ["127.0.0.1    localhost"; "::1    localhost ip6-localhost ip6-loopback"; "fe00::0    ip6-localnet";
        "ff00::0    ip6-mcastprefix"; "ff02::1    ip6-allnodes"; "ff02::2    ip6-allrouters"; "";
        "127.0.1.1       " +:+ hostname] newline.

Definition setupNetworking (cfg : Config) : os () :=
  hostname ← do_sys Hostname eq_refl;
  _ ← ignore (tryCreateFile "/etc/hosts" (hosts hostname));
  _ ← (match Nameservers cfg with
       | [] => mret ()
       | _ =>
           x ← sys (ReadFile "/etc/resolv.conf");
           if ok x then mret () else do_sys BuildResolvConf eq_refl
       end);
  if negb (String.eqb (BridgeName cfg) "") && negb (String.eqb (BridgeName cfg) "none") then
    do_sys (ApplyBridge (BridgeName cfg) (BridgeAddress cfg) (BridgeMtu cfg)) eq_refl
  else mret ().

(** ** The arguments of the daemon *)

(** [GetValue]: what follows an equals sign, or the next argument. *)
Definition GetValue (arg : string) (rest : list string) : string :=
  match SplitN arg "=" 2 with
  | [_; v] => v
  | _ => default "" (head rest)
  end.

Definition set_BridgeAddress (v : string) (c : Config) : Config :=
  {| Fork := Fork c; PidOne_ := PidOne_ c; CommandName := CommandName c; Nameservers := Nameservers c;
     BridgeName := BridgeName c; BridgeAddress := v; BridgeMtu := BridgeMtu c; LogFile := LogFile c;
     NoFiles := NoFiles c; Environment := Environment c; DataRootDirectory := DataRootDirectory c;
     DaemonConfig := DaemonConfig c |}.

Definition set_BridgeName (v : string) (c : Config) : Config :=
  {| Fork := Fork c; PidOne_ := PidOne_ c; CommandName := CommandName c; Nameservers := Nameservers c;
     BridgeName := v; BridgeAddress := BridgeAddress c; BridgeMtu := BridgeMtu c; LogFile := LogFile c;
     NoFiles := NoFiles c; Environment := Environment c; DataRootDirectory := DataRootDirectory c;
     DaemonConfig := DaemonConfig c |}.

Definition set_DaemonConfig (v : string) (c : Config) : Config :=
  {| Fork := Fork c; PidOne_ := PidOne_ c; CommandName := CommandName c; Nameservers := Nameservers c;
     BridgeName := BridgeName c; BridgeAddress := BridgeAddress c; BridgeMtu := BridgeMtu c;
     LogFile := LogFile c; NoFiles := NoFiles c; Environment := Environment c;
     DataRootDirectory := DataRootDirectory c; DaemonConfig := v |}.

Definition set_BridgeMtu (v : Z) (c : Config) : Config :=
  {| Fork := Fork c; PidOne_ := PidOne_ c; CommandName := CommandName c; Nameservers := Nameservers c;
     BridgeName := BridgeName c; BridgeAddress := BridgeAddress c; BridgeMtu := v; LogFile := LogFile c;
     NoFiles := NoFiles c; Environment := Environment c; DataRootDirectory := DataRootDirectory c;
     DaemonConfig := DaemonConfig c |}.

Definition set_DataRootDirectory (v : string) (c : Config) : Config :=
  {| Fork := Fork c; PidOne_ := PidOne_ c; CommandName := CommandName c; Nameservers := Nameservers c;
     BridgeName := BridgeName c; BridgeAddress := BridgeAddress c; BridgeMtu := BridgeMtu c;
     LogFile := LogFile c; NoFiles := NoFiles c; Environment := Environment c; DataRootDirectory := v;
     DaemonConfig := DaemonConfig c |}.

(** One turn of the first loop. The MTU is taken from [Atoi] when that fails. *)
Definition parse_arg (c : Config) (arg : string) (rest : list string) : Config :=
  let value := GetValue arg rest in
  if HasPrefix arg "--bip" then set_BridgeAddress value c
  else if HasPrefix arg "--fixed-cidr" then set_BridgeAddress value c
  else if HasPrefix arg "-b" || HasPrefix arg "--bridge" then set_BridgeName value c
  else if HasPrefix arg "--config-file" then set_DaemonConfig value c
  else if HasPrefix arg "--mtu" then
    match Atoi value with
    | (mtu, true) => set_BridgeMtu mtu c
    | (_, false) => c
    end
  else if HasPrefix arg "--data-root" then set_DataRootDirectory value c
  else c.

Fixpoint parse_args (c : Config) (args : list string) : Config :=
  match args with
  | [] => c
  | arg :: args => parse_args (parse_arg c arg args) args
  end.

(** The second loop. *)
Fixpoint drop_bip (args : list string) (skip : bool) : list string :=
  match args with
  | [] => []
  | arg :: args =>
      if skip then drop_bip args false
      else if String.eqb arg "--bip" then drop_bip args true
      else if HasPrefix arg "--bip=" then drop_bip args false
      else arg :: drop_bip args false
  end.

Definition ParseConfig (config : Config) (args : list string) : Config * list string :=
  let config := parse_args config args in
  (config,
   if negb (String.eqb (BridgeName config) "") && negb (String.eqb (BridgeAddress config) "")
   then drop_bip args false else args).

(** ** Sockets, logs and binaries *)

Definition touchSocket (path : string) : os () :=
  x ← sys (Unlink path);
  _ ← (if ok x || not_exist x then mret () else expect x);
  do_sys (WriteFile path "" 448) eq_refl.

(** Whether a socket was touched. *)
Fixpoint touch_loop (args : list string) (touched : bool) : os bool :=
  match args with
  | [] => mret touched
  | arg :: args =>
      if HasPrefix arg "-H" then
        let val := GetValue arg args in
        if HasPrefix val "unix://" then
          _ ← touchSocket (TrimPrefix val "unix://");
          touch_loop args true
        else touch_loop args touched
      else touch_loop args touched
  end.

Definition touchSockets (args : list string) : os () :=
  touched ← touch_loop args false;
  if touched : bool then mret () else touchSocket "/var/run/docker.sock".

Definition createDaemonConfig (config : Config) : os () :=
  if String.eqb (DaemonConfig config) "" then mret ()
  else
    x ← sys (Stat (DaemonConfig config));
    if not_exist x then
      _ ← do_sys (MkdirAll (Dir (DaemonConfig config)) 493) eq_refl;
      do_sys (WriteFile (DaemonConfig config) "{}" 384) eq_refl
    else mret ().

(** Files too short to be JSON. *)
Definition cleanup_file (file : string) : os () :=
  x ← sys (Stat file);
  match x with
  | AOk stat => if (fi_size stat <? 2)%Z then try_sys (Remove file) eq_refl else mret ()
  | _ => mret ()
  end.

Definition cleanupFiles (dataRootDirectory : string) : os () :=
  each cleanup_file ["/etc/docker/key.json"; "/etc/docker/daemon.json"; "/etc/docker/system-daemon.json";
                     path_Join [dataRootDirectory; "image/overlay/repositories.json"]].

Definition expand (bin : string) : os string :=
  x ← sys (LookPath bin);
  mret (match x with AOk expanded => expanded | _ => bin end).

Definition setupBin (bin : string) : os () :=
  x ← sys (LookPath bin);
  match x with
  | AOk _ => mret ()
  | _ =>
      y ← sys (LookPath (bin +:+ distSuffix));
      match y with
      | AOk expanded =>
          if (String.length expanded <? String.length distSuffix)%nat then lift (Panic "slice bounds out of range")
          else CreateSymlink expanded (firstn_s (String.length expanded - String.length distSuffix) expanded)
      | _ => mret ()
      end
  end.

Definition setupLogging (config : Config) : os () :=
  if String.eqb (LogFile config) "" then mret ()
  else _ ← createDirs [Dir (LogFile config)]; do_sys (LogTo (LogFile config)) eq_refl.

Definition setUlimit (cfg : Config) : os () :=
  _ ← do_sys Getrlimit eq_refl;
  let max := if (NoFiles cfg =? 0)%Z then 1000000%Z else NoFiles cfg in
  do_sys (Setrlimit max max) eq_refl.

(** ** Launching *)

Section Launch.
(** The YAML decoder of the command line, and a bound of the depth of /usr/etc/docker. *)
Context (Unmarshal : string → option val) (fuel : nat).

(** The parameter [root], which must be a text. *)
Definition root_device : os string :=
  x ← sys (ReadFile "/proc/cmdline");
  match GetCmdline Unmarshal (match x with AOk s => Some s | _ => None end) "root" with
  | VScalar (SStr rootDevice) => mret rootDevice
  | _ => lift (Panic "interface conversion")
  end.

Definition createLayout (config : Config) : os () :=
  _ ← createDirs ["/tmp"; "/root/.ssh"; "/var"; "/usr/lib"];
  let dataRootDirectory := if String.eqb (DataRootDirectory config) "" then "/var/lib/docker"
                           else DataRootDirectory config in
  _ ← createDirs [dataRootDirectory];
  _ ← createDaemonConfig config;
  _ ← cleanupFiles dataRootDirectory;
  let symlinks := [("usr/lib", "/lib"); ("usr/sbin", "/sbin"); ("../run", "/var/run")] in
  rootDevice ← root_device;
  root ← (if String.eqb rootDevice "" then mret []
          else x ← sys (Stat "/dev/root");
               mret (if not_exist x then [(rootDevice, "/dev/root")] else []));
  CreateSymlinks (symlinks ++ root)%list.

Definition firstPrepare : os () :=
  _ ← try_sys (Setenv "PATH" "/sbin:/usr/sbin:/usr/bin") eq_refl;
  _ ← defaultFiles ["/etc/ssl/certs/ca-certificates.crt"; "/etc/passwd"; "/etc/group"];
  _ ← defaultFolders fuel ["/etc/docker"];
  _ ← createPasswd;
  createGroup.

Definition PrepareFs (config : Config) : os () :=
  _ ← createMounts mounts;
  _ ← mountCgroupV2;
  _ ← createLayout config;
  firstPrepare.

Definition secondPrepare (config : Config) (docker : string) (args : list string) : os () :=
  _ ← setupNetworking config;
  _ ← touchSockets args;
  _ ← setupLogging config;
  _ ← each setupBin [docker; iptables; modprobe];
  _ ← setUlimit config;
  try_sys (WriteFile "/proc/sys/net/ipv4/ip_forward" "1" 429) eq_refl.

Definition docker_args (args : list string) : list string :=
  match args with "docker" :: args => args | _ => args end.

Definition execDocker (config : Config) (docker cmd : string) (args : list string) : os () :=
  let args := docker_args args in
  env ← sys Environ;
  let env := (env ++ Environment config)%list in
  if Fork config then
    _ ← do_sys (OS.Start docker (docker :: args) env) eq_refl;
    if PidOne_ config then try_sys PidOne eq_refl else mret ()
  else
    path ← expand docker;
    do_sys (Exec path (cmd :: args) env) eq_refl.

Definition command_name (config : Config) (docker : string) : string :=
  if String.eqb (CommandName config) "" then Base docker else CommandName config.

Definition daemon_args (cmd : string) (args : list string) : list string :=
  match args with
  | "daemon" :: (_ :: _) as rest => if String.eqb cmd "dockerd" then rest else args
  | _ => args
  end.

Definition runOrExec (config : Config) (docker : string) (args : list string) : os () :=
  _ ← secondPrepare config docker args;
  let cmd := command_name config docker in
  execDocker config docker cmd (daemon_args cmd args).

Definition LaunchDocker (config : Config) (docker : string) (args : list string) : os () :=
  _ ← PrepareFs config;
  runOrExec config docker args.

(** [Main], with the environment and the arguments of the process; a message that ends the process is an error. *)
Definition reaping (Getenv : string → string) (config : Config) : Config :=
  if String.eqb (Getenv "DOCKER_LAUNCH_REAP") "true" then
    {| Fork := true; PidOne_ := true; CommandName := CommandName config; Nameservers := Nameservers config;
       BridgeName := BridgeName config; BridgeAddress := BridgeAddress config; BridgeMtu := BridgeMtu config;
       LogFile := LogFile config; NoFiles := NoFiles config; Environment := Environment config;
       DataRootDirectory := DataRootDirectory config; DaemonConfig := DaemonConfig config |}
  else config.

Definition empty_config : Config :=
  {| Fork := false; PidOne_ := false; CommandName := ""; Nameservers := []; BridgeName := ""; BridgeAddress := "";
     BridgeMtu := 0; LogFile := ""; NoFiles := 0; Environment := []; DataRootDirectory := ""; DaemonConfig := "" |}.

Definition Main (Getenv : string → string) (argv : list string) : os () :=
  match argv with
  | _ :: docker :: args =>
      let '(config, args) := ParseConfig empty_config args in
      LaunchDocker (reaping Getenv config) docker args
  | _ => Done (Err ("Usage Example: " +:+ default "" (head argv) +:+ " /usr/bin/docker -d -D"))
  end.
End Launch.

(** ** The cgroup hierarchy *)

Lemma only_createDirs (P : os_call → Prop) dirs :
  (∀ p, P (Stat p)) → (∀ p m, P (MkdirAll p m)) → only P (createDirs dirs).
Proof. intros HS HM. unfold createDirs, createDir. os_calls ltac:(first [apply HS|apply HM]). Qed.

Lemma only_enableCgroupV2Controllers (P : os_call → Prop) :
  (∀ p, P (ReadFile p)) → (∀ p d m, P (WriteFile p d m)) → only P enableCgroupV2Controllers.
Proof.
  intros HR HW. unfold enableCgroupV2Controllers, enable_controller. os_calls ltac:(first [apply HR|apply HW]).
Qed.

Lemma only_createMount (P : os_call → Prop) m :
  existsb (String.eqb "bind") (Split (m_options m) ",") = false → m_type m ≠ "auto" → m_type m ≠ "" →
  (∀ c, mount_aid c → P c) → P (LibMount (m_device m) (m_target m) (m_type m) (m_options m)) →
  only P (createMounts [m]).
Proof. intros. apply only_bind; [by apply only_Mount|done]. Qed.

Definition mount_cgroupV2 : os_call := LibMount cgroupV2Fs cgroupRoot cgroupV2Fs (m_options cgroupV2Mount).

(** The hierarchy is to be seen on /sys/fs/cgroup once it is mounted there. *)
Definition uncovered (w : os_log) : Prop :=
  ∃ ms, ev GetMounts (AOk ms) ∈ w ∧ mount_type cgroupRoot ms ≠ cgroupV2Fs ∧
        (mount_type cgroupRoot ms = "" ∨ ev (LibUnmount cgroupRoot) (AOk ()) ∈ w).

Lemma uncovered_monotone : monotone uncovered.
Proof.
  intros w w' Hw (ms & H & Ht & Hu). exists ms. split_and!; [by eapply elem_of_prefix|done|].
  destruct Hu as [Hu|Hu]; [by left|right; by eapply elem_of_prefix].
Qed.

Definition mounts_hierarchy (w : os_log) (e : os_exchange) : Prop :=
  match projT1 e with
  | LibMount _ _ _ _ as c => c = mount_cgroupV2 ∧ uncovered w
  | _ => True
  end.

Lemma mountCgroupV2_spec w : ok_spec mounts_hierarchy mountCgroupV2 (λ _ _, True) w.
Proof.
  assert (∀ w, uncovered w → ok_spec mounts_hierarchy (createMounts [cgroupV2Mount]) (λ _ _, True) w) as Hm.
  { intros w0 Hw0. apply ok_only_from, only_createMount; [done..| |].
    - intros [] H w' x Hw'; try destruct H; done.
    - intros w' x Hw'. split; [done|]. by eapply uncovered_monotone. }
  unfold mountCgroupV2. eapply ok_bind; [by apply ok_only, only_createDirs|]. intros _ w1 Hw1 _.
  eapply ok_bind; [by apply ok_GetMountFsType|]. intros t w2 Hw2 (ms & Hms & ->).
  eapply ok_bind; [|intros _ w3 _ _; by apply ok_only, only_enableCgroupV2Controllers].
  destruct (String.eqb_spec (mount_type cgroupRoot ms) cgroupV2Fs) as [E|E]; [by apply ok_only|].
  destruct (String.eqb_spec (mount_type cgroupRoot ms) "") as [E'|E'].
  { apply Hm. exists ms. auto. }
  eapply ok_bind; [by apply ok_do_sys|]. intros [] w3 Hw3 (x & Hx & Hs). cbn in Hx. subst x.
  apply Hm. exists ms. split_and!; [by eapply elem_of_prefix|done|]. right. by eapply since_elem.
Qed.

(** Why it can return without an error. *)
Lemma mountCgroupV2_done l :
  behaves mountCgroupV2 l (Ok ()) →
  (∃ ms, ev GetMounts (AOk ms) ∈ l ∧ mount_type cgroupRoot ms = cgroupV2Fs) ∨
  ev mount_cgroupV2 (AOk ()) ∈ l ∨ no_proc l.
Proof.
  assert (∀ l, behaves (createMounts [cgroupV2Mount]) l (Ok ()) → ev mount_cgroupV2 (AOk ()) ∈ l ∨ no_proc l) as Hm.
  { intros l0 (l1 & l2 & [] & -> & H1 & [-> _])%behaves_bind_ok. rewrite app_nil_r. by apply Mount_ok. }
  intros (l1 & l2 & [] & -> & _ & (l3 & l4 & t & -> & Ht & (l5 & l6 & [] & -> & H & _)%behaves_bind_ok)%behaves_bind_ok)%behaves_bind_ok.
  assert (∃ ms, l3 = [ev GetMounts (AOk ms)] ∧ t = mount_type cgroupRoot ms) as (ms & -> & ->).
  { unfold GetMountFsType in Ht. inv_behaves Ht. by eexists. }
  destruct (String.eqb_spec (mount_type cgroupRoot ms) cgroupV2Fs) as [E|E].
  { left. exists ms. split; [|done]. set_solver. }
  right. assert (∃ k1 k2, l5 = (k1 ++ k2)%list ∧ (ev mount_cgroupV2 (AOk ()) ∈ k2 ∨ no_proc k2)) as (k1 & k2 & -> & Hk).
  { destruct (String.eqb (mount_type cgroupRoot ms) ""); [exists [], l5; auto|].
    apply behaves_bind_ok in H as (k1 & k2 & [] & -> & _ & H). exists k1, k2. auto. }
  destruct Hk as [Hk|Hk]; [left; set_solver|right]. eapply no_proc_subseteq; [|exact Hk]. set_solver.
Qed.

(** The cgroup hierarchy of version 2 is the only file system that [mountCgroupV2]
    mounts, on /sys/fs/cgroup, and never over another one: before it, the list of the
    mounts showed nothing there, or what it showed was unmounted. When the function returns
    without an error, the hierarchy was there, or was mounted, or /proc could not be. *)
Theorem mountCgroupV2_uncovers l r :
  behaves mountCgroupV2 l r →
  (∀ i d t ty o x, l !! i = Some (ev (LibMount d t ty o) x) →
     LibMount d t ty o = mount_cgroupV2 ∧ uncovered (take i l)) ∧
  (r = Ok () →
     (∃ ms, ev GetMounts (AOk ms) ∈ l ∧ mount_type cgroupRoot ms = cgroupV2Fs) ∨
     ev mount_cgroupV2 (AOk ()) ∈ l ∨ no_proc l).
Proof.
  intros H. split; [|intros ->; by apply mountCgroupV2_done].
  intros i d t ty o x Hi. destruct (spec_behaves _ _ _ _ _ [] H (mountCgroupV2_spec [])) as [_ Hl].
  exact (Hl i _ Hi).
Qed.

(** ** What is already there is kept *)

(** A file is only created where none was. *)
Definition creates_new (w : os_log) (e : os_exchange) : Prop :=
  match projT1 e with
  | Create p | Symlink _ p | CopyContent _ p => ∃ x, ev (Lstat p) x ∈ w ∧ ok x = false
  | WriteFile p _ _ => ∃ x, ev (Stat p) x ∈ w ∧ ok x = false
  | WriteFileAtomic _ _ _ | OpenCreate _ _ | CopyWithTar _ _ | Remove _ | RemoveAll _ | Rename _ _ | Unlink _ => False
  | _ => True
  end.

Lemma CopyFile_spec src folder name w : ok_spec creates_new (CopyFile src folder name) (λ _ _, True) w.
Proof.
  unfold CopyFile, CopyFileOverwrite, sys. ok_call; [done|]. intros x w1 Hw1 _.
  destruct (not_exist x); [by apply ok_only|]. cbn iota.
  eapply (ok_bind _ _ _ (λ b w, b = false → ∃ y, ev (Lstat (path_Join [folder; name])) y ∈ w ∧ ok y = false)).
  - ok_call; [done|]. intros y w2 Hw2 Hy. apply ok_done.
    + intros b w3 w4 Hw H Hb. destruct (H Hb) as (z & Hz & Hok). exists z. split; [by eapply elem_of_prefix|done].
    + intros b [= <-] Hb. exists y. split; [by eapply since_elem|done].
  - intros [] w2 Hw2 Hnew; [by apply ok_only|]. destruct (Hnew eq_refl) as (y & Hy & Hok).
    apply ok_only_from. assert (∀ w', w2 `prefix_of` w' → ∃ y, ev (Lstat (path_Join [folder; name])) y ∈ w' ∧ ok y = false) as Hl.
    { intros w' Hw'. exists y. split; [by eapply elem_of_prefix|done]. }
    apply only_bind; [by apply only_createDirs|]. intros _.
    os_calls ltac:(first [done | by intros w' z Hw'; apply Hl]).
Qed.

Lemma copyDefaultFolder_spec fuel folder w : ok_spec creates_new (copyDefaultFolder fuel folder) (λ _ _, True) w.
Proof.
  revert folder w. induction fuel as [|fuel IH]; intros folder w; cbn [copyDefaultFolder]; [by apply ok_only|].
  unfold sys. ok_call; [done|]. intros x w1 Hw1 _. apply ok_each. intros [name []] w2 _ _; [apply IH|apply CopyFile_spec].
Qed.

Lemma tryCreateFile_spec name content w : ok_spec creates_new (tryCreateFile name content) (λ _ _, True) w.
Proof.
  unfold tryCreateFile, sys. ok_call; [done|]. intros x w1 Hw1 Hx. destruct (ok x) eqn:E; [by apply ok_only|].
  apply ok_only_from, only_bind; [by apply only_createDirs|]. intros _. apply only_do_sys.
  intros w2 z Hw2. exists x. split; [|done]. eapply elem_of_prefix; [by eapply since_elem|done].
Qed.

Lemma firstPrepare_spec fuel w : ok_spec creates_new (firstPrepare fuel) (λ _ _, True) w.
Proof.
  unfold firstPrepare. eapply ok_bind; [by apply ok_only, only_try_sys|]. intros _ w1 _ _.
  eapply ok_bind; [apply ok_each; intros; apply CopyFile_spec|]. intros _ w2 _ _.
  eapply ok_bind; [apply ok_each; intros; apply copyDefaultFolder_spec|]. intros _ w3 _ _.
  eapply ok_bind; [apply tryCreateFile_spec|]. intros _ w4 _ _. apply tryCreateFile_spec.
Qed.

(** The defaults that [firstPrepare] puts into /etc never replace what is there: a file
    or a link is only created after a look at its path did not find any, and nothing is removed
    or renamed. *)
Theorem firstPrepare_keeps fuel l r :
  behaves (firstPrepare fuel) l r → ∀ i e, l !! i = Some e → creates_new (take i l) e.
Proof. intros H. exact (proj2 (spec_behaves _ _ _ _ _ [] H (firstPrepare_spec fuel []))). Qed.

(** ** Launching docker *)

Definition launches (c : os_call) : bool := match c with OS.Start _ _ _ | Exec _ _ _ => true | _ => false end.
Definition no_launch (c : os_call) : Prop := launches c = false.

(** Calls that start no process, leave the root and delete no directory. *)
Definition harmless (c : os_call) : Prop :=
  match c with
  | OS.Start _ _ _ | Exec _ _ _ | Chroot _ | RemoveAll _ => False
  | _ => True
  end.

Lemma harmless_no_launch c : harmless c → no_launch c.
Proof. by destruct c. Qed.


Lemma createMounts_harmless ms : only harmless (createMounts ms).
Proof.
  unfold createMounts, Mount, mountProc, lift. os_calls done.
Qed.

Lemma mountCgroupV2_harmless : only harmless mountCgroupV2.
Proof.
  unfold mountCgroupV2, GetMountFsType, Unmount.
  apply only_bind; [by apply only_createDirs|]. intros _. apply only_bind; [os_calls done|]. intros t.
  apply only_bind; [|intros _; by apply only_enableCgroupV2Controllers].
  case_match; [done|]. case_match; [apply createMounts_harmless|].
  apply only_bind; [by apply only_do_sys|]. intros _. apply createMounts_harmless.
Qed.

Lemma createLayout_harmless Unmarshal config : only harmless (createLayout Unmarshal config).
Proof.
  unfold createLayout, createDaemonConfig, cleanupFiles, cleanup_file, root_device, CreateSymlinks, CreateSymlink.
  repeat (apply only_bind; [first [by apply only_createDirs | os_calls done]|intros ?]). os_calls done.
Qed.

Lemma CopyFile_harmless src folder name : only harmless (CopyFile src folder name).
Proof.
  unfold CopyFile, CopyFileOverwrite. repeat (os_calls done; try (by apply only_createDirs)).
Qed.

Lemma copyDefaultFolder_harmless fuel folder : only harmless (copyDefaultFolder fuel folder).
Proof.
  revert folder. induction fuel as [|fuel IH]; intros folder; cbn [copyDefaultFolder]; [done|].
  os_calls ltac:(first [apply IH|apply CopyFile_harmless|done]); first [apply IH|apply CopyFile_harmless].
Qed.

Lemma firstPrepare_harmless fuel : only harmless (firstPrepare fuel).
Proof.
  unfold firstPrepare, defaultFiles, defaultFolders, createPasswd, createGroup, tryCreateFile.
  apply only_bind; [by apply only_try_sys|]. intros _.
  apply only_bind; [apply only_each; intros; apply CopyFile_harmless|]. intros _.
  apply only_bind; [apply only_each; intros; apply copyDefaultFolder_harmless|]. intros _.
  apply only_bind; [|intros _]; (os_calls done; try by apply only_createDirs).
Qed.

Lemma PrepareFs_harmless Unmarshal fuel config : only harmless (PrepareFs Unmarshal fuel config).
Proof.
  unfold PrepareFs. apply only_bind; [apply createMounts_harmless|]. intros _.
  apply only_bind; [apply mountCgroupV2_harmless|]. intros _.
  apply only_bind; [apply createLayout_harmless|]. intros _. apply firstPrepare_harmless.
Qed.

Lemma touch_loop_harmless args touched : only harmless (touch_loop args touched).
Proof.
  revert touched. induction args as [|arg args IH]; intros touched; cbn [touch_loop]; [done|].
  case_match; [|done]. case_match; [|done]. apply only_bind; [unfold touchSocket; os_calls done|]. done.
Qed.

Lemma secondPrepare_harmless config docker args : only harmless (secondPrepare config docker args).
Proof.
  unfold secondPrepare. apply only_bind; [|intros _; apply only_bind; [|intros _; apply only_bind; [|intros _]]].
  - unfold setupNetworking, tryCreateFile. os_calls done; try by apply only_createDirs.
  - unfold touchSockets. apply only_bind; [apply touch_loop_harmless|]. intros []; [done|].
    unfold touchSocket. os_calls done.
  - unfold setupLogging. os_calls done; try by apply only_createDirs.
  - unfold setupBin, setUlimit, CreateSymlink. os_calls done.
Qed.

Lemma PrepareFs_quiet Unmarshal fuel config : only no_launch (PrepareFs Unmarshal fuel config).
Proof. eapply only_mono; [apply harmless_no_launch|apply PrepareFs_harmless]. Qed.

Lemma secondPrepare_quiet config docker args : only no_launch (secondPrepare config docker args).
Proof. eapply only_mono; [apply harmless_no_launch|apply secondPrepare_harmless]. Qed.

Definition max_files (config : Config) : Z := if (NoFiles config =? 0)%Z then 1000000%Z else NoFiles config.

(** What is started. *)
Definition launch_call (config : Config) (docker path : string) (args env : list string) : os_call :=
  let cmd := command_name config docker in
  let args := docker_args (daemon_args cmd args) in
  let env := (env ++ Environment config)%list in
  if Fork config then OS.Start docker (docker :: args) env else Exec path (cmd :: args) env.

Lemma secondPrepare_limit config docker args l :
  behaves (secondPrepare config docker args) l (Ok ()) →
  ev (Setrlimit (max_files config) (max_files config)) (AOk ()) ∈ l.
Proof.
  unfold secondPrepare.
  intros (l1 & l2 & [] & -> & _ & (l3 & l4 & [] & -> & _ & (l5 & l6 & [] & -> & _ &
    (l7 & l8 & [] & -> & _ & (l9 & l10 & [] & -> & H & _)%behaves_bind_ok)%behaves_bind_ok)%behaves_bind_ok)
    %behaves_bind_ok)%behaves_bind_ok.
  unfold setUlimit in H. inv_behaves H.
  rewrite !elem_of_app. do 4 right. left. in_log.
Qed.

(** Whether a start succeeded. *)
Definition started (e : os_exchange) : bool :=
  match e with
  | existT (OS.Start _ _ _) x => ok x
  | existT (Exec _ _ _) x => ok x
  | _ => false
  end.

Lemma execDocker_launches config docker args l r :
  behaves (execDocker config docker (command_name config docker) (daemon_args (command_name config docker) args)) l r →
  ∃ l1 path env e l2, l = (ev Environ env :: l1 ++ e :: l2)%list ∧
    Forall (λ e : os_exchange, no_launch (projT1 e)) l1 ∧
    projT1 e = launch_call config docker path args env ∧
    (l2 = [] ∨ Fork config = true ∧ PidOne_ config = true ∧ ∃ x, l2 = [ev PidOne x]) ∧
    (r = Ok () ↔ started e = true).
Proof.
  unfold execDocker, launch_call. intros H. destruct (Fork config) eqn:E.
  - inv_behaves H; (exists [], "", x0; do 2 eexists; split; [reflexivity|]; split_and!; [constructor|reflexivity| |]);
      first [by left | right; split_and!; [done..|by eexists] | by split].
  - unfold expand in H. inv_behaves H;
      (eexists [_], _, x0; do 2 eexists; split; [reflexivity|]; split_and!; [by constructor|reflexivity|by left|]);
      try destruct a; by split.
Qed.

(** [LaunchDocker] starts one process at most, after everything else: either its calls
    start nothing, and it ends with an error, or they end with the only start (and the
    reaping of children, when the daemon is forked): that of the daemon, with the arguments
    and the environment that were asked for, when the limit of open files is set. It
    succeeds only when the process could be started. *)
Theorem LaunchDocker_starts_last Unmarshal fuel config docker args l r :
  behaves (LaunchDocker Unmarshal fuel config docker args) l r →
  (Forall (λ e : os_exchange, no_launch (projT1 e)) l ∧ r ≠ Ok ()) ∨
  ∃ l1 path env e l2, l = (l1 ++ e :: l2)%list ∧
    Forall (λ e : os_exchange, no_launch (projT1 e)) l1 ∧
    ev Environ env ∈ l1 ∧
    ev (Setrlimit (max_files config) (max_files config)) (AOk ()) ∈ l1 ∧
    projT1 e = launch_call config docker path args env ∧
    (l2 = [] ∨ Fork config = true ∧ PidOne_ config = true ∧ ∃ x, l2 = [ev PidOne x]) ∧
    (r = Ok () ↔ started e = true).
Proof.
  unfold LaunchDocker, runOrExec.
  intros [(l1 & l2 & [] & -> & H1 & H2)|[(e & H1 & ->)|(e & H1 & ->)]]%behaves_bind; cycle 1;
    [left; split; [by eapply only_behaves, PrepareFs_quiet|done]..|].
  apply (only_behaves no_launch) in H1; [|apply PrepareFs_quiet].
  apply behaves_bind in H2 as [(l3 & l4 & [] & -> & H3 & H4)|[(e & H3 & ->)|(e & H3 & ->)]]; cycle 1;
    [left; split; [apply Forall_app; split; [done|]; by eapply only_behaves, secondPrepare_quiet|done]..|].
  pose proof (secondPrepare_limit _ _ _ _ H3) as Hlim.
  apply (only_behaves no_launch) in H3; [|apply secondPrepare_quiet].
  destruct (execDocker_launches _ _ _ _ _ H4) as (l5 & path & env & e & l6 & -> & H5 & He & Hl6 & Hr).
  right. exists (l1 ++ l3 ++ ev Environ env :: l5)%list, path, env, e, l6. split_and!; try done.
  - by rewrite <-!app_assoc.
  - rewrite !Forall_app. split_and!; [done..|]. by constructor.
  - set_solver.
  - set_solver.
Qed.

(** ** The arguments of the daemon *)

Lemma drop_bip_sublist args skip : sublist (drop_bip args skip) args.
Proof.
  revert skip. induction args as [|arg args IH]; intros skip; cbn [drop_bip]; [constructor|].
  repeat case_match; first [by apply sublist_cons | by apply sublist_skip].
Qed.

Definition is_bip (arg : string) : bool := String.eqb arg "--bip" || HasPrefix arg "--bip=".

Lemma drop_bip_none args skip : Forall (λ a, is_bip a = false) (drop_bip args skip).
Proof.
  revert skip. induction args as [|arg args IH]; intros skip; cbn [drop_bip]; [constructor|].
  destruct skip; [done|]. destruct (String.eqb arg "--bip") eqn:E; [done|].
  destruct (HasPrefix arg "--bip=") eqn:E'; [done|]. constructor; [|done]. unfold is_bip. by rewrite E, E'.
Qed.

Lemma drop_bip_id args : Forall (λ a, is_bip a = false) args → drop_bip args false = args.
Proof.
  induction 1 as [|arg args [H1 H2]%orb_false_iff _ IH]; cbn [drop_bip]; [done|]. by rewrite H1, H2, IH.
Qed.

(** The arguments the daemon gets are those of the command line, in their order, without
    --bip exactly when the bridge has a name and an address: then no --bip is left, and when
    there was none, nothing is dropped. *)
Theorem ParseConfig_bip config args :
  let '(config', args') := ParseConfig config args in
  sublist args' args ∧
  (BridgeName config' ≠ "" → BridgeAddress config' ≠ "" → Forall (λ a, is_bip a = false) args') ∧
  (BridgeName config' = "" ∨ BridgeAddress config' = "" ∨ Forall (λ a, is_bip a = false) args → args' = args).
Proof.
  unfold ParseConfig. set (c := parse_args config args).
  destruct (String.eqb_spec (BridgeName c) ""), (String.eqb_spec (BridgeAddress c) ""); cbn [negb andb];
    (split_and!; [first [done|apply drop_bip_sublist]|intros; first [done|apply drop_bip_none]|intros; try done]).
  destruct H as [H|[H|H]]; [done..|by apply drop_bip_id].
Qed.

Lemma Atoi_error s v : Atoi s = (v, true) → v = 0%Z ∨ v = max_int ∨ v = min_int.
Proof. unfold Atoi. repeat (case_match; simplify_eq/=); intros [= <-]; auto. Qed.

(** An MTU on the command line is never taken: whatever the arguments, the MTU of the
    bridge stays as it was, or becomes what [Atoi] gives for a text that is no number. *)
Theorem ParseConfig_mtu config args :
  BridgeMtu (ParseConfig config args).1 ∈ [BridgeMtu config; 0%Z; max_int; min_int].
Proof.
  unfold ParseConfig. cbn [fst].
  assert (∀ v, v ∈ [BridgeMtu config; 0%Z; max_int; min_int] →
    ∀ c, BridgeMtu c = v → BridgeMtu (parse_args c args) ∈ [BridgeMtu config; 0%Z; max_int; min_int]) as H.
  { induction args as [|arg args IH]; intros v Hv c Hc; cbn [parse_args]; [by subst|].
    unfold parse_arg. repeat case_match; try (eapply IH; [|reflexivity]; cbn; by subst).
    eapply IH; [|reflexivity]. cbn. edestruct Atoi_error as [->|[->| ->]]; [eassumption|set_solver..]. }
  eapply H; [|reflexivity]. set_solver.
Qed.

Lemma parse_args_Fork config args : Fork (parse_args config args) = Fork config.
Proof.
  revert config. induction args as [|arg args IH]; intros config; cbn [parse_args]; [done|].
  rewrite IH. unfold parse_arg. by repeat case_match.
Qed.

(** Without the variable the daemon takes the place of the launcher. *)
Lemma Main_forks Getenv args :
  Fork (reaping Getenv (ParseConfig empty_config args).1) = bool_decide (Getenv "DOCKER_LAUNCH_REAP" = "true").
Proof.
  unfold reaping, ParseConfig. cbn [fst].
  destruct (String.eqb_spec (Getenv "DOCKER_LAUNCH_REAP") "true"); [by rewrite bool_decide_true|].
  rewrite bool_decide_false by done. apply (parse_args_Fork empty_config).
Qed.

(** ** Examples *)

(** A tmpfs is mounted on /sys/fs/cgroup. *)
Definition tmpfs_machine (c : os_call) (w : ()) : os_answer c * () :=
  (match c return os_answer c with
   | GetMounts => AOk [("/proc", "proc"); (cgroupRoot, "tmpfs")]
   | c => plain c
   end, w).

Lemma mountCgroupV2_uncovers_witness :
  uncovered (take 5 (exchanges tmpfs_machine mountCgroupV2 ()).1) ∧
  (exchanges tmpfs_machine mountCgroupV2 ()).2 = Ok ().
Proof.
  split; [|vm_compute; reflexivity].
  refine (proj2 (proj1 (mountCgroupV2_uncovers _ _ (exchanges_behaves tmpfs_machine mountCgroupV2 ()))
    5%nat cgroupV2Fs cgroupRoot cgroupV2Fs (m_options cgroupV2Mount) (AOk ()) _)).
  vm_compute. reflexivity.
Defined.

(** /etc/passwd is not there; its default is. *)
Definition no_passwd (c : os_call) (w : ()) : os_answer c * () :=
  (match c return os_answer c with
   | Lstat "/etc/passwd" => ANotFound "no such file"
   | Lstat _ => AOk regular_info
   | c => plain c
   end, w).

Lemma firstPrepare_keeps_witness :
  let l := (exchanges no_passwd (firstPrepare 3) ()).1 in
  ∃ e, l !! 8%nat = Some e ∧ projT1 e = Create "/etc/passwd" ∧ creates_new (take 8 l) e.
Proof.
  cbv zeta. eexists. split_and!; cycle 2;
    [eapply (firstPrepare_keeps 3 _ _ (exchanges_behaves no_passwd (firstPrepare 3) ()) 8%nat)|..];
    vm_compute; reflexivity.
Defined.

Definition some_config : Config :=
  {| Fork := true; PidOne_ := false; CommandName := ""; Nameservers := []; BridgeName := ""; BridgeAddress := "";
     BridgeMtu := 0; LogFile := ""; NoFiles := 0; Environment := ["A=b"]; DataRootDirectory := ""; DaemonConfig := "" |}.

Definition plain_machine (c : os_call) (w : ()) : os_answer c * () := (plain c, w).

Lemma LaunchDocker_starts_last_witness :
  let p := LaunchDocker (λ s, Some (VScalar (SStr s))) 3 some_config "/usr/bin/dockerd" ["daemon"; "-D"] in
  let l := (exchanges plain_machine p ()).1 in
  projT1 <$> last l = Some (OS.Start "/usr/bin/dockerd" ["/usr/bin/dockerd"; "-D"] ["A=b"]) ∧
  ∃ l1 path env e l2, l = (l1 ++ e :: l2)%list ∧ Forall (λ e : os_exchange, no_launch (projT1 e)) l1 ∧
    projT1 e = launch_call some_config "/usr/bin/dockerd" path ["daemon"; "-D"] env.
Proof.
  cbv zeta. split; [vm_compute; reflexivity|].
  destruct (LaunchDocker_starts_last _ _ _ _ _ _ _ (exchanges_behaves plain_machine
    (LaunchDocker (λ s, Some (VScalar (SStr s))) 3 some_config "/usr/bin/dockerd" ["daemon"; "-D"]) ()))
    as [[H1 H2]|(l1 & path & env & e & l2 & Hl & Hn & _ & _ & He & _)].
  - exfalso. apply H2. vm_compute. reflexivity.
  - by exists l1, path, env, e, l2.
Defined.
