(* ===== verification/InitConfig.v ===== *)
(** * The configuration of the init process ([config/types.go], [config/data_funcs.go],
    [config/docker_config.go], [pkg/init/docker])

    The fields of the configuration that the boot sequence reads, the chain of its steps, and
    the daemons it starts. The steps are programs over the calls of [OS] and over calls to
    other parts of the system. *)

From stdpp Require Import prelude gmap strings list.
From S2P Require Import Prelude GoStrings Prog RawTree Conc OS Dfs.

Local Open Scope string_scope.

(** ** Data *)

Record EngineOpts := {
  Bridge : string; BIP : string; ConfigFile : string; Containerd : string; Debug_ : option bool;
  ExecRoot : string; Group : string; DataRoot : string; Host : list string;
  InsecureRegistry : list string; LiveRestore : option bool; LogDriver : string;
  LogOpts : gmap string string; PidFile : string; RegistryMirror : string; Restart : option bool;
  StorageDriver : string; UserlandProxy : option bool;
}.

Record DockerConfig := {
  EngineOpts_ : EngineOpts;
  TLS : bool;
  TLSArgs : list string;
  ExtraArgs : list string;
  DockerEnvironment : list string;
  UserNsEnabled : bool;
  Exec_ : bool;
}.

Record NetworkConfig := {
  DHCPTimeout : Z;
  WifiNetworks : gmap string val;
  Interfaces : gmap string val;
  DNSNameservers : list string;
  HTTPProxy : string;
  HTTPSProxy : string;
  NoProxy : string;
}.

Record StateConfig := {
  Directory : string; FsType : string; Dev : string; Required : bool; Autoformat : list string;
  OemFsType : string; OemDev : string; BootFsType : string; BootDev : string;
}.

(** [Rancher] and [Bootcmd] in one record; the defaults are those of the network and of the
    log of the daemon. *)
Record CloudConfig := {
  Debug : bool; RmUsr : bool; NoSharedRoot : bool; Recovery_ : bool; HypervisorService : bool; Log : bool;
  Modules : list string;
  Datasources : list string;
  Network : NetworkConfig;
  State : StateConfig;
  SystemDocker : DockerConfig;
  BootstrapDocker : DockerConfig;
  BootstrapContainers : gmap string val;
  CloudInitServices : gmap string val;
  DefaultNameservers : list string;
  SystemDockerLogs : string;
  Bootcmd : list (list string);
}.

Definition set_State (v : StateConfig) (c : CloudConfig) : CloudConfig :=
  {| Debug := Debug c; RmUsr := RmUsr c; NoSharedRoot := NoSharedRoot c; Recovery_ := Recovery_ c;
     HypervisorService := HypervisorService c; Log := Log c; Modules := Modules c; Datasources := Datasources c;
     Network := Network c; State := v; SystemDocker := SystemDocker c; BootstrapDocker := BootstrapDocker c;
     BootstrapContainers := BootstrapContainers c; CloudInitServices := CloudInitServices c;
     DefaultNameservers := DefaultNameservers c; SystemDockerLogs := SystemDockerLogs c; Bootcmd := Bootcmd c |}.

Definition set_Modules (v : list string) (c : CloudConfig) : CloudConfig :=
  {| Debug := Debug c; RmUsr := RmUsr c; NoSharedRoot := NoSharedRoot c; Recovery_ := Recovery_ c;
     HypervisorService := HypervisorService c; Log := Log c; Modules := v; Datasources := Datasources c;
     Network := Network c; State := State c; SystemDocker := SystemDocker c; BootstrapDocker := BootstrapDocker c;
     BootstrapContainers := BootstrapContainers c; CloudInitServices := CloudInitServices c;
     DefaultNameservers := DefaultNameservers c; SystemDockerLogs := SystemDockerLogs c; Bootcmd := Bootcmd c |}.

Definition set_Datasources (v : list string) (c : CloudConfig) : CloudConfig :=
  {| Debug := Debug c; RmUsr := RmUsr c; NoSharedRoot := NoSharedRoot c; Recovery_ := Recovery_ c;
     HypervisorService := HypervisorService c; Log := Log c; Modules := Modules c; Datasources := v;
     Network := Network c; State := State c; SystemDocker := SystemDocker c; BootstrapDocker := BootstrapDocker c;
     BootstrapContainers := BootstrapContainers c; CloudInitServices := CloudInitServices c;
     DefaultNameservers := DefaultNameservers c; SystemDockerLogs := SystemDockerLogs c; Bootcmd := Bootcmd c |}.

Definition set_Network (v : NetworkConfig) (c : CloudConfig) : CloudConfig :=
  {| Debug := Debug c; RmUsr := RmUsr c; NoSharedRoot := NoSharedRoot c; Recovery_ := Recovery_ c;
     HypervisorService := HypervisorService c; Log := Log c; Modules := Modules c; Datasources := Datasources c;
     Network := v; State := State c; SystemDocker := SystemDocker c; BootstrapDocker := BootstrapDocker c;
     BootstrapContainers := BootstrapContainers c; CloudInitServices := CloudInitServices c;
     DefaultNameservers := DefaultNameservers c; SystemDockerLogs := SystemDockerLogs c; Bootcmd := Bootcmd c |}.

Definition set_DHCPTimeout (v : Z) (n : NetworkConfig) : NetworkConfig :=
  {| DHCPTimeout := v; WifiNetworks := WifiNetworks n; Interfaces := Interfaces n;
     DNSNameservers := DNSNameservers n; HTTPProxy := HTTPProxy n; HTTPSProxy := HTTPSProxy n; NoProxy := NoProxy n |}.

Definition set_WifiNetworks (v : gmap string val) (n : NetworkConfig) : NetworkConfig :=
  {| DHCPTimeout := DHCPTimeout n; WifiNetworks := v; Interfaces := Interfaces n;
     DNSNameservers := DNSNameservers n; HTTPProxy := HTTPProxy n; HTTPSProxy := HTTPSProxy n; NoProxy := NoProxy n |}.

Definition set_Dev (dev : string) (s : StateConfig) : StateConfig :=
  {| Directory := Directory s; FsType := FsType s; Dev := dev; Required := Required s; Autoformat := Autoformat s;
     OemFsType := OemFsType s; OemDev := OemDev s; BootFsType := BootFsType s; BootDev := BootDev s |}.

Definition set_Autoformat (v : list string) (s : StateConfig) : StateConfig :=
  {| Directory := Directory s; FsType := FsType s; Dev := Dev s; Required := Required s; Autoformat := v;
     OemFsType := OemFsType s; OemDev := OemDev s; BootFsType := BootFsType s; BootDev := BootDev s |}.

(** The zero values. *)
Definition no_opts : EngineOpts :=
  {| Bridge := ""; BIP := ""; ConfigFile := ""; Containerd := ""; Debug_ := None; ExecRoot := ""; Group := "";
     DataRoot := ""; Host := []; InsecureRegistry := []; LiveRestore := None; LogDriver := ""; LogOpts := ∅;
     PidFile := ""; RegistryMirror := ""; Restart := None; StorageDriver := ""; UserlandProxy := None |}.

Definition no_docker : DockerConfig :=
  {| EngineOpts_ := no_opts; TLS := false; TLSArgs := []; ExtraArgs := []; DockerEnvironment := [];
     UserNsEnabled := false; Exec_ := false |}.

Definition no_network : NetworkConfig :=
  {| DHCPTimeout := 0; WifiNetworks := ∅; Interfaces := ∅; DNSNameservers := []; HTTPProxy := ""; HTTPSProxy := "";
     NoProxy := "" |}.

Definition no_state : StateConfig :=
  {| Directory := ""; FsType := ""; Dev := ""; Required := false; Autoformat := []; OemFsType := ""; OemDev := "";
     BootFsType := ""; BootDev := "" |}.

Definition no_config : CloudConfig :=
  {| Debug := false; RmUsr := false; NoSharedRoot := false; Recovery_ := false; HypervisorService := false;
     Log := false; Modules := []; Datasources := []; Network := no_network; State := no_state;
     SystemDocker := no_docker; BootstrapDocker := no_docker; BootstrapContainers := ∅; CloudInitServices := ∅;
     DefaultNameservers := []; SystemDockerLogs := ""; Bootcmd := [] |}.

(** ** The command line of the daemon *)

Inductive opt_value := OText (s : string) | OBool (b : option bool) | OTexts (l : list string) | OMap (m : gmap string string).

(** The fields with their tags. *)
Definition opt_fields (o : EngineOpts) : list (string * opt_value) := [
  ("bridge", OText (Bridge o)); ("bip", OText (BIP o)); ("config-file", OText (ConfigFile o));
  ("containerd", OText (Containerd o)); ("debug", OBool (Debug_ o)); ("exec-root", OText (ExecRoot o));
  ("group", OText (Group o)); ("data-root", OText (DataRoot o)); ("host", OTexts (Host o));
  ("insecure-registry", OTexts (InsecureRegistry o)); ("live-restore", OBool (LiveRestore o));
  ("log-driver", OText (LogDriver o)); ("log-opt", OMap (LogOpts o)); ("pidfile", OText (PidFile o));
  ("registry-mirror", OText (RegistryMirror o)); ("restart", OBool (Restart o));
  ("storage-driver", OText (StorageDriver o)); ("userland-proxy", OBool (UserlandProxy o))].

(** What the build and the run of the process fix: the version, the decoder of the command
    line, the orders in which maps are ranged over, and a bound of the depth of
    /usr/etc/docker. *)
Class Platform := {
  Version : string;
  OsBase : string;
  Unmarshal : string → option val;
  range_opts : list (string * opt_value) → list (string * opt_value);
  range_texts : gmap string string → list (string * string);
  depth : nat;
  range_opts_perm l : range_opts l ≡ₚ l;
  range_texts_perm m : range_texts m ≡ₚ map_to_list m;
}.

Section Args.
Context `{Platform}.

Definition opt_args (tag : string) (v : opt_value) : list string :=
  match v with
  | OText s => if String.eqb s "" then [] else ["--" +:+ tag; s]
  | OBool None => []
  | OBool (Some true) => ["--" +:+ tag]
  | OBool (Some false) => ["--" +:+ tag +:+ "=false"]
  | OTexts l => l ≫= λ e, if String.eqb e "" then [] else ["--" +:+ tag; e]
  | OMap m => range_texts m ≫= λ kv, if String.eqb kv.2 "" then [] else ["--" +:+ tag; kv.1 +:+ "=" +:+ kv.2]
  end.

Definition generateEngineOptsSlice (o : EngineOpts) : list string :=
  range_opts (opt_fields o) ≫= λ f, opt_args f.1 f.2.

Definition FullArgs (d : DockerConfig) : list string :=
  (generateEngineOptsSlice (EngineOpts_ d) ++ ExtraArgs d ++ (if TLS d then TLSArgs d else []) ++
   (if UserNsEnabled d then ["--userns-remap"; "user-docker:user-docker"] else []))%list.

Definition AppendEnv (environ : list string) (d : DockerConfig) : list string := (environ ++ DockerEnvironment d)%list.

Definition zero_launch : Dfs.Config :=
  {| Fork := false; PidOne_ := false; CommandName := ""; Nameservers := []; BridgeName := ""; BridgeAddress := "";
     BridgeMtu := 0; LogFile := ""; NoFiles := 0; Environment := []; DataRootDirectory := ""; DaemonConfig := "" |}.

Definition GetLaunchConfig (cfg : CloudConfig) (dockerCfg : DockerConfig) : Dfs.Config * list string :=
  let '(c, args) := ParseConfig zero_launch (FullArgs dockerCfg) in
  ({| Fork := Fork c; PidOne_ := PidOne_ c; CommandName := CommandName c; Nameservers := DefaultNameservers cfg;
      BridgeName := BridgeName c; BridgeAddress := BridgeAddress c; BridgeMtu := BridgeMtu c;
      LogFile := if Debug cfg then LogFile c else SystemDockerLogs cfg; NoFiles := NoFiles c;
      Environment := DockerEnvironment dockerCfg; DataRootDirectory := DataRootDirectory c;
      DaemonConfig := DaemonConfig c |}, args).

Definition with_fork (fork : bool) (c : Dfs.Config) : Dfs.Config :=
  {| Fork := fork; PidOne_ := PidOne_ c; CommandName := CommandName c; Nameservers := Nameservers c;
     BridgeName := BridgeName c; BridgeAddress := BridgeAddress c; BridgeMtu := BridgeMtu c; LogFile := LogFile c;
     NoFiles := NoFiles c; Environment := Environment c; DataRootDirectory := DataRootDirectory c;
     DaemonConfig := DaemonConfig c |}.

Definition with_log (log : string) (c : Dfs.Config) : Dfs.Config :=
  {| Fork := Fork c; PidOne_ := PidOne_ c; CommandName := CommandName c; Nameservers := Nameservers c;
     BridgeName := BridgeName c; BridgeAddress := BridgeAddress c; BridgeMtu := BridgeMtu c; LogFile := log;
     NoFiles := NoFiles c; Environment := Environment c; DataRootDirectory := DataRootDirectory c;
     DaemonConfig := DaemonConfig c |}.
End Args.

(** ** Programs of the init process *)

Inductive set_value := SetText (s : string) | SetTexts (l : list string) | SetInt (n : Z)
  | SetTrees (m : gmap string val) | SetNetwork (n : NetworkConfig).

(** The services of [RunServiceSet]: those of the configuration, or the recovery console of
    the source. *)
Inductive service_set := Configured (m : gmap string val) | RecoveryConsole.

Inductive boot_call : Type :=
  | BOs (c : os_call)
  (** the configuration; it exits when it cannot be parsed *)
  | LoadConfigWithPrefix (dirPrefix : string)
  | ConfigSet (key : string) (v : set_value)
  | ConfigExport
  | SaveInitCmdline (args : string)
  (** docker and its services *)
  | RunServiceSet (name : string) (services : service_set)
  | NewSystemClient
  | ImageList
  | PreloadImages (directory : string)
  | GetProject
  | ProjectUp (noRecreate log : bool)
  | SignalDaemon
  | WaitDaemon
  (** the process and its log *)
  | Args
  | FsReady
  | AddRSyslogHook.

Definition boot_answer (c : boot_call) : Type :=
  match c with
  | BOs c => os_answer c
  | LoadConfigWithPrefix _ => option CloudConfig
  | ConfigSet _ _ | RunServiceSet _ _ | NewSystemClient | PreloadImages _ | GetProject | ProjectUp _ _ => api ()
  | Args => list string
  | _ => ()
  end.

Abbreviation boot := (prog boot_answer).

Definition ask (c : boot_call) : boot (boot_answer c) := invoke c.

Definition do_ask {A} (c : boot_call) (H : boot_answer c = api A) : boot A :=
  x ← ask c; expect (eq_rect _ (λ T, T) x _ H).

(** Programs that only use the operating system. *)
Fixpoint embed {A} (p : os A) : boot A :=
  match p with
  | Done r => Done r
  | Call c k => Call (BOs c) (λ x, embed (k x))
  end.

(** The end of the process: a panic that nothing recovers from and that runs nothing that
    was deferred. *)
Definition exit_status : string := "os.Exit".
Definition exit {A} : boot A := Done (Panic exit_status).

Fixpoint deferred {A} (d : boot ()) (p : boot A) : boot A :=
  match p with
  | Done (Panic e) => if String.eqb e exit_status then Done (Panic e) else prog_bind (ignore d) (λ _, Done (Panic e))
  | Done r => prog_bind (ignore d) (λ _, Done r)
  | Call c k => Call c (λ x, deferred d (k x))
  end.

(** [recover] *)
Fixpoint recovered (handler : boot ()) (p : boot ()) : boot () :=
  match p with
  | Done (Panic e) => if String.eqb e exit_status then Done (Panic e) else handler
  | Done r => Done r
  | Call c k => Call c (λ x, recovered handler (k x))
  end.

(** A pointer that may be nil. *)
Definition deref (cfg : option CloudConfig) : boot CloudConfig :=
  match cfg with
  | Some c => mret c
  | None => Done (Panic "nil pointer dereference")
  end.

Definition load_config (dirPrefix : string) : boot CloudConfig :=
  c ← ask (LoadConfigWithPrefix dirPrefix);
  match c with Some c => mret c | None => exit end.

Definition LoadConfig : boot CloudConfig := load_config "".

(** The variables of the packages fsmount, configfiles and b2d. *)
Record globals := {
  ShouldSwitchRoot : bool;
  ConfigFiles : gmap string string;
  boot2DockerEnvironment : bool;
}.

(** What a step returns, with the variables it leaves behind: a configuration (or nil) and
    an error. *)
Abbreviation step := (globals → option CloudConfig → boot (globals * option CloudConfig * result ())).

(** A step that leaves the variables alone. *)
Definition local_step (f : option CloudConfig → boot (option CloudConfig * result ())) : step :=
  λ g cfg, x ← f cfg; mret (g, x.1, x.2).

Definition fine {A} (c : A) : boot (A * result ()) := mret (c, Ok ()).

Fixpoint ChainCfgFuncs (fs : list (string * step)) (g : globals) (cfg : option CloudConfig) :
    boot (globals * option CloudConfig * result ()) :=
  match fs with
  | [] => mret (g, cfg, Ok ())
  | (_, f) :: fs =>
      x ← f g cfg;
      match x with
      | (g, cfg, Ok _) => ChainCfgFuncs fs g cfg
      | _ => mret x
      end
  end.

(** ** The daemon of the early services *)

Section Docker.
Context `{Platform}.

Definition SystemDockerBin : string := "/usr/bin/system-dockerd".

Definition docker_Start (cfg : CloudConfig) : boot () :=
  let '(launchConfig, args) := GetLaunchConfig cfg (BootstrapDocker cfg) in
  embed (LaunchDocker Unmarshal depth (with_log "" (with_fork true launchConfig)) SystemDockerBin args).

(** The goroutine that [Start] leaves, when [Stop] wakes it. *)
Definition docker_Stop : boot () :=
  _ ← ask SignalDaemon;
  _ ← ask WaitDaemon;
  mret ().
End Docker.
