(* ===== verification/SwitchRoot.v ===== *)
(** * Moving to the root file system of the state partition ([pkg/init/switchroot])

    The image boots from memory. When a state partition is mounted on /state, /usr is copied
    there, what is in memory is deleted to free it, and the process moves over. *)

From stdpp Require Import prelude gmap strings list.
From S2P Require Import Prelude GoStrings Prog Conc OS Dfs.

Local Open Scope string_scope.

Definition OemDir : string := "/usr/share/ros/oem".

(** Whether to go on with the copy. *)
Definition cleanupTarget (rootfs targetUsr usr usrVer tmpDir : string) : os bool :=
  x ← sys (Remove targetUsr);
  _ ← (if ok x || not_exist x then mret () else expect x);
  _ ← CreateSymlink usrVer (path_Join [rootfs; "usr"]);
  _ ← try_sys (RemoveAll tmpDir) eq_refl;
  y ← sys (Stat usr);
  mret (negb (ok y)).

(** Whether an entry of / is on the way to [rootfs]. *)
Definition spared (rootfs filename : string) : bool :=
  String.eqb filename rootfs || HasPrefix rootfs (filename +:+ "/").

Definition delete_entry (rootfs : string) (file : string * bool) : os () :=
  let filename := path_Join ["/"; file.1] in
  if spared rootfs filename then mret () else do_sys (RemoveAll filename) eq_refl.

Lemma spared_false rootfs p :
  spared rootfs p = false → p ≠ rootfs ∧ ∀ below, rootfs ≠ p +:+ "/" +:+ below.
Proof.
  unfold spared. intros [Hne Hp]%orb_false_iff. split; [by apply String.eqb_neq|].
  intros below ->. rewrite <-app_assoc_s, HasPrefix_app in Hp. done.
Qed.

Section Version.
Context (Version : string).

Definition copyMoveRoot (rootfs : string) (rmUsr : bool) : os () :=
  let usrVer := "usr-" +:+ Version in
  let usr := path_Join [rootfs; usrVer] in
  let targetUsr := path_Join [rootfs; "usr"] in
  let tmpDir := path_Join [rootfs; "tmp"] in
  _ ← (if rmUsr then try_sys (RemoveAll usr) eq_refl else mret ());
  cont ← cleanupTarget rootfs targetUsr usr usrVer tmpDir;
  if negb cont then mret ()
  else
    _ ← do_sys (MkdirAll tmpDir 493) eq_refl;
    usrVerTmp ← do_sys (TempDir tmpDir usrVer) eq_refl;
    _ ← do_sys (CopyWithTar "/usr" usrVerTmp) eq_refl;
    _ ← do_sys (Rename usrVerTmp usr) eq_refl;
    files ← do_sys (ReadDir "/") eq_refl;
    each (delete_entry rootfs) files.

Definition move_mount (rootfs i : string) : os () :=
  _ ← do_sys (MkdirAll (path_Join [rootfs; i]) 493) eq_refl;
  do_sys (SysMount i (path_Join [rootfs; i]) "" "MS_MOVE") eq_refl.

Definition bind_subdir (rootfs subdir : string) : os () :=
  let fullRootfs := path_Join [rootfs; subdir] in
  x ← sys (Stat fullRootfs);
  _ ← (if not_exist x then do_sys (MkdirAll fullRootfs 493) eq_refl else mret ());
  do_sys (SysMount fullRootfs rootfs "" "MS_BIND") eq_refl.

Definition switchRoot (rootfs subdir : string) (rmUsr : bool) : os () :=
  _ ← try_sys (SysUnmount OemDir) eq_refl;
  _ ← (if String.eqb subdir "" then mret () else bind_subdir rootfs subdir);
  _ ← each (move_mount rootfs) ["/dev"; "/sys"; "/proc"; "/run"];
  _ ← copyMoveRoot rootfs rmUsr;
  _ ← do_sys (Chdir rootfs) eq_refl;
  _ ← do_sys (SysMount rootfs "/" "" "MS_MOVE") eq_refl;
  _ ← do_sys (Chroot ".") eq_refl;
  _ ← do_sys (Chdir "/") eq_refl;
  try_sys (Unsetenv "DOCKER_RAMDISK") eq_refl.
End Version.

(** ** What is deleted, and when *)

Section Safety.
Context (Version rootfs subdir : string) (rmUsr : bool).

Definition target_usr : string := path_Join [rootfs; "usr-" +:+ Version].

(** /usr was copied to the new root, completely. *)
Definition copied (w : os_log) : Prop :=
  ∃ tmp w1 w2 w3, w = (w1 ++ ev (CopyWithTar "/usr" tmp) (AOk ()) :: w2 ++ ev (Rename tmp target_usr) (AOk ()) :: w3)%list.

Definition usr_there (w : os_log) : Prop := copied w ∨ ∃ info, ev (Stat target_usr) (AOk info) ∈ w.

Definition moved (i : string) (w : os_log) : Prop :=
  ev (SysMount i (path_Join [rootfs; i]) "" "MS_MOVE") (AOk ()) ∈ w.

Definition switch_allows (w : os_log) (e : os_exchange) : Prop :=
  match projT1 e with
  | RemoveAll p =>
      rmUsr = true ∧ p = target_usr ∨ p = path_Join [rootfs; "tmp"] ∨
      (p ≠ rootfs ∧ (∀ below, rootfs ≠ p +:+ "/" +:+ below)) ∧ (∃ name, p = path_Join ["/"; name]) ∧ copied w
  | Chroot _ =>
      (∀ i, i ∈ ["/dev"; "/sys"; "/proc"; "/run"] → moved i w) ∧ usr_there w ∧
      ev (SysMount rootfs "/" "" "MS_MOVE") (AOk ()) ∈ w
  | _ => True
  end.

Lemma copied_monotone : monotone copied.
Proof using Type.
  intros w w' [k ->] (tmp & w1 & w2 & w3 & ->). exists tmp, w1, w2, (w3 ++ k)%list.
  by rewrite <-!app_assoc; cbn; rewrite <-!app_assoc.
Qed.

Lemma usr_there_monotone : monotone usr_there.
Proof using Type.
  intros w w' Hw [H|(x & H)]; [left; by eapply copied_monotone|right]. exists x. by eapply elem_of_prefix.
Qed.

Lemma moved_monotone i : monotone (moved i).
Proof using Type. intros w w' Hw H. by eapply elem_of_prefix. Qed.

Lemma cleanupTarget_spec w :
  ok_spec switch_allows
    (cleanupTarget rootfs (path_Join [rootfs; "usr"]) target_usr ("usr-" +:+ Version) (path_Join [rootfs; "tmp"]))
    (λ cont w', cont = false → usr_there w') w.
Proof using Type.
  unfold cleanupTarget, sys. ok_call; [done|]. intros x w1 Hw1 _.
  eapply ok_bind; [apply ok_only; case_match; [done|apply only_expect]|]. intros _ w2 Hw2 _.
  eapply ok_bind; [apply ok_only; unfold CreateSymlink; os_calls done|]. intros _ w3 Hw3 _.
  eapply ok_bind; [apply ok_only, only_try_sys; by right; left|]. intros _ w4 Hw4 _.
  ok_call; [done|]. intros y w5 Hw5 Hy. apply ok_done.
  { intros c w6 w7 Hw H Hc. eapply usr_there_monotone; [done|by apply H]. }
  intros c [= <-] Hc. right. destruct y as [info|e|e]; [|done..]. exists info. by eapply since_elem.
Qed.

Lemma delete_entry_spec file w :
  copied w → ok_spec switch_allows (delete_entry rootfs file) (λ _ _, True) w.
Proof using Type.
  intros Hc. unfold delete_entry. case_match eqn:E; [by apply ok_only|]. apply ok_only_from, only_do_sys.
  intros w' x Hw'. right; right. split_and!; [by apply spared_false|by apply spared_false|by eexists|by eapply copied_monotone].
Qed.

Lemma copyMoveRoot_spec w :
  ok_spec switch_allows (copyMoveRoot Version rootfs rmUsr) (λ _, usr_there) w.
Proof using Type.
  unfold copyMoveRoot. eapply ok_bind.
  { apply ok_only. destruct rmUsr eqn:E; [|done]. apply only_try_sys. intros w' x. by left. }
  intros _ w1 Hw1 _. eapply ok_bind; [apply cleanupTarget_spec|]. intros [] w2 Hw2 Hcont; cbn [negb]; cycle 1.
  { apply ok_done; [intros _; apply usr_there_monotone|]. auto. }
  eapply ok_bind; [by apply ok_only, only_do_sys|]. intros _ w3 Hw3 _.
  eapply ok_bind; [by apply ok_only, only_do_sys|]. intros tmp w4 Hw4 _.
  eapply ok_bind; [by apply ok_do_sys|]. intros [] w5 Hw5 (x & Hx & Hcopy). cbn in Hx. subst x.
  eapply ok_bind; [by apply ok_do_sys|]. intros [] w6 Hw6 (x & Hx & Hren). cbn in Hx. subst x.
  assert (copied w6) as Hc.
  { apply since_elem, list_elem_of_split in Hcopy as (k1 & k2 & ->).
    destruct Hren as (k3 & k4 & -> & [k5 ->]). exists tmp, k1, (k2 ++ k5)%list, k4.
    by rewrite <-!app_assoc. }
  eapply ok_bind; [by apply ok_only, only_do_sys|]. intros files w7 Hw7 _.
  eapply spec_mono; [|apply (spec_prefix _ (each (delete_entry rootfs) files) (λ _ _, True))].
  - intros r w8 [Hw8 _] [] _. left. eapply copied_monotone; [|done]. by etrans.
  - eapply spec_mono; [|apply (ok_each switch_allows)]; [done|]. intros file w8 _ Hw8.
    apply delete_entry_spec. eapply copied_monotone; [|done]. by etrans.
Qed.

Lemma move_mount_spec i w : ok_spec switch_allows (move_mount rootfs i) (λ _, moved i) w.
Proof using Type.
  unfold move_mount. eapply ok_bind; [by apply ok_only, only_do_sys|]. intros _ w1 Hw1 _.
  eapply spec_mono; [|by apply ok_do_sys]. intros r w2 Hr a Ha.
  destruct (Hr a Ha) as (x & Hx & Hs). cbn in Hx. subst x. destruct a. by eapply since_elem.
Qed.

Lemma switchRoot_spec w :
  ok_spec switch_allows (switchRoot Version rootfs subdir rmUsr) (λ _ w', ev (Chroot ".") (AOk ()) ∈ w') w.
Proof using Type.
  unfold switchRoot. eapply ok_bind; [by apply ok_only, only_try_sys|]. intros _ w1 Hw1 _.
  eapply ok_bind; [apply ok_only; unfold bind_subdir; os_calls done|]. intros _ w2 Hw2 _.
  eapply ok_bind; [apply (ok_each_post _ _ moved); [apply moved_monotone|]; intros; apply move_mount_spec|].
  intros [] w3 Hw3 Hmoved. eapply ok_bind; [apply copyMoveRoot_spec|]. intros [] w4 Hw4 Husr.
  eapply ok_bind; [by apply ok_only, only_do_sys|]. intros _ w5 Hw5 _.
  eapply ok_bind; [by apply ok_do_sys|]. intros [] w6 Hw6 (x & Hx & Hroot). cbn in Hx. subst x.
  eapply ok_bind.
  { apply ok_do_sys. intros w7 x Hw7. split_and!.
    - intros i Hi. eapply moved_monotone; [|by apply Hmoved]. do 3 (etrans; [done|]). done.
    - eapply usr_there_monotone; [|done]. do 2 (etrans; [done|]). done.
    - eapply elem_of_prefix; [by eapply since_elem|done]. }
  intros [] w7 Hw7 (x & Hx & Hchroot). cbn in Hx. subst x.
  eapply ok_bind; [by apply ok_only, only_do_sys|]. intros _ w8 Hw8 _.
  eapply spec_mono; [|apply (spec_prefix _ (try_sys (Unsetenv "DOCKER_RAMDISK") eq_refl) (λ _ _, True))].
  - intros r w9 [Hw9 _] _ _. eapply elem_of_prefix; [by eapply since_elem|]. by etrans.
  - by eapply spec_mono; [|apply (ok_only switch_allows), only_try_sys].
Qed.

(** Moving to the new root never loses /usr and never deletes the new root. Whatever the
    system answers, the only things [switchRoot] deletes are the temporary directory, the
    copy of an earlier boot when the configuration asks for it, and entries of / that are
    neither the new root nor a directory above it, and these only after /usr was copied and
    the copy was renamed into place. The process only moves when the mounts of the kernel
    have moved, the new root is mounted on / and the new /usr is there, and the function
    returns without an error only when it has moved. *)
Theorem switchRoot_deletes l r :
  behaves (switchRoot Version rootfs subdir rmUsr) l r →
  (∀ i e, l !! i = Some e → switch_allows (take i l) e) ∧
  (r = Ok () → ev (Chroot ".") (AOk ()) ∈ l).
Proof using Type.
  intros H. destruct (spec_behaves _ _ _ _ _ [] H (switchRoot_spec [])) as [HQ Hl].
  split; [exact Hl|]. intros ->. exact (HQ () eq_refl).
Qed.
End Safety.

(** A machine whose memory holds /usr, /bin and /state. *)
Definition ram_machine (c : os_call) (w : ()) : os_answer c * () :=
  (match c return os_answer c with
   | Stat _ => ANotFound "no such file"
   | TempDir dir prefix => AOk (dir +:+ "/" +:+ prefix +:+ "123")
   | ReadDir "/" => AOk [("bin", true); ("state", true); ("usr", true)]
   | c => plain c
   end, w).

Lemma switchRoot_deletes_witness :
  let l := (exchanges ram_machine (switchRoot "v2" "/state" "" false) ()).1 in
  omap (λ e : os_exchange, match projT1 e with RemoveAll p => Some p | _ => None end) l =
    ["/state/tmp"; "/bin"; "/usr"] ∧
  (∀ i e, l !! i = Some e → switch_allows "v2" "/state" false (take i l) e) ∧
  ev (Chroot ".") (AOk ()) ∈ l.
Proof.
  cbv zeta. destruct (switchRoot_deletes "v2" "/state" "" false _ _
    (exchanges_behaves ram_machine (switchRoot "v2" "/state" "" false) ())) as [H1 H2].
  split_and!; [vm_compute; reflexivity|exact H1|apply H2; vm_compute; reflexivity].
Defined.
