(* ===== verification/Boot.v ===== *)
(** * The boot sequence ([cmd/init/init.go], [pkg/init], [pkg/sysinit])

    The steps of the init process, one definition for each, and their chain. *)

From stdpp Require Import prelude gmap strings list.
From S2P Require Import Prelude GoStrings Prog RawTree Conc OS Dfs InitConfig SwitchRoot.

Local Open Scope string_scope.

Definition StateDir : string := "/state".
Definition BootDir : string := "/boot".
Definition ImagesPath : string := "/usr/share/ros".
Definition VarRancherDir : string := "/var/lib/rancher".
Definition CloudConfigScriptFile : string := "/var/lib/rancher/conf/cloud-config-script".
Definition RosBin : string := "/usr/bin/ros".
Definition SysInitBin : string := "/usr/bin/ros-sysinit".

(** ** Images ([pkg/sysinit/sysinit.go]) *)

Section Images.
Context `{Platform}.

Definition hasImage (name : string) : boot bool :=
  x ← ask (BOs (Stat (path_Join [StateDir; name])));
  mret (negb (not_exist (x : api file_info))).

Definition getImagesArchive (bootstrap : bool) : string :=
  path_Join [ImagesPath; if bootstrap then "images-init.tar" else "images-system.tar"].

Definition loadImages (bootstrap : bool) (cfg : option CloudConfig) : boot (option CloudConfig * result ()) :=
  let archive := getImagesArchive bootstrap in
  client ← attempt (do_ask NewSystemClient eq_refl);
  match client with
  | Ok _ =>
      has ← hasImage (Base archive);
      _ ← (if has : bool then mret ()
           else
             x ← ask (BOs (Stat archive));
             _ ← (if not_exist (x : api file_info) then exit else mret ());
             out ← ask (BOs (Output ["/usr/bin/system-docker"; "load"; "-q"; "-i"; archive]));
             if ok (out : api string) then mret () else exit);
      _ ← ask ImageList;
      fine cfg
  | Err e | Panic e => mret (cfg, Err e)
  end.

Definition LoadBootstrapImages : step := local_step (loadImages true).

Definition images_stamp : string :=
  "/var/lib/rancher/.sysimages_" +:+ Replace Version "." "_" +:+ "_loaded.done".

Definition LoadSystemImages : step := local_step (λ cfg,
  x ← ask (BOs (Stat images_stamp));
  if not_exist (x : api file_info) then
    _ ← ask (BOs (Create images_stamp));
    loadImages false cfg
  else fine cfg).

(** ** Bootstrap services ([pkg/init/bootstrap]) *)

Definition bootstrapServices : step := local_step (λ cfg,
  c ← deref cfg;
  dev ← ask (BOs (ResolveDevice (Dev (State c))));
  if negb (String.eqb dev "") && bool_decide (Bootcmd c = []) then fine cfg
  else
    r ← attempt (do_ask (RunServiceSet "bootstrap" (Configured (BootstrapContainers c))) eq_refl);
    mret (cfg, r)).

(** The variables of the other packages do not matter here. *)
Definition no_globals : globals :=
  {| ShouldSwitchRoot := false; ConfigFiles := ∅; boot2DockerEnvironment := false |}.

Definition chain_error (x : globals * option CloudConfig * result ()) : boot () := Done x.2.

Definition Bootstrap (cfg : CloudConfig) : boot () :=
  _ ← docker_Start cfg;
  deferred docker_Stop (
    x ← ChainCfgFuncs [("bootstrap loadImages", LoadBootstrapImages); ("bootstrap Services", bootstrapServices)]
          no_globals (Some cfg);
    chain_error x).
End Images.

(** ** Mounting the partitions ([pkg/init/fsmount]) *)

Section Mounts.
Context `{Platform}.

Definition tmpfsMagic : Z := 16914836.
Definition ramfsMagic : Z := 2240043254.

Definition IsInitrd : boot bool :=
  x ← ask (BOs (Statfs "/"));
  mret (match (x : api Z) with AOk t => (t =? tmpfsMagic)%Z || (t =? ramfsMagic)%Z | _ => false end).

Definition mountConfigured (dev fsType target : string) : os () :=
  if String.eqb dev "" then mret ()
  else
    resolved ← sys (ResolveDevice dev);
    if String.eqb resolved "" then lift (Err "Could not resolve device")
    else
      fsType ← (if String.eqb fsType "auto" then do_sys (GetFsType resolved) eq_refl else mret fsType);
      Mount resolved target fsType "".

Definition MountOem : step := local_step (λ cfg,
  c ← deref cfg;
  _ ← embed (ignore (mountConfigured (OemDev (State c)) (OemFsType (State c)) OemDir));
  fine cfg).

Definition MountBoot : step := local_step (λ cfg,
  initrd ← IsInitrd;
  if initrd : bool then fine cfg
  else
    rootDevice ← embed (root_device Unmarshal);
    mmc ← (if negb (String.eqb rootDevice "") && GoStrings.Contains rootDevice "mmcblk" then
             embed (attempt (Mount "/dev/mmcblk0p1" BootDir "vfat" ""))
           else mret (Ok ()));
    match mmc with
    | Ok _ =>
        c ← deref cfg;
        _ ← embed (ignore (mountConfigured (BootDev (State c)) (BootFsType (State c)) BootDir));
        fine cfg
    | _ => fine cfg
    end).

Definition mountState (cfg : CloudConfig) : boot () :=
  embed (mountConfigured (Dev (State cfg)) (FsType (State cfg)) StateDir).

Definition tryMountState (cfg : CloudConfig) : boot () :=
  r ← attempt (mountState cfg);
  match r with
  | Ok _ => mret ()
  | _ => _ ← Bootstrap cfg; mountState cfg
  end.

(** The configuration, whether to switch, and an error. *)
Definition tryMountStateAndBootstrap (cfg : option CloudConfig) : boot (option CloudConfig * bool * result ()) :=
  initrd ← IsInitrd;
  if negb initrd then mret (cfg, false, Ok ())
  else
    c ← deref cfg;
    if String.eqb (Dev (State c)) "" then mret (cfg, false, Ok ())
    else
      r ← attempt (tryMountState c);
      mret (match r with
            | Ok _ => (cfg, true, Ok ())
            | _ => if Required (State c) then (cfg, false, r) else (cfg, false, Ok ())
            end).

Definition set_ShouldSwitchRoot (b : bool) (g : globals) : globals :=
  {| ShouldSwitchRoot := b; ConfigFiles := ConfigFiles g; boot2DockerEnvironment := boot2DockerEnvironment g |}.

Definition MountStateAndBootstrap : step := λ g cfg,
  x ← tryMountStateAndBootstrap cfg;
  let '(cfg, should, r) := x in
  mret (set_ShouldSwitchRoot should g, match r with Ok _ => cfg | _ => None end, r).

Definition SwitchRoot : step := λ g cfg,
  if negb (ShouldSwitchRoot g) then mret (g, cfg, Ok ())
  else
    c ← deref cfg;
    r ← embed (attempt (switchRoot Version StateDir (Directory (State c)) (RmUsr c)));
    mret (g, cfg, r).

(** ** The shared root ([pkg/init/sharedroot]) *)

Definition share_tmpfs (i : string) : os () :=
  _ ← do_sys (MkdirAll i 493) eq_refl;
  _ ← do_sys (LibMount "tmpfs" i "tmpfs" "rw") eq_refl;
  do_sys (MakeShared i) eq_refl.

Definition Setup : step := local_step (λ cfg,
  c ← deref cfg;
  if NoSharedRoot c then fine cfg
  else
    initrd ← IsInitrd;
    r ← embed (attempt (if initrd : bool then each share_tmpfs ["/mnt"; "/media"; "/var/lib/system-docker"]
                        else do_sys (MakeShared "/") eq_refl));
    mret (cfg, r)).
End Mounts.

(** ** Files that survive the switch ([pkg/init/configfiles]) *)

Section ConfigFiles.
(** The order in which the saved files are ranged over. *)
Context `{Platform}.

Definition saved_files : list string := [
  "/var/lib/rancher/conf/cloud-config.d/init.yml"; CloudConfigScriptFile;
  "/var/lib/rancher/conf/cloud-config.d/boot.yml"; "/var/lib/rancher/conf/cloud-config.d/network.yml";
  "/var/lib/rancher/conf/metadata"; "/etc/resolv.conf"].

Definition log_files (bootLog : string) (dirs : bool) : os (list string) :=
  x ← sys (ReadDir bootLog);
  mret (match x with
        | AOk files => (λ f, path_Join [bootLog; f.1]) <$>
            filter (λ f : string * bool, dirs || negb f.2 = true) files
        | _ => []
        end).

Fixpoint save_files (saved : gmap string string) (names : list string) : os (gmap string string) :=
  match names with
  | [] => mret saved
  | name :: names =>
      x ← sys (Lstat name);
      if not_exist x then save_files saved names
      else
        y ← sys (ReadFile name);
        save_files (match y with AOk content => <[name := content]> saved | _ => saved end) names
  end.

Definition set_ConfigFiles (m : gmap string string) (g : globals) : globals :=
  {| ShouldSwitchRoot := ShouldSwitchRoot g; ConfigFiles := m; boot2DockerEnvironment := boot2DockerEnvironment g |}.

Definition ReadConfigFiles : step := λ g cfg,
  saved ← embed (
    logs ← log_files "/var/log/" false;
    boots ← log_files "/var/log/boot/" true;
    save_files (ConfigFiles g) (saved_files ++ logs ++ boots)%list);
  mret (set_ConfigFiles saved g, cfg, Ok ()).

Definition ModeDir : Z := 2147483648.

(** The modes of the directory and of the file. *)
Definition file_modes (name : string) : Z * Z :=
  if HasPrefix name "/var/lib/rancher/conf/" then
    (Z.lor ModeDir 448, if String.eqb name CloudConfigScriptFile then 493%Z else 256%Z)
  else (Z.lor ModeDir 493, 292%Z).

Definition write_config_file (f : string * string) : os () :=
  let '(dirMode, fileMode) := file_modes f.1 in
  _ ← try_sys (MkdirAll (Dir f.1) dirMode) eq_refl;
  try_sys (WriteFileAtomic f.1 f.2 fileMode) eq_refl.

Definition WriteConfigFiles : step := λ g cfg,
  _ ← embed (
    _ ← each write_config_file (range_texts (ConfigFiles g));
    _ ← try_sys (MkdirAll VarRancherDir (Z.lor ModeDir 493)) eq_refl;
    try_sys (Chmod VarRancherDir (Z.lor ModeDir 493)) eq_refl);
  _ ← ask FsReady;
  mret (g, cfg, Ok ()).
End ConfigFiles.

(** ** Kernel modules ([pkg/init/modules]) *)

Definition load_module (mounted : list string) (module : string) : os () :=
  if existsb (String.eqb module) mounted then mret ()
  else try_sys (RunCommand ("modprobe" :: Split module " ")) eq_refl.

(** What the scanner read, and its error. *)
Definition module_names (text : string) : list string :=
  (λ line, default "" (head (SplitN line " " 2))) <$> scan_lines text.

Definition LoadModules : step := local_step (λ cfg,
  x ← ask (BOs (Open "/proc/modules"));
  match (x : api ()) with
  | AOk _ =>
      scanned ← ask (BOs (Scan "/proc/modules"));
      let '(text, err) := (scanned : string * option string) in
      hypervisor ← ask (BOs Hypervisor);
      c ← deref cfg;
      let c := if String.eqb hypervisor "hyperv"
               then set_Modules (Modules c ++ ["hv_utils"; "hv_storvsc"; "hv_vmbus"])%list c else c in
      _ ← embed (each (load_module (module_names text)) (Modules c));
      mret (Some c, match err with Some e => Err e | None => Ok () end)
  | ANotFound e | AErr e => mret (cfg, Err e)
  end).

(** ** Boot2docker ([pkg/init/b2d]) *)

Definition boot2DockerMagic : string := "boot2docker, please format-me".

(** A read leaves what it does not fill; the buffer is kept from device to device. *)
Definition read_into (data s : string) : string :=
  let n := String.length data in
  firstn_s n s +:+ skipn_s (String.length s) data.

Fixpoint b2d_devices (devices : list string) (data : string) : os (option string) :=
  match devices with
  | [] => mret None
  | device :: devices =>
      x ← sys (Open device);
      if negb (ok x) then b2d_devices devices data
      else
        y ← sys (ReadBytes device (String.length boot2DockerMagic));
        match y with
        | AOk s =>
            let data := read_into data s in
            if String.eqb data boot2DockerMagic then mret (Some device) else b2d_devices devices data
        | _ => b2d_devices devices data
        end
  end.

Fixpoint zeros (n : nat) : string := match n with O => "" | S n => String "000" (zeros n) end.

Definition set_b2d (b : bool) (g : globals) : globals :=
  {| ShouldSwitchRoot := ShouldSwitchRoot g; ConfigFiles := ConfigFiles g; boot2DockerEnvironment := b |}.

Definition save_b2d (g : globals) (c : CloudConfig) : boot () :=
  if boot2DockerEnvironment g then
    _ ← ask (ConfigSet "rancher.state.dev" (SetText (Dev (State c))));
    _ ← ask (ConfigSet "rancher.state.autoformat" (SetTexts (Autoformat (State c))));
    mret ()
  else mret ().

Definition B2D : step := λ g cfg,
  _ ← embed (
    x ← sys (Stat "/var/lib/boot2docker");
    if not_exist x then try_sys (Mkdir "/var/lib/boot2docker" 493) eq_refl else mret ());
  dev ← ask (BOs (ResolveDevice "LABEL=B2D_STATE"));
  if negb (String.eqb dev "") then
    c ← deref cfg;
    mret (set_b2d true g, Some (set_State (set_Dev "LABEL=B2D_STATE" (State c)) c), Ok ())
  else
    found ← embed (b2d_devices ["/dev/sda"; "/dev/vda"] (zeros (String.length boot2DockerMagic)));
    gc ← match found with
         | Some device =>
             c ← deref cfg;
             mret (set_b2d true g,
                   Some (set_State (set_Autoformat [device] (set_Dev "LABEL=B2D_STATE" (State c))) c))
         | None => mret (g, cfg)
         end;
    let '(g, cfg) := gc in
    _ ← (if boot2DockerEnvironment g then c ← deref cfg; save_b2d g c else mret ());
    loaded ← LoadConfig;
    mret (g, Some loaded, Ok ()).

Definition Env : step := λ g cfg,
  _ ← (if boot2DockerEnvironment g then c ← deref cfg; save_b2d g c else mret ());
  loaded ← LoadConfig;
  mret (g, Some loaded, Ok ()).

(** ** Cloud-init ([pkg/init/cloudinit]) *)

Section CloudInit.
Context `{Platform}.

(** A data source is a kind, and for some kinds a colon and an argument. *)
Definition datasource_kind (ds : string) : string := default "" (head (SplitN ds ":" 2)).

Definition only_kind (kind : string) (datasources : list string) : bool :=
  match datasources with
  | [ds] => String.eqb (datasource_kind ds) kind
  | _ => false
  end.

Definition onlyConfigDrive := only_kind "configdrive".
Definition onlyDigitalOcean := only_kind "digitalocean".

Definition product_name : os string := do_sys (ReadFile "/sys/class/dmi/id/product_name") eq_refl.
Definition onlyExoscale : os bool := f ← product_name; mret (HasPrefix f "Exoscale").
Definition onlyProxmox : os bool := f ← product_name; mret (GoStrings.Contains f "Proxmox").

Definition runCloudInitServiceSet : step := local_step (λ cfg,
  c ← deref cfg;
  r ← attempt (do_ask (RunServiceSet "cloud-init" (Configured (CloudInitServices c))) eq_refl);
  mret (cfg, r)).

Definition runCloudInitServices (cfg : CloudConfig) : boot () :=
  _ ← docker_Start cfg;
  deferred docker_Stop (
    x ← ChainCfgFuncs [("cloudinit loadImages", LoadBootstrapImages); ("cloudinit Services", runCloudInitServiceSet)]
          no_globals (Some cfg);
    chain_error x).

Definition try_set (key : string) (v : set_value) : boot () := _ ← ask (ConfigSet key v); mret ().

(** The data sources to ask, from the configuration of the state partition and from what the
    machine is. *)
Definition choose_datasources (configured : list string) (hypervisor : string) (exoscale proxmox : result bool) :
    list string :=
  let l := if String.eqb hypervisor "vmware" then (configured ++ [hypervisor])%list else configured in
  let l := match exoscale with Ok true => "exoscale" :: l | _ => l end in
  match proxmox with Ok true => "proxmox" :: l | _ => l end.

(** A configuration drive that is not there. *)
Definition config_drive_missing (datasources : list string) : os bool :=
  if onlyConfigDrive datasources then
    dev ← sys (ResolveDevice "LABEL=config-2");
    if String.eqb dev "" then
      x ← sys (Glob "/sys/bus/virtio/drivers/9pnet_virtio/virtio*/mount_tag");
      mret (match x with AOk (_ :: _) => false | _ => true end)
    else mret false
  else mret false.

(** The settings of the network that the state partition has. *)
Definition network_settings (stateNetwork : NetworkConfig) (datasources : list string) (c : CloudConfig) : boot CloudConfig :=
  c ← (if (0 <? DHCPTimeout stateNetwork)%Z then
         _ ← try_set "rancher.network.dhcp_timeout" (SetInt (DHCPTimeout stateNetwork));
         mret (set_Network (set_DHCPTimeout (DHCPTimeout stateNetwork) (Network c)) c)
       else mret c);
  c ← (if bool_decide (WifiNetworks stateNetwork = ∅) then mret c
       else
         _ ← try_set "rancher.network.wifi_networks" (SetTrees (WifiNetworks stateNetwork));
         mret (set_Network (set_WifiNetworks (WifiNetworks stateNetwork) (Network c)) c));
  if bool_decide (Interfaces stateNetwork = ∅) then mret c
  else if onlyDigitalOcean datasources then mret c
  else
    _ ← try_set "rancher.network" (SetNetwork stateNetwork);
    mret (set_Network stateNetwork c).

Definition CloudInit : step := local_step (λ cfg,
  stateConfig ← load_config StateDir;
  c ← deref cfg;
  hypervisor ← ask (BOs Hypervisor);
  exoscale ← embed (attempt onlyExoscale);
  proxmox ← embed (attempt onlyProxmox);
  let datasources := choose_datasources (Datasources stateConfig) hypervisor exoscale proxmox in
  let c := set_Datasources datasources c in
  if bool_decide (datasources = []) then fine (Some c)
  else
    missing ← embed (config_drive_missing datasources);
    if missing : bool then fine (Some c)
    else
      _ ← try_set "rancher.cloud_init.datasources" (SetTexts datasources);
      c ← network_settings (Network stateConfig) datasources c;
      _ ← ignore (runCloudInitServices c);
      _ ← ask AddRSyslogHook;
      loaded ← LoadConfig;
      fine (Some loaded)).
End CloudInit.

(** ** Hypervisors ([pkg/init/hypervisor]) *)

Definition hypervisor_service (hypervisorName : string) : string :=
  if String.eqb hypervisorName "vmware" then "open-vm-tools"
  else if String.eqb hypervisorName "hyperv" then "hyperv-vm-tools" else "".

Definition enableHypervisorService (cfg : option CloudConfig) (hypervisorName : string) : boot () :=
  let serviceName := hypervisor_service hypervisorName in
  if String.eqb serviceName "" then mret ()
  else
    c ← deref cfg;
    if negb (HypervisorService c) then mret ()
    else try_set ("rancher.services_include." +:+ serviceName) (SetText "true").

Definition Tools : step := local_step (λ cfg,
  hypervisor ← ask (BOs Hypervisor);
  _ ← enableHypervisorService cfg hypervisor;
  loaded ← LoadConfig;
  fine (Some loaded)).

(** ** Recovery ([pkg/init/recovery]) *)

Section Recovery.
Context `{Platform}.

Definition recoveryServices : step := λ g cfg,
  r ← attempt (do_ask (RunServiceSet "recovery" RecoveryConsole) eq_refl);
  mret (g, None, r).

Definition recovery_opts : EngineOpts :=
  {| Bridge := "none"; BIP := ""; ConfigFile := ""; Containerd := ""; Debug_ := None; ExecRoot := "";
     Group := "root"; DataRoot := "/var/lib/recovery-docker"; Host := ["unix:///var/run/system-docker.sock"];
     InsecureRegistry := []; LiveRestore := None; LogDriver := ""; LogOpts := ∅; PidFile := ""; RegistryMirror := "";
     Restart := Some false; StorageDriver := "overlay2"; UserlandProxy := Some false |}.

Definition recoveryConfig : CloudConfig :=
  {| Debug := false; RmUsr := false; NoSharedRoot := false; Recovery_ := false; HypervisorService := false;
     Log := false; Modules := []; Datasources := []; Network := no_network; State := no_state;
     SystemDocker := no_docker;
     BootstrapDocker := {| EngineOpts_ := recovery_opts; TLS := false; TLSArgs := []; ExtraArgs := [];
                           DockerEnvironment := []; UserNsEnabled := false; Exec_ := false |};
     BootstrapContainers := ∅; CloudInitServices := ∅; DefaultNameservers := ["8.8.8.8"; "8.8.4.4"];
     SystemDockerLogs := ""; Bootcmd := [] |}.

(** It returns when the console has ended. *)
Definition Recovery : boot () :=
  r ← attempt (docker_Start recoveryConfig);
  match r with
  | Ok _ =>
      x ← ChainCfgFuncs [("loadSystemImages", LoadBootstrapImages); ("recovery console", recoveryServices)]
            no_globals (Some recoveryConfig);
      match x.2 with Ok _ => mret () | _ => exit end
  | _ => exit
  end.

Definition LoadRecoveryConsole : step := local_step (λ cfg,
  c ← deref cfg;
  _ ← (if Recovery_ c then Recovery else mret ());
  fine cfg).
End Recovery.

(** ** The other steps ([pkg/init/env], [pkg/init/prepare], [pkg/init/debug]) *)

Section Steps.
Context `{Platform}.

Definition EnvInit : step := local_step (λ cfg,
  _ ← ask (BOs (Setenv "PATH" "/sbin:/usr/sbin:/usr/bin"));
  initrd ← IsInitrd;
  _ ← (if initrd : bool then _ ← ask (BOs (Setenv "DOCKER_RAMDISK" "true")); mret () else mret ());
  fine cfg).

(** [SetProxyEnvironmentVariables] of [pkg/util/network]. *)
Definition proxy_env (name value : string) : boot () :=
  if String.eqb value "" then mret () else _ ← ask (BOs (Setenv name value)); mret ().

Definition proxy_config (lower upper value : string) : boot () :=
  if String.eqb value "" then mret ()
  else
    _ ← try_set ("rancher.environment." +:+ lower) (SetText value);
    try_set ("rancher.environment." +:+ upper) (SetText value).

Definition SetProxyEnvironmentVariables : boot () :=
  cfg ← LoadConfig;
  let n := Network cfg in
  _ ← proxy_env "HTTP_PROXY" (HTTPProxy n);
  _ ← proxy_env "HTTPS_PROXY" (HTTPSProxy n);
  _ ← proxy_env "NO_PROXY" (NoProxy n);
  _ ← proxy_config "http_proxy" "HTTP_PROXY" (HTTPProxy n);
  _ ← proxy_config "https_proxy" "HTTPS_PROXY" (HTTPSProxy n);
  proxy_config "no_proxy" "NO_PROXY" (NoProxy n).

Definition Proxy : step := local_step (λ cfg, _ ← SetProxyEnvironmentVariables; fine cfg).

Definition FS : step := local_step (λ cfg,
  r ← embed (attempt (PrepareFs Unmarshal depth zero_launch));
  mret (cfg, r)).

Definition SaveCmdline : step := local_step (λ _,
  args ← ask Args;
  _ ← ask (SaveInitCmdline (Join args " "));
  cfg ← LoadConfig;
  fine (Some cfg)).

Definition PrintAndLoadConfig : step := local_step (λ _,
  _ ← ask ConfigExport;
  cfg ← LoadConfig;
  fine (Some cfg)).

(** ** Starting the system services ([pkg/sysinit/sysinit.go]) *)

Definition services_cache : string := "/usr/share/ros/services-cache".

Definition loadServicesCache : os () :=
  _ ← try_sys (MkdirAll "/var/lib/rancher/cache/" (Z.lor ModeDir 493)) eq_refl;
  x ← sys (Stat services_cache);
  if ok x then
    files ← sys (ReadDir (services_cache +:+ "/"));
    _ ← each (λ f : string * bool,
          try_sys (Rename (services_cache +:+ "/" +:+ f.1) ("/var/lib/rancher/cache/" +:+ f.1)) eq_refl)
        (match files with AOk files => files | _ => [] end);
    try_sys (Remove services_cache) eq_refl
  else mret ().

Definition RunSysInit : step := local_step (λ cfg,
  _ ← embed loadServicesCache;
  args ← ask Args;
  r ← embed (attempt (
        env ← sys Environ;
        _ ← do_sys (OS.Start RosBin (SysInitBin :: tail args) env) eq_refl;
        do_sys (CloseFile "stdin") eq_refl));
  mret (cfg, r)).

Definition start_project : step := local_step (λ cfg,
  r ← attempt (
        _ ← do_ask GetProject eq_refl;
        c ← deref cfg;
        do_ask (ProjectUp true (Log c)) eq_refl);
  mret (cfg, r)).

Definition sync_step : step := local_step (λ cfg, _ ← ask (BOs Sync); fine cfg).
Definition banner : step := local_step fine.

Definition SysInit : boot () :=
  cfg ← LoadConfig;
  _ ← ask (PreloadImages "/var/lib/rancher/preload/system-docker");
  x ← ChainCfgFuncs [("loadSystemImages", LoadSystemImages); ("start project", start_project);
                     ("sync", sync_step); ("banner", banner)] no_globals (Some cfg);
  chain_error x.

(** ** The init process ([cmd/init/init.go]) *)

Definition initFuncs : list (string * step) := [
  ("set env", EnvInit); ("preparefs", FS); ("save init cmdline", SaveCmdline); ("mount OEM", MountOem);
  ("debug save cfg", PrintAndLoadConfig); ("load modules", LoadModules); ("recovery console", LoadRecoveryConsole);
  ("b2d env", B2D); ("mount STATE and bootstrap", MountStateAndBootstrap); ("cloud-init", CloudInit);
  ("read cfg and log files", ReadConfigFiles); ("switchroot", SwitchRoot); ("mount OEM2", MountOem);
  ("mount BOOT", MountBoot); ("write cfg and log files", WriteConfigFiles); ("b2d Env", Env);
  ("hypervisor tools", Tools); ("preparefs2", FS); ("load modules2", LoadModules); ("set proxy env", Proxy);
  ("setupSharedRoot", Setup); ("sysinit", RunSysInit)].

(** After a failed chain the recovery console runs, and the daemon is launched with the
    configuration that the failed step returned. *)
Definition RunInit : boot () :=
  x ← ChainCfgFuncs initFuncs no_globals None;
  let '(_, cfg, r) := x in
  _ ← match r with Ok _ => mret () | _ => Recovery end;
  c ← deref cfg;
  let '(launchConfig, args) := GetLaunchConfig c (SystemDocker c) in
  launched ← embed (attempt (LaunchDocker Unmarshal depth (with_fork (negb (Exec_ (SystemDocker c))) launchConfig)
                               SystemDockerBin args));
  match launched with
  | Ok _ => _ ← ask (BOs PidOne); mret ()
  | Err e | Panic e => _ ← Recovery; Done (Err e)
  end.

Definition MainInit : boot () :=
  recovered Recovery (
    r ← attempt RunInit;
    match r with Ok _ => mret () | _ => exit end).
End Steps.
