(* ===== verification/BootSafety.v ===== *)
(** * When the init process leaves its root file system

    Over all answers of the machine: the new root is only entered, and nothing is deleted
    before, unless the state partition was mounted; and what [SwitchRoot] promises holds of
    the whole boot. *)

From stdpp Require Import prelude gmap strings list.
From S2P Require Import Prelude GoStrings Prog RawTree Conc OS Dfs InitConfig SwitchRoot Boot.

Local Open Scope string_scope.

Abbreviation boot_exchange := (@exchange boot_call boot_answer).
Abbreviation boot_log := (list boot_exchange).

(** The part of a log that is about the operating system. *)
Definition os_exchange_of (e : boot_exchange) : option os_exchange :=
  match e with
  | existT (BOs c) x => Some (ev c x)
  | _ => None
  end.

Definition os_part (w : boot_log) : os_log := omap os_exchange_of w.

Lemma os_part_app w w' : os_part (w ++ w') = (os_part w ++ os_part w')%list.
Proof. apply omap_app. Qed.

Lemma os_part_prefix w w' : w `prefix_of` w' → os_part w `prefix_of` os_part w'.
Proof. intros [k ->]. exists (os_part k). apply os_part_app. Qed.

(** ** Embedded programs *)

Lemma only_embed {A} (P : boot_call → Prop) (p : os A) : only (λ c, P (BOs c)) p → only P (embed p).
Proof. induction p as [|c k IH]; cbn [only embed]; [done|]. intros [Hc Hk]. auto. Qed.

Lemma spec_embed {A} (G : os_log → os_exchange → Prop) (Gb : boot_log → boot_exchange → Prop) (p : os A) Q w :
  (∀ w c x, G (os_part w) (ev c x) → Gb w (existT (BOs c) x)) →
  spec G p Q (os_part w) → spec Gb (embed p) (λ r w', Q r (os_part w')) w.
Proof.
  intros HG. revert w. induction p as [r|c k IH]; intros w; cbn [embed].
  - intros Hp w1 Hw1%rtc_prefix. apply Hp. by apply rtc_once, os_part_prefix.
  - intros Hp w1 Hw1%rtc_prefix x w2 ->.
    destruct (Hp (os_part w1) (rtc_once _ _ (os_part_prefix _ _ Hw1)) x _ eq_refl) as [(e & He & HGe) Hk].
    apply app_inv_head in He as [= <-]. split; [eexists; split; [done|by apply HG]|].
    apply IH. by rewrite os_part_app.
Qed.

Lemma ok_embed {A} (G : os_log → os_exchange → Prop) (Gb : boot_log → boot_exchange → Prop) (p : os A) P w :
  (∀ w c x, G (os_part w) (ev c x) → Gb w (existT (BOs c) x)) →
  ok_spec G p P (os_part w) → ok_spec Gb (embed p) (λ a w', P a (os_part w')) w.
Proof. intros HG Hp. by eapply spec_mono; [|by eapply spec_embed]. Qed.

(** ** What is allowed *)

Definition state_mounted (w : os_log) : Prop :=
  (∃ device t, ev (LibMount device StateDir t "") (AOk ()) ∈ w) ∨ no_proc w.

Lemma state_mounted_monotone : monotone state_mounted.
Proof.
  intros w w' Hw [(d & t & H)|H]; [left|right].
  - exists d, t. by eapply elem_of_prefix.
  - eapply no_proc_subseteq; [|done]. intros e He. by eapply elem_of_prefix.
Qed.

Section Boot.
Context `{Platform}.

(** A directory is only deleted, and the root only left, when the state partition is there
    and [SwitchRoot] allows it. *)
Definition boot_allows (w : boot_log) (e : boot_exchange) : Prop :=
  match e with
  | existT (BOs ((Chroot _ | RemoveAll _) as c)) x =>
      state_mounted (os_part w) ∧ ∃ rmUsr, switch_allows Version StateDir rmUsr (os_part w) (ev c x)
  | _ => True
  end.

(** Calls that neither delete a directory nor leave the root. *)
Definition calm (c : boot_call) : Prop := match c with BOs (Chroot _ | RemoveAll _) => False | _ => True end.

Lemma ok_calm {A} (p : boot A) w : only calm p → ok_spec boot_allows p (λ _ _, True) w.
Proof using Type. intros Hp. apply ok_only. eapply only_mono; [|exact Hp]. intros [[]| | | | | | | | | | | | | | |] Hc w' x; done. Qed.

Lemma only_harmless {A} (p : os A) : only harmless p → only calm (embed p).
Proof using Type. intros Hp. apply only_embed. eapply only_mono; [|exact Hp]. by intros []. Qed.

(** Only a mounted state partition sets the variable. *)
Definition switch_inv (g : globals) (w : boot_log) : Prop := ShouldSwitchRoot g = true → state_mounted (os_part w).

Lemma switch_inv_monotone g : monotone (switch_inv g).
Proof using Type. intros w w' Hw Hg Hs. eapply state_mounted_monotone; [by apply os_part_prefix|auto]. Qed.

Definition step_safe (f : step) : Prop :=
  ∀ g cfg w, switch_inv g w → ok_spec boot_allows (f g cfg) (λ x, switch_inv x.1.1) w.

(** A calm step that does not set the variable. *)
Lemma safe_keeps (f : step) :
  (∀ g cfg, only calm (f g cfg)) →
  (∀ g cfg l x, behaves (f g cfg) l (Ok x) → ShouldSwitchRoot x.1.1 = ShouldSwitchRoot g) → step_safe f.
Proof using Type.
  intros Hc Hk g cfg w Hg.
  eapply spec_mono; [|apply spec_prefix, (spec_of_behaves _ _
    (λ r _, ∀ x, r = Ok x → ShouldSwitchRoot x.1.1 = ShouldSwitchRoot g))].
  - intros r w' [Hw Hr] x Hx Hs. rewrite (Hr x Hx) in Hs. by eapply switch_inv_monotone.
  - eapply only_mono; [|apply Hc]. intros [[]| | | | | | | | | | | | | | |] Hcc w' x Hw; done.
  - intros l r w' Hb _ x ->. by eapply Hk.
Qed.

Lemma safe_local (f : option CloudConfig → boot (option CloudConfig * result ())) :
  (∀ cfg, only calm (f cfg)) → step_safe (local_step f).
Proof using Type.
  intros Hf. apply safe_keeps; [intros g cfg; by apply only_bind|].
  intros g cfg l x (l1 & l2 & y & -> & _ & [_ [= ->]])%behaves_bind_ok. done.
Qed.

Lemma chain_safe fs : Forall (λ f : string * step, step_safe f.2) fs → step_safe (ChainCfgFuncs fs).
Proof using Type.
  induction 1 as [|[name f] fs Hf _ IH]; intros g cfg w Hg; cbn [ChainCfgFuncs].
  - apply ok_done; [intros a; apply switch_inv_monotone|]. by intros x [= <-].
  - eapply ok_bind; [by apply Hf|]. intros [[g' cfg'] [[]|e|e]] w1 Hw1 Hx; [by apply IH|..];
      (apply ok_done; [intros a; apply switch_inv_monotone|by intros x [= <-]]).
Qed.

(** ** The calm steps *)

Lemma only_chain (P : boot_call → Prop) fs :
  Forall (λ f : string * step, ∀ g cfg, only P (f.2 g cfg)) fs → ∀ g cfg, only P (ChainCfgFuncs fs g cfg).
Proof using Type.
  induction 1 as [|[name f] fs Hf _ IH]; intros g cfg; cbn [ChainCfgFuncs]; [done|].
  apply only_bind; [by apply Hf|]. intros [[g' cfg'] [?|?|?]]; [apply IH|done..].
Qed.

Lemma only_local (P : boot_call → Prop) f g cfg : only P (f cfg) → only P (local_step f g cfg).
Proof using Type. intros Hf. by apply only_bind. Qed.

Lemma only_deferred {A} (P : boot_call → Prop) d (p : boot A) : only P d → only P p → only P (deferred d p).
Proof using Type.
  intros Hd. induction p as [[a|e|e]|c k IH]; cbn [only deferred].
  - intros _. apply only_bind; [by apply only_ignore|done].
  - intros _. apply only_bind; [by apply only_ignore|done].
  - intros _. case_match; [done|]. apply only_bind; [by apply only_ignore|done].
  - intros [Hc Hk]. auto.
Qed.

Lemma LaunchDocker_calm c docker args :
  only (λ c, calm (BOs c)) (LaunchDocker Unmarshal depth c docker args).
Proof using Type.
  apply only_bind.
  { eapply only_mono; [|apply PrepareFs_harmless]. by intros []. }
  intros _. apply only_bind; [eapply only_mono; [|apply secondPrepare_harmless]; by intros []|].
  intros _. unfold execDocker, expand. os_calls done.
Qed.

Lemma docker_Start_calm cfg : only calm (docker_Start cfg).
Proof using Type. unfold docker_Start. destruct (GetLaunchConfig _ _). apply only_embed, LaunchDocker_calm. Qed.

Lemma docker_Stop_calm : only calm docker_Stop.
Proof using Type. unfold docker_Stop, ask. walk done. Qed.

Lemma only_deref (P : boot_call → Prop) cfg : only P (deref cfg).
Proof using Type. by destruct cfg. Qed.

Lemma only_ask (P : boot_call → Prop) c : P c → only P (ask c).
Proof using Type. intros HP. by apply only_invoke. Qed.

Lemma only_boot_ask {A} (P : boot_call → Prop) c (E : boot_answer c = api A) : P c → only P (do_ask c E).
Proof using Type. intros HP. apply only_bind; [by apply only_ask|]. intros. apply only_expect. Qed.

Lemma load_config_calm prefix : only calm (load_config prefix).
Proof using Type. apply only_bind; [by apply only_ask|]. by intros []. Qed.

End Boot.

#[export] Hint Resolve docker_Start_calm docker_Stop_calm only_deref load_config_calm : calls.

(** Walks through a step. *)
Ltac boot_calls :=
  repeat first
    [ progress intros
    | exact I
    | progress (auto with calls; fail)
    | by apply only_ask
    | by apply only_boot_ask
    | apply only_local
    | apply only_chain; repeat constructor; cbn [snd]
    | apply only_deferred
    | apply only_harmless; os_calls done
    | apply only_bind
    | apply only_attempt
    | apply only_ignore
    | apply only_each
    | case_match ].

Section Steps.
Context `{Platform}.

Lemma loadImages_calm bootstrap cfg : only calm (loadImages bootstrap cfg).
Proof using Type. unfold loadImages, hasImage, fine, exit. boot_calls. Qed.
Hint Resolve loadImages_calm : calls.

Lemma Bootstrap_calm cfg : only calm (Bootstrap cfg).
Proof using Type. unfold Bootstrap, LoadBootstrapImages, bootstrapServices, chain_error, fine. boot_calls. Qed.

Lemma runCloudInitServices_calm cfg : only calm (runCloudInitServices cfg).
Proof using Type. unfold runCloudInitServices, LoadBootstrapImages, runCloudInitServiceSet, chain_error, fine. boot_calls. Qed.

Lemma Recovery_calm : only calm Recovery.
Proof using Type. unfold Recovery, LoadBootstrapImages, recoveryServices, chain_error, fine. boot_calls. Qed.
End Steps.

#[export] Hint Resolve loadImages_calm Bootstrap_calm runCloudInitServices_calm Recovery_calm : calls.

(** ** Every step is safe *)

Section Safe.
Context `{Platform}.

Lemma PrepareFs_calm c : only calm (embed (attempt (PrepareFs Unmarshal depth c))).
Proof using Type. apply only_harmless, only_attempt, PrepareFs_harmless. Qed.
Hint Resolve PrepareFs_calm : calls.

Lemma try_set_calm key v : only calm (try_set key v).
Proof using Type. unfold try_set. boot_calls. Qed.
Hint Resolve try_set_calm : calls.

Lemma IsInitrd_calm : only calm IsInitrd.
Proof using Type. unfold IsInitrd. boot_calls. Qed.
Hint Resolve IsInitrd_calm : calls.

Lemma mountConfigured_calm dev t target : only harmless (mountConfigured dev t target).
Proof using Type. unfold mountConfigured, Mount, mountProc, lift. os_calls done. Qed.

Lemma EnvInit_safe : step_safe EnvInit.
Proof using Type. apply safe_local. unfold fine. boot_calls. Qed.

Lemma FS_safe : step_safe Boot.FS.
Proof using Type. apply safe_local. boot_calls. Qed.

Lemma SaveCmdline_safe : step_safe SaveCmdline.
Proof using Type. apply safe_local. unfold fine, LoadConfig. boot_calls. Qed.

Lemma MountOem_safe : step_safe MountOem.
Proof using Type.
  apply safe_local. intros cfg. apply only_bind; [boot_calls|]. intros c. apply only_bind; [|done].
  apply only_harmless, only_ignore, mountConfigured_calm.
Qed.

Lemma PrintAndLoadConfig_safe : step_safe PrintAndLoadConfig.
Proof using Type. apply safe_local. unfold fine, LoadConfig. boot_calls. Qed.

Lemma LoadModules_safe : step_safe LoadModules.
Proof using Type. apply safe_local. unfold fine, load_module. boot_calls. Qed.

Lemma LoadRecoveryConsole_safe : step_safe LoadRecoveryConsole.
Proof using Type. apply safe_local. unfold fine. boot_calls. Qed.

Lemma CloudInit_safe : step_safe CloudInit.
Proof using Type.
  apply safe_local. unfold fine, LoadConfig, onlyExoscale, onlyProxmox, product_name, config_drive_missing, network_settings.
  boot_calls.
Qed.

Lemma MountBoot_safe : step_safe MountBoot.
Proof using Type.
  apply safe_local. intros cfg. unfold fine, root_device, Mount, mountProc, lift.
  boot_calls; apply mountConfigured_calm.
Qed.

Lemma Tools_safe : step_safe Tools.
Proof using Type. apply safe_local. unfold fine, LoadConfig, enableHypervisorService. boot_calls. Qed.

Lemma Proxy_safe : step_safe Proxy.
Proof using Type.
  apply safe_local. unfold fine, SetProxyEnvironmentVariables, LoadConfig, proxy_env, proxy_config. boot_calls.
Qed.

Lemma Setup_safe : step_safe Setup.
Proof using Type. apply safe_local. unfold fine, share_tmpfs. boot_calls. Qed.

Lemma RunSysInit_safe : step_safe RunSysInit.
Proof using Type.
  apply safe_local. intros cfg. unfold loadServicesCache.
  apply only_bind; [apply only_harmless; os_calls done|]. intros _. apply only_bind; [boot_calls|]. intros args.
  apply only_bind; [|done]. apply only_embed. os_calls done.
Qed.

Lemma mountConfigured_mounts dev t target l :
  dev ≠ "" → behaves (mountConfigured dev t target) l (Ok ()) →
  (∃ d t', ev (LibMount d target t' "") (AOk ()) ∈ l) ∨ no_proc l.
Proof using Type.
  intros Hd%String.eqb_neq. unfold mountConfigured. rewrite Hd.
  unfold sys. intros (x & l' & -> & Hb)%behaves_call_bind.
  destruct (String.eqb x ""); [by destruct Hb|].
  apply (behaves_bind_ok (if String.eqb t "auto" then do_sys (GetFsType x) eq_refl else mret t)) in Hb
    as (l1 & l2 & t' & -> & _ & Hm).
  destruct (Mount_mounts _ _ _ _ Hm) as [[t'' Ht]|Hn].
  - left. exists x, t''. set_solver.
  - right. eapply no_proc_subseteq; [|exact Hn]. set_solver.
Qed.

Lemma mountState_spec cfg w :
  Dev (State cfg) ≠ "" → ok_spec boot_allows (mountState cfg) (λ _ w', state_mounted (os_part w')) w.
Proof using Type.
  intros Hd. apply (ok_embed (λ _ e, harmless (projT1 e))).
  { intros w' [] x; try done; by intros []. }
  apply spec_of_behaves; [eapply only_mono; [|apply mountConfigured_calm]; done|].
  intros l r w' Hb Hl [] ->. apply mountConfigured_mounts in Hb as [(d & t & H1)|Hn]; [left|right|done].
  - exists d, t. by eapply elem_of_sublist.
  - eapply no_proc_subseteq; [|done]. intros e He. by eapply elem_of_sublist.
Qed.

Lemma MountStateAndBootstrap_safe : step_safe MountStateAndBootstrap.
Proof using Type.
  intros g cfg w Hg. unfold MountStateAndBootstrap.
  apply (ok_bind _ _ _ (λ x w', x.1.2 = true → state_mounted (os_part w'))); cycle 1.
  { intros [[cfg' should] r] w1 Hw1 Hs. apply ok_done; [intros a; apply switch_inv_monotone|].
    intros x [= <-]. exact Hs. }
  assert (∀ x : option CloudConfig * bool * result (), monotone (λ w' : boot_log, x.1.2 = true → state_mounted (os_part w'))) as Hm.
  { intros x w1 w2 Hw H1 H2. eapply state_mounted_monotone; [by apply os_part_prefix|auto]. }
  unfold tryMountStateAndBootstrap. eapply ok_bind; [apply ok_calm; auto with calls|]. intros [] w1 Hw1 _; cbn [negb]; cycle 1.
  { apply ok_done; [done|]. by intros x [= <-]. }
  eapply ok_bind; [apply ok_calm, only_deref|]. intros c w2 Hw2 _.
  destruct (String.eqb_spec (Dev (State c)) "") as [E|E]; [apply ok_done; [done|]; by intros x [= <-]|].
  eapply ok_bind.
  { apply (ok_attempt _ _ (λ _ w', state_mounted (os_part w'))). unfold tryMountState.
    eapply ok_bind; [by apply ok_attempt, mountState_spec|]. intros [[]|e|e] w3 Hw3 Hr; [|..].
    - apply ok_done; [intros ? w4 w5 Hw H1; eapply state_mounted_monotone; [by apply os_part_prefix|done]|].
      intros [] _. by eapply Hr.
    - eapply ok_bind; [apply ok_calm; auto with calls|]. intros _ w4 _ _. by apply mountState_spec.
    - eapply ok_bind; [apply ok_calm; auto with calls|]. intros _ w4 _ _. by apply mountState_spec. }
  intros [[]|e|e] w3 Hw3 Hr; cbv beta in Hr; (apply ok_done; [done|]); intros x [= <-]; [by eauto|by case_match..].
Qed.

Lemma SwitchRoot_safe : step_safe SwitchRoot.
Proof using Type.
  intros g cfg w Hg. unfold SwitchRoot. destruct (ShouldSwitchRoot g) eqn:E; cbn [negb]; cycle 1.
  { apply ok_done; [intros a; apply switch_inv_monotone|]. by intros x [= <-]. }
  eapply ok_bind; [apply ok_calm, only_deref|]. intros c w1 Hw1 _.
  assert (state_mounted (os_part w1)) as Hs.
  { eapply state_mounted_monotone; [by apply os_part_prefix|]. by apply Hg. }
  eapply (ok_bind _ _ _ (λ _ _, True)); [|intros r w2 Hw2 _; apply ok_done; [intros a; apply switch_inv_monotone|]].
  - apply (ok_embed (λ w' e, state_mounted w' ∧ switch_allows Version StateDir (RmUsr c) w' e) _ _ (λ _ _, True)).
    { intros w' [] x [H1 H2]; try done; by split; [|eexists]. }
    apply spec_attempt. apply spec_stable; [apply state_mounted_monotone|done|].
    eapply spec_mono; [|apply (switchRoot_spec Version StateDir (Directory (State c)) (RmUsr c))].
    by intros [] w' _.
  - intros x [= <-] _. eapply state_mounted_monotone; [by apply os_part_prefix|done].
Qed.

Lemma ReadConfigFiles_safe : step_safe ReadConfigFiles.
Proof using Type.
  apply safe_keeps.
  - intros g cfg. apply only_bind; [|done]. apply only_harmless.
    apply only_bind; [unfold log_files; os_calls done|]. intros logs.
    apply only_bind; [unfold log_files; os_calls done|]. intros boots.
    generalize (saved_files ++ logs ++ boots)%list, (ConfigFiles g). intros names.
    induction names as [|name names IH]; intros m; cbn [save_files]; [done|]. os_calls done; apply IH.
  - intros g cfg l x (l1 & l2 & m & -> & _ & [_ [= ->]])%behaves_bind_ok. done.
Qed.

Lemma WriteConfigFiles_safe : step_safe WriteConfigFiles.
Proof using Type.
  apply safe_keeps.
  - intros g cfg. apply only_bind; [apply only_harmless; unfold write_config_file; os_calls done|]. boot_calls.
  - intros g cfg l x (l1 & l2 & m & -> & _ & (l3 & l4 & m' & -> & _ & [_ [= ->]])%behaves_bind_ok)%behaves_bind_ok. done.
Qed.

Lemma save_b2d_calm g c : only calm (save_b2d g c).
Proof using Type. unfold save_b2d. boot_calls. Qed.
Hint Resolve save_b2d_calm : calls.

Lemma b2d_devices_harmless devices data : only harmless (b2d_devices devices data).
Proof using Type.
  revert data. induction devices as [|d devices IH]; intros data; cbn [b2d_devices]; [done|].
  os_calls done; apply IH.
Qed.

Lemma B2D_safe : step_safe B2D.
Proof using Type.
  apply safe_keeps.
  - intros g cfg. apply only_bind; [apply only_harmless; os_calls done|]. intros _.
    apply only_bind; [boot_calls|]. intros dev. case_match; [boot_calls|].
    apply only_bind; [apply only_harmless, b2d_devices_harmless|]. unfold LoadConfig. boot_calls.
  - intros g cfg l x (l1 & l2 & u & -> & _ & (l3 & l4 & dev & -> & _ & Hb)%behaves_bind_ok)%behaves_bind_ok.
    case_match.
    { apply behaves_bind_ok in Hb as (l5 & l6 & c & -> & _ & [_ [= ->]]). done. }
    apply behaves_bind_ok in Hb as (l5 & l6 & found & -> & _ & (l7 & l8 & gc & -> & Hgc & Hb)%behaves_bind_ok).
    assert (ShouldSwitchRoot gc.1 = ShouldSwitchRoot g) as E.
    { destruct found; [apply behaves_bind_ok in Hgc as (? & ? & c & _ & _ & [_ [= ->]])|destruct Hgc as [_ [= ->]]]; done. }
    destruct gc as [g' cfg']. cbn in E.
    apply behaves_bind_ok in Hb as (l9 & l10 & [] & -> & _ & (l11 & l12 & c & -> & _ & [_ [= ->]])%behaves_bind_ok). done.
Qed.

Lemma Env_safe : step_safe Env.
Proof using Type.
  apply safe_keeps.
  - intros g cfg. unfold Env, LoadConfig. boot_calls.
  - intros g cfg l x (l1 & l2 & u & -> & _ & (l3 & l4 & c & -> & _ & [_ [= ->]])%behaves_bind_ok)%behaves_bind_ok. done.
Qed.

Lemma initFuncs_safe : step_safe (ChainCfgFuncs initFuncs).
Proof using Type.
  apply chain_safe. unfold initFuncs. repeat (apply Forall_cons; split); try apply Forall_nil_2; cbn [snd];
    eauto using EnvInit_safe, FS_safe, SaveCmdline_safe, MountOem_safe, PrintAndLoadConfig_safe, LoadModules_safe,
      LoadRecoveryConsole_safe, B2D_safe, MountStateAndBootstrap_safe, CloudInit_safe, ReadConfigFiles_safe,
      SwitchRoot_safe, MountBoot_safe, WriteConfigFiles_safe, Env_safe, Tools_safe, Proxy_safe, Setup_safe, RunSysInit_safe.
Qed.

(** C24: In the whole boot, the root file system is only left, and a directory only deleted,
    after the state partition was mounted (or /proc could not be, when [Mount] does nothing
    and reports no error), and then as the safety of [switchRoot] says: /usr was copied
    there before anything of / is deleted, and the new root is never deleted. *)
Theorem RunInit_switches l r :
  behaves RunInit l r → ∀ i e, l !! i = Some e → boot_allows (take i l) e.
Proof using Type.
  intros Hb. refine (proj2 (spec_behaves boot_allows RunInit (λ _ _, True) _ _ [] Hb _)).
  unfold RunInit. eapply ok_true, ok_bind; [by apply initFuncs_safe|]. intros [[g cfg] r'] w1 Hw1 _.
  apply ok_calm. apply only_bind; [boot_calls|]. intros _. apply only_bind; [boot_calls|]. intros c.
  destruct (GetLaunchConfig _ _) as [lc args]. apply only_bind; [apply only_embed, only_attempt, LaunchDocker_calm|boot_calls].
Qed.
End Safe.

(** ** A machine that boots *)

#[local] Instance some_platform : Platform := {|
  Version := "v2"; OsBase := "base"; Unmarshal := λ s, Some (VScalar (SStr s));
  range_opts := id; range_texts := map_to_list; depth := 3;
  range_opts_perm := λ _, reflexivity _; range_texts_perm := λ _, reflexivity _ |}.

Definition state_config : StateConfig :=
  {| Directory := ""; FsType := "auto"; Dev := "LABEL=STATE"; Required := true; Autoformat := []; OemFsType := "";
     OemDev := ""; BootFsType := ""; BootDev := "" |}.

(** The state partition has the label STATE; everything is in memory. *)
Definition boot_machine (mountable : bool) (c : boot_call) (w : ()) : boot_answer c * () :=
  (match c return boot_answer c with
   | BOs (Statfs _) => AOk tmpfsMagic
   | BOs (ResolveDevice "LABEL=STATE") => "/dev/sda1"
   | BOs (LibMount "/dev/sda1" _ _ _) => if mountable then AOk () else AErr "cannot mount"
   | BOs (Stat "/state/usr-v2") => ANotFound "no such file"
   | BOs (TempDir dir prefix) => AOk (dir +:+ "/" +:+ prefix +:+ "1")
   | BOs (ReadDir "/") => AOk [("bin", true); ("state", true)]
   | BOs c => plain c
   | LoadConfigWithPrefix _ => Some (set_State state_config no_config)
   | ConfigSet _ _ | RunServiceSet _ _ | NewSystemClient | PreloadImages _ | GetProject | ProjectUp _ _ => AOk ()
   | Args => ["/init"]
   | _ => ()
   end, w).

Lemma RunInit_switches_witness :
  let l := (exchanges (boot_machine true) RunInit ()).1 in
  ∃ e, l !! 117%nat = Some e ∧ projT1 e = BOs (Chroot ".") ∧ boot_allows (take 117 l) e.
Proof.
  cbv zeta. eexists. split_and!; cycle 2;
    [eapply (RunInit_switches _ _ (exchanges_behaves (boot_machine true) RunInit ()) 117%nat)|..];
    vm_compute; reflexivity.
Defined.

(** ** When a step fails *)

Section Failure.
Context `{Platform}.

Lemma recovered_panics h (p : boot ()) l e l' r :
  behaves p l (Panic e) → e ≠ exit_status → behaves h l' r → behaves (recovered h p) (l ++ l') r.
Proof using Type.
  intros Hp He%String.eqb_neq Hh. revert l Hp. induction p as [r'|c k IH]; intros l; cbn [behaves recovered].
  - intros [-> <-]. by rewrite He.
  - intros (x & l1 & -> & Hk). exists x, (l1 ++ l')%list. split; [done|]. by apply IH.
Qed.

(** A failed step that returns no configuration, as a required state partition that
    cannot be mounted does, costs the machine its daemon: when the recovery console has
    ended, [RunInit] follows the nil pointer, so that [MainInit] runs the recovery console
    once more and the docker of the system is never launched. *)
Theorem MainInit_recovers_twice l1 l2 l3 g e r :
  behaves (ChainCfgFuncs initFuncs no_globals None) l1 (Ok (g, None, Err e)) →
  behaves Recovery l2 (Ok ()) → behaves Recovery l3 r →
  behaves RunInit (l1 ++ l2) (Panic "nil pointer dereference") ∧ behaves MainInit ((l1 ++ l2) ++ l3) r.
Proof using Type.
  intros H1 H2 H3.
  assert (behaves RunInit (l1 ++ l2) (Panic "nil pointer dereference")) as Hr.
  { unfold RunInit. eapply behaves_bind_intro; [exact H1|]. rewrite <-(app_nil_r l2).
    eapply behaves_bind_intro; [exact H2|]. done. }
  split; [exact Hr|]. apply (recovered_panics _ _ _ "nil pointer dereference"); [|done|done].
  apply behaves_bind_panic. exact (behaves_attempt_intro _ _ _ Hr).
Qed.
End Failure.

Lemma MainInit_recovers_twice_witness :
  ∃ l1 l2 l3, behaves RunInit (l1 ++ l2) (Panic "nil pointer dereference") ∧ behaves MainInit ((l1 ++ l2) ++ l3) (Ok ()) ∧
    existT (BOs (LibMount "/dev/sda1" StateDir "" "")) (AErr "cannot mount") ∈ l1 ∧
    existT (RunServiceSet "recovery" RecoveryConsole) (AOk ()) ∈ l2.
Proof.
  pose proof (exchanges_behaves (boot_machine false) (ChainCfgFuncs initFuncs no_globals None) ()) as H1.
  pose proof (exchanges_behaves (boot_machine false) Recovery ()) as H2.
  assert ((exchanges (boot_machine false) (ChainCfgFuncs initFuncs no_globals None) ()).2 =
    Ok (no_globals, None, Err "cannot mount")) as E1 by (vm_compute; reflexivity).
  assert ((exchanges (boot_machine false) Recovery ()).2 = Ok ()) as E2 by (vm_compute; reflexivity).
  rewrite E1 in H1. rewrite E2 in H2. do 3 eexists. split; [|split].
  - exact (proj1 (MainInit_recovers_twice _ _ _ _ _ _ H1 H2 H2)).
  - exact (proj2 (MainInit_recovers_twice _ _ _ _ _ _ H1 H2 H2)).
  - split; [apply (list_elem_of_lookup_2 _ 77%nat)|apply (list_elem_of_lookup_2 _ 69%nat)]; vm_compute; reflexivity.
Defined.

(** ** Files that survive the switch *)

(** What was read, the last time that it could be. *)
Definition read_back (l : os_log) (m : gmap string string) : gmap string string :=
  foldl (λ m (e : os_exchange),
    match e with
    | existT (ReadFile name) x => match (x : api string) with AOk content => <[name := content]> m | _ => m end
    | _ => m
    end) m l.

Lemma read_back_app l l' m : read_back (l ++ l') m = read_back l' (read_back l m).
Proof. apply foldl_app. Qed.

Definition reads_nothing (c : os_call) : Prop := match c with ReadFile _ => False | _ => True end.

Lemma read_back_none l m : Forall (λ e : os_exchange, reads_nothing (projT1 e)) l → read_back l m = m.
Proof. induction 1 as [|[[] x] l He _ IH]; cbn in *; try done. Qed.

Lemma save_files_reads names m l m' : behaves (save_files m names) l (Ok m') → m' = read_back l m.
Proof.
  revert m l. induction names as [|name names IH]; intros m l; cbn [save_files].
  - by intros [-> [= ->]].
  - unfold sys, mbind, prog_mbind, invoke. cbn [prog_bind behaves]. intros (x & l' & -> & Hb).
    destruct (not_exist x) eqn:E; [exact (IH _ _ Hb)|]. cbn [prog_bind behaves] in Hb.
    destruct Hb as (y & l2 & -> & Hb). destruct y; exact (IH _ _ Hb).
Qed.

Lemma behaves_embed {A} (p : os A) l r : behaves (embed p) l r → behaves p (os_part l) r.
Proof.
  revert l. induction p as [r'|c k IH]; intros l; cbn [embed behaves]; [by intros [-> ->]|].
  intros (x & l' & -> & Hb). exists x, (os_part l'). split; [done|]. by apply IH.
Qed.

(** The writes of a log. *)
Definition written (l : os_log) : list (string * string * Z) :=
  omap (λ e : os_exchange, match projT1 e with WriteFileAtomic n c m => Some (n, c, m) | _ => None end) l.

Lemma written_app l l' : written (l ++ l') = (written l ++ written l')%list.
Proof. apply omap_app. Qed.

Lemma write_config_file_calls name content :
  write_config_file (name, content) =
    Call (MkdirAll (Dir name) (file_modes name).1)
      (λ _, Call (WriteFileAtomic name content (file_modes name).2) (λ _, Done (Ok ()))).
Proof. unfold write_config_file. cbn [fst snd]. by destruct (file_modes name). Qed.

Lemma write_each_calls fs l r :
  behaves (each write_config_file fs) l r →
  r = Ok () ∧ written l = (λ f, (f.1, f.2, (file_modes f.1).2)) <$> fs.
Proof.
  revert l. induction fs as [|[name content] fs IH]; intros l; cbn [each]; [by intros [-> ->]|].
  rewrite write_config_file_calls. unfold mbind, prog_mbind. cbn [prog_bind behaves].
  intros (x & l1 & -> & y & l2 & -> & Hb). destruct (IH _ Hb) as [-> Hl]. split; [done|].
  cbn. by rewrite <-Hl.
Qed.

Section Files.
Context `{Platform}.

(** The permissions: the script of the cloud-config can be run by all (0755), the other files of
    its directory be read by their owner only (0400), and the rest be read by all (0444). *)
Definition mode_of (name : string) : Z :=
  if decide (name = "/var/lib/rancher/conf/cloud-config-script") then 493%Z
  else if HasPrefix name "/var/lib/rancher/conf/" then 256%Z else 292%Z.

Lemma file_modes_mode_of name : (file_modes name).2 = mode_of name.
Proof using Type.
  unfold file_modes, mode_of, CloudConfigScriptFile. destruct (decide (name = _)) as [->|Hn]; [done|].
  destruct (HasPrefix name _); [|done]. cbn [snd]. by rewrite (proj2 (String.eqb_neq _ _) Hn).
Qed.

(** C25: The files of the early boot survive the switch: what [ReadConfigFiles] keeps is, for
    each path, what was last read there, and [WriteConfigFiles] writes each of these files
    once, with these contents and the permissions [mode_of], and nothing else, whatever fails.
    The files below /var/lib/rancher/conf can only be read by their owner, but for the script. *)
Theorem config_files_survive g cfg l g' cfg' r' cfg2 l2 x2 :
  behaves (ReadConfigFiles g cfg) l (Ok (g', cfg', r')) →
  behaves (WriteConfigFiles g' cfg2) l2 (Ok x2) →
  InitConfig.ConfigFiles g' = read_back (os_part l) (InitConfig.ConfigFiles g) ∧
  written (os_part l2) ≡ₚ
    (λ f, (f.1, f.2, mode_of f.1)) <$> map_to_list (read_back (os_part l) (InitConfig.ConfigFiles g)) ∧
  (∀ n c m, (n, c, m) ∈ written (os_part l2) → HasPrefix n "/var/lib/rancher/conf/" = true →
     n ≠ CloudConfigScriptFile → m = 256%Z).
Proof using Type.
  intros (l1 & l3 & saved & -> & Hr & [-> [= -> -> ->]])%behaves_bind_ok.
  intros (l4 & l5 & [] & -> & Hw & Hf)%behaves_bind_ok.
  assert (saved = read_back (os_part l1) (InitConfig.ConfigFiles g)) as ->.
  { apply behaves_embed in Hr.
    apply behaves_bind_ok in Hr as (k1 & k2 & logs & -> & H1 & (k3 & k4 & boots & -> & H2 & Hs)%behaves_bind_ok).
    rewrite (save_files_reads _ _ _ _ Hs), !read_back_app.
    rewrite (read_back_none k1), (read_back_none k3); [done|..]; (eapply only_behaves; [eassumption|]);
      unfold log_files; os_calls done. }
  rewrite app_nil_r. split; [done|]. apply behaves_embed in Hw.
  assert (written (os_part (l4 ++ l5)) =
    (λ f, (f.1, f.2, (file_modes f.1).2)) <$> range_texts (read_back (os_part l1) (InitConfig.ConfigFiles g))) as ->.
  { apply behaves_bind_ok in Hw as (k1 & k2 & [] & E & Hw & Hrest).
    destruct (write_each_calls _ _ _ Hw) as [_ Hk]. rewrite os_part_app, E, !written_app, Hk.
    destruct Hf as (y & l6 & -> & [-> _]). inv_behaves Hrest. cbn. by rewrite !app_nil_r. }
  setoid_rewrite file_modes_mode_of.
  split; [by rewrite range_texts_perm|].
  intros n c m ([n' c'] & [= -> -> ->] & _)%list_elem_of_fmap Hn Hs. cbn. unfold mode_of. rewrite Hn.
  rewrite decide_False by done. done.
Qed.

End Files.

(** A machine with one file of the early boot. *)
Definition one_file (c : boot_call) (w : ()) : boot_answer c * () :=
  (match c return boot_answer c with
   | BOs (Lstat "/var/lib/rancher/conf/metadata") => AOk regular_info
   | BOs (Lstat _) => ANotFound "no such file"
   | BOs (ReadFile "/var/lib/rancher/conf/metadata") => AOk "secret"
   | c => (boot_machine true c w).1
   end, w).

Lemma config_files_survive_witness :
  let g' := set_ConfigFiles {[ "/var/lib/rancher/conf/metadata" := "secret" ]} no_globals in
  written (os_part (exchanges one_file (WriteConfigFiles g' None) ()).1) ≡ₚ
    [("/var/lib/rancher/conf/metadata", "secret", 256%Z)].
Proof.
  cbv zeta. pose proof (exchanges_behaves one_file (ReadConfigFiles no_globals None) ()) as H1.
  assert ((exchanges one_file (ReadConfigFiles no_globals None) ()).2 =
    Ok (set_ConfigFiles {[ "/var/lib/rancher/conf/metadata" := "secret" ]} no_globals, None, Ok ())) as E1
    by (vm_compute; reflexivity).
  rewrite E1 in H1. clear E1.
  pose (p := WriteConfigFiles (set_ConfigFiles {[ "/var/lib/rancher/conf/metadata" := "secret" ]} no_globals) None).
  pose proof (exchanges_behaves one_file p ()) as H2.
  assert (∃ x, (exchanges one_file p ()).2 = Ok x) as [x E2] by (vm_compute; eexists; reflexivity).
  rewrite E2 in H2.
  destruct (config_files_survive _ _ _ _ _ _ _ _ _ H1 H2) as (_ & H & _).
  etrans; [exact H|]. vm_compute. reflexivity.
Defined.
