(* ===== verification/Power.v ===== *)
(** * Shutting down ([cmd/power/power.go], [cmd/power/shutdown.go])

    The commands reboot, poweroff, halt and shutdown start themselves again in a container of
    their own, which stops the other containers and ends the machine. *)

From stdpp Require Import prelude gmap strings list.
From S2P Require Import Prelude GoStrings Prog Conc OS.

Local Open Scope string_scope.

(** ** Data and calls *)

(** A container of [ContainerList], and what [ContainerInspect] tells. *)
Record container := { c_ID : string; c_Names : list string }.
Record inspected := { i_ID : string; i_Image : string }.

(** What [runDocker] sets of the configuration of a container and of its host. *)
Record Config := { Image : string; Cmd : list string; Env : list string }.
Record HostConfig := {
  PidMode : string; NetworkMode : string; VolumesFrom : list string; Privileged : bool;
}.

Inductive power_call : Type :=
  | POs (c : os_call)
  | Getenv (key : string)
  | Geteuid
  | GetCurrentContainerID
  | PLoadConfig                       (** the shutdown timeout; it exits when it cannot be parsed *)
  | PLoadConfigWithError              (** validation errors, if any *)
  | Watchdog (nanoseconds code : Z)   (** the goroutine that forces the end after a time *)
  | NewClient
  | Inspect (name : string)
  | ContainerRemove (id : string)
  | ContainerCreate (config : Config) (host : HostConfig) (name : string)
  | ContainerStart (id : string)
  | ContainerLogs (id : string)
  | ReadLog
  | ContainerList
  | ContainerStop (id : string) (timeout : Z)
  | ContainerWait (id : string)
  | MountDevice (baseName : string)
  | ReadSyslinuxCfg (file : string)
  | ReadGlobalCfg (file : string)
  | Unmount (target : string).

Definition power_answer (c : power_call) : Type :=
  match c with
  | POs c => os_answer c
  | Getenv _ => string
  | Geteuid => Z
  | GetCurrentContainerID | ContainerCreate _ _ _ | ReadGlobalCfg _ => api string
  | PLoadConfig => option Z
  | PLoadConfigWithError => api (option bool)
  | Inspect _ => api inspected
  | ContainerList => api (list container)
  | ReadLog => nat * bool
  | ReadSyslinuxCfg _ => api (string * string)
  | Watchdog _ _ => ()
  | _ => api ()
  end.

Abbreviation power := (prog power_answer).

Definition ask (c : power_call) : power (power_answer c) := invoke c.

Definition do_ask {A} (c : power_call) (H : power_answer c = api A) : power A :=
  x ← ask c; expect (eq_rect _ (λ T, T) x _ H).

(** The end of the process. *)
Definition exit {A} (status : string) : power A := Done (Panic ("os.Exit " +:+ status)).

Definition panic {A} (msg : string) : power A := Done (Panic msg).

Record flags := {
  haltFlag : bool; poweroffFlag : bool; rebootFlag : bool; forceFlag : bool;
  kexecFlag : bool; previouskexecFlag : bool; kexecAppendFlag : string;
}.

Definition LINUX_REBOOT_CMD_RESTART : Z := 19088743.
Definition LINUX_REBOOT_CMD_HALT : Z := 3454992675.
Definition LINUX_REBOOT_CMD_POWER_OFF : Z := 1126301404.

(** The flags before the command line is read: the flag of the command's own name is set. *)
Definition default_flags (app : string) : flags :=
  {| haltFlag := String.eqb app "halt"; poweroffFlag := String.eqb app "poweroff"; rebootFlag := String.eqb app "reboot";
     forceFlag := false; kexecFlag := false; previouskexecFlag := false; kexecAppendFlag := "" |}.

Definition power_cmd (f : flags) : Z :=
  if rebootFlag f then LINUX_REBOOT_CMD_RESTART
  else if poweroffFlag f then LINUX_REBOOT_CMD_POWER_OFF
  else if haltFlag f then LINUX_REBOOT_CMD_HALT
  else LINUX_REBOOT_CMD_POWER_OFF.

(** ** In a container of its own *)

Section Run.
(** [os.Args], and a bound of the reads of a log. *)
Context (args : list string) (fuel : nat).

Definition container_name (name : string) : string := TrimPrefix (Join (Split name "/") "-") "-".

Fixpoint follow (fuel : nat) : power () :=
  match fuel with
  | O => Done (Err "fuel")
  | S fuel =>
      x ← ask ReadLog;
      let '(n, failed) := (x : nat * bool) in
      if failed && (n =? 0)%nat then mret () else follow fuel
  end.

Definition remove_old (containerName : string) : power () :=
  existing ← ask (Inspect containerName);
  match (existing : api inspected) with
  | AOk existing =>
      if String.eqb (i_ID existing) "" then mret ()
      else do_ask (ContainerRemove (i_ID existing)) eq_refl
  | _ => mret ()
  end.

(** It only returns without an error in the container; outside it ends the process. *)
Definition runDocker (name : string) : power () :=
  inDocker ← ask (Getenv "IN_DOCKER");
  if String.eqb inDocker "true" then mret ()
  else
    _ ← do_ask NewClient eq_refl;
    name ← (if String.eqb name "" then
              match args with arg0 :: _ => mret (Base arg0) | [] => panic "index out of range" end
            else mret name);
    let containerName := container_name name in
    _ ← remove_old containerName;
    currentContainerID ← do_ask GetCurrentContainerID eq_refl;
    currentContainer ← do_ask (Inspect currentContainerID) eq_refl;
    id ← do_ask (ContainerCreate
            {| Image := i_Image currentContainer; Cmd := args; Env := ["IN_DOCKER=true"] |}
            {| PidMode := "host"; NetworkMode := "none"; VolumesFrom := [i_ID currentContainer];
               Privileged := true |} containerName) eq_refl;
    _ ← do_ask (ContainerStart id) eq_refl;
    reader ← ask (ContainerLogs id);
    _ ← (if ok (reader : api ()) then mret () else exit "1");
    _ ← follow fuel;
    exit "0".

(** ** Stopping the containers *)

(** The flags that [shutDownContainers] reads itself: whether to stop, and the timeout. *)
Fixpoint shutdown_args (args : list string) (shutDown : bool) (timeout : Z) : result (bool * Z) :=
  match args with
  | [] => Ok (shutDown, timeout)
  | arg :: rest =>
      let shutDown := if existsb (String.eqb arg) ["-f"; "--f"; "--force"] then false else shutDown in
      if existsb (String.eqb arg) ["-t"; "--t"; "--timeout"] then
        match rest with
        | next :: _ =>
            match Atoi next with
            | (t, false) => shutdown_args rest shutDown t
            | (_, true) => Err "strconv.Atoi: parsing"
            end
        | [] => shutdown_args rest shutDown timeout
        end
      else shutdown_args rest shutDown timeout
  end.

(** The first name, and what is logged of a container. *)
Definition first_name (c : container) : power string :=
  match c_Names c with n :: _ => mret n | [] => panic "index out of range" end.

Definition short_id (c : container) : power () :=
  if (String.length (c_ID c) <? 12)%nat then panic "slice bounds out of range" else mret ().

(** An error as text, for the message at the end. *)
Definition failure (c : container) (x : api ()) : list string :=
  match x with AOk _ => [] | ANotFound e | AErr e => [" [" +:+ c_ID c +:+ "] " +:+ e] end.

(** One of the two loops: [f] for each container but the own one and the console, whose
    index is kept. *)
Fixpoint each_container (f : container → power_call) (H : ∀ c, power_answer (f c) = api ()) (current : string)
    (containers : list container) (idx : Z) (consoleIdx : Z) (errors : list string) : power (Z * list string) :=
  match containers with
  | [] => mret (consoleIdx, errors)
  | c :: containers =>
      if String.eqb (c_ID c) current then each_container f H current containers (idx + 1) consoleIdx errors
      else
        name ← first_name c;
        if String.eqb name "/console" then each_container f H current containers (idx + 1) idx errors
        else
          _ ← short_id c;
          x ← ask (f c);
          each_container f H current containers (idx + 1) consoleIdx
            (errors ++ failure c (eq_rect _ (λ T, T) x _ (H c)))%list
  end.

Definition stop_call (timeout : Z) (c : container) : power_call := ContainerStop (c_ID c) timeout.
Definition wait_call (c : container) : power_call := ContainerWait (c_ID c).

(** The console comes last: the entry of the second list at the index that was kept. *)
Definition stop_console (timeout : Z) (containers : list container) (consoleIdx : Z) (stops waits : list string) :
    power (list string * list string) :=
  if (consoleIdx =? -1)%Z then mret (stops, waits)
  else
    match containers !! Z.to_nat consoleIdx with
    | None => panic "index out of range"
    | Some c =>
        _ ← short_id c;
        x ← ask (ContainerStop (c_ID c) timeout);
        y ← ask (ContainerWait (c_ID c));
        mret ((stops ++ failure c x)%list, (waits ++ failure c y)%list)
    end.

Definition stop_error (stops waits : list string) : string :=
  let nl := String "010" "" in
  "error while stopping " +:+ nl +:+ "1. STOP Errors [" +:+ Join stops "," +:+ "] " +:+
  nl +:+ "2. WAIT Errors [" +:+ Join waits "," +:+ "]".

Definition shutDownContainers : power () :=
  parsed ← Done (shutdown_args args true 2);
  let '(shutDown, timeout) := (parsed : bool * Z) in
  if negb shutDown then mret ()
  else
    _ ← do_ask NewClient eq_refl;
    containers ← do_ask ContainerList eq_refl;
    current ← do_ask GetCurrentContainerID eq_refl;
    x ← each_container (stop_call timeout) (λ _, eq_refl) current containers 0 (-1) [];
    let '(consoleIdx, stops) := (x : Z * list string) in
    containers ← do_ask ContainerList eq_refl;
    y ← each_container wait_call (λ _, eq_refl) current containers 0 consoleIdx [];
    let '(consoleIdx, waits) := (y : Z * list string) in
    z ← stop_console timeout containers consoleIdx stops waits;
    let '(stops, waits) := (z : list string * list string) in
    match stops, waits with
    | [], [] => mret ()
    | _, _ => Done (Err (stop_error stops waits))
    end.

(** ** The end *)

Definition Kexec (previous : bool) (bootDir append : string) : power () :=
  let cfg := if previous then "linux-previous.cfg" else "linux-current.cfg" in
  files ← do_ask (ReadSyslinuxCfg (path_Join [bootDir; cfg])) eq_refl;
  append ← (if String.eqb append "" then do_ask (ReadGlobalCfg (path_Join [bootDir; "global.cfg"])) eq_refl
            else mret append);
  _ ← do_ask (POs (Output ["kexec"; "-l"; files.1; "--initrd"; files.2; "--append"; append; "-f"])) eq_refl;
  mret ().

(** [time.Duration(timeoutValue) * time.Second], in nanoseconds of an int64. *)
Definition shutdown_timeout (configured : Z) : Z :=
  let t := if (configured =? 0)%Z then 60%Z else configured in
  let t := if (t <? 5)%Z then 5%Z else t in
  wrap64 (t * 1000000000).

Definition wants_kexec (f : flags) : bool :=
  kexecFlag f || previouskexecFlag f || negb (String.eqb (kexecAppendFlag f) "").

(** Whether the configuration lets the command go on. *)
Definition validated : power bool :=
  x ← ask PLoadConfigWithError;
  match (x : api (option bool)) with
  | AOk (Some false) => mret false
  | AOk _ => mret true
  | ANotFound _ | AErr _ => exit "1"
  end.

Definition reboot (f : flags) (name : string) (force : bool) (code : Z) : power () :=
  euid ← ask Geteuid;
  _ ← (if (euid =? 0)%Z then mret () else exit "1");
  cfg ← ask PLoadConfig;
  timeout ← match (cfg : option Z) with Some t => mret t | None => exit "255" end;
  valid ← (if force then mret true else validated);
  if negb valid then mret ()
  else
    _ ← ask (Watchdog (shutdown_timeout timeout) code);
    _ ← (if force then mret ()
         else
           r ← attempt (runDocker (if wants_kexec f then "" else name));
           match r with Ok _ => mret () | _ => exit "1" end);
    if wants_kexec f then
      mounted ← ask (MountDevice "/mnt/new_img");
      if negb (ok (mounted : api ())) then mret ()
      else
        _ ← ignore (Kexec (previouskexecFlag f) (path_Join ["/mnt/new_img"; "/boot"]) (kexecAppendFlag f));
        _ ← ask (Unmount "/mnt/new_img");
        mret ()
    else
      _ ← (if force then mret () else ignore shutDownContainers);
      _ ← ask (POs Sync);
      x ← ask (POs (OS.Reboot code));
      if ok (x : api ()) then mret () else exit "1".

(** The action of the commands; [app] is the base of the name they were called by. *)
Definition shutdown (f : flags) (app timeArg : string) : power () :=
  if String.eqb app "shutdown" && negb (String.eqb timeArg "") &&
     negb (String.eqb timeArg "now") && negb (String.eqb timeArg "+0")
  then Done (Err ("Sorry, can't parse '" +:+ timeArg +:+ "' as time value (only 'now' supported)"))
  else reboot f app (forceFlag f) (power_cmd f).
End Run.

(** [Reboot], after an installation. *)
Definition Reboot (fuel : nat) (f : flags) : power () :=
  reboot ["reboot"] fuel f "reboot" false LINUX_REBOOT_CMD_RESTART.

(** ** Which containers are stopped *)

Abbreviation power_exchange := (@exchange power_call power_answer).
Abbreviation power_log := (list power_exchange).

(** The containers that are stopped first: all but the own one and the console. *)
Definition other (current : string) (c : container) : bool :=
  negb (String.eqb (c_ID c) current) && negb (bool_decide (head (c_Names c) = Some "/console")).

Definition others (current : string) (cs : list container) : list container := filter (λ c, other current c = true) cs.

Lemma others_cons current c cs :
  others current (c :: cs) = ((if other current c then [c] else []) ++ others current cs)%list.
Proof.
  unfold others. rewrite filter_cons. destruct (other current c) eqn:E; [by rewrite decide_True|by rewrite decide_False].
Qed.

(** The index of the last console of a list, or the one from before. *)
Fixpoint console_index (current : string) (cs : list container) (idx before : Z) : Z :=
  match cs with
  | [] => before
  | c :: cs =>
      console_index current cs (idx + 1)
        (if negb (String.eqb (c_ID c) current) && bool_decide (head (c_Names c) = Some "/console") then idx else before)
  end.

Lemma each_container_calls f H current cs idx before errors l idx' errors' :
  behaves (each_container f H current cs idx before errors) l (Ok (idx', errors')) →
  projT1 <$> l = f <$> others current cs ∧ idx' = console_index current cs idx before.
Proof.
  revert idx before errors l. induction cs as [|c cs IH]; intros idx before errors l; cbn [each_container].
  - by intros [-> [= -> ->]].
  - rewrite others_cons. cbn [console_index]. unfold other.
    destruct (String.eqb (c_ID c) current); cbn [negb andb app]; [by intros ?%IH|].
    intros (l1 & l2 & name & -> & Hn & Hb)%behaves_bind_ok. unfold first_name in Hn.
    destruct (c_Names c) as [|n names]; [by destruct Hn|]. destruct Hn as [-> [= ->]].
    cbn [head app] in *. destruct (String.eqb_spec n "/console") as [->|Hne].
    + rewrite bool_decide_eq_true_2 by done. by apply IH in Hb.
    + rewrite bool_decide_eq_false_2 by congruence.
      apply behaves_bind_ok in Hb as (l3 & l4 & [] & -> & Hs & Hb).
      assert (l3 = []) as ->. { unfold short_id in Hs. case_match; by destruct Hs. }
      destruct Hb as (x & l5 & -> & Hb). apply IH in Hb as [Hl ->]. cbn. by rewrite Hl.
Qed.

(** The calls of the last step. *)
Definition console_calls (timeout : Z) (cs : list container) (idx : Z) : list power_call :=
  if (idx =? -1)%Z then []
  else match cs !! Z.to_nat idx with
       | Some c => [ContainerStop (c_ID c) timeout; ContainerWait (c_ID c)]
       | None => []
       end.

Lemma stop_console_calls timeout cs idx stops waits l r :
  behaves (stop_console timeout cs idx stops waits) l (Ok r) → projT1 <$> l = console_calls timeout cs idx.
Proof.
  unfold stop_console, console_calls. case_match; [by intros [-> _]|].
  destruct (cs !! Z.to_nat idx) as [c|]; [|by intros [_ ?]].
  intros (l1 & l2 & [] & -> & Hs & x & l3 & -> & y & l4 & -> & [-> _])%behaves_bind_ok.
  assert (l1 = []) as ->. { unfold short_id in Hs. case_match; by destruct Hs. } done.
Qed.

Lemma behaves_do_ask {A} c (H : power_answer c = api A) l r :
  behaves (do_ask c H) l r → ∃ x, l = [existT c x] ∧
    (∀ a, r = Ok a → eq_rect _ (λ T, T) x _ H = AOk a) ∧ (∀ e, r ≠ Panic e).
Proof.
  unfold do_ask, ask. intros (x & l' & -> & Hb)%behaves_call_bind. exists x.
  destruct (eq_rect (power_answer c) (λ T : Type, T) x (api A) H); destruct Hb as [-> ->]; split_and!; try done; by intros b [= <-].
Qed.

(** The loops and the last step return no error of their own. *)
Lemma each_container_no_error f H current cs idx before errors l e :
  ¬ behaves (each_container f H current cs idx before errors) l (Err e).
Proof.
  revert idx before errors l. induction cs as [|c cs IH]; intros idx before errors l; cbn [each_container]; [by intros [_ ?]|].
  case_match; [apply IH|].
  intros [(l1 & l2 & name & -> & _ & Hb)|[(e' & Hn & _)|(e' & _ & [=])]]%behaves_bind.
  - case_match; [by eapply IH|].
    apply behaves_bind in Hb as [(l3 & l4 & [] & -> & _ & x & l5 & -> & Hb)|[(e' & Hn & _)|(e' & _ & [=])]]; [by eapply IH|].
    unfold short_id in Hn. case_match; by destruct Hn.
  - unfold first_name in Hn. case_match; by destruct Hn.
Qed.

Lemma stop_console_no_error timeout cs idx stops waits l e : ¬ behaves (stop_console timeout cs idx stops waits) l (Err e).
Proof.
  unfold stop_console. case_match; [by intros [_ ?]|]. case_match; [|by intros [_ ?]].
  intros [(l1 & l2 & [] & -> & _ & x & l3 & -> & y & l4 & -> & [_ [=]])|[(e' & Hn & _)|(e' & _ & [=])]]%behaves_bind.
  unfold short_id in Hn. case_match; by destruct Hn.
Qed.

(** A question that fails ends the shutdown. *)
Definition question_failed (l : power_log) (r : result ()) : Prop :=
  ∃ l1 e m, l = (l1 ++ [e])%list ∧ projT1 e ∈ [NewClient; ContainerList; GetCurrentContainerID] ∧ r = Err m.

(** One question of a program, and the rest of it. *)
Lemma question {A} c (H : power_answer c = api A) (f : A → power ()) l r :
  c ∈ [NewClient; ContainerList; GetCurrentContainerID] → (∀ e, r ≠ Panic e) →
  behaves (do_ask c H ≫= f) l r →
  question_failed l r ∨ ∃ a x l', l = existT c x :: l' ∧ eq_rect _ (λ T, T) x _ H = AOk a ∧ behaves (f a) l' r.
Proof.
  intros Hc Hr [(l1 & l2 & a & -> & H1 & H2)|[(e & H1 & ->)|(e & H1 & ->)]]%behaves_bind.
  - apply behaves_do_ask in H1 as (x & -> & Hx & _). right. exists a, x, l2. eauto.
  - apply behaves_do_ask in H1 as (x & -> & _ & _). left. exists [], (existT c x), e. auto.
  - by destruct (Hr e).
Qed.

Lemma question_failed_app l l' r : question_failed l' r → question_failed (l ++ l') r.
Proof. intros (l1 & e & m & -> & H). exists (l ++ l1)%list, e, m. by rewrite app_assoc. Qed.

(** C26: Which containers a shutdown stops, and in which order: all of the first listing but
    its own and the console, each once; then it lists them again, and waits for those that
    this second listing still has; and last comes the entry of the second listing at the index
    of the console, which is that of the first listing when the second has no console. Failures
    to stop or to wait end nothing; a failed listing ends the shutdown with an error. *)
Theorem shutDownContainers_calls args timeout l r :
  shutdown_args args true 2 = Ok (true, timeout) →
  behaves (shutDownContainers args) l r → (∀ e, r ≠ Panic e) →
  question_failed l r ∨
  ∃ cs1 cs2 current stops waits last,
    l = (existT NewClient (AOk ()) :: existT ContainerList (AOk cs1) ::
         existT GetCurrentContainerID (AOk current) :: stops ++
         existT ContainerList (AOk cs2) :: waits ++ last)%list ∧
    projT1 <$> stops = (λ c, ContainerStop (c_ID c) timeout) <$> others current cs1 ∧
    projT1 <$> waits = (λ c, ContainerWait (c_ID c)) <$> others current cs2 ∧
    projT1 <$> last =
      console_calls timeout cs2 (console_index current cs2 0 (console_index current cs1 0 (-1))).
Proof.
  intros Ha Hb Hr. unfold shutDownContainers in Hb. rewrite Ha in Hb.
  apply behaves_bind in Hb as [(l0 & l' & p & -> & [-> [= ->]] & Hb)|[(e & [_ [=]] & _)|(e & [_ [=]] & _)]].
  cbn [negb app] in *.
  destruct (question NewClient eq_refl _ _ _ ltac:(in_log) Hr Hb) as [Hf|([] & x0 & l1 & -> & Hx0 & Hb')]; [by left|].
  clear Hb; rename Hb' into Hb. cbn in Hx0. subst x0.
  destruct (question ContainerList eq_refl _ _ _ ltac:(in_log) Hr Hb) as [Hf|(cs1 & x1 & l2 & -> & Hx1 & Hb')];
    [left; by apply (question_failed_app [_])|]. clear Hb; rename Hb' into Hb. cbn in Hx1. subst x1.
  destruct (question GetCurrentContainerID eq_refl _ _ _ ltac:(in_log) Hr Hb) as [Hf|(current & x2 & l3 & -> & Hx2 & Hb')];
    [left; by apply (question_failed_app [_; _])|]. clear Hb; rename Hb' into Hb. cbn in Hx2. subst x2.
  apply behaves_bind in Hb as [(l4 & l5 & [idx1 stops] & -> & H1 & Hb)|[(e & H1 & _)|(e & _ & ->)]];
    [|by apply each_container_no_error in H1|by destruct (Hr e)].
  apply each_container_calls in H1 as [Hl4 ->].
  destruct (question ContainerList eq_refl _ _ _ ltac:(in_log) Hr Hb) as [Hf|(cs2 & x3 & l6 & -> & Hx3 & Hb')];
    [left; by apply (question_failed_app [_; _; _]), question_failed_app|]. clear Hb; rename Hb' into Hb. cbn in Hx3. subst x3.
  apply behaves_bind in Hb as [(l7 & l8 & [idx2 waits] & -> & H2 & Hb)|[(e & H2 & _)|(e & _ & ->)]];
    [|by apply each_container_no_error in H2|by destruct (Hr e)].
  apply each_container_calls in H2 as [Hl7 ->].
  apply behaves_bind in Hb as [(l9 & l10 & [stops' waits'] & -> & H3 & Hb)|[(e & H3 & _)|(e & _ & ->)]];
    [|by apply stop_console_no_error in H3|by destruct (Hr e)].
  apply stop_console_calls in H3 as Hl9.
  assert (l10 = []) as -> by (destruct stops', waits'; by destruct Hb).
  right. exists cs1, cs2, current, l4, l7, l9. by rewrite app_nil_r.
Qed.

(** A timeout of three centuries is a negative number of nanoseconds: the watchdog fires at once. *)
Example shutdown_timeout_wraps : shutdown_timeout 9223372037 = (-9223372036709551616)%Z.
Proof. vm_compute. reflexivity. Qed.

(** ** What may happen where *)

(** Outside the container nothing is stopped, unless forced; the machine ends only for root,
    with the code that was asked for, when the disks were synced; kexec is
    only run when it was asked for. The container of its own is made when it does not run
    in it yet, from the image and with the volumes of the present one, with the same command
    line, privileged, with the host's processes, without a network, and such that it finds
    IN_DOCKER=true. The watchdog gets the configured time, a minute when there is none, but
    never less than five seconds: as long as the time in nanoseconds fits into an int64. *)
Definition guarded (args : list string) (f : flags) (force : bool) (code : Z) (w : power_log) (e : power_exchange) : Prop :=
  let in_container := existT (Getenv "IN_DOCKER") "true" ∈ w in
  match projT1 e with
  | ContainerStop _ _ | ContainerWait _ => force = false ∧ in_container ∧ wants_kexec f = false
  | POs (OS.Reboot c) =>
      c = code ∧ existT Geteuid 0%Z ∈ w ∧ (force = true ∨ in_container) ∧ wants_kexec f = false ∧
      ∃ x, existT (POs Sync) x ∈ w
  | POs (Output _) => wants_kexec f = true ∧ (force = true ∨ in_container)
  | ContainerCreate config host _ =>
      force = false ∧ (∃ x, x ≠ "true" ∧ existT (Getenv "IN_DOCKER") x ∈ w) ∧
      ∃ id current, existT GetCurrentContainerID (AOk id) ∈ w ∧ existT (Inspect id) (AOk current) ∈ w ∧
        config = {| Image := i_Image current; Cmd := args; Env := ["IN_DOCKER=true"] |} ∧
        host = {| PidMode := "host"; NetworkMode := "none"; VolumesFrom := [i_ID current]; Privileged := true |}
  | Watchdog nanoseconds c =>
      c = code ∧ ∃ t, existT PLoadConfig (Some t) ∈ w ∧
        let seconds := if (t =? 0)%Z then 60%Z else Z.max 5 t in
        nanoseconds = wrap64 (seconds * 10 ^ 9) ∧
        ((t ≤ 9223372036)%Z → (nanoseconds = seconds * 10 ^ 9 ∧ 5 * 10 ^ 9 ≤ nanoseconds)%Z)
  | _ => True
  end.

(** Calls that need no guard. *)
Definition free (c : power_call) : Prop :=
  match c with
  | ContainerStop _ _ | ContainerWait _ | POs _ | Watchdog _ _ | ContainerCreate _ _ _ => False
  | _ => True
  end.

(** Calls that the own container may make. *)
Definition stopping (c : power_call) : Prop :=
  match c with ContainerStop _ _ | ContainerWait _ => True | _ => free c end.

Lemma only_power_ask {A} (P : power_call → Prop) c (H : power_answer c = api A) : P c → only P (do_ask c H).
Proof. intros HP. apply only_bind; [by apply only_invoke|]. intros x. apply only_expect. Qed.

Lemma follow_free n : only free (follow n).
Proof.
  induction n as [|n IH]; cbn [follow]; [done|]. apply only_bind; [by apply only_invoke|]. intros [k b]. by case_match.
Qed.

Ltac power_calls :=
  unfold ask;
  repeat first
    [ progress intros
    | exact I
    | progress (auto with calls; fail)
    | by apply only_power_ask
    | by apply only_invoke
    | apply follow_free
    | apply only_bind
    | apply only_attempt
    | apply only_ignore
    | case_match ].

Lemma shutdown_timeout_spec t :
  let seconds := if (t =? 0)%Z then 60%Z else Z.max 5 t in
  shutdown_timeout t = wrap64 (seconds * 10 ^ 9) ∧
  ((t ≤ 9223372036)%Z →
   (shutdown_timeout t = seconds * 10 ^ 9 ∧ 5 * 10 ^ 9 ≤ shutdown_timeout t)%Z).
Proof.
  intros seconds. assert (shutdown_timeout t = wrap64 (seconds * 10 ^ 9)) as ->.
  { unfold shutdown_timeout, seconds. cbv zeta. repeat case_match; f_equal; lia. }
  split; [done|]. intros Ht. assert (5 ≤ seconds ≤ 9223372036)%Z.
  { unfold seconds. case_match; lia. }
  rewrite wrap64_small by lia. lia.
Qed.

Section Guards.
Context (args : list string) (fuel : nat) (f : flags) (force : bool) (code : Z).

Lemma ok_free {A} (p : power A) w : only free p → ok_spec (guarded args f force code) p (λ _ _, True) w.
Proof using Type.
  intros Hp. apply ok_only. eapply only_mono; [|exact Hp]. intros [] Hc w' x; try done.
Qed.

Lemma ok_power_ask {A} c (H : power_answer c = api A) w :
  (∀ w1 x, w `prefix_of` w1 → guarded args f force code w1 (existT c x)) →
  ok_spec (guarded args f force code) (do_ask c H)
    (λ a w', ∃ x, eq_rect _ (λ T, T) x _ H = AOk a ∧ existT c x ∈ w') w.
Proof using Type.
  intros HG. unfold do_ask, ask. ok_call; [done|]. intros x w1 Hw1 Hx%since_elem.
  eapply spec_mono; [|apply spec_prefix, expect_spec]. intros r w2 [Hw2 Hr] a Ha.
  exists x. split; [by apply Hr|]. by eapply elem_of_prefix.
Qed.

Lemma ok_power_ask_free {A} c (H : power_answer c = api A) w :
  free c → ok_spec (guarded args f force code) (do_ask c H)
    (λ a w', ∃ x, eq_rect _ (λ T, T) x _ H = AOk a ∧ existT c x ∈ w') w.
Proof using Type. intros Hc. apply ok_power_ask. intros w1 x _. by destruct c. Qed.

(** [runDocker] returns only in the container. *)
Lemma runDocker_spec name w :
  force = false →
  ok_spec (guarded args f force code) (runDocker args fuel name)
    (λ _ w', existT (Getenv "IN_DOCKER") "true" ∈ w') w.
Proof using Type.
  intros Hf. unfold runDocker, ask. ok_call; [done|]. intros x w1 Hw1 Hx%since_elem.
  destruct (String.eqb_spec x "true") as [->|Hne].
  { apply ok_done; [intros _ w2 w3 Hw He; by eapply elem_of_prefix|done]. }
  eapply ok_bind; [apply ok_free; power_calls|]. intros _ w2 Hw2 _.
  eapply ok_bind; [apply ok_free; unfold panic; power_calls|]. intros name' w3 Hw3 _.
  eapply ok_bind; [apply ok_free; unfold remove_old; power_calls|]. intros _ w4 Hw4 _.
  eapply ok_bind; [by apply ok_power_ask_free|]. intros id w5 Hw5 (x1 & Hx1 & Hid).
  eapply ok_bind; [by apply ok_power_ask_free|]. intros current w6 Hw6 (x2 & Hx2 & Hcur).
  cbn in Hx1, Hx2. subst x1 x2.
  eapply ok_bind; [apply ok_power_ask|].
  { intros w7 y Hw7. split; [done|]. split.
    - exists x. split; [done|]. eapply elem_of_prefix; [exact Hx|]. do 5 (etrans; [eassumption|]). done.
    - exists id, current. split_and!; try done; eapply elem_of_prefix; [exact Hid|by etrans|exact Hcur|done]. }
  intros new w7 Hw7 _. eapply ok_bind; [by apply ok_power_ask_free|]. intros _ w8 Hw8 _.
  ok_call; [done|]. intros reader w9 Hw9 _.
  eapply ok_bind; [apply ok_free; unfold exit; power_calls|]. intros _ w10 Hw10 _.
  eapply ok_bind; [apply ok_free; power_calls|]. intros _ w11 Hw11 _.
  apply ok_done; [intros _ w12 w13 Hw He; by eapply elem_of_prefix|by intros a [=]].
Qed.

Lemma shutDownContainers_spec w :
  force = false → wants_kexec f = false → existT (Getenv "IN_DOCKER") "true" ∈ w →
  ok_spec (guarded args f force code) (shutDownContainers args) (λ _ _, True) w.
Proof using Type.
  intros Hf Hk Hw. apply ok_only_from.
  assert (∀ c, stopping c →
    ∀ w' x, w `prefix_of` w' → guarded args f force code w' (existT c x)) as Hc.
  { intros [] H w' x Hw'; try done; (split_and!; [done| |done]; by eapply elem_of_prefix). }
  assert (∀ g H current cs idx before errors, (∀ c, stopping (g c)) →
    only (λ c, ∀ w' x, w `prefix_of` w' → guarded args f force code w' (existT c x))
      (each_container g H current cs idx before errors)) as Heach.
  { intros g H current cs. induction cs as [|c cs IH]; intros idx before errors Hg; cbn [each_container]; [done|].
    case_match; [by apply IH|]. apply only_bind; [unfold first_name; by case_match|]. intros n.
    case_match; [by apply IH|]. apply only_bind; [unfold short_id; by case_match|]. intros _.
    apply only_bind; [apply only_invoke, Hc, Hg|]. intros x. by apply IH. }
  unfold shutDownContainers. apply only_bind; [done|]. intros [[] t]; cbn [negb]; [|done].
  apply only_bind; [by apply only_power_ask, Hc|]. intros _.
  apply only_bind; [by apply only_power_ask, Hc|]. intros cs1. apply only_bind; [by apply only_power_ask, Hc|]. intros current.
  apply only_bind; [by apply Heach|]. intros [i1 stops]. apply only_bind; [by apply only_power_ask, Hc|]. intros cs2.
  apply only_bind; [by apply Heach|]. intros [i2 waits].
  apply only_bind; [|intros [[] []]; done]. unfold stop_console, short_id, ask, panic.
  repeat first [progress intros | exact I | apply only_bind | by apply only_invoke, Hc | case_match].
Qed.

Lemma Kexec_spec previous bootDir append w :
  wants_kexec f = true → (force = true ∨ existT (Getenv "IN_DOCKER") "true" ∈ w) →
  ok_spec (guarded args f force code) (Kexec previous bootDir append) (λ _ _, True) w.
Proof using Type.
  intros Hk Hw. apply ok_only_from. unfold Kexec.
  apply only_bind; [apply only_power_ask; by intros w' x _|]. intros files.
  apply only_bind; [case_match; [apply only_power_ask; by intros w' x _|done]|]. intros app.
  apply only_bind; [|done]. apply only_power_ask. intros w' x Hw'. split; [done|].
  destruct Hw as [Hw|Hw]; [by left|right; by eapply elem_of_prefix].
Qed.

End Guards.

Section Reboot.
Context (args : list string) (fuel : nat) (f : flags) (force : bool) (code : Z).

Lemma reboot_spec name w : ok_spec (guarded args f force code) (reboot args fuel f name force code) (λ _ _, True) w.
Proof using Type.
  unfold reboot, ask. ok_call; [done|]. intros euid w1 Hw1 He.
  eapply (ok_bind _ _ _ (λ _ w', existT Geteuid 0%Z ∈ w')).
  { destruct (Z.eqb_spec euid 0) as [->|]; apply ok_done; [|by intros [] _; eapply since_elem| |by intros a [=]];
      intros _ w2 w3 Hw H; by eapply elem_of_prefix. }
  intros _ w2 Hw2 Hroot. ok_call; [done|]. intros cfg w3 Hw3 Hcfg.
  eapply (ok_bind _ _ _ (λ t w', existT PLoadConfig (Some t) ∈ w')).
  { destruct cfg as [t|]; apply ok_done; try (intros t' w4 w5 Hw H; by eapply elem_of_prefix); [|by intros a [=]].
    intros t' [= <-]. by eapply since_elem. }
  intros timeout w4 Hw4 Htimeout.
  eapply ok_bind; [apply ok_free; destruct force; [done|]; unfold validated; power_calls|]. intros valid w5 Hw5 _.
  destruct valid; cbn [negb]; [|by apply ok_only]. ok_call.
  { intros w6 [] Hw6. split; [done|]. exists timeout. split; [|apply shutdown_timeout_spec].
    eapply elem_of_prefix; [exact Htimeout|by etrans]. }
  intros _ w6 Hw6 _. eapply (ok_bind _ _ _ (λ _ w', force = true ∨ existT (Getenv "IN_DOCKER") "true" ∈ w')).
  { destruct force eqn:Ef; [apply ok_done; auto; intros _ ? ? _ ?; auto|].
    eapply ok_bind; [by apply ok_attempt, runDocker_spec|]. intros r w7 Hw7 Hin.
    destruct r as [[]|e|e]; apply ok_done; try by intros a [=].
    all: try (intros [] w8 w9 Hw [H|H]; [by left|right; by eapply elem_of_prefix]).
    intros [] _. right. by apply (Hin ()). }
  intros _ w7 Hw7 Hin. destruct (wants_kexec f) eqn:Ek.
  - ok_call; [done|]. intros mounted w8 Hw8 _. case_match; [by apply ok_only|].
    eapply ok_bind; [|intros _ w9 _ _; apply ok_free; power_calls].
    eapply ok_bind; [|intros _ w9 _ _; by apply ok_only].
    apply ok_attempt, Kexec_spec; [done|]. destruct Hin as [H1|H1]; [by left|right; by eapply elem_of_prefix].
  - eapply (ok_bind _ _ _ (λ _ _, True)).
    { destruct force eqn:Ef; [by apply ok_only|]. destruct Hin as [H|Hin]; [done|].
      eapply ok_bind; [by apply ok_attempt, shutDownContainers_spec|]. intros r w8 _ _. by apply ok_only. }
    intros _ w8 Hw8 _. ok_call; [done|]. intros x w9 Hw9 Hsync. ok_call.
    + intros w10 y Hw10. split_and!; [done| | |done|].
      * eapply elem_of_prefix; [exact Hroot|]. do 7 (etrans; [eassumption|]). done.
      * destruct Hin as [H|H]; [by left|right]. eapply elem_of_prefix; [exact H|]. do 2 (etrans; [eassumption|]). done.
      * exists x. eapply elem_of_prefix; [by eapply since_elem|done].
    + intros y w10 _ _. apply ok_free. power_calls.
Qed.

(** C27: What a shutdown may do where: [guarded] holds of every call of [reboot], whatever
    is answered. *)
Theorem reboot_guarded name l r :
  behaves (reboot args fuel f name force code) l r → ∀ i e, l !! i = Some e → guarded args f force code (take i l) e.
Proof using Type. intros H. exact (proj2 (spec_behaves _ _ _ _ _ [] H (reboot_spec name []))). Qed.
End Reboot.

(** ** Examples *)

(** The system has the containers of [first] and then those of [second]; the state counts
    the listings. *)
Definition power_machine (in_container : string) (first second : list container) (c : power_call) (n : nat) :
    power_answer c * nat :=
  match c return power_answer c * nat with
  | POs c => (plain c, n)
  | Getenv _ => (in_container, n)
  | Geteuid => (0%Z, n)
  | GetCurrentContainerID => (AOk "power0123456789", n)
  | ContainerCreate _ _ _ | ReadGlobalCfg _ => (AOk "id", n)
  | PLoadConfig => (Some 3%Z, n)
  | PLoadConfigWithError => (AOk None, n)
  | Inspect _ => (AOk {| i_ID := "self"; i_Image := "image" |}, n)
  | ContainerList => (AOk (if (n =? 0)%nat then first else second), S n)
  | ReadLog => ((0%nat, true), n)
  | ReadSyslinuxCfg _ => (AOk ("vmlinuz", "initrd"), n)
  | Watchdog _ _ => ((), n)
  | _ => (AOk (), n)
  end.

Definition cont (id name : string) : container := {| c_ID := id; c_Names := [name] |}.

Definition own : container := cont "power0123456789" "/reboot".
Definition console : container := cont "console012345678" "/console".
Definition web : container := cont "web0123456789abc" "/web".
Definition ntp : container := cont "ntp0123456789abc" "/ntp".

Lemma shutDownContainers_calls_witness :
  let machine := power_machine "true" [own; web; console; ntp] [own; console; ntp] in
  let l := (exchanges machine (shutDownContainers ["reboot"]) 0%nat).1 in
  question_failed l (Ok ()) ∨
  ∃ cs1 cs2 current stops waits last,
    l = (existT NewClient (AOk ()) :: existT ContainerList (AOk cs1) ::
         existT GetCurrentContainerID (AOk current) :: stops ++
         existT ContainerList (AOk cs2) :: waits ++ last)%list ∧
    projT1 <$> stops = (λ c, ContainerStop (c_ID c) 2) <$> others current cs1 ∧
    projT1 <$> waits = (λ c, ContainerWait (c_ID c)) <$> others current cs2 ∧
    projT1 <$> last =
      console_calls 2 cs2 (console_index current cs2 0 (console_index current cs1 0 (-1))).
Proof.
  cbv zeta.
  pose proof (exchanges_behaves (power_machine "true" [own; web; console; ntp] [own; console; ntp])
    (shutDownContainers ["reboot"]) 0%nat) as Hb.
  assert ((exchanges (power_machine "true" [own; web; console; ntp] [own; console; ntp])
    (shutDownContainers ["reboot"]) 0%nat).2 = Ok ()) as E by (vm_compute; reflexivity).
  rewrite E in Hb.
  exact (shutDownContainers_calls ["reboot"] 2 _ _ eq_refl Hb ltac:(done)).
Defined.

(** When the console has ended by itself, the index of the first listing is used on the
    second: another container is stopped, or there is none and the command panics. *)
Lemma console_index_is_stale :
  (projT1 <$> (exchanges (power_machine "true" [web; console; own] [own; ntp]) (shutDownContainers ["reboot"]) 0%nat).1) =
    [NewClient; ContainerList; GetCurrentContainerID; ContainerStop (c_ID web) 2; ContainerList;
     ContainerWait (c_ID ntp); ContainerStop (c_ID ntp) 2; ContainerWait (c_ID ntp)] ∧
  (exchanges (power_machine "true" [own; web; console] [own]) (shutDownContainers ["reboot"]) 0%nat).2 =
    Panic "index out of range".
Proof. split; vm_compute; reflexivity. Qed.

Definition demo_reboot : power () :=
  reboot ["reboot"] 9 (default_flags "reboot") "reboot" false LINUX_REBOOT_CMD_RESTART.

Lemma reboot_guarded_witness :
  let l := (exchanges (power_machine "true" [own; web; console] [own; console]) demo_reboot 0%nat).1 in
  ∃ e, l !! 13%nat = Some e ∧ projT1 e = POs (OS.Reboot LINUX_REBOOT_CMD_RESTART) ∧
    guarded ["reboot"] (default_flags "reboot") false LINUX_REBOOT_CMD_RESTART (take 13 l) e.
Proof.
  cbv zeta. eexists. split_and!; cycle 2;
    [eapply (reboot_guarded ["reboot"] 9 (default_flags "reboot") false LINUX_REBOOT_CMD_RESTART "reboot" _ _
       (exchanges_behaves (power_machine "true" [own; web; console] [own; console]) demo_reboot 0%nat) 13%nat)|..];
    vm_compute; reflexivity.
Defined.

(** The flag -H of poweroff and reboot says that it halts the machine; it changes nothing. *)
Lemma halt_flag_ignored app :
  app = "poweroff" ∨ app = "reboot" →
  let f := default_flags app in
  power_cmd {| haltFlag := true; poweroffFlag := poweroffFlag f; rebootFlag := rebootFlag f; forceFlag := forceFlag f;
               kexecFlag := kexecFlag f; previouskexecFlag := previouskexecFlag f; kexecAppendFlag := kexecAppendFlag f |} =
  power_cmd f.
Proof. by intros [-> | ->]. Qed.
