(* ===== verification/Respawn.v ===== *)
(** * Restarting the console processes ([cmd/respawn/respawn.go])

    One goroutine for each line of the input runs its command again and again; the main
    goroutine waits for all of them, and a signal ends them. The goroutines, the table of
    processes, the flag and the channel are a state machine whose steps are the points where
    a goroutine can be interrupted. *)

From stdpp Require Import prelude gmap strings list.
From S2P Require Import Prelude GoStrings.

Local Open Scope string_scope.

(** ** Data *)

(** Where a goroutine of [execute] is in its loop. *)
Inductive phase :=
  | Starting
  | Started (pid : Z)      (** the process runs and is not yet in the table *)
  | Waiting (pid : Z)
  | Exited (pid : Z)       (** and is still in the table *)
  | Checking
  | Sending
  | Finished.

Record thread := { t_line : string; t_phase : phase; t_count : Z }.

Record state := {
  running : bool;
  processes : gset Z;
  threads : list thread;
  doneChannel : list string;
  received : list string;
  signalled : list Z;
}.

(** The lines of the input that have no goroutine. *)
Definition skipped (line : string) : bool :=
  String.eqb (TrimSpace line) "" || HasPrefix (TrimSpace line) "#".

Definition input_lines (input : string) : list string := Split input "010".

(** The state when [run] begins to wait. *)
Definition start_run (lines : list string) : state :=
  {| running := true; processes := ∅;
     threads := (λ l, {| t_line := l; t_phase := Starting; t_count := 0 |}) <$> filter (λ l, skipped l = false) lines;
     doneChannel := []; received := []; signalled := [] |}.

(** ** Steps *)

Inductive event :=
  | Sigterm                                  (** [termPids] *)
  | Start (i : nat) (pid : option Z)         (** [cmd.Start], which can fail *)
  | AddProcess (i : nat)
  | Exit (i : nat)                           (** [cmd.Wait] returns *)
  | RemoveProcess (i : nat)
  | Check (i : nat) (fast : bool)            (** the end of the loop; [fast]: at most a second has passed *)
  | Send (i : nat)                           (** the deferred send *)
  | Receive.

Definition set_thread (i : nat) (t : thread) (s : state) : state :=
  {| running := running s; processes := processes s; threads := <[i := t]> (threads s);
     doneChannel := doneChannel s; received := received s; signalled := signalled s |}.

Definition set_processes (p : gset Z) (s : state) : state :=
  {| running := running s; processes := p; threads := threads s; doneChannel := doneChannel s;
     received := received s; signalled := signalled s |}.

Definition at_phase (p : phase) (t : thread) : thread :=
  {| t_line := t_line t; t_phase := p; t_count := t_count t |}.

Definition with_count (n : Z) (t : thread) : thread :=
  {| t_line := t_line t; t_phase := t_phase t; t_count := n |}.

Definition termPids (s : state) : state :=
  {| running := false; processes := processes s; threads := threads s; doneChannel := doneChannel s;
     received := received s; signalled := (signalled s ++ elements (processes s))%list |}.

(** What follows a command that has ended. *)
Definition after_command (running fast : bool) (t : thread) : thread :=
  if negb running then at_phase Sending t
  else
    let count := (t_count t + 1)%Z in
    if (10 <? count)%Z then
      if fast then at_phase Sending (with_count count t) else at_phase Starting (with_count 0 t)
    else at_phase Starting (with_count count t).

(** The phase a goroutine has to be in, and what it does; [capacity] is that of the channel. *)
Definition thread_step (capacity : nat) (i : nat) (ev : event) (t : thread) (s : state) : option state :=
  match ev, t_phase t with
  | Start _ (Some pid), Starting => Some (set_thread i (at_phase (Started pid) t) s)
  | Start _ None, Starting => Some (set_thread i (at_phase Checking t) s)
  | AddProcess _, Started pid =>
      Some (set_processes (processes s ∪ {[pid]}) (set_thread i (at_phase (Waiting pid) t) s))
  | Exit _, Waiting pid => Some (set_thread i (at_phase (Exited pid) t) s)
  | RemoveProcess _, Exited pid =>
      Some (set_processes (processes s ∖ {[pid]}) (set_thread i (at_phase Checking t) s))
  | Check _ fast, Checking => Some (set_thread i (after_command (running s) fast t) s)
  | Send _, Sending =>
      if (length (doneChannel s) <? capacity)%nat then
        Some {| running := running s; processes := processes s; threads := <[i := at_phase Finished t]> (threads s);
                doneChannel := (doneChannel s ++ [t_line t])%list; received := received s; signalled := signalled s |}
      else None
  | _, _ => None
  end.

(** The main goroutine receives as often as the input has lines. *)
Definition receive (capacity : nat) (s : state) : option state :=
  match doneChannel s with
  | line :: rest =>
      if (length (received s) <? capacity)%nat then
        Some {| running := running s; processes := processes s; threads := threads s; doneChannel := rest;
                received := (received s ++ [line])%list; signalled := signalled s |}
      else None
  | [] => None
  end.

Definition event_thread (ev : event) : option nat :=
  match ev with
  | Start i _ | AddProcess i | Exit i | RemoveProcess i | Check i _ | Send i => Some i
  | Sigterm | Receive => None
  end.

Definition step (capacity : nat) (ev : event) (s : state) : option state :=
  match event_thread ev with
  | Some i => t ← threads s !! i; thread_step capacity i ev t s
  | None => match ev with Sigterm => Some (termPids s) | _ => receive capacity s end
  end.

Fixpoint steps (capacity : nat) (evs : list event) (s : state) : option state :=
  match evs with
  | [] => Some s
  | ev :: evs => s' ← step capacity ev s; steps capacity evs s'
  end.

(** [run] has returned. *)
Definition returned (lines : list string) (s : state) : Prop := length (received s) = length lines.

(** ** What is sent *)

Definition unsent (t : thread) : bool := match t_phase t with Finished => false | _ => true end.

Definition to_come (s : state) : list string := t_line <$> filter (λ t, unsent t = true) (threads s).

Definition run_inv (lines : list string) (s : state) : Prop :=
  (received s ++ doneChannel s ++ to_come s)%list ≡ₚ filter (λ l, skipped l = false) lines.

Lemma to_come_insert ts i t t' :
  ts !! i = Some t → t_line t' = t_line t → unsent t = true →
  t_line <$> filter (λ t, unsent t = true) ts ≡ₚ
    ((if unsent t' then [] else [t_line t]) ++ (t_line <$> filter (λ t, unsent t = true) (<[i := t']> ts)))%list.
Proof.
  intros Hi Hl Ht. rewrite <-(take_drop_middle ts i t Hi) at 1. rewrite insert_take_drop by (by eapply lookup_lt_Some).
  rewrite !filter_app, !fmap_app, !filter_cons. rewrite decide_True by done.
  destruct (unsent t') eqn:E; [rewrite decide_True by done|rewrite decide_False by done]; cbn.
  - by rewrite Hl.
  - by rewrite <-Permutation_middle.
Qed.

Lemma respawn_step_inv lines cap ev s s' : run_inv lines s → step cap ev s = Some s' → run_inv lines s'.
Proof.
  unfold run_inv, step, to_come. intros Hinv Hs. destruct (event_thread ev) as [i|] eqn:Ei.
  - destruct (threads s !! i) as [t|] eqn:Et; [cbn in Hs|done]. unfold thread_step in Hs.
    assert (∀ t', t_line t' = t_line t → unsent t = true → unsent t' = true →
      (received s ++ doneChannel s ++ (t_line <$> filter (λ t, unsent t = true) (<[i := t']> (threads s))))%list
        ≡ₚ filter (λ l, skipped l = false) lines) as Hmove.
    { intros t' Hl Hu Hu'. pose proof (to_come_insert _ _ _ _ Et Hl Hu) as H. rewrite Hu' in H. cbn in H.
      by rewrite <-H. }
    destruct ev as [|j [pid|]|j|j|j|j fast|j|]; try done; destruct (t_phase t) eqn:Ep; try done;
      try (injection Hs as <-; cbn; apply Hmove; [done|by unfold unsent; rewrite Ep|done]).
    + injection Hs as <-. cbn. apply Hmove; [|by unfold unsent; rewrite Ep|];
        unfold after_command; by repeat case_match.
    + case_match; [|done]. injection Hs as <-. cbn.
      assert (unsent t = true) as Hu by (unfold unsent; by rewrite Ep).
      pose proof (to_come_insert _ _ _ (at_phase Finished t) Et eq_refl Hu) as Hperm. cbn in Hperm.
      rewrite <-Hinv, Hperm, <-!app_assoc. done.
  - destruct ev; try done; [by injection Hs as <-|].
    unfold receive in Hs. destruct (doneChannel s) as [|line rest] eqn:Ec; [done|]. case_match; [|done].
    injection Hs as <-. cbn. by rewrite <-app_assoc.
Qed.

Lemma steps_inv lines cap evs s s' : run_inv lines s → steps cap evs s = Some s' → run_inv lines s'.
Proof.
  revert s. induction evs as [|ev evs IH]; intros s Hinv; cbn [steps]; [by intros [= <-]|].
  intros (s1 & H1 & H2)%bind_Some. eapply IH; [|done]. by eapply respawn_step_inv.
Qed.

Lemma start_inv lines : run_inv lines (start_run lines).
Proof.
  unfold run_inv, to_come, start_run. cbn [received doneChannel threads app].
  induction (filter (λ l, skipped l = false) lines) as [|l ls IH]; [done|].
  rewrite fmap_cons, filter_cons_True by done. cbn [fmap list_fmap t_line]. by rewrite IH.
Qed.

Lemma filter_length_all (lines : list string) :
  length (filter (λ l, skipped l = false) lines) = length lines → Forall (λ l, skipped l = false) lines.
Proof.
  induction lines as [|l lines IH]; [done|]. rewrite filter_cons. case_decide; cbn; intros Hlen.
  - constructor; [done|]. apply IH. lia.
  - pose proof (length_filter (λ l, skipped l = false) lines). lia.
Qed.

(** C33: What [run] prints is what ran: at every moment the lines that were received, those
    in the channel and those whose goroutines have not ended are the lines that are neither
    blank nor comments, each once. The channel never fills up, so that no goroutine blocks
    when it sends. And [run] only returns when there is no blank line and no comment: it
    waits for one message for each line of the input, and those lines send none. *)
Theorem run_waits_for_all lines evs s :
  steps (length lines) evs (start_run lines) = Some s →
  (received s ++ doneChannel s ++ to_come s)%list ≡ₚ filter (λ l, skipped l = false) lines ∧
  (∀ i t, threads s !! i = Some t → t_phase t = Sending → is_Some (step (length lines) (Send i) s)) ∧
  (returned lines s → Forall (λ l, skipped l = false) lines).
Proof.
  intros Hs. assert (run_inv lines s) as Hinv by (eapply steps_inv; [apply start_inv|done]).
  pose proof (length_filter (λ l, skipped l = false) lines) as Hf.
  pose proof (Permutation_length Hinv) as Hlen. rewrite !length_app in Hlen.
  split_and!; [done| |].
  - intros i t Hi Ht. unfold step. cbn [event_thread]. rewrite Hi. unfold mbind, option_bind, thread_step.
    rewrite Ht.
    assert (length (to_come s) ≠ 0)%nat as Hn.
    { unfold to_come. rewrite length_fmap. intros E%nil_length_inv.
      apply (filter_nil_not_elem_of _ _ t E); [unfold unsent; by rewrite Ht|]. by eapply list_elem_of_lookup_2. }
    assert ((length (doneChannel s) <? length lines)%nat = true) as -> by (apply Nat.ltb_lt; lia). by eexists.
  - unfold returned. intros Hr. apply filter_length_all. lia.
Qed.

(** ** How often a command is started *)

Definition is_start (i : nat) (ev : event) : bool := match ev with Start j _ => (i =? j)%nat | _ => false end.
Definition is_slow (i : nat) (ev : event) : bool := match ev with Check j false => (i =? j)%nat | _ => false end.

Definition count_events (f : event → bool) (evs : list event) : Z := Z.of_nat (length (filter (λ ev, f ev = true) evs)).

Lemma count_events_cons f ev evs :
  count_events f (ev :: evs) = ((if f ev then 1 else 0) + count_events f evs)%Z.
Proof.
  unfold count_events. rewrite filter_cons. destruct (f ev); [rewrite decide_True by done|rewrite decide_False by done]; cbn; lia.
Qed.

(** The starts since the counter was last reset. *)
Definition used (t : thread) : Z :=
  match t_phase t with
  | Starting => t_count t
  | Sending | Finished => 11
  | _ => t_count t + 1
  end.

Definition counter_ok (t : thread) : Prop :=
  match t_phase t with Sending | Finished => True | _ => (0 ≤ t_count t ≤ 10)%Z end.

Lemma counter_used t : counter_ok t → (0 ≤ used t ≤ 11)%Z.
Proof. unfold counter_ok, used. destruct (t_phase t); lia. Qed.

(** One step, as one goroutine sees it. *)
Lemma step_thread cap ev s s' i t :
  step cap ev s = Some s' → threads s !! i = Some t → counter_ok t →
  ∃ t', threads s' !! i = Some t' ∧ counter_ok t' ∧
    ((if is_start i ev then 1 else 0) + used t ≤ 11 * (if is_slow i ev then 1 else 0) + used t')%Z ∧
    (running s = false → running s' = false ∧
      ((if is_start i ev then 1 else 0) + (match t_phase t' with Starting => 1 | _ => 0 end) ≤
        (match t_phase t with Starting => 1 | _ => 0 end))%Z).
Proof.
  intros Hs Hi Hc. unfold step in Hs. destruct (event_thread ev) as [j|] eqn:Ej; cycle 1.
  { assert (threads s' = threads s ∧ (running s = false → running s' = false)) as [Ht Hr].
    { destruct ev; try done; [by injection Hs as <-|]. unfold receive in Hs. repeat case_match; by simplify_eq. }
    exists t. rewrite Ht. assert (is_start i ev = false ∧ is_slow i ev = false) as [-> ->] by (by destruct ev).
    split_and!; [done..|lia|]. intros H. split; [auto|]. lia. }
  apply bind_Some in Hs as (u & Hu & Hs).
  destruct (decide (i = j)) as [<-|Hne].
  - rewrite Hi in Hu. injection Hu as <-. unfold thread_step in Hs. unfold counter_ok, used in *.
    assert (i < length (threads s))%nat as Hlt by (by eapply lookup_lt_Some).
    destruct ev as [|? [pid|]|?|?|?|? fast|?|]; try done; injection Ej as ->;
      destruct (t_phase t) eqn:Ep; try done; try (case_match; [|done]); injection Hs as <-; cbn;
      rewrite ?Nat.eqb_refl, list_lookup_insert_eq by done;
      eexists; (split; [reflexivity|]); cbn; try (repeat split; intros; first [done|lia]).
    unfold after_command. destruct (running s), (Z.ltb_spec 10 (t_count t + 1)), fast; cbn;
      repeat split; intros; first [done|lia].
  - assert (threads s' !! i = Some t ∧ (running s = false → running s' = false)) as [Ht Hr].
    { unfold thread_step in Hs. destruct ev as [|? [pid|]|?|?|?|? fast|?|]; destruct (t_phase u); try done;
        repeat case_match; simplify_eq; cbn; by rewrite list_lookup_insert_ne. }
    exists t. assert (is_start i ev = false ∧ is_slow i ev = false) as [-> ->].
    { destruct ev as [|? []|?|?|?|? []|?|]; try done; injection Ej as ->; cbn; by rewrite (proj2 (Nat.eqb_neq i j)). }
    split_and!; [done..|lia|]. intros H. split; [auto|]. lia.
Qed.

Lemma steps_thread cap evs s s' i t :
  steps cap evs s = Some s' → threads s !! i = Some t → counter_ok t →
  ∃ t', threads s' !! i = Some t' ∧ counter_ok t' ∧
    (count_events (is_start i) evs + used t ≤ 11 * count_events (is_slow i) evs + used t')%Z ∧
    (running s = false → (count_events (is_start i) evs ≤ match t_phase t with Starting => 1 | _ => 0 end)%Z).
Proof.
  revert s t. induction evs as [|ev evs IH]; intros s t; cbn [steps].
  - intros [= <-] Hi Hc. exists t. unfold count_events. cbn. split_and!; [done..|lia|]. intros _. case_match; lia.
  - intros (s1 & Hs1 & Hs)%bind_Some Hi Hc.
    destruct (step_thread _ _ _ _ _ _ Hs1 Hi Hc) as (t1 & Hi1 & Hc1 & Hu1 & Hr1).
    destruct (IH _ _ Hs Hi1 Hc1) as (t2 & Hi2 & Hc2 & Hu2 & Hr2). exists t2. rewrite !count_events_cons.
    split_and!; [done..|lia|]. intros H. destruct (Hr1 H) as [H1 Hle]. specialize (Hr2 H1). lia.
Qed.

Lemma steps_other cap evs s s' i :
  steps cap evs s = Some s' → threads s !! i = None → count_events (is_start i) evs = 0%Z.
Proof.
  revert s. induction evs as [|ev evs IH]; intros s; cbn [steps]; [done|].
  intros (s1 & Hs1 & Hs)%bind_Some Hi. rewrite count_events_cons.
  assert (threads s1 !! i = None ∧ is_start i ev = false) as [Hi1 ->]; [|by rewrite (IH _ Hs Hi1)].
  unfold step in Hs1. destruct (event_thread ev) as [j|] eqn:Ej; cycle 1.
  { unfold receive in Hs1. destruct ev; try done; repeat case_match; by simplify_eq/=. }
  apply bind_Some in Hs1 as (u & Hu & Hs1). assert (i ≠ j) as Hne by (intros ->; congruence). split.
  - unfold thread_step in Hs1. destruct ev as [|? [pid|]|?|?|?|? fast|?|]; destruct (t_phase u); try done;
      repeat case_match; simplify_eq; cbn; by rewrite list_lookup_insert_ne.
  - destruct ev; try done; injection Ej as ->; cbn; by rewrite (proj2 (Nat.eqb_neq i j)).
Qed.

(** How often a command runs. Until more than a second has passed at the end of a turn, a
    goroutine starts its command eleven times at most, and eleven times more after each time
    that it has; after a SIGTERM, whenever that comes, it starts it once more at most, and
    only when it was about to. *)
Theorem respawn_limit lines evs s i evs' s' :
  steps (length lines) evs (start_run lines) = Some s →
  (count_events (is_start i) evs ≤ 11 * (1 + count_events (is_slow i) evs))%Z ∧
  (running s = false → steps (length lines) evs' s = Some s' →
   (count_events (is_start i) evs' ≤ 1)%Z ∧
   (∀ t, threads s !! i = Some t → t_phase t ≠ Starting → count_events (is_start i) evs' = 0%Z)).
Proof.
  intros Hs. assert (0 ≤ count_events (is_slow i) evs)%Z as Hslow by (unfold count_events; lia).
  destruct (threads (start_run lines) !! i) as [t|] eqn:Hi.
  - assert (t_phase t = Starting ∧ t_count t = 0%Z) as [Hp Hc].
    { cbn in Hi. apply list_lookup_fmap_Some in Hi as (l & -> & _). done. }
    destruct (steps_thread _ _ _ _ _ _ Hs Hi) as (t1 & Hi1 & Hc1 & Hu & _).
    { unfold counter_ok. rewrite Hp. lia. }
    split. { pose proof (counter_used _ Hc1). unfold used in Hu at 1. rewrite Hp in Hu. lia. }
    intros Hr Hs'. destruct (steps_thread _ _ _ _ _ _ Hs' Hi1 Hc1) as (t2 & _ & _ & _ & H). specialize (H Hr).
    split; [by destruct (t_phase t1); lia|]. intros t' Ht' Hne. rewrite Hi1 in Ht'. injection Ht' as <-.
    assert (0 ≤ count_events (is_start i) evs')%Z by (unfold count_events; lia).
    destruct (t_phase t1); try lia. done.
  - rewrite (steps_other _ _ _ _ _ Hs Hi). split; [lia|]. intros Hr Hs'.
    assert (steps (length lines) (evs ++ evs') (start_run lines) = Some s') as Happ.
    { clear -Hs Hs'. revert Hs. generalize (start_run lines). induction evs as [|ev evs IH]; intros s0; cbn; [by intros [= ->]|].
      intros (s1 & -> & H)%bind_Some. cbn. by apply IH. }
    pose proof (steps_other _ _ _ _ _ Happ Hi) as H.
    assert (count_events (is_start i) evs' = 0%Z) as ->; [|done].
    unfold count_events in *. rewrite filter_app, length_app in H. lia.
Qed.

(** ** Examples *)

Definition sample : list string := ["/sbin/getty tty1"; "# a comment"; ""].

(** The command fails to start eleven times in a second, and the goroutine gives up. *)
Definition fast_failure : list event := concat (replicate 11 [Start 0 None; Check 0 true]).

Lemma respawn_limit_witness :
  ∃ s, steps 3 fast_failure (start_run sample) = Some s ∧ threads s !! 0%nat ≠ None ∧
       (count_events (is_start 0) fast_failure ≤ 11 * (1 + count_events (is_slow 0) fast_failure))%Z.
Proof.
  exists (default (start_run []) (steps 3 fast_failure (start_run sample))).
  split_and!; [vm_compute; reflexivity|vm_compute; discriminate|].
  apply (respawn_limit sample fast_failure (default (start_run []) (steps 3 fast_failure (start_run sample))) 0 []
    (start_run [])). vm_compute. reflexivity.
Defined.

Lemma run_waits_for_all_witness :
  ∃ s, steps 3 (fast_failure ++ [Send 0; Receive]) (start_run sample) = Some s ∧ received s = ["/sbin/getty tty1"] ∧
       (returned sample s → Forall (λ l, skipped l = false) sample).
Proof.
  eexists. split_and!; [vm_compute; reflexivity|vm_compute; reflexivity|].
  apply (run_waits_for_all sample (fast_failure ++ [Send 0; Receive])%list). vm_compute. reflexivity.
Defined.

(** A SIGTERM between the start of a process and its entry in the table does not reach it:
    the goroutine waits for a process that nothing has told to end. *)
Lemma sigterm_missed :
  ∃ s, steps 3 [Start 0 (Some 42%Z); Sigterm; AddProcess 0] (start_run sample) = Some s ∧
       running s = false ∧ t_phase <$> threads s !! 0%nat = Some (Waiting 42%Z) ∧ signalled s = [].
Proof. eexists. split_and!; vm_compute; reflexivity. Qed.

