(* ===== verification/Control.v ===== *)
(** * The surroundings of the control commands ([cmd/control/util.go], [config/types.go])

    The commands of [ros] and the programs of the console are programs over the calls of
    [OS], over the configuration, the docker daemon, the project of the system and the
    repositories. Here are these calls, what the commands read of the configuration, and the
    helpers they share. *)

From stdpp Require Import prelude gmap strings list.
From S2P Require Import Prelude GoStrings Prog Conc OS.
From S2P Require RawTree FS Util InitConfig Power.

Local Open Scope string_scope.

(** ** The configuration *)

(** A file of the section write_files. *)
Record File := { File_ : FS.File; Container : string }.

Record SSHConfig := { Keys : gmap string string; Daemon : bool; Port : Z; ListenAddress : string }.

Record StateConfig := {
  Dev : string; Wait : bool; Autoformat : list string; MdadmScan : bool; LvmScan : bool;
  Cryptsetup : bool; Rngd : bool; Script : string;
}.

Record UpgradeConfig := { URL : string; Image : string }.

(** The configuration of the user docker: what it shares with the other daemons, and the rest. *)
Record UserDocker := {
  Opts : InitConfig.DockerConfig;
  Engine : string; ServerCert : string; ServerKey : string; CACert : string; CAKey : string;
  StorageContext : string;
}.

(** [CloudConfig] and [RancherConfig] in one record. Of a service only its image is kept;
    [None] is a nil pointer. *)
Record CloudConfig := {
  SSHAuthorizedKeys : list string;
  WriteFiles_ : list File;
  Hostname_ : string;
  Mounts : list (list string);
  Runcmd : list Util.StringandSlice;
  Bootcmd : list Util.StringandSlice;
  Console : string;
  Environment : gmap string string;
  Services : gmap string (option string);
  BootstrapContainers : gmap string (option string);
  Disable : list string;
  ServicesInclude : gmap string bool;
  ModemNetworks : list string;
  Repositories : gmap string string;
  SSH : SSHConfig;
  State : StateConfig;
  Upgrade : UpgradeConfig;
  Docker : UserDocker;
  ResizeDevice : string;
  Sysctl : gmap string string;
  RestartServices : list string;
  PreloadWait : bool;
}.

Definition set_ServicesInclude (v : gmap string bool) (c : CloudConfig) : CloudConfig :=
  {| SSHAuthorizedKeys := SSHAuthorizedKeys c; WriteFiles_ := WriteFiles_ c; Hostname_ := Hostname_ c;
     Mounts := Mounts c; Runcmd := Runcmd c; Bootcmd := Bootcmd c; Console := Console c;
     Environment := Environment c; Services := Services c; BootstrapContainers := BootstrapContainers c;
     Disable := Disable c; ServicesInclude := v; ModemNetworks := ModemNetworks c; Repositories := Repositories c;
     SSH := SSH c; State := State c; Upgrade := Upgrade c; Docker := Docker c; ResizeDevice := ResizeDevice c;
     Sysctl := Sysctl c; RestartServices := RestartServices c; PreloadWait := PreloadWait c |}.

Definition no_docker : UserDocker :=
  {| Opts := InitConfig.no_docker; Engine := ""; ServerCert := ""; ServerKey := ""; CACert := ""; CAKey := "";
     StorageContext := "" |}.

Definition no_state : StateConfig :=
  {| Dev := ""; Wait := false; Autoformat := []; MdadmScan := false; LvmScan := false; Cryptsetup := false;
     Rngd := false; Script := "" |}.

Definition no_config : CloudConfig :=
  {| SSHAuthorizedKeys := []; WriteFiles_ := []; Hostname_ := ""; Mounts := []; Runcmd := []; Bootcmd := [];
     Console := ""; Environment := ∅; Services := ∅; BootstrapContainers := ∅; Disable := [];
     ServicesInclude := ∅; ModemNetworks := []; Repositories := ∅;
     SSH := {| Keys := ∅; Daemon := false; Port := 0; ListenAddress := "" |}; State := no_state;
     Upgrade := {| URL := ""; Image := "" |}; Docker := no_docker; ResizeDevice := ""; Sysctl := ∅;
     RestartServices := []; PreloadWait := false |}.

(** What the build fixes besides the version. *)
Class Release := { Suffix : string; GOARCH : string; Banner : string }.

(** ** Calls *)

(** What [ContainerInspect] tells, a container and a network of a list. *)
Record inspected := { i_ID : string; i_Name : string; i_Image : string; i_Running : bool; i_Pid : Z }.
Record listed := { l_State : string; l_Labels : gmap string string }.
Record network := { n_Name : string; n_Subnets : list string }.

(** What a command sets in the configuration. *)
Inductive set_value := SetText (s : string) | SetBool (b : bool) | SetBools (m : gmap string bool).

(** What [config.Get] finds: text is printed as it is, lists and maps as YAML. *)
Inductive got_value := Plain (text : string) | Structured (yaml : api string).

(** The service of [compose.CreateService]: what differs between its uses. *)
Record once_service := { o_Image : string; o_Command : list string; o_VolumesFrom : list string }.

Inductive ctl_call : Type :=
  (** the operating system *)
  | COs (c : os_call)
  | CPower (c : Power.power_call)
  | Chown (p : string) (uid gid : Z)
  | ChownName (p owner : string)
  | RunWith (argv env : list string) (stdin : string)
  | Sleep (millis : Z)
  | ReadLine
  | ReadStdin
  | Println (s : string)
  | IsTerminal (p : string)
  | IsRunningInTty
  | PipeOutput (argv : list string)  (** what a command writes; its error is only logged *)
  | Walk (root : string)             (** the files of a tree in the order they are visited *)
  | ReadDirInfo (p : string)         (** the entries of a directory with their modes *)
  | Listen (port : Z)
  | Args
  | TempScript (content : string)
  | FollowTemplate (src dst : string) (data : list (string * string))
  (** the configuration; it exits when it cannot be parsed *)
  | LoadConfig
  | ConfigGet (key : string)
  | ConfigSet (key : string) (v : set_value)
  | ConfigMerge (bytes : string)
  | ConfigExport (private full : bool)
  | ReadConfig (file : string)
  | ValidateBytes (bytes : string)
  | GetCmdline (key : string)
  | SystemWriteFile (f : FS.File) (root : string)
  (** docker *)
  | NewSystemClient
  | NewClient
  | ContainerInspect (name : string)
  | ContainerRestart (name : string) (timeout : Z)
  | ContainerList (label : string)
  | NetworkList
  | ImageInspect (image : string)
  | GzipReader (file : string)
  | ImageLoad (file : string) (gz : bool)
  | ReadResponse
  | GetCurrentContainerID
  (** the project of the system *)
  | GetProject (networkingAvailable loadConsole : bool)
  | ServiceLabels
  | LoadSpecialService (serviceName serviceValue : string)
  | StageServices (services : list string)
  | ProjectStop (timeout : Z) (services : list string)
  | ProjectStart (service : string)
  | ProjectUp (log : bool) (service : string)
  | ProjectDelete (removeVolume : bool) (services : list string)
  | ServiceContainers (service : string)
  | CreateService (name : string) (service : once_service)
  | ServiceDelete
  | ServiceUp
  | ServiceLog
  | ServicePull
  (** repositories *)
  | UpdateCaches (urls : list string) (key : string)
  | GetResources (urls : list string) (key : string)
  | UpdateCache (url : string)
  | LoadFromNetwork (url : string)
  | LoadServiceResource (name : string) (urls : list string)
  | HTTPGet (url : string)
  (** certificates *)
  | GenerateCACertificate (certFile keyFile : string)
  | GenerateCert (hosts : list string) (certFile keyFile caFile caKeyFile : string).

Definition ctl_answer (c : ctl_call) : Type :=
  match c with
  | COs c => os_answer c
  | CPower c => Power.power_answer c
  | LoadConfig => option CloudConfig
  | ReadConfig _ => api CloudConfig
  | ReadLine | ReadStdin | TempScript _ | ConfigExport _ _ | SystemWriteFile _ _ | GetCurrentContainerID
  | LoadFromNetwork _ | LoadServiceResource _ _ | HTTPGet _ => api string
  | GetCmdline _ => string
  | ConfigGet _ => api got_value
  | IsTerminal _ | IsRunningInTty => bool
  | PipeOutput _ => string
  | ReadDirInfo _ => api (list (string * file_info))
  | Args | Walk _ => list string
  | Listen _ => api Z
  | ValidateBytes _ | GetResources _ _ | ServiceContainers _ => api (list string)
  | ContainerInspect _ => api inspected
  | ContainerList _ => api (list listed)
  | NetworkList => api (list network)
  | ServiceLabels => list (option (gmap string string))
  | Sleep _ | Println _ => ()
  | _ => api ()
  end.

Abbreviation ctl := (prog ctl_answer).

Definition ask (c : ctl_call) : ctl (ctl_answer c) := invoke c.

(** A call that only succeeds or fails. *)
Definition do_ask {A} (c : ctl_call) (H : ctl_answer c = api A) : ctl A :=
  x ← ask c; expect (eq_rect _ (λ T, T) x _ H).

(** A call whose error is dropped or only logged. *)
Definition try_ask {A} (c : ctl_call) (H : ctl_answer c = api A) : ctl () :=
  _ ← ask c; mret ().

Definition lift {A} (r : result A) : ctl A := Done r.

(** Programs over fewer calls. *)
Fixpoint embed {A} (p : os A) : ctl A :=
  match p with
  | Done r => Done r
  | Call c k => Call (COs c) (λ x, embed (k x))
  end.

Fixpoint embed_power {A} (p : Power.power A) : ctl A :=
  match p with
  | Done r => Done r
  | Call c k => Call (CPower c) (λ x, embed_power (k x))
  end.

(** [log.Fatal] and [os.Exit]: nothing recovers from it, and nothing that was deferred runs. *)
Definition exit_status : string := "os.Exit".
Definition exit {A} : ctl A := Done (Panic exit_status).
Definition fatal {A} (msg : string) : ctl A := exit.

Definition panic {A} (msg : string) : ctl A := Done (Panic msg).

(** An error that ends the process. *)
Definition or_fatal {A} (p : ctl A) : ctl A :=
  r ← attempt p;
  match r with Ok a => mret a | Err e | Panic e => fatal e end.

(** A deferred call. *)
Fixpoint deferred {A} (d : ctl ()) (p : ctl A) : ctl A :=
  match p with
  | Done (Panic e) => if String.eqb e exit_status then Done (Panic e) else prog_bind (ignore d) (λ _, Done (Panic e))
  | Done r => prog_bind (ignore d) (λ _, Done r)
  | Call c k => Call c (λ x, deferred d (k x))
  end.

Definition load_config : ctl CloudConfig :=
  c ← ask LoadConfig;
  match (c : option CloudConfig) with Some c => mret c | None => exit end.

Definition args : ctl (list string) := ask Args.

(** The calls of [os] whose results are used as they are. *)
Definition do_os {A} (c : os_call) (H : os_answer c = api A) : ctl A := embed (do_sys c H).
Definition try_os {A} (c : os_call) (H : os_answer c = api A) : ctl () := embed (try_sys c H).
Definition stat (p : string) : ctl (api file_info) := ask (COs (Stat p)).
Definition run_command (argv : list string) : ctl () := do_os (RunCommand argv) eq_refl.

(** ** Helpers of the commands ([cmd/control/util.go], [cmd/control/service/service.go]) *)

Definition newline : string := String "010" "".
Definition crlf : string := String "013" newline.

(** The first byte of the line decides; a line has at least its newline. *)
Definition yes (question : string) : ctl bool :=
  _ ← ask (Println (question +:+ " [y/N]: "));
  line ← or_fatal (do_ask ReadLine eq_refl);
  match line with
  | String c _ => mret (String.eqb (String c "") "y" || String.eqb (String c "") "Y")
  | "" => panic "slice bounds out of range"
  end.

Definition formatImage (image : string) (cfg : CloudConfig) : string :=
  let domainRegistry := default "" (Environment cfg !! "REGISTRY_DOMAIN") in
  if negb (String.eqb domainRegistry "docker.io") && negb (String.eqb domainRegistry "")
  then domainRegistry +:+ "/" +:+ image
  else image.

(** Pairs of an old and a new name. *)
Definition symLinkEngineBinary : list (string * string) := [
  ("/usr/share/ros/os-release", "/usr/lib/os-release");
  ("/usr/share/ros/os-release", "/etc/os-release");
  ("/var/lib/rancher/engine/docker", "/usr/bin/docker");
  ("/var/lib/rancher/engine/dockerd", "/usr/bin/dockerd");
  ("/var/lib/rancher/engine/docker-init", "/usr/bin/docker-init");
  ("/var/lib/rancher/engine/docker-proxy", "/usr/bin/docker-proxy");
  ("/var/lib/rancher/engine/containerd", "/usr/bin/containerd");
  ("/var/lib/rancher/engine/ctr", "/usr/bin/ctr");
  ("/var/lib/rancher/engine/containerd-shim", "/usr/bin/containerd-shim");
  ("/var/lib/rancher/engine/runc", "/usr/bin/runc");
  ("/var/lib/rancher/engine/docker-containerd", "/usr/bin/docker-containerd");
  ("/var/lib/rancher/engine/docker-containerd-ctr", "/usr/bin/docker-containerd-ctr");
  ("/var/lib/rancher/engine/docker-containerd-shim", "/usr/bin/docker-containerd-shim");
  ("/var/lib/rancher/engine/docker-runc", "/usr/bin/docker-runc");
  ("/var/lib/rancher/engine-plugins/docker-compose", "/usr/bin/docker-compose");
  ("/var/lib/rancher/engine-plugins/docker-compose", "/usr/libexec/docker/cli-plugins/docker-compose");
  ("/var/lib/rancher/engine-plugins/docker-buildx", "/usr/libexec/docker/cli-plugins/docker-buildx")].

Definition zfs_mounted (driver dir : string) (mountInfo : string) : bool :=
  existsb (λ mount, GoStrings.Contains mount dir && GoStrings.Contains mount driver) (Split mountInfo "010").

(** Four turns; without the file a turn does not wait. *)
Fixpoint zfs_turns (n : nat) (driver dir : string) : ctl () :=
  match n with
  | O => lift (Err ("BackingFS: " +:+ dir +:+ " not match storage-driver: " +:+ driver))
  | S n =>
      mountInfo ← ask (COs (ReadFile "/proc/self/mountinfo"));
      match (mountInfo : api string) with
      | AOk mountInfo =>
          if zfs_mounted driver dir mountInfo then mret ()
          else _ ← ask (Sleep 1000); zfs_turns n driver dir
      | _ => zfs_turns n driver dir
      end
  end.

Definition checkZfsBackingFS (driver dir : string) : ctl () :=
  if negb (String.eqb driver "zfs") then mret () else zfs_turns 4 driver dir.

(** [os.IsExist] of the error of a stat is never true. *)
Definition checkGlobalCfg : ctl bool :=
  x ← stat "/proc/1/root/boot/global.cfg"; mret (ok x).

Definition isLocal (service : string) : bool := HasPrefix service "/".

Definition IsLocalOrURL (service : string) : bool :=
  isLocal service || HasPrefix service "http:/" || HasPrefix service "https:/".

(** ** Scripts of other engines, files and commands ([pkg/util/util.go]) *)

Definition engine_script (name : string) : string := "/usr/bin/docker-" +:+ name.

Definition RemoveDindEngineScript (name : string) : ctl () :=
  x ← stat (engine_script name);
  if ok x then do_os (Remove (engine_script name)) eq_refl else mret ().

(** The permissions are 755 in decimal, which is 01363. *)
Definition GenerateDindEngineScript (name : string) : ctl () :=
  _ ← RemoveDindEngineScript name;
  do_os (WriteFile (engine_script name)
    ("/usr/bin/docker -H unix:///var/lib/m-user-docker/" +:+ name +:+ "/docker-" +:+ name +:+ ".sock $@") 755) eq_refl.

Definition FileCopy (src dest : string) : ctl () :=
  data ← do_os (ReadFile src) eq_refl;
  do_os (WriteFileAtomic dest data 438) eq_refl.

Definition HTTPDownloadToFile (url dest : string) : ctl () :=
  body ← do_ask (HTTPGet url) eq_refl;
  do_os (WriteFileAtomic dest body 438) eq_refl.

Definition command_line (c : Util.StringandSlice) : list string :=
  if negb (String.eqb (Util.StringValue c) "") then ["sh"; "-c"; Util.StringValue c] else Util.SliceValue c.

(** A command that fails is the last. *)
Fixpoint RunCommandSequence (commands : list Util.StringandSlice) : ctl () :=
  match commands with
  | [] => mret ()
  | command :: commands =>
      match command_line command with
      | [] => RunCommandSequence commands
      | argv => _ ← run_command argv; RunCommandSequence commands
      end
  end.

(** ** The calls of programs *)

Abbreviation ctl_exchange := (@exchange ctl_call ctl_answer).
Abbreviation ctl_log := (list ctl_exchange).

(** A call of the operating system with its answer. *)
Definition osx (c : os_call) (x : os_answer c) : ctl_exchange := existT (COs c) x.

Lemma only_ctl_embed {A} (P : ctl_call → Prop) (p : os A) : only (λ c, P (COs c)) p → only P (embed p).
Proof. induction p as [|c k IH]; cbn [only embed]; [done|]. intros [Hc Hk]. auto. Qed.

Lemma only_embed_power {A} (P : ctl_call → Prop) (p : Power.power A) :
  only (λ c, P (CPower c)) p → only P (embed_power p).
Proof. induction p as [|c k IH]; cbn [only embed_power]; [done|]. intros [Hc Hk]. auto. Qed.

Lemma only_ctl_ask (P : ctl_call → Prop) c : P c → only P (ask c).
Proof. by apply only_invoke. Qed.

Lemma only_ctl_do {A} (P : ctl_call → Prop) c (H : ctl_answer c = api A) : P c → only P (do_ask c H).
Proof. intros HP. apply only_bind; [by apply only_ctl_ask|]. intros. apply only_expect. Qed.

Lemma only_ctl_try {A} (P : ctl_call → Prop) c (H : ctl_answer c = api A) : P c → only P (try_ask c H).
Proof. intros HP. by apply only_bind; [apply only_ctl_ask|]. Qed.

Lemma only_do_os {A} (P : ctl_call → Prop) c (H : os_answer c = api A) : P (COs c) → only P (do_os c H).
Proof. intros HP. by apply only_ctl_embed, only_do_sys. Qed.

Lemma only_try_os {A} (P : ctl_call → Prop) c (H : os_answer c = api A) : P (COs c) → only P (try_os c H).
Proof. intros HP. by apply only_ctl_embed, only_try_sys. Qed.

Lemma only_run_command (P : ctl_call → Prop) argv : P (COs (RunCommand argv)) → only P (run_command argv).
Proof. intros HP. by apply only_do_os. Qed.

Lemma only_stat (P : ctl_call → Prop) p : P (COs (Stat p)) → only P (stat p).
Proof. by apply only_ctl_ask. Qed.

Lemma only_load_config (P : ctl_call → Prop) : P LoadConfig → only P load_config.
Proof. intros HP. apply only_bind; [by apply only_ctl_ask|]. by intros []. Qed.

Lemma only_or_fatal {A} (P : ctl_call → Prop) (p : ctl A) : only P p → only P (or_fatal p).
Proof. intros Hp. apply only_bind; [by apply only_attempt|]. by intros []. Qed.

Lemma only_ctl_deferred {A} (P : ctl_call → Prop) d (p : ctl A) : only P d → only P p → only P (deferred d p).
Proof.
  intros Hd. induction p as [[a|e|e]|c k IH]; cbn [only deferred].
  - intros _. apply only_bind; [by apply only_ignore|done].
  - intros _. apply only_bind; [by apply only_ignore|done].
  - intros _. case_match; [done|]. apply only_bind; [by apply only_ignore|done].
  - intros [Hc Hk]. auto.
Qed.

Lemma only_yes (P : ctl_call → Prop) q : (∀ s, P (Println s)) → P ReadLine → only P (yes q).
Proof.
  intros H1 H2. apply only_bind; [apply only_ctl_ask, H1|]. intros _.
  apply only_bind; [by apply only_or_fatal, only_ctl_do|]. by intros [].
Qed.

(** Walks through a command. *)
Ltac ctl_calls leaf :=
  repeat first
    [ progress intros
    | exact I
    | progress (auto with calls; fail)
    | apply only_ctl_ask; leaf
    | apply only_ctl_do; leaf
    | apply only_ctl_try; leaf
    | apply only_do_os; leaf
    | apply only_try_os; leaf
    | apply only_run_command; leaf
    | apply only_stat; leaf
    | apply only_load_config; leaf
    | apply only_yes; leaf
    | apply only_or_fatal
    | apply only_ctl_deferred
    | apply only_bind
    | apply only_attempt
    | apply only_ignore
    | apply only_each
    | case_match ].

Lemma only_RunCommandSequence (P : ctl_call → Prop) cmds :
  (∀ argv, P (COs (RunCommand argv))) → only P (RunCommandSequence cmds).
Proof. intros HP. induction cmds as [|c cmds IH]; cbn [RunCommandSequence]; ctl_calls ltac:(by auto). Qed.

(** ** Answers of programs that use them *)

(** The end of a program that did not fail. *)
Lemma behaves_do_ctl {A} c (H : ctl_answer c = api A) l (a : A) :
  behaves (do_ask c H) l (Ok a) → ∃ x, l = [existT c x] ∧ eq_rect _ (λ T, T) x _ H = AOk a.
Proof.
  unfold do_ask, ask. intros (x & l' & -> & H')%behaves_call_bind. exists x.
  destruct (eq_rect _ (λ T, T) x _ H); destruct H' as [-> ?]; simplify_eq; done.
Qed.

Lemma behaves_do_os {A} c (H : os_answer c = api A) l (a : A) :
  behaves (do_os c H) l (Ok a) → ∃ x, l = [osx c x] ∧ eq_rect _ (λ T, T) x _ H = AOk a.
Proof.
  unfold do_os, do_sys, sys, invoke, mbind, prog_mbind. cbn [prog_bind embed behaves].
  intros (x & l' & -> & H'). exists x.
  revert H'. generalize (eq_rect (os_answer c) (λ T, T) x (api A) H). intros [b|e|e]; cbn; intros [-> ?]; by simplify_eq.
Qed.

(** Computes a program up to its next call. *)
Ltac prog_cbn :=
  unfold stat, run_command, do_os, do_ask, try_os, try_ask, do_sys, try_sys, ask, sys, invoke, lift, exit, fatal, panic,
    mbind, prog_mbind, mret, prog_ret;
  cbn [prog_bind embed expect eq_rect attempt ok not_exist negb];
  unfold mret, prog_ret; cbn [prog_bind embed attempt].

(** ** A plain machine, for examples: everything succeeds *)

Definition plain_ctl (cfg : CloudConfig) (c : ctl_call) : ctl_answer c :=
  match c return ctl_answer c with
  | COs c => plain c
  | CPower c => (Power.power_machine "true" [] [] c 0).1
  | LoadConfig => Some cfg
  | ReadConfig _ => AOk cfg
  | ReadLine => AOk ("y" +:+ newline)
  | ReadStdin | TempScript _ | ConfigExport _ _ | SystemWriteFile _ _ | GetCurrentContainerID
  | LoadFromNetwork _ | LoadServiceResource _ _ | HTTPGet _ => AOk ""
  | GetCmdline _ => ""
  | ConfigGet _ => AOk (Plain "")
  | IsTerminal _ | IsRunningInTty => true
  | PipeOutput _ => ""
  | ReadDirInfo _ => AOk []
  | Args | Walk _ => []
  | Listen _ => AOk 0%Z
  | ValidateBytes _ | GetResources _ _ | ServiceContainers _ => AOk []
  | ContainerInspect _ => AOk {| i_ID := "id"; i_Name := "/name"; i_Image := "image"; i_Running := true; i_Pid := 1 |}
  | ContainerList _ => AOk []
  | NetworkList => AOk []
  | ServiceLabels => []
  | Sleep _ | Println _ => ()
  | _ => AOk ()
  end.

(** ** Programs about logs *)

Lemma ok_do_ask {A} (G : ctl_log → ctl_exchange → Prop) c (H : ctl_answer c = api A) w :
  (∀ w1 x, w `prefix_of` w1 → G w1 (existT c x)) →
  ok_spec G (do_ask c H) (λ a w', ∃ x, eq_rect _ (λ T, T) x _ H = AOk a ∧ since w (existT c x) w') w.
Proof.
  intros HG. unfold do_ask, ask. ok_call; [done|]. intros x w1 Hw1 Hx.
  eapply spec_mono; [|apply spec_prefix, expect_spec]. intros r w2 [Hw2 Hr] a Ha.
  exists x. split; [by apply Hr|]. by eapply since_monotone.
Qed.

(** A call that has to succeed: it is in the log from then on. *)
Lemma ok_done_ask (G : ctl_log → ctl_exchange → Prop) c (H : ctl_answer c = api ()) w :
  (∀ w1 x, w `prefix_of` w1 → G w1 (existT c x)) →
  ok_spec G (do_ask c H) (λ _ w', ∃ x, eq_rect _ (λ T, T) x _ H = AOk () ∧ existT c x ∈ w') w.
Proof.
  intros HG. eapply spec_mono; [|by apply ok_do_ask]. intros r w' Hr [] Ha.
  destruct (Hr () Ha) as (x & Hx & Hs). exists x. split; [done|]. by eapply since_elem.
Qed.

Lemma ok_or_fatal {A} (G : ctl_log → ctl_exchange → Prop) (p : ctl A) P w :
  (∀ a, monotone (P a)) → ok_spec G p P w → ok_spec G (or_fatal p) P w.
Proof.
  intros HP Hp. eapply ok_bind; [by apply ok_attempt|]. intros [a|e|e] w1 Hw1 Ha;
    [apply ok_done; [done|intros b [= <-]; by apply Ha]|apply ok_done; [done|by intros b [=]]..].
Qed.

Lemma elem_monotone {call} {ans : call → Type} (e : @exchange call ans) : monotone (λ w, e ∈ w).
Proof. intros w w' Hw H. by eapply elem_of_prefix. Qed.

Lemma ok_fatal_ask (G : ctl_log → ctl_exchange → Prop) c (H : ctl_answer c = api ()) w :
  (∀ w1 x, w `prefix_of` w1 → G w1 (existT c x)) →
  ok_spec G (or_fatal (do_ask c H)) (λ _ w', ∃ x, eq_rect _ (λ T, T) x _ H = AOk () ∧ existT c x ∈ w') w.
Proof.
  intros HG. apply ok_or_fatal; [|by apply ok_done_ask].
  intros _ w1 w2 Hw (x & Hx & He). exists x. split; [done|]. by eapply elem_monotone.
Qed.

Lemma ok_try_ask {A} (G : ctl_log → ctl_exchange → Prop) c (H : ctl_answer c = api A) w :
  (∀ w1 x, w `prefix_of` w1 → G w1 (existT c x)) → ok_spec G (try_ask c H) (λ _ _, True) w.
Proof.
  intros HG. apply ok_only_from. apply only_ctl_try. intros w' x Hw. by apply HG.
Qed.

Definition example_platform : InitConfig.Platform := {|
  InitConfig.Version := "v2"; InitConfig.OsBase := "base"; InitConfig.Unmarshal := λ s, Some (RawTree.VScalar (RawTree.SStr s));
  InitConfig.range_opts := id; InitConfig.range_texts := map_to_list; InitConfig.depth := 3;
  InitConfig.range_opts_perm := λ _, reflexivity _; InitConfig.range_texts_perm := λ _, reflexivity _ |}.

(** A run against a machine without a state, and what it shows. *)
Lemma exchanges_plain {A} (h : ∀ c, ctl_answer c) (p : ctl A) :
  behaves p (exchanges (λ c w, (h c, w)) p ()).1 (exchanges (λ c w, (h c, w)) p ()).2.
Proof. apply exchanges_behaves. Qed.

Lemma behaves_fatal_ask {A} c (H : ctl_answer c = api A) l (a : A) :
  behaves (or_fatal (do_ask c H)) l (Ok a) → ∃ x, l = [existT c x] ∧ eq_rect _ (λ T, T) x _ H = AOk a.
Proof.
  unfold or_fatal. intros (l1 & l2 & r & -> & H1 & H2)%behaves_bind_ok.
  apply behaves_attempt in H1 as [(r' & H1 & [= ->])|(e & _ & [=])].
  destruct r' as [b|e|e]; destruct H2 as [-> [=]]. subst b. rewrite app_nil_r. by apply behaves_do_ctl.
Qed.

Lemma ok_fails {A} (G : ctl_log → ctl_exchange → Prop) e (P : A → ctl_log → Prop) w : ok_spec G (lift (Err e)) P w.
Proof. by intros w1 _ a [=]. Qed.

Lemma ok_do_os {A} (G : ctl_log → ctl_exchange → Prop) c (H : os_answer c = api A) w :
  (∀ w1 x, w `prefix_of` w1 → G w1 (osx c x)) →
  ok_spec G (do_os c H) (λ a w', ∃ x, eq_rect _ (λ T, T) x _ H = AOk a ∧ osx c x ∈ w') w.
Proof.
  intros HG. change (do_os c H) with (invoke (ans := ctl_answer) (COs c) ≫= λ x, embed (expect (eq_rect _ (λ T, T) x _ H))).
  ok_call; [done|]. intros x w1 Hw1 Hx%since_elem.
  destruct (eq_rect (os_answer c) (λ T, T) x (api A) H) as [a|e|e] eqn:E; [|by intros w2 _ a [=]..].
  apply ok_done.
  - intros b w2 w3 Hw (y & Hy & Hi). exists y. split; [done|]. by eapply elem_of_prefix.
  - intros b [= <-]. by exists x.
Qed.

Lemma ok_deferred {A} (G : ctl_log → ctl_exchange → Prop) d (p : ctl A) w :
  (∀ w', ok_spec G (ignore d) (λ _ _, True) w') → ok_spec G p (λ _ _, True) w →
  ok_spec G (deferred d p) (λ _ _, True) w.
Proof.
  intros Hd. revert w. induction p as [r|c k IH]; intros w Hp.
  - assert (∀ r : result A, ok_spec G (prog_bind (ignore d) (λ _, Done r)) (λ _ _, True) w) as Hend.
    { intros r'. eapply ok_bind; [apply Hd|]. intros _ w1 _ _. by apply ok_only. }
    cbn [deferred]. destruct r as [a|e|e]; [apply Hend|apply Hend|]. case_match; [exact Hp|apply Hend].
  - intros w1 Hw1 x w2 Hx. destruct (Hp w1 Hw1 x w2 Hx) as [HG Hk]. split; [exact HG|]. by apply IH.
Qed.

(** Unless the process was left, what was deferred is called at the end. *)
Lemma behaves_deferred {A} (d : ctl ()) (p : ctl A) l r :
  (∀ l e, ¬ behaves d l (Panic e)) → behaves (deferred d p) l r → r ≠ Panic exit_status →
  ∃ l1 l2 r', l = (l1 ++ l2)%list ∧ behaves p l1 r ∧ behaves d l2 r'.
Proof.
  intros Hd Hb Hr. revert l Hb. induction p as [r0|c k IH]; intros l Hb; cbn [deferred] in Hb.
  - assert (behaves (prog_bind (ignore d) (λ _, Done r0)) l r → ∃ l1 l2 r', l = (l1 ++ l2)%list ∧ behaves (Done r0) l1 r ∧ behaves d l2 r') as Hend.
    { intros [(l1 & l2 & u & -> & H & [-> ->])|[(e & H & ->)|(e & H & ->)]]%behaves_bind.
      - apply behaves_bind_ok in H as (l3 & l4 & r' & -> & [(r1 & H & [= ->])|(e & _ & [=])]%behaves_attempt & [-> _]).
        exists [], l3, r1. by rewrite !app_nil_r.
      - apply behaves_bind in H as [(l3 & l4 & r' & _ & _ & [_ [=]])|[(e' & H & [= ->])|(e' & H & [=])]].
        by apply behaves_attempt in H as [(? & _ & [=])|(? & _ & [=])].
      - apply behaves_bind in H as [(l3 & l4 & r' & _ & _ & [_ [=]])|[(e' & H & [=])|(e' & H & [= ->])]].
        apply behaves_attempt in H as [(? & _ & [=])|(e2 & H & _)]. by destruct (Hd _ _ H). }
    destruct r0 as [a|e|e]; [by apply Hend|by apply Hend|].
    destruct (String.eqb_spec e exit_status) as [->|Hne]; [by destruct Hb as [_ ->]|by apply Hend].
  - destruct Hb as (x & l' & -> & Hb). destruct (IH x l' Hb) as (l1 & l2 & r' & -> & H1 & H2).
    exists (existT c x :: l1), l2, r'. split_and!; [done|by exists x, l1|done].
Qed.

(** A call of the operating system that only succeeds or fails. *)
Lemma behaves_os_unit c (H : os_answer c = api ()) l r :
  behaves (do_os c H) l r → ∃ x, l = [osx c x] ∧ ∀ e, r ≠ Panic e.
Proof.
  unfold do_os, do_sys, sys, invoke, mbind, prog_mbind. cbn [prog_bind embed behaves]. intros (x & l' & -> & H').
  exists x. destruct (eq_rect (os_answer c) (λ T, T) x (api ()) H); destruct H' as [-> ->]; split; done.
Qed.

Lemma behaves_deferred_os {A} c (H : os_answer c = api ()) (p : ctl A) l r :
  behaves (deferred (do_os c H) p) l r → r ≠ Panic exit_status →
  ∃ l' x, l = (l' ++ [osx c x])%list ∧ behaves p l' r.
Proof.
  intros Hb Hr. destruct (behaves_deferred _ _ _ _ (λ l e Hp, let '(ex_intro _ _ (conj _ He)) := behaves_os_unit c H l _ Hp in He e eq_refl) Hb Hr)
    as (l1 & l2 & r' & -> & Hp & (x & -> & _)%behaves_os_unit).
  by exists l1, x.
Qed.
