(* ===== verification/CloudInitExecute.v ===== *)
(** * What cloud-init executes ([cmd/cloudinitexecute], [config/cloudinit/config/decode.go])

    Keys, files, mounts, commands and kernel parameters of the configuration are applied when
    the console starts and before. *)

From stdpp Require Import prelude gmap strings list.
From S2P Require Import Prelude GoStrings Prog Conc OS Control.
From S2P Require FS Util InitConfig.

Local Open Scope string_scope.

(** ** Encodings of files ([encoding/base64] and [DecodeContent]) *)

Definition alphabet : list ascii :=
  String.list_ascii_of_string "ABCDEFGHIJKLMNOPQRSTUVWXYZabcdefghijklmnopqrstuvwxyz0123456789+/".

Definition char64 (v : Z) : ascii := default "A"%char (alphabet !! Z.to_nat v).

Definition val64 (c : ascii) : option Z :=
  let b := byte_of c in
  (if (65 <=? b) && (b <=? 90) then Some (b - 65)
   else if (97 <=? b) && (b <=? 122) then Some (b - 71)
   else if (48 <=? b) && (b <=? 57) then Some (b + 4)
   else if b =? 43 then Some 62
   else if b =? 47 then Some 63
   else None)%Z.

Definition byte (v : Z) : ascii := ascii_of_nat (Z.to_nat v).

Definition pad : ascii := "="%char.

(** A group of four characters is three bytes; only the last may be padded, and nothing
    follows it. *)
Fixpoint decode_groups (l : list ascii) : option (list ascii) :=
  match l with
  | [] => Some []
  | a :: b :: c :: d :: rest =>
      match val64 a, val64 b with
      | Some va, Some vb =>
          match val64 c, val64 d with
          | Some vc, Some vd =>
              l ← decode_groups rest;
              Some (byte (va * 4 + vb / 16) :: byte (vb mod 16 * 16 + vc / 4) :: byte (vc mod 4 * 64 + vd) :: l)
          | Some vc, None =>
              match bool_decide (d = pad), rest with
              | true, [] => Some [byte (va * 4 + vb / 16); byte (vb mod 16 * 16 + vc / 4)]
              | _, _ => None
              end
          | None, _ =>
              match bool_decide (c = pad ∧ d = pad), rest with
              | true, [] => Some [byte (va * 4 + vb / 16)]
              | _, _ => None
              end
          end
      | _, _ => None
      end
  | _ => None
  end%Z.

(** Line breaks are ignored. *)
Definition significant (c : ascii) : bool := negb (bool_decide (c = "010"%char) || bool_decide (c = "013"%char)).

Definition DecodeBase64Content (content : string) : result string :=
  match decode_groups (filter (λ c, significant c = true) (String.list_ascii_of_string content)) with
  | Some l => Ok (String.string_of_list_ascii l)
  | None => Err "Unable to decode base64"
  end.

Section Decode.
(** [DecompressGzip]: the decompressor of Go's standard library. *)
Context (DecompressGzip : string → result string).

Definition DecodeContent (content encoding : string) : result string :=
  if String.eqb encoding "" then Ok content
  else if existsb (String.eqb encoding) ["b64"; "base64"] then DecodeBase64Content content
  else if existsb (String.eqb encoding) ["gz"; "gzip"] then DecompressGzip content
  else if existsb (String.eqb encoding) ["gz+base64"; "gzip+base64"; "gz+b64"; "gzip+b64"] then
    gz ← DecodeBase64Content content; DecompressGzip gz
  else Err ("Unsupported encoding " +:+ encoding).

(** ** Files *)

(** The file with its content decoded. *)
Definition decoded (f : FS.File) (content : string) : FS.File :=
  {| FS.f_Encoding := ""; FS.f_Content := content; FS.f_Owner := FS.f_Owner f; FS.f_Path := FS.f_Path f;
     FS.f_RawFilePermissions := FS.f_RawFilePermissions f |}.

Definition file_container (f : File) : string :=
  if String.eqb (Container f) "" then "console" else Container f.

(** A content that cannot be decoded is left out without a word. *)
Definition write_file (container : string) (f : File) : ctl () :=
  if negb (String.eqb (file_container f) container) then mret ()
  else
    match DecodeContent (FS.f_Content (File_ f)) (FS.f_Encoding (File_ f)) with
    | Ok content => try_ask (SystemWriteFile (decoded (File_ f) content) "/") eq_refl
    | _ => mret ()
    end.

Definition WriteFiles (cfg : CloudConfig) (container : string) : ctl () := each (write_file container) (WriteFiles_ cfg).
End Decode.

(** ** Keys ([authorize_ssh_keys.go]) *)

Definition authorize_key (bytes key : string) : string :=
  if GoStrings.Contains bytes key then bytes else bytes +:+ key +:+ newline.

(** The part that follows the question whether the file is there. *)
Definition append_key (authorizedKey authorizedKeysFile : string) (uid gid perm : Z) : ctl () :=
  bytes ← do_os (ReadFile authorizedKeysFile) eq_refl;
  _ ← do_os (WriteFileAtomic authorizedKeysFile (authorize_key bytes authorizedKey) perm) eq_refl;
  do_ask (Chown authorizedKeysFile uid gid) eq_refl.

Definition authorizeSSHKey (authorizedKey authorizedKeysFile : string) (uid gid : Z) : ctl () :=
  x ← stat authorizedKeysFile;
  info ← match (x : api file_info) with
         | AOk info => mret info
         | ANotFound _ =>
             _ ← do_os (Create authorizedKeysFile) eq_refl;
             _ ← do_os (Chmod authorizedKeysFile 384) eq_refl;
             _ ← do_os (CloseFile authorizedKeysFile) eq_refl;
             do_os (Stat authorizedKeysFile) eq_refl
         | AErr e => lift (Err e)
         end;
  append_key authorizedKey authorizedKeysFile uid gid (fi_perm info).

(** The user and group and the home of the last line that begins with the name; a line that
    is too short ends the search. *)
Fixpoint passwd_entry (username : string) (lines : list string) (found : Z * Z * string) : result (Z * Z * string) :=
  match lines with
  | [] => Ok found
  | line :: lines =>
      if HasPrefix line username then
        match Split line ":" with
        | _ :: _ :: uid :: gid :: _ :: home :: _ =>
            match Atoi uid, Atoi gid with
            | (uid, false), (gid, false) => passwd_entry username lines (uid, gid, home)
            | _, _ => Err "strconv.Atoi: parsing"
            end
        | _ => Ok found
        end
      else passwd_entry username lines found
  end.

Definition authorizeSSHKeys (username : string) (authorizedKeys : list string) : ctl () :=
  bytes ← do_os (ReadFile "/etc/passwd") eq_refl;
  entry ← lift (passwd_entry username (Split bytes "010") (0, 0, "")%Z);
  let '(uid, gid, homeDir) := (entry : Z * Z * string) in
  let sshDir := path_Join [homeDir; ".ssh"] in
  let authorizedKeysFile := path_Join [sshDir; "authorized_keys"] in
  x ← stat sshDir;
  _ ← match (x : api file_info) with
      | AOk _ => mret ()
      | ANotFound _ => do_os (Mkdir sshDir 448) eq_refl
      | AErr e => lift (Err e)
      end;
  _ ← do_ask (Chown sshDir uid gid) eq_refl;
  each (λ key, ignore (authorizeSSHKey key authorizedKeysFile uid gid)) authorizedKeys.

(** ** The console *)

(** An element of a slice. *)
Definition index {A} (l : list A) (i : nat) : ctl A :=
  match l !! i with Some a => mret a | None => panic "index out of range" end.

(** A mount that has not four elements is reported and mounted all the same; an element that
    it lacks is an index out of range. *)
Definition apply_mount (mount : list string) : ctl () :=
  _ ← (if (length mount =? 4)%nat then mret () else _ ← index mount 1; mret ());
  fsType ← index mount 2;
  if existsb (String.eqb fsType) ["nfs"; "nfs4"] then
    target ← index mount 1;
    made ← ask (COs (MkdirAll target 493));
    if negb (ok (made : api ())) then mret ()
    else
      source ← index mount 0;
      options ← index mount 3;
      try_os (RunCommand (["mount"; source; target; "-t"; fsType] ++
                          (if String.eqb options "" then [] else ["-o"; options]))%list) eq_refl
  else
    spec ← index mount 0;
    device ← ask (COs (ResolveDevice spec));
    if String.eqb fsType "swap" then try_os (RunCommand ["swapon"; device]) eq_refl
    else
      target ← index mount 1;
      options ← index mount 3;
      ignore (embed (Mount device target fsType options)).

Section Execute.
Context `{InitConfig.Platform} (DecompressGzip : string → result string).

Definition ApplyConsole (cfg : CloudConfig) : ctl () :=
  _ ← (match SSHAuthorizedKeys cfg with
       | [] => mret ()
       | keys =>
           _ ← ignore (authorizeSSHKeys "rancher" keys);
           ignore (authorizeSSHKeys "docker" keys)
       end);
  _ ← WriteFiles DecompressGzip cfg "console";
  _ ← each apply_mount (Mounts cfg);
  ignore (RunCommandSequence (Runcmd cfg)).

(** ** Before the console *)

Definition resizeStamp : string := "/var/lib/rancher/resizefs.done".

(** The number of the partition, and its device. *)
Definition resize_target (device : string) : string * string :=
  if GoStrings.Contains device "mmcblk" then ("2", device +:+ "p" +:+ "2")
  else if GoStrings.Contains device "nvme" then ("1", device +:+ "p" +:+ "1")
  else ("1", device +:+ "1").

Definition resizeDevice (cfg : CloudConfig) : ctl () :=
  let '(partition, targetPartition) := resize_target (ResizeDevice cfg) in
  _ ← try_os (RunCommand ["growpart"; ResizeDevice cfg; partition]) eq_refl;
  _ ← run_command ["partprobe"; ResizeDevice cfg];
  run_command ["resize2fs"; targetPartition].

Definition resize_once (cfg : CloudConfig) : ctl () :=
  if String.eqb (ResizeDevice cfg) "" then mret ()
  else
    x ← stat resizeStamp;
    if negb (not_exist (x : api file_info)) then mret ()
    else
      r ← attempt (resizeDevice cfg);
      match r with Ok _ => try_os (Create resizeStamp) eq_refl | _ => mret () end.

Definition sysctl_path (k : string) : string := path_Join ("/proc" :: "sys" :: Split k ".").

Definition applyPreConsole (cfg : CloudConfig) : ctl () :=
  _ ← resize_once cfg;
  _ ← each (λ kv, try_os (WriteFile (sysctl_path kv.1) kv.2 420) eq_refl) (InitConfig.range_texts (Sysctl cfg));
  _ ← try_ask NewSystemClient eq_refl;
  each (λ restart, try_ask (ContainerRestart restart 10) eq_refl) (RestartServices cfg).

(** The flags -console and -pre-console; without any, both. *)
Definition Main (console preConsole : bool) : ctl () :=
  cfg ← load_config;
  let both := negb console && negb preConsole in
  _ ← (if console || both then ApplyConsole cfg else mret ());
  if preConsole || both then applyPreConsole cfg else mret ().
End Execute.

(** ** Encodings come back

    The encoder of RFC 4648, to state what decoding promises. *)

Fixpoint encode_groups (l : list ascii) : list ascii :=
  let v := byte_of in
  match l with
  | [] => []
  | [a] => [char64 (v a / 4); char64 (v a mod 4 * 16); pad; pad]
  | [a; b] => [char64 (v a / 4); char64 (v a mod 4 * 16 + v b / 16); char64 (v b mod 16 * 4); pad]
  | a :: b :: c :: l =>
      char64 (v a / 4) :: char64 (v a mod 4 * 16 + v b / 16) :: char64 (v b mod 16 * 4 + v c / 64) ::
      char64 (v c mod 64) :: encode_groups l
  end%Z.

Lemma char64_spec v : (0 ≤ v < 64)%Z → val64 (char64 v) = Some v ∧ significant (char64 v) = true.
Proof.
  intros Hv. assert (Forall (λ v, val64 (char64 v) = Some v ∧ significant (char64 v) = true) (Z.of_nat <$> seq 0 64)) as H
    by (repeat constructor).
  rewrite Forall_forall in H. apply H. apply list_elem_of_fmap. exists (Z.to_nat v). split; [lia|]. apply elem_of_seq. lia.
Qed.

Lemma byte_byte_of a v : v = byte_of a → byte v = a.
Proof. intros ->. unfold byte, byte_of. by rewrite Nat2Z.id, ascii_nat_embedding. Qed.

Lemma byte_of_bounds a : (0 ≤ byte_of a < 256)%Z.
Proof. unfold byte_of. pose proof (nat_ascii_bounded a). lia. Qed.

Lemma val64_pad : val64 pad = None.
Proof. done. Qed.

(** Induction by groups of three. *)
Lemma triples_ind {A} (P : list A → Prop) :
  P [] → (∀ a, P [a]) → (∀ a b, P [a; b]) → (∀ a b c l, P l → P (a :: b :: c :: l)) → ∀ l, P l.
Proof.
  intros H0 H1 H2 H3. assert (∀ n l, (length l ≤ n)%nat → P l) as H; [|by intros l; apply (H (length l))].
  induction n as [|n IH]; intros [|a [|b [|c l]]] Hl; auto; cbn in Hl; [lia..|]. apply H3, IH. lia.
Qed.

Ltac sextets :=
  repeat match goal with
  | a : ascii |- _ => lazymatch goal with H : (0 ≤ byte_of a < 256)%Z |- _ => fail | _ => pose proof (byte_of_bounds a) end
  end;
  repeat match goal with
  | |- context [val64 (char64 ?v)] => rewrite (proj1 (char64_spec v ltac:(Z.to_euclidean_division_equations; lia)))
  end.

Lemma decode_encode l : decode_groups (encode_groups l) = Some l.
Proof.
  induction l as [|a|a b|a b c l IH] using triples_ind; [done|..]; cbn [encode_groups decode_groups]; sextets.
  - rewrite val64_pad, bool_decide_eq_true_2 by done. f_equal. f_equal. apply byte_byte_of.
    Z.to_euclidean_division_equations; lia.
  - rewrite val64_pad, bool_decide_eq_true_2 by done.
    do 2 f_equal; [|f_equal]; apply byte_byte_of; Z.to_euclidean_division_equations; lia.
  - rewrite IH. cbn. do 2 f_equal; [|f_equal; [|f_equal]]; apply byte_byte_of; Z.to_euclidean_division_equations; lia.
Qed.

(** A file whose content is given in base64, with line breaks anywhere, is written with
    the bytes that were encoded. *)
Theorem DecodeContent_base64 DecompressGzip encoding content text :
  encoding ∈ ["b64"; "base64"] →
  filter (λ c, significant c = true) (String.list_ascii_of_string text) =
    encode_groups (String.list_ascii_of_string content) →
  DecodeContent DecompressGzip text encoding = Ok content.
Proof.
  intros He Ht. unfold DecodeContent.
  assert (String.eqb encoding "" = false ∧ existsb (String.eqb encoding) ["b64"; "base64"] = true) as [-> ->].
  { repeat (apply elem_of_cons in He as [->|He]; [done|]). by apply elem_of_nil in He. }
  unfold DecodeBase64Content. by rewrite Ht, decode_encode, String.string_of_list_ascii_of_string.
Qed.

Lemma DecodeContent_base64_witness :
  DecodeContent (λ _, Err "") ("aGVs" +:+ newline +:+ "bG8=") "b64" = Ok "hello".
Proof. apply DecodeContent_base64; [set_solver|vm_compute; reflexivity]. Defined.

(** ** Keys are only added

    The file of keys, as the calls of these programs change it while nobody else writes it:
    [None] when there is none, its bytes and its permissions otherwise. *)

Section Keys.
Context (f : string).

Definition keys_file : Type := option (string * Z).

Definition keys_law (c : ctl_call) (w : keys_file) : ctl_answer c → keys_file → Prop :=
  match c return ctl_answer c → keys_file → Prop with
  | COs (Stat p) => λ x w', w' = w ∧ (p = f → match x with
      | AOk info => ∃ data, w = Some (data, fi_perm info)
      | ANotFound _ => w = None
      | AErr _ => True end)
  | COs (ReadFile p) => λ x w', w' = w ∧ (p = f → ∀ data, x = AOk data → ∃ perm, w = Some (data, perm))
  | COs (Create p) => λ x w',
      if bool_decide (p = f) then match x with AOk _ => ∃ perm, w' = Some ("", perm) | _ => w' = w end else w' = w
  | COs (WriteFileAtomic p data perm) => λ x w',
      if bool_decide (p = f) then w' = Some (data, perm) ∨ (ok x = false ∧ w' = w) else w' = w
  | COs (Chmod _ _) => λ _ w', fst <$> w' = fst <$> w
  | COs (Mkdir _ _) | COs (CloseFile _) | Chown _ _ _ => λ _ w', w' = w
  | _ => λ _ _, True
  end.

(** Nothing that was there is lost, and only keys are added, each on a line of its own when
    the file ends with one. *)
Definition grows (keys : list string) (w w' : keys_file) : Prop :=
  ∀ data, fst <$> w = Some data →
    ∃ data', fst <$> w' = Some data' ∧ (data' = data ∨ ∃ key, key ∈ keys ∧ data' = data +:+ key +:+ newline).

Definition holds_key (key : string) (w : keys_file) : Prop :=
  ∃ data, fst <$> w = Some data ∧ GoStrings.Contains data key = true.

Lemma grows_refl keys w w' : fst <$> w' = fst <$> w → grows keys w w'.
Proof using Type. intros Hw data Hd. exists data. split; [congruence|by left]. Qed.

Lemma authorize_key_grows keys key data perm data' perm' :
  key ∈ keys → data' = authorize_key data key → grows keys (Some (data, perm)) (Some (data', perm')).
Proof using Type.
  intros Hk -> d [= <-]. eexists. split; [done|]. unfold authorize_key. case_match; [by left|right]. by exists key.
Qed.

Lemma Contains_authorize data key : GoStrings.Contains (authorize_key data key) key = true.
Proof using Type.
  unfold authorize_key. destruct (GoStrings.Contains data key) eqn:E; [done|]. apply Contains_spec. by exists data, newline.
Qed.

Lemma rtc_eq {A} (a b : A) : rtc (=) a b → a = b.
Proof using Type. by induction 1; subst. Qed.

(** A program that is left alone. *)
Abbreviation keys_rg keys p Q w := (rg keys_law (=) (grows keys) p Q w).

Lemma keys_call {B} keys c (k : ctl_answer c → ctl B) Q w :
  (∀ x w', keys_law c w x w' → grows keys w w' ∧ keys_rg keys (k x) Q w') →
  keys_rg keys (Call c k) Q w.
Proof using Type. intros H w1 <-%rtc_eq x w2 Hx. by apply H. Qed.

Lemma keys_done {B} keys (r : result B) (Q : result B → keys_file → Prop) w : Q r w → keys_rg keys (Done r) Q w.
Proof using Type. intros H w1 <-%rtc_eq. done. Qed.

End Keys.

Ltac keys_step :=
  first
    [ apply keys_done; try done
    | apply keys_call; cbn [keys_law]; let x := fresh "x" in let w := fresh "w" in let Hx := fresh "Hx" in intros x w Hx ].

Section KeysGrow.
Context (f : string).
Abbreviation keys_rg keys p Q w := (rg (keys_law f) (=) (grows keys) p Q w).

Lemma append_key_grows keys key file uid gid perm w :
  key ∈ keys →
  keys_rg keys (append_key key file uid gid perm) (λ r w', r = Ok () → file = f → holds_key key w') w.
Proof using Type.
  intros Hk. unfold append_key, do_os, do_ask, do_sys, ask, sys, invoke, mbind, prog_mbind. cbn [prog_bind embed expect eq_rect].
  keys_step. destruct Hx as [-> Hr]. split; [by apply grows_refl|].
  destruct x as [data|e|e]; prog_cbn; [|by keys_step..].
  keys_step. case_bool_decide as Hf.
  - destruct (Hr Hf data eq_refl) as [perm' ->]. destruct Hx as [->|[Hx ->]].
    + split; [by apply (authorize_key_grows keys key data)|]. destruct x as [[]|e|e]; prog_cbn; [|by keys_step..].
      keys_step. subst. split; [by apply grows_refl|]. destruct x; prog_cbn; keys_step.
      intros _ _. exists (authorize_key data key). split; [done|]. apply Contains_authorize.
    + split; [by apply grows_refl|]. destruct x; [done|..]; prog_cbn; by keys_step.
  - subst. split; [by apply grows_refl|]. destruct x as [[]|e|e]; prog_cbn; [|by keys_step..].
    keys_step. subst. split; [by apply grows_refl|]. destruct x; prog_cbn; keys_step.
Qed.

Lemma authorizeSSHKey_grows keys key file uid gid w :
  key ∈ keys →
  keys_rg keys (authorizeSSHKey key file uid gid) (λ r w', r = Ok () → file = f → holds_key key w') w.
Proof using Type.
  intros Hk. unfold authorizeSSHKey.
  unfold stat, ask, do_os, do_sys, sys, invoke, lift, mbind, prog_mbind, mret, prog_ret. cbn [prog_bind embed expect eq_rect].
  keys_step. destruct Hx as [-> Hs]. split; [by apply grows_refl|].
  destruct x as [info|e|e]; prog_cbn; [by apply append_key_grows| |by keys_step].
  keys_step. assert (grows keys w w0) as Hg.
  { case_bool_decide as Hf; [|subst; by apply grows_refl]. specialize (Hs Hf). subst w. by intros d. }
  split; [done|]. destruct x as [[]|e1|e1]; prog_cbn; [|by keys_step..].
  keys_step. split; [by apply grows_refl|]. destruct x as [[]|e1|e1]; prog_cbn; [|by keys_step..].
  keys_step. subst. split; [by apply grows_refl|]. destruct x as [[]|e1|e1]; prog_cbn; [|by keys_step..].
  keys_step. destruct Hx1 as [-> _]. split; [by apply grows_refl|].
  destruct x as [info|e1|e1]; prog_cbn; [by apply append_key_grows|by keys_step..].
Qed.

(** What every program of a loop keeps. *)
Lemma each_keys {A} keys (g : A → ctl ()) l w :
  (∀ a w, a ∈ l → keys_rg keys (g a) (λ _ _, True) w) → keys_rg keys (each g l) (λ _ _, True) w.
Proof using Type.
  revert w. induction l as [|a l IH]; intros w Hg; cbn [each]; [by keys_step|].
  apply rg_bind. eapply rg_mono; [|apply Hg; by left].
  intros [[]|e|e] w' _; [|done..]. apply IH. intros b w2 Hb. apply Hg. by right.
Qed.

(** C37: While nothing else writes the file of keys, authorizing keys never loses a byte of it, at
    no moment, whatever fails and whoever's keys they are: each change adds one of the keys. *)
Theorem authorizeSSHKeys_grows username keys w :
  keys_rg keys (authorizeSSHKeys username keys) (λ _ _, True) w.
Proof using Type.
  unfold authorizeSSHKeys, stat, ask, do_os, do_ask, do_sys, sys, invoke, lift, mbind, prog_mbind, mret, prog_ret.
  cbn [prog_bind embed expect eq_rect].
  keys_step. destruct Hx as [-> _]. split; [by apply grows_refl|].
  destruct x as [bytes|e|e]; prog_cbn; [|by keys_step..].
  destruct (passwd_entry _ _ _) as [[[uid gid] home]|e|e]; prog_cbn; [|by keys_step..].
  keys_step. destruct Hx as [-> _]. split; [by apply grows_refl|].
  assert (∀ w, keys_rg keys (prog_bind (prog_bind (Call (Chown (path_Join [home; ".ssh"]) uid gid) (λ x, Done (Ok x))) (λ x, expect x))
    (λ _, each (λ key, ignore (authorizeSSHKey key (path_Join [path_Join [home; ".ssh"]; "authorized_keys"]) uid gid)) keys))
    (λ _ _, True) w) as Hrest.
  { intros w1. prog_cbn. keys_step. subst. split; [by apply grows_refl|].
    destruct x0; prog_cbn; [|by keys_step..]. apply each_keys. intros key w2 Hk.
    apply rg_bind, rg_attempt. eapply rg_mono; [|by apply authorizeSSHKey_grows]. by intros [] ? _. }
  destruct x as [info|e|e]; prog_cbn; [apply Hrest| |by keys_step].
  keys_step. subst. split; [by apply grows_refl|]. destruct x; prog_cbn; [apply Hrest|by keys_step..].
Qed.

End KeysGrow.

(** The law admits an ordinary run: a first key creates the file, a second comes after it. *)
Definition keys_machine (c : ctl_call) (w : keys_file) : ctl_answer c * keys_file :=
  match c return ctl_answer c * keys_file with
  | COs (Stat p) =>
      (match (if String.eqb p "/home/rancher/.ssh/authorized_keys" then w else None) with
       | Some (_, perm) => AOk {| fi_dir := false; fi_regular := true; fi_symlink := false; fi_perm := perm; fi_size := 0 |}
       | None => ANotFound "no such file"
       end, w)
  | COs (ReadFile p) =>
      (if String.eqb p "/etc/passwd" then AOk ("root:x:0:0:root:/root:/bin/sh" +:+ newline +:+ "rancher:x:1100:1100::/home/rancher:/bin/bash")
       else match w with Some (data, _) => AOk data | None => AErr "no such file" end, w)
  | COs (Create _) => (AOk (), Some ("", 420%Z))
  | COs (Chmod _ perm) => (AOk (), (λ x, (x.1, perm)) <$> w)
  | COs (WriteFileAtomic _ data perm) => (AOk (), Some (data, perm))
  | c => (plain_ctl no_config c, w)
  end.

Example keys_run :
  (run keys_machine (authorizeSSHKeys "rancher" ["ssh-rsa A"; "ssh-rsa B"; "ssh-rsa A"]) None).2
  = Some ("ssh-rsa A" +:+ newline +:+ "ssh-rsa B" +:+ newline, 384%Z).
Proof. vm_compute. reflexivity. Qed.

(** ** Whose keys, and which files *)

(** A later user whose name only begins with the wanted one gets the keys. *)
Example passwd_prefix :
  passwd_entry "docker" ["docker:x:1101:1101::/home/docker:/bin/bash"; "dockerd:x:900:900::/srv/dockerd:/bin/false"]
    (0, 0, "")%Z = Ok (900, 900, "/srv/dockerd")%Z.
Proof. vm_compute. reflexivity. Qed.

(** The files that a container gets: those meant for it whose content can be decoded. *)
Definition written_files (DecompressGzip : string → result string) (container : string) (fs : list File) : list FS.File :=
  omap (λ f, if String.eqb (file_container f) container then
               match DecodeContent DecompressGzip (FS.f_Content (File_ f)) (FS.f_Encoding (File_ f)) with
               | Ok content => Some (decoded (File_ f) content)
               | _ => None
               end
             else None) fs.

Lemma write_file_calls DecompressGzip container f l r :
  behaves (write_file DecompressGzip container f) l r →
  r = Ok () ∧ projT1 <$> l = (λ f, SystemWriteFile f "/") <$> written_files DecompressGzip container [f].
Proof.
  unfold write_file, written_files. cbn [omap list_omap].
  destruct (String.eqb (file_container f) container); cbn [negb]; [|by intros [-> ->]].
  destruct (DecodeContent _ _ _); [|by intros [-> ->]..]. by intros (x & l' & -> & -> & ->).
Qed.

(** Each container writes the files meant for it and no other, in the order of the configuration,
    with their content decoded; a file that cannot be written stops nothing. *)
Theorem WriteFiles_calls DecompressGzip cfg container l r :
  behaves (WriteFiles DecompressGzip cfg container) l r →
  r = Ok () ∧ projT1 <$> l = (λ f, SystemWriteFile f "/") <$> written_files DecompressGzip container (WriteFiles_ cfg).
Proof.
  unfold WriteFiles. generalize (WriteFiles_ cfg) as fs. intros fs. revert l.
  induction fs as [|f fs IH]; intros l; cbn [each]; [by intros [-> ->]|].
  intros [(l1 & l2 & [] & -> & [_ H1]%write_file_calls & [-> H2]%IH)|[(e & [[=] _]%write_file_calls & _)|
    (e & [[=] _]%write_file_calls & _)]]%behaves_bind.
  split; [done|]. change (f :: fs) with ([f] ++ fs)%list. unfold written_files in *.
  by rewrite omap_app, !fmap_app, H1, H2.
Qed.

Lemma WriteFiles_calls_witness :
  ∃ l, behaves (WriteFiles (λ _, Err "") no_config "console") l (Ok ()) ∧
    projT1 <$> l = (λ f, SystemWriteFile f "/") <$> written_files (λ _, Err "") "console" (WriteFiles_ no_config).
Proof. exists []. split; [done|]. by apply (WriteFiles_calls (λ _, Err "") no_config "console" [] (Ok ())). Defined.

(** A mount without its four elements is not only reported. *)
Lemma apply_mount_short mount : (length mount < 3)%nat → apply_mount mount = panic "index out of range".
Proof. by destruct mount as [|a [|b [|c mount]]]; cbn; intros ?; [..|lia]. Qed.

(** The device is only marked as resized when it was. *)
Lemma resize_once_stamp cfg l r :
  behaves (resize_once cfg) l r →
  ∀ x, existT (COs (Create resizeStamp)) x ∈ l → ∃ e, osx (Stat resizeStamp) (ANotFound e) ∈ l ∧
    osx (RunCommand ["resize2fs"; (resize_target (ResizeDevice cfg)).2]) (AOk ()) ∈ l.
Proof.
  unfold resize_once. case_match; [by intros [-> _] x ?%elem_of_nil|].
  unfold resizeDevice. destruct (resize_target (ResizeDevice cfg)) as [part target]. prog_cbn.
  intros (y & l1 & -> & H1) x Hx. cbn [snd].
  destruct y as [i|e|e]; cbn [not_exist negb] in H1; [destruct H1 as [-> _]; set_solver| |destruct H1 as [-> _]; set_solver].
  exists e. split; [set_solver|]. destruct H1 as (y1 & l2 & -> & H1). destruct H1 as (y2 & l3 & -> & H1).
  destruct y2 as [[]|e2|e2]; cbn in H1; [|destruct H1 as [-> _]; set_solver..].
  destruct H1 as (y3 & l4 & -> & H1). destruct y3 as [[]|e3|e3]; cbn in H1; [|destruct H1 as [-> _]; set_solver..].
  set_solver.
Qed.
