(* ===== verification/Engine.v ===== *)
(** * Consoles, engines and services ([cmd/control/console.go], [switch_console.go], [engine.go],
    [service/service.go], [env.go])

    The commands that choose which console and which docker engine run, and which services of
    the repositories are enabled. *)

From stdpp Require Import prelude gmap strings list.
From S2P Require Import Prelude GoStrings GoNet Prog Conc OS Control.
From S2P Require FS Util InitConfig.

Local Open Scope string_scope.

Definition UserDockerLabel : string := "io.rancher.user_docker.name".
Definition UserDockerNetLabel : string := "io.rancher.user_docker.net".
Definition UserDockerFIPLabel : string := "io.rancher.user_docker.fix_ip".
Definition MultiDockerConfFile : string := "/var/lib/rancher/conf.d/m-user-docker.yml".
Definition MultiDockerDataDir : string := "/var/lib/m-user-docker".
Definition SupportedDinds : list string := ["burmilla/os-dind:17.12.1"; "burmilla/os-dind:18.03.1"].

(** ** What runs *)

Section Names.
(** [reference.ParseNamed] of the docker library: the name of an image and its tag. *)
Context (ParseNamed : string → option (string * option string)).

Definition console_name (image : string) : string :=
  match ParseNamed image with
  | None => ""
  | Some (name, _) =>
      if GoStrings.Contains name "os-console" then "default"
      else TrimPrefix (TrimSuffix name "console") "burmilla/os-"
  end.

(** Tags such as 17.12.1-1 are cut; versions from 17 to 18.06 end in -ce. *)
Definition engine_of_tag (tag : string) : string :=
  let tag := default "" (head (SplitN tag "-" 2)) in
  let tag := if negb (HasPrefix tag "1.") && Util.LessThan tag "18.09.0" then tag +:+ "-ce" else tag in
  "docker-" +:+ tag.

Definition engine_name (image : string) : string :=
  match ParseNamed image with
  | Some (_, Some tag) => engine_of_tag tag
  | _ => ""
  end.

(** The image of a container, if all goes well. *)
Definition inspect_image (container : string) : ctl (option string) :=
  x ← ask NewSystemClient;
  if negb (ok (x : api ())) then mret None
  else
    info ← ask (ContainerInspect container);
    match (info : api inspected) with AOk info => mret (Some (i_Image info)) | _ => mret None end.

Definition CurrentConsole : ctl string :=
  image ← inspect_image "console";
  mret (match image with Some image => console_name image | None => "" end).

Definition CurrentEngine : ctl string :=
  image ← inspect_image "docker";
  mret (match image with Some image => engine_name image | None => "" end).
End Names.

(** ** What is available *)

Section Lists.
Context `{InitConfig.Platform}.

Definition ToArray (r : gmap string string) : list string :=
  filter (λ url, url ≠ "") (snd <$> InitConfig.range_texts r).

Definition available (key : string) (cfg : CloudConfig) (update : bool) : ctl (list string) :=
  let urls := ToArray (Repositories cfg) in
  _ ← (if update then try_ask (UpdateCaches urls key) eq_refl else mret ());
  or_fatal (do_ask (GetResources urls key) eq_refl).

Definition availableConsoles (cfg : CloudConfig) (update : bool) : ctl (list string) :=
  consoles ← available "consoles" cfg update;
  mret (sort_strings (consoles ++ ["default"])).

Definition availableEngines (cfg : CloudConfig) (update : bool) : ctl (list string) :=
  engines ← available "engines" cfg update;
  mret (sort_strings engines).

Definition availableService (cfg : CloudConfig) (update : bool) : ctl (list string) :=
  available "services" cfg update.

(** A name of the repositories, a file or a URL; otherwise the process ends. *)
Definition validate (name : string) (known : list string) (msg : string) : ctl () :=
  if negb (IsLocalOrURL name) && negb (Util.Contains known name) then fatal msg else mret ().

Definition validateConsole (console : string) (cfg : CloudConfig) : ctl () :=
  consoles ← availableConsoles cfg false; validate console consoles (console +:+ " is not a valid console").

Definition validateEngine (engine : string) (cfg : CloudConfig) : ctl () :=
  engines ← availableEngines cfg false; validate engine engines (engine +:+ " is not a valid engine").

Definition ValidService (service : string) (cfg : CloudConfig) : ctl bool :=
  services ← availableService cfg false;
  mret (negb (negb (IsLocalOrURL service) && negb (Util.Contains services service))).

Definition validateService (service : string) (cfg : CloudConfig) : ctl () :=
  valid ← ValidService service cfg;
  if valid : bool then mret () else fatal (service +:+ " is not a valid service").
End Lists.

(** ** Consoles *)

Section Commands.
Context `{InitConfig.Platform} (ParseNamed : string → option (string * option string)).

Definition the_only (args : list string) (msg : string) : ctl string :=
  match args with [a] => mret a | _ => fatal msg end.

Definition switch_container (newConsole : string) : once_service :=
  {| o_Image := InitConfig.OsBase; o_Command := ["/usr/bin/ros"; "switch-console"; newConsole];
     o_VolumesFrom := ["all-volumes"] |}.

Definition consoleSwitch (args : list string) (force noPull : bool) : ctl () :=
  newConsole ← the_only args "Must specify exactly one console to switch to";
  cfg ← load_config;
  _ ← validateConsole newConsole cfg;
  _ ← CurrentConsole ParseNamed;
  go_on ← (if force then mret true else yes "Continue");
  if negb go_on then mret ()
  else
    _ ← (if negb noPull && negb (String.eqb newConsole "default")
         then do_ask (StageServices [newConsole]) eq_refl else mret ());
    _ ← do_ask (CreateService "switch-console" (switch_container newConsole)) eq_refl;
    _ ← do_ask ServiceDelete eq_refl;
    _ ← do_ask ServiceUp eq_refl;
    do_ask ServiceLog eq_refl.

Definition consoleEnable (args : list string) : ctl () :=
  newConsole ← the_only args "Must specify exactly one console to enable";
  cfg ← load_config;
  _ ← validateConsole newConsole cfg;
  _ ← (if String.eqb newConsole "default" then mret () else do_ask (StageServices [newConsole]) eq_refl);
  try_ask (ConfigSet "rancher.console" (SetText newConsole)) eq_refl.

(** A line of a listing: what runs, what is enabled, and the rest. *)
Definition listing (current enabled name : string) : string :=
  if String.eqb name current then "current  " +:+ name
  else if String.eqb name enabled then "enabled  " +:+ name
  else "disabled " +:+ name.

Definition println (s : string) : ctl () := ask (Println s).

Definition consoleList (update : bool) : ctl () :=
  cfg ← load_config;
  consoles ← availableConsoles cfg update;
  current ← CurrentConsole ParseNamed;
  each (λ console, println (listing current (Console cfg) console)) consoles.

(** In the container that switches: docker and the console are stopped, the new console is set
    and started, then docker is. *)
Definition switchConsoleAction (args : list string) : ctl () :=
  newConsole ← match args with [a] => mret a | _ => lift (Err "Must specify exactly one existing container") end;
  cfg ← load_config;
  _ ← do_ask (GetProject true false) eq_refl;
  _ ← try_ask (ProjectStop 10 ["docker"]) eq_refl;
  _ ← try_ask (ProjectStop 10 ["console"]) eq_refl;
  _ ← (if String.eqb newConsole "default" then mret () else do_ask (LoadSpecialService "console" newConsole) eq_refl);
  _ ← try_ask (ConfigSet "rancher.console" (SetText newConsole)) eq_refl;
  _ ← do_ask (ProjectUp true "console") eq_refl;
  try_ask (ProjectStart "docker") eq_refl.

(** ** Engines *)

(** What follows the choice of the engine. *)
Definition switch_engine (newEngine : string) : ctl () :=
  _ ← or_fatal (do_ask (GetProject true false) eq_refl);
  _ ← or_fatal (do_ask (ProjectStop 10 ["docker"]) eq_refl);
  _ ← or_fatal (do_ask (LoadSpecialService "docker" newEngine) eq_refl);
  _ ← or_fatal (do_ask (ProjectUp false "docker") eq_refl);
  try_ask (ConfigSet "rancher.docker.engine" (SetText newEngine)) eq_refl.

(** The latest engine is the last of the sorted list; without engines that is an index out of
    range. *)
Definition engineSwitch (args : list string) : ctl () :=
  newEngine ← the_only args "Must specify exactly one Docker engine to switch to";
  cfg ← load_config;
  if String.eqb newEngine "latest" then
    engines ← availableEngines cfg true;
    newEngine ← match last engines with Some e => mret e | None => panic "index out of range" end;
    currentEngine ← CurrentEngine ParseNamed;
    if String.eqb newEngine currentEngine then mret () else switch_engine newEngine
  else
    _ ← validateEngine newEngine cfg;
    switch_engine newEngine.

Definition engineEnable (args : list string) : ctl () :=
  newEngine ← the_only args "Must specify exactly one Docker engine to enable";
  cfg ← load_config;
  _ ← validateEngine newEngine cfg;
  _ ← do_ask (StageServices [newEngine]) eq_refl;
  try_ask (ConfigSet "rancher.docker.engine" (SetText newEngine)) eq_refl.

(** The last engine of the list is marked. *)
Fixpoint list_engines (current enabled : string) (engines : list string) : ctl () :=
  match engines with
  | [] => mret ()
  | [engine] => println (listing current enabled engine +:+ " (latest)")
  | engine :: engines => _ ← println (listing current enabled engine); list_engines current enabled engines
  end.

Definition list_dind (c : listed) : ctl () :=
  println ((if String.eqb (l_State c) "running" then "enabled  " else "disabled ") +:+
           default "" (l_Labels c !! UserDockerLabel)).

Definition engineList (update : bool) : ctl () :=
  cfg ← load_config;
  engines ← availableEngines cfg update;
  currentEngine ← CurrentEngine ParseNamed;
  _ ← list_engines currentEngine (Engine (Docker cfg)) engines;
  x ← ask NewSystemClient;
  if negb (ok (x : api ())) then mret ()
  else
    containers ← ask (ContainerList UserDockerLabel);
    match (containers : api (list listed)) with AOk cs => each list_dind cs | _ => mret () end.
End Commands.

(** ** Engines in containers *)

(** What is written of a service to the file of these engines. *)
Record ServiceConfigV1 := {
  Image : string; Restart : string; Privileged : bool; Net : string; Ports : list string; Volumes : list string;
  VolumesFrom : list string; Command : list string; Labels : gmap string string;
}.

Section Dind.
Context `{InitConfig.Platform}.
(** The YAML library, for maps of services. *)
Context (Unmarshal : string → result (gmap string ServiceConfigV1))
        (Marshal : gmap string ServiceConfigV1 → result string).

Definition data_dir (name : string) : string := MultiDockerDataDir +:+ "/" +:+ name.

Definition engine_service (name version : string) (sshPort : Z) (authorizedKeys network fixedIP : string) : ServiceConfigV1 :=
  {| Image := "${REGISTRY_DOMAIN}/" +:+ version; Restart := "always"; Privileged := true; Net := network;
     Ports := [Itoa sshPort +:+ ":22"];
     Volumes := ["/lib/modules:/lib/modules"; data_dir name +:+ ":" +:+ data_dir name] ++
       (if String.eqb authorizedKeys "" then [] else [authorizedKeys +:+ ":/root/.ssh/authorized_keys"]);
     VolumesFrom := [];
     Command := ["--storage-driver=overlay2"; "--data-root=" +:+ data_dir name;
                 "--host=unix://" +:+ data_dir name +:+ "/docker-" +:+ name +:+ ".sock"];
     Labels := list_to_map [("io.rancher.os.scope", "system"); ("io.rancher.os.after", "console");
       (UserDockerLabel, name); (UserDockerNetLabel, network); (UserDockerFIPLabel, fixedIP)] |}%list.

(** The file, or no services when it cannot be found. *)
Definition read_compose : ctl (gmap string ServiceConfigV1) :=
  x ← stat MultiDockerConfFile;
  if ok x then bytes ← do_os (ReadFile MultiDockerConfFile) eq_refl; lift (Unmarshal bytes)
  else mret ∅.

Definition write_compose (composeConfigs : gmap string ServiceConfigV1) : ctl () :=
  bytes ← lift (Marshal composeConfigs);
  do_os (WriteFile MultiDockerConfFile bytes 416) eq_refl.

Definition generateEngineCompose (name version : string) (sshPort : Z) (authorizedKeys network fixedIP : string) : ctl () :=
  _ ← do_os (MkdirAll (Dir MultiDockerConfFile) 448) eq_refl;
  composeConfigs ← read_compose;
  _ ← do_os (MkdirAll (data_dir name) 448) eq_refl;
  write_compose (<[name := engine_service name version sshPort authorizedKeys network fixedIP]> composeConfigs).

Definition RemoveEngineFromCompose (name : string) : ctl () :=
  composeConfigs ← read_compose;
  write_compose (delete name composeConfigs).

Definition randomSSHPort : ctl Z :=
  x ← ask (Listen 0); mret (match (x : api Z) with AOk port => port | _ => 0%Z end).

(** The options of the command. *)
Record create_flags := {
  version : string; ssh_port : string; authorized_keys : string; network_ : string; fixed_ip : string;
}.

Definition set_services (cfg : CloudConfig) : ctl () :=
  do_ask (ConfigSet "rancher.services_include" (SetBools (ServicesInclude cfg))) eq_refl.

(** Enabling what is not enabled: it is staged, and the configuration is written. *)
Definition enable_services (cfg : CloudConfig) (enabledServices : list string) : ctl () :=
  match enabledServices with
  | [] => mret ()
  | _ =>
      _ ← or_fatal (do_ask (StageServices enabledServices) eq_refl);
      or_fatal (set_services cfg)
  end.

Definition is_enabled (cfg : CloudConfig) (name : string) : bool := default false (ServicesInclude cfg !! name).

Definition include (name : string) (b : bool) (cfg : CloudConfig) : CloudConfig :=
  set_ServicesInclude (<[name := b]> (ServicesInclude cfg)) cfg.

Definition engineCreate (name : string) (f : create_flags) : ctl () :=
  let port := (Atoi (ssh_port f)).1 in
  sshPort ← (if (port <=? 0)%Z then randomSSHPort else mret port);
  _ ← generateEngineCompose name (version f) sshPort (authorized_keys f) (network_ f) (fixed_ip f);
  cfg ← load_config;
  _ ← (if is_enabled cfg name then mret () else enable_services (include name true cfg) [name]);
  or_fatal (GenerateDindEngineScript name).

(** Flags that the command does not declare cannot be set: -v is not one of them. *)
Definition rm_flags : list string := ["timeout"; "t"; "force"; "f"].

Definition c_Set (flags : gmap string string) (name value : string) : gmap string string :=
  if existsb (String.eqb name) rm_flags then <[name := value]> flags else flags.

Definition c_Bool (flags : gmap string string) (name : string) : bool := bool_decide (flags !! name = Some "true").

Definition dindEngineRemove (name : string) (flags : gmap string string) (timeout : Z) : ctl () :=
  go_on ← (if c_Bool flags "force" then mret true else yes "Continue");
  if negb go_on then mret ()
  else
    let flags := c_Set (c_Set flags "force" "true") "v" "true" in
    cfg ← load_config;
    _ ← or_fatal (do_ask (GetProject true false) eq_refl);
    _ ← or_fatal (do_ask (ProjectStop timeout [name]) eq_refl);
    _ ← or_fatal (do_ask (ProjectDelete (c_Bool flags "v") [name]) eq_refl);
    match ServicesInclude cfg !! name with
    | None => fatal "Failed to found enabled service"
    | Some _ =>
        _ ← or_fatal (set_services (set_ServicesInclude (delete name (ServicesInclude cfg)) cfg));
        _ ← or_fatal (RemoveEngineFromCompose name);
        RemoveDindEngineScript name
    end.

(** *** What is checked before *)

Definition CheckUserDefineNetwork (name : string) : ctl network :=
  _ ← do_ask NewSystemClient eq_refl;
  networks ← do_ask NetworkList eq_refl;
  match filter (λ n, n_Name n = name) networks with
  | n :: _ => mret n
  | [] => lift (Err ("Failed to found the user define network: " +:+ name))
  end.

(** [net.IPNet.Contains], for a network and an address that parsed or not. *)
Definition net_contains (net : list Z * list Z) (ip : option (list Z)) : bool :=
  match ip with
  | None => false
  | Some ip =>
      let ip := default ip (To4 ip) in
      (length ip =? length net.1)%nat && bool_decide (zip_with Z.land ip net.2 = zip_with Z.land net.1 net.2)
  end.

(** A subnet that does not parse is a nil pointer. *)
Fixpoint CheckUserDefineIPv4Address (ipv4 : string) (subnets : list string) : result () :=
  match subnets with
  | [] => Err ("IP " +:+ ipv4 +:+ " is not in the specified cidr")
  | subnet :: subnets =>
      match ParseCIDR subnet with
      | None => Panic "nil pointer dereference"
      | Some net => if net_contains net (ParseIP ipv4) then Ok () else CheckUserDefineIPv4Address ipv4 subnets
      end
  end.

Definition refuse {A} (b : bool) (msg : string) (p : ctl A) : ctl A := if b then lift (Err msg) else p.

Definition check_port (text : string) : ctl () :=
  if String.eqb text "" then mret ()
  else
    match Atoi text with
    | (_, true) => lift (Err "Failed to convert ssh port to Int")
    | (port, false) =>
        if (0 <? port)%Z then _ ← do_ask (Listen port) eq_refl; mret () else mret ()
    end.

Definition preFlightValidate (args : list string) (f : create_flags) : ctl () :=
  match args with
  | [name] =>
      refuse (String.eqb name "") "Must specify one engine name" (
      refuse (String.eqb (version f) "") "Must specify one engine version" (
      missing ← (if String.eqb (authorized_keys f) "" then mret false
                 else x ← stat (authorized_keys f); mret (not_exist x));
      refuse missing "The authorized-keys should be an exist file" (
      refuse (String.eqb (network_ f) "") "Must specify network" (
      userDefineNetwork ← CheckUserDefineNetwork (network_ f);
      refuse (String.eqb (fixed_ip f) "") "Must specify fix ip" (
      _ ← lift (CheckUserDefineIPv4Address (fixed_ip f) (n_Subnets userDefineNetwork));
      refuse (negb (existsb (String.eqb (version f)) SupportedDinds)) "Engine version not supported" (
      check_port (ssh_port f)))))))
  | _ => lift (Err "Must specify one engine name")
  end.

(** ** Services *)

(** One turn of the loop of [disable] or [del], with the change of the map. *)
Fixpoint change_each (change : string → gmap string bool → gmap string bool) (services : list string)
    (cfg : CloudConfig) (changed : bool) : ctl (CloudConfig * bool) :=
  match services with
  | [] => mret (cfg, changed)
  | service :: services =>
      _ ← validateService service cfg;
      match ServicesInclude cfg !! service with
      | None => change_each change services cfg changed
      | Some _ =>
          change_each change services (set_ServicesInclude (change service (ServicesInclude cfg)) cfg) true
      end
  end.

Definition change_services (change : string → gmap string bool → gmap string bool) (services : list string) : ctl () :=
  cfg ← load_config;
  x ← change_each change services cfg false;
  let '(cfg, changed) := (x : CloudConfig * bool) in
  if changed then or_fatal (set_services cfg) else mret ().

Definition disable : list string → ctl () := change_services (λ service, insert service false).
Definition del : list string → ctl () := change_services (λ service, delete service).

(** The loop of [enable]: the configuration, and what is enabled now. *)
Fixpoint enable_each (services : list string) (cfg : CloudConfig) (enabled : list string) :
    ctl (CloudConfig * list string) :=
  match services with
  | [] => mret (cfg, enabled)
  | service :: services =>
      _ ← validateService service cfg;
      if is_enabled cfg service then enable_each services cfg enabled
      else if isLocal service && negb (HasPrefix service "/var/lib/rancher/conf")
      then fatal "ERROR: Service should be in path /var/lib/rancher/conf"
      else enable_each services (include service true cfg) (enabled ++ [service])%list
  end.

Definition enable (services : list string) : ctl () :=
  cfg ← load_config;
  x ← enable_each services cfg [];
  let '(cfg, enabledServices) := (x : CloudConfig * list string) in
  enable_services cfg enabledServices.

Definition state_line (enabled : bool) (service : string) : string :=
  (if enabled then "enabled  " else "disabled ") +:+ service.

(** The lines for the services of the repositories, and the entries that are left. *)
Definition list_available (services : list string) (clone : gmap string bool) : list string * gmap string bool :=
  foldl (λ acc service,
    match acc.2 !! service with
    | Some enabled => ((acc.1 ++ [state_line enabled service])%list, delete service acc.2)
    | None => ((acc.1 ++ [state_line false service])%list, acc.2)
    end) ([], clone) services.

(** The orders in which the maps are ranged over. *)
Context (range_bools : gmap string bool → list (string * bool))
        (range_services : gmap string (option string) → list (string * option string)).

Definition service_list (all update : bool) : ctl () :=
  cfg ← load_config;
  services ← availableService cfg update;
  _ ← (if all then each (λ service, println ("enabled  " +:+ service)) (range_services (Services cfg)).*1 else mret ());
  let '(lines, rest) := list_available services (ServicesInclude cfg) in
  _ ← each println lines;
  each (λ kv, println (state_line kv.2 kv.1)) (range_bools rest).

(** ** A command in the environment of the system *)

(** The variables of the process win. *)
Definition env_map (environment : gmap string string) (osEnv : gmap string string) : gmap string string :=
  union osEnv environment.

Definition envAction (args : list string) : ctl () :=
  cfg ← load_config;
  match args with
  | [] => mret ()
  | name :: rest =>
      osEnv ← ask (COs Environ);
      osEnv ← lift (Util.KVPairs2Map osEnv);
      cmd ← or_fatal (do_os (LookPath name) eq_refl);
      or_fatal (do_os (Exec cmd (cmd :: rest)
        (Util.Map2KVPairs (InitConfig.range_texts (env_map (Environment cfg) osEnv)))) eq_refl)
  end.
End Dind.

(** ** Switching engines *)

(** What has to have happened before a call that changes the engine. *)
Definition engine_order (w : ctl_log) (e : ctl_exchange) : Prop :=
  match e with
  | existT (ConfigSet key v) _ => ∃ engine, key = "rancher.docker.engine" ∧ v = SetText engine ∧
      existT (LoadSpecialService "docker" engine) (AOk ()) ∈ w ∧ existT (ProjectUp false "docker") (AOk ()) ∈ w
  | existT (ProjectUp _ _) _ => ∃ engine, existT (LoadSpecialService "docker" engine) (AOk ()) ∈ w
  | existT (LoadSpecialService _ _) _ => existT (ProjectStop 10 ["docker"]) (AOk ()) ∈ w
  | existT (StageServices _) _ | existT (ProjectStart _) _ | existT (ProjectDelete _ _) _ => False
  | _ => True
  end.

Lemma switch_engine_order engine w : ok_spec engine_order (switch_engine engine) (λ _ _, True) w.
Proof.
  unfold switch_engine.
  eapply ok_bind; [by apply ok_fatal_ask|]. intros _ w1 _ _.
  eapply ok_bind; [by apply ok_fatal_ask|]. intros _ w2 _ (x & Hx & Hstop). cbn in Hx. subst x.
  eapply ok_bind; [apply ok_fatal_ask; intros w' x Hw; by eapply elem_of_prefix|].
  intros _ w3 _ (x & Hx & Hload). cbn in Hx. subst x.
  eapply ok_bind; [apply ok_fatal_ask; intros w' x Hw; exists engine; by eapply elem_of_prefix|].
  intros _ w4 Hw4 (x & Hx & Hup). cbn in Hx. subst x.
  apply ok_try_ask. intros w' x Hw. exists engine. split_and!; [done..| |by eapply elem_of_prefix].
  eapply elem_of_prefix; [exact Hload|]. by etrans.
Qed.

(** Calls that only ask. *)
Definition asks (c : ctl_call) : Prop :=
  match c with
  | LoadConfig | UpdateCaches _ _ | GetResources _ _ | NewSystemClient | ContainerInspect _ | Println _ | ReadLine => True
  | _ => False
  end.

Lemma available_asks `{InitConfig.Platform} key cfg update : only asks (available key cfg update).
Proof. unfold available. ctl_calls done. Qed.

Lemma availableEngines_asks `{InitConfig.Platform} cfg update : only asks (availableEngines cfg update).
Proof. apply only_bind; [apply available_asks|done]. Qed.

Lemma availableConsoles_asks `{InitConfig.Platform} cfg update : only asks (availableConsoles cfg update).
Proof. apply only_bind; [apply available_asks|done]. Qed.

Lemma inspect_image_asks container : only asks (inspect_image container).
Proof. unfold inspect_image. ctl_calls done. Qed.

Lemma CurrentEngine_asks ParseNamed : only asks (CurrentEngine ParseNamed).
Proof. apply only_bind; [apply inspect_image_asks|done]. Qed.

Lemma CurrentConsole_asks ParseNamed : only asks (CurrentConsole ParseNamed).
Proof. apply only_bind; [apply inspect_image_asks|done]. Qed.

Lemma the_only_asks args msg : only asks (the_only args msg).
Proof. by destruct args as [|a [|b l]]. Qed.

Lemma validate_asks name known msg : only asks (validate name known msg).
Proof. unfold validate. by case_match. Qed.

#[export] Hint Resolve available_asks availableEngines_asks availableConsoles_asks CurrentEngine_asks CurrentConsole_asks
  the_only_asks validate_asks : calls.

Lemma validateEngine_asks `{InitConfig.Platform} engine cfg : only asks (validateEngine engine cfg).
Proof. unfold validateEngine. ctl_calls done. Qed.
#[export] Hint Resolve validateEngine_asks : calls.

Lemma load_config_asks : only asks load_config.
Proof. by apply only_load_config. Qed.
#[export] Hint Resolve load_config_asks : calls.

Lemma ok_asks {A} (G : ctl_log → ctl_exchange → Prop) (p : ctl A) w :
  (∀ w c x, asks c → G w (existT c x)) → only asks p → ok_spec G p (λ _ _, True) w.
Proof. intros HG Hp. apply ok_only. eapply only_mono; [|exact Hp]. intros c Hc w' x. by apply HG. Qed.

Lemma engine_order_asks w c x : asks c → engine_order w (existT c x).
Proof. by destruct c. Qed.

(** C35: When docker is switched to another engine, it was stopped before the new one is loaded, loaded
    before it is started, and started before the configuration names it: a switch that fails
    leaves the engine of the configuration as it was. *)
Theorem engineSwitch_order `{InitConfig.Platform} ParseNamed args l r :
  behaves (engineSwitch ParseNamed args) l r →
  ∀ i e, l !! i = Some e → engine_order (take i l) e.
Proof.
  intros Hb i e Hi. assert (ok_spec engine_order (engineSwitch ParseNamed args) (λ _ _, True) []) as Hs.
  { unfold engineSwitch.
    assert (∀ A (p : ctl A) w, only asks p → ok_spec engine_order p (λ _ _, True) w) as Hasks.
    { intros A p w. apply ok_asks, engine_order_asks. }
    eapply ok_bind; [apply Hasks, the_only_asks|]. intros name w1 _ _.
    eapply ok_bind; [apply Hasks, load_config_asks|]. intros cfg w2 _ _. case_match.
    - eapply ok_bind; [apply Hasks, availableEngines_asks|]. intros engines w3 _ _.
      eapply ok_bind; [apply Hasks; by destruct (last engines)|]. intros engine w4 _ _.
      eapply ok_bind; [apply Hasks, CurrentEngine_asks|]. intros current w5 _ _.
      case_match; [by apply Hasks|apply switch_engine_order].
    - eapply ok_bind; [apply Hasks, validateEngine_asks|]. intros _ w3 _ _. apply switch_engine_order. }
  destruct (spec_behaves _ _ _ _ _ _ Hb Hs) as [_ Hl]. exact (Hl i e Hi).
Qed.

Definition docker_only (image : string) : option (string * option string) := Some ("burmilla/os-docker", Some image).

(** Two engines are known. *)
Definition engines_machine (engines : list string) (c : ctl_call) : ctl_answer c :=
  match c return ctl_answer c with
  | GetResources _ _ => AOk engines
  | c => plain_ctl no_config c
  end.

Lemma engineSwitch_order_witness :
  let l := (exchanges (λ c w, (engines_machine ["docker-20.10.1"; "docker-24.0.9"] c, w))
    (engineSwitch (H := example_platform) docker_only ["docker-24.0.9"]) ()).1 in
  existT (ConfigSet "rancher.docker.engine" (SetText "docker-24.0.9")) (AOk ()) ∈ l ∧
  ∀ i e, l !! i = Some e → engine_order (take i l) e.
Proof.
  intros l. split; [vm_compute; in_log|].
  exact (engineSwitch_order (H := example_platform) docker_only ["docker-24.0.9"] l _
    (exchanges_plain (engines_machine ["docker-20.10.1"; "docker-24.0.9"])
      (engineSwitch (H := example_platform) docker_only ["docker-24.0.9"]))).
Defined.

(** ** The latest engine *)

(** The engine is a greatest one of those that the repositories told, in the order of strings. *)
Definition loads_latest (w : ctl_log) (e : ctl_exchange) : Prop :=
  match e with
  | existT (LoadSpecialService _ engine) _ => ∃ urls engines,
      existT (GetResources urls "engines") (AOk engines) ∈ w ∧ engine ∈ engines ∧
      ∀ other, other ∈ engines → String.le other engine
  | _ => True
  end.

Lemma last_sorted l x : last (sort_strings l) = Some x → x ∈ l ∧ ∀ y, y ∈ l → String.le y x.
Proof.
  intros Hx. destruct (proj1 (last_Some _ _) Hx) as [k Hk].
  assert (∀ y, y ∈ l ↔ y ∈ k ∨ y = x) as Hin.
  { intros y. rewrite <-(sort_strings_perm l), Hk. set_solver. }
  split; [apply Hin; by right|]. intros y [Hy| ->]%Hin; [|reflexivity].
  pose proof (sort_strings_sorted l) as Hs. rewrite Hk in Hs.
  clear -Hs Hy. induction k as [|a k IH]; [by apply elem_of_nil in Hy|]. inversion_clear Hs.
  apply elem_of_cons in Hy as [->|Hy]; [|by apply IH]. rewrite Forall_forall in H0. apply H0. set_solver.
Qed.

Lemma ok_available `{InitConfig.Platform} (G : ctl_log → ctl_exchange → Prop) key cfg update w :
  (∀ w c x, asks c → G w (existT c x)) →
  ok_spec G (available key cfg update) (λ names w', ∃ urls, existT (GetResources urls key) (AOk names) ∈ w') w.
Proof.
  intros HG. unfold available. eapply ok_bind; [apply ok_asks; [done|ctl_calls done]|]. intros _ w1 _ _.
  apply ok_or_fatal.
  - intros names w2 w3 Hw (urls & Hu). exists urls. by eapply elem_of_prefix.
  - eapply spec_mono; [|apply ok_do_ask; intros; by apply HG]. intros r w2 Hr names ->.
    destruct (Hr names eq_refl) as (x & Hx & Hs). cbn in Hx. subst x. eexists. by eapply since_elem.
Qed.

(** The latest engine is the last in the order of strings, of what the repositories told; without
    engines the command panics. *)
Theorem engineSwitch_latest `{InitConfig.Platform} ParseNamed l r :
  behaves (engineSwitch ParseNamed ["latest"]) l r →
  ∀ i e, l !! i = Some e → loads_latest (take i l) e.
Proof.
  intros Hb i e Hi.
  assert (∀ w c x, asks c → loads_latest w (existT c x)) as HG by (by intros w []).
  assert (ok_spec loads_latest (engineSwitch ParseNamed ["latest"]) (λ _ _, True) []) as Hs.
  { change (ok_spec loads_latest (cfg ← load_config;
      engines ← availableEngines cfg true;
      newEngine ← match last engines with Some e => mret e | None => panic "index out of range" end;
      currentEngine ← CurrentEngine ParseNamed;
      if String.eqb newEngine currentEngine then mret () else switch_engine newEngine) (λ _ _, True) []).
    eapply ok_bind; [apply ok_asks; [done|apply load_config_asks]|]. intros cfg w2 _ _.
    eapply ok_bind.
    { eapply ok_bind; [by apply ok_available|]. intros names w3 _ (urls & Hn).
      apply (ok_done _ _ (λ es w', ∃ urls names, existT (GetResources urls "engines") (AOk names) ∈ w' ∧ es = sort_strings names)).
      - intros es w4 w5 Hw (u & ns & H1 & ->). exists u, ns. split; [by eapply elem_of_prefix|done].
      - intros es [= <-]. by exists urls, names. }
    intros es w3 _ (urls & names & Hn & ->).
    destruct (last (sort_strings names)) as [engine|] eqn:El; [|by apply ok_only].
    apply last_sorted in El as [Hin Hmax]. eapply (ok_bind _ _ _ (λ a _, a = engine)).
    { apply ok_done; [by intros a w4 w5 _ ->|]. by intros a [= <-]. }
    intros a w4 Hw4 ->. eapply ok_bind; [apply ok_asks; [done|apply CurrentEngine_asks]|]. intros current w5 Hw5 _.
    case_match; [by apply ok_only|]. apply ok_only_from. unfold switch_engine.
    ctl_calls ltac:(intros w' x Hw'; first
      [ exact I
      | exists urls, names; split; [eapply elem_of_prefix; [exact Hn|]; etrans; [exact Hw4|]; by etrans|done] ]). }
  destruct (spec_behaves _ _ _ _ _ _ Hb Hs) as [_ Hl]. exact (Hl i e Hi).
Qed.

Lemma engineSwitch_latest_witness :
  let l := (exchanges (λ c w, (engines_machine ["docker-24.0.9"; "docker-20.10.1"; "docker-24.0.10"] c, w))
    (engineSwitch (H := example_platform) docker_only ["latest"]) ()).1 in
  existT (LoadSpecialService "docker" "docker-24.0.9") (AOk ()) ∈ l ∧
  ∀ i e, l !! i = Some e → loads_latest (take i l) e.
Proof.
  intros l. split; [vm_compute; in_log|].
  exact (engineSwitch_latest (H := example_platform) docker_only l _
    (exchanges_plain (engines_machine ["docker-24.0.9"; "docker-20.10.1"; "docker-24.0.10"])
      (engineSwitch (H := example_platform) docker_only ["latest"]))).
Defined.

Example latest_of_none :
  (exchanges (λ c w, (engines_machine [] c, w)) (engineSwitch (H := example_platform) docker_only ["latest"]) ()).2
  = Panic "index out of range".
Proof. vm_compute. reflexivity. Qed.

(** ** The file of engines in containers *)

Section Compose.
Context (Unmarshal : string → result (gmap string ServiceConfigV1))
        (Marshal : gmap string ServiceConfigV1 → result string).

(** The file, while nobody else changes it; and whether the code was told of an error
    when it asked if the file, which was there, is there. *)
Record compose_file := { content : option string; misread : bool }.

(** An error of the stat says nothing of the file, but when the file is not there. *)
Definition compose_law (c : ctl_call) (w : compose_file) : ctl_answer c → compose_file → Prop :=
  match c return ctl_answer c → compose_file → Prop with
  | COs (Stat p) => λ x w',
      if bool_decide (p = MultiDockerConfFile) then
        content w' = content w ∧
        match x with
        | AOk _ => is_Some (content w) ∧ misread w' = misread w
        | ANotFound _ => content w = None ∧ misread w' = misread w
        | AErr _ => misread w' = misread w || bool_decide (is_Some (content w))
        end
      else w' = w
  | COs (ReadFile p) => λ x w', w' = w ∧ (p = MultiDockerConfFile → ∀ data, x = AOk data → content w = Some data)
  | COs (WriteFile p data _) => λ x w',
      if bool_decide (p = MultiDockerConfFile)
      then misread w' = misread w ∧ (ok x = true → content w' = Some data) else w' = w
  | COs (MkdirAll _ _) => λ _ w', w' = w
  | _ => λ _ _, True
  end.

(** What the file holds, when it was never misread. *)
Definition holds (w : compose_file) (m : gmap string ServiceConfigV1) : Prop :=
  misread w = false →
  match content w with Some bytes => Unmarshal bytes = Ok m | None => m = ∅ end.

Abbreviation file_rg p Q w := (rg compose_law (=) (λ _ _, True) p Q w).

Lemma file_call {B} c (k : ctl_answer c → ctl B) Q w :
  (∀ x w', compose_law c w x w' → file_rg (k x) Q w') → file_rg (Call c k) Q w.
Proof using Type.
  intros H w1 Hw x w2 Hx. split; [done|]. apply H. assert (w = w1) as -> by (clear -Hw; by induction Hw; subst). done.
Qed.

Lemma file_done {B} (r : result B) (Q : result B → compose_file → Prop) w : Q r w → file_rg (Done r) Q w.
Proof using Type. intros H w1 Hw. assert (w = w1) as -> by (clear -Hw; by induction Hw; subst). done. Qed.

Lemma file_bind {A B} (p : ctl A) (f : A → ctl B) (Q : result B → compose_file → Prop) P w :
  (∀ a w', P a w' → file_rg (f a) Q w') → (∀ e w', Q (Err e) w') → (∀ e w', Q (Panic e) w') →
  file_rg p (λ r w', ∀ a, r = Ok a → P a w') w → file_rg (p ≫= f) Q w.
Proof using Type.
  intros Hf He Hp H. apply rg_bind. eapply rg_mono; [|exact H]. intros [a|e|e] w' Ha; [by apply Hf, Ha|done..].
Qed.

(** The result is right when there is no error. *)
Definition if_ok {A} (P : A → compose_file → Prop) (r : result A) (w : compose_file) : Prop := ∀ a, r = Ok a → P a w.

(** Only the note of a misread can be new. *)
Definition same_file (w w' : compose_file) : Prop :=
  content w' = content w ∧ (misread w' = false → misread w = false).

Lemma holds_same w w' m : same_file w w' → holds w m → holds w' m.
Proof using Type. intros [Hc Hm] H Hn. rewrite Hc. by apply H, Hm. Qed.

Lemma holds_unique w m m' : misread w = false → holds w m → holds w m' → m = m'.
Proof using Type. intros Hw H H'. specialize (H Hw). specialize (H' Hw). destruct (content w); congruence. Qed.

Lemma read_compose_holds w : file_rg (read_compose Unmarshal) (if_ok (λ m w', same_file w w' ∧ holds w' m)) w.
Proof using Type.
  unfold read_compose. prog_cbn. apply file_call. cbn [compose_law]. rewrite bool_decide_eq_true_2 by done.
  intros x w1 [Hc Hx]. destruct x as [info|e|e]; prog_cbn.
  - destruct Hx as [_ Hm]. apply file_call. intros x w2 [-> Hr].
    destruct x as [data|e|e]; prog_cbn; apply file_done; [|by intros m [=]..].
    intros m Hu. split; [split; congruence|]. intros _. rewrite (Hr eq_refl data eq_refl). cbn.
    destruct (Unmarshal data); congruence.
  - destruct Hx as [Hn Hm]. apply file_done. intros m [= <-]. split; [split; congruence|]. intros _.
    by rewrite Hc, Hn.
  - apply file_done. intros m [= <-]. split.
    + split; [done|]. rewrite Hx. by intros [? _]%orb_false_iff.
    + unfold holds. rewrite Hx, Hc. intros [_ Hn]%orb_false_iff. apply bool_decide_eq_false in Hn.
      destruct (content w); [by destruct Hn|done].
Qed.

Hypothesis Unmarshal_Marshal : ∀ m bytes, Marshal m = Ok bytes → Unmarshal bytes = Ok m.

Lemma write_compose_holds m w :
  file_rg (write_compose Marshal m) (if_ok (λ _ w', misread w' = misread w ∧ holds w' m)) w.
Proof using Unmarshal_Marshal.
  unfold write_compose. prog_cbn. destruct (Marshal m) as [bytes|e|e] eqn:E; [|by apply file_done..].
  prog_cbn. apply file_call. cbn [compose_law]. rewrite bool_decide_eq_true_2 by done. intros x w1 [Hm Hx].
  destruct x; prog_cbn; apply file_done; [|by intros u [=]..].
  intros u _. split; [done|]. intros _. rewrite (Hx eq_refl). by apply Unmarshal_Marshal.
Qed.

Lemma mkdir_keeps {B} p perm (f : () → ctl B) (Q : result B → compose_file → Prop) w :
  file_rg (f ()) Q w → (∀ e w', Q (Err e) w') → file_rg (do_os (MkdirAll p perm) eq_refl ≫= f) Q w.
Proof using Type.
  intros Hf HE. prog_cbn. apply file_call. intros x w1 Hx. cbn in Hx. subst w1.
  destruct x as [[]|e|e]; prog_cbn; [exact Hf|by apply file_done..].
Qed.

(** What is read and written back: a change of what the file held. *)
Lemma rewrite_holds (change : gmap string ServiceConfigV1 → gmap string ServiceConfigV1) m m' w w' :
  holds w m → same_file w w' → holds w' m' →
  file_rg (write_compose Marshal (change m')) (if_ok (λ _ w2, holds w2 (change m))) w'.
Proof using Unmarshal_Marshal.
  intros Hm Hs Hm'. eapply rg_mono; [|apply write_compose_holds]. intros r w2 Hr u Hu.
  destruct (Hr u Hu) as [Hmis H2]. intros Hn. rewrite Hn in Hmis.
  rewrite (holds_unique w' m m'); [by apply H2|done|by eapply holds_same|done].
Qed.

Lemma generate_holds name version port keys network ip m w :
  holds w m →
  file_rg (generateEngineCompose Unmarshal Marshal name version port keys network ip)
    (if_ok (λ _ w', holds w' (<[name := engine_service name version port keys network ip]> m))) w.
Proof using Unmarshal_Marshal.
  intros Hm. unfold generateEngineCompose. apply mkdir_keeps; [|by intros e w' u].
  eapply file_bind; [|by intros e w' u|by intros e w' u|apply read_compose_holds].
  intros m' w' [Hs Hm']. apply mkdir_keeps; [|by intros e w2 u].
  by apply (rewrite_holds (<[name := engine_service name version port keys network ip]>) m m' w w').
Qed.

Lemma remove_holds name m w :
  holds w m →
  file_rg (RemoveEngineFromCompose Unmarshal Marshal name) (if_ok (λ _ w', holds w' (delete name m))) w.
Proof using Unmarshal_Marshal.
  intros Hm. unfold RemoveEngineFromCompose.
  eapply file_bind; [|by intros e w' u|by intros e w' u|apply read_compose_holds].
  intros m' w' [Hs Hm']. by apply (rewrite_holds (delete name) m m' w w').
Qed.

(** C36: Creating an engine and removing it again gives back the file with the services that were there,
    for any name that was free, as long as the YAML library reads back what it writes. The
    one exception: the file was there and the system could not say so, which the code takes for an
    empty file. *)
Theorem engine_compose_roundtrip name version port keys network ip m w :
  holds w m → m !! name = None →
  file_rg (_ ← generateEngineCompose Unmarshal Marshal name version port keys network ip;
           RemoveEngineFromCompose Unmarshal Marshal name) (if_ok (λ _ w', holds w' m)) w.
Proof using Unmarshal_Marshal.
  intros Hm Hn. eapply file_bind; [|by intros e w' u|by intros e w' u|by apply generate_holds].
  intros u0 w' Hw'. cbv beta in Hw'. eapply rg_mono; [|by apply remove_holds].
  intros r w2 Hr u Hu. specialize (Hr u Hu). cbv beta in Hr. by rewrite delete_insert_id in Hr.
Qed.
End Compose.

#[export] Instance ServiceConfigV1_eq_dec : EqDecision ServiceConfigV1.
Proof. solve_decision. Defined.

(** A library that writes at most one service. *)
Definition toy_service : ServiceConfigV1 := engine_service "e1" "os-dind" 2222 "" "net" "10.0.0.2".

Definition toy_Marshal (m : gmap string ServiceConfigV1) : result string :=
  if decide (m = ∅) then Ok "{}" else if decide (m = {["e1" := toy_service]}) then Ok "e1" else Err "no".

Definition toy_Unmarshal (bytes : string) : result (gmap string ServiceConfigV1) :=
  if String.eqb bytes "{}" then Ok ∅ else if String.eqb bytes "e1" then Ok {["e1" := toy_service]} else Err "no".

Lemma engine_compose_roundtrip_witness :
  rg compose_law (=) (λ _ _, True)
    (_ ← generateEngineCompose toy_Unmarshal toy_Marshal "e1" "os-dind" 2222 "" "net" "10.0.0.2";
     RemoveEngineFromCompose toy_Unmarshal toy_Marshal "e1")
    (if_ok (λ _ w', holds toy_Unmarshal w' ∅)) {| content := None; misread := false |}.
Proof.
  refine (engine_compose_roundtrip toy_Unmarshal toy_Marshal _ "e1" "os-dind" 2222 "" "net" "10.0.0.2" ∅ _ _ _).
  - intros m bytes. unfold toy_Marshal, toy_Unmarshal.
    destruct (decide (m = ∅)) as [->|]; [by intros [= <-]|]. destruct (decide (m = _)) as [->|]; [by intros [= <-]|done].
  - done.
  - done.
Defined.

(** An engine is removed while the file cannot be looked at: all the others are lost. *)
Example misread_loses_engines :
  existT (COs (WriteFile MultiDockerConfFile "{}" 416)) (AOk ()) ∈
    (exchanges (λ c w, (match c return ctl_answer c with
        | COs (Stat _) => AErr "permission denied"
        | c => plain_ctl no_config c end, w))
      (RemoveEngineFromCompose toy_Unmarshal toy_Marshal "e2") ()).1.
Proof. vm_compute. in_log. Qed.

(** ** Removing an engine *)

(** The volumes of an engine are never removed: the command has no flag -v, so that setting it
    changes nothing. *)
Lemma dindEngineRemove_volumes Unmarshal Marshal name flags timeout :
  flags !! "v" = None →
  only (λ c, match c with ProjectDelete removeVolume _ => removeVolume = false | _ => True end)
    (dindEngineRemove Unmarshal Marshal name flags timeout).
Proof.
  intros Hv. unfold dindEngineRemove, set_services, RemoveEngineFromCompose, read_compose, write_compose, RemoveDindEngineScript.
  assert (c_Bool (c_Set (c_Set flags "force" "true") "v" "true") "v" = false) as ->.
  { unfold c_Bool, c_Set. cbn. apply bool_decide_eq_false_2. rewrite lookup_insert_ne by done. by rewrite Hv. }
  ctl_calls ltac:(first [exact I|reflexivity]).
Qed.

(** ** Addresses of engines *)

(** An address is accepted when one of the subnets before the first bad one has it. *)
Lemma CheckUserDefineIPv4Address_bad ip good bad rest :
  Forall (λ s, ∃ net, ParseCIDR s = Some net ∧ net_contains net (ParseIP ip) = false) good → ParseCIDR bad = None →
  CheckUserDefineIPv4Address ip (good ++ bad :: rest) = Panic "nil pointer dereference".
Proof.
  intros Hg Hb. induction Hg as [|s good (net & Hs & Hn) _ IH]; cbn; [by rewrite Hb|]. by rewrite Hs, Hn.
Qed.

Lemma CheckUserDefineIPv4Address_ok ip subnets :
  Forall (λ s, is_Some (ParseCIDR s)) subnets →
  CheckUserDefineIPv4Address ip subnets = Ok () ↔
    Exists (λ s, ∃ net, ParseCIDR s = Some net ∧ net_contains net (ParseIP ip) = true) subnets.
Proof.
  induction 1 as [|s subnets [net Hs] _ IH]; cbn; [by rewrite Exists_nil|].
  rewrite Exists_cons, Hs. destruct (net_contains net (ParseIP ip)) eqn:En.
  - split; [|done]. intros _. left. by exists net.
  - rewrite IH. split; [by right|]. intros [(n & [= <-] & Hn)|H]; [congruence|done].
Qed.

Example address_in_subnet : CheckUserDefineIPv4Address "10.1.2.3" ["192.168.0.0/16"; "10.1.0.0/16"] = Ok ().
Proof. vm_compute. reflexivity. Qed.

(** ** Services of the repositories *)

Section Services.
Context `{InitConfig.Platform}.

(** What [enable] has done before it writes: the services of the command are on, those that were
    not were staged, and nothing else is changed. *)
Definition enabled_all (services : list string) (m : gmap string bool) : gmap string bool :=
  foldl (λ m s, <[s := true]> m) m services.

Lemma set_ServicesInclude_get m cfg : ServicesInclude (set_ServicesInclude m cfg) = m.
Proof using Type. done. Qed.

Lemma enable_each_spec services cfg enabled l cfg' enabled' :
  behaves (enable_each services cfg enabled) l (Ok (cfg', enabled')) →
  (∀ s, s ∈ services → ServicesInclude cfg' !! s = Some true) ∧
  (∀ s, s ∉ services → ServicesInclude cfg' !! s = ServicesInclude cfg !! s) ∧
  ∃ new, enabled' = (enabled ++ new)%list ∧
    ∀ s, s ∈ new ↔ s ∈ services ∧ is_enabled cfg s = false.
Proof using Type.
  revert cfg enabled l. induction services as [|s services IH]; intros cfg enabled l; cbn [enable_each].
  { intros [-> [= -> ->]]. split_and!; [set_solver|done|]. exists []. split; [by rewrite app_nil_r|set_solver]. }
  intros (l1 & l2 & [] & -> & _ & H2)%behaves_bind_ok. destruct (is_enabled cfg s) eqn:Es.
  - apply IH in H2 as (H3 & H4 & new & -> & Hnew).
    assert (ServicesInclude cfg !! s = Some true) as Hs.
    { unfold is_enabled in Es. destruct (ServicesInclude cfg !! s) as [[]|]; done. }
    split_and!.
    + intros s' [->|Hs']%elem_of_cons; [|by apply H3]. destruct (decide (s ∈ services)); [by apply H3|]. by rewrite H4.
    + intros s' Hs'. apply H4. set_solver.
    + exists new. split; [done|]. intros s'. rewrite Hnew, elem_of_cons. split; [tauto|].
      intros [[->|?] He]; [congruence|done].
  - case_match; [by destruct H2|]. apply IH in H2 as (H3 & H4 & new & -> & Hnew).
    assert (∀ s', s' ≠ s → is_enabled (include s true cfg) s' = is_enabled cfg s') as Hne.
    { intros s' Hs'. unfold is_enabled, include. cbn. by rewrite lookup_insert_ne. }
    split_and!.
    + intros s' [->|Hs']%elem_of_cons; [|by apply H3]. destruct (decide (s ∈ services)); [by apply H3|].
      rewrite H4 by done. unfold include. cbn. apply lookup_insert_eq.
    + intros s' Hs'. rewrite H4 by set_solver. unfold include. cbn. rewrite lookup_insert_ne by set_solver. done.
    + exists (s :: new). split; [by rewrite <-app_assoc|]. intros s'. rewrite !elem_of_cons, Hnew.
      destruct (decide (s' = s)) as [->|Hs']; [split; [tauto|by left]|]. rewrite Hne by done. tauto.
Qed.
End Services.

Section Enable.
Context `{InitConfig.Platform}.

Lemma enable_each_asks services cfg enabled : only asks (enable_each services cfg enabled).
Proof using Type.
  revert cfg enabled. induction services as [|s services IH]; intros cfg enabled; cbn [enable_each]; [done|].
  unfold validateService, ValidService, availableService. ctl_calls done.
Qed.

(** When services are enabled and the command succeeds, either all of them were enabled before and
    nothing is written, or exactly those that were not are staged, and then the configuration is
    written, once and last, with all of them on and every other service as it was. *)
Theorem enable_writes services l :
  behaves (enable services) l (Ok ()) →
  ∃ cfg asked rest, l = existT LoadConfig (Some cfg) :: asked ++ rest ∧ Forall (λ e, asks (projT1 e)) asked ∧
    ((rest = [] ∧ ∀ s, s ∈ services → is_enabled cfg s = true) ∨
     ∃ new m, rest = [existT (StageServices new) (AOk ());
                      existT (ConfigSet "rancher.services_include" (SetBools m)) (AOk ())] ∧
       (∀ s, s ∈ new ↔ s ∈ services ∧ is_enabled cfg s = false) ∧
       (∀ s, s ∈ services → m !! s = Some true) ∧
       (∀ s, s ∉ services → m !! s = ServicesInclude cfg !! s)).
Proof using Type.
  intros (l1 & l2 & cfg & -> & H1 & H2)%behaves_bind_ok.
  assert (l1 = [existT LoadConfig (Some cfg)]) as ->.
  { unfold load_config, ask in H1. destruct H1 as (x & l' & -> & H1). destruct x as [c|]; destruct H1 as [-> [=]]. by subst. }
  apply behaves_bind_ok in H2 as (l3 & l4 & [cfg' new] & -> & H3 & H4).
  exists cfg, l3, l4. split_and!; [done|by eapply only_behaves; [|apply enable_each_asks]|].
  apply enable_each_spec in H3 as (Hon & Hoff & new' & -> & Hnew). cbn [app] in H4.
  destruct new' as [|s new'].
  - left. destruct H4 as [-> _]. split; [done|]. intros s Hs. destruct (is_enabled cfg s) eqn:E; [done|].
    assert (s ∈ @nil string) by (apply Hnew; done). by apply elem_of_nil in H0.
  - right. exists (s :: new'), (ServicesInclude cfg'). split_and!; [|done..].
    unfold enable_services in H4. apply behaves_bind_ok in H4 as (l5 & l6 & [] & -> & H5 & H6).
    apply behaves_fatal_ask in H5 as (x & -> & Hx). apply behaves_fatal_ask in H6 as (y & -> & Hy). cbn in Hx, Hy. by subst.
Qed.
End Enable.

Definition some_services : CloudConfig := set_ServicesInclude {["a" := true; "b" := false]} no_config.

Definition services_machine (c : ctl_call) : ctl_answer c :=
  match c return ctl_answer c with
  | GetResources _ _ => AOk ["a"; "b"; "c"]
  | c => plain_ctl some_services c
  end.

Lemma enable_writes_witness :
  let l := (exchanges (λ c w, (services_machine c, w)) (enable (H := example_platform) ["a"; "b"; "c"]) ()).1 in
  existT (StageServices ["b"; "c"]) (AOk ()) ∈ l ∧
  ∃ cfg asked rest, l = existT LoadConfig (Some cfg) :: asked ++ rest ∧ Forall (λ e, asks (projT1 e)) asked ∧
    ((rest = [] ∧ ∀ s, s ∈ ["a"; "b"; "c"] → is_enabled cfg s = true) ∨
     ∃ new m, rest = [existT (StageServices new) (AOk ());
                      existT (ConfigSet "rancher.services_include" (SetBools m)) (AOk ())] ∧
       (∀ s, s ∈ new ↔ s ∈ ["a"; "b"; "c"] ∧ is_enabled cfg s = false) ∧
       (∀ s, s ∈ ["a"; "b"; "c"] → m !! s = Some true) ∧
       (∀ s, s ∉ ["a"; "b"; "c"] → m !! s = ServicesInclude cfg !! s)).
Proof.
  intros l. split; [vm_compute; in_log|]. apply (enable_writes (H := example_platform) ["a"; "b"; "c"]).
  pose proof (exchanges_plain services_machine (enable (H := example_platform) ["a"; "b"; "c"])) as Hb.
  assert ((exchanges (λ c w, (services_machine c, w)) (enable (H := example_platform) ["a"; "b"; "c"]) ()).2 = Ok ()) as Hr
    by (vm_compute; reflexivity).
  rewrite Hr in Hb. exact Hb.
Defined.
