(* ===== verification/ConsoleInit.v ===== *)
(** * The console ([cmd/control/console_init.go], [entrypoint.go], [autologin.go],
    [recovery_init.go])

    What the container of the console does before it becomes the process that restarts the
    terminals: homes, keys of the ssh daemon, the list of processes, links, profiles, and
    what cloud-init executes. *)

From stdpp Require Import prelude gmap strings list.
From S2P Require Import Prelude GoStrings Prog Conc OS Control CloudInitExecute Engine.
From S2P Require GoNet FS Util InitConfig Respawn.

Local Open Scope string_scope.

Definition consoleDone : string := "/run/console-done".
Definition dockerHome : string := "/home/docker".
Definition gettyCmd : string := "/sbin/agetty".
Definition rancherHome : string := "/home/rancher".
Definition startScript : string := "/opt/rancher/bin/start.sh".
Definition runLockDir : string := "/run/lock".
Definition sshdFile : string := "/etc/ssh/sshd_config".
Definition sshdTplFile : string := "/etc/ssh/sshd_config.tpl".
Definition dockerCompletionLinkFile : string := "/usr/share/bash-completion/completions/docker".
Definition dockerCompletionFile : string := "/var/lib/rancher/engine/completion".
Definition RosBin : string := "/usr/bin/ros".
Definition CloudConfigScriptFile : string := "/var/lib/rancher/conf/cloud-config-script".

(** The process becomes another program: nothing of this one runs any more. *)
Definition exec (path : string) (argv env : list string) : ctl () :=
  x ← ask (COs (Exec path argv env));
  match (x : api ()) with AOk _ => exit | ANotFound e | AErr e => lift (Err e) end.

(** ** Homes *)

Definition createHomeDir (homedir : string) (uid gid : Z) : ctl () :=
  x ← stat homedir;
  if not_exist x then
    _ ← try_os (MkdirAll homedir 493) eq_refl;
    try_ask (Chown homedir uid gid) eq_refl
  else mret ().

Definition skeleton (homedir : string) (uid gid : Z) (name : string) : ctl () :=
  let file := homedir +:+ "/" +:+ name in
  x ← stat file;
  if not_exist x then
    _ ← ignore (FileCopy ("/etc/skel/" +:+ name) file);
    try_ask (Chown file uid gid) eq_refl
  else mret ().

Definition enableBashRC (homedir : string) (uid gid : Z) : ctl () :=
  each (skeleton homedir uid gid) [".bash_logout"; ".bashrc"; ".profile"].

(** ** The processes of the terminals *)

(** [terminal.IsTerminal] of a device that can be opened. *)
Definition istty (name : string) : ctl bool :=
  x ← ask (COs (Open ("/dev/" +:+ name)));
  if ok (x : api ()) then ask (IsTerminal ("/dev/" +:+ name)) else mret false.

Definition autologinBin (recovery : bool) : string := if recovery then "/usr/bin/recovery" else "/usr/bin/autologin".

Definition allowAutoLogin (cfg : CloudConfig) : bool := negb (existsb (String.eqb "autologin") (Disable cfg)).

Definition wants_autologin (cfg : CloudConfig) (cmdline tty : string) : bool :=
  allowAutoLogin cfg && GoStrings.Contains cmdline ("rancher.autologin=" +:+ tty).

Definition login_option (cfg : CloudConfig) (cmdline user tty : string) (recovery : bool) : string :=
  if wants_autologin cfg cmdline tty then " -n -l " +:+ autologinBin recovery +:+ " -o " +:+ user +:+ ":" +:+ tty else "".

Definition virtual_line (cfg : CloudConfig) (cmdline user tty : string) (recovery : bool) : string :=
  gettyCmd +:+ login_option cfg cmdline user tty recovery +:+ " --noclear " +:+ tty +:+ " linux".

Definition serial_line (cfg : CloudConfig) (cmdline user tty : string) (recovery : bool) : string :=
  gettyCmd +:+ login_option cfg cmdline user tty recovery +:+ " " +:+ tty.

Definition virtual_ttys : list string := ["tty1"; "tty2"; "tty3"; "tty4"; "tty5"; "tty6"].
Definition serial_ttys : list string := ["ttyS0"; "ttyS1"; "ttyS2"; "ttyS3"; "ttyAMA0"].

(** The lines of the terminals that are there; a serial one has to be a console of the kernel. *)
Fixpoint tty_lines (wanted : string → bool) (line : string → string) (ttys : list string) : ctl string :=
  match ttys with
  | [] => mret ""
  | tty :: ttys =>
      here ← (if wanted tty then istty tty else mret false);
      rest ← tty_lines wanted line ttys;
      mret (if here : bool then line tty +:+ newline +:+ rest else rest)
  end.

Definition console_tty (cmdline tty : string) : bool := GoStrings.Contains cmdline ("console=" +:+ tty).

Definition generateRespawnConf (cmdline user : string) (sshd recovery : bool) : ctl string :=
  cfg ← load_config;
  virtual ← tty_lines (λ _, true) (λ tty, virtual_line cfg cmdline user tty recovery) virtual_ttys;
  serial ← tty_lines (console_tty cmdline) (λ tty, serial_line cfg cmdline user tty recovery) serial_ttys;
  mret (virtual +:+ serial +:+ (if sshd then "/usr/sbin/sshd -D" else "")).

(** The files below /etc/respawn.conf.d that can be read are appended, each after a newline. *)
Fixpoint append_conf (respawn : string) (files : list (string * bool)) : ctl string :=
  match files with
  | [] => mret respawn
  | f :: files =>
      content ← ask (COs (ReadFile (path_Join ["/etc/respawn.conf.d"; f.1])));
      append_conf (match (content : api string) with AOk content => respawn +:+ newline +:+ content | _ => respawn end) files
  end.

Definition writeRespawn (user : string) (sshd recovery : bool) : ctl () :=
  cmdline ← do_os (ReadFile "/proc/cmdline") eq_refl;
  respawn ← generateRespawnConf cmdline user sshd recovery;
  files ← ask (COs (ReadDir "/etc/respawn.conf.d"));
  respawn ← (match (files : api (list (string * bool))) with AOk files => append_conf respawn files | _ => mret respawn end);
  do_os (WriteFile "/etc/respawn.conf" respawn 420) eq_refl.

Definition start_respawn : ctl () :=
  respawnBinPath ← do_os (LookPath "respawn") eq_refl;
  env ← ask (COs Environ);
  exec respawnBinPath ["respawn"; "-f"; "/etc/respawn.conf"] env.

Definition recoveryInitAction : ctl () :=
  _ ← ignore (writeRespawn "root" false true);
  start_respawn.

(** ** The ssh daemon *)

(** The upper bound of the port is 65354. *)
Definition sshd_data (ssh : SSHConfig) : list (string * string) :=
  ((if (0 <? Port ssh)%Z && (Port ssh <? 65355)%Z then [("Port", Itoa (Port ssh))] else []) ++
   (if String.eqb (ListenAddress ssh) "" then [] else [("ListenAddress", ListenAddress ssh)]))%list.

Definition modifySshdConfig (cfg : CloudConfig) : ctl () :=
  x ← stat sshdTplFile;
  match (x : api file_info) with
  | AOk _ =>
      _ ← try_os (Remove sshdFile) eq_refl;
      _ ← do_os (ReadFile sshdTplFile) eq_refl;
      _ ← do_os (OpenCreate sshdFile 420) eq_refl;
      deferred (try_os (CloseFile sshdFile) eq_refl)
        (do_ask (FollowTemplate sshdTplFile sshdFile (sshd_data (SSH cfg))) eq_refl)
  | ANotFound _ => mret ()
  | AErr e => lift (Err e)
  end.

(** A key that is there is left alone; one that was saved is written, and otherwise one is
    generated and saved. *)
Definition setup_key (cfg : CloudConfig) (keyType : string) : ctl () :=
  let outputFile := "/etc/ssh/ssh_host_" +:+ keyType +:+ "_key" in
  let outputFilePub := outputFile +:+ ".pub" in
  x ← stat outputFile;
  if ok x then mret ()
  else
    match Keys (SSH cfg) !! keyType, Keys (SSH cfg) !! (keyType +:+ "-pub") with
    | Some saved, Some pub =>
        _ ← do_os (WriteFileAtomic outputFile saved 384) eq_refl;
        do_os (WriteFileAtomic outputFilePub pub 384) eq_refl
    | _, _ =>
        _ ← run_command ["bash"; "-c"; "ssh-keygen -f " +:+ outputFile +:+ " -N '' -t " +:+ keyType];
        savedBytes ← do_os (ReadFile outputFile) eq_refl;
        pubBytes ← do_os (ReadFile outputFilePub) eq_refl;
        _ ← try_ask (ConfigSet ("rancher.ssh.keys." +:+ keyType) (SetText savedBytes)) eq_refl;
        try_ask (ConfigSet ("rancher.ssh.keys." +:+ keyType +:+ "-pub") (SetText pubBytes)) eq_refl
    end.

Definition setupSSH (cfg : CloudConfig) : ctl () :=
  _ ← each (setup_key cfg) ["rsa"; "ed25519"];
  do_os (MkdirAll "/var/run/sshd" 420) eq_refl.

(** ** Profiles *)

(** [strconv.Quote]; the bytes from 128 on are kept, which are the runes that can be printed. *)
Definition quote_char (c : ascii) : string :=
  let b := byte_of c in
  let hex := String (GoNet.hex_digit (b / 16)) (String (GoNet.hex_digit (b mod 16)) "") in
  if bool_decide (c = dquote_char) then "\" +:+ dquote
  else if bool_decide (c = "\"%char) then "\\"
  else if (b =? 7)%Z then "\a" else if (b =? 8)%Z then "\b" else if (b =? 12)%Z then "\f"
  else if (b =? 10)%Z then "\n" else if (b =? 13)%Z then "\r" else if (b =? 9)%Z then "\t"
  else if (b =? 11)%Z then "\v"
  else if (b <? 32)%Z || (b =? 127)%Z then "\x" +:+ hex
  else String c "".

Fixpoint quote_chars (s : string) : string :=
  match s with "" => "" | String c s => quote_char c +:+ quote_chars s end.

Definition Quote (s : string) : string := dquote +:+ quote_chars s +:+ dquote.

Definition proxyLines (environment : gmap string string) : list string :=
  omap (λ k, (λ v, "export " +:+ k +:+ "=" +:+ Quote v) <$> environment !! k)
    ["http_proxy"; "HTTP_PROXY"; "https_proxy"; "HTTPS_PROXY"; "no_proxy"; "NO_PROXY"].

Definition pathLines (environment : gmap string string) : list string :=
  ["PATH"; "path"] ≫= λ k,
    match environment !! k with
    | Some v => (λ p, "export PATH=$PATH:" +:+ TrimSpace p) <$> Split v ","
    | None => []
    end.

Definition write_profile (file : string) (lines : list string) : ctl () :=
  match lines with
  | [] => mret ()
  | _ => try_os (WriteFile file ("#!/bin/sh" +:+ newline +:+ Join lines newline +:+ newline) 493) eq_refl
  end.

(** ** The poll in the message of the day, and the addresses in the issue *)

Definition pollFile : string := "/etc/update-motd.d/1-burmillaos-1".

Definition pollInfo : string := Join [
  "#!/bin/sh";
  "export TERM=xterm-256color";
  "";
  "echo " +:+ dquote;
  "";
  "";
  "$(tput setaf 3)";
  "    --------------------------------------------------";
  "   | Dear Burmilla OS user,                           |";
  "   | Please, answer to poll in $(tput setaf 4)burmillaos.org/poll$(tput setaf 3)    |";
  "   | about your main Burmilla OS use case.            |";
  "   |                                                  |";
  "   | Thank you advance.                               |";
  "   |                                                  |";
  "   | You can disable this message with command:       |";
  "   | $(tput setaf 5)sudo chmod a-x /etc/update-motd.d/1-burmillaos-1$(tput setaf 3) |";
  "    --------------------------------------------------";
  "$(tput sgr0)";
  "";
  "";
  dquote;
  ""] newline.

Definition issueScript : string :=
  "echo $(/sbin/ifconfig | grep -B1 " +:+ Quote "inet" +:+ " |awk '{ if ( $1 == " +:+ Quote "inet" +:+
  " ) { print $2 } else if ( $3 == " +:+ Quote "mtu" +:+ " ) { printf " +:+ dquote +:+ "%s:" +:+ dquote +:+
  " ,$1 } }' |awk -F: '{ print $1 " +:+ dquote +:+ ": " +:+ dquote +:+ " $3}') >> /etc/issue".

Definition shadowScript : string := "sed -E -i 's/(rancher:.*:).*(:.*:.*:.*:.*:.*:.*)$/\1\2/' /etc/shadow".

(** ** [consoleInitFunc] *)

Section Console.
Context `{InitConfig.Platform, Release}.
Context (ParseNamed : string → option (string * option string)) (DecompressGzip : string → result string).

(** A file that other commands need; it is closed when the function returns. *)
Definition with_file {A} (path : string) (rest : ctl A) : ctl A :=
  x ← stat path;
  if not_exist x then
    f ← ask (COs (OpenCreate path 420));
    deferred (if ok (f : api ()) then try_os (CloseFile path) eq_refl else mret ()) rest
  else rest.

Definition make_missing (dir : string) (make : ctl ()) : ctl () :=
  x ← stat dir; if not_exist x then make else mret ().

Definition ignorePassword (cfg : CloudConfig) : bool := existsb (String.eqb "password") (Disable cfg).

Definition set_password (cfg : CloudConfig) : ctl () :=
  password ← ask (GetCmdline "rancher.password");
  if negb (ignorePassword cfg) && negb (String.eqb password "") then
    _ ← try_ask (RunWith ["chpasswd"] [] ("rancher:" +:+ password)) eq_refl;
    try_os (RunCommand ["bash"; "-c"; shadowScript]) eq_refl
  else mret ().

(** The script of each service that is an engine; without a project there is a nil pointer. *)
Definition engine_script_of (labels : option (gmap string string)) : ctl () :=
  match labels with
  | Some labels =>
      match labels !! UserDockerLabel with
      | Some name => ignore (GenerateDindEngineScript name)
      | None => mret ()
      end
  | None => mret ()
  end.

Definition engine_scripts : ctl () :=
  p ← ask (GetProject false true);
  if ok (p : api ()) then labels ← ask ServiceLabels; each engine_script_of labels
  else panic "nil pointer dereference".

Definition link (l : string * string) : ctl () :=
  _ ← try_os (Unlink l.2) eq_refl;
  try_os (Symlink l.1 l.2) eq_refl.

Definition link_engine : ctl () :=
  x ← stat dockerCompletionFile;
  each link (symLinkEngineBinary ++
             (if ok x then [(dockerCompletionFile, dockerCompletionLinkFile)] else []))%list.

Definition first_engine (cfg : CloudConfig) : ctl () :=
  make_missing "/var/lib/docker/engine-id"
    (try_os (RunCommand ["/usr/bin/ros"; "engine"; "switch"; Engine (Docker cfg)]) eq_refl).

Definition run_script (path : string) (args : list string) : ctl () := ignore (embed (RunScript path args)).

(** What is written of the terminals, the daemon, the engines, and the profiles. *)
Definition console_files (cfg : CloudConfig) : ctl () :=
  _ ← set_password cfg;
  _ ← make_missing pollFile (try_os (WriteFile pollFile pollInfo 493) eq_refl);
  _ ← ignore (setupSSH cfg);
  _ ← ignore (writeRespawn "rancher" (Daemon (SSH cfg)) false);
  _ ← ignore (modifySshdConfig cfg);
  _ ← engine_scripts;
  _ ← make_missing "/usr/libexec/docker/cli-plugins" (try_os (MkdirAll "/usr/libexec/docker/cli-plugins" 493) eq_refl);
  _ ← link_engine;
  _ ← try_os (WriteFile "/etc/issue" Banner 420) eq_refl;
  _ ← write_profile "/etc/profile.d/proxy.sh" (proxyLines (Environment cfg));
  _ ← write_profile "/etc/profile.d/path.sh" (pathLines (Environment cfg));
  try_os (RunCommand ["bash"; "-c"; issueScript]) eq_refl.

(** What is run then. *)
Definition console_runs (cfg : CloudConfig) : ctl () :=
  _ ← ApplyConsole DecompressGzip cfg;
  _ ← run_script CloudConfigScriptFile [];
  _ ← run_script startScript [];
  console ← CurrentConsole ParseNamed;
  _ ← try_os (WriteFile consoleDone console 420) eq_refl;
  _ ← first_engine cfg;
  _ ← run_script "/etc/rc.local" [];
  _ ← run_script "/etc/init.d/apparmor" ["start"];
  _ ← enableBashRC "/root" 0 0;
  _ ← enableBashRC rancherHome 1100 1100;
  _ ← enableBashRC dockerHome 1101 1101;
  _ ← try_os (Setenv "TERM" "linux") eq_refl;
  start_respawn.

Definition consoleInitFunc : ctl () :=
  cfg ← load_config;
  _ ← try_os (RunCommand ["sudo"; "dmesg"; "--console-off"]) eq_refl;
  _ ← createHomeDir rancherHome 1100 1100;
  _ ← createHomeDir dockerHome 1101 1101;
  with_file "/run/utmp" (
  with_file "/var/log/wtmp" (
  _ ← make_missing runLockDir (try_os (Mkdir runLockDir 493) eq_refl);
  _ ← console_files cfg;
  console_runs cfg)).

(** ** The entry point of the system's containers *)

Definition commandSymlinks : list (string * string) := pair RosBin <$> [
  "/usr/bin/autologin"; "/usr/bin/recovery"; "/usr/bin/cloud-init-execute"; "/usr/bin/cloud-init-save";
  "/usr/bin/dockerlaunch"; "/usr/bin/respawn"; "/usr/sbin/netconf"; "/usr/sbin/wait-for-docker";
  "/usr/sbin/poweroff"; "/usr/sbin/reboot"; "/usr/sbin/halt"; "/usr/sbin/shutdown";
  "/sbin/poweroff"; "/sbin/reboot"; "/sbin/halt"; "/sbin/shutdown"].

Definition setupCommandSymlinks : ctl () :=
  each (λ l, _ ← try_os (Remove l.2) eq_refl; try_os (Symlink l.1 l.2) eq_refl) commandSymlinks.

(** The name of a container begins with a slash; an empty one is a slice out of bounds. *)
Definition writeFiles (cfg : CloudConfig) : ctl () :=
  id ← do_ask GetCurrentContainerID eq_refl;
  _ ← do_ask NewSystemClient eq_refl;
  info ← do_ask (ContainerInspect id) eq_refl;
  match i_Name info with
  | String _ name => WriteFiles DecompressGzip cfg name
  | "" => panic "slice bounds out of range"
  end.

(** Files without a container do not count, those of the console neither need to be looked for. *)
Definition shouldWriteFiles (cfg : CloudConfig) : bool :=
  existsb (λ f, negb (String.eqb (Container f) "")) (WriteFiles_ cfg).

Definition entrypointAction : ctl () :=
  x ← stat "/host/dev";
  _ ← (if ok x then try_os (RunCommand ["mount"; "--rbind"; "/host/dev"; "/dev"]) eq_refl else mret ());
  _ ← ignore (FileCopy "/etc/ssl/certs/ca-certificates.crt.rancher" "/etc/ssl/certs/ca-certificates.crt");
  cfg ← load_config;
  _ ← (if shouldWriteFiles cfg then ignore (writeFiles cfg) else mret ());
  _ ← setupCommandSymlinks;
  argv ← args;
  match argv with
  | _ :: _ :: ((name :: _) as command) =>
      binary ← do_os (LookPath name) eq_refl;
      env ← ask (COs Environ);
      exec binary command env
  | _ => mret ()
  end.

(** ** Logins *)

Definition login_user (c_args : list string) : string :=
  match c_args with
  | usertty :: _ => default "" (head (SplitN usertty ":" 2))
  | [] => "root"
  end.

(** The program and its arguments. *)
Definition login_command (console mode user : string) : string * list string :=
  if String.eqb console "centos" || String.eqb console "fedora" || String.eqb mode "recovery"
  then ("bash", ["--login"]) else ("login", ["-f"; user]).

Definition recovery_prompt (user hostname : string) : string :=
  "echo " +:+ dquote +:+ "[" +:+ "Recovery console " +:+ user +:+ "@" +:+ hostname +:+ ":${PWD}" +:+ "]" +:+ dquote.

(** [c_args] are the arguments that are no flags. *)
Definition autologinAction (c_args : list string) : ctl () :=
  _ ← try_os (RunCommand ["/bin/stty"; "sane"]) eq_refl;
  let user := login_user c_args in
  argv ← args;
  mode ← match argv with arg0 :: _ => mret (Base arg0) | [] => panic "index out of range" end;
  console ← CurrentConsole ParseNamed;
  cfg ← load_config;
  let '(loginBin, login_args) := login_command console mode user in
  _ ← (if String.eqb mode "recovery" then
         try_os (Setenv "PROMPT_COMMAND" (recovery_prompt user (Hostname_ cfg))) eq_refl else mret ());
  loginBinPath ← do_os (LookPath loginBin) eq_refl;
  _ ← try_os (Setenv "TERM" "linux") eq_refl;
  env ← ask (COs Environ);
  exec loginBinPath (loginBin :: login_args) env.
End Console.

(** ** The processes that respawn starts *)

(** The lines of the input that [Respawn.start_run] gives a goroutine. *)
Definition processes (input : string) : list string :=
  filter (λ l, Respawn.skipped l = false) (Respawn.input_lines input).

Lemma cons_head_app a l k : l ≠ [] → cons_head a (l ++ k) = (cons_head a l ++ k)%list.
Proof. by destruct l. Qed.

Lemma Split_middle a b c : Split (a +:+ String c b) c = (Split a c ++ Split b c)%list.
Proof.
  induction a as [|x a IH]; [cbn; by rewrite decide_True|].
  change (Split (String x (a +:+ String c b)) c = (Split (String x a) c ++ Split b c)%list). cbn [Split].
  destruct (decide (x = c)); [by rewrite IH|]. rewrite IH. apply cons_head_app, Split_not_nil.
Qed.

Lemma processes_app a b : processes (a +:+ newline +:+ b) = (processes a ++ processes b)%list.
Proof.
  unfold processes, Respawn.input_lines. rewrite <-filter_app. f_equal. apply (Split_middle a b "010").
Qed.

Lemma processes_empty : processes "" = [].
Proof. vm_compute. reflexivity. Qed.

Lemma drop_space_last l r : IsSpace r.1 = false → ∃ l', drop_space (l ++ [r]) = (l' ++ [r])%list.
Proof.
  intros Hr. induction l as [|x l [l' IH]]; cbn [app drop_space].
  - rewrite Hr. by exists [].
  - destruct (IsSpace x.1); [by exists l'|]. by exists (x :: l).
Qed.

Lemma TrimSpace_slash s : ∃ t, TrimSpace (String "/" s) = String "/" t.
Proof.
  unfold TrimSpace. rewrite runes_cons_ascii by done. cbn [drop_space fst].
  change (IsSpace (byte_of "/")) with false. cbv iota. rewrite reverse_cons. change (byte_of "/") with 47%Z.
  destruct (drop_space_last (reverse (runes s)) (47%Z, "/") eq_refl) as [l ->].
  rewrite reverse_app. cbn. by eexists.
Qed.

(** A command begins with the path of its program. *)
Lemma processes_command s : has_char "010" s = false → processes (String "/" s) = [String "/" s].
Proof.
  intros Hs. unfold processes, Respawn.input_lines. rewrite Split_single by (cbn; rewrite Hs; done).
  rewrite filter_cons_True; [done|]. unfold Respawn.skipped.
  destruct (TrimSpace_slash s) as [t ->]. done.
Qed.

Lemma processes_commands (line : string → string) ttys rest :
  (∀ tty, tty ∈ ttys → ∃ s, line tty = String "/" s ∧ has_char "010" s = false) →
  processes (foldr (λ tty acc, line tty +:+ newline +:+ acc) rest ttys) = ((line <$> ttys) ++ processes rest)%list.
Proof.
  induction ttys as [|tty ttys IH]; intros Hl; cbn [foldr]; [done|].
  rewrite processes_app, IH by (intros t Ht; apply Hl; by right).
  destruct (Hl tty (list_elem_of_here _ _)) as (s & E & Hs). cbn. rewrite E, processes_command; done.
Qed.

(** Where the terminals are and the files are read. *)
Definition is_tty (l : ctl_log) (tty : string) : Prop := existT (IsTerminal ("/dev/" +:+ tty)) true ∈ l.

Lemma istty_spec name l b :
  behaves (istty name) l (Ok b) →
  (∀ tty, is_tty l tty → tty = name ∧ b = true) ∧ (b = true → is_tty l name).
Proof.
  unfold istty, is_tty. prog_cbn. intros (x & l' & -> & H).
  destruct x as [[]|e|e]; [destruct H as (y & l2 & -> & -> & [= <-])|destruct H as [-> [= ->]]..].
  - split; [|intros ->; by apply list_elem_of_further, list_elem_of_here].
    intros tty [Ht%(f_equal projT1)|Ht%list_elem_of_singleton]%elem_of_cons; [done|].
    pose proof (f_equal projT1 Ht) as E. cbn in E. injection E as ->.
    apply (f_equal (λ e : ctl_exchange, match e with existT (IsTerminal _) x => x | _ => false end)) in Ht. done.
  - split; [|done]. by intros tty Ht%list_elem_of_singleton%(f_equal projT1).
  - split; [|done]. by intros tty Ht%list_elem_of_singleton%(f_equal projT1).
Qed.

Lemma is_tty_app l1 l2 tty : is_tty (l1 ++ l2) tty ↔ is_tty l1 tty ∨ is_tty l2 tty.
Proof. unfold is_tty. apply elem_of_app. Qed.

(** The terminals of a list that were found, in their order. *)
Definition found (wanted : string → bool) (l : ctl_log) (ttys here : list string) : Prop :=
  sublist here ttys ∧ ∀ tty, tty ∈ here ↔ tty ∈ ttys ∧ wanted tty = true ∧ is_tty l tty.

Lemma tty_lines_spec wanted line ttys l text :
  NoDup ttys → behaves (tty_lines wanted line ttys) l (Ok text) →
  (∀ tty, is_tty l tty → tty ∈ ttys) ∧
  ∃ here, found wanted l ttys here ∧ text = foldr (λ tty acc, line tty +:+ newline +:+ acc) "" here.
Proof.
  revert l text. induction ttys as [|t ttys IH]; intros l text Hnd; cbn [tty_lines].
  { intros [-> [= ->]]. split; [by intros tty H%elem_of_nil|]. exists []. split; [|done].
    split; [done|]. intros tty. rewrite !elem_of_nil. tauto. }
  apply NoDup_cons in Hnd as [Ht Hnd].
  intros (l1 & l2 & here & -> & H1 & (l3 & l4 & rest & -> & H3 & [-> [= ->]])%behaves_bind_ok)%behaves_bind_ok.
  rewrite app_nil_r. apply IH in H3 as (Honly & here' & [Hsub Hin] & ->); [|done].
  assert ((∀ tty, is_tty l1 tty → tty = t ∧ wanted t = true ∧ here = true) ∧
          (here = true → wanted t = true ∧ is_tty l1 t)) as [Hl1 Hh].
  { destruct (wanted t); [apply istty_spec in H1 as [Ha Hb]|destruct H1 as [-> [= ->]]].
    - split; [intros tty Htty; by destruct (Ha tty Htty)|]. intros Hb'. by split; [|apply Hb].
    - split; [by intros tty H%elem_of_nil|done]. }
  split.
  { intros tty [H|H]%is_tty_app; [|by right; apply Honly]. destruct (Hl1 tty H) as [-> _]. by left. }
  exists (if here then t :: here' else here'). split; [|by destruct here]. split.
  - destruct here; [by apply sublist_skip|by apply sublist_cons].
  - intros tty. rewrite is_tty_app, elem_of_cons. destruct here.
    + destruct (Hh eq_refl) as [Hw Hi]. rewrite elem_of_cons, Hin. split.
      * intros [->|(Hm & Hw' & Hi')]; [tauto|tauto].
      * intros ([->|Hm] & Hw' & Hi'); [by left|]. right. split_and!; [done..|].
        destruct Hi' as [Hi'|Hi']; [|done]. destruct (Hl1 tty Hi') as [-> _]. done.
    + rewrite Hin. split; [tauto|]. intros ([->|Hm] & Hw & [Hi|Hi]).
      * by destruct (Hl1 _ Hi) as (_ & _ & [=]).
      * by destruct (Ht (Honly _ Hi)).
      * by destruct (Hl1 _ Hi) as (_ & _ & [=]).
      * done.
Qed.

Lemma processes_lines (line : string → string) (ttys : list string) :
  Forall (λ tty, ∃ s, line tty = String "/" s ∧ has_char "010" s = false) ttys → ∀ rest,
  processes (foldr (λ tty acc, line tty +:+ newline +:+ acc) "" ttys +:+ rest) = ((line <$> ttys) ++ processes rest)%list.
Proof.
  intros Hl rest. rewrite <-(processes_commands line ttys rest); [|by apply Forall_forall].
  f_equal. clear Hl. induction ttys as [|tty ttys IH]; cbn [foldr]; [done|]. by rewrite !app_assoc_s, IH.
Qed.

Lemma getty_line (option end_ : string) :
  has_char "010" option = false → has_char "010" end_ = false →
  ∃ s, gettyCmd +:+ option +:+ end_ = String "/" s ∧ has_char "010" s = false.
Proof.
  intros Ho He. exists ("sbin/agetty" +:+ option +:+ end_). split; [done|]. by rewrite !has_char_app, Ho, He.
Qed.

Lemma login_option_line cfg cmdline user tty recovery :
  has_char "010" user = false → has_char "010" tty = false →
  has_char "010" (login_option cfg cmdline user tty recovery) = false.
Proof.
  intros Hu Ht. unfold login_option. destruct (wants_autologin _ _ _); [|done].
  rewrite !has_char_app, Hu, Ht. by destruct recovery.
Qed.

Lemma virtual_line_command cfg cmdline user tty recovery :
  has_char "010" user = false → has_char "010" tty = false →
  ∃ s, virtual_line cfg cmdline user tty recovery = String "/" s ∧ has_char "010" s = false.
Proof.
  intros Hu Ht. apply getty_line; [by apply login_option_line|]. by rewrite !has_char_app, Ht.
Qed.

Lemma serial_line_command cfg cmdline user tty recovery :
  has_char "010" user = false → has_char "010" tty = false →
  ∃ s, serial_line cfg cmdline user tty recovery = String "/" s ∧ has_char "010" s = false.
Proof.
  intros Hu Ht. apply getty_line; [by apply login_option_line|]. by rewrite !has_char_app, Ht.
Qed.

(** The files that could be read, in their order. *)
Definition read_contents (l : ctl_log) : list string :=
  omap (λ e : ctl_exchange, match e with existT (COs (ReadFile _)) (AOk content) => Some content | _ => None end) l.

Lemma append_conf_processes files respawn l text :
  behaves (append_conf respawn files) l (Ok text) →
  processes text = (processes respawn ++ (read_contents l ≫= processes))%list ∧
  projT1 <$> l = (λ f, COs (ReadFile (path_Join ["/etc/respawn.conf.d"; f.1]))) <$> files.
Proof.
  revert respawn l. induction files as [|f files IH]; intros respawn l; cbn [append_conf].
  { intros [-> [= ->]]. by rewrite app_nil_r. }
  intros (x & l' & -> & H). apply IH in H as [H Hcalls]. rewrite H. split; [|cbn; by rewrite Hcalls].
  clear H Hcalls IH.
  destruct x as [content|e|e]; [|done..]. unfold read_contents. cbn [omap list_omap mbind list_bind].
  by rewrite processes_app, <-(assoc_L (++)).
Qed.

Definition sshd_process (sshd : bool) : list string := if sshd then ["/usr/sbin/sshd -D"] else [].

Lemma generateRespawnConf_processes cmdline user sshd recovery l text :
  has_char "010" user = false →
  behaves (generateRespawnConf cmdline user sshd recovery) l (Ok text) →
  ∃ cfg virtual serial,
    existT LoadConfig (Some cfg) ∈ l ∧
    found (λ _, true) l virtual_ttys virtual ∧ found (console_tty cmdline) l serial_ttys serial ∧
    processes text =
      (((λ tty, virtual_line cfg cmdline user tty recovery) <$> virtual) ++
      ((λ tty, serial_line cfg cmdline user tty recovery) <$> serial) ++ sshd_process sshd)%list.
Proof.
  intros Hu (m1 & m2 & cfg & -> & Hcfg & Hconf)%behaves_bind_ok.
  assert (m1 = [existT LoadConfig (Some cfg)]) as ->.
  { unfold load_config, ask in Hcfg. destruct Hcfg as (y & l' & -> & Hy). destruct y; destruct Hy as [-> [=]]. by subst. }
  apply behaves_bind_ok in Hconf as (m3 & m4 & vtext & -> & Hv & Hconf).
  apply behaves_bind_ok in Hconf as (m5 & m6 & stext & -> & Hs & [-> [= ->]]). rewrite app_nil_r in *.
  apply tty_lines_spec in Hv as (Honly_v & virtual & [Hsub_v Hin_v] & ->); [|apply (bool_decide_unpack _); vm_compute; exact I].
  apply tty_lines_spec in Hs as (Honly_s & serial & [Hsub_s Hin_s] & ->); [|apply (bool_decide_unpack _); vm_compute; exact I].
  assert (∀ tty, tty ∈ virtual_ttys → tty ∈ serial_ttys → False) as Hdisj.
  { intros tty H1 H2. unfold virtual_ttys, serial_ttys in *. set_solver. }
  assert (∀ tty, is_tty ([existT LoadConfig (Some cfg)] ++ m3 ++ m5) tty ↔ is_tty m3 tty ∨ is_tty m5 tty) as Htty.
  { intros tty. rewrite !is_tty_app. unfold is_tty at 1. rewrite list_elem_of_singleton. split; [|tauto].
    intros [E|E]; [by apply (f_equal projT1) in E|done]. }
  exists cfg, virtual, serial. split_and!; [by left|split; [done|]..|].
  - intros tty. rewrite Htty, Hin_v. split; [tauto|]. intros (Hm & Hw & [Hi|Hi]); [done|].
    destruct (Hdisj tty Hm (Honly_s _ Hi)).
  - intros tty. rewrite Htty, Hin_s. split; [tauto|]. intros (Hm & Hw & [Hi|Hi]); [|done].
    destruct (Hdisj tty (Honly_v _ Hi) Hm).
  - assert (Forall (λ tty, has_char "010" tty = false) (virtual_ttys ++ serial_ttys)) as Hlines by (by repeat constructor).
    rewrite Forall_forall in Hlines.
    rewrite !processes_lines; [by destruct sshd|..]; apply Forall_forall; intros tty Ht.
    + apply serial_line_command; [done|]. apply Hlines, elem_of_app. right. by apply Hin_s.
    + apply virtual_line_command; [done|]. apply Hlines, elem_of_app. left. by apply Hin_v.
Qed.

(** What the kernel command line says, and what the configuration disables. *)
Definition says (cmdline word : string) : Prop := ∃ before after, cmdline = before +:+ word +:+ after.

Lemma Contains_says cmdline word : GoStrings.Contains cmdline word = true ↔ says cmdline word.
Proof. apply Contains_spec. Qed.

(** The getty of a terminal: its options for logging in on its own, and the rest. *)
Definition getty (cfg : CloudConfig) (cmdline user : string) (recovery : bool) (tty rest line : string) : Prop :=
  let wanted := says cmdline ("rancher.autologin=" +:+ tty) ∧ "autologin" ∉ Disable cfg in
  let bin := if recovery then "/usr/bin/recovery" else "/usr/bin/autologin" in
  (wanted ∧ line = "/sbin/agetty -n -l " +:+ bin +:+ " -o " +:+ user +:+ ":" +:+ tty +:+ rest) ∨
  (¬ wanted ∧ line = "/sbin/agetty" +:+ rest).

Lemma login_option_getty cfg cmdline user tty recovery rest :
  getty cfg cmdline user recovery tty rest
    (gettyCmd +:+ login_option cfg cmdline user tty recovery +:+ rest).
Proof.
  unfold getty, login_option, wants_autologin, allowAutoLogin.
  assert (existsb (String.eqb "autologin") (Disable cfg) = true ↔ "autologin" ∈ Disable cfg) as Hd.
  { rewrite existsb_exists. setoid_rewrite list_elem_of_In. setoid_rewrite String.eqb_eq. naive_solver. }
  pose proof (Contains_says cmdline ("rancher.autologin=" +:+ tty)) as Hc.
  destruct (existsb _ _); cbn [negb andb]; [right; split; [|done]; intros [_ Hn]; by apply Hn, Hd|].
  destruct (GoStrings.Contains _ _); [left|right; split; [intros [Hs _]; by apply Hc in Hs|done]].
  split; [split; [by apply Hc|by intros H%Hd]|]. unfold autologinBin.
  change "/sbin/agetty -n -l " with (gettyCmd +:+ " -n -l "). by rewrite !app_assoc_s.
Qed.

Lemma Forall2_lines (P : string → string → Prop) (line : string → string) ttys :
  (∀ tty, P tty (line tty)) → Forall2 P ttys (line <$> ttys).
Proof. intros HP. induction ttys; by constructor. Qed.

(** C34: The file of the console holds exactly these processes for respawn, in this order: a getty for each
    of tty1 to tty6 that is there; one for each of the serial terminals that is there and that
    the kernel command line names as a console; the ssh daemon when it is configured; and the
    lines of the files below /etc/respawn.conf.d, all of which are read, as far as they can be.
    A getty logs the user in on its own exactly when the command line wants it for that terminal
    and autologin is not disabled, on recovery through the recovery program. *)
Theorem writeRespawn_processes user sshd recovery l :
  has_char "010" user = false →
  behaves (writeRespawn user sshd recovery) l (Ok ()) →
  ∃ cfg cmdline files l1 l2 virtual serial gettys serial_gettys text,
    l = (osx (ReadFile "/proc/cmdline") (AOk cmdline) :: l1 ++ osx (ReadDir "/etc/respawn.conf.d") files :: l2 ++
         [osx (WriteFile "/etc/respawn.conf" text 420) (AOk ())])%list ∧
    existT LoadConfig (Some cfg) ∈ l1 ∧
    found (λ _, true) l1 ["tty1"; "tty2"; "tty3"; "tty4"; "tty5"; "tty6"] virtual ∧
    found (λ tty, GoStrings.Contains cmdline ("console=" +:+ tty)) l1
      ["ttyS0"; "ttyS1"; "ttyS2"; "ttyS3"; "ttyAMA0"] serial ∧
    Forall2 (λ tty, getty cfg cmdline user recovery tty (" --noclear " +:+ tty +:+ " linux")) virtual gettys ∧
    Forall2 (λ tty, getty cfg cmdline user recovery tty (" " +:+ tty)) serial serial_gettys ∧
    projT1 <$> l2 =
      match files with
      | AOk fs => (λ f, COs (ReadFile (path_Join ["/etc/respawn.conf.d"; f.1]))) <$> fs
      | _ => []
      end ∧
    processes text =
      (gettys ++ serial_gettys ++ (if sshd then ["/usr/sbin/sshd -D"] else []) ++
       (read_contents l2 ≫= processes))%list.
Proof.
  intros Hu. unfold writeRespawn.
  intros (k1 & k2 & cmdline & -> & (x & -> & Hx)%behaves_do_os & H)%behaves_bind_ok. cbn in Hx. subst x.
  apply behaves_bind_ok in H as (l1 & k3 & conf & -> & Hconf & H).
  destruct H as (files & k4 & -> & H). apply behaves_bind_ok in H as (? & k5 & ? & -> & [-> [= ->]] & Htail).
  apply behaves_bind_ok in Htail as (l2 & l3 & text & -> & Htext & Hw).
  apply behaves_do_os in Hw as (x & -> & Hx). cbn in Hx. subst x.
  apply generateRespawnConf_processes in Hconf as (cfg & virtual & serial & Hcfg & Hv & Hs & Hconf); [|done].
  exists cfg, cmdline, files, l1, l2, virtual, serial,
    ((λ tty, virtual_line cfg cmdline user tty recovery) <$> virtual),
    ((λ tty, serial_line cfg cmdline user tty recovery) <$> serial), text.
  split_and!; [done|exact Hcfg|exact Hv|exact Hs| | | |].
  1, 2: apply Forall2_lines; intros tty; apply login_option_getty.
  - destruct files as [files|e|e]; [by apply append_conf_processes in Htext as [_ ?]|..]; by destruct Htext as [-> _].
  - assert (processes text = (processes conf ++ (read_contents l2 ≫= processes))%list) as ->.
    { destruct files as [files|e|e]; [by apply append_conf_processes in Htext as [? _]|..];
        destruct Htext as [-> [= ->]]; by rewrite app_nil_r. }
    by rewrite Hconf, <-!(assoc_L (++)).
Qed.

(** A machine with two virtual terminals and a serial console, whose kernel logs in on tty1. *)
Definition console_machine (c : ctl_call) : ctl_answer c :=
  match c return ctl_answer c with
  | COs (ReadFile p) =>
      if String.eqb p "/proc/cmdline" then AOk "quiet console=ttyS0 rancher.autologin=tty1"
      else AOk ("# more" +:+ newline +:+ "/usr/bin/agent" +:+ newline)
  | COs (ReadDir _) => AOk [("agent.conf", false)]
  | IsTerminal p => bool_decide (p ∈ ["/dev/tty1"; "/dev/tty2"; "/dev/ttyS0"; "/dev/ttyS1"])
  | c => plain_ctl no_config c
  end.

Lemma writeRespawn_processes_witness :
  let l := (exchanges (λ c w, (console_machine c, w)) (writeRespawn "rancher" true false) ()).1 in
  ∃ cfg cmdline files l1 l2 virtual serial gettys serial_gettys text,
    l = (osx (ReadFile "/proc/cmdline") (AOk cmdline) :: l1 ++ osx (ReadDir "/etc/respawn.conf.d") files :: l2 ++
         [osx (WriteFile "/etc/respawn.conf" text 420) (AOk ())])%list ∧
    existT LoadConfig (Some cfg) ∈ l1 ∧
    found (λ _, true) l1 ["tty1"; "tty2"; "tty3"; "tty4"; "tty5"; "tty6"] virtual ∧
    found (λ tty, GoStrings.Contains cmdline ("console=" +:+ tty)) l1
      ["ttyS0"; "ttyS1"; "ttyS2"; "ttyS3"; "ttyAMA0"] serial ∧
    Forall2 (λ tty, getty cfg cmdline "rancher" false tty (" --noclear " +:+ tty +:+ " linux")) virtual gettys ∧
    Forall2 (λ tty, getty cfg cmdline "rancher" false tty (" " +:+ tty)) serial serial_gettys ∧
    projT1 <$> l2 =
      match files with
      | AOk fs => (λ f, COs (ReadFile (path_Join ["/etc/respawn.conf.d"; f.1]))) <$> fs
      | _ => []
      end ∧
    processes text =
      (gettys ++ serial_gettys ++ ["/usr/sbin/sshd -D"] ++ (read_contents l2 ≫= processes))%list.
Proof.
  intros l. apply (writeRespawn_processes "rancher" true false); [reflexivity|].
  apply (exchanges_plain console_machine (writeRespawn "rancher" true false)).
Defined.

Example writeRespawn_runs :
  (λ e : ctl_exchange, match e with existT (COs (WriteFile _ text _)) _ => processes text | _ => [] end) <$>
    last (exchanges (λ c w, (console_machine c, w)) (writeRespawn "rancher" true false) ()).1 =
  Some ["/sbin/agetty -n -l /usr/bin/autologin -o rancher:tty1 --noclear tty1 linux";
        "/sbin/agetty --noclear tty2 linux"; "/sbin/agetty ttyS0"; "/usr/sbin/sshd -D"; "/usr/bin/agent"].
Proof. vm_compute. reflexivity. Qed.
