(* ===== verification/GoMd5.v ===== *)
(** * Sums of files ([crypto/md5])

    [different] of the installer compares two files by the sums of Go's package crypto/md5.
    The sum is computed on bytes, with words of 32 bits. *)

From stdpp Require Import prelude strings list.
From S2P Require Import Prelude GoStrings.

Local Open Scope Z_scope.

Definition word (v : Z) : Z := v mod 4294967296.

Definition rotl (v s : Z) : Z := Z.lor (word (Z.shiftl v s)) (Z.shiftr v (32 - s)).

Definition not32 (v : Z) : Z := Z.lxor v 4294967295.

(** The constants of the sixty-four steps: the parts of the sines, and the rotations. *)
Definition sines : list Z := [
   3614090360; 3905402710; 606105819; 3250441966; 4118548399; 1200080426; 2821735955; 4249261313;
   1770035416; 2336552879; 4294925233; 2304563134; 1804603682; 4254626195; 2792965006; 1236535329;
   4129170786; 3225465664; 643717713; 3921069994; 3593408605; 38016083; 3634488961; 3889429448;
   568446438; 3275163606; 4107603335; 1163531501; 2850285829; 4243563512; 1735328473; 2368359562;
   4294588738; 2272392833; 1839030562; 4259657740; 2763975236; 1272893353; 4139469664; 3200236656;
   681279174; 3936430074; 3572445317; 76029189; 3654602809; 3873151461; 530742520; 3299628645;
   4096336452; 1126891415; 2878612391; 4237533241; 1700485571; 2399980690; 4293915773; 2240044497;
   1873313359; 4264355552; 2734768916; 1309151649; 4149444226; 3174756917; 718787259; 3951481745].

Definition shifts : list Z :=
  (concat (replicate 4 [7; 12; 17; 22]) ++ concat (replicate 4 [5; 9; 14; 20]) ++
   concat (replicate 4 [4; 11; 16; 23]) ++ concat (replicate 4 [6; 10; 15; 21]))%list.

Record state := { sA : Z; sB : Z; sC : Z; sD : Z }.

Definition init : state := {| sA := 1732584193; sB := 4023233417; sC := 2562383102; sD := 271733878 |}.

(** The function of a step and the word of the block that it takes. *)
Definition mix (i : Z) (s : state) : Z * Z :=
  if i <? 16 then (Z.lor (Z.land (sB s) (sC s)) (Z.land (not32 (sB s)) (sD s)), i)
  else if i <? 32 then (Z.lor (Z.land (sD s) (sB s)) (Z.land (not32 (sD s)) (sC s)), (5 * i + 1) mod 16)
  else if i <? 48 then (Z.lxor (sB s) (Z.lxor (sC s) (sD s)), (3 * i + 5) mod 16)
  else (Z.lxor (sC s) (Z.lor (sB s) (not32 (sD s))), (7 * i) mod 16).

Definition step (block : list Z) (s : state) (i : nat) : state :=
  let '(f, g) := mix (Z.of_nat i) s in
  let f := word (f + sA s + default 0 (sines !! i) + default 0 (block !! Z.to_nat g)) in
  {| sA := sD s; sB := word (sB s + rotl f (default 0 (shifts !! i))); sC := sB s; sD := sC s |}.

Definition add (s t : state) : state :=
  {| sA := word (sA s + sA t); sB := word (sB s + sB t); sC := word (sC s + sC t); sD := word (sD s + sD t) |}.

(** Words with the low byte first. *)
Fixpoint words (l : list Z) : list Z :=
  match l with
  | a :: b :: c :: d :: l => a + 256 * b + 65536 * c + 16777216 * d :: words l
  | _ => []
  end.

Definition bytes_of (n : nat) (v : Z) : list Z := (λ i, Z.land (Z.shiftr v (8 * Z.of_nat i)) 255) <$> seq 0 n.

(** The message, a one, zeros up to eight bytes before the end of a block, and its length in bits. *)
Definition padded (l : list Z) : list Z :=
  (l ++ [128] ++ replicate (Z.to_nat ((55 - Z.of_nat (length l)) mod 64)) 0 ++ bytes_of 8 (8 * Z.of_nat (length l)))%list.

Fixpoint blocks (n : nat) (ws : list Z) (s : state) : state :=
  match n with
  | O => s
  | S n => blocks n (drop 16 ws) (add s (foldl (step (take 16 ws)) s (seq 0 64)))
  end.

Definition Sum (data : string) : list Z :=
  let ws := words (padded (byte_of <$> String.list_ascii_of_string data)) in
  let s := blocks (length ws / 16) ws init in
  (bytes_of 4 (sA s) ++ bytes_of 4 (sB s) ++ bytes_of 4 (sC s) ++ bytes_of 4 (sD s))%list.

Example Sum_empty : Sum "" = [212; 29; 140; 217; 143; 0; 178; 4; 233; 128; 9; 152; 236; 248; 66; 126].
Proof. vm_compute. reflexivity. Qed.

Example Sum_abc : Sum "abc" = [144; 1; 80; 152; 60; 210; 79; 176; 214; 150; 63; 125; 40; 225; 127; 114].
Proof. vm_compute. reflexivity. Qed.

Example Sum_long :
  Sum "12345678901234567890123456789012345678901234567890123456789012345678901234567890" =
  [87; 237; 244; 162; 43; 227; 201; 85; 172; 73; 218; 46; 33; 7; 182; 122].
Proof. vm_compute. reflexivity. Qed.
