(* ===== verification/GoAscii.v ===== *)
(** * Text of ASCII

    On text whose characters are all ASCII, the functions of Go that work on runes are
    functions of lists of characters. *)

From stdpp Require Import prelude strings list.
From S2P Require Import Prelude GoStrings.

Local Open Scope string_scope.

(** Text whose characters are all ASCII. *)
Definition is_ascii (s : string) : Prop := Forall (λ c, (byte_of c < 128)%Z) (String.list_ascii_of_string s).

Definition rune_of (c : ascii) : Z * string := (byte_of c, String c "").

Definition space (c : ascii) : bool := IsSpace (byte_of c).

Fixpoint ltrim (l : list ascii) : list ascii :=
  match l with c :: l' => if space c then ltrim l' else l | [] => [] end.

Definition rtrim (l : list ascii) : list ascii := reverse (ltrim (reverse l)).

Lemma runes_ascii s : is_ascii s → runes s = rune_of <$> String.list_ascii_of_string s.
Proof.
  unfold is_ascii. induction s as [|c s IH]; [done|]. cbn [String.list_ascii_of_string].
  intros [Hc Hs]%Forall_cons. rewrite runes_cons_ascii by done. cbn. by rewrite IH.
Qed.

Lemma drop_space_ascii l : drop_space (rune_of <$> l) = rune_of <$> ltrim l.
Proof. induction l as [|c l IH]; [done|]. cbn. unfold space. by destruct (IsSpace (byte_of c)). Qed.

Lemma rune_bytes_ascii l : rune_bytes (rune_of <$> l) = String.string_of_list_ascii l.
Proof. induction l as [|c l IH]; [done|]. cbn [fmap list_fmap]. rewrite rune_bytes_cons, IH. done. Qed.

Lemma TrimSpace_ascii s :
  is_ascii s → TrimSpace s = String.string_of_list_ascii (rtrim (ltrim (String.list_ascii_of_string s))).
Proof.
  intros Hs. unfold TrimSpace. rewrite runes_ascii by done.
  rewrite drop_space_ascii, <-fmap_reverse, drop_space_ascii, <-fmap_reverse. apply rune_bytes_ascii.
Qed.

Lemma ltrim_app a b : ltrim (a ++ b) = match ltrim a with [] => ltrim b | t => (t ++ b)%list end.
Proof. induction a as [|c a IH]; [done|]. cbn. by destruct (space c). Qed.

Lemma rtrim_app a b : rtrim (a ++ b) = match rtrim b with [] => rtrim a | t => (a ++ t)%list end.
Proof.
  unfold rtrim. rewrite reverse_app, ltrim_app. destruct (ltrim (reverse b)) as [|c t] eqn:E; [done|].
  rewrite reverse_app, reverse_involutive. by destruct (reverse (c :: t)) eqn:E2; [apply (f_equal reverse) in E2; rewrite reverse_involutive in E2|].
Qed.

Lemma ltrim_idem l : ltrim (ltrim l) = ltrim l.
Proof. induction l as [|c l IH]; [done|]. cbn. destruct (space c) eqn:E; [done|]. cbn. by rewrite E. Qed.

Lemma rtrim_idem l : rtrim (rtrim l) = rtrim l.
Proof. unfold rtrim. by rewrite reverse_involutive, ltrim_idem. Qed.

Lemma ltrim_nil_rtrim l : ltrim l = [] ↔ rtrim l = [].
Proof.
  assert (∀ k, ltrim k = [] ↔ Forall (λ c, space c = true) k) as H.
  { induction k as [|c k IH]; [by rewrite Forall_nil|]. cbn. rewrite Forall_cons. destruct (space c); [|naive_solver].
    rewrite IH. naive_solver. }
  rewrite H. unfold rtrim. rewrite <-Forall_reverse, <-H. split; [by intros ->|].
  intros E%(f_equal reverse). by rewrite reverse_involutive in E.
Qed.

Lemma ltrim_rtrim l : ltrim (rtrim l) = rtrim (ltrim l).
Proof.
  induction l as [|c l IH]; [done|]. cbn [ltrim]. change (c :: l) with ([c] ++ l)%list at 1. rewrite rtrim_app.
  destruct (space c) eqn:Ec.
  - destruct (rtrim l) as [|d t] eqn:E.
    + rewrite <-IH. unfold rtrim. cbn. by rewrite Ec.
    + cbn. rewrite Ec. by rewrite <-IH.
  - change (c :: l) with ([c] ++ l)%list. rewrite rtrim_app.
    destruct (rtrim l) as [|d t]; [unfold rtrim|]; cbn; rewrite Ec; cbn; by rewrite ?Ec.
Qed.

Lemma list_ascii_app s t :
  String.list_ascii_of_string (s +:+ t) = (String.list_ascii_of_string s ++ String.list_ascii_of_string t)%list.
Proof. induction s as [|c s IH]; [done|]. cbn. by rewrite IH. Qed.

Lemma string_of_app a b :
  String.string_of_list_ascii (a ++ b) = String.string_of_list_ascii a +:+ String.string_of_list_ascii b.
Proof. induction a as [|c a IH]; [done|]. cbn. by rewrite IH. Qed.

Lemma rtrim_incl l c : c ∈ rtrim l → c ∈ l.
Proof.
  unfold rtrim. rewrite elem_of_reverse. intros H. apply elem_of_reverse. revert H. generalize (reverse l). intros k.
  induction k as [|d k IH]; [done|]. cbn. destruct (space d); [|done]. intros H. right. auto.
Qed.

Lemma is_ascii_list l : Forall (λ c, (byte_of c < 128)%Z) l → is_ascii (String.string_of_list_ascii l).
Proof. unfold is_ascii. by rewrite String.list_ascii_of_string_of_list_ascii. Qed.

