(* ===== verification/Install.v ===== *)
(** * The installer ([cmd/control/install.go], [cmd/control/install/])

    [ros install] partitions and formats a disk, mounts it, and lays down the boot loader, the
    kernel and their configuration; an upgrade does the last part only. *)

From stdpp Require Import prelude gmap strings list.
From S2P Require Import Prelude GoStrings GoAscii Prog Conc OS Control.
From S2P Require GoMd5 Util Dfs InitConfig Power Engine.

Local Open Scope string_scope.

(** ** Where things are *)

Definition BootDir : string := "/boot".
Definition baseName : string := "/mnt/new_img".
Definition DIST : string := "/dist".

(** A command whose output is not used: what it fails with. *)
Definition run (argv : list string) : ctl () := run_command argv.

Definition unmount (p : string) : ctl () := embed (Unmount p).

(** Whether a path can be found. [os.IsNotExist] is a weaker test: another error of the stat
    does not say that the file is not there. *)
Definition found (p : string) : ctl bool := x ← stat p; mret (ok x).
Definition missing (p : string) : ctl bool := x ← stat p; mret (not_exist x).

(** [util.Blkid], whose error is only logged. *)
Definition blkid (label : string) : ctl (string * string) :=
  r ← attempt (embed (Blkid label));
  match r with Ok dt => mret dt | _ => mret ("", "") end.

(** ** Devices ([install/install.go]) *)

Definition IsEFIFirmware : ctl bool := found "/sys/firmware/efi".

Definition GetBootPartition : ctl (string * string) :=
  boot ← blkid "RANCHER_BOOT";
  if negb (String.eqb boot.1 "") then mret boot
  else
    efi ← blkid "RANCHER_EFI";
    if negb (String.eqb efi.1 "") then mret efi else mret ("", "").

(** The partition of the configuration, or else the one with the label. *)
Definition GetStatePartition : ctl string :=
  cfg ← load_config;
  dev ← ask (COs (ResolveDevice (Dev (State cfg))));
  if negb (String.eqb dev "") then mret (dev : string)
  else d ← blkid "RANCHER_STATE"; mret d.1.

Definition GetPartition (device : string) (number : Z) : string :=
  if GoStrings.Contains device "nvme" then device +:+ "p" +:+ Itoa number else device +:+ Itoa number.

Definition GetDefaultPartition (device : string) : string := GetPartition device 1.

(** The disk of a partition; without an answer the device stays as it was. *)
Definition parent_disk (device partition : string) : ctl string :=
  out ← ask (COs (Output ["lsblk"; "-no"; "pkname"; partition]));
  mret (match (out : api string) with AOk out => "/dev/" +:+ TrimSpace out | _ => device end).

(** The raw mount is only reached without a partition, and mounts just that. *)
Definition MountDevice (baseName device partition : string) (raw : bool) : ctl (string * string) :=
  if String.eqb partition "" && raw then
    device ← parent_disk "" partition;
    _ ← embed (Mount partition baseName "" "");
    mret (device, partition)
  else
    t ← (if String.eqb partition "" then
           boot ← GetBootPartition;
           t ← (if negb (String.eqb boot.1 "") then mret (boot.1, path_Join [baseName; BootDir])
                else state ← GetStatePartition; mret (state, baseName));
           disk ← parent_disk device t.1;
           mret (disk, t.1, t.2)
         else mret (device, partition, baseName));
    let '(device, partition, baseName) := t in
    _ ← try_os (MkdirAll baseName 493) eq_refl;
    _ ← run ["mount"; partition; baseName];
    mret (device, partition).

(** ** The boot configuration ([install/syslinux.go]) *)

(** The last of the lines that begin with a word counts. *)
Definition last_value (word : string) (lines : list string) : string :=
  foldl (λ acc line, let line := TrimSpace line in
    if HasPrefix line word then TrimSpace (TrimPrefix line word) else acc) "" lines.

Definition global_append (buf : string) : string := last_value "APPEND" (Util.scan_lines buf).1.

Definition ReadGlobalCfg (globalCfg : string) : ctl string :=
  buf ← do_os (ReadFile globalCfg) eq_refl; mret (global_append buf).

(** The files are those next to the configuration. *)
Definition boot_file (DIST word : string) (lines : list string) : string :=
  foldl (λ acc line, let line := TrimSpace line in
    if HasPrefix line word then path_Join [DIST; Base (TrimSpace (TrimPrefix line word))] else acc) "" lines.

Definition syslinux_files (currentCfg buf : string) : string * string :=
  let lines := (Util.scan_lines buf).1 in
  (boot_file (Dir currentCfg) "KERNEL" lines, boot_file (Dir currentCfg) "INITRD" lines).

Definition ReadSyslinuxCfg (currentCfg : string) : ctl (string * string) :=
  buf ← do_os (ReadFile currentCfg) eq_refl; mret (syslinux_files currentCfg buf).

(** ** Partitions ([setDiskpartitions]) *)

(** A line of /proc/mounts has six fields. A line that does not fit the scanner ends the search. *)
Definition mounts_device (device line : string) : bool :=
  let ele := Split line " " in (5 <? length ele)%nat && HasPrefix (default "" (head ele)) device.

Definition partitionMounted (device content : string) : bool :=
  existsb (mounts_device device) (Util.scan_lines content).1.

(** What follows the last space of a line. *)
Fixpoint after_last_space (s : string) : option string :=
  match s with
  | "" => None
  | String c s' =>
      match after_last_space s' with
      | Some d => Some d
      | None => if decide (c = " "%char) then Some s' else None
      end
  end.

(** The names in /proc/partitions that begin with the name of the disk. *)
Definition names_of (deviceName content : string) : list string :=
  filter (λ dev, HasPrefix dev deviceName = true) (omap after_last_space (Util.scan_lines content).1).

Definition exists_ (deviceName content : string) : bool :=
  existsb (String.eqb deviceName) (names_of deviceName content).

Definition haspartitions (deviceName content : string) : bool :=
  existsb (λ dev, negb (String.eqb deviceName dev)) (names_of deviceName content).

(** The mounts that a container shows: the command is one word with a space in it. *)
Definition check_container (device image : string) : ctl () :=
  if String.eqb image "" then mret ()
  else
    out ← ask (PipeOutput ["system-docker"; "exec"; image; "cat /proc/mount"]);
    if partitionMounted device out
    then lift (Err ("partition " +:+ device +:+ " mounted in " +:+ image +:+ ", cannot repartition"))
    else mret ().

(** A file that is opened and scanned; an error of the scan ends it. *)
Definition scan_file (p : string) : ctl string :=
  _ ← do_os (Open p) eq_refl;
  scanned ← ask (COs (Scan p));
  mret (scanned : string * option string).1.

Definition check_mounted (device : string) : ctl () :=
  mounts ← scan_file "/proc/mounts";
  if partitionMounted device mounts
  then lift (Err ("partition " +:+ device +:+ " mounted, cannot repartition"))
  else
    outb ← do_os (Output ["system-docker"; "ps"; "-q"]) eq_refl;
    each (check_container device) (Split outb "010").

Definition setBootable (device : string) : ctl () :=
  run ["parted"; "-s"; "-a"; "optimal"; device; "set 1 boot on"].

Definition repartition (device : string) (efi : bool) : ctl () :=
  _ ← run ["dd"; "if=/dev/zero"; "of=" +:+ device; "bs=512"; "count=2048"];
  _ ← run ["partprobe"; device];
  if efi then
    run ["parted"; "-s"; "-a"; "optimal"; device; "mklabel gpt"; "--"; "mkpart ESP fat32 1MiB 513MiB";
         "set 1 esp on"; "mkpart primary ext4 513MiB 100%"]
  else
    _ ← run ["parted"; "-s"; "-a"; "optimal"; device; "mklabel msdos"; "--"; "mkpart primary ext4 1 -1"];
    setBootable device.

Definition setDiskpartitions (device : string) (efi : bool) : ctl () :=
  match Split device "/" with
  | [_; _; deviceName] =>
      partitions ← scan_file "/proc/partitions";
      if negb (exists_ deviceName partitions) then lift (Err ("disk " +:+ device +:+ " not found"))
      else
        _ ← (if haspartitions deviceName partitions then check_mounted device else mret ());
        repartition device efi
  | _ => lift (Err ("bad device name (" +:+ device +:+ ")"))
  end.

(** ** File systems *)

Definition formatdevice (partition : string) : ctl () :=
  run ["mkfs.ext4"; "-F"; "-i"; "4096"; "-O"; "^64bit"; "-L"; "RANCHER_STATE"; partition].

Definition formatAndMount (baseName device partition : string) : ctl (string * string) :=
  _ ← formatdevice partition; MountDevice baseName device partition false.

Definition formatAndMountESP (baseName device : string) : ctl () :=
  let esp := GetPartition device 1 in
  let bootDir := path_Join [baseName; BootDir] in
  _ ← run ["mkfs.vfat"; "-F"; "32"; "-n"; "RANCHER_EFI"; esp];
  _ ← do_os (MkdirAll bootDir 493) eq_refl;
  run ["mount"; esp; bootDir].

Definition isEFILayout (baseName : string) : ctl bool :=
  efi ← found (path_Join [baseName; BootDir; "EFI"]);
  if efi : bool then mret true else d ← blkid "RANCHER_EFI"; mret (negb (String.eqb d.1 "")).

(** ** The boot loader *)

(** The files of a directory, without its directories. *)
Definition files_of (entries : list (string * bool)) : list string := fst <$> filter (λ e, e.2 = false) entries.

Definition efi_name (name : string) : string := if String.eqb name "syslinux.efi" then "bootx64.efi" else name.

Definition efi_source : string := "/usr/share/syslinux/efi64".

Definition installSyslinuxEFI (baseName : string) : ctl () :=
  let efiBootDir := path_Join [baseName; BootDir; "EFI"; "BOOT"] in
  _ ← do_os (MkdirAll efiBootDir 493) eq_refl;
  files ← do_os (ReadDir efi_source) eq_refl;
  each (λ name, embed (Dfs.CopyFile (path_Join [efi_source; name]) efiBootDir (efi_name name))) (files_of files).

(** The configuration of the BIOS for the EFI partition, where the files are in the root. *)
Definition efi_cfg (data : string) : string := Replace data "../" "/".

Definition efiCfg (src : string) : ctl string :=
  data ← do_os (ReadFile src) eq_refl; mret (efi_cfg data).

Definition copyEFICfg (src folder name : string) (overwrite : bool) : ctl () :=
  let target := path_Join [folder; name] in
  keep ← (if overwrite then mret false else found target);
  if keep : bool then mret ()
  else
    data ← efiCfg src;
    _ ← do_os (MkdirAll folder 493) eq_refl;
    do_os (WriteFile target data 420) eq_refl.

Definition write_mbr (device : string) : ctl () :=
  _ ← ignore (setBootable device);
  run ["dd"; "bs=440"; "count=1"; "if=/usr/share/syslinux/mbr.bin"; "of=" +:+ device].

(** The disk that the last test of the code sees: for RAID it is the second disk by then. *)
Definition mbr_disks (device : string) : list string * string :=
  if String.eqb device "/dev/" then (["/dev/sda"; "/dev/sdb"], "/dev/sdb") else ([device], device).

Definition extlinux (device sysLinuxDir : string) : list string :=
  if String.eqb device "/dev/" then ["extlinux"; "--install"; "--raid"; sysLinuxDir] else ["extlinux"; "--install"; sysLinuxDir].

Definition installSyslinux (device baseName : string) : ctl () :=
  let sysLinuxDir := path_Join [baseName; BootDir; "syslinux"] in
  _ ← each write_mbr (mbr_disks device).1;
  _ ← try_os (MkdirAll sysLinuxDir 493) eq_refl;
  files ← ask (COs (ReadDir "/usr/share/syslinux/"));
  _ ← each (λ name, embed (Dfs.CopyFile (path_Join ["/usr/share/syslinux/"; name]) sysLinuxDir name))
        (match (files : api (list (string * bool))) with AOk files => files_of files | _ => [] end);
  run (extlinux (mbr_disks device).2 sysLinuxDir).

(** ** The kernel and its configuration ([installRancher]) *)

(** Whether the new file differs from the installed one. *)
Definition different (existing new : string) (efi : bool) : ctl bool :=
  gone ← missing new;
  if gone : bool then mret true
  else
    data ← ask (COs (ReadFile existing));
    match (data : api string) with
    | AOk data =>
        newData ← attempt (if efi then efiCfg new else do_os (ReadFile new) eq_refl);
        mret (match newData with
              | Ok newData => negb (bool_decide (GoMd5.Sum data = GoMd5.Sum newData))
              | _ => true
              end)
    | _ => mret true
    end.

(** Moves the configuration that is there out of the way if it changes. *)
Definition keep_previous (boot : string) (efi : bool) : ctl () :=
  let currentCfg := path_Join [boot; "linux-current.cfg"] in
  let previousCfg := path_Join [boot; "linux-previous.cfg"] in
  gone ← missing currentCfg;
  if gone : bool then mret ()
  else
    changed ← different currentCfg (path_Join [DIST; "linux-current.cfg"]) efi;
    if negb changed then mret ()
    else
      gone ← missing previousCfg;
      _ ← (if gone : bool then mret () else do_os (Remove previousCfg) eq_refl);
      try_os (Rename currentCfg previousCfg) eq_refl.

Definition copy_file (boot : string) (efi : bool) (name : string) : ctl () :=
  let overwrite := negb (String.eqb name "global.cfg") in
  if efi && HasSuffix name ".cfg" then copyEFICfg (path_Join [DIST; name]) boot name overwrite
  else embed (Dfs.CopyFileOverwrite (path_Join [DIST; name]) boot name overwrite).

Definition copy_isolinux (boot : string) (efi : bool) : ctl () :=
  let isolinuxFile := path_Join [DIST; "isolinux"; "isolinux.cfg"] in
  if efi then copyEFICfg isolinuxFile (path_Join [boot; "EFI"; "BOOT"]) "syslinux.cfg" true
  else embed (Dfs.CopyFileOverwrite isolinuxFile (path_Join [boot; "syslinux"]) "syslinux.cfg" true).

(** The kernel parameters are in a file of their own, which the others include. *)
Definition write_append (boot kappend : string) : ctl () :=
  let globalFile := path_Join [boot; "global.cfg"] in
  gone ← missing globalFile;
  if gone : bool then mret () else do_os (WriteFile globalFile ("APPEND " +:+ kappend) 420) eq_refl.

(** The version is not used. *)
Definition installRancher (baseName kappend : string) (efi : bool) : ctl () :=
  let boot := path_Join [baseName; BootDir] in
  _ ← keep_previous boot efi;
  files ← ask (COs (ReadDir DIST));
  _ ← each (λ name, ignore (copy_file boot efi name))
        (match (files : api (list (string * bool))) with AOk files => files_of files | _ => [] end);
  _ ← ignore (copy_isolinux boot efi);
  write_append boot kappend.

(** ** The whole of it ([layDownOS], [seedData]) *)

Definition stateSeedDir : string := "state_seed".
Definition cloudConfigBase : string := "/var/lib/rancher/conf/cloud-config.d".

(** A file and where it goes; without a colon that is an index out of range. *)
Definition copy_extra (baseName f : string) : ctl () :=
  match Split f ":" with
  | src :: dst :: _ => embed (Dfs.CopyFile src baseName dst)
  | _ => panic "index out of range"
  end.

Definition seed_files (baseName cloudConfigDir cloudData : string) (files : list string) : ctl () :=
  _ ← do_os (MkdirAll cloudConfigDir 448) eq_refl;
  _ ← (if HasSuffix cloudData "empty.yml" then mret ()
       else embed (Dfs.CopyFile cloudData cloudConfigDir (Base cloudData)));
  each (copy_extra baseName) files.

(** With a boot partition the state partition is mounted below it for a while. *)
Definition seedData (baseName cloudData : string) (files : list string) : ctl () :=
  _ ← do_os (Stat baseName) eq_refl;
  boot ← GetBootPartition;
  if negb (String.eqb boot.1 "") then
    let seed := path_Join [baseName; stateSeedDir] in
    _ ← do_os (MkdirAll seed 448) eq_refl;
    deferred (unmount seed) (
      statePartition ← GetStatePartition;
      _ ← run ["mount"; statePartition; seed];
      seed_files baseName (path_Join [baseName; stateSeedDir; cloudConfigBase]) cloudData files)
  else seed_files baseName (path_Join [baseName; cloudConfigBase]) cloudData files.

(** What the type of the installation decides: whether the layout is that of EFI, the console
    and what is added to the kernel parameters. *)
Record layout := { l_efi : bool; l_console : string; l_args : string }.

Definition bios (console : string) : layout := {| l_efi := false; l_console := console; l_args := "" |}.

(** The types that format, and that fail when something goes wrong. *)
Definition lay_generic (cloudConfig device partition : string) : ctl layout :=
  efi ← IsEFIFirmware;
  dp ← formatAndMount baseName device partition;
  let device := dp.1 : string in
  _ ← (if efi : bool then _ ← formatAndMountESP baseName device; installSyslinuxEFI baseName
       else installSyslinux device baseName);
  _ ← seedData baseName cloudConfig [];
  mret {| l_efi := efi; l_console := "tty0"; l_args := "" |}.

(** Those of the clouds, which go on when the boot loader cannot be installed. *)
Definition lay_cloud (cloudConfig device partition : string) : ctl layout :=
  dp ← formatAndMount baseName device partition;
  let device := dp.1 : string in
  _ ← ignore (installSyslinux device baseName);
  _ ← ignore (seedData baseName cloudConfig []);
  mret (bios "ttyS0").

Definition lay_arm (cloudConfig device partition : string) : ctl layout :=
  _ ← formatAndMount baseName device partition;
  _ ← ignore (seedData baseName cloudConfig []);
  mret (bios "tty0").

Definition lay_noformat (cloudConfig device partition statedir : string) : ctl layout :=
  dp ← MountDevice baseName device partition false;
  let device := dp.1 : string in
  efi ← isEFILayout baseName;
  _ ← ignore (if efi : bool then installSyslinuxEFI baseName else installSyslinux device baseName);
  _ ← do_os (MkdirAll (path_Join [baseName; statedir]) 493) eq_refl;
  _ ← seedData baseName cloudConfig [];
  mret {| l_efi := efi; l_console := "tty0"; l_args := "" |}.

Definition lay_raid (device partition : string) : ctl layout :=
  dp ← MountDevice baseName device partition false;
  let device := dp.1 : string in
  _ ← ignore (installSyslinux device baseName);
  mret (bios "tty0").

Definition lay_bootstrap (device partition : string) : ctl layout :=
  _ ← MountDevice baseName device partition true;
  mret {| l_efi := false; l_console := "ttyS0"; l_args := " rancher.cloud_init.datasources=[ec2,gce]" |}.

Definition lay_upgrade (device partition : string) : ctl layout :=
  _ ← MountDevice baseName device partition false;
  efi ← isEFILayout baseName;
  mret {| l_efi := efi; l_console := "tty0"; l_args := "" |}.

Definition lay (installType cloudConfig device partition statedir : string) : ctl layout :=
  if existsb (String.eqb installType) ["syslinux"; "generic"] then lay_generic cloudConfig device partition
  else if String.eqb installType "arm" then lay_arm cloudConfig device partition
  else if existsb (String.eqb installType) ["amazon-ebs-hvm"; "googlecompute"] then lay_cloud cloudConfig device partition
  else if String.eqb installType "noformat" then lay_noformat cloudConfig device partition statedir
  else if String.eqb installType "raid" then lay_raid device partition
  else if String.eqb installType "bootstrap" then lay_bootstrap device partition
  else if existsb (String.eqb installType) ["rancher-upgrade"; "upgrade"] then lay_upgrade device partition
  else lift (Err ("unexpected install type " +:+ installType)).

Definition base_args : string :=
  "printk.devkmsg=on rancher.state.dev=LABEL=RANCHER_STATE rancher.state.wait transparent_hugepage=madvise iommu=pt intel_iommu=off scsi_mod.use_blk_mq=1 apparmor=1 security=apparmor panic=10".

Definition kernel_args (statedir : string) (l : layout) : string :=
  base_args +:+ (if String.eqb statedir "" then "" else " rancher.state.directory=" +:+ statedir) +:+ l_args l +:+
  (if l_efi l then " rancher.state.boot_dev=LABEL=RANCHER_EFI rancher.state.boot_fstype=vfat" else "") +:+
  " console=" +:+ l_console l.

(** What the user adds to the kernel parameters is kept for the next upgrade. *)
Definition preserved_append (boot kappend : string) : ctl string :=
  let file := path_Join [boot; "append"] in
  if String.eqb kappend "" then
    preserved ← ask (COs (ReadFile file));
    mret (match (preserved : api string) with AOk s => s | _ => "" end)
  else _ ← try_os (WriteFile file kappend 420) eq_refl; mret kappend.

Definition layDownOS (installType cloudConfig device partition statedir kappend : string) (kexec : bool) : ctl () :=
  let boot := path_Join [baseName; BootDir] in
  deferred (unmount baseName) (deferred (unmount boot) (
    l ← lay installType cloudConfig device partition statedir;
    let kernelArgs := kernel_args statedir l in
    kappend ← preserved_append boot kappend;
    _ ← installRancher baseName (kernelArgs +:+ " " +:+ kappend) (l_efi l);
    if kexec then ignore (embed_power (Power.Kexec false boot (kernelArgs +:+ " " +:+ kappend))) else mret ())).

(** ** The iso ([getBootIso], [mountBootIso]) *)

(** The last label that is found counts. *)
Fixpoint boot_device (labels : list string) (acc : string * string) : ctl (string * string) :=
  match labels with
  | [] => mret acc
  | label :: labels =>
      d ← blkid label;
      boot_device labels (if negb (String.eqb d.1 "") then d else acc)
  end.

Definition getBootIso : ctl (string * string) :=
  d ← boot_device ["RancherOS"; "RANCHEROS"; "BurmillaOS"; "BURMILLAOS"] ("/dev/sr0", "iso9660");
  x ← stat d.1;
  match (x : api file_info) with ANotFound e => lift (Err e) | _ => mret d end.

Definition mountBootIso (deviceName deviceType : string) : ctl () :=
  mounts ← scan_file "/proc/mounts";
  if partitionMounted deviceName mounts then mret ()
  else
    _ ← try_os (MkdirAll "/bootiso" 493) eq_refl;
    run ["mount"; "-t"; deviceType; deviceName; "/bootiso"].

(** ** Images that are kept ([install/service.go]) *)

Section Images.
Context `{InitConfig.Platform} `{Release}.
(** The YAML library: the new configuration and the images of a service file. *)
Context (Unmarshal_config : string → result CloudConfig) (Unmarshal_images : string → result (gmap string string))
        (range_services : gmap string bool → list (string * bool)).

Definition service_image (image : string) (oldcfg newcfg : CloudConfig) : string :=
  let new := default "" (Environment newcfg !! "REGISTRY_DOMAIN") in
  let registryDomain := if String.eqb new "" then default "" (Environment oldcfg !! "REGISTRY_DOMAIN") else new in
  Replace (Replace image "${REGISTRY_DOMAIN}" registryDomain) "${SUFFIX}" Suffix.

(** The key of the image: consoles and engines are named after what they are. *)
Definition image_key (service svctype : string) : string :=
  if existsb (String.eqb svctype) ["console"; "docker"] then svctype else service.

Definition getServiceImage (service svctype : string) (oldcfg newcfg : CloudConfig) : ctl string :=
  let new := Engine.ToArray (Repositories newcfg) in
  let urls := match new with [] => Engine.ToArray (Repositories oldcfg) | _ => new end in
  bytes ← or_fatal (do_ask (LoadServiceResource service urls) eq_refl);
  images ← or_fatal (lift (Unmarshal_images bytes));
  mret (service_image (default "" (images !! image_key service svctype)) oldcfg newcfg).

Definition add_image (saved : list string) (image : string) : list string :=
  if String.eqb image "" then saved else (saved ++ [image])%list.

Fixpoint service_images (oldcfg newcfg : CloudConfig) (services : list (string * bool)) (saved : list string) : ctl (list string) :=
  match services with
  | [] => mret saved
  | (key, true) :: services =>
      image ← getServiceImage key "" oldcfg newcfg;
      service_images oldcfg newcfg services (add_image saved image)
  | (_, false) :: services => service_images oldcfg newcfg services saved
  end.

(** A configuration that is not there is empty. *)
Definition readConfigFile (file : string) : ctl string :=
  x ← ask (COs (ReadFile file));
  match (x : api string) with ANotFound _ => mret "" | x => expect x end.

Definition GetCacheImageList (cloudconfig : string) (oldcfg : CloudConfig) : ctl (list string) :=
  bytes ← or_fatal (readConfigFile cloudconfig);
  newcfg ← or_fatal (lift (Unmarshal_config bytes));
  saved ← service_images oldcfg newcfg (range_services (ServicesInclude newcfg)) [];
  saved ← (if negb (String.eqb (Console newcfg) "") && negb (String.eqb (Console newcfg) "default")
           then image ← getServiceImage (Console newcfg) "console" oldcfg newcfg; mret (add_image saved image)
           else mret saved);
  let newEngine := Engine (Docker newcfg) in
  if negb (String.eqb newEngine "") && negb (String.eqb newEngine (Engine (Docker oldcfg)))
  then image ← getServiceImage newEngine "docker" oldcfg newcfg; mret (add_image saved image)
  else mret saved.

Definition RunCacheScript (partition : string) (images : list string) : ctl () :=
  embed (RunScript "/scripts/cache-services.sh" [partition; Join images " "]).

(** ** The command ([runInstall], [installAction]) *)

(** The options of the command, and the arguments after them. *)
Record install_flags := {
  f_image : string; f_type : string; f_cloud_config : string; f_device : string; f_partition : string;
  f_statedir : string; f_append : string; f_force : bool; f_no_reboot : bool; f_isoinstallerloaded : bool;
  f_kexec : bool; f_save : bool; f_debug : bool; f_args : list string;
}.

(** What is installed once the options are read. *)
Record installation := {
  image : string; installType : string; cloudConfig : string; device : string; partition : string;
  statedir : string; kappend : string; force : bool; kexec : bool; isoinstallerloaded : bool; debug : bool;
  savedImages : list string;
}.

Definition flag (b : bool) (l : list string) : list string := if b then l else [].
Definition text_flag (name value : string) : list string := if String.eqb value "" then [] else [name; value].

(** The installer in a container of its own does not ask and does not reboot. *)
Definition installer_command (i : installation) (image : string) (useIso : bool) : list string :=
  (["run"; "--rm"; "--net=host"; "--privileged"; "-v"; "/:/host"; "--volumes-from=all-volumes"; image;
    "-t"; installType i; "-d"; device i; "-i"; image; "-f"; "--no-reboot"] ++
   text_flag "-c" (cloudConfig i) ++ text_flag "-a" (kappend i) ++ flag useIso ["--isoinstallerloaded=1"] ++
   flag (kexec i) ["--kexec"] ++ flag (debug i) ["--debug"] ++ text_flag "--partition" (partition i) ++
   text_flag "--statedir" (statedir i) ++ flag (bool_decide (savedImages i ≠ [])) ["--save"])%list.

Definition version_image (cfg : CloudConfig) : string :=
  Image (Upgrade cfg) +:+ ":" +:+ InitConfig.Version +:+ Suffix.

(** The images of the iso, when it can be mounted: whether they are used, and which image. *)
Definition load_iso (d : string * string) (image : string) : ctl (bool * string) :=
  mounted ← attempt (mountBootIso d.1 d.2);
  match mounted with
  | Ok _ =>
      there ← found "/bootiso/rancheros/";
      if negb there then mret (false, image)
      else
        loaded ← attempt (run ["system-docker"; "load"; "-i"; "/bootiso/rancheros/installer.tar.gz"]);
        match loaded with
        | Ok _ =>
            cfg ← load_config;
            mret (true, if String.eqb image (version_image cfg) then Image (Upgrade cfg) +:+ "-installer:latest" else image)
        | _ => mret (false, image)
        end
  | _ => mret (false, image)
  end.

Definition run_installer (i : installation) : ctl () :=
  d ← getBootIso;
  t ← load_iso d (image i);
  let '(useIso, image) := t in
  _ ← (if useIso : bool then ignore (unmount "/bootiso") else mret ());
  run ("system-docker" :: installer_command i image useIso).

(** The types that partition the disk when no partition is given. *)
Definition formats (installType : string) : bool := existsb (String.eqb installType) ["generic"; "syslinux"].

(** The disk is that of the host, where udev makes the device of the partition. *)
Definition prepare_disk (i : installation) : ctl (string * string) :=
  if String.eqb (partition i) "" && formats (installType i) then
    efi ← IsEFIFirmware;
    _ ← setDiskpartitions (device i) efi;
    let device := "/host" +:+ device i in
    mret (device, if efi : bool then GetPartition device 2 else GetDefaultPartition device)
  else mret (device i, partition i).

Definition install_here (i : installation) : ctl () :=
  dp ← prepare_disk i;
  let '(device, partition) := dp in
  _ ← (if isoinstallerloaded i && negb (String.eqb (installType i) "upgrade") then
         d ← getBootIso; ignore (mountBootIso d.1 d.2)
       else mret ());
  _ ← layDownOS (installType i) (cloudConfig i) device partition (statedir i) (kappend i) (kexec i);
  match savedImages i with [] => mret () | saved => RunCacheScript partition saved end.

Definition runInstall (i : installation) : ctl () :=
  _ ← (if force i then mret ()
       else
         tty ← ask IsRunningInTty;
         go_on ← (if tty : bool then yes "Continue" else mret true);
         if go_on : bool then mret () else exit);
  efi ← IsEFIFirmware;
  if efi && negb (String.eqb (partition i) "") && formats (installType i) then
    lift (Err "--partition can not be used when booted in UEFI mode - a whole disk (-d) is needed for the EFI system partition")
  else if isoinstallerloaded i then install_here i
  else
    nodist ← missing ("/dist/initrd-" +:+ InitConfig.Version);
    if nodist : bool then run_installer i else install_here i.

Definition user_config : string := "/opt/user_config.yml".

(** The cloud-config is copied, and the copy is installed. *)
Definition fetch_config (cloudConfig : string) : ctl string :=
  if String.eqb cloudConfig "" then mret ""
  else
    _ ← try_os (MkdirAll "/opt" 493) eq_refl;
    _ ← or_fatal (if HasPrefix cloudConfig "http://" || HasPrefix cloudConfig "https://"
                  then HTTPDownloadToFile cloudConfig user_config else FileCopy cloudConfig user_config);
    mret user_config.

(** The types that find their partition by its label. *)
Definition labelled : list string := ["noformat"; "raid"; "bootstrap"; "upgrade"].

Definition upgrades (installType : string) : bool := existsb (String.eqb installType) ["rancher-upgrade"; "upgrade"].

Definition installAction (fuel : nat) (f : install_flags) : ctl () :=
  if negb (String.eqb GOARCH "amd64") then fatal "ros install / upgrade only supported on 'amd64'"
  else if bool_decide (f_args f ≠ []) then fatal "invalid arguments"
  else
    cfg ← load_config;
    let image := if String.eqb (f_image f) "" then formatImage (version_image cfg) cfg else f_image f in
    let upgrade := upgrades (f_type f) in
    let installType := if upgrade then "upgrade" else if String.eqb (f_type f) "" then "generic" else f_type f in
    let force := f_force f || upgrade in
    let reboot := negb (f_no_reboot f) && negb upgrade in
    if negb (String.eqb (f_statedir f) "") && negb (String.eqb installType "noformat")
    then fatal "--statedir requires --type noformat"
    else if negb (existsb (String.eqb installType) labelled) && String.eqb (f_device f) ""
    then fatal "Can not proceed without -d <dev> specified"
    else
      cloudConfig ← fetch_config (f_cloud_config f);
      savedImages ← (if f_save f && negb (String.eqb cloudConfig "") && negb (String.eqb installType "upgrade")
                     then GetCacheImageList cloudConfig cfg else mret []);
      _ ← or_fatal (runInstall {| image := image; installType := installType; cloudConfig := cloudConfig;
            device := f_device f; partition := f_partition f; statedir := f_statedir f;
            kappend := TrimSpace (f_append f); force := force; kexec := f_kexec f;
            isoinstallerloaded := f_isoinstallerloaded f || upgrade; debug := f_debug f; savedImages := savedImages |});
      if negb (f_kexec f) && reboot then
        go_on ← (if force then mret true else yes "Continue with reboot");
        if go_on : bool then embed_power (Power.Reboot fuel (Power.default_flags "")) else mret ()
      else mret ().
End Images.

(** ** What an upgrade calls *)

(** The calls of an upgrade; the files are in [upgrade_step]. *)
Definition upgrade_call (c : ctl_call) : Prop :=
  match c with
  | COs (RunCommand argv) => ∃ partition target, argv = ["mount"; partition; target]
  | COs (Output argv) => head argv = Some "blkid" ∨ head argv = Some "lsblk"
  | CPower (Power.POs (Output argv)) => head argv = Some "kexec"
  | COs (Stat _ | Lstat _ | Open _ | ReadFile _ | ReadDir _ | Readlink _ | ResolveDevice _) => True
  | COs (MkdirAll _ _ | WriteFile _ _ _ | WriteFileAtomic _ _ _ | Create _ | CopyContent _ _) => True
  | COs (Symlink _ _ | Remove _ | Rename _ _ | LibUnmount _) => True
  | LoadConfig | HTTPGet _ | CPower (Power.ReadSyslinuxCfg _ | Power.ReadGlobalCfg _) => True
  | _ => False
  end.

(** The files that a call creates, changes or removes. *)
Definition touched (c : os_call) : list string :=
  match c with
  | WriteFile p _ _ | WriteFileAtomic p _ _ | OpenCreate p _ | Create p | CopyContent _ p | CopyWithTar _ p
  | Symlink _ p | Remove p | RemoveAll p | Unlink p | Chmod p _ => [p]
  | Rename p q => [p; q]
  | _ => []
  end.

(** The files that an upgrade may touch: the copy of the cloud-config, the parameters of the
    kernel, the configurations of the boot, and what the distribution has in the root of the
    boot partition. *)
Definition upgrade_files : list string :=
  ["/opt/user_config.yml"; "/mnt/new_img/boot/append"; "/mnt/new_img/boot/global.cfg";
   "/mnt/new_img/boot/linux-current.cfg"; "/mnt/new_img/boot/linux-previous.cfg";
   "/mnt/new_img/boot/EFI/BOOT/syslinux.cfg"; "/mnt/new_img/boot/syslinux/syslinux.cfg"].

Definition in_dist (w : ctl_log) (name : string) : Prop :=
  ∃ entries, osx (ReadDir "/dist") (AOk entries) ∈ w ∧ (name, false) ∈ entries.

Definition upgrade_path (w : ctl_log) (p : string) : Prop :=
  p ∈ upgrade_files ∨ ∃ name, in_dist w name ∧ p = path_Join ["/mnt/new_img/boot"; name].

(** A file that is copied has the name that it has in the distribution. *)
Definition upgrade_step (w : ctl_log) (e : ctl_exchange) : Prop :=
  match projT1 e with
  | COs c =>
      Forall (upgrade_path w) (touched c) ∧
      match c with
      | CopyContent src p =>
          src = "/dist/isolinux/isolinux.cfg" ∧ p = "/mnt/new_img/boot/syslinux/syslinux.cfg" ∨
          ∃ name, in_dist w name ∧ src = path_Join ["/dist"; name] ∧ p = path_Join ["/mnt/new_img/boot"; name]
      | _ => True
      end
  | _ => True
  end.

Ltac upgrade_leaf := first [exact I | left; reflexivity | right; reflexivity | by eexists _, _ | reflexivity].

Lemma only_found (P : ctl_call → Prop) p : P (COs (Stat p)) → only P (found p).
Proof. intros HP. ctl_calls ltac:(exact HP). Qed.

Lemma only_missing (P : ctl_call → Prop) p : P (COs (Stat p)) → only P (missing p).
Proof. intros HP. ctl_calls ltac:(exact HP). Qed.

Lemma only_Blkid (P : ctl_call → Prop) label : P (COs (Output ["blkid"])) → only P (embed (Blkid label)).
Proof. intros HP. apply only_ctl_embed, only_bind; [by apply only_do_sys|]. intros. apply only_os_lift. Qed.

Lemma only_unmount (P : ctl_call → Prop) p : P (COs (LibUnmount p)) → only P (unmount p).
Proof. intros HP. by apply only_ctl_embed, only_do_sys. Qed.

Definition copies (c : os_call) : Prop :=
  match c with
  | Lstat _ | Readlink _ | Symlink _ _ | Open _ | Create _ | CopyContent _ _ | Stat _ | MkdirAll _ _ => True
  | _ => False
  end.

Lemma only_CopyFileOverwrite (P : ctl_call → Prop) src folder name overwrite :
  (∀ c, copies c → P (COs c)) → only P (embed (Dfs.CopyFileOverwrite src folder name overwrite)).
Proof.
  intros HP. apply only_ctl_embed. unfold Dfs.CopyFileOverwrite.
  repeat (os_calls ltac:(by apply HP); try (by apply Dfs.only_createDirs; intros; apply HP)).
Qed.

Ltac install_calls leaf :=
  repeat first
    [ progress ctl_calls leaf
    | apply only_found; leaf
    | apply only_missing; leaf
    | apply only_Blkid; leaf
    | apply only_unmount; leaf ].

Lemma GetBootPartition_upgrade : only upgrade_call GetBootPartition.
Proof. unfold GetBootPartition. install_calls upgrade_leaf. Qed.

Lemma GetStatePartition_upgrade : only upgrade_call GetStatePartition.
Proof. unfold GetStatePartition. install_calls upgrade_leaf. Qed.
#[local] Hint Resolve GetBootPartition_upgrade GetStatePartition_upgrade : calls.

Lemma MountDevice_upgrade base device partition : only upgrade_call (MountDevice base device partition false).
Proof.
  unfold MountDevice. rewrite andb_false_r. unfold parent_disk, run. install_calls upgrade_leaf.
Qed.

Lemma isEFILayout_upgrade base : only upgrade_call (isEFILayout base).
Proof. unfold isEFILayout. install_calls upgrade_leaf. Qed.

Lemma keep_previous_upgrade boot efi : only upgrade_call (keep_previous boot efi).
Proof. unfold keep_previous, different, efiCfg. install_calls upgrade_leaf. Qed.

Lemma copies_upgrade c : copies c → upgrade_call (COs c).
Proof. by destruct c. Qed.

Lemma copyEFICfg_upgrade src folder name overwrite : only upgrade_call (copyEFICfg src folder name overwrite).
Proof. unfold copyEFICfg, efiCfg. install_calls upgrade_leaf. Qed.
#[local] Hint Resolve MountDevice_upgrade isEFILayout_upgrade keep_previous_upgrade copyEFICfg_upgrade : calls.

Lemma installRancher_upgrade base kappend efi : only upgrade_call (installRancher base kappend efi).
Proof.
  unfold installRancher, copy_file, copy_isolinux, write_append.
  install_calls ltac:(upgrade_leaf); try (by apply only_CopyFileOverwrite, copies_upgrade).
Qed.
#[local] Hint Resolve installRancher_upgrade : calls.

Lemma Kexec_upgrade previous bootDir append : only upgrade_call (embed_power (Power.Kexec previous bootDir append)).
Proof.
  apply only_embed_power. unfold Power.Kexec.
  repeat first [exact I | apply Power.only_power_ask; upgrade_leaf | case_match | apply only_bind; [|intros]].
Qed.
#[local] Hint Resolve Kexec_upgrade : calls.

Lemma layDownOS_upgrade cloudConfig device partition statedir kappend kexec :
  only upgrade_call (layDownOS "upgrade" cloudConfig device partition statedir kappend kexec).
Proof.
  unfold layDownOS. change (lay "upgrade" cloudConfig device partition statedir) with (lay_upgrade device partition).
  unfold lay_upgrade, preserved_append. cbv zeta. install_calls upgrade_leaf.
Qed.
#[local] Hint Resolve layDownOS_upgrade : calls.

(** *** The files of an upgrade *)

Lemma in_dist_mono name : monotone (λ w, in_dist w name).
Proof. intros w w' Hw (entries & He & Hn). exists entries. split; [by eapply elem_of_prefix|done]. Qed.

(** Calls that touch none but the files that are always the same. *)
Definition fixed_call (c : ctl_call) : Prop :=
  match c with
  | COs (CopyContent src p) => src = "/dist/isolinux/isolinux.cfg" ∧ p = "/mnt/new_img/boot/syslinux/syslinux.cfg"
  | COs c => Forall (λ p, p ∈ upgrade_files) (touched c)
  | _ => True
  end.

Lemma fixed_step c w x : fixed_call c → upgrade_step w (existT c x).
Proof.
  intros Hc. unfold upgrade_step. cbn [projT1]. destruct c; try exact I.
  match goal with c : os_call |- _ => destruct c end;
    try (split; [eapply Forall_impl; [exact Hc|]; intros ? ?; by left|exact I]).
  destruct Hc as [-> ->]. split; [|by left]. constructor; [|constructor]. left. by apply (bool_decide_unpack _).
Qed.

Lemma ok_fixed {A} (p : ctl A) w : only fixed_call p → ok_spec upgrade_step p (λ _ _, True) w.
Proof. intros Hp. apply ok_only. eapply only_mono; [|exact Hp]. intros c Hc w' x. by apply fixed_step. Qed.

Ltac fixed_leaf := first [exact I | by constructor | apply (bool_decide_unpack _); vm_compute; exact I].

Lemma only_CopyFileOverwrite_to (P : ctl_call → Prop) src folder name overwrite :
  (∀ p, P (COs (Stat p)) ∧ P (COs (Lstat p)) ∧ P (COs (Readlink p)) ∧ P (COs (Open p)) ∧ ∀ m, P (COs (MkdirAll p m))) →
  (∀ t, P (COs (Symlink t (path_Join [folder; name])))) → P (COs (Create (path_Join [folder; name]))) →
  P (COs (CopyContent src (path_Join [folder; name]))) →
  only P (embed (Dfs.CopyFileOverwrite src folder name overwrite)).
Proof.
  intros Hr Hs Hc Hcopy. apply only_ctl_embed. unfold Dfs.CopyFileOverwrite.
  repeat (os_calls ltac:(first [by apply Hr|apply Hs|exact Hc|exact Hcopy]);
          try (by apply Dfs.only_createDirs; intros; apply Hr)).
Qed.

Lemma copy_file_step efi name w :
  in_dist w name → ok_spec upgrade_step (copy_file "/mnt/new_img/boot" efi name) (λ _ _, True) w.
Proof.
  intros Hn. apply ok_only_from.
  assert (∀ w', w `prefix_of` w' → upgrade_path w' (path_Join ["/mnt/new_img/boot"; name])) as Hp.
  { intros w' Hw. right. exists name. split; [by eapply in_dist_mono|done]. }
  unfold copy_file, copyEFICfg, efiCfg. case_match.
  - install_calls ltac:(intros w' x Hw; first [by apply fixed_step; constructor|
      split; [|exact I]; constructor; [by apply Hp|constructor]]).
  - apply only_CopyFileOverwrite_to.
    + intros p. split_and!; intros; by apply fixed_step; constructor.
    + intros t w' x Hw. split; [|exact I]. constructor; [by apply Hp|constructor].
    + intros w' x Hw. split; [|exact I]. constructor; [by apply Hp|constructor].
    + intros w' x Hw. split; [constructor; [by apply Hp|constructor]|].
      right. exists name. split; [by eapply in_dist_mono|done].
Qed.

Lemma installRancher_step kappend efi w :
  ok_spec upgrade_step (installRancher baseName kappend efi) (λ _ _, True) w.
Proof.
  unfold installRancher. cbv zeta. change (path_Join [baseName; BootDir]) with "/mnt/new_img/boot".
  eapply ok_bind; [apply ok_fixed; unfold keep_previous, different, efiCfg; install_calls fixed_leaf|]. intros _ w1 _ _.
  unfold ask. ok_call; [by intros w2 x _; apply fixed_step; constructor|]. intros files w2 Hw2 Hf%since_elem.
  eapply ok_bind; [|intros _ w3 _ _; eapply ok_bind; [|intros _ w4 _ _; apply ok_fixed; unfold write_append; install_calls fixed_leaf]].
  - apply ok_each. intros name w3 Hin Hw3.
    eapply ok_bind; [apply ok_attempt, copy_file_step|intros r w4 _ _; by apply ok_fixed].
    destruct files as [entries|e|e]; [|by apply elem_of_nil in Hin..].
    exists entries. split; [by eapply elem_of_prefix|]. unfold files_of in Hin.
    apply list_elem_of_fmap in Hin as ([n b] & -> & Hb). apply list_elem_of_filter in Hb as [Hb Hin]. cbn in Hb. by subst b.
  - apply ok_fixed, only_ignore. unfold copy_isolinux, copyEFICfg, efiCfg. case_match.
    + install_calls fixed_leaf.
    + apply only_CopyFileOverwrite_to; [intros p; split_and!; intros; by constructor|intros t|..]; fixed_leaf.
Qed.

Lemma layDownOS_step cloudConfig device partition statedir kappend kexec w :
  ok_spec upgrade_step (layDownOS "upgrade" cloudConfig device partition statedir kappend kexec) (λ _ _, True) w.
Proof.
  unfold layDownOS. cbv zeta. change (path_Join [baseName; BootDir]) with "/mnt/new_img/boot".
  do 2 (apply ok_deferred; [intros w'; apply ok_fixed, only_ignore, only_unmount; fixed_leaf|]).
  change (lay "upgrade" cloudConfig device partition statedir) with (lay_upgrade device partition).
  eapply ok_bind; [apply ok_fixed|].
  { unfold lay_upgrade, MountDevice. rewrite andb_false_r.
    unfold parent_disk, run, GetBootPartition, GetStatePartition, isEFILayout. install_calls fixed_leaf. }
  intros l w1 _ _. eapply ok_bind; [apply ok_fixed; unfold preserved_append; install_calls fixed_leaf|]. intros k w2 _ _.
  eapply ok_bind; [apply installRancher_step|]. intros _ w3 _ _. apply ok_fixed.
  destruct kexec; [|done]. apply only_ignore, only_embed_power. unfold Power.Kexec.
  repeat first [exact I | by apply Power.only_power_ask | case_match | apply only_bind; [|intros]].
Qed.

Section Upgrade.
Context `{InitConfig.Platform} `{Release}.
Context (Unmarshal_config : string → result CloudConfig) (Unmarshal_images : string → result (gmap string string))
        (range_services : gmap string bool → list (string * bool)).

Lemma runInstall_upgrade i :
  installType i = "upgrade" → force i = true → isoinstallerloaded i = true → savedImages i = [] →
  only upgrade_call (runInstall i).
Proof using Type.
  intros Ht Hf Hi Hs. unfold runInstall, install_here, prepare_disk. rewrite Hf, Hi, Hs, Ht.
  change (formats "upgrade") with false. rewrite !andb_false_r. cbn [negb andb String.eqb].
  change (String.eqb "upgrade" "upgrade") with true. cbn [negb].
  install_calls upgrade_leaf.
Qed.

Lemma fetch_config_upgrade cloudConfig : only upgrade_call (fetch_config cloudConfig).
Proof using Type. unfold fetch_config, HTTPDownloadToFile, FileCopy. install_calls upgrade_leaf. Qed.

Lemma runInstall_step i w :
  installType i = "upgrade" → force i = true → isoinstallerloaded i = true → savedImages i = [] →
  ok_spec upgrade_step (runInstall i) (λ _ _, True) w.
Proof using Type.
  intros Ht Hf Hi Hs. unfold runInstall, install_here, prepare_disk. rewrite Hf, Hi, Hs, Ht.
  change (formats "upgrade") with false. rewrite !andb_false_r.
  eapply ok_bind; [by apply ok_fixed|]. intros _ w1 _ _.
  eapply ok_bind; [apply ok_fixed; unfold IsEFIFirmware; install_calls fixed_leaf|]. intros efi w2 _ _.
  rewrite andb_false_r. cbn iota. change (String.eqb "upgrade" "upgrade") with true. cbn [negb andb].
  eapply ok_bind; [by apply ok_fixed|]. intros dp w3 _ _. destruct dp as [device partition].
  eapply ok_bind; [by apply ok_fixed|]. intros _ w4 _ _.
  eapply ok_bind; [apply layDownOS_step|]. intros _ w5 _ _. by apply ok_fixed.
Qed.

(** C28: However it ends, an upgrade runs no other command on the disk than mount: it never
    partitions or formats, starts no other installer and does not reboot. And it never
    writes a boot sector or a boot loader: whatever is answered, each file that it creates,
    changes or removes is the copy of the cloud-config, the kernel parameters, a configuration
    of the boot, or has in the boot partition the name of a file that it found in the
    distribution; and what it copies comes from there. *)
Theorem upgrade_never_formats fuel f :
  upgrades (f_type f) = true →
  only upgrade_call (installAction Unmarshal_config Unmarshal_images range_services fuel f) ∧
  ∀ l r, behaves (installAction Unmarshal_config Unmarshal_images range_services fuel f) l r →
    ∀ i e, l !! i = Some e → upgrade_step (take i l) e.
Proof using Type.
  intros Hu. split.
  { unfold installAction. rewrite Hu. do 2 (case_match; [exact I|]).
    apply only_bind; [by apply only_load_config|intros cfg]. cbv zeta. do 2 (case_match; [exact I|]).
    apply only_bind; [apply fetch_config_upgrade|intros cloudConfig].
    change (String.eqb "upgrade" "upgrade") with true. cbn [negb]. rewrite !andb_false_r, !orb_true_r.
    match goal with |- only _ (mret ?a ≫= ?k) => change (only upgrade_call (k a)) end. cbv beta.
    apply only_bind; [apply only_or_fatal, runInstall_upgrade; reflexivity|done]. }
  intros l r Hb. refine (proj2 (spec_behaves _ _ _ _ _ [] Hb (ok_true _ _ (λ _ _, True) _ _))).
  unfold installAction. rewrite Hu. do 2 (case_match; [by apply ok_fixed|]).
  eapply ok_bind; [by apply ok_fixed, only_load_config|]. intros cfg w1 _ _. cbv zeta.
  do 2 (case_match; [by apply ok_fixed|]).
  eapply ok_bind; [apply ok_fixed; unfold fetch_config, HTTPDownloadToFile, FileCopy; install_calls fixed_leaf|].
  intros cloudConfig w2 _ _.
  change (String.eqb "upgrade" "upgrade") with true. cbn [negb]. rewrite !andb_false_r, !orb_true_r.
  eapply (ok_bind _ _ _ (λ saved _, saved = [])); [apply ok_done; [by intros a w3 w4 _|by intros a [= <-]]|].
  intros saved w3 _ ->.
  eapply (ok_bind _ _ _ (λ _ _, True)); [apply ok_or_fatal; [by intros a w4 w5|by apply runInstall_step]|]. intros _ w4 _ _. by apply ok_fixed.
Qed.
End Upgrade.

Definition amd64 : Release := {| Suffix := ""; GOARCH := "amd64"; Banner := "" |}.

Definition upgrade_flags : install_flags :=
  {| f_image := "os:v2"; f_type := "rancher-upgrade"; f_cloud_config := ""; f_device := ""; f_partition := "";
     f_statedir := ""; f_append := "quiet"; f_force := false; f_no_reboot := false; f_isoinstallerloaded := false;
     f_kexec := true; f_save := false; f_debug := false; f_args := [] |}.

Definition demo_upgrade : ctl () :=
  installAction (H := example_platform) (H0 := amd64) (λ _, Ok no_config) (λ _, Ok ∅) (λ _, []) 0 upgrade_flags.

(** A disk of an installation. *)
Definition disk_machine (c : ctl_call) : ctl_answer c :=
  match c return ctl_answer c with
  | COs (Output ["lsblk"; _; _; _]) => AOk ("sda" +:+ newline)
  | COs (Output ["blkid"]) => AOk ("/dev/sda1: " +:+ quoted "LABEL" "RANCHER_STATE" +:+ " " +:+ quoted "TYPE" "ext4")
  | COs (Stat "/mnt/new_img/boot/EFI") => ANotFound "no such file"
  | COs (ReadDir "/dist") => AOk [("vmlinuz", false); ("isolinux", true)]
  | c => plain_ctl no_config c
  end.

Lemma upgrade_never_formats_witness :
  let l := (exchanges (λ c w, (disk_machine c, w)) demo_upgrade ()).1 in
  osx (RunCommand ["mount"; "/dev/sda1"; "/mnt/new_img"]) (AOk ()) ∈ l ∧
  osx (CopyContent "/dist/vmlinuz" "/mnt/new_img/boot/vmlinuz") (AOk ()) ∈ l ∧
  only upgrade_call demo_upgrade ∧ ∀ i e, l !! i = Some e → upgrade_step (take i l) e.
Proof.
  intros l. destruct (upgrade_never_formats (H := example_platform) (H0 := amd64) (λ _, Ok no_config)
    (λ _, Ok ∅) (λ _, []) 0 upgrade_flags ltac:(by vm_compute)) as [Hcalls Hfiles].
  split; [vm_compute; in_log|]. split; [vm_compute; in_log|]. split; [exact Hcalls|].
  eapply Hfiles. apply (exchanges_plain disk_machine demo_upgrade).
Defined.

(** ** Which disks are partitioned *)

(** What was found out before a disk is written: it exists, and when it has partitions none of
    them was mounted, neither here nor in a container. *)
Definition checked (device : string) (w : ctl_log) : Prop :=
  ∃ a b deviceName partitions,
    Split device "/" = [a; b; deviceName] ∧
    osx (Scan "/proc/partitions") partitions ∈ w ∧ exists_ deviceName partitions.1 = true ∧
    (haspartitions deviceName partitions.1 = true → ∃ mounts containers,
       osx (Scan "/proc/mounts") mounts ∈ w ∧ partitionMounted device mounts.1 = false ∧
       osx (Output ["system-docker"; "ps"; "-q"]) (AOk containers) ∈ w ∧
       ∀ c, c ∈ Split containers "010" → c ≠ "" → ∃ out,
         existT (PipeOutput ["system-docker"; "exec"; c; "cat /proc/mount"]) out ∈ w ∧ partitionMounted device out = false).

Lemma checked_monotone device : monotone (checked device).
Proof.
  intros w w' Hw (a & b & n & p & Hs & Hp & He & Hm). exists a, b, n, p. split_and!; [done|by eapply elem_of_prefix|done|].
  intros Hh. destruct (Hm Hh) as (m & c & H1 & H2 & H3 & H4). exists m, c.
  split_and!; [by eapply elem_of_prefix|done|by eapply elem_of_prefix|].
  intros x Hx Hne. destruct (H4 x Hx Hne) as (out & Ho & Hf). exists out. split; [by eapply elem_of_prefix|done].
Qed.

(** A command is only run once that is so. *)
Definition after_check (device : string) (w : ctl_log) (e : ctl_exchange) : Prop :=
  match projT1 e with COs (RunCommand _) => checked device w | _ => True end.

Lemma scan_file_spec device p w :
  ok_spec (after_check device) (scan_file p) (λ s w', ∃ x, osx (Scan p) x ∈ w' ∧ x.1 = s) w.
Proof.
  unfold scan_file. eapply ok_bind; [by apply ok_only, only_do_os|]. intros _ w1 Hw1 _.
  unfold ask. ok_call; [done|]. intros x w2 Hw2 Hx. apply ok_done.
  - intros s w3 w4 Hw (y & Hy & E). exists y. split; [by eapply elem_of_prefix|done].
  - intros s [= <-]. exists x. split; [by eapply since_elem|done].
Qed.

(** A container that was looked at. *)
Definition clean (device c : string) (w : ctl_log) : Prop :=
  c ≠ "" → ∃ out, existT (PipeOutput ["system-docker"; "exec"; c; "cat /proc/mount"]) out ∈ w ∧ partitionMounted device out = false.

Lemma clean_monotone device c : monotone (clean device c).
Proof. intros w w' Hw H Hc. destruct (H Hc) as (out & Ho & Hf). exists out. split; [by eapply elem_of_prefix|done]. Qed.

Lemma check_container_spec device c w :
  ok_spec (after_check device) (check_container device c) (λ _ w', clean device c w') w.
Proof.
  unfold check_container. destruct (String.eqb_spec c "") as [->|Hc].
  { apply ok_done; [intros _; apply clean_monotone|]. by intros _ _ []. }
  unfold ask. ok_call; [done|]. intros out w1 Hw1 Ho. case_match eqn:Hm.
  - apply ok_done; [intros _; apply clean_monotone|done].
  - apply ok_done; [intros _; apply clean_monotone|]. intros _ _ _. exists out. split; [by eapply since_elem|done].
Qed.

Lemma check_containers_spec device cs w :
  ok_spec (after_check device) (each (check_container device) cs) (λ _ w', ∀ c, c ∈ cs → clean device c w') w.
Proof.
  revert w. induction cs as [|c cs IH]; intros w; cbn [each].
  - apply ok_done; [intros _ w1 w2 Hw H c Hc|intros _ _ c Hc]; by apply elem_of_nil in Hc.
  - eapply ok_bind; [apply check_container_spec|]. intros a0 w1 Hw1 Hc. cbn in Hc.
    eapply spec_mono; [|apply spec_prefix, IH]. intros r w2 [Hw2 Hr] a Ha x [E|Hx]%elem_of_cons.
    + rewrite E. by eapply clean_monotone.
    + by apply (Hr a Ha).
Qed.

Lemma check_mounted_spec device w :
  ok_spec (after_check device) (check_mounted device) (λ _ w', ∃ mounts containers,
    osx (Scan "/proc/mounts") mounts ∈ w' ∧ partitionMounted device mounts.1 = false ∧
    osx (Output ["system-docker"; "ps"; "-q"]) (AOk containers) ∈ w' ∧
    ∀ c, c ∈ Split containers "010" → clean device c w') w.
Proof.
  unfold check_mounted. eapply ok_bind; [apply scan_file_spec|]. intros mounts w1 _ (x & Hx & <-).
  case_match eqn:Hm; [by apply ok_fails|].
  eapply ok_bind; [by apply ok_do_os|]. intros out w2 Hw2 (y & Ho & Hy). cbn in Ho. subst y.
  eapply spec_mono; [|apply spec_prefix, check_containers_spec].
  intros r w3 [Hw3 Hr] a Ha. exists x, out. split_and!; [eapply elem_of_prefix; [exact Hx|by etrans]|done|by eapply elem_of_prefix|].
  by apply (Hr a Ha).
Qed.

Lemma repartition_spec device efi w :
  checked device w → ok_spec (after_check device) (repartition device efi) (λ _ _, True) w.
Proof.
  intros Hc. apply ok_only_from. unfold repartition, setBootable, run.
  ctl_calls ltac:(intros w' x Hw'; by eapply checked_monotone).
Qed.

Lemma setDiskpartitions_spec device efi w :
  ok_spec (after_check device) (setDiskpartitions device efi) (λ _ _, True) w.
Proof.
  unfold setDiskpartitions. destruct (Split device "/") as [|a [|b [|n [|]]]] eqn:Hs; try by apply ok_fails.
  eapply ok_bind; [apply scan_file_spec|]. intros partitions w1 Hw1 (p & Hp & <-).
  destruct (exists_ n p.1) eqn:He; [|by apply ok_fails]. cbn [negb].
  destruct (haspartitions n p.1) eqn:Hh.
  - eapply ok_bind; [apply check_mounted_spec|]. intros u w2 Hw2 (m & c & H1 & H2 & H3 & H4). apply repartition_spec.
    exists a, b, n, p. split_and!; [done|by eapply elem_of_prefix|done|]. intros _. by exists m, c.
  - eapply ok_bind; [by apply ok_only|]. intros u w2 Hw2 _. apply repartition_spec.
    exists a, b, n, p. split_and!; [done|by eapply elem_of_prefix|done|]. by rewrite Hh.
Qed.

(** C29: Whatever is answered, no disk is written by the partitioning before it was found in the
    partition table, and a disk that has partitions not before /proc/mounts and the mounts that
    each running container shows were searched for them and none was found. *)
Theorem setDiskpartitions_checked device efi l r :
  behaves (setDiskpartitions device efi) l r →
  ∀ i argv x, l !! i = Some (osx (RunCommand argv) x) → checked device (take i l).
Proof.
  intros Hb i argv x Hi.
  exact (proj2 (spec_behaves _ _ _ _ _ [] Hb (setDiskpartitions_spec device efi [])) i _ Hi).
Qed.

Definition partitions_file : string :=
  "major minor  #blocks  name" +:+ newline +:+ newline +:+ "   8        0   10 sda" +:+ newline +:+ "   8        1   9 sda1" +:+ newline +:+
  "   8       16   10 sdb" +:+ newline.

Definition mounts_file : string := "/dev/sdb1 / ext4 rw,relatime 0 0" +:+ newline +:+ "proc /proc proc rw 0 0" +:+ newline.

(** A machine with two disks, the first of which is partitioned and not mounted. *)
Definition two_disks (c : ctl_call) : ctl_answer c :=
  match c return ctl_answer c with
  | COs (Scan p) => (if String.eqb p "/proc/partitions" then partitions_file else mounts_file, None)
  | COs (Output ["system-docker"; "ps"; "-q"]) => AOk ("0a1b" +:+ newline)
  | PipeOutput _ => "overlay / overlay rw 0 0"
  | c => plain_ctl no_config c
  end.

Lemma setDiskpartitions_checked_witness :
  let l := (exchanges (λ c w, (two_disks c, w)) (setDiskpartitions "/dev/sda" true) ()).1 in
  l !! 6%nat = Some (osx (RunCommand ["dd"; "if=/dev/zero"; "of=/dev/sda"; "bs=512"; "count=2048"]) (AOk ())) ∧
  checked "/dev/sda" (take 6 l).
Proof.
  intros l. assert (l !! 6%nat = Some (osx (RunCommand ["dd"; "if=/dev/zero"; "of=/dev/sda"; "bs=512"; "count=2048"]) (AOk ()))) as Hl
    by (vm_compute; reflexivity).
  split; [exact Hl|]. eapply setDiskpartitions_checked; [|exact Hl].
  apply (exchanges_plain two_disks (setDiskpartitions "/dev/sda" true)).
Defined.

Example mounted_disk_is_kept :
  (exchanges (λ c w, (two_disks c, w)) (setDiskpartitions "/dev/sdb" false) ()).2 = Ok () ∧
  (exchanges (λ c w, (match c return ctl_answer c with
     | COs (Scan p) => (if String.eqb p "/proc/partitions" then partitions_file +:+ "   8       17   9 sdb1" else mounts_file, None)
     | c => two_disks c end, w)) (setDiskpartitions "/dev/sdb" false) ()).2 =
    Err "partition /dev/sdb mounted, cannot repartition".
Proof. vm_compute. split; reflexivity. Qed.

(** ** What is unmounted *)

Lemma behaves_deferred_unmount {A} (p : ctl A) target l (r : result A) :
  behaves (deferred (unmount target) p) l r → r ≠ Panic exit_status →
  ∃ l' x, l = (l' ++ [osx (LibUnmount target) x])%list ∧ behaves p l' r.
Proof. apply (behaves_deferred_os (LibUnmount target) eq_refl). Qed.

(** Unless the process exits, the last things of an installation are that the boot partition
    and then the state partition are unmounted, however the installation ended. *)
Theorem layDownOS_unmounts installType cloudConfig device partition statedir kappend kexec l r :
  behaves (layDownOS installType cloudConfig device partition statedir kappend kexec) l r → r ≠ Panic exit_status →
  ∃ l' x y, l = (l' ++ [osx (LibUnmount "/mnt/new_img/boot") x; osx (LibUnmount "/mnt/new_img") y])%list.
Proof.
  intros Hb Hr. apply behaves_deferred_unmount in Hb as (l1 & y & -> & Hb); [|done].
  apply behaves_deferred_unmount in Hb as (l2 & x & -> & _); [|done].
  exists l2, x, y. by rewrite <-(assoc_L (++)).
Qed.

(** A mount that fails: the error comes back after the partitions are unmounted. *)
Definition no_mount (c : ctl_call) : ctl_answer c :=
  match c return ctl_answer c with
  | COs (RunCommand ("mount" :: _)) => AErr "exit status 32"
  | c => disk_machine c
  end.

Lemma layDownOS_unmounts_witness :
  let l := (exchanges (λ c w, (no_mount c, w)) (layDownOS "raid" "" "" "" "" "" false) ()) in
  l.2 = Err "exit status 32" ∧
  ∃ l' x y, l.1 = (l' ++ [osx (LibUnmount "/mnt/new_img/boot") x; osx (LibUnmount "/mnt/new_img") y])%list.
Proof.
  intros l. assert (l.2 = Err "exit status 32") as E by (vm_compute; reflexivity). split; [exact E|].
  eapply layDownOS_unmounts; [apply (exchanges_plain no_mount (layDownOS "raid" "" "" "" "" "" false))|].
  change (l.2 ≠ Panic exit_status). rewrite E. discriminate.
Defined.

(** ** The parameters of the kernel *)

Definition is_line (s : string) : Prop :=
  has_char "010" s = false ∧ has_char "013" s = false ∧ (Z.of_nat (String.length s) < Util.max_token)%Z.

Lemma scan_lines_one s : is_line s → s ≠ "" → (Util.scan_lines s).1 = [s].
Proof.
  intros (Hn & Hr & Hl) Hs. unfold Util.scan_lines. rewrite Split_single by done. cbn [last].
  assert ((match s with "" => removelast [s] | _ => [s] end) = [s]) as -> by (by destruct s).
  unfold Util.scan_tokens. destruct (Util.max_token <=? Z.of_nat (String.length s))%Z eqn:E; [lia|].
  cbn. unfold TrimSuffix. by rewrite HasSuffix_char_no.
Qed.

(** The kernel parameters that an installation or an upgrade writes to global.cfg are the
    ones that a kexec reads from there, but for the space around them. *)
Theorem global_cfg_roundtrip kappend :
  is_ascii kappend → is_line ("APPEND " +:+ kappend) → global_append ("APPEND " +:+ kappend) = TrimSpace kappend.
Proof.
  intros Ha Hl. unfold global_append. rewrite scan_lines_one by done. unfold last_value. cbn [foldl].
  assert (is_ascii ("APPEND " +:+ kappend)) as Ha'.
  { unfold is_ascii. rewrite list_ascii_app. apply Forall_app. split; [|done]. by repeat constructor. }
  rewrite (TrimSpace_ascii ("APPEND " +:+ kappend)), (TrimSpace_ascii kappend) by done.
  rewrite list_ascii_app. set (k := String.list_ascii_of_string kappend).
  change (ltrim (String.list_ascii_of_string "APPEND " ++ k)) with (String.list_ascii_of_string "APPEND " ++ k)%list.
  rewrite rtrim_app, <-(ltrim_rtrim k). destruct (rtrim k) as [|c t] eqn:E; [by vm_compute|]. rewrite <-E.
  rewrite string_of_app. change (String.string_of_list_ascii (String.list_ascii_of_string "APPEND ")) with "APPEND ".
  set (r := String.string_of_list_ascii (rtrim k)).
  change ("APPEND " +:+ r) with ("APPEND" +:+ (" " +:+ r)). rewrite HasPrefix_app, TrimPrefix_app.
  rewrite TrimSpace_ascii.
  - change (String.list_ascii_of_string (" " +:+ r)) with (" "%char :: String.list_ascii_of_string r).
    unfold r. rewrite String.list_ascii_of_string_of_list_ascii.
    change (ltrim (" "%char :: rtrim k)) with (ltrim (rtrim k)). by rewrite ltrim_rtrim, rtrim_idem.
  - apply (is_ascii_list (" "%char :: rtrim k)). constructor; [done|].
    apply Forall_forall. intros x Hx%rtrim_incl. revert x Hx. by apply Forall_forall.
Qed.

Lemma global_cfg_roundtrip_witness :
  let k := " quiet console=tty0  " in
  is_line ("APPEND " +:+ k) ∧ global_append ("APPEND " +:+ k) = TrimSpace k ∧ TrimSpace k = "quiet console=tty0".
Proof.
  intros k. assert (is_line ("APPEND " +:+ k)) as Hl by (vm_compute; repeat split).
  split; [exact Hl|]. split; [|vm_compute; reflexivity].
  apply global_cfg_roundtrip; [|exact Hl]. apply (bool_decide_unpack _). vm_compute. exact I.
Defined.

Definition boot : string := path_Join [baseName; BootDir].

(** What the user added to the parameters: the option, or what an earlier installation kept. *)
Definition user_append (kappend : string) (l : ctl_log) (k : string) : Prop :=
  if String.eqb kappend "" then ∃ x : api string, osx (ReadFile "/mnt/new_img/boot/append") x ∈ l ∧ k = match x with AOk s => s | _ => "" end
  else k = kappend ∧ ∃ x, osx (WriteFile "/mnt/new_img/boot/append" kappend 420) x ∈ l.

Lemma user_append_mono kappend l l' k : l ⊆ l' → user_append kappend l k → user_append kappend l' k.
Proof. intros Hl. unfold user_append. destruct (String.eqb kappend ""); [intros (x & Hx & ->)|intros (-> & x & Hx)]; eauto. Qed.

Lemma preserved_append_spec kappend l k : behaves (preserved_append boot kappend) l (Ok k) → user_append kappend l k.
Proof.
  unfold preserved_append, user_append. destruct (String.eqb kappend "").
  - intros (x & l' & -> & [-> [= ->]]). exists x. split; [by left|done].
  - intros (l1 & l2 & u & -> & (x & l' & -> & [-> _]) & [-> [= ->]])%behaves_bind_ok. split; [done|].
    exists x. by left.
Qed.

Lemma write_append_spec kappend l :
  behaves (write_append boot kappend) l (Ok ()) →
  ∃ x, l = (osx (Stat "/mnt/new_img/boot/global.cfg") x ::
    if not_exist x then []
    else [osx (WriteFile "/mnt/new_img/boot/global.cfg" ("APPEND " +:+ kappend) 420) (AOk ())])%list.
Proof.
  unfold write_append, missing. intros (l1 & l2 & gone & -> & (x & l' & -> & [-> [= ->]]) & Hw)%behaves_bind_ok.
  exists x. destruct (not_exist x); [by destruct Hw as [-> _]|].
  apply behaves_do_os in Hw as (y & -> & Hy). cbn in Hy. by subst y.
Qed.

(** *** The parameters of a type *)

(** Whether blkid shows an EFI partition. *)
Definition efi_labelled (x : api string) : bool :=
  match x with
  | AOk out => match blkid_label (OS.scan_lines out) "RANCHER_EFI" with
               | Ok dt => negb (String.eqb dt.1 "") | _ => false end
  | _ => false
  end.

(** When the layout is that of EFI: for the types that format, when the firmware is; for those
    that keep what is there, when there is an EFI directory or partition; else never. *)
Definition efi_layout (installType : string) (l : ctl_log) (efi : bool) : Prop :=
  if decide (installType ∈ ["generic"; "syslinux"]) then
    ∃ firmware, osx (Stat "/sys/firmware/efi") firmware ∈ l ∧ efi = ok firmware
  else if decide (installType ∈ ["noformat"; "upgrade"; "rancher-upgrade"]) then
    ∃ dir, osx (Stat "/mnt/new_img/boot/EFI") dir ∈ l ∧
      (ok dir = true ∧ efi = true ∨
       ok dir = false ∧ ∃ devices, osx (Output ["blkid"]) devices ∈ l ∧ efi = efi_labelled devices)
  else efi = false.

Definition install_types : list string :=
  ["generic"; "syslinux"; "arm"; "amazon-ebs-hvm"; "googlecompute"; "noformat"; "raid"; "bootstrap";
   "rancher-upgrade"; "upgrade"].

Definition console_of (installType : string) : string :=
  if decide (installType ∈ ["amazon-ebs-hvm"; "googlecompute"; "bootstrap"]) then "ttyS0" else "tty0".

(** The words of the kernel parameters. *)
Definition parameters (installType statedir : string) (efi : bool) : list string :=
  (["printk.devkmsg=on"; "rancher.state.dev=LABEL=RANCHER_STATE"; "rancher.state.wait";
    "transparent_hugepage=madvise"; "iommu=pt"; "intel_iommu=off"; "scsi_mod.use_blk_mq=1";
    "apparmor=1"; "security=apparmor"; "panic=10"] ++
   (if decide (statedir = "") then [] else ["rancher.state.directory=" +:+ statedir]) ++
   (if decide (installType = "bootstrap") then ["rancher.cloud_init.datasources=[ec2,gce]"] else []) ++
   (if efi then ["rancher.state.boot_dev=LABEL=RANCHER_EFI"; "rancher.state.boot_fstype=vfat"] else []) ++
   ["console=" +:+ console_of installType])%list.

Definition layout_of (installType : string) (efi : bool) : layout := {|
  l_efi := efi; l_console := console_of installType;
  l_args := if decide (installType = "bootstrap") then " rancher.cloud_init.datasources=[ec2,gce]" else "" |}.

Lemma kernel_args_parameters installType statedir efi :
  kernel_args statedir (layout_of installType efi) = Join (parameters installType statedir efi) " ".
Proof.
  unfold kernel_args, layout_of, parameters. cbn [l_args l_efi l_console].
  generalize (console_of installType). intros console.
  destruct (decide (installType = "bootstrap")), efi; destruct (decide (statedir = "")) as [->|Hs];
    rewrite ?(proj2 (String.eqb_neq _ _) Hs); cbn [app Join String.eqb];
    unfold base_args; cbn [String.append]; rewrite ?app_assoc_s; cbn [String.append]; reflexivity.
Qed.

Lemma found_spec p l b : behaves (found p) l (Ok b) → ∃ x, l = [osx (Stat p) x] ∧ b = ok x.
Proof. intros (x & l' & -> & [-> [= ->]]). by exists x. Qed.

Lemma isEFILayout_spec l b :
  behaves (isEFILayout baseName) l (Ok b) →
  ∃ dir, osx (Stat "/mnt/new_img/boot/EFI") dir ∈ l ∧
    (ok dir = true ∧ b = true ∨
     ok dir = false ∧ ∃ devices, osx (Output ["blkid"]) devices ∈ l ∧ b = efi_labelled devices).
Proof.
  intros (l1 & l2 & dir & -> & (x & -> & ->)%found_spec & H)%behaves_bind_ok.
  exists x. split; [by left|]. destruct (ok x); [left; by destruct H as [-> [= ->]]|right]. split; [done|].
  apply behaves_bind_ok in H as (l3 & l4 & d & -> & H & [-> [= ->]]).
  unfold blkid in H. apply behaves_bind_ok in H as (l5 & l6 & r & -> & H & Hr).
  apply behaves_attempt in H as [(r' & H & [= ->])|(e & _ & [=])].
  destruct H as (out & l7 & -> & H). exists out. split; [by right; left|].
  unfold efi_labelled. cbn in H. destruct out as [out|e|e]; cbn in H.
  - destruct (blkid_label _ _) as [dt|e|e]; destruct H as [-> [= ->]]; by destruct Hr as [-> [= ->]].
  - destruct H as [-> ->]. by destruct Hr as [-> [= ->]].
  - destruct H as [-> ->]. by destruct Hr as [-> [= ->]].
Qed.

Lemma efi_layout_mono installType l l' efi : l ⊆ l' → efi_layout installType l efi → efi_layout installType l' efi.
Proof.
  intros Hl. unfold efi_layout. destruct (decide _); [intros (x & ? & ?); eauto|]. destruct (decide _); [|done].
  intros (x & Hx & [?|(? & d & ? & ?)]); exists x; (split; [auto|]); [by left|right; eauto].
Qed.

(** What a type decides, once it is there. *)
Lemma lay_spec installType cloudConfig device partition statedir l ly :
  behaves (lay installType cloudConfig device partition statedir) l (Ok ly) →
  installType ∈ install_types ∧ ∃ efi, efi_layout installType l efi ∧ ly = layout_of installType efi.
Proof.
  assert (∀ t ts, existsb (String.eqb t) ts = true → t ∈ ts) as Hex.
  { intros t ts (x & Hx & ->%String.eqb_eq)%existsb_exists. by apply list_elem_of_In. }
  unfold lay. destruct (existsb _ ["syslinux"; "generic"]) eqn:E1.
  { apply Hex in E1. intros (l1 & l2 & efi & -> & (x & -> & ->)%found_spec & H)%behaves_bind_ok.
    apply behaves_bind_ok in H as (l3 & l4 & dp & -> & _ & H). cbv zeta in H.
    apply behaves_bind_ok in H as (l5 & l6 & u & -> & _ & H).
    apply behaves_bind_ok in H as (l7 & l8 & u' & -> & _ & [-> [= ->]]).
    assert (installType ∈ ["generic"; "syslinux"]) as E by set_solver. split; [set_solver|].
    exists (ok x). split.
    - unfold efi_layout. rewrite decide_True by done. exists x. split; [by left|done].
    - by apply list_elem_of_In in E as [<-|[<-|[]]]. }
  destruct (String.eqb_spec installType "arm") as [->|E2].
  { intros (l1 & l2 & dp & -> & _ & (l3 & l4 & u & -> & _ & [-> [= ->]])%behaves_bind_ok)%behaves_bind_ok.
    split; [by apply (bool_decide_unpack _)|]. by exists false. }
  destruct (existsb _ ["amazon-ebs-hvm"; "googlecompute"]) eqn:E3.
  { apply Hex, list_elem_of_In in E3 as [<-|[<-|[]]];
      intros (l1 & l2 & dp & -> & _ & H)%behaves_bind_ok; cbv zeta in H;
      apply behaves_bind_ok in H as (l3 & l4 & u & -> & _ & H);
      apply behaves_bind_ok in H as (l5 & l6 & u' & -> & _ & [-> [= ->]]);
      (split; [by apply (bool_decide_unpack _)|]; by exists false). }
  destruct (String.eqb_spec installType "noformat") as [->|E4].
  { intros (l1 & l2 & dp & -> & _ & H)%behaves_bind_ok. cbv zeta in H.
    apply behaves_bind_ok in H as (l3 & l4 & efi & -> & (dir & Hd & He)%isEFILayout_spec & H).
    apply behaves_bind_ok in H as (l5 & l6 & u & -> & _ & H).
    apply behaves_bind_ok in H as (l7 & l8 & u1 & -> & _ & H).
    apply behaves_bind_ok in H as (l9 & l10 & u2 & -> & _ & [-> [= ->]]).
    split; [by apply (bool_decide_unpack _)|]. exists efi. split; [|done]. exists dir. split; [set_solver|].
    destruct He as [?|(? & devices & ? & ?)]; [by left|right]. split; [done|]. exists devices. set_solver. }
  destruct (String.eqb_spec installType "raid") as [->|E5].
  { intros (l1 & l2 & dp & -> & _ & H)%behaves_bind_ok. cbv zeta in H.
    apply behaves_bind_ok in H as (l3 & l4 & u & -> & _ & [-> [= ->]]).
    split; [by apply (bool_decide_unpack _)|]. by exists false. }
  destruct (String.eqb_spec installType "bootstrap") as [->|E6].
  { intros (l1 & l2 & dp & -> & _ & [-> [= ->]])%behaves_bind_ok.
    split; [by apply (bool_decide_unpack _)|]. by exists false. }
  destruct (existsb _ ["rancher-upgrade"; "upgrade"]) eqn:E7; [|by intros [_ [=]]].
  apply Hex in E7. intros (l1 & l2 & dp & -> & _ & H)%behaves_bind_ok.
  apply behaves_bind_ok in H as (l3 & l4 & efi & -> & (dir & Hd & He)%isEFILayout_spec & [-> [= ->]]).
  assert (∃ dir, osx (Stat "/mnt/new_img/boot/EFI") dir ∈ (l1 ++ l3 ++ [])%list ∧
    (ok dir = true ∧ efi = true ∨ ok dir = false ∧
     ∃ devices, osx (Output ["blkid"]) devices ∈ (l1 ++ l3 ++ [])%list ∧ efi = efi_labelled devices)) as Hefi.
  { exists dir. split; [set_solver|]. destruct He as [?|(? & devices & ? & ?)]; [by left|right].
    split; [done|]. exists devices. set_solver. }
  apply list_elem_of_In in E7 as [<-|[<-|[]]]; (split; [by apply (bool_decide_unpack _)|]; by exists efi).
Qed.

(** What follows the file with the parameters. *)
Definition after_install (c : ctl_call) : Prop :=
  match c with CPower _ | COs (LibUnmount _) => True | _ => False end.

Lemma kexec_after_install (kexec : bool) bootDir args l u :
  behaves (if kexec then ignore (embed_power (Power.Kexec false bootDir args)) else mret ()) l (Ok u) →
  Forall (λ e : ctl_exchange, after_install (projT1 e)) l.
Proof.
  intros Hb. eapply only_behaves; [exact Hb|]. destruct kexec; [|done].
  apply only_ignore, only_embed_power. unfold Power.Kexec.
  repeat first [exact I | by apply Power.only_power_ask | case_match | apply only_bind; [|intros]].
Qed.

(** C30: An installation that succeeds is of a known type, and leaves in global.cfg, when that
    file is there at the end, APPEND with the parameters of its type, followed by what the user
    added: the fixed ones, the state directory if one is given, the data sources of the clouds
    for bootstrap, the EFI partition exactly when the layout is that of EFI, and the console,
    the serial one for the clouds. Nothing is written after that. What the user adds is kept in a
    file of the boot partition, and an upgrade without the option takes it from there. *)
Theorem layDownOS_append installType cloudConfig device partition statedir kappend kexec l :
  behaves (layDownOS installType cloudConfig device partition statedir kappend kexec) l (Ok ()) →
  installType ∈ install_types ∧
  ∃ efi k before global after,
    efi_layout installType before efi ∧ user_append kappend before k ∧
    l = (before ++ osx (Stat "/mnt/new_img/boot/global.cfg") global ::
         (if not_exist global then []
          else [osx (WriteFile "/mnt/new_img/boot/global.cfg"
                  ("APPEND " +:+ Join (parameters installType statedir efi) " " +:+ " " +:+ k) 420) (AOk ())]) ++
         after)%list ∧
    Forall (λ e : ctl_exchange, after_install (projT1 e)) after.
Proof.
  intros Hb. apply behaves_deferred_unmount in Hb as (l0 & y & -> & Hb); [|done].
  apply behaves_deferred_unmount in Hb as (l1 & x & -> & Hb); [|done]. fold boot in Hb.
  apply behaves_bind_ok in Hb as (k1 & k2 & ly & -> & (Ht & efi & Hefi & ->)%lay_spec & Hb). cbv zeta in Hb.
  apply behaves_bind_ok in Hb as (k3 & k4 & k & -> & Hk%preserved_append_spec & Hb).
  apply behaves_bind_ok in Hb as (k5 & k6 & u & -> & Hi & Hkexec%kexec_after_install).
  split; [exact Ht|]. unfold installRancher in Hi. fold boot in Hi. cbv zeta in Hi.
  apply behaves_bind_ok in Hi as (k7 & k8 & u1 & -> & _ & Hi).
  apply behaves_bind_ok in Hi as (k9 & k10 & u2 & -> & _ & Hi).
  apply behaves_bind_ok in Hi as (k11 & k12 & u3 & -> & _ & Hi).
  apply behaves_bind_ok in Hi as (k13 & k14 & u4 & -> & _ & Hi). destruct u.
  apply write_append_spec in Hi as (global & ->).
  exists efi, k, (k1 ++ k3 ++ k7 ++ k9 ++ k11 ++ k13)%list, global,
    (k6 ++ [osx (LibUnmount "/mnt/new_img/boot") x] ++ [osx (LibUnmount "/mnt/new_img") y])%list.
  split_and!.
  - eapply efi_layout_mono; [|exact Hefi]. set_solver.
  - eapply user_append_mono; [|exact Hk]. set_solver.
  - rewrite kernel_args_parameters. by rewrite <-!(assoc_L (++)).
  - apply Forall_app. split; [exact Hkexec|]. by repeat constructor.
Qed.

Lemma layDownOS_append_witness :
  let l := (exchanges (λ c w, (disk_machine c, w)) (layDownOS "upgrade" "" "" "" "" "quiet" true) ()) in
  l.2 = Ok () ∧ "upgrade" ∈ install_types ∧
  ∃ efi k before global after,
    efi_layout "upgrade" before efi ∧ user_append "quiet" before k ∧
    l.1 = (before ++ osx (Stat "/mnt/new_img/boot/global.cfg") global ::
         (if not_exist global then []
          else [osx (WriteFile "/mnt/new_img/boot/global.cfg"
                  ("APPEND " +:+ Join (parameters "upgrade" "" efi) " " +:+ " " +:+ k) 420) (AOk ())]) ++
         after)%list ∧
    Forall (λ e : ctl_exchange, after_install (projT1 e)) after.
Proof.
  intros l. assert (l.2 = Ok ()) as E by (vm_compute; reflexivity). split; [exact E|].
  eapply layDownOS_append. rewrite <-E. apply (exchanges_plain disk_machine (layDownOS "upgrade" "" "" "" "" "quiet" true)).
Defined.

(** The test for RAID comes after the disk was set: --raid is never given. *)
Lemma extlinux_never_raid device dir : extlinux (mbr_disks device).2 dir = ["extlinux"; "--install"; dir].
Proof.
  unfold mbr_disks, extlinux. destruct (String.eqb device "/dev/") eqn:E; [done|]. by cbn [snd]; rewrite E.
Qed.

