(* ===== verification/Commands.v ===== *)
(** * Commands for the system ([cmd/control/os.go], [config.go], [dev.go], [tlsconf.go])

    Listing the versions and upgrading, reading and writing the configuration, the disks, and
    the certificates of docker. *)

From stdpp Require Import prelude gmap strings list sets sorting.
From S2P Require Import Prelude GoStrings Prog Conc OS Control.
From S2P Require Util InitConfig Power Engine.

Local Open Scope string_scope.

Definition println (s : string) : ctl () := ask (Println s).

(** ** Versions ([os.go]) *)

Record Images := { Current : string; Available : list string }.

(** The parts of a URL around its query. *)
Record url := { u_before : string; u_query : list (string * string); u_after : string }.

Section Os.
Context `{InitConfig.Platform} `{Release}.
(** The YAML library, for [Images]; [url.Parse] with the pairs of the query, and [URL.String]. *)
Context (Unmarshal : string → result Images) (Parse : string → result url) (URL_String : url → string).

Definition parseBody (body : string) : result Images := Unmarshal body.

Definition getUpgradeURL : ctl string := cfg ← load_config; mret (URL (Upgrade cfg)).

(** The pairs of a query with a key set. *)
Definition query_set (key value : string) (q : list (string * string)) : list (string * string) :=
  (filter (λ kv, kv.1 ≠ key) q ++ [(key, value)])%list.

(** The hypervisor is sent when it is not known, and then it is empty. *)
Definition upgrade_query (hypervisor : string) (q : list (string * string)) : list (string * string) :=
  let q := query_set "current" InitConfig.Version q in
  if String.eqb hypervisor "" then query_set "hypervisor" hypervisor q else q.

Definition upgrade_url (upgradeURL hypervisor : string) : result string :=
  u ← Parse upgradeURL;
  Ok (URL_String {| u_before := u_before u; u_query := upgrade_query hypervisor (u_query u); u_after := u_after u |}).

Definition format_images (images : Images) (cfg : CloudConfig) : Images :=
  {| Current := formatImage (Current images) cfg; Available := (λ i, formatImage i cfg) <$> Available images |}.

(** A URL that begins with a slash is a file. *)
Definition load_images (upgradeURL : string) (update : bool) : ctl string :=
  if HasPrefix upgradeURL "/" then do_os (ReadFile upgradeURL) eq_refl
  else
    _ ← lift (Parse upgradeURL);
    hypervisor ← ask (COs Hypervisor);
    upgradeURL ← lift (upgrade_url upgradeURL hypervisor);
    _ ← (if update then try_ask (UpdateCache upgradeURL) eq_refl else mret ());
    do_ask (LoadFromNetwork upgradeURL) eq_refl.

Definition getImages (update : bool) : ctl Images :=
  upgradeURL ← getUpgradeURL;
  body ← load_images upgradeURL update;
  images ← lift (parseBody body);
  cfg ← load_config;
  mret (format_images images cfg).

Definition image_line (image : string) (remote : bool) (latest running : string) : string :=
  Join [image; if remote then "remote" else "local"; if String.eqb image latest then "latest" else "available";
        if String.eqb image running then "running" else ""] " ".

(** The versions, the last one first; only an image that docker does not find is remote. *)
Definition list_image (latest running image : string) : ctl () :=
  x ← ask (ImageInspect image);
  println (image_line image (not_exist (x : api ())) latest running).

Definition osMetaDataGet (update : bool) : ctl () :=
  images ← or_fatal (getImages update);
  _ ← or_fatal (do_ask NewSystemClient eq_refl);
  cfg ← load_config;
  let runningName := formatImage (Image (Upgrade cfg) +:+ ":" +:+ InitConfig.Version) cfg in
  _ ← each (list_image (Current images) runningName) (reverse (Available images));
  if existsb (String.eqb runningName) (Available images) then mret ()
  else println (InitConfig.Version +:+ " running").

Definition getLatestImage : ctl string := images ← getImages false; mret (Current images).

(** The options of the upgrade. *)
Record upgrade_flags := {
  g_image : string; g_stage : bool; g_force : bool; g_no_reboot : bool; g_kexec : bool;
  g_upgrade_console : bool; g_debug : bool; g_append : string; g_args : list string;
}.

(** The command of the container: the installer with the type of an upgrade. *)
Definition upgrade_command (kexec debug : bool) (kernelArgs : string) : list string :=
  (["-t"; "rancher-upgrade"; "-r"; InitConfig.Version] ++ (if kexec then ["--kexec"] else []) ++
   (if debug then ["--debug"] else []) ++ (if String.eqb kernelArgs "" then [] else ["-a"; kernelArgs]))%list.

(** The question: a tag that is the version that runs is pointed out. *)
Definition confirmation (image : string) : string :=
  match Split image ":" with
  | _ :: tag :: _ =>
      if String.eqb tag (InitConfig.Version +:+ Suffix) then "Already at version " +:+ tag +:+ ". Continue anyway"
      else "Continue"
  | _ => "Continue"
  end.

Definition upgrade_service (image : string) (command : list string) : once_service :=
  {| o_Image := image; o_Command := command; o_VolumesFrom := [] |}.

(** The container runs in place of an older one, and is removed when it is done. *)
Definition run_upgrade (fuel : nat) (force reboot : bool) : ctl () :=
  _ ← do_ask ServiceDelete eq_refl;
  _ ← do_ask ServiceUp eq_refl;
  _ ← do_ask ServiceLog eq_refl;
  _ ← do_ask ServiceDelete eq_refl;
  if reboot then
    go_on ← (if force then mret true else yes "Continue with reboot");
    if go_on : bool then embed_power (Power.Reboot fuel (Power.default_flags "")) else mret ()
  else mret ().

Definition startUpgradeContainer (fuel : nat) (image : string) (stage force reboot kexec upgradeConsole debug : bool)
    (kernelArgs : string) : ctl () :=
  let command := upgrade_command kexec debug (TrimSpace kernelArgs) in
  _ ← (if upgradeConsole then or_fatal (do_ask (ConfigSet "rancher.force_console_rebuild" (SetBool true)) eq_refl)
       else mret ());
  _ ← println ("Upgrading to " +:+ image);
  go_on ← (if force then mret true else yes (confirmation image));
  if negb go_on then exit
  else
    _ ← do_ask (CreateService "os-upgrade" (upgrade_service image command)) eq_refl;
    _ ← do_ask NewSystemClient eq_refl;
    local ← ask (ImageInspect image);
    _ ← (if ok (local : api ()) then mret () else do_ask ServicePull eq_refl);
    if stage then mret () else run_upgrade fuel force reboot.

Definition osUpgrade (fuel : nat) (f : upgrade_flags) : ctl () :=
  if negb (String.eqb GOARCH "amd64") then fatal "ros install / upgrade only supported on 'amd64'"
  else
    supported ← checkGlobalCfg;
    if negb supported then fatal "ros upgrade cannot be supported"
    else
      image ← (if String.eqb (g_image f) "" then or_fatal getLatestImage else mret (g_image f));
      if String.eqb image "" then fatal "Failed to find latest image"
      else if bool_decide (g_args f ≠ []) then fatal "invalid arguments"
      else or_fatal (startUpgradeContainer fuel image (g_stage f) (g_force f) (negb (g_no_reboot f)) (g_kexec f)
                       (g_upgrade_console f) (g_debug f) (g_append f)).

Definition osVersion : ctl () := println InitConfig.Version.
End Os.

(** ** The configuration ([config.go]) *)

(** The images of services; a nil pointer among them cannot be read. *)
Definition add_images (services : gmap string (option string)) (images : gset string) : result (gset string) :=
  foldM (λ images s, match s.2 with
    | Some image => Ok ({[image]} ∪ images)
    | None => Panic "invalid memory address or nil pointer dereference"
    end) images (map_to_list services).

Definition imagesFromConfig (cfg : CloudConfig) : result (list string) :=
  images ← add_images (BootstrapContainers cfg) ∅;
  images ← add_images (Services cfg) images;
  Ok (sort_strings (elements images)).

Definition runImages (configFile : string) : ctl () :=
  cfg ← or_fatal (do_ask (ReadConfig configFile) eq_refl);
  images ← lift (imagesFromConfig cfg);
  println (Join images " ").

(** A variable without an equals sign is an index out of range, and a value ends at the next one. *)
Definition env2map (env : list string) : result (gmap string string) :=
  foldM (λ m s, match Split s "=" with
    | k :: v :: _ => Ok (<[k := v]> m)
    | _ => Panic "index out of range"
    end) ∅ env.

Section Config.
Context `{InitConfig.Platform}.
(** [text/template]: parsing, and executing on the variables of the environment. *)
Context (Template : Type) (ParseTemplate : string → option Template)
        (Execute : Template → gmap string string → result string).

(** A template that cannot be parsed panics. *)
Definition genTpl : ctl () :=
  bytes ← or_fatal (do_ask ReadStdin eq_refl);
  match ParseTemplate bytes with
  | None => panic "template"
  | Some tpl =>
      env ← ask (COs Environ);
      m ← lift (env2map env);
      out ← lift (Execute tpl m);
      println out
  end.

Definition runGenerate : ctl () := or_fatal genTpl.

(** Small letters of ASCII; other letters have no part in the names that are looked for. *)
Definition lower_char (c : ascii) : ascii :=
  let b := byte_of c in if ((65 <=? b) && (b <=? 90))%Z then ascii_of_nat (Z.to_nat (b + 32)) else c.

Fixpoint ToLower (s : string) : string :=
  match s with "" => "" | String c s => String (lower_char c) (ToLower s) end.

Definition is_raspberry (model : api string) : bool :=
  match model with AOk bytes => GoStrings.Contains (ToLower bytes) "raspberry" | _ => false end.

Definition refuse {A} (msg : string) : ctl A := _ ← println msg; lift (Err msg).

Definition editSyslinux : ctl () :=
  model ← ask (COs (ReadFile "/proc/device-tree/model"));
  if is_raspberry model then refuse "raspberry pi can not use this command"
  else
    there ← checkGlobalCfg;
    if negb there then refuse "global.cfg can not be found"
    else run_command ["system-docker"; "run"; "--rm"; "-it"; "-v"; "/:/host"; "-w"; "/host"; "--entrypoint=nano";
                      "burmilla/os-console:" +:+ InitConfig.Version; "boot/global.cfg"].
End Config.

Definition configSet (args : list string) : ctl () :=
  match args with
  | key :: value :: _ =>
      if String.eqb key "" then mret () else or_fatal (do_ask (ConfigSet key (SetText value)) eq_refl)
  | _ => mret ()
  end.

Definition configGet (args : list string) : ctl () :=
  let arg := default "" (head args) in
  if String.eqb arg "" then mret ()
  else
    val ← or_fatal (do_ask (ConfigGet arg) eq_refl);
    match val with
    | Structured yaml => bytes ← or_fatal (lift (match yaml with AOk b => Ok b | ANotFound e | AErr e => Err e end)); println bytes
    | Plain text => println text
    end.

(** The input is a file or what is piped in; lines of DOS are refused. *)
Definition inputBytes (inputFile : string) : ctl string :=
  content ← (if String.eqb inputFile "" then do_ask ReadStdin eq_refl else do_os (ReadFile inputFile) eq_refl);
  if GoStrings.Contains content crlf then lift (Err "file format shouldn't contain CRLF characters") else mret content.

(** When the configuration cannot be merged it is validated for its errors, and the process ends. *)
Definition merge (inputFile : string) : ctl () :=
  bytes ← or_fatal (inputBytes inputFile);
  merged ← ask (ConfigMerge bytes);
  if ok (merged : api ()) then mret ()
  else
    _ ← or_fatal (do_ask (ValidateBytes bytes) eq_refl);
    fatal "EXITING: Failed to parse configuration".

Definition export (private full : bool) (output : string) : ctl () :=
  content ← or_fatal (do_ask (ConfigExport private full) eq_refl);
  if String.eqb output "" then println content
  else or_fatal (do_os (WriteFileAtomic output content 256) eq_refl).

(** The errors are logged. *)
Definition validate (inputFile : string) : ctl () :=
  bytes ← or_fatal (inputBytes inputFile);
  _ ← or_fatal (do_ask (ValidateBytes bytes) eq_refl);
  mret ().

(** ** Disks ([dev.go]) *)

Definition devAction (args : list string) : ctl () :=
  match args with
  | [] => mret ()
  | dev :: _ => d ← ask (COs (ResolveDevice dev)); println d
  end.

(** ** Certificates ([tlsconf.go]) *)

Definition ServerTLSPath : string := "/etc/docker/tls".
Definition ClientTLSPath : string := "/home/rancher/.docker".

Record tls_files := { t_ca : string; t_ca_key : string; t_cert : string; t_key : string }.

Definition tls_paths (outDir : string) (server : bool) : tls_files :=
  {| t_ca := path_Join [outDir; "ca.pem"]; t_ca_key := path_Join [outDir; "ca-key.pem"];
     t_cert := path_Join [outDir; if server then "server-cert.pem" else "cert.pem"];
     t_key := path_Join [outDir; if server then "server-key.pem" else "key.pem"] |}.

Definition config_text (key value : string) : ctl () := do_ask (ConfigSet key (SetText value)) eq_refl.

Definition writeCerts (generateServer : bool) (hostname : list string) (t : tls_files) : ctl () :=
  if negb generateServer then do_ask (GenerateCert [""] (t_cert t) (t_key t) (t_ca t) (t_ca_key t)) eq_refl
  else
    _ ← do_ask (GenerateCert hostname (t_cert t) (t_key t) (t_ca t) (t_ca_key t)) eq_refl;
    cert ← do_os (ReadFile (t_cert t)) eq_refl;
    key ← do_os (ReadFile (t_key t)) eq_refl;
    _ ← config_text "rancher.docker.server_cert" cert;
    config_text "rancher.docker.server_key" key.

(** A new authority is written to the configuration, and one of the configuration to its files. *)
Definition writeCaCerts (cfg : CloudConfig) (t : tls_files) : ctl () :=
  if String.eqb (CACert (Docker cfg)) "" then
    _ ← do_ask (GenerateCACertificate (t_ca t) (t_ca_key t)) eq_refl;
    caCert ← do_os (ReadFile (t_ca t)) eq_refl;
    caKey ← do_os (ReadFile (t_ca_key t)) eq_refl;
    _ ← config_text "rancher.docker.ca_cert" caCert;
    config_text "rancher.docker.ca_key" caKey
  else
    cfg ← load_config;
    _ ← do_os (WriteFileAtomic (t_ca t) (CACert (Docker cfg)) 256) eq_refl;
    do_os (WriteFileAtomic (t_ca_key t) (CAKey (Docker cfg)) 256) eq_refl.

Definition out_dir (outDir : string) (server : bool) : string :=
  if String.eqb outDir "" then (if server then ServerTLSPath else ClientTLSPath) else outDir.

(** Client certificates belong to the user rancher. *)
Definition Generate (generateServer : bool) (outDir : string) (hostnames : list string) : ctl () :=
  let outDir := out_dir outDir generateServer in
  let t := tls_paths outDir generateServer in
  x ← stat outDir;
  _ ← (if not_exist x then do_os (MkdirAll outDir 448) eq_refl else mret ());
  cfg ← load_config;
  _ ← writeCaCerts cfg t;
  _ ← writeCerts generateServer hostnames t;
  if generateServer then mret ()
  else files ← ask (Walk outDir); each (λ path, do_ask (Chown path 1100 1100) eq_refl) files.

Definition tlsConfCreate (server : bool) (dir : string) (hostnames : list string) : ctl () :=
  or_fatal (Generate server dir hostnames).

(** ** The images of a configuration *)

(** The image of a service. *)
Definition has_image (cfg : CloudConfig) (image : string) : Prop :=
  ∃ s, BootstrapContainers cfg !! s = Some (Some image) ∨ Services cfg !! s = Some (Some image).

Lemma add_images_spec services images r :
  add_images services images = Ok r →
  ∀ i, i ∈ r ↔ i ∈ images ∨ ∃ s, services !! s = Some (Some i).
Proof.
  unfold add_images. intros H0 i. assert (∀ s, services !! s = Some (Some i) ↔ (s, Some i) ∈ map_to_list services) as Hl
    by (intros s; by rewrite elem_of_map_to_list).
  setoid_rewrite Hl. clear Hl. revert images H0 i. generalize (map_to_list services). intros l.
  induction l as [|[s [image|]] l IH]; intros images;
    [|rewrite foldM_cons; cbn beta iota delta [snd]; intros H i|done].
  - intros [= ->] i. split; [by left|]. intros [H|(s & H%elem_of_nil)]; done.
  - rewrite (IH _ H i). rewrite elem_of_union, elem_of_singleton. setoid_rewrite elem_of_cons. naive_solver.
Qed.

Lemma add_images_panics services images :
  (∃ s, services !! s = Some None) ↔ add_images services images = Panic "invalid memory address or nil pointer dereference".
Proof.
  unfold add_images. setoid_rewrite <-elem_of_map_to_list. generalize (map_to_list services). intros l.
  revert images. induction l as [|[s [image|]] l IH]; intros images; cbn [foldM].
  - split; [intros (s & H%elem_of_nil); done|done].
  - cbn. rewrite <-IH. setoid_rewrite elem_of_cons. naive_solver.
  - cbn. split; [done|]. intros _. exists s. by left.
Qed.

Lemma add_images_cases services images :
  (∃ r, add_images services images = Ok r) ∨
  add_images services images = Panic "invalid memory address or nil pointer dereference".
Proof.
  unfold add_images. generalize (map_to_list services). intros l. revert images.
  induction l as [|[s [image|]] l IH]; intros images; cbn [foldM]; [left; by eexists|apply IH|by right].
Qed.

(** The images of a configuration are those of its services and of its bootstrap containers,
    each once and in order; that fails, with a panic, just when a service is a nil pointer. *)
Theorem imagesFromConfig_spec cfg :
  match imagesFromConfig cfg with
  | Ok images => StronglySorted String.le images ∧ NoDup images ∧ ∀ i, i ∈ images ↔ has_image cfg i
  | Err _ => False
  | Panic _ => ∃ s, BootstrapContainers cfg !! s = Some None ∨ Services cfg !! s = Some None
  end.
Proof.
  unfold imagesFromConfig.
  destruct (add_images_cases (BootstrapContainers cfg) ∅) as [(r1 & E1)|E1]; rewrite E1; cbn.
  - destruct (add_images_cases (Services cfg) r1) as [(r2 & E2)|E2]; rewrite E2; cbn.
    + split_and!; [apply sort_strings_sorted|by rewrite sort_strings_perm; apply NoDup_elements|].
      intros i. rewrite sort_strings_perm, elem_of_elements, (add_images_spec _ _ _ E2), (add_images_spec _ _ _ E1).
      unfold has_image. set_solver.
    + apply add_images_panics in E2 as (s & Hs). exists s. by right.
  - apply add_images_panics in E1 as (s & Hs). exists s. by left.
Qed.

(** Values are cut at an equals sign, and a variable without one cannot be read. *)
Example env2map_cuts : env2map ["A=b=c"] = Ok {["A" := "b"]}.
Proof. vm_compute. reflexivity. Qed.
Example env2map_panics : env2map ["A"] = Panic "index out of range".
Proof. vm_compute. reflexivity. Qed.

(** ** The order of an upgrade *)

Definition yes_line (line : string) : bool :=
  match line with String c _ => String.eqb (String c "") "y" || String.eqb (String c "") "Y" | "" => false end.

(** It was forced or confirmed. *)
Definition agreed (force : bool) (w : ctl_log) : Prop :=
  force = true ∨ ∃ line, existT ReadLine (AOk line) ∈ w ∧ yes_line line = true.

Definition upgrade_order (image : string) (stage force reboot : bool) (w : ctl_log) (e : ctl_exchange) : Prop :=
  match projT1 e with
  | CreateService _ _ | ServicePull => agreed force w
  | ServiceUp => stage = false ∧ agreed force w ∧ existT ServiceDelete (AOk ()) ∈ w ∧
      (existT (ImageInspect image) (AOk ()) ∈ w ∨ existT ServicePull (AOk ()) ∈ w)
  | CPower _ => stage = false ∧ reboot = true ∧ existT ServiceUp (AOk ()) ∈ w ∧ existT ServiceLog (AOk ()) ∈ w ∧
      (force = true ∨ ∃ w0 line, existT ServiceLog (AOk ()) ∈ w0 ∧
         existT (Println ("Continue with reboot" +:+ " [y/N]: ")) () ∈ w ∧
         since w0 (existT ReadLine (AOk line)) w ∧ yes_line line = true)
  | COs _ => False
  | _ => True
  end.

Lemma agreed_monotone force : monotone (agreed force).
Proof. intros w w' Hw [H|(line & Hl & Hy)]; [by left|right]. exists line. split; [by eapply elem_of_prefix|done]. Qed.

Lemma ok_yes (G : ctl_log → ctl_exchange → Prop) q w :
  (∀ w s x, G w (existT (Println s) x)) → (∀ w x, G w (existT ReadLine x)) →
  ok_spec G (yes q) (λ b w', b = true → ∃ line, existT (Println (q +:+ " [y/N]: ")) () ∈ w' ∧
    since w (existT ReadLine (AOk line)) w' ∧ yes_line line = true) w.
Proof.
  intros HP HR. unfold yes, ask. ok_call; [done|]. intros [] w1 Hw1 Hq%since_elem.
  eapply (ok_bind _ _ _ (λ line w', since w (existT ReadLine (AOk line)) w')).
  - apply ok_or_fatal; [intros line; apply since_monotone|]. eapply spec_mono; [|by apply ok_do_ask].
    intros r w2 Hr line Hl. destruct (Hr line Hl) as (x & Hx & w3 & w4 & -> & Hs). cbn in Hx. subst x.
    exists w3, w4. split; [done|by etrans].
  - intros line w2 Hw2 Hl. destruct line as [|c s]; [by intros w3 _ a [=]|].
    apply ok_done.
    + intros b w3 w4 Hw H Hb. destruct (H Hb) as (x & Hx & Hs & Hy). exists x.
      split; [by eapply elem_of_prefix|]. split; [by eapply since_monotone|done].
    + intros b [= <-] Hy. exists (String c s). split; [by eapply elem_of_prefix|done].
Qed.

Lemma only_all {A} (P : ctl_call → Prop) (p : ctl A) : (∀ c, P c) → only P p.
Proof. intros HP. induction p as [|c k IH]; cbn; auto. Qed.

(** Calls that are allowed at any time. *)
Definition upgrade_asks (c : ctl_call) : Prop :=
  match c with
  | CreateService _ _ | ServicePull | ServiceUp | CPower _ | COs _ => False
  | _ => True
  end.

Lemma ok_upgrade_asks {A} image stage force reboot (p : ctl A) w :
  only upgrade_asks p → ok_spec (upgrade_order image stage force reboot) p (λ _ _, True) w.
Proof. intros Hp. apply ok_only. eapply only_mono; [|exact Hp]. by intros [] Hc w' x. Qed.

Lemma run_upgrade_order fuel image force reboot w :
  agreed force w → existT (ImageInspect image) (AOk ()) ∈ w ∨ existT ServicePull (AOk ()) ∈ w →
  ok_spec (upgrade_order image false force reboot) (run_upgrade fuel force reboot) (λ _ _, True) w.
Proof.
  intros Ha Hi. unfold run_upgrade.
  eapply ok_bind; [apply ok_done_ask; by intros|]. intros u0 w1 Hw1 (x & Hx & Hd). cbn in Hx. subst x.
  eapply ok_bind.
  { apply ok_done_ask. intros w2 x Hw2. cbn. split_and!; [done| |by eapply elem_of_prefix|].
    - eapply agreed_monotone; [|exact Ha]. by etrans.
    - destruct Hi as [Hi|Hi]; [left|right]; (eapply elem_of_prefix; [exact Hi|]; by etrans). }
  intros u1 w2 Hw2 (x & Hx & Hu). cbn in Hx. subst x.
  eapply ok_bind; [apply ok_done_ask; by intros|]. intros u2 w3 Hw3 (x & Hx & Hlog). cbn in Hx. subst x.
  eapply ok_bind; [apply ok_done_ask; by intros|]. intros u3 w4 Hw4 _.
  destruct reboot; [|by apply ok_upgrade_asks].
  eapply (ok_bind _ _ _ (λ b w, b = true → force = true ∨ ∃ line,
    existT (Println ("Continue with reboot" +:+ " [y/N]: ")) () ∈ w ∧
    since w4 (existT ReadLine (AOk line)) w ∧ yes_line line = true)).
  { destruct force; [apply ok_done; [intros b w5 w6 _ _ _|intros b _ _]; by left|].
    eapply spec_mono; [|by apply ok_yes]. intros r0 w5 H1 b Hr Hb1. right. by apply (H1 b Hr). }
  intros [] w5 Hw5 Hyes; [|by apply ok_upgrade_asks]. specialize (Hyes eq_refl).
  apply ok_only_from, only_embed_power. induction (Power.Reboot fuel (Power.default_flags "")) as [|c k IH]; cbn; [done|].
  split; [|done]. intros w6 y Hw6. split_and!; [done..| | |].
  - eapply elem_of_prefix; [exact Hu|]. by do 3 (etrans; [eassumption|]).
  - eapply elem_of_prefix; [exact Hlog|]. by do 2 (etrans; [eassumption|]).
  - destruct Hyes as [Hf|(line & Hq & Hs & Hy)]; [by left|right]. exists w4, line.
    split_and!; [by eapply elem_of_prefix|by eapply elem_of_prefix|by eapply since_monotone|done].
Qed.

(** C31: When a version is upgraded, nothing is created, pulled or started before the user agreed or
    forced it; the container of the upgrade is started only when its image is there or was
    pulled and an older container was removed, and not at all when the upgrade is only staged;
    and the machine is only rebooted when that is wanted, after the container ran, and when
    the question after that was answered with yes, unless it was forced. *)
Theorem startUpgradeContainer_order `{InitConfig.Platform} `{Release}
    fuel image stage force reboot kexec upgradeConsole debug kernelArgs l r :
  behaves (startUpgradeContainer fuel image stage force reboot kexec upgradeConsole debug kernelArgs) l r →
  ∀ i e, l !! i = Some e → upgrade_order image stage force reboot (take i l) e.
Proof.
  intros Hb i e Hi.
  assert (ok_spec (upgrade_order image stage force reboot)
    (startUpgradeContainer fuel image stage force reboot kexec upgradeConsole debug kernelArgs) (λ _ _, True) []) as Hs.
  { unfold startUpgradeContainer, ask, println.
    eapply ok_bind; [apply ok_upgrade_asks; destruct upgradeConsole; ctl_calls done|]. intros u0 w1 _ _.
    eapply ok_bind; [by apply ok_upgrade_asks, only_ctl_ask|]. intros u1 w2 _ _.
    eapply (ok_bind _ _ _ (λ go_on w, go_on = true → agreed force w)).
    { destruct force.
      - apply ok_done; [intros b w3 w4 Hw H1 Hb1; by left|]. intros b _ _. by left.
      - eapply spec_mono; [|by apply ok_yes]. intros r0 w3 H1 b Hr Hb1. right. destruct (H1 b Hr Hb1) as (line & _ & Hs & Hy).
        exists line. split; [by eapply since_elem|done]. }
    intros [] w3 _ Ha; [|by intros w4 _ a [=]]. specialize (Ha eq_refl). cbn [negb].
    eapply ok_bind; [apply ok_only_from, only_ctl_do; intros w4 x Hw4; by eapply agreed_monotone|]. intros u2 w4 Hw4 _.
    eapply ok_bind; [by apply ok_upgrade_asks, only_ctl_do|]. intros u3 w5 Hw5 _.
    ok_call; [done|]. intros x w6 Hw6 Hx%since_elem.
    eapply (ok_bind _ _ _ (λ _ w, existT (ImageInspect image) (AOk ()) ∈ w ∨ existT ServicePull (AOk ()) ∈ w)).
    { destruct x as [[]|m|m]; cbn [ok].
      - apply ok_done; [intros _ w7 w8 Hw [H1|H1]; [left|right]; by eapply elem_of_prefix|]. intros _ _. by left.
      - eapply spec_mono; [|apply ok_done_ask].
        + intros r0 w7 H1 a Ha1. destruct (H1 a Ha1) as (y & Hy & H2). cbn in Hy. subst y. by right.
        + intros w7 y Hw7. eapply agreed_monotone; [|exact Ha]. by do 3 (etrans; [eassumption|]).
      - eapply spec_mono; [|apply ok_done_ask].
        + intros r0 w7 H1 a Ha1. destruct (H1 a Ha1) as (y & Hy & H2). cbn in Hy. subst y. by right.
        + intros w7 y Hw7. eapply agreed_monotone; [|exact Ha]. by do 3 (etrans; [eassumption|]). }
    intros u4 w7 Hw7 Hi'. destruct stage; [by apply ok_upgrade_asks|]. apply run_upgrade_order; [|done].
    eapply agreed_monotone; [|exact Ha]. by do 3 (etrans; [eassumption|]). }
  destruct (spec_behaves _ _ _ _ _ _ Hb Hs) as [_ Hl]. exact (Hl i e Hi).
Qed.

Definition amd64 : Release := {| Suffix := ""; GOARCH := "amd64"; Banner := "" |}.

(** The image has to be pulled, and the user agrees. *)
Definition pull_machine (c : ctl_call) : ctl_answer c :=
  match c return ctl_answer c with ImageInspect _ => ANotFound "No such image" | c => plain_ctl no_config c end.

Definition demo_upgrade : ctl () :=
  startUpgradeContainer (H := example_platform) (H0 := amd64) 3 "os:v3" false false true false false false " quiet ".

Lemma startUpgradeContainer_order_witness :
  let l := (exchanges (λ c w, (pull_machine c, w)) demo_upgrade ()).1 in
  ∃ i, l !! i = Some (existT ServiceUp (AOk ())) ∧ upgrade_order "os:v3" false false true (take i l) (existT ServiceUp (AOk ())).
Proof.
  intros l. assert (l !! 8%nat = Some (existT ServiceUp (AOk ()))) as Hl by (vm_compute; reflexivity).
  exists 8%nat. split; [exact Hl|].
  eapply (startUpgradeContainer_order (H := example_platform) (H0 := amd64) 3 "os:v3" false false true false false false " quiet "); [|exact Hl].
  apply (exchanges_plain pull_machine demo_upgrade).
Defined.

Example demo_upgrade_runs :
  (exchanges (λ c w, (pull_machine c, w)) demo_upgrade ()).1 !! 3%nat =
  Some (existT (CreateService "os-upgrade" (upgrade_service "os:v3" ["-t"; "rancher-upgrade"; "-r"; "v2"; "-a"; "quiet"])) (AOk ())).
Proof. vm_compute. reflexivity. Qed.
