(* ===== verification/UserDocker.v ===== *)
(** * Docker for the user and the bootstrap ([cmd/control/user_docker.go], [docker_init.go],
    [preload.go], [bootstrap.go], [udevsettle.go])

    The docker of the user is started in the context of another container: its binaries are
    copied, and the process that waits for the console starts it there. Images that lie in a
    directory are loaded once. The bootstrap container looks for devices before the state is
    mounted. *)

From stdpp Require Import prelude gmap strings list.
From S2P Require Import Prelude GoStrings Prog Conc OS Control.
From S2P Require Util InitConfig Engine Commands ConsoleInit.

Local Open Scope string_scope.

(** ** The binaries ([user_docker.go]) *)

Definition sourceDirectory : string := "/engine".
Definition destDirectory : string := "/var/lib/rancher/engine".
Definition pluginsSourceDirectory : string := "/engine-plugins".
Definition pluginsDestDirectory : string := "/var/lib/rancher/engine-plugins".
Definition dockerCommand : list string := ["ros"; "docker-init"].

(** Everything is executable but the completion of the shell. *)
Definition binary_mode (name : string) : Z := if String.eqb name "completion" then 420 else 489.

Definition copy_binary (source dest name : string) : ctl () :=
  let sourceFile := path_Join [source; name] in
  let destFile := path_Join [dest; name] in
  _ ← do_os (Open sourceFile) eq_refl;
  _ ← do_os (Create destFile) eq_refl;
  _ ← do_os (CopyContent sourceFile destFile) eq_refl;
  _ ← do_os (SyncFile destFile) eq_refl;
  _ ← do_os (CloseFile sourceFile) eq_refl;
  _ ← do_os (CloseFile destFile) eq_refl;
  do_os (Chmod destFile (binary_mode name)) eq_refl.

Definition remove_entry (dest name : string) : ctl () := do_os (RemoveAll (path_Join [dest; name])) eq_refl.

(** The destination is emptied first. *)
Definition copyBinaries (source dest : string) : ctl () :=
  _ ← do_os (MkdirAll dest 493) eq_refl;
  old ← do_os (ReadDir dest) eq_refl;
  _ ← each (remove_entry dest) (fst <$> old);
  files ← do_os (ReadDir source) eq_refl;
  each (copy_binary source dest) (fst <$> files).

(** ** Starting docker in the console *)

Definition cert_file (path text : string) : ctl () := do_os (WriteFileAtomic path text 256) eq_refl.

Definition writeConfigCerts (d : UserDocker) : ctl () :=
  let outDir := Commands.ServerTLSPath in
  _ ← do_os (MkdirAll outDir 448) eq_refl;
  _ ← (if String.eqb (CACert d) "" then mret ()
       else _ ← cert_file (path_Join [outDir; "ca.pem"]) (CACert d); cert_file (path_Join [outDir; "ca-key.pem"]) (CAKey d));
  if String.eqb (ServerCert d) "" then mret ()
  else _ ← cert_file (path_Join [outDir; "server-cert.pem"]) (ServerCert d); cert_file (path_Join [outDir; "server-key.pem"]) (ServerKey d).

(** The process of the container of a service, 0 when there is none yet. *)
Definition getPid (service : string) : ctl Z :=
  containers ← do_ask (ServiceContainers service) eq_refl;
  match containers with
  | [] => mret 0%Z
  | id :: _ =>
      _ ← do_ask NewClient eq_refl;
      info ← do_ask (ContainerInspect id) eq_refl;
      mret (if negb (String.eqb (i_ID info) "") && i_Running info then i_Pid info else 0%Z)
  end.

(** It waits for as long as it takes: [fuel] bounds the seconds. *)
Fixpoint waitForPid (fuel : nat) (service : string) : ctl Z :=
  match fuel with
  | O => lift (Err "fuel")
  | S fuel =>
      pid ← attempt (getPid service);
      match pid with
      | Ok pid => if (pid =? 0)%Z then _ ← ask (Sleep 1000); waitForPid fuel service else mret pid
      | _ => _ ← ask (Sleep 1000); waitForPid fuel service
      end
  end.

Section UserDocker.
Context `{InitConfig.Platform}.

Definition storage_context (d : UserDocker) : string :=
  if String.eqb (StorageContext d) "" then "console" else StorageContext d.

Definition docker_command (id : string) (environ : list string) (d : UserDocker) : list string :=
  (["system-docker-runc"; "exec"; "--"; id; "env"] ++ InitConfig.AppendEnv environ (Opts d) ++ dockerCommand ++
   InitConfig.FullArgs (Opts d))%list.

Definition startDocker (fuel : nat) (cfg : CloudConfig) : ctl () :=
  let d := Docker cfg in
  _ ← do_ask (GetProject true false) eq_refl;
  _ ← waitForPid fuel (storage_context d);
  _ ← do_ask NewSystemClient eq_refl;
  _ ← (if InitConfig.TLS (Opts d) then writeConfigCerts d else mret ());
  info ← do_ask (ContainerInspect (storage_context d)) eq_refl;
  environ ← ask (COs Environ);
  do_os (Exec "/usr/bin/system-docker-runc" (docker_command (i_ID info) environ d) environ) eq_refl.

Definition userDockerAction (fuel : nat) : ctl () :=
  _ ← copyBinaries sourceDirectory destDirectory;
  _ ← copyBinaries pluginsSourceDirectory pluginsDestDirectory;
  _ ← do_os (SysMount "/host/sys" "/sys" "" "MS_BIND|MS_REC") eq_refl;
  cfg ← load_config;
  startDocker fuel cfg.
End UserDocker.

(** ** In the console ([docker_init.go]) *)

Definition dockerPaths : list string := ["/usr/bin"; "/opt/bin"; "/usr/local/bin"; "/var/lib/rancher/docker"].

Definition dockerCompletionLinkFile : string := "/usr/share/bash-completion/completions/docker".
Definition dockerCompletionFile : string := "/var/lib/rancher/engine/completion".
Definition dockerConf : string := "/var/lib/rancher/conf/docker".
Definition dockerLog : string := "/var/log/docker.log".

(** It waits until the console is ready: [fuel] bounds the fifths of a second. *)
Fixpoint wait_for (fuel : nat) (file : string) : ctl () :=
  match fuel with
  | O => lift (Err "fuel")
  | S fuel => x ← stat file; if ok x then mret () else _ ← ask (Sleep 200); wait_for fuel file
  end.

(** A link to a completion that is not there is removed. *)
Definition drop_completion : ctl () :=
  x ← stat dockerCompletionFile;
  if ok x then mret ()
  else
    link ← ask (COs (Readlink dockerCompletionLinkFile));
    if ok (link : api string) then try_os (Unlink dockerCompletionLinkFile) eq_refl else mret ().

Fixpoint first_executable (name : string) (paths : list string) : ctl string :=
  match paths with
  | [] => mret ""
  | p :: paths =>
      executable ← embed (ExistsAndExecutable (path_Join [p; name]));
      if executable : bool then mret (path_Join [p; name]) else first_executable name paths
  end.

Definition find_docker : ctl string :=
  dockerd ← first_executable "dockerd" dockerPaths;
  if String.eqb dockerd "" then first_executable "docker" dockerPaths else mret dockerd.

Definition ramdisk (mountInfo : string) : bool :=
  existsb (λ mount, GoStrings.Contains mount "/var/lib/user-docker /var/lib/docker" && GoStrings.Contains mount "rootfs")
    (Split mountInfo "010").

Definition link_binary (link : string * string) : ctl () :=
  _ ← try_os (Unlink link.2) eq_refl;
  x ← stat link.1;
  if ok x then try_os (Symlink link.1 link.2) eq_refl else mret ().

Definition launch_script (dockerBin : string) (args : list string) : string :=
  "[ -e " +:+ dockerConf +:+ " ] && source " +:+ dockerConf +:+ "; exec /usr/bin/dockerlaunch " +:+ dockerBin +:+ " " +:+
  Join args " " +:+ " $DOCKER_OPTS >> " +:+ dockerLog +:+ " 2>&1".

Definition dockerInitAction (ParseNamed : string → option (string * option string)) (fuel : nat) (args : list string) : ctl () :=
  _ ← wait_for fuel ConsoleInit.consoleDone;
  _ ← drop_completion;
  dockerBin ← find_docker;
  if String.eqb dockerBin "" then lift (Err "Failed to find either dockerd or docker binaries")
  else
    _ ← try_os (SysMount "" "/" "" "MS_SHARED|MS_REC") eq_refl;
    _ ← try_os (SysMount "" "/run" "" "MS_SHARED|MS_REC") eq_refl;
    mountInfo ← do_os (ReadFile "/proc/self/mountinfo") eq_refl;
    _ ← (if ramdisk mountInfo then try_os (Setenv "DOCKER_RAMDISK" "true") eq_refl else mret ());
    cfg ← load_config;
    _ ← each link_binary symLinkEngineBinary;
    let opts := InitConfig.EngineOpts_ (Opts (Docker cfg)) in
    _ ← or_fatal (checkZfsBackingFS (InitConfig.StorageDriver opts) (InitConfig.DataRoot opts));
    engine ← Engine.CurrentEngine ParseNamed;
    _ ← try_os (WriteFile "/run/docker-done" engine 420) eq_refl;
    environ ← ask (COs Environ);
    do_os (Exec "/bin/bash" ["bash"; "-c"; launch_script dockerBin args] environ) eq_refl.

(** ** Images that lie ready ([preload.go]) *)

Definition userImagesPreloadDirectory : string := "/var/lib/rancher/preload/docker".
Definition oldUserImgName : string := "/usr/share/ros/images-user.tar".

Definition stamp (file : string) : string := file +:+ ".done".

Definition shouldLoad (file : string) : ctl bool :=
  if HasSuffix file ".done" then mret false else x ← stat (stamp file); mret (negb (ok x)).

(** The expression .t?gz$: the dot is any character but a newline. *)
Definition gz_name (name : string) : bool :=
  match rev (String.list_ascii_of_string name) with
  | z :: g :: c :: _ => bool_decide (z = "z"%char ∧ g = "g"%char) && negb (bool_decide (c = "010"%char))
  | _ => false
  end.

(** The image of the user is linked into the directory of the docker of the user. *)
Definition link_user_image (imagesDir : string) : ctl () :=
  if negb (String.eqb imagesDir userImagesPreloadDirectory) then mret ()
  else
    image ← stat oldUserImgName;
    if negb (ok image) then mret ()
    else
      let newUserImgName := path_Join [userImagesPreloadDirectory; Base oldUserImgName] in
      x ← stat newUserImgName;
      if not_exist x then try_os (Symlink oldUserImgName newUserImgName) eq_refl else mret ().

(** One file; whether the client was made. *)
Definition preload_image (imagesDir : string) (clientInitialized : bool) (name : string) : ctl bool :=
  let filename := path_Join [imagesDir; name] in
  load ← shouldLoad filename;
  if negb load then mret clientInitialized
  else
    _ ← do_os (Open filename) eq_refl;
    let gz := gz_name name in
    _ ← (if gz then do_ask (GzipReader filename) eq_refl else mret ());
    _ ← (if clientInitialized then mret () else do_ask NewClient eq_refl);
    _ ← do_ask (ImageLoad filename gz) eq_refl;
    cfg ← load_config;
    _ ← (if PreloadWait cfg then do_ask ReadResponse eq_refl else mret ());
    _ ← do_os (Create (stamp filename)) eq_refl;
    mret true.

Fixpoint preload_images (imagesDir : string) (clientInitialized : bool) (names : list string) : ctl () :=
  match names with
  | [] => mret ()
  | name :: names =>
      clientInitialized ← preload_image imagesDir clientInitialized name;
      preload_images imagesDir clientInitialized names
  end.

Definition PreloadImages (imagesDir : string) : ctl () :=
  x ← stat imagesDir;
  _ ← match x with
      | AOk _ => mret ()
      | ANotFound _ => do_os (MkdirAll imagesDir 493) eq_refl
      | AErr e => lift (Err e)
      end;
  _ ← link_user_image imagesDir;
  files ← do_os (ReadDir imagesDir) eq_refl;
  preload_images imagesDir false (fst <$> files).

Definition preloadImagesAction : ctl () := PreloadImages userImagesPreloadDirectory.

(** ** The bootstrap container ([bootstrap.go], [udevsettle.go]) *)

(** udevd is killed at the end, however far it came. *)
Definition UdevSettle : ctl () :=
  deferred (run_command ["killall"; "udevd"]) (
    _ ← run_command ["udevd"; "--daemon"];
    _ ← run_command ["udevadm"; "trigger"; "--action=add"];
    run_command ["udevadm"; "settle"]).

Definition UdevRulesDir : string := "/etc/udev/rules.d".
Definition UdevRulesExtrasDir : string := "/lib/udev/rules-extras.d".

(** [filepath.Ext]: from the last dot of the last element. *)
Fixpoint Ext (s : string) : string :=
  match s with
  | "" => ""
  | String c s' =>
      match Ext s' with
      | "" => if bool_decide (c = "."%char) && negb (has_char "/" s') then String c s' else ""
      | e => e
      end
  end.

Definition is_rule (r : string * file_info) : bool := negb (fi_dir r.2) && String.eqb (Ext r.1) ".rules".

Definition link_rule (r : string * file_info) : ctl () :=
  if is_rule r then do_os (Symlink (path_Join [UdevRulesExtrasDir; r.1]) (path_Join [UdevRulesDir; r.1])) eq_refl else mret ().

(** Links stay; what is removed are the rules themselves. *)
Definition remove_rule (r : string * file_info) : ctl () :=
  if is_rule r && negb (fi_symlink r.2) then do_os (Remove (path_Join [UdevRulesDir; r.1])) eq_refl else mret ().

Definition extraRules : ctl () :=
  cfg ← load_config;
  match ModemNetworks cfg with
  | _ :: _ => rules ← do_ask (ReadDirInfo UdevRulesExtrasDir) eq_refl; each link_rule rules
  | [] => rules ← do_ask (ReadDirInfo UdevRulesDir) eq_refl; each remove_rule rules
  end.

Definition udevSettleAction : ctl () := _ ← ignore extraRules; or_fatal UdevSettle.

Definition open_crypt (cryptdevice : string) : ctl () :=
  _ ← do_os (Open "/dev/console") eq_refl;
  _ ← do_os (Open "/dev/console") eq_refl;
  ignore (run_command ["cryptsetup"; "luksOpen"; cryptdevice; "luks-" +:+ Base cryptdevice]).

Definition cryptsetup : ctl () :=
  devices ← embed (BlkidType "crypto_LUKS"); each open_crypt devices.

Definition runStateScript (script : string) : ctl () :=
  f ← do_ask (TempScript script) eq_refl; embed (RunScript f []).

(** At most [n] turns, with a second after each that does not find what it waits for. *)
Fixpoint wait_device (n : nat) (dev : string) : ctl string :=
  match n with
  | O => mret ""
  | S n =>
      d ← ask (COs (ResolveDevice dev));
      if String.eqb d "" then _ ← ask (Sleep 1000); wait_device n dev else mret (d : string)
  end.

Fixpoint wait_file (n : nat) (dev : string) : ctl () :=
  match n with
  | O => mret ()
  | S n => x ← stat dev; if ok x then mret () else _ ← ask (Sleep 1000); wait_file n dev
  end.

Definition waitForRoot (cfg : CloudConfig) : ctl () :=
  dev ← wait_device 30 (Dev (State cfg));
  if String.eqb dev "" then mret () else wait_file 30 dev.

Definition autoformat (devices : list string) : ctl () :=
  do_ask (RunWith ["/usr/sbin/auto-format.sh"] ["AUTOFORMAT=" +:+ Join devices " "] "") eq_refl.

(** A step that is configured; its error is logged. *)
Definition when (b : bool) (p : ctl ()) : ctl () := if b then ignore p else mret ().

Definition BootstrapMain : ctl () :=
  _ ← ignore UdevSettle;
  cfg ← load_config;
  let st := State cfg in
  _ ← when (Rngd st) (run_command ["rngd"; "-r"; "/dev/urandom"; "-q"]);
  _ ← when (MdadmScan st) (run_command ["mdadm"; "--assemble"; "--scan"]);
  _ ← when (Cryptsetup st) cryptsetup;
  _ ← when (LvmScan st) (run_command ["vgchange"; "--activate"; "ay"]);
  _ ← when (negb (String.eqb (Script st) "")) (runStateScript (Script st));
  _ ← ignore (RunCommandSequence (Bootcmd cfg));
  _ ← (if negb (String.eqb (Dev st) "") && Wait st then waitForRoot cfg else mret ());
  _ ← when (bool_decide (Autoformat st ≠ [])) (autoformat (Autoformat st));
  ignore UdevSettle.

(** ** Images are loaded once *)

Definition preload_order (w : ctl_log) (e : ctl_exchange) : Prop :=
  match projT1 e with
  | ImageLoad file _ => HasSuffix file ".done" = false ∧ ∃ x, osx (Stat (stamp file)) x ∈ w ∧ ok x = false
  | COs (Create p) => ∃ file gz, p = stamp file ∧ existT (ImageLoad file gz) (AOk ()) ∈ w
  | _ => True
  end.

(** What became of a file: it is a stamp, it has one, or it was loaded and has one now. *)
Definition preloaded (file : string) (w : ctl_log) : Prop :=
  HasSuffix file ".done" = true ∨ (∃ i, osx (Stat (stamp file)) (AOk i) ∈ w) ∨
  (∃ gz, existT (ImageLoad file gz) (AOk ()) ∈ w) ∧ osx (Create (stamp file)) (AOk ()) ∈ w.

Lemma preloaded_monotone file : monotone (preloaded file).
Proof.
  intros w w' Hw [H|[(i & H)|[(gz & H) H']]]; [by left|right; left|right; right].
  - exists i. by eapply elem_of_prefix.
  - split; [exists gz|]; by eapply elem_of_prefix.
Qed.

Lemma shouldLoad_spec file w :
  ok_spec preload_order (shouldLoad file) (λ b w',
    if b : bool then HasSuffix file ".done" = false ∧ ∃ x, osx (Stat (stamp file)) x ∈ w' ∧ ok x = false
    else HasSuffix file ".done" = true ∨ ∃ i, osx (Stat (stamp file)) (AOk i) ∈ w') w.
Proof.
  unfold shouldLoad, stat, ask. destruct (HasSuffix file ".done") eqn:Hd.
  { apply ok_done; [|intros b [= <-]; by left].
    intros [] w1 w2 Hw; [by intros [? _]|]. intros [H|(i & H)]; [by left|right]. exists i. by eapply elem_of_prefix. }
  ok_call; [done|]. intros x w1 Hw1 Hx%since_elem. apply ok_done.
  - intros [] w2 w3 Hw; [intros [? (y & Hy & Ho)]; split; [done|]; exists y; split; [by eapply elem_of_prefix|done]|].
    intros [H|(i & H)]; [by left|right]. exists i. by eapply elem_of_prefix.
  - intros b [= <-]. destruct x as [i|e|e]; cbn; [right; by exists i|split; [done|]; by eexists..].
Qed.

Lemma preload_image_spec dir b name w :
  ok_spec preload_order (preload_image dir b name) (λ _ w', preloaded (path_Join [dir; name]) w') w.
Proof.
  unfold preload_image. set (file := path_Join [dir; name]). cbv zeta.
  eapply ok_bind; [apply shouldLoad_spec|]. intros [] w1 Hw1 Hl; cbn [negb].
  2: { apply ok_done; [intros _; apply preloaded_monotone|]. intros _ _. unfold preloaded. tauto. }
  eapply ok_bind; [by apply ok_only, only_do_os|]. intros u1 w2 Hw2 _.
  eapply ok_bind; [apply ok_only; ctl_calls done|]. intros u2 w3 Hw3 _.
  eapply ok_bind; [apply ok_only; ctl_calls done|]. intros u3 w4 Hw4 _.
  eapply ok_bind.
  { apply ok_done_ask. intros w5 x Hw5. destruct Hl as [H1 (y & Hy & Ho)]. split; [done|]. exists y.
    split; [|done]. eapply elem_of_prefix; [exact Hy|]. by do 3 (etrans; [eassumption|]). }
  intros u4 w5 Hw5 (x & Hx & Hload). cbn in Hx. subst x.
  eapply ok_bind; [apply ok_only; ctl_calls done|]. intros cfg w6 Hw6 _.
  eapply ok_bind; [apply ok_only; ctl_calls done|]. intros u5 w7 Hw7 _.
  eapply ok_bind.
  { apply ok_do_os. intros w8 x Hw8. exists file, (gz_name name). split; [done|].
    eapply elem_of_prefix; [exact Hload|]. by do 2 (etrans; [eassumption|]). }
  intros u6 w8 Hw8 (x & Hx & Hc). cbn in Hx. subst x. destruct u6.
  apply ok_done; [intros _; apply preloaded_monotone|]. intros _ _. right. right. split; [|done].
  exists (gz_name name). eapply elem_of_prefix; [exact Hload|]. by do 2 (etrans; [eassumption|]).
Qed.

Lemma preload_images_spec dir b names w :
  ok_spec preload_order (preload_images dir b names)
    (λ _ w', ∀ name, name ∈ names → preloaded (path_Join [dir; name]) w') w.
Proof.
  revert b w. induction names as [|name names IH]; intros b w; cbn [preload_images].
  - apply ok_done; [intros a w1 w2 Hw H x Hx|intros a _ x Hx]; by apply elem_of_nil in Hx.
  - eapply ok_bind; [apply preload_image_spec|]. intros c w1 Hw1 Hn. cbn in Hn.
    eapply spec_mono; [|apply spec_prefix, IH]. intros r w2 [Hw2 Hr] a Ha x [E|Hx]%elem_of_cons.
    + rewrite E. by eapply preloaded_monotone.
    + by apply (Hr a Ha).
Qed.

Lemma link_user_image_spec dir w : ok_spec preload_order (link_user_image dir) (λ _ _, True) w.
Proof. apply ok_only. unfold link_user_image. ctl_calls done. Qed.

Lemma PreloadImages_spec dir w :
  ok_spec preload_order (PreloadImages dir) (λ _ w', ∃ files,
    osx (ReadDir dir) (AOk files) ∈ w' ∧ ∀ name, name ∈ fst <$> files → preloaded (path_Join [dir; name]) w') w.
Proof.
  unfold PreloadImages. eapply ok_bind; [apply ok_only; ctl_calls done|]. intros x w1 Hw1 _.
  eapply ok_bind; [apply ok_only; ctl_calls done|]. intros u1 w2 Hw2 _.
  eapply ok_bind; [apply link_user_image_spec|]. intros u2 w3 Hw3 _.
  eapply ok_bind; [by apply ok_do_os|]. intros files w4 Hw4 (y & Hy & Hf). cbn in Hy. subst y.
  eapply spec_mono; [|apply spec_prefix, preload_images_spec]. intros r w5 [Hw5 Hr] a Ha.
  exists files. split; [by eapply elem_of_prefix|]. by apply (Hr a Ha).
Qed.

(** C32: An image of the directory is loaded only when it has no stamp, and a stamp is made only for an
    image that was loaded; when the command succeeds, every file of the directory is a stamp,
    had one, or was loaded and has one. *)
Theorem PreloadImages_once dir l r :
  behaves (PreloadImages dir) l r →
  (∀ i e, l !! i = Some e → preload_order (take i l) e) ∧
  (r = Ok () → ∃ files, osx (ReadDir dir) (AOk files) ∈ l ∧
     ∀ name, name ∈ fst <$> files → preloaded (path_Join [dir; name]) l).
Proof.
  intros Hb. destruct (spec_behaves _ _ _ _ _ [] Hb (PreloadImages_spec dir [])) as [HQ Hl].
  split; [exact Hl|]. intros Hr. exact (HQ () Hr).
Qed.

(** One image is new, the other has its stamp. *)
Definition images_machine (c : ctl_call) : ctl_answer c :=
  match c return ctl_answer c with
  | COs (Stat p) => if existsb (String.eqb p) ["/images/new.tgz.done"] then ANotFound "no such file" else AOk dir_info
  | COs (ReadDir _) => AOk [("new.tgz", false); ("old.tar", false); ("old.tar.done", false)]
  | c => plain_ctl no_config c
  end.

Lemma PreloadImages_once_witness :
  let l := (exchanges (λ c w, (images_machine c, w)) (PreloadImages "/images") ()) in
  l.2 = Ok () ∧ existT (ImageLoad "/images/new.tgz" true) (AOk ()) ∈ l.1 ∧
  (∀ i e, l.1 !! i = Some e → preload_order (take i l.1) e) ∧
  ∃ files, osx (ReadDir "/images") (AOk files) ∈ l.1 ∧
    ∀ name, name ∈ fst <$> files → preloaded (path_Join ["/images"; name]) l.1.
Proof.
  intros l. assert (l.2 = Ok ()) as E by (vm_compute; reflexivity). split; [exact E|].
  split; [vm_compute; in_log|].
  destruct (PreloadImages_once "/images" l.1 l.2) as [H1 H2]; [apply (exchanges_plain images_machine (PreloadImages "/images"))|].
  split; [exact H1|]. exact (H2 E).
Defined.

(** ** Devices of the bootstrap *)

Definition settle_commands : list ctl_call :=
  [COs (RunCommand ["udevd"; "--daemon"]); COs (RunCommand ["udevadm"; "trigger"; "--action=add"]);
   COs (RunCommand ["udevadm"; "settle"])].

(** However far the settling of devices comes, the last command kills udevd; the commands before it
    are run in their order up to the first that fails. *)
Theorem UdevSettle_kills l r :
  behaves UdevSettle l r →
  ∃ n, (1 ≤ n ≤ 3)%nat ∧ (r = Ok () → n = 3%nat) ∧
    projT1 <$> l = (take n settle_commands ++ [COs (RunCommand ["killall"; "udevd"])])%list.
Proof.
  unfold UdevSettle. prog_cbn. unfold ignore. cbn [deferred attempt prog_bind mbind prog_mbind].
  intros (x1 & l1 & -> & H). destruct x1 as [[]|e|e]; cbn in H.
  - destruct H as (x2 & l2 & -> & H). destruct x2 as [[]|e|e]; cbn in H.
    + destruct H as (x3 & l3 & -> & H). exists 3%nat.
      destruct x3 as [[]|e|e]; destruct H as (x4 & l4 & -> & H); destruct x4; destruct H as [-> ->]; split_and!; first [done | by intros [=] | lia].
    + exists 2%nat. destruct H as (x4 & l4 & -> & H); destruct x4; destruct H as [-> ->]; split_and!; first [done | by intros [=] | lia].
    + exists 2%nat. destruct H as (x4 & l4 & -> & H); destruct x4; destruct H as [-> ->]; split_and!; first [done | by intros [=] | lia].
  - exists 1%nat. destruct H as (x4 & l4 & -> & H); destruct x4; destruct H as [-> ->]; split_and!; first [done | by intros [=] | lia].
  - exists 1%nat. destruct H as (x4 & l4 & -> & H); destruct x4; destruct H as [-> ->]; split_and!; first [done | by intros [=] | lia].
Qed.

(** *** Waiting for the device of the state *)

Definition sleeps (l : ctl_log) : nat :=
  length (filter (λ e : ctl_exchange, match projT1 e with Sleep _ => true | _ => false end = true) l).

Lemma sleeps_app l1 l2 : sleeps (l1 ++ l2) = (sleeps l1 + sleeps l2)%nat.
Proof. unfold sleeps. by rewrite filter_app, length_app. Qed.

Lemma sleeps_cons c x l :
  sleeps (existT c x :: l) = ((match c with Sleep _ => 1 | _ => 0 end) + sleeps l)%nat.
Proof. unfold sleeps. by destruct c. Qed.

Lemma sleeps_nil : sleeps [] = 0%nat.
Proof. done. Qed.

Lemma wait_device_bound n dev l r :
  behaves (wait_device n dev) l r → (∃ d, r = Ok d) ∧ (sleeps l ≤ n)%nat.
Proof.
  revert l. induction n as [|n IH]; intros l; cbn [wait_device].
  { intros [-> ->]. split; [by eexists|done]. }
  prog_cbn. intros (d & l1 & -> & H). destruct (String.eqb d ""); cbn [prog_bind] in H.
  - destruct H as (u & l2 & -> & H). destruct (IH l2 H) as [Hr Hs]. split; [done|]. rewrite !sleeps_cons. lia.
  - destruct H as [-> ->]. split; [by eexists|]. rewrite sleeps_cons, sleeps_nil. lia.
Qed.

Lemma wait_file_bound n dev l r : behaves (wait_file n dev) l r → r = Ok () ∧ (sleeps l ≤ n)%nat.
Proof.
  revert l. induction n as [|n IH]; intros l; cbn [wait_file].
  { by intros [-> ->]. }
  prog_cbn. intros (x & l1 & -> & H). destruct (ok x); cbn [prog_bind] in H.
  - destruct H as [-> ->]. split; [done|]. rewrite sleeps_cons, sleeps_nil. lia.
  - destruct H as (u & l2 & -> & H). destruct (IH l2 H) as [Hr Hs]. split; [done|]. rewrite !sleeps_cons. lia.
Qed.

(** Waiting for the device of the state ends, without an error, after at most a minute of sleep. *)
Theorem waitForRoot_bounded cfg l r : behaves (waitForRoot cfg) l r → r = Ok () ∧ (sleeps l ≤ 60)%nat.
Proof.
  unfold waitForRoot. intros [(l1 & l2 & dev & -> & H1 & H2)|[(e & H & _)|(e & H & _)]]%behaves_bind.
  - apply wait_device_bound in H1 as [_ H1]. rewrite sleeps_app. destruct (String.eqb dev "").
    + destruct H2 as [-> ->]. split; [done|]. rewrite sleeps_nil. lia.
    + apply wait_file_bound in H2 as [-> H2]. split; [done|]. lia.
  - by apply wait_device_bound in H as [[d [=]] _].
  - by apply wait_device_bound in H as [[d [=]] _].
Qed.

Definition root_config : CloudConfig :=
  {| SSHAuthorizedKeys := []; WriteFiles_ := []; Hostname_ := ""; Mounts := []; Runcmd := []; Bootcmd := [];
     Console := ""; Control.Environment := ∅; Services := ∅; BootstrapContainers := ∅; Disable := [];
     ServicesInclude := ∅; ModemNetworks := []; Repositories := ∅; SSH := SSH no_config;
     State := {| Dev := "LABEL=RANCHER_STATE"; Wait := true; Autoformat := []; MdadmScan := false; LvmScan := false;
                 Cryptsetup := false; Rngd := false; Script := "" |};
     Upgrade := Upgrade no_config; Docker := no_docker; ResizeDevice := ""; Sysctl := ∅; RestartServices := [];
     PreloadWait := false |}.

(** The device is known, but its file never appears. *)
Definition no_device (c : ctl_call) : ctl_answer c :=
  match c return ctl_answer c with
  | COs (ResolveDevice _) => "/dev/sda1"
  | COs (Stat _) => ANotFound "no such file"
  | c => plain_ctl root_config c
  end.

Lemma waitForRoot_bounded_witness :
  let l := (exchanges (λ c w, (no_device c, w)) (waitForRoot root_config) ()) in
  sleeps l.1 = 30%nat ∧ l.2 = Ok () ∧ (sleeps l.1 ≤ 60)%nat.
Proof.
  intros l. split; [vm_compute; reflexivity|]. apply (waitForRoot_bounded root_config).
  apply (exchanges_plain no_device (waitForRoot root_config)).
Defined.

Lemma UdevSettle_kills_witness :
  let l := (exchanges (λ c w, (plain_ctl no_config c, w)) UdevSettle ()) in
  ∃ n, (1 ≤ n ≤ 3)%nat ∧ (l.2 = Ok () → n = 3%nat) ∧
    projT1 <$> l.1 = (take n settle_commands ++ [COs (RunCommand ["killall"; "udevd"])])%list.
Proof. intros l. apply UdevSettle_kills, (exchanges_plain (plain_ctl no_config) UdevSettle). Defined.

(** ** Which docker is launched *)

(** A file that was found to have permissions. *)
Definition executable (l : ctl_log) (p : string) : Prop :=
  ∃ i, osx (Stat p) (AOk i) ∈ l ∧ fi_perm i ≠ 0%Z.

(** The first of some files, as far as the log tells; none is the empty string. *)
Definition first_of (l : ctl_log) (candidates : list string) (bin : string) : Prop :=
  if String.eqb bin "" then ∀ p, p ∈ candidates → ¬ executable l p
  else ∃ before after, candidates = (before ++ bin :: after)%list ∧ executable l bin ∧ ∀ p, p ∈ before → ¬ executable l p.

Lemma executable_app l1 l2 p : executable (l1 ++ l2) p ↔ executable l1 p ∨ executable l2 p.
Proof. unfold executable. setoid_rewrite elem_of_app. naive_solver. Qed.

Lemma executable_stat q x p : executable [osx (Stat q) x] p ↔ p = q ∧ ∃ i, x = AOk i ∧ fi_perm i ≠ 0%Z.
Proof.
  unfold executable. setoid_rewrite list_elem_of_singleton. split.
  - intros (i & E & Hi). pose proof (f_equal projT1 E) as Ep. cbn in Ep. injection Ep as ->. split; [done|].
    exists i. split; [|done].
    by apply (f_equal (λ e : ctl_exchange, match e return option (api file_info) with existT (COs (Stat _)) x => Some x | _ => None end)) in E; injection E as ->.
  - intros (-> & i & -> & Hi). by exists i.
Qed.

Definition join_name (name : string) (paths : list string) : list string := (λ p, path_Join [p; name]) <$> paths.

Lemma first_executable_spec name paths l bin :
  NoDup (join_name name paths) → Forall (λ p, p ≠ "") (join_name name paths) →
  behaves (first_executable name paths) l (Ok bin) →
  (∀ p, executable l p → p ∈ join_name name paths) ∧ first_of l (join_name name paths) bin.
Proof.
  unfold join_name. revert l. induction paths as [|q paths IH]; intros l Hnd Hne; cbn [first_executable].
  { intros [-> [= ->]]. split; [by intros p (i & Hi%elem_of_nil & _)|]. intros p Hp. by apply elem_of_nil in Hp. }
  apply NoDup_cons in Hnd as [Hq Hnd]. apply Forall_cons in Hne as [Hqne Hne].
  unfold ExistsAndExecutable. prog_cbn. set (path := path_Join [q; name]) in *. intros (x & l' & -> & H).
  change (existT (COs (Stat path)) x :: l') with ([osx (Stat path) x] ++ l')%list.
  destruct (match x with AOk info => negb (fi_perm info =? 0)%Z | _ => false end) eqn:Hx.
  - destruct H as [-> [= ->]]. rewrite app_nil_r. split.
    + intros p [-> _]%executable_stat. by left.
    + unfold first_of. rewrite (proj2 (String.eqb_neq _ _) Hqne). exists [], (join_name name paths).
      split_and!; [done| |by intros p Hp%elem_of_nil]. apply executable_stat. split; [done|].
      destruct x as [i|e|e]; try done. exists i. split; [done|]. by destruct (fi_perm i =? 0)%Z eqn:E; [|lia].
  - destruct (IH l' Hnd Hne H) as [Hin Hf]. assert (¬ executable [osx (Stat path) x] path) as Hno.
    { intros (_ & i & -> & Hi)%executable_stat. destruct (fi_perm i =? 0)%Z eqn:E; [lia|done]. }
    assert (∀ p, p ∈ join_name name paths → ¬ executable l' p → ¬ executable ([osx (Stat path) x] ++ l') p) as Hmore.
    { intros p Hp Hn [[-> _]%executable_stat|He]%executable_app; [by destruct Hq|done]. }
    split; [intros p [[-> _]%executable_stat|He]%executable_app; [by left|by right; apply Hin]|].
    unfold first_of in *. destruct (String.eqb bin "").
    + intros p [->|Hp]%elem_of_cons; [|by apply Hmore; [|apply Hf]].
      intros [He|He]%executable_app; [done|]. by destruct Hq; apply Hin.
    + destruct Hf as (before & after & E & He & Hb). exists (path :: before), after. split_and!.
      * cbn. by rewrite E.
      * apply executable_app. by right.
      * intros p [->|Hp]%elem_of_cons; [|apply Hmore; [|by apply Hb]; unfold join_name; rewrite E; apply elem_of_app; by left].
        intros [He'|He']%executable_app; [done|]. by destruct Hq; apply Hin.
Qed.

Definition candidates : list string := (join_name "dockerd" dockerPaths ++ join_name "docker" dockerPaths)%list.

(** The docker that is launched is the first of its places that can be executed; dockerd of any
    place comes before docker of any place; there is none only when none of them is there. *)
Theorem find_docker_first l bin : behaves find_docker l (Ok bin) → first_of l candidates bin.
Proof.
  intros (l1 & l2 & d & -> & H1 & H2)%behaves_bind_ok.
  apply first_executable_spec in H1 as [Hin1 H1]; [|apply (bool_decide_unpack _); vm_compute; exact I..].
  assert (∀ p, p ∈ join_name "dockerd" dockerPaths → p ∈ join_name "docker" dockerPaths → False) as Hdis.
  { intros p Hp1 Hp2. unfold join_name, dockerPaths in *. set_solver. }
  destruct (String.eqb_spec d "") as [->|Hd].
  - apply first_executable_spec in H2 as [Hin2 H2]; [|apply (bool_decide_unpack _); vm_compute; exact I..].
    unfold first_of in *. cbn [String.eqb] in H1. destruct (String.eqb bin "").
    + intros p [Hp|Hp]%elem_of_app [He|He]%executable_app; [by apply (H1 p)|eauto|eauto|by apply (H2 p)].
    + destruct H2 as (before & after & E & He & Hb). exists (join_name "dockerd" dockerPaths ++ before)%list, after.
      split_and!; [unfold candidates; by rewrite E, <-(assoc_L (++))|by apply executable_app; right|].
      intros p [Hp|Hp]%elem_of_app [Hx|Hx]%executable_app; [by apply (H1 p)|eauto| |by apply (Hb p)].
      apply (Hdis p); [by apply Hin1|]. rewrite E. apply elem_of_app. by left.
  - destruct H2 as [-> [= ->]]. rewrite app_nil_r. unfold first_of in *. rewrite (proj2 (String.eqb_neq _ _) Hd) in *.
    destruct H1 as (before & after & E & He & Hb). exists before, (after ++ join_name "docker" dockerPaths)%list.
    split_and!; [|done..]. unfold candidates. by rewrite E, <-(assoc_L (++)).
Qed.

(** docker is in the first place, dockerd in the second. *)
Definition docker_machine (c : ctl_call) : ctl_answer c :=
  match c return ctl_answer c with
  | COs (Stat p) => if existsb (String.eqb p) ["/usr/bin/docker"; "/opt/bin/dockerd"] then AOk dir_info else ANotFound "no such file"
  | c => plain_ctl no_config c
  end.

Lemma find_docker_first_witness :
  let l := exchanges (λ c w, (docker_machine c, w)) find_docker () in
  l.2 = Ok "/opt/bin/dockerd" ∧ first_of l.1 candidates "/opt/bin/dockerd".
Proof.
  intros l. assert (l.2 = Ok "/opt/bin/dockerd") as E by (vm_compute; reflexivity). split; [exact E|].
  apply find_docker_first. rewrite <-E. apply (exchanges_plain docker_machine find_docker).
Defined.
