(* ===== verification/NetworkCommand.v ===== *)
(** * The network command ([cmd/network/network.go], [pkg/hostname/hostname.go])

    What is done around the configuration of the links: the files of dhcpcd and
    wpa_supplicant, the name of the host and resolv.conf. *)

From stdpp Require Import prelude gmap strings list.
From S2P Require Import Prelude GoStrings GoAscii Prog Conc.
From S2P Require NetLinks Netconf OS Util.

Local Open Scope string_scope.

(** ** Configuration *)

(** A wireless network, as the templates see it. *)
Record WifiNetworkConfig := {
  Address : string; Gateway : string; ScanSSID : Z; SSID : string; PSK : string; Priority : Z; Pairwise : string;
  Group : string; Eap : string; Identity : string; AnonymousIdentity : string; CaCerts : list string;
  ClientCerts : list string; PrivateKeys : list string; PrivateKeyPasswds : list string; Phases : list string;
  EapolFlags : Z; KeyMgmt : string; Password : string;
}.

Record DNSConfig := { Nameservers : list string; Search : list string }.

(** What the command reads of the configuration; the wireless networks of [Network] are the
    keys of [WifiNetworks]. *)
Record CloudConfig := {
  Hostname : string;
  Network : NetLinks.NetworkConfig;
  DNS : DNSConfig;
  WifiNetworks : gmap string WifiNetworkConfig;
  DefaultHostname : string;
  DefaultDHCPTimeout : Z;
  DefaultDNS : DNSConfig;
}.

(** ** Calls *)

Inductive cmd_call :=
  | Net (c : NetLinks.net_call)
  | Os (c : OS.os_call)
  | LoadConfig
  | Sethostname (name : string)
  | BuildResolv (dns : DNSConfig)
  | Template (tpl dst : string) (data : gmap string WifiNetworkConfig)
  | NewSystemClient
  | ContainerRestart (name : string) (timeout : Z)
  | WaitTerm.

(** A template that cannot be parsed is [None]. *)
Definition cmd_answer (c : cmd_call) : Type :=
  match c with
  | Net c => NetLinks.net_ans c
  | Os c => OS.os_answer c
  | LoadConfig => option CloudConfig
  | Template _ _ _ => option (api ())
  | WaitTerm => ()
  | _ => api ()
  end.

Abbreviation cmd := (prog cmd_answer).

Definition ask (c : cmd_call) : cmd (cmd_answer c) := invoke c.

Fixpoint embed {A} (p : NetLinks.Net A) : cmd A :=
  match p with
  | Done r => Done r
  | Call c k => Call (Net c) (λ x, embed (k x))
  end.

Fixpoint embed_os {A} (p : OS.os A) : cmd A :=
  match p with
  | Done r => Done r
  | Call c k => Call (Os c) (λ x, embed_os (k x))
  end.

Definition panic {A} (msg : string) : cmd A := Done (Panic msg).

(** ** The name of the host ([hostname.go]) *)

Definition SetHostnameFromCloudConfig (cc : CloudConfig) : cmd () :=
  let hostname := if String.eqb (Hostname cc) "" then DefaultHostname cc else Hostname cc in
  if String.eqb hostname "" then mret () else x ← ask (Sethostname hostname); expect x.

Definition newline : string := String "010" "".
Definition own_address : string := "127.0.1.1".

(** A line of the file: the line of the host names it. *)
Definition sync_line (hostname line : string) : string :=
  let line := TrimSpace line in
  if bool_decide (head (Fields line) = Some own_address) then own_address +:+ " " +:+ hostname else line.

Definition unlines (ls : list string) : string := foldr (λ l acc, l +:+ newline +:+ acc) "" ls.

(** A line that does not fit the scanner ends the file. *)
Definition sync_hosts (hostname content : string) : string :=
  unlines (sync_line hostname <$> (Util.scan_lines content).1).

Definition SyncHostname : cmd () :=
  hostname ← embed_os (OS.do_sys OS.Hostname eq_refl);
  if String.eqb hostname "" then mret ()
  else
    _ ← embed_os (OS.do_sys (OS.Open "/etc/hosts") eq_refl);
    scanned ← ask (Os (OS.Scan "/etc/hosts"));
    embed_os (OS.do_sys (OS.WriteFile "/etc/hosts" (sync_hosts hostname (scanned : string * option string).1) 384) eq_refl).

(** ** The files of dhcpcd and wpa_supplicant *)

Definition DHCPCDConfigFile : string := "/etc/dhcpcd.conf".
Definition DHCPCDTemplateFile : string := "/etc/dhcpcd.conf.tpl".
Definition WPATemplateFile : string := "/etc/wpa_supplicant.conf.tpl".
Definition WPAConfigFile (iface : string) : string := "/etc/wpa_supplicant-" +:+ iface +:+ ".conf".

(** The interfaces that have a wireless network with an address. *)
Definition static_wifi (cfg : CloudConfig) : gmap string WifiNetworkConfig :=
  omap (λ v, c ← WifiNetworks cfg !! NetLinks.WifiNetwork v; if String.eqb (Address c) "" then None else Some c)
    (NetLinks.Interfaces (Network cfg)).

(** An error is logged; a template that cannot be parsed panics. *)
Definition fill (tpl dst : string) (data : gmap string WifiNetworkConfig) : cmd () :=
  _ ← ask (Os (OS.Create dst));
  x ← ask (Template tpl dst data);
  match (x : option (api ())) with Some _ => mret () | None => panic "template" end.

(** A panic of the template ends the command, and the file is closed with it. *)
Definition generateDhcpcdFiles (cfg : CloudConfig) : cmd () :=
  _ ← fill DHCPCDTemplateFile DHCPCDConfigFile (static_wifi cfg);
  _ ← ask (Os (OS.CloseFile DHCPCDConfigFile));
  mret ().

Definition wpa_networks (cfg : CloudConfig) (network : string) : gmap string WifiNetworkConfig :=
  match WifiNetworks cfg !! network with Some c => {[network := c]} | None => ∅ end.

Definition generate_wpa (cfg : CloudConfig) (kv : string * NetLinks.InterfaceConfig) : cmd () :=
  let network := NetLinks.WifiNetwork kv.2 in
  if String.eqb network "" then mret ()
  else
    _ ← fill WPATemplateFile (WPAConfigFile kv.1) (wpa_networks cfg network);
    _ ← ask (Os (OS.CloseFile (WPAConfigFile kv.1)));
    mret ().

Definition generateWpaFiles (cfg : CloudConfig) : cmd () :=
  interfaces ← ask (Net (NetLinks.Range (NetLinks.Interfaces (Network cfg))));
  each (generate_wpa cfg) (proj1_sig (interfaces : {l | enumerates l (NetLinks.Interfaces (Network cfg))})).

(** ** The whole configuration *)

Definition set_timeout (t : Z) (n : NetLinks.NetworkConfig) : NetLinks.NetworkConfig :=
  {| NetLinks.PreCmds := NetLinks.PreCmds n; NetLinks.DHCPTimeout := t; NetLinks.Interfaces := NetLinks.Interfaces n;
     NetLinks.PostCmds := NetLinks.PostCmds n; NetLinks.WifiNetworks := NetLinks.WifiNetworks n |}.

(** The configuration of the links, with a time limit for DHCP. *)
Definition links_config (cfg : CloudConfig) : NetLinks.NetworkConfig :=
  let n := Network cfg in if (NetLinks.DHCPTimeout n <=? 0)%Z then set_timeout (DefaultDHCPTimeout cfg) n else n.

Definition dns_set (d : DNSConfig) : bool := bool_decide (Nameservers d ≠ []) || bool_decide (Search d ≠ []).

Section Apply.
(** The glob matcher, the shell lexer and the parser of addresses, as in [Netconf]; a bound of
    its loops. *)
Context (Glob : string → string → bool) (shlex_Split : string → list string * bool)
        (ParseAddr : string → option NetLinks.Addr) (fuel : nat).

Definition apply_links (cfg : CloudConfig) : NetLinks.Net bool :=
  Netconf.ApplyNetworkConfigs Glob shlex_Split ParseAddr fuel (links_config cfg)
    (negb (String.eqb (Hostname cfg) "")) (dns_set (DNS cfg)).

(** resolv.conf: what the user set, or the defaults when nobody set it. *)
Definition write_resolv (cfg : CloudConfig) (dhcpSetDNS : bool) : cmd () :=
  let userSetDNS := dns_set (DNS cfg) in
  _ ← (if negb userSetDNS && negb dhcpSetDNS then _ ← ask (BuildResolv (DefaultDNS cfg)); mret () else mret ());
  if userSetDNS then _ ← ask (BuildResolv (DNS cfg)); mret () else mret ().

(** An error of the links is logged, and then DHCP did not set the servers. *)
Definition ApplyNetworkConfig (cfg : CloudConfig) : cmd () :=
  _ ← ignore (SetHostnameFromCloudConfig cfg);
  _ ← generateDhcpcdFiles cfg;
  _ ← (if bool_decide (WifiNetworks cfg ≠ ∅) then generateWpaFiles cfg else mret ());
  r ← attempt (embed (apply_links cfg));
  _ ← write_resolv cfg (match r with Ok dns => dns | _ => false end);
  _ ← ask (Os (OS.ReadFile "/etc/resolv.conf"));
  ignore SyncHostname.

(** The programs are stopped when the signal comes. *)
Definition Main : cmd () :=
  cfg ← ask LoadConfig;
  match (cfg : option CloudConfig) with
  | None => panic "os.Exit"
  | Some cfg =>
      _ ← ApplyNetworkConfig cfg;
      _ ← ask NewSystemClient;
      _ ← ask (ContainerRestart "syslog" 10);
      _ ← ask WaitTerm;
      _ ← embed Netconf.StopWpaSupplicant;
      embed Netconf.StopDhcpcd
  end.

(** ** Which resolv.conf is written *)

Abbreviation cmd_exchange := (@exchange cmd_call cmd_answer).
Abbreviation cmd_log := (list cmd_exchange).

Definition builds (l : cmd_log) : list DNSConfig :=
  omap (λ e : cmd_exchange, match projT1 e with BuildResolv d => Some d | _ => None end) l.

Lemma builds_app l1 l2 : builds (l1 ++ l2) = (builds l1 ++ builds l2)%list.
Proof using Type. apply omap_app. Qed.

Definition no_build (c : cmd_call) : Prop := match c with BuildResolv _ => False | _ => True end.

Lemma no_build_builds {A} (p : cmd A) l r : only no_build p → behaves p l r → builds l = [].
Proof using Type.
  intros Hp Hb. pose proof (only_behaves _ _ _ _ Hb Hp) as Hl. clear Hp Hb.
  induction Hl as [|[c x] l Hc _ IH]; [done|]. unfold builds in *. cbn in *. by destruct c.
Qed.

Lemma embed_no_build {A} (p : NetLinks.Net A) : only no_build (embed p).
Proof using Type. induction p as [|c k IH]; cbn; auto. Qed.

Lemma embed_os_no_build {A} (p : OS.os A) : only no_build (embed_os p).
Proof using Type. induction p as [|c k IH]; cbn; auto. Qed.

(** A call to the kernel as a call of the command. *)
Definition net_event (e : @exchange NetLinks.net_call NetLinks.net_ans) : cmd_exchange := existT (Net (projT1 e)) (projT2 e).

Lemma behaves_embed_ctl {A} (p : NetLinks.Net A) l r :
  behaves (embed p) l r → ∃ l', behaves p l' r ∧ l = net_event <$> l'.
Proof using Type.
  revert l. induction p as [r0|c k IH]; intros l; cbn [embed behaves].
  - intros [-> ->]. by exists [].
  - intros (x & l' & -> & H). destruct (IH x l' H) as (l2 & H2 & ->).
    exists (existT c x :: l2). split; [by exists x, l2|done].
Qed.

Lemma write_resolv_builds cfg dhcp l :
  behaves (write_resolv cfg dhcp) l (Ok ()) →
  builds l = if dns_set (DNS cfg) then [DNS cfg] else if dhcp then [] else [DefaultDNS cfg].
Proof using Type.
  unfold write_resolv, ask, invoke, mbind, prog_mbind. destruct (dns_set (DNS cfg)), dhcp; cbn.
  - intros (x & l' & -> & [-> _]). done.
  - intros (x & l' & -> & [-> _]). done.
  - by intros [-> _].
  - intros (x & l' & -> & [-> _]). done.
Qed.

Lemma generate_no_build cfg : only no_build (generateDhcpcdFiles cfg) ∧ only no_build (generateWpaFiles cfg).
Proof using Type.
  unfold generateDhcpcdFiles, generateWpaFiles, generate_wpa, fill, ask. split;
    repeat first [exact I | progress intros | apply only_invoke | apply only_bind | apply only_each | case_match].
Qed.

Lemma SetHostname_no_build cfg : only no_build (SetHostnameFromCloudConfig cfg).
Proof using Type.
  unfold SetHostnameFromCloudConfig, ask. cbv zeta. case_match; [done|]. apply only_bind; [by apply only_invoke|intros; apply only_expect].
Qed.

Lemma SyncHostname_no_build : only no_build SyncHostname.
Proof using Type.
  unfold SyncHostname, ask. repeat first [exact I | progress intros | apply only_invoke | apply embed_os_no_build | apply only_bind | case_match].
Qed.

(** C38: When the network command has applied its configuration, resolv.conf was written by it once, with
    what the user set, if anything; with the defaults, if nobody set it; and not at all when a
    lease of DHCP names servers. The configuration of the links in between may go any way. *)
Theorem ApplyNetworkConfig_resolv cfg l :
  behaves (ApplyNetworkConfig cfg) l (Ok ()) →
  ∃ net r, behaves (apply_links cfg) net r ∧
    net_event <$> net `sublist_of` l ∧
    builds l = if dns_set (DNS cfg) then [DNS cfg] else match r with Ok true => [] | _ => [DefaultDNS cfg] end.
Proof using Type.
  destruct (generate_no_build cfg) as [Hd Hw].
  intros (l1 & l2 & u1 & -> & H1 & H)%behaves_bind_ok.
  apply behaves_bind_ok in H as (l3 & l4 & u2 & -> & H2 & H).
  apply behaves_bind_ok in H as (l5 & l6 & u3 & -> & H3 & H).
  apply behaves_bind_ok in H as (l7 & l8 & r & -> & H4 & H).
  apply behaves_bind_ok in H as (l9 & l10 & [] & -> & H5%write_resolv_builds & H).
  apply behaves_bind_ok in H as (l11 & l12 & x & -> & H6 & H).
  apply OS.behaves_attempt in H4 as [(r' & H4 & [= ->])|(e & _ & [=])].
  assert (builds l7 = []) as E7 by (eapply no_build_builds; [apply embed_no_build|exact H4]).
  apply behaves_embed_ctl in H4 as (net & H4 & ->). exists net, r'. split; [done|]. split.
  - do 3 apply sublist_inserts_l. apply sublist_inserts_r. reflexivity.
  - rewrite !builds_app, E7, H5.
    rewrite (no_build_builds _ _ _ (only_ignore _ _ (SetHostname_no_build cfg)) H1).
    rewrite (no_build_builds _ _ _ Hd H2).
    assert (only no_build (if bool_decide (WifiNetworks cfg ≠ ∅) then generateWpaFiles cfg else mret ())) as Hi
      by (destruct (bool_decide _); [exact Hw|exact I]).
    rewrite (no_build_builds _ _ _ Hi H3).
    rewrite (no_build_builds (ask (Os (OS.ReadFile "/etc/resolv.conf"))) _ _ ltac:(by apply only_invoke) H6).
    rewrite (no_build_builds _ _ _ (only_ignore _ _ SyncHostname_no_build) H). rewrite !app_nil_r. cbn [app].
    destruct (dns_set (DNS cfg)); [done|]. by destruct r' as [[]|e|e].
Qed.
End Apply.

(** ** An example *)

(** A machine without links, where the file of hosts names another host. *)
Definition example_net (c : NetLinks.net_call) : NetLinks.net_ans c :=
  match c return NetLinks.net_ans c with
  | NetLinks.Range m => exist _ (map_to_list m) (enumerates_map_to_list m)
  | NetLinks.RangeOpts m => exist _ (map_to_list m) (enumerates_map_to_list m)
  | NetLinks.Output _ => ""
  | NetLinks.Stat _ => NetLinks.NotExist
  | NetLinks.ReadFile _ => None
  | NetLinks.Sleep _ => ()
  | NetLinks.Uint32 => 7%Z
  | NetLinks.LinkList => Some []
  | NetLinks.LinkByName _ => None
  | NetLinks.AddrList _ => None
  | NetLinks.AddrAdd _ _ | NetLinks.AddrDel _ _ | NetLinks.RouteAdd _ => NetLinks.NoError
  | _ => true
  end.

Definition example_hosts : string := "127.0.0.1 localhost" +:+ newline +:+ "127.0.1.1  old  # name" +:+ newline.

Definition example_os (c : OS.os_call) : OS.os_answer c :=
  match c return OS.os_answer c with
  | OS.Hostname => AOk "rancher"
  | OS.Scan _ => (example_hosts, None)
  | c => OS.plain c
  end.

Definition example_cmd (c : cmd_call) : cmd_answer c :=
  match c return cmd_answer c with
  | Net c => example_net c
  | Os c => example_os c
  | LoadConfig => None
  | Template _ _ _ => Some (AOk ())
  | WaitTerm => ()
  | _ => AOk ()
  end.

Definition example_cfg (servers : list string) : CloudConfig := {|
  Hostname := ""; Network := {| NetLinks.PreCmds := []; NetLinks.DHCPTimeout := 0; NetLinks.Interfaces := ∅;
    NetLinks.PostCmds := []; NetLinks.WifiNetworks := ∅ |};
  DNS := {| Nameservers := servers; Search := [] |}; WifiNetworks := ∅; DefaultHostname := "rancher";
  DefaultDHCPTimeout := 10; DefaultDNS := {| Nameservers := ["8.8.8.8"]; Search := [] |} |}.

Definition example_run (servers : list string) :=
  exchanges (λ c w, (example_cmd c, w))
    (ApplyNetworkConfig Netconf.example_Glob Netconf.example_shlex Netconf.example_addr 10 (example_cfg servers)) ().

(** What was written to the file of hosts. *)
Example hosts_written :
  omap (λ e : @exchange cmd_call cmd_answer, match projT1 e with Os (OS.WriteFile f d _) => Some (f, d) | _ => None end) (example_run []).1
  = [("/etc/hosts", "127.0.0.1 localhost" +:+ newline +:+ "127.0.1.1 rancher" +:+ newline)].
Proof. vm_compute. reflexivity. Qed.

Lemma ApplyNetworkConfig_resolv_witness :
  let l := (example_run ["1.1.1.1"]).1 in
  builds l = [{| Nameservers := ["1.1.1.1"]; Search := [] |}] ∧
  ∃ net r, behaves (apply_links Netconf.example_Glob Netconf.example_shlex Netconf.example_addr 10 (example_cfg ["1.1.1.1"])) net r ∧
    net_event <$> net `sublist_of` l ∧
    builds l = if dns_set (DNS (example_cfg ["1.1.1.1"])) then [DNS (example_cfg ["1.1.1.1"])]
               else match r with Ok true => [] | _ => [DefaultDNS (example_cfg ["1.1.1.1"])] end.
Proof.
  assert ((example_run ["1.1.1.1"]).2 = Ok ()) as E by (vm_compute; reflexivity).
  cbv zeta. split; [vm_compute; reflexivity|]. apply ApplyNetworkConfig_resolv. rewrite <- E.
  unfold example_run. apply exchanges_behaves.
Defined.
