(* ===== verification/HttpClient.v ===== *)
(** * The client of HTTP ([config/cloudinit/pkg/http_client.go])

    How often a document is asked for, how long is waited in between, and what becomes
    of the answers. *)

From stdpp Require Import prelude strings list.
From S2P Require Import Prelude GoStrings Prog Conc.
From S2P Require OS.

Local Open Scope string_scope.

(** ** Data *)

(** The types of the errors; [OtherError] is any other error of Go. *)
Inductive http_err := ErrTimeout | ErrNotFound | ErrInvalid | ErrServer | ErrNetwork | OtherError.

#[export] Instance http_err_eq : EqDecision http_err.
Proof. solve_decision. Defined.

(** A pair of a value and an error, as Go returns it. *)
Abbreviation with_err A := (A * option http_err)%type.

Definition Millisecond : Z := 1000000.
Definition Second : Z := 1000000000.

Record HTTPClient := {
  InitialBackoff : Z;
  MaxBackoff : Z;
  MaxRetries : nat;
  Header : list (string * string);
}.

Definition NewHTTPClientHeader (header : list (string * string)) : HTTPClient := {|
  InitialBackoff := 50 * Millisecond; MaxBackoff := Second * 5; MaxRetries := 15; Header := header |}.

Definition NewHTTPClient : HTTPClient := NewHTTPClientHeader [].

Definition ExpBackoff (interval max : Z) : Z :=
  let interval := wrap64 (interval * 2) in
  if (interval >? max)%Z then max else interval.

(** ** Calls *)

(** What comes back from the server: its status, what could be read of the body and whether
    reading failed. *)
Inductive http_reply :=
  | NoReply
  | Reply (status : Z) (body : string) (broken : bool).

Inductive http_call :=
  | Do (header : list (string * string)) (url : string)
  | SleepFor (d : Z).

Definition http_answer (c : http_call) : Type :=
  match c with Do _ _ => http_reply | SleepFor _ => () end.

Abbreviation http := (prog http_answer).
Abbreviation http_exchange := (@exchange http_call http_answer).
Abbreviation http_log := (list http_exchange).

Definition HTTP2xx : Z := 2.
Definition HTTP4xx : Z := 4.

(** What [Get] makes of a reply. *)
Definition read_reply (x : http_reply) : with_err string :=
  match x with
  | NoReply => ("", Some ErrNetwork)
  | Reply status body broken =>
      if (Z.quot status 100 =? HTTP2xx)%Z then (body, if broken then Some OtherError else None)
      else if (Z.quot status 100 =? HTTP4xx)%Z then ("", Some ErrNotFound)
      else ("", Some ErrServer)
  end.

Section Client.
(** [url.Parse]: the scheme and the text of an URL. *)
Context (url_Parse : string → option (string * string)).

(** A request for what is no URL fails before it is sent. *)
Definition Get (h : HTTPClient) (dataURL : string) : http (with_err string) :=
  match url_Parse dataURL with
  | None => mret ("", Some OtherError)
  | Some _ => x ← (invoke (Do (Header h) dataURL) : http http_reply); mret (read_reply x)
  end.

Definition retryable (e : option http_err) : bool :=
  match e with Some ErrNetwork | Some ErrServer => true | _ => false end.

Fixpoint get_retries (h : HTTPClient) (dataURL : string) (retries : nat) (duration : Z) : http (with_err string) :=
  match retries with
  | O => mret ("", Some ErrTimeout)
  | S retries =>
      r ← Get h dataURL;
      if retryable (r : with_err string).2 then
        let duration := ExpBackoff duration (MaxBackoff h) in
        _ ← (invoke (SleepFor duration) : http ());
        get_retries h dataURL retries duration
      else mret r
  end.

Definition GetRetry (h : HTTPClient) (rawurl : string) : http (with_err string) :=
  if String.eqb rawurl "" then mret ("", Some ErrInvalid)
  else
    match url_Parse rawurl with
    | None => mret ("", Some ErrInvalid)
    | Some (scheme, dataURL) =>
        if negb (HasPrefix scheme "http") then mret ("", Some ErrInvalid)
        else get_retries h dataURL (MaxRetries h) (InitialBackoff h)
    end.

(** ** What is asked, and how long is waited *)

(** The waits after [duration]. *)
Fixpoint waits (max : Z) (n : nat) (duration : Z) : list Z :=
  match n with
  | O => []
  | S n => let d := ExpBackoff duration max in d :: waits max n d
  end.

(** Each failed attempt is followed by its wait. *)
Definition failed_attempts (h : HTTPClient) (dataURL : string) (replies : list http_reply) (ds : list Z) : http_log :=
  concat (zip_with (λ x d, [existT (Do (Header h) dataURL) x : http_exchange; existT (SleepFor d) ()]) replies ds).

(** A run of at most [n] attempts: the failures first; then an answer that ends them, or none
    is left. *)
Definition attempts (h : HTTPClient) (dataURL : string) (n : nat) (duration : Z) (l : http_log) (r : with_err string) : Prop :=
  ∃ replies, Forall (λ x, retryable (read_reply x).2 = true) replies ∧
    let k := length replies in
    let tried := failed_attempts h dataURL replies (waits (MaxBackoff h) k duration) in
    (k = n ∧ l = tried ∧ r = ("", Some ErrTimeout)) ∨
    ((k < n)%nat ∧ ∃ x, retryable (read_reply x).2 = false ∧ l = (tried ++ [existT (Do (Header h) dataURL) x])%list ∧
       r = read_reply x).

Lemma get_retries_attempts h dataURL n duration l r :
  is_Some (url_Parse dataURL) →
  behaves (get_retries h dataURL n duration) l r → ∃ d, r = Ok d ∧ attempts h dataURL n duration l d.
Proof using Type.
  intros [u Hu]. revert duration l. induction n as [|n IH]; intros duration l.
  - intros [-> ->]. eexists. split; [done|]. exists []. split; [done|]. by left.
  - cbn [get_retries]. unfold Get. rewrite Hu. unfold invoke, mbind, prog_mbind, mret, prog_ret. cbn [prog_bind behaves].
    intros (x & l1 & -> & H). destruct (retryable (read_reply x).2) eqn:Hx.
    + destruct H as ([] & l2 & -> & H). destruct (IH _ _ H) as (d & -> & replies & Hall & Hr).
      exists d. split; [done|]. exists (x :: replies). split; [by constructor|]. cbn [length waits]. unfold failed_attempts.
      cbn [zip_with concat]. destruct Hr as [(Hk & -> & ->)|(Hk & y & Hy & -> & ->)].
      * left. split_and!; [by rewrite <- Hk|done|done].
      * right. split; [lia|]. exists y. by split_and!.
    + destruct H as [-> ->]. eexists. split; [done|]. exists []. split; [done|]. right. split; [cbn; lia|]. by exists x.
Qed.

(** The text of an URL is an URL. *)
Definition stable_urls : Prop := ∀ raw scheme u, url_Parse raw = Some (scheme, u) → is_Some (url_Parse u).

(** *** The same in the terms of the protocol *)

(** A request failed when no reply came, or one that neither is a document (2xx) nor says
    that there is none (4xx). *)
Definition failed (x : http_reply) : Prop :=
  match x with
  | NoReply => True
  | Reply status _ _ => ¬ (200 ≤ status ≤ 299)%Z ∧ ¬ (400 ≤ status ≤ 499)%Z
  end.

(** What is returned for a reply. *)
Definition answered (x : http_reply) (d : with_err string) : Prop :=
  ∃ status body broken, x = Reply status body broken ∧
    ((200 ≤ status ≤ 299)%Z ∧ d = (body, if broken : bool then Some OtherError else None) ∨
     (400 ≤ status ≤ 499)%Z ∧ d = ("", Some ErrNotFound)).

Lemma read_reply_spec x :
  if retryable (read_reply x).2 then failed x else answered x (read_reply x).
Proof using Type.
  clear url_Parse. destruct x as [|status body broken]; [done|]. unfold read_reply, HTTP2xx, HTTP4xx.
  destruct (Z.eqb_spec (Z.quot status 100) 2) as [H2|H2].
  { assert (200 ≤ status ≤ 299)%Z by (revert H2; Z.to_euclidean_division_equations; lia).
    destruct broken; cbn; exists status, body; eexists; (split; [done|]); left; done. }
  destruct (Z.eqb_spec (Z.quot status 100) 4) as [H4|H4].
  { assert (400 ≤ status ≤ 499)%Z by (revert H4; Z.to_euclidean_division_equations; lia).
    exists status, body, broken. split; [done|]. by right. }
  cbn. split; intros ?; [apply H2|apply H4]; Z.to_euclidean_division_equations; lia.
Qed.

(** The [i]th wait, beginning with the time before the first one. *)
Fixpoint wait_from (max duration : Z) (i : nat) : Z :=
  match i with O => duration | S i => wait_from max (ExpBackoff duration max) i end.

Lemma ExpBackoff_min d max : ExpBackoff d max = Z.min max (wrap64 (2 * d)).
Proof using Type.
  clear url_Parse. unfold ExpBackoff. rewrite (Z.mul_comm d 2). rewrite Z.gtb_ltb.
  destruct (Z.ltb_spec max (wrap64 (2 * d))); lia.
Qed.

Lemma wait_from_S max d i : wait_from max d (S i) = Z.min max (wrap64 (2 * wait_from max d i)).
Proof using Type.
  clear url_Parse. revert d. induction i as [|i IH]; intros d; [apply ExpBackoff_min|].
  change (wait_from max d (S (S i))) with (wait_from max (ExpBackoff d max) (S i)). by rewrite IH.
Qed.

(** Without an overflow the waits double until they are capped. *)
Lemma wait_from_doubles max d i :
  (0 ≤ d < 2 ^ 62)%Z → (0 ≤ max < 2 ^ 62)%Z →
  wait_from max d (S i) = Z.min max (2 ^ Z.of_nat (S i) * d).
Proof using Type.
  clear url_Parse. intros Hd Hmax. induction i as [|i IH].
  - rewrite wait_from_S, wrap64_small by (cbn [wait_from]; lia). cbn [wait_from]. lia.
  - rewrite wait_from_S, IH. assert (0 ≤ 2 ^ Z.of_nat (S i) * d)%Z by nia.
    rewrite wrap64_small by lia. rewrite (Nat2Z.inj_succ (S i)), Z.pow_succ_r by lia. lia.
Qed.

Lemma failed_attempts_waits h u replies d :
  failed_attempts h u replies (waits (MaxBackoff h) (length replies) d) =
  concat (imap (λ i x, [existT (Do (Header h) u) x : http_exchange;
                        existT (SleepFor (wait_from (MaxBackoff h) d (S i))) ()]) replies).
Proof using Type.
  clear url_Parse. revert d. induction replies as [|x replies IH]; intros d; [done|].
  unfold failed_attempts in *. cbn [length waits zip_with concat]. rewrite imap_cons. cbn [concat].
  by rewrite IH.
Qed.

(** C39: A document is asked for at most [MaxRetries] times, and again only when no reply came
    or one with a status other than 2xx and 4xx. After each such failure the client waits,
    twice as long as before - in the arithmetic of an int64 - but at most [MaxBackoff]; so
    that without an overflow the wait after the attempt i is 2^i times [InitialBackoff], or
    [MaxBackoff]. The first other reply ends it: the document of a 2xx, with an error when
    reading it failed, and not found for a 4xx. A time-out is returned only when every attempt
    failed. A text that is not an URL of HTTP is never asked for. *)
Theorem GetRetry_attempts h rawurl l r :
  stable_urls →
  behaves (GetRetry h rawurl) l r →
  (l = [] ∧ r = Ok ("", Some ErrInvalid) ∧
   ∀ scheme dataURL, url_Parse rawurl = Some (scheme, dataURL) →
     rawurl = "" ∨ HasPrefix scheme "http" = false) ∨
  ∃ scheme dataURL replies wait,
    rawurl ≠ "" ∧ url_Parse rawurl = Some (scheme, dataURL) ∧ HasPrefix scheme "http" = true ∧
    wait 0%nat = InitialBackoff h ∧
    (∀ i, wait (S i) = Z.min (MaxBackoff h) (wrap64 (2 * wait i))) ∧
    ((0 ≤ InitialBackoff h < 2 ^ 62)%Z → (0 ≤ MaxBackoff h < 2 ^ 62)%Z →
     ∀ i, wait (S i) = Z.min (MaxBackoff h) (2 ^ Z.of_nat (S i) * InitialBackoff h)) ∧
    Forall failed replies ∧
    let request x := existT (Do (Header h) dataURL) x : http_exchange in
    let tried := concat (imap (λ i x, [request x; existT (SleepFor (wait (S i))) ()]) replies) in
    (length replies = MaxRetries h ∧ l = tried ∧ r = Ok ("", Some ErrTimeout) ∨
     (length replies < MaxRetries h)%nat ∧ ∃ x d, ¬ failed x ∧ l = (tried ++ [request x])%list ∧
       r = Ok d ∧ answered x d).
Proof using Type.
  intros Hstable. unfold GetRetry.
  destruct (String.eqb_spec rawurl "") as [->|Hne]; [intros [-> ->]; left; eauto|].
  destruct (url_Parse rawurl) as [[scheme dataURL]|] eqn:Hu; [|intros [-> ->]; by left].
  destruct (HasPrefix scheme "http") eqn:Hs; cbn [negb].
  2: { intros [-> ->]. left. split_and!; [done..|]. intros scheme' u [= <- <-]. by right. }
  intros (d & -> & replies & Hf & Hd)%get_retries_attempts; [|by eapply Hstable]. right.
  exists scheme, dataURL, replies, (wait_from (MaxBackoff h) (InitialBackoff h)).
  split_and!; [done..|intros i; apply wait_from_S|intros ? ? i; by apply wait_from_doubles| |].
  { eapply Forall_impl; [exact Hf|]. intros x Hx. pose proof (read_reply_spec x) as H. by rewrite Hx in H. }
  cbv zeta in *. rewrite <- failed_attempts_waits.
  destruct Hd as [(Hk & -> & ->)|(Hk & x & Hx & -> & ->)]; [left; done|right].
  split; [done|]. exists x, (read_reply x). pose proof (read_reply_spec x) as H. rewrite Hx in H.
  split_and!; [|done..]. destruct H as (st & body & broken & -> & H). cbn. intros [H2 H4].
  destruct H as [[? _]|[? _]]; auto.
Qed.
End Client.

(** ** The patience of the client *)

Definition slept (l : http_log) : Z :=
  foldr (λ e : http_exchange, Z.add (match projT1 e with SleepFor d => d | _ => 0%Z end)) 0%Z l.

Lemma slept_app l1 l2 : slept (l1 ++ l2) = (slept l1 + slept l2)%Z.
Proof. unfold slept. induction l1 as [|e l1 IH]; cbn [foldr app]; [done|]. rewrite IH. lia. Qed.

Lemma length_waits max n d : length (waits max n d) = n.
Proof. revert d. induction n as [|n IH]; intros d; cbn; [done|by rewrite IH]. Qed.

Lemma slept_failed h u replies ds :
  length replies = length ds → slept (failed_attempts h u replies ds) = foldr Z.add 0%Z ds.
Proof.
  revert ds. induction replies as [|x replies IH]; intros [|d ds]; try done. intros [= Hl].
  change (failed_attempts h u (x :: replies) (d :: ds))
    with ([existT (Do (Header h) u) x; existT (SleepFor d) ()] ++ failed_attempts h u replies ds : http_log)%list.
  rewrite slept_app, (IH ds Hl). cbn. lia.
Qed.

Lemma waits_mono max d n m :
  Forall (λ d, 0 ≤ d)%Z (waits max m d) → (n ≤ m)%nat →
  (foldr Z.add 0 (waits max n d) ≤ foldr Z.add 0 (waits max m d))%Z.
Proof.
  revert d m. induction n as [|n IH]; intros d m Hm Hle.
  - cbn. clear Hle. revert d Hm. induction m as [|m IHm]; intros d Hm; [done|].
    cbn in *. apply Forall_cons in Hm as [Hd Hm]. specialize (IHm _ Hm). lia.
  - destruct m as [|m]; [lia|]. cbn in *. apply Forall_cons in Hm as [_ Hm]. specialize (IH _ m Hm ltac:(lia)). lia.
Qed.

Lemma attempts_slept h u n d l r :
  Forall (λ d, 0 ≤ d)%Z (waits (MaxBackoff h) n d) → attempts h u n d l r →
  (slept l ≤ foldr Z.add 0 (waits (MaxBackoff h) n d))%Z.
Proof.
  intros Hw (replies & _ & Hr). cbv zeta in Hr. set (ws := waits (MaxBackoff h) (length replies) d) in *.
  assert (slept (failed_attempts h u replies ws) ≤ foldr Z.add 0 (waits (MaxBackoff h) n d))%Z as H.
  { rewrite slept_failed by (by unfold ws; rewrite length_waits). apply waits_mono; [done|].
    destruct Hr as [[Hk _]|[Hk _]]; lia. }
  destruct Hr as [(_ & -> & _)|(_ & x & _ & -> & _)]; [exact H|]. rewrite slept_app. cbn. lia.
Qed.

(** With the default settings a document is given up after less than a minute of waiting. *)
Lemma GetRetry_patience url_Parse header u l r :
  is_Some (url_Parse u) →
  behaves (get_retries url_Parse (NewHTTPClientHeader header) u 15 (50 * Millisecond)) l r →
  (slept l ≤ 51300 * Millisecond)%Z.
Proof.
  intros Hs (d & _ & Ha)%get_retries_attempts; [|done]. apply attempts_slept in Ha; [|apply (bool_decide_unpack _); by vm_compute].
  etrans; [exact Ha|]. by vm_compute.
Qed.

(** ** An example *)

Definition example_Parse (s : string) : option (string * string) :=
  match cut_char ":" s with Some (scheme, _) => Some (scheme, s) | None => None end.

(** A server that comes up at the third request. *)
Definition slow_server (c : http_call) (n : nat) : http_answer c * nat :=
  match c return http_answer c * nat with
  | Do _ _ => (match n with O => NoReply | 1%nat => Reply 503 "" false | _ => Reply 200 "document" false end, S n)
  | SleepFor _ => ((), n)
  end.

Definition example_get := exchanges slow_server (GetRetry example_Parse NewHTTPClient "http://metadata/latest") 0%nat.

Lemma GetRetry_attempts_witness :
  let h := NewHTTPClient in
  let l := example_get.1 in
  stable_urls example_Parse ∧
  l = [existT (Do [] "http://metadata/latest") NoReply; existT (SleepFor (100 * Millisecond)) ();
       existT (Do [] "http://metadata/latest") (Reply 503 "" false); existT (SleepFor (200 * Millisecond)) ();
       existT (Do [] "http://metadata/latest") (Reply 200 "document" false)] ∧
  ∃ scheme dataURL replies wait,
    "http://metadata/latest" ≠ "" ∧ example_Parse "http://metadata/latest" = Some (scheme, dataURL) ∧
    HasPrefix scheme "http" = true ∧ wait 0%nat = (50 * Millisecond)%Z ∧
    (∀ i, wait (S i) = Z.min (5 * Second) (wrap64 (2 * wait i))) ∧
    (∀ i, wait (S i) = Z.min (5 * Second) (2 ^ Z.of_nat (S i) * (50 * Millisecond))) ∧
    Forall failed replies ∧
    let request x := existT (Do [] dataURL) x : http_exchange in
    let tried := concat (imap (λ i x, [request x; existT (SleepFor (wait (S i))) ()]) replies) in
    (length replies = 15%nat ∧ l = tried ∧ example_get.2 = Ok ("", Some ErrTimeout) ∨
     (length replies < 15)%nat ∧ ∃ x d, ¬ failed x ∧ l = (tried ++ [request x])%list ∧
       example_get.2 = Ok d ∧ answered x d).
Proof.
  assert (stable_urls example_Parse) as Hs.
  { intros raw scheme u. unfold example_Parse. destruct (cut_char ":" raw) as [[s t]|] eqn:E; [|done].
    intros [= <- <-]. rewrite E. by eexists. }
  cbv zeta. split; [exact Hs|]. split; [by vm_compute|].
  destruct (GetRetry_attempts example_Parse NewHTTPClient "http://metadata/latest" _ _ Hs
    (exchanges_behaves slow_server (GetRetry example_Parse NewHTTPClient "http://metadata/latest") 0%nat))
    as [(Hl & _)|(scheme & dataURL & replies & wait & H1 & H2 & H3 & H4 & H5 & H6 & H7 & H8)]; [vm_compute in Hl; done|].
  exists scheme, dataURL, replies, wait.
  split_and!; [exact H1|exact H2|exact H3|exact H4|exact H5| |exact H7|exact H8].
  intros i. exact (H6 ltac:(by vm_compute) ltac:(by vm_compute) i).
Defined.
