(* ===== verification/Datasource.v ===== *)
(** * Sources of cloud-init data: the services of metadata
    ([config/cloudinit/datasource/metadata])

    What each provider serves and what becomes of it: the name of the host, the keys, the
    addresses and the network. *)

From stdpp Require Import prelude gmap strings list pretty.
From S2P Require Import Prelude GoStrings GoNet Prog Conc HttpClient.
From S2P Require NetLinks Netconf NetworkCommand OS Util CloudInitExecute.

Local Open Scope string_scope.

(** ** Metadata ([datasource.go]) *)

Abbreviation InterfaceConfig := NetLinks.InterfaceConfig.
Abbreviation interfaces := (gmap string InterfaceConfig).

(** Of [NetworkConfig] the parts that a source sets; [nil] addresses are [None]. *)
Record Metadata := {
  Hostname : string;
  SSHPublicKeys : gmap string string;
  Interfaces : interfaces;
  DNS : NetworkCommand.DNSConfig;
  RootDisk : string;
  PublicIPv4 : option (list Z);
  PublicIPv6 : option (list Z);
  PrivateIPv4 : option (list Z);
  PrivateIPv6 : option (list Z);
}.

Definition no_dns : NetworkCommand.DNSConfig := {| NetworkCommand.Nameservers := []; NetworkCommand.Search := [] |}.

Definition no_metadata : Metadata := {|
  Hostname := ""; SSHPublicKeys := ∅; Interfaces := ∅; DNS := no_dns; RootDisk := "";
  PublicIPv4 := None; PublicIPv6 := None; PrivateIPv4 := None; PrivateIPv6 := None |}.

(** Assignments to the fields. *)
Definition set_hostname (h : string) (m : Metadata) : Metadata := {|
  Hostname := h; SSHPublicKeys := SSHPublicKeys m; Interfaces := Interfaces m; DNS := DNS m; RootDisk := RootDisk m;
  PublicIPv4 := PublicIPv4 m; PublicIPv6 := PublicIPv6 m; PrivateIPv4 := PrivateIPv4 m; PrivateIPv6 := PrivateIPv6 m |}.
Definition set_keys (k : gmap string string) (m : Metadata) : Metadata := {|
  Hostname := Hostname m; SSHPublicKeys := k; Interfaces := Interfaces m; DNS := DNS m; RootDisk := RootDisk m;
  PublicIPv4 := PublicIPv4 m; PublicIPv6 := PublicIPv6 m; PrivateIPv4 := PrivateIPv4 m; PrivateIPv6 := PrivateIPv6 m |}.
Definition set_interfaces (i : interfaces) (m : Metadata) : Metadata := {|
  Hostname := Hostname m; SSHPublicKeys := SSHPublicKeys m; Interfaces := i; DNS := DNS m; RootDisk := RootDisk m;
  PublicIPv4 := PublicIPv4 m; PublicIPv6 := PublicIPv6 m; PrivateIPv4 := PrivateIPv4 m; PrivateIPv6 := PrivateIPv6 m |}.
Definition set_dns (d : NetworkCommand.DNSConfig) (m : Metadata) : Metadata := {|
  Hostname := Hostname m; SSHPublicKeys := SSHPublicKeys m; Interfaces := Interfaces m; DNS := d; RootDisk := RootDisk m;
  PublicIPv4 := PublicIPv4 m; PublicIPv6 := PublicIPv6 m; PrivateIPv4 := PrivateIPv4 m; PrivateIPv6 := PrivateIPv6 m |}.
Definition set_root_disk (d : string) (m : Metadata) : Metadata := {|
  Hostname := Hostname m; SSHPublicKeys := SSHPublicKeys m; Interfaces := Interfaces m; DNS := DNS m; RootDisk := d;
  PublicIPv4 := PublicIPv4 m; PublicIPv6 := PublicIPv6 m; PrivateIPv4 := PrivateIPv4 m; PrivateIPv6 := PrivateIPv6 m |}.
Definition set_public (v4 v6 : option (list Z)) (m : Metadata) : Metadata := {|
  Hostname := Hostname m; SSHPublicKeys := SSHPublicKeys m; Interfaces := Interfaces m; DNS := DNS m; RootDisk := RootDisk m;
  PublicIPv4 := v4; PublicIPv6 := v6; PrivateIPv4 := PrivateIPv4 m; PrivateIPv6 := PrivateIPv6 m |}.
Definition set_private (v4 v6 : option (list Z)) (m : Metadata) : Metadata := {|
  Hostname := Hostname m; SSHPublicKeys := SSHPublicKeys m; Interfaces := Interfaces m; DNS := DNS m; RootDisk := RootDisk m;
  PublicIPv4 := PublicIPv4 m; PublicIPv6 := PublicIPv6 m; PrivateIPv4 := v4; PrivateIPv6 := v6 |}.
Definition set_public4 (ip : option (list Z)) (m : Metadata) : Metadata := set_public ip (PublicIPv6 m) m.
Definition set_private4 (ip : option (list Z)) (m : Metadata) : Metadata := set_private ip (PrivateIPv6 m) m.

(** ** Calls *)

(** What the library of Packet returns. *)
Record AddressInfo := {
  ai_Family : Z; ai_Public : bool; ai_Address : option (list Z); ai_Gateway : option (list Z); ai_NetworkBits : Z }.
Record CurrentDevice := {
  cd_Hostname : string; cd_SSHKeys : list string; cd_MACs : list string; cd_Addresses : list AddressInfo }.

Inductive ds_call :=
  | DHttp (c : http_call)
  | DNet (c : NetLinks.net_call)
  | DOs (c : OS.os_call)
  | PacketMetadata
  | SetProxyEnvironmentVariables
  | TftpNewClient (host : string)
  | TftpReceive (host path : string)
  | TftpWriteTo (host path : string)
  | IsVirtualWorld.

Definition ds_answer (c : ds_call) : Type :=
  match c with
  | DHttp c => http_answer c
  | DNet c => NetLinks.net_ans c
  | DOs c => OS.os_answer c
  | PacketMetadata => option CurrentDevice
  | SetProxyEnvironmentVariables => ()
  | TftpNewClient _ | IsVirtualWorld => bool
  | TftpReceive _ _ => api ()
  | TftpWriteTo _ _ => api string
  end.

Abbreviation ds := (prog ds_answer).
Abbreviation ds_exchange := (@exchange ds_call ds_answer).
Abbreviation ds_log := (list ds_exchange).

Definition ask (c : ds_call) : ds (ds_answer c) := invoke c.

Fixpoint embed_http {A} (p : http A) : ds A :=
  match p with Done r => Done r | Call c k => Call (DHttp c) (λ x, embed_http (k x)) end.
Fixpoint embed_net {A} (p : NetLinks.Net A) : ds A :=
  match p with Done r => Done r | Call c k => Call (DNet c) (λ x, embed_net (k x)) end.
Fixpoint embed_os {A} (p : OS.os A) : ds A :=
  match p with Done r => Done r | Call c k => Call (DOs c) (λ x, embed_os (k x)) end.

Definition lift {A} (r : result A) : ds A := Done r.
Definition fail {A} (msg : string) : ds A := Done (Err msg).

(** The types of errors are told apart where they are returned as values; further on only whether
    there is one matters. *)
Definition or_fail {A} (x : with_err A) : ds A := match x.2 with None => mret x.1 | Some _ => fail "fetch" end.

Section Sources.
(** The parser of URLs. *)
Context (url_Parse : string → option (string * string)).

(** ** The common service ([metadata.go]) *)

Record Service := {
  Root : string;
  Client : HTTPClient;
  APIVersion : string;
  IsAvailableCheckPath : string;
  UserdataPath : string;
  MetadataPath : string;
}.

Definition NewDatasourceWithCheckPath (root apiVersion isAvailableCheckPath userdataPath metadataPath : string)
    (header : list (string * string)) : Service := {|
  Root := if HasSuffix root "/" then root else root +:+ "/"; Client := NewHTTPClientHeader header;
  APIVersion := apiVersion; IsAvailableCheckPath := isAvailableCheckPath; UserdataPath := userdataPath;
  MetadataPath := metadataPath |}.

Definition NewDatasource (root apiVersion userdataPath metadataPath : string) (header : list (string * string)) : Service :=
  NewDatasourceWithCheckPath root apiVersion apiVersion userdataPath metadataPath header.

Definition no_err {A} (x : with_err A) : bool := match x.2 with None => true | _ => false end.

Definition http_get (ms : Service) (url : string) : ds (with_err string) := embed_http (Get url_Parse (Client ms) url).
Definition http_get_retry (ms : Service) (url : string) : ds (with_err string) :=
  embed_http (GetRetry url_Parse (Client ms) url).

Definition IsAvailable (ms : Service) : ds bool :=
  x ← http_get ms (Root ms +:+ IsAvailableCheckPath ms); mret (no_err x).

Definition AvailabilityChanges : bool := true.
Definition ConfigRoot (ms : Service) : string := Root ms.
Definition MetadataURL (ms : Service) : string := Root ms +:+ MetadataPath ms.
Definition UserdataURL (ms : Service) : string := Root ms +:+ UserdataPath ms.

(** What is not found is empty. *)
Definition found_or_empty (x : with_err string) : with_err string :=
  match x.2 with Some ErrNotFound => ("", None) | _ => x end.

Definition FetchData (ms : Service) (url : string) : ds (with_err string) :=
  x ← http_get_retry ms url; mret (found_or_empty x).

Definition FetchUserdata (ms : Service) : ds string := x ← FetchData ms (UserdataURL ms); or_fail x.

(** A line that is too long ends the list with an error, after the lines before it. *)
Definition attributes (x : with_err string) : with_err (list string) :=
  match x.2 with
  | Some e => ([], Some e)
  | None =>
      let '(ls, err) := Util.scan_lines x.1 in
      (ls, match err with Some _ => Some OtherError | None => None end)
  end.

Definition FetchAttributes (ms : Service) (key : string) : ds (with_err (list string)) :=
  x ← FetchData ms (MetadataURL ms +:+ key); mret (attributes x).

Definition first_attribute (x : with_err (list string)) : with_err string :=
  match x with (a :: _, None) => (a, None) | (_, e) => ("", e) end.

Definition FetchAttribute (ms : Service) (key : string) : ds (with_err string) :=
  x ← FetchAttributes ms key; mret (first_attribute x).

(** [if x, err := fetch; err == nil { set } else if err is not ErrNotFound { return err }]. *)
Definition optional {A} (x : with_err A) (set : A → Metadata → Metadata) (md : Metadata) : ds Metadata :=
  match x.2 with
  | None => mret (set x.1 md)
  | Some ErrNotFound => mret md
  | Some _ => fail "fetch"
  end.

(** The first word of a name. *)
Definition first_word (s : string) : string := default "" (head (Split s " ")).

(** A loop that stores the elements of a list under the numbers from [n] on. *)
Fixpoint number_from {A B} (key : Z → string) (f : A → B) (n : Z) (l : list A) (m : gmap string B) : gmap string B :=
  match l with
  | [] => m
  | x :: l => number_from key f (n + 1) l (<[key n := f x]> m)
  end.

(** A list of keys, each under its position. *)
Definition numbered_keys (keys : list string) : gmap string string := number_from Itoa id 0 keys ∅.

(** ** Amazon EC2 ([ec2/metadata.go]) *)

Definition ec2_DefaultAddress : string := "http://169.254.169.254/".
Definition defaultXVRootDisk : string := "/dev/xvda".
Definition defaultNVMeRootDisk : string := "/dev/nvme0n1".
Definition nvmeInstanceTypes : list string := ["c5"; "c5d"; "i3.metal"; "m5"; "m5d"; "r5"; "r5d"; "t3"; "z1d"].

Definition ec2_NewDatasource (root : string) : Service :=
  NewDatasource (if String.eqb root "" then ec2_DefaultAddress else root) "latest/" "latest/user-data" "latest/meta-data/" [].

(** The identifier of each name; of lines with the same name the last is taken. *)
Definition key_id (ids : gmap string string) (keyname : string) : result (gmap string string) :=
  match SplitN keyname "=" 2 with
  | [id; name] => Ok (<[name := id]> ids)
  | _ => Err "malformed public key"
  end.

Fixpoint ec2_keys (ms : Service) (ids : list (string * string)) (keys : gmap string string) : ds (gmap string string) :=
  match ids with
  | [] => mret keys
  | (name, id) :: ids =>
      x ← FetchAttribute ms ("public-keys/" +:+ id +:+ "/openssh-key");
      sshkey ← or_fail x;
      ec2_keys ms ids (<[name := sshkey]> keys)
  end.

(** The names, visited in any order. *)
Definition fetch_keys (ms : Service) (x : with_err (list string)) (md : Metadata) : ds Metadata :=
  match x.2 with
  | None =>
      keyIDs ← lift (foldM key_id ∅ x.1);
      order ← ask (DNet (NetLinks.RangeOpts keyIDs));
      keys ← ec2_keys ms (proj1_sig (order : {l | enumerates l keyIDs})) ∅;
      mret (set_keys keys md)
  | Some ErrNotFound => mret md
  | Some _ => fail "fetch"
  end.

Definition dhcp_interface : InterfaceConfig := {|
  NetLinks.Match := ""; NetLinks.DHCP := true; NetLinks.DHCPArgs := ""; NetLinks.Address := ""; NetLinks.Addresses := [];
  NetLinks.IPV4LL := false; NetLinks.Gateway := ""; NetLinks.GatewayIpv6 := ""; NetLinks.MTU := 0; NetLinks.Bridge := "";
  NetLinks.Bond := ""; NetLinks.BondOpts := ∅; NetLinks.PostUp := []; NetLinks.PreUp := []; NetLinks.Vlans := "";
  NetLinks.WifiNetwork := "" |}.

(** The tests of the errors are the wrong way round. *)
Fixpoint ec2_macs (ms : Service) (macs : list string) (ifs : interfaces) : ds interfaces :=
  match macs with
  | [] => mret ifs
  | mac :: macs =>
      x ← FetchAttribute ms ("network/interfaces/macs/" +:+ mac +:+ "/device-number");
      ec2_macs ms macs (if no_err (x : with_err string) then ifs else <["eth" +:+ x.1 := dhcp_interface]> ifs)
  end.

Definition ec2_interfaces (ms : Service) : ds interfaces :=
  x ← FetchAttributes ms "network/interfaces/macs";
  if no_err (x : with_err (list string)) then mret ∅ else ec2_macs ms x.1 ∅.

Definition ec2_root_disk (instanceType : string) : string :=
  if existsb (HasPrefix instanceType) nvmeInstanceTypes then defaultNVMeRootDisk else defaultXVRootDisk.

Definition ec2_FetchMetadata (ms : Service) : ds Metadata :=
  keynames ← FetchAttributes ms "public-keys";
  md ← fetch_keys ms keynames no_metadata;
  hostname ← FetchAttribute ms "hostname";
  md ← optional hostname (λ h, set_hostname (first_word h)) md;
  localAddr ← FetchAttribute ms "local-ipv4";
  md ← optional localAddr (λ a, set_private4 (ParseIP a)) md;
  publicAddr ← FetchAttribute ms "public-ipv4";
  md ← optional publicAddr (λ a, set_public4 (ParseIP a)) md;
  ifs ← ec2_interfaces ms;
  instanceType ← FetchAttribute ms "instance-type";
  optional instanceType (λ t, set_root_disk (ec2_root_disk t)) (set_root_disk defaultXVRootDisk (set_interfaces ifs md)).

(** ** CloudStack and Exoscale ([cloudstack/metadata.go], [exoscale/metadata.go]) *)

Definition serverIdentifier : string := "dhcp_server_identifier".

Definition cloudstack_service (server : string) : Service :=
  NewDatasourceWithCheckPath server "latest/" "latest/meta-data/" "latest/user-data" "latest/meta-data/" [].

(** The servers that the leases of the links name. *)
Fixpoint lease_servers (links : list NetLinks.Link) : ds (list string) :=
  match links with
  | [] => mret []
  | link :: links =>
      lease ← embed_net (Netconf.GetDhcpLease (NetLinks.Name link));
      rest ← lease_servers links;
      mret (match (lease : gmap string string) !! serverIdentifier with
            | Some server => ("http://" +:+ server +:+ "/") :: rest
            | None => rest
            end)
  end.

Definition cloudstack_NewDatasource (root : string) : ds (list Service) :=
  roots ← (if String.eqb root "" then
             links ← attempt (embed_net Netconf.GetValidLinkList);
             match links with Ok links => lease_servers links | _ => mret [] end
           else mret [root]);
  mret (cloudstack_service <$> roots).

(** Each line of public-keys is a key. *)
Definition line_keys (x : with_err (list string)) (md : Metadata) : ds Metadata :=
  optional x (λ keys, set_keys (numbered_keys keys)) md.

Definition cloudstack_FetchMetadata (ms : Service) : ds Metadata :=
  sshKeys ← FetchAttributes ms "public-keys";
  md ← line_keys sshKeys no_metadata;
  hostname ← FetchAttribute ms "local-hostname";
  md ← optional hostname (λ h, set_hostname (first_word h)) md;
  localAddr ← FetchAttribute ms "local-ipv4";
  md ← optional localAddr (λ a, set_private4 (ParseIP a)) md;
  publicAddr ← FetchAttribute ms "public-ipv4";
  optional publicAddr (λ a, set_public4 (ParseIP a)) md.

Definition exoscale_NewDatasource (root : string) : Service :=
  NewDatasourceWithCheckPath (if String.eqb root "" then "http://169.254.169.254/" else root)
    "1.0/" "1.0/meta-data/" "1.0/user-data" "1.0/meta-data/" [].

Definition exoscale_IsAvailable (ms : Service) : ds bool :=
  x ← http_get_retry ms (Root ms +:+ IsAvailableCheckPath ms); mret (no_err x).

(** The same steps as for CloudStack. *)
Definition exoscale_FetchMetadata (ms : Service) : ds Metadata := cloudstack_FetchMetadata ms.

(** ** Aliyun ([aliyun/metadata.go]) *)

Definition aliyun_NewDatasource (root : string) : Service :=
  NewDatasource (if String.eqb root "" then "http://100.100.100.200/" else root)
    "2016-01-01/" "2016-01-01/user-data/" "2016-01-01/meta-data/" [].

(** All slashes at the end. *)
Definition key_name (k : string) : string := TrimRight k "/".

Fixpoint aliyun_keys (ms : Service) (names : list string) (keys : gmap string string) : ds (gmap string string) :=
  match names with
  | [] => mret keys
  | k :: names =>
      let k := key_name k in
      x ← FetchAttribute ms ("public-keys/" +:+ k +:+ "/openssh-key");
      sshkey ← or_fail x;
      aliyun_keys ms names (<[k := sshkey]> keys)
  end.

Definition aliyun_FetchMetadata (ms : Service) : ds Metadata :=
  x ← FetchAttributes ms "";
  rootContents ← or_fail x;
  if negb (existsb (String.eqb "public-keys/") rootContents) then fail "The public-keys should be enable"
  else
    x ← FetchAttributes ms "public-keys/";
    keynames ← or_fail x;
    keys ← aliyun_keys ms keynames ∅;
    x ← FetchAttribute ms "hostname";
    hostname ← or_fail x;
    mret (set_hostname hostname (set_keys keys no_metadata)).

(** ** Google Compute Engine ([gce/metadata.go]) *)

Definition gce_NewDatasource (root : string) : Service :=
  NewDatasource (if String.eqb root "" then "http://metadata.google.internal/" else root)
    "computeMetadata/v1/" "computeMetadata/v1/instance/attributes/user-data" "computeMetadata/v1/" [("Metadata-Flavor", "Google")].

Definition fetchString (ms : Service) (key : string) : ds string :=
  x ← FetchData ms (MetadataURL ms +:+ key); or_fail x.

Definition parse_ip (str : string) : result (option (list Z)) :=
  if String.eqb str "" then Ok None
  else match ParseIP str with Some ip => Ok (Some ip) | None => Err "couldn't parse as IP address" end.

Definition fetchIP (ms : Service) (key : string) : ds (option (list Z)) :=
  str ← fetchString ms key; lift (parse_ip str).

(** The key of a line user:key. *)
Definition gce_key (keyString : string) : option string :=
  match SplitN keyString ":" 2 with
  | [_; key] => let key := TrimSpace key in if String.eqb key "" then None else Some key
  | _ => None
  end.

Definition gce_key_strings (projectSSHKeys instanceSSHKeys blockProjectSSHKeys : string) : list string :=
  (Split instanceSSHKeys "010" ++ (if String.eqb blockProjectSSHKeys "true" then [] else Split projectSSHKeys "010"))%list.

(** The loop over the lines with its counter. *)
Definition gce_add_key (st : gmap string string * Z) (keyString : string) : gmap string string * Z :=
  match gce_key keyString with
  | Some key => (<[Itoa st.2 := key]> st.1, (st.2 + 1)%Z)
  | None => st
  end.

Definition gce_keys (keyStrings : list string) : gmap string string := (foldl gce_add_key (∅, 0%Z) keyStrings).1.

Definition gce_FetchMetadata (ms : Service) : ds Metadata :=
  public ← fetchIP ms "instance/network-interfaces/0/access-configs/0/external-ip";
  local ← fetchIP ms "instance/network-interfaces/0/ip";
  hostname ← fetchString ms "instance/hostname";
  projectSSHKeys ← fetchString ms "project/attributes/ssh-keys";
  instanceSSHKeys ← fetchString ms "instance/attributes/ssh-keys";
  blockProjectSSHKeys ← fetchString ms "instance/attributes/block-project-ssh-keys";
  mret (set_keys (gce_keys (gce_key_strings projectSSHKeys instanceSSHKeys blockProjectSSHKeys))
         (set_public4 public (set_private4 local (set_hostname hostname no_metadata)))).

Definition gce_FetchUserdata (ms : Service) : ds string :=
  x ← FetchData ms (UserdataURL ms);
  data ← or_fail x;
  if String.eqb data "" then fetchString ms "instance/attributes/startup-script" else mret data.

(** ** DigitalOcean ([digitalocean/metadata.go]) *)

Record Address := { IPAddress : string; Netmask : string; Cidr : Z; Gateway : string }.
Record Interface := { IPv4 : option Address; IPv6 : option Address; AnchorIPv4 : option Address }.
Record DoMetadata := {
  do_Hostname : string;
  Public : list Interface;
  Private : list Interface;
  do_PublicKeys : list string;
  do_Nameservers : list string;
}.

Definition do_NewDatasource (root : string) : Service :=
  NewDatasource (if String.eqb root "" then "http://169.254.169.254/" else root)
    "metadata/v1" "metadata/v1/user-data" "metadata/v1.json" [].

(** [net.CIDRMask(n, 32)]. *)
Definition cidr_mask (n : Z) : option (list Z) :=
  if ((0 <=? n) && (n <=? 32))%Z then Some (CIDRMask n 4) else None.

Definition ipmask (addr : Address) : string :=
  IPNet_String (ParseIP (IPAddress addr))
    (if String.eqb (Netmask addr) "" then cidr_mask (Cidr addr) else ParseIP (Netmask addr)).

Definition address_ip (a : option Address) : option (list Z) := a ≫= λ a, ParseIP (IPAddress a).

(** The addresses of the first interface. *)
Definition first_ips (ifs : list Interface) : option (list Z) * option (list Z) :=
  match ifs with [] => (None, None) | i :: _ => (address_ip (IPv4 i), address_ip (IPv6 i)) end.

Definition ip6_text (a : Address) : string := IPAddress a +:+ "/" +:+ Itoa (Cidr a).

(** The configuration of one interface. *)
Definition do_network (eth : Interface) : InterfaceConfig := {|
  NetLinks.Match := ""; NetLinks.DHCP := false; NetLinks.DHCPArgs := ""; NetLinks.Address := "";
  NetLinks.Addresses := ((match IPv4 eth with Some a => [ipmask a] | None => [] end) ++
                         (match AnchorIPv4 eth with Some a => [ipmask a] | None => [] end) ++
                         (match IPv6 eth with Some a => [ip6_text a] | None => [] end))%list;
  NetLinks.IPV4LL := false; NetLinks.Gateway := match IPv4 eth with Some a => Gateway a | None => "" end;
  NetLinks.GatewayIpv6 := match IPv6 eth with Some a => Gateway a | None => "" end; NetLinks.MTU := 0; NetLinks.Bridge := "";
  NetLinks.Bond := ""; NetLinks.BondOpts := ∅; NetLinks.PostUp := []; NetLinks.PreUp := []; NetLinks.Vlans := "";
  NetLinks.WifiNetwork := "" |}.

(** What the loops carry: the metadata and the number of the next interface. *)
Definition add_eth (eth : Interface) (st : Metadata * Z) : Metadata * Z :=
  (set_interfaces (<["eth" +:+ Itoa st.2 := do_network eth]> (Interfaces st.1)) st.1, (st.2 + 1)%Z).

(** An address that is not set yet. *)
Definition or_ip (ip : option (list Z)) (a : option Address) : option (list Z) :=
  match ip, a with None, Some a => ParseIP (IPAddress a) | _, _ => ip end.

Definition do_public (st : Metadata * Z) (eth : Interface) : result (Metadata * Z) :=
  let '(md, n) := st in
  Ok (add_eth eth (set_public (or_ip (PublicIPv4 md) (IPv4 eth)) (or_ip (PublicIPv6 md) (IPv6 eth)) md, n)).

(** The private IPv4 address is taken from [IPv6], which can be a nil pointer. *)
Definition do_private (st : Metadata * Z) (eth : Interface) : result (Metadata * Z) :=
  let '(md, n) := st in
  v4 ← (match IPv4 eth, PrivateIPv4 md with
        | Some _, None =>
            match IPv6 eth with Some a => Ok (ParseIP (IPAddress a)) | None => Panic "invalid memory address or nil pointer dereference" end
        | _, ip => Ok ip
        end);
  Ok (add_eth eth (set_private v4 (or_ip (PrivateIPv6 md) (IPv6 eth)) md, n)).

Definition do_metadata (m : DoMetadata) : result Metadata :=
  let public := first_ips (Public m) in
  let private := first_ips (Private m) in
  let md := set_private private.1 private.2 (set_public public.1 public.2 no_metadata) in
  st ← foldM do_public (md, 0%Z) (Public m);
  st ← foldM do_private st (Private m);
  Ok (set_keys (numbered_keys (do_PublicKeys m)) (set_hostname (do_Hostname m)
        (set_dns {| NetworkCommand.Nameservers := do_Nameservers m; NetworkCommand.Search := [] |} st.1))).

Section Json.
(** The parsers of the documents. *)
Context (do_Unmarshal : string → option DoMetadata).

Definition do_FetchMetadata (ms : Service) : ds Metadata :=
  x ← FetchData ms (MetadataURL ms);
  data ← or_fail x;
  if String.eqb data "" then mret no_metadata
  else match do_Unmarshal data with None => fail "json" | Some m => lift (do_metadata m) end.
End Json.

(** ** Azure ([azure/metadata.go]) *)

Record AzureIP := { PrivateIPAddress : string; PublicIPAddress : string }.
(** Of the interfaces, the addresses of either family. *)
Record AzureInstance := {
  az_Name : string;
  az_PublicKeys : list string;
  az_Interfaces : list (list AzureIP * list AzureIP);
}.

Definition azure_NewDatasource (root : string) : Service :=
  NewDatasource (if String.eqb root "" then "http://169.254.169.254/metadata/" else root)
    "instance?api-version=2019-02-01&format=json" "" "" [("Metadata", "true")].

Definition azure_MetadataURL (ms : Service) : string := Root ms +:+ "instance?api-version=2019-02-01&format=json".
Definition azure_UserdataURL (ms : Service) : string :=
  Root ms +:+ "instance/compute/customData?api-version=2019-02-01&format=text".
Definition azure_ConfigRoot (ms : Service) : string := Root ms +:+ "instance".

Definition azure_ips (i : list AzureIP * list AzureIP) (md : Metadata) : Metadata :=
  let md := match i.1 with
            | a :: _ => set_private4 (ParseIP (PrivateIPAddress a)) (set_public4 (ParseIP (PublicIPAddress a)) md)
            | [] => md
            end in
  match i.2 with
  | a :: _ => set_private (PrivateIPv4 md) (ParseIP (PrivateIPAddress a)) (set_public (PublicIPv4 md) (ParseIP (PublicIPAddress a)) md)
  | [] => md
  end.

Definition azure_metadata (instance : AzureInstance) : Metadata :=
  let md := set_hostname (az_Name instance) no_metadata in
  let md := match az_Interfaces instance with i :: _ => azure_ips i md | [] => md end in
  set_keys (numbered_keys (az_PublicKeys instance)) md.

Definition azure_FetchMetadata (azure_Unmarshal : string → option AzureInstance) (ms : Service) : ds Metadata :=
  x ← FetchData ms (azure_MetadataURL ms);
  d ← or_fail x;
  match azure_Unmarshal d with None => fail "json" | Some instance => mret (azure_metadata instance) end.

Definition azure_FetchUserdata (ms : Service) : ds string :=
  x ← FetchData ms (azure_UserdataURL ms);
  d ← or_fail x;
  lift (CloudInitExecute.DecodeBase64Content d).

(** ** Packet ([packet/metadata.go]) *)

Definition packet_NewDatasource (root : string) : Service :=
  NewDatasource (if String.eqb root "" then "https://metadata.packet.net/" else root) "" "userdata" "metadata" [].

Definition bond_opts : gmap string string :=
  list_to_map [("lacp_rate", "1"); ("xmit_hash_policy", "layer3+4"); ("downdelay", "200"); ("updelay", "200");
               ("miimon", "100"); ("mode", "4")].

Definition bond_config (addresses : list string) (gateway gateway6 : string) (postUp : list string) : InterfaceConfig := {|
  NetLinks.Match := ""; NetLinks.DHCP := false; NetLinks.DHCPArgs := ""; NetLinks.Address := "";
  NetLinks.Addresses := addresses; NetLinks.IPV4LL := false; NetLinks.Gateway := gateway; NetLinks.GatewayIpv6 := gateway6;
  NetLinks.MTU := 0; NetLinks.Bridge := ""; NetLinks.Bond := ""; NetLinks.BondOpts := bond_opts; NetLinks.PostUp := postUp;
  NetLinks.PreUp := []; NetLinks.Vlans := ""; NetLinks.WifiNetwork := "" |}.

Definition bond_slave : InterfaceConfig := {|
  NetLinks.Match := ""; NetLinks.DHCP := false; NetLinks.DHCPArgs := ""; NetLinks.Address := ""; NetLinks.Addresses := [];
  NetLinks.IPV4LL := false; NetLinks.Gateway := ""; NetLinks.GatewayIpv6 := ""; NetLinks.MTU := 0; NetLinks.Bridge := "";
  NetLinks.Bond := "bond0"; NetLinks.BondOpts := ∅; NetLinks.PostUp := []; NetLinks.PreUp := []; NetLinks.Vlans := "";
  NetLinks.WifiNetwork := "" |}.

Definition has_gateway (a : AddressInfo) : bool := match ai_Gateway a with Some (_ :: _) => true | _ => false end.

(** One address: the bond gets it, perhaps a gateway and a route. *)
Definition packet_address (c : InterfaceConfig) (a : AddressInfo) : InterfaceConfig :=
  let gw := IP_String (ai_Gateway a) in
  let v4 := (ai_Family a =? 4)%Z in
  bond_config (NetLinks.Addresses c ++ [IP_String (ai_Address a) +:+ "/" +:+ Itoa (ai_NetworkBits a)])%list
    (if has_gateway a && v4 && ai_Public a then gw else NetLinks.Gateway c)
    (if has_gateway a && negb v4 then gw else NetLinks.GatewayIpv6 c)
    (NetLinks.PostUp c ++ (if v4 && HasPrefix gw "10." then ["ip route add 10.0.0.0/8 via " +:+ gw] else []))%list.

Definition packet_interfaces (m : CurrentDevice) : interfaces :=
  <["bond0" := foldl packet_address (bond_config [] "" "" []) (cd_Addresses m)]>
    (foldl (λ ifs mac, <["mac=" +:+ mac := bond_slave]> ifs) ∅ (cd_MACs m)).

Definition packet_metadata (m : CurrentDevice) : Metadata :=
  set_interfaces (packet_interfaces m) (set_keys (numbered_keys (cd_SSHKeys m)) (set_hostname (cd_Hostname m) no_metadata)).

(** The root of the service is not used for it. *)
Definition packet_FetchMetadata : ds Metadata :=
  m ← ask PacketMetadata;
  match (m : option CurrentDevice) with None => fail "packet" | Some m => mret (packet_metadata m) end.
End Sources.

(** ** Numbered entries *)

Lemma Itoa_injective (m n : Z) : Itoa m = Itoa n → m = n.
Proof. apply (inj pretty). Qed.

Lemma eth_inj (m n : Z) : "eth" +:+ Itoa m = "eth" +:+ Itoa n → m = n.
Proof. intros [= E]. by apply Itoa_injective. Qed.

Lemma number_from_app {A B} key (f : A → B) n l1 l2 m :
  number_from key f n (l1 ++ l2) m = number_from key f (n + Z.of_nat (length l1)) l2 (number_from key f n l1 m).
Proof.
  revert n m. induction l1 as [|x l1 IH]; intros n m; cbn [app number_from length].
  - by rewrite Z.add_0_r.
  - rewrite IH. f_equal. lia.
Qed.

Lemma number_from_before {A B} key (f : A → B) n l m k :
  (∀ i, (n ≤ i < n + Z.of_nat (length l))%Z → key i ≠ k) → number_from key f n l m !! k = m !! k.
Proof.
  revert n m. induction l as [|x l IH]; intros n m Hk; [done|]. cbn [number_from]. rewrite IH.
  - apply lookup_insert_ne, Hk. cbn. lia.
  - intros i Hi. apply Hk. cbn. lia.
Qed.

Lemma number_from_lookup {A B} key (f : A → B) n l m i x :
  (∀ a b, key a = key b → a = b) →
  l !! i = Some x → number_from key f n l m !! key (n + Z.of_nat i)%Z = Some (f x).
Proof.
  intros Hinj. revert n m i. induction l as [|y l IH]; intros n m [|i]; cbn [lookup list_lookup number_from]; try done.
  - intros [= ->]. rewrite Z.add_0_r, number_from_before; [by simplify_map_eq|].
    intros i Hi E%Hinj. lia.
  - intros H. replace (n + Z.of_nat (S i))%Z with (n + 1 + Z.of_nat i)%Z by lia. by apply IH.
Qed.

Lemma number_from_dom {A B} key (f : A → B) n l m k :
  is_Some (number_from key f n l m !! k) →
  is_Some (m !! k) ∨ ∃ i, (i < length l)%nat ∧ k = key (n + Z.of_nat i)%Z.
Proof.
  revert n m. induction l as [|x l IH]; intros n m; cbn [number_from]; [by left|].
  intros [[y Hy]|(i & Hi & ->)]%IH.
  - destruct (decide (k = key n)) as [->|Hne].
    + right. exists 0%nat. split; [cbn; lia|]. by rewrite Z.add_0_r.
    + left. rewrite lookup_insert_ne in Hy by done. by exists y.
  - right. exists (S i). split; [cbn; lia|]. f_equal. lia.
Qed.

(** ** The interfaces of DigitalOcean *)

Abbreviation eth_name := (λ n, "eth" +:+ Itoa n).

Lemma do_public_fold l md n md' n' :
  foldM do_public (md, n) l = Ok (md', n') →
  n' = (n + Z.of_nat (length l))%Z ∧ Interfaces md' = number_from eth_name do_network n l (Interfaces md) ∧
  PrivateIPv4 md' = PrivateIPv4 md.
Proof.
  revert md n. induction l as [|e l IH]; intros md n; rewrite ?foldM_cons; [intros [= <- <-]; cbn; split_and!; [lia|done|done]|].
  cbn [do_public]. unfold add_eth. cbn [fst snd]. intros (-> & -> & ->)%IH. cbn. split_and!; [lia|done|done].
Qed.

Lemma do_private_fold l md n md' n' :
  foldM do_private (md, n) l = Ok (md', n') →
  n' = (n + Z.of_nat (length l))%Z ∧ Interfaces md' = number_from eth_name do_network n l (Interfaces md).
Proof.
  revert md n. induction l as [|e l IH]; intros md n; rewrite ?foldM_cons; [intros [= <- <-]; cbn; split; [lia|done]|].
  destruct (do_private (md, n) e) as [[md1 n1]| |] eqn:E; try done. intros (-> & ->)%IH. revert E.
  unfold do_private. match goal with |- (?v ≫= _) = _ → _ => destruct v end; try done. intros [= <- <-].
  cbn. split; [lia|done].
Qed.

(** A private interface with an IPv4 address and no IPv6 address, when no address is set before it. *)
Definition nil_private (p : option (list Z)) (l : list Interface) : Prop :=
  p = None ∧ ∃ l1 e l2, l = (l1 ++ e :: l2)%list ∧ is_Some (IPv4 e) ∧ IPv6 e = None ∧
    ∀ e', e' ∈ l1 → is_Some (IPv4 e') → address_ip (IPv6 e') = None.

Lemma nil_private_cons p e l :
  nil_private p (e :: l) ↔
  p = None ∧ ((is_Some (IPv4 e) ∧ IPv6 e = None) ∨ ((is_Some (IPv4 e) → address_ip (IPv6 e) = None) ∧ nil_private None l)).
Proof.
  split.
  - intros [-> ([|e1 l1] & e2 & l2 & [= -> ->] & H4 & H6 & Hl)]; (split; [done|]); [by left|right].
    split; [apply Hl; left|]. split; [done|]. exists l1, e2, l2. split_and!; try done. intros e' He'. apply Hl. by right.
  - intros [-> [[H4 H6]|[He [_ (l1 & e2 & l2 & -> & H4 & H6 & Hl)]]]]; (split; [done|]).
    + exists [], e, l. split_and!; try done. by intros e' ?%elem_of_nil.
    + exists (e :: l1), e2, l2. split_and!; try done. intros e' [->|He']%elem_of_cons; [done|by apply Hl].
Qed.

Lemma do_private_panics l md n :
  match foldM do_private (md, n) l with
  | Ok _ => ¬ nil_private (PrivateIPv4 md) l
  | Err _ => False
  | Panic _ => nil_private (PrivateIPv4 md) l
  end.
Proof.
  revert md n. induction l as [|e l IH]; intros md n; rewrite ?foldM_cons.
  { intros [_ ([|? ?] & ? & ? & [=] & _)]. }
  cbn [do_private].
  destruct (IPv4 e) as [a4|] eqn:E4; [destruct (PrivateIPv4 md) as [ip|] eqn:Ep; [|destruct (IPv6 e) as [a6|] eqn:E6]|].
  - unfold add_eth. cbn. match goal with |- context [foldM do_private (?md', _) l] => specialize (IH md' (n + 1)%Z) end. cbn in IH.
    destruct (foldM _ _ _); [|done|]; [intros [[=] _]%nil_private_cons|by destruct IH].
  - unfold add_eth. cbn. match goal with |- context [foldM do_private (?md', _) l] => specialize (IH md' (n + 1)%Z) end. cbn in IH.
    destruct (foldM _ _ _); [|done|].
    + intros [_ [[_ H]|[He H]]]%nil_private_cons; [congruence|]. apply IH. rewrite E4, E6 in He. cbn in He.
      by rewrite He.
    + destruct IH as [Hp IH]. apply nil_private_cons. split; [done|]. right. rewrite E6. cbn. split; [done|]. by split.
  - cbn. apply nil_private_cons. split; [done|]. left. by rewrite E4.
  - unfold add_eth. cbn. match goal with |- context [foldM do_private (?md', _) l] => specialize (IH md' (n + 1)%Z) end. cbn in IH.
    destruct (foldM _ _ _); [|done|].
    + intros [Hp [[[? H] _]|[_ H]]]%nil_private_cons; [congruence|]. apply IH. by rewrite Hp.
    + apply nil_private_cons. destruct IH as [Hp IH]. split; [done|]. right. rewrite E4. split; [by intros [? [=]]|by split].
Qed.

Lemma do_public_ok l md n : ∃ md' n', foldM do_public (md, n) l = Ok (md', n').
Proof.
  revert md n. induction l as [|e l IH]; intros md n; rewrite ?foldM_cons; [by do 2 eexists|]. apply IH.
Qed.

(** C40: The interfaces of a DigitalOcean droplet are eth0, eth1 and so on: the public ones in their order and
    then the private ones, each with its address, its anchor and its IPv6 address and their
    gateways, without DHCP; no other is configured. The description is
    refused by a panic, a nil pointer, exactly when a private interface has an IPv4 address and
    no IPv6 address and no private address is known before it. *)
Theorem do_metadata_interfaces m :
  match do_metadata m with
  | Ok md =>
      (∀ i e, (Public m ++ Private m)%list !! i = Some e →
         Interfaces md !! ("eth" +:+ Itoa (Z.of_nat i)) = Some (do_network e) ∧
         NetLinks.DHCP (do_network e) = false ∧
         NetLinks.Addresses (do_network e) =
           (option_list (ipmask <$> IPv4 e) ++ option_list (ipmask <$> AnchorIPv4 e) ++
            option_list (ip6_text <$> IPv6 e))%list ∧
         NetLinks.Gateway (do_network e) = from_option Gateway "" (IPv4 e) ∧
         NetLinks.GatewayIpv6 (do_network e) = from_option Gateway "" (IPv6 e)) ∧
      (∀ k, is_Some (Interfaces md !! k) →
         ∃ i, (i < length (Public m ++ Private m)%list)%nat ∧ k = "eth" +:+ Itoa (Z.of_nat i)) ∧
      ¬ nil_private (first_ips (Private m)).1 (Private m)
  | Err _ => False
  | Panic _ => nil_private (first_ips (Private m)).1 (Private m)
  end.
Proof.
  unfold do_metadata. set (md0 := set_private _ _ _).
  destruct (do_public_ok (Public m) md0 0) as (md1 & n1 & E1). rewrite E1. cbn [mbind result_bind].
  destruct (do_public_fold _ _ _ _ _ E1) as (-> & HI & HP).
  pose proof (do_private_panics (Private m) md1 (0 + Z.of_nat (length (Public m)))) as Hp.
  destruct (foldM do_private _ _) as [[md2 n2]|e|e] eqn:E2; cbn [mbind result_bind]; rewrite ?HP in Hp; [|done|exact Hp].
  split_and!; [| |exact Hp].
  - apply do_private_fold in E2 as [_ E2]. cbn. rewrite E2, HI, <- number_from_app.
    intros i e Hi. split; [rewrite <- (Z.add_0_l (Z.of_nat i)); by apply (number_from_lookup eth_name); [apply eth_inj|]|].
    by destruct (IPv4 e), (AnchorIPv4 e), (IPv6 e) eqn:E6; unfold do_network; rewrite ?E6.
  - apply do_private_fold in E2 as [_ E2]. cbn. rewrite E2, HI, <- number_from_app.
    intros k [[x Hx]|(i & Hi & ->)]%number_from_dom; [done|]. by exists i.
Qed.

(** Two private interfaces, the first with an address of IPv6 only. *)
Example do_metadata_panics :
  do_metadata {| do_Hostname := "droplet"; Public := [];
    Private := [{| IPv4 := None; IPv6 := Some {| IPAddress := "fd00::2"; Netmask := ""; Cidr := 64; Gateway := "fd00::1" |};
                   AnchorIPv4 := None |};
                {| IPv4 := Some {| IPAddress := "10.0.0.2"; Netmask := "255.255.0.0"; Cidr := 0; Gateway := "10.0.0.1" |};
                   IPv6 := None; AnchorIPv4 := None |}];
    do_PublicKeys := []; do_Nameservers := [] |} = Panic "invalid memory address or nil pointer dereference".
Proof. by vm_compute. Qed.

(** ** Keys *)

Lemma numbered_keys_lookup keys i : numbered_keys keys !! Itoa (Z.of_nat i) = keys !! i.
Proof.
  unfold numbered_keys. destruct (keys !! i) as [k|] eqn:E.
  - rewrite <- (Z.add_0_l (Z.of_nat i)). by apply (number_from_lookup Itoa id); [apply Itoa_injective|].
  - apply eq_None_not_Some. intros [[? H]|(j & Hj & Hi%Itoa_injective)]%number_from_dom; [by rewrite lookup_empty in H|].
    apply lookup_ge_None in E. lia.
Qed.

Lemma gce_add_keys lines m n :
  foldl gce_add_key (m, n) lines =
  (number_from Itoa id n (omap gce_key lines) m, (n + Z.of_nat (length (omap gce_key lines)))%Z).
Proof.
  revert m n. induction lines as [|l lines IH]; intros m n; cbn [foldl]; [cbn; f_equal; lia|].
  unfold gce_add_key at 2. cbn [omap list_omap]. destruct (gce_key l) as [k|]; cbn [fst snd]; rewrite IH; [|done].
  cbn [number_from length]. f_equal. lia.
Qed.

(** The keys of a Google instance are those of its lines, numbered; the keys of the project follow unless the
    instance refuses them. *)
Lemma gce_keys_lookup lines i : gce_keys lines !! Itoa (Z.of_nat i) = omap gce_key lines !! i.
Proof. unfold gce_keys. rewrite gce_add_keys. apply numbered_keys_lookup. Qed.

Lemma gce_keys_blocked project instance :
  gce_key_strings project instance "true" = Split instance "010".
Proof. unfold gce_key_strings. cbn. by rewrite app_nil_r. Qed.

(** ** What is fetched *)

Section Fetch.
Context (url_Parse : string → option (string * string)).

(** Nothing that is fetched is missing: the code that handles [ErrNotFound] never runs. *)
Lemma FetchAttributes_found ms key l x :
  behaves (FetchAttributes url_Parse ms key) l (Ok x) → x.2 ≠ Some ErrNotFound.
Proof using Type.
  intros (l1 & l2 & d & -> & H & [_ [= ->]])%behaves_bind_ok.
  apply behaves_bind_ok in H as (l3 & l4 & d' & -> & _ & [_ [= ->]]).
  unfold attributes, found_or_empty. destruct d' as [data [e|]]; cbn [fst snd].
  - by destruct e.
  - by destruct (Util.scan_lines data) as [ls [e|]].
Qed.

Lemma FetchAttribute_failed ms key l x :
  behaves (FetchAttribute url_Parse ms key) l (Ok x) → no_err x = false → x.1 = "".
Proof using Type.
  intros (l1 & l2 & d & -> & _ & [_ [= ->]])%behaves_bind_ok. by destruct d as [[|a ls] [e|]].
Qed.

Lemma ec2_macs_eth ms macs ifs l ifs' :
  (∀ k, is_Some (ifs !! k) → k = "eth") →
  behaves (ec2_macs url_Parse ms macs ifs) l (Ok ifs') → ∀ k, is_Some (ifs' !! k) → k = "eth".
Proof using Type.
  revert ifs l. induction macs as [|mac macs IH]; intros ifs l Hifs; cbn [ec2_macs]; [by intros [_ [= ->]]|].
  intros (l1 & l2 & x & -> & Hx & H)%behaves_bind_ok. eapply IH; [|exact H]. intros k.
  destruct (no_err x) eqn:E; [apply Hifs|]. rewrite (FetchAttribute_failed _ _ _ _ Hx E).
  intros [? [[<- _]|[_ Hk]]%lookup_insert_Some]; [done|]. apply Hifs. by eexists.
Qed.

(** No link of an EC2 instance is ever configured: there is at most an entry for the name eth, which no
    link has. *)
Lemma ec2_interfaces_eth ms l ifs :
  behaves (ec2_interfaces url_Parse ms) l (Ok ifs) → ∀ k, is_Some (ifs !! k) → k = "eth".
Proof using Type.
  intros (l1 & l2 & x & -> & _ & H)%behaves_bind_ok. destruct (no_err x).
  - destruct H as [_ [= ->]]. by intros k [? ?%lookup_empty_Some].
  - eapply ec2_macs_eth; [|exact H]. by intros k [? ?%lookup_empty_Some].
Qed.
End Fetch.

(** ** The network of Packet *)

Lemma packet_address_fold as_ c :
  let c' := foldl packet_address c as_ in
  NetLinks.Addresses c' = (NetLinks.Addresses c ++ ((λ a, IP_String (ai_Address a) +:+ "/" +:+ Itoa (ai_NetworkBits a)) <$> as_))%list ∧
  NetLinks.PostUp c' = (NetLinks.PostUp c ++ omap (λ a, let gw := IP_String (ai_Gateway a) in
    if (ai_Family a =? 4)%Z && HasPrefix gw "10." then Some ("ip route add 10.0.0.0/8 via " +:+ gw) else None) as_)%list.
Proof.
  revert c. induction as_ as [|a as_ IH]; intros c; cbn [foldl]; [by rewrite !app_nil_r|].
  destruct (IH (packet_address c a)) as [-> ->]. cbn. split; [by rewrite <- app_assoc|].
  rewrite <- app_assoc. by destruct (_ && _).
Qed.

(** Every link becomes a slave of the bond, which has all addresses, in their order. *)
Lemma packet_interfaces_spec m k c :
  packet_interfaces m !! k = Some c →
  (k = "bond0" ∧ NetLinks.Addresses c = (λ a, IP_String (ai_Address a) +:+ "/" +:+ Itoa (ai_NetworkBits a)) <$> cd_Addresses m) ∨
  (∃ mac, mac ∈ cd_MACs m ∧ k = "mac=" +:+ mac ∧ c = bond_slave).
Proof.
  unfold packet_interfaces. intros [[<- <-]|[Hk H]]%lookup_insert_Some.
  - left. split; [done|]. by destruct (packet_address_fold (cd_Addresses m) (bond_config [] "" "" [])) as [-> _].
  - right. assert (∀ (ifs : interfaces) macs, foldl (λ ifs mac, <["mac=" +:+ mac := bond_slave]> ifs) ifs macs !! k = Some c →
      ifs !! k = Some c ∨ ∃ mac, mac ∈ macs ∧ k = "mac=" +:+ mac ∧ c = bond_slave) as Hf.
    { intros ifs macs. revert ifs. induction macs as [|mac macs IH]; intros ifs; [by left|]. cbn [foldl].
      intros [[[<- <-]|[_ Hi]]%lookup_insert_Some|(mac' & Hin & -> & ->)]%IH; [|by left|].
      - right. exists mac. split_and!; [left|done|done].
      - right. exists mac'. split_and!; [by right|done|done]. }
    destruct (Hf _ _ H) as [?|?]; [|done]. by apply lookup_empty_Some in H0.
Qed.
