(* ===== verification/VMwareSource.v ===== *)
(** * Sources of cloud-init data: the guest of VMware ([config/cloudinit/datasource/vmware])

    The variables that the host sets for the guest, or the properties of its OVF environment,
    become user data and metadata. The loops of the code count until a variable is empty;
    [None] is a loop that has not ended after [fuel] turns. *)

From stdpp Require Import prelude gmap strings list.
From S2P Require Import Prelude GoStrings GoNet Prog Conc HttpClient Datasource VMware.
From S2P Require NetLinks NetworkCommand OS CloudInitExecute.

Local Open Scope string_scope.

(** The properties of the OVF environment, if there is one. *)
Record VMWare := { ovfFileName : string; ovf_env : option (gmap string string) }.

Section Guest.
(** The variables of the guest, as the backdoor of the host tells them: the text, and whether asking
    failed; they stay as they are while they are read. The parser of OVF documents, that of
    URLs, and gzip. *)
Context (GuestInfo : string → string * bool) (ReadEnvironment : string → gmap string string)
        (url_Parse : string → option (string * string)) (DecompressGzip : string → result string).

Definition readConfig (v : VMWare) (key : string) : string * bool :=
  match ovf_env v with
  | None => GuestInfo key
  | Some env =>
      let val := default "" (env !! ("guestinfo." +:+ key)) in
      if String.eqb val "" then GuestInfo key else (val, false)
  end.

(** An error is dropped. *)
Definition read (v : VMWare) (key : string) : string := (readConfig v key).1.

(** ** Metadata *)

Definition non_empty {A} (s : string) (x : A) : result (option A) := Ok (if String.eqb s "" then None else Some x).

(** [for i := 0; ; i++]: the values of the numbered keys up to the first that is empty. *)
Definition numbered_value (v : VMWare) (prefix : string) (i : nat) : result (option string) :=
  let val := read v (prefix +:+ num i) in non_empty val val.

Definition numbered_values (v : VMWare) (fuel : nat) (prefix : string) : option (result (list string)) :=
  count (numbered_value v prefix) fuel 0.

(** The words of a list up to the first that is empty. *)
Fixpoint until_empty (l : list string) : list string :=
  match l with
  | [] => []
  | s :: l => if String.eqb s "" then [] else s :: until_empty l
  end.

Definition comma_values (v : VMWare) (key : string) : list string := until_empty (Split (read v key) ",").

(** [strings.ToLower(val) != "no"]. *)
Definition wants_dhcp (val : string) : bool := negb (existsb (String.eqb val) ["no"; "No"; "nO"; "NO"]).

(** The number of leading ones; a mask that is none has no ones. *)
Definition mask_size (netmask : string) : Z :=
  match ParseMask netmask with Some m => default 0%Z (simpleMaskLength m) | None => 0%Z end.

Definition iface_key (i : nat) (rest : string) : string := "interface." +:+ num i +:+ "." +:+ rest.

(** The address of a number, with the length of its mask. *)
Definition guest_address (v : VMWare) (i a : nat) : result (option string) :=
  let address := read v (iface_key i ("ip." +:+ num a +:+ ".address")) in
  let netmask := read v (iface_key i ("ip." +:+ num a +:+ ".netmask")) in
  non_empty address (if String.eqb netmask "" then address else address +:+ "/" +:+ Itoa (mask_size netmask)).

Definition guest_gateway (v : VMWare) (i r : nat) : result (option string) :=
  let gateway := read v (iface_key i ("route." +:+ num r +:+ ".gateway")) in non_empty gateway gateway.

(** What an address means for the whole guest. *)
Definition role_ip (role : string) (md : Metadata) (address : string) : Metadata :=
  let ip := ParseCIDR_IP address in
  let is4 := match ip ≫= to4 with Some _ => true | None => false end in
  if String.eqb role "public" then
    (if is4 then set_public ip (PublicIPv6 md) md else set_public (PublicIPv4 md) ip md)
  else if String.eqb role "private" then
    (if is4 then set_private ip (PrivateIPv6 md) md else set_private (PrivateIPv4 md) ip md)
  else md.

Definition guest_device (match_ : string) (dhcp : bool) (addresses gateways : list string) : InterfaceConfig := {|
  NetLinks.Match := match_; NetLinks.DHCP := dhcp && bool_decide (addresses = []); NetLinks.DHCPArgs := "";
  NetLinks.Address := ""; NetLinks.Addresses := addresses; NetLinks.IPV4LL := false;
  NetLinks.Gateway := default "" (last gateways); NetLinks.GatewayIpv6 := ""; NetLinks.MTU := 0; NetLinks.Bridge := "";
  NetLinks.Bond := ""; NetLinks.BondOpts := ∅; NetLinks.PostUp := []; NetLinks.PreUp := []; NetLinks.Vlans := "";
  NetLinks.WifiNetwork := "" |}.

Definition eth (i : nat) : string := "eth" +:+ num i.

(** The device is found by its hardware address rather than its name. *)
Definition guest_match (v : VMWare) (i : nat) : string :=
  let name := read v (iface_key i "name") in
  let mac := read v (iface_key i "mac") in
  if negb (String.eqb mac "") then "mac:" +:+ mac else if negb (String.eqb name "") then name else eth i.

(** One turn of the loop over the interfaces: it goes on while there is anything about the interface. *)
Definition guest_interface (v : VMWare) (fuel i : nat) : result (option (InterfaceConfig * (string * list string))) :=
  let dhcp := read v (iface_key i "dhcp") in
  let role := read v (iface_key i "role") in
  addresses ← looped (count (guest_address v i) fuel 0);
  gateways ← looped (count (guest_gateway v i) fuel 0);
  let found := existsb (λ s, negb (String.eqb s "")) [read v (iface_key i "name"); read v (iface_key i "mac"); dhcp] ||
               negb (bool_decide (addresses = [])) || negb (bool_decide (gateways = [])) in
  Ok (if found then
        Some (guest_device (guest_match v i) (String.eqb dhcp "" || wants_dhcp dhcp) addresses gateways, (role, addresses))
      else None).

Fixpoint add_interfaces (i : nat) (l : list (InterfaceConfig * (string * list string))) (md : Metadata) : Metadata :=
  match l with
  | [] => md
  | (c, (role, addresses)) :: l =>
      let md := foldl (role_ip role) md addresses in
      add_interfaces (S i) l (set_interfaces (<[eth i := c]> (Interfaces md)) md)
  end.

Definition vm_FetchMetadata (v : VMWare) (fuel : nat) : option (result Metadata) :=
  let md := set_hostname (read v "hostname") no_metadata in
  servers ← numbered_values v fuel "dns.server.";
  domains ← numbered_values v fuel "dns.domain.";
  ifs ← count (guest_interface v fuel) fuel 0;
  Some (servers ← servers; domains ← domains; ifs ← ifs;
        Ok (add_interfaces 0 ifs
              (set_dns {| NetworkCommand.Nameservers := servers ++ comma_values v "dns.servers";
                          NetworkCommand.Search := domains ++ comma_values v "dns.domains" |} md))).

(** ** User data *)

Definition urlDownload (url : string) : ds string := x ← embed_http (GetRetry url_Parse NewHTTPClient url); or_fail x.

Definition read_or_fail (v : VMWare) (key : string) : ds string :=
  let '(val, failed) := readConfig v key in if failed : bool then fail "guestinfo" else mret val.

Definition vm_FetchUserdata (v : VMWare) : ds string :=
  encoding ← read_or_fail v "cloud-init.data.encoding";
  data ← read_or_fail v "cloud-init.config.data";
  data ← (if String.eqb data "" then
            url ← read_or_fail v "cloud-init.config.url";
            if String.eqb url "" then mret data else urlDownload url
          else mret data);
  if String.eqb encoding "" then mret data else lift (CloudInitExecute.DecodeContent DecompressGzip data encoding).

(** ** Whether there is anything ([vmware_amd64.go]) *)

Definition getOvfReadConfig (ovfEnv : string) : gmap string string := if String.eqb ovfEnv "" then ∅ else ReadEnvironment ovfEnv.

Definition vm_NewDatasource (fileName : string) : ds (option VMWare) :=
  h ← (ask (DOs OS.Hypervisor) : ds string);
  if negb (String.eqb h "vmware") then mret None
  else if negb (String.eqb fileName "") then
    x ← (ask (DOs (OS.ReadFile fileName)) : ds (api string));
    mret (Some {| ovfFileName := fileName;
                  ovf_env := Some (getOvfReadConfig (match x with AOk s => s | _ => "" end)) |})
  else
    let '(data, failed) := GuestInfo "ovfenv" in
    mret (Some {| ovfFileName := "";
                  ovf_env := if negb failed && negb (String.eqb data "") then Some (getOvfReadConfig data) else None |}).

Definition has_metadata (md : Metadata) : bool :=
  negb (String.eqb (Hostname md) "") || bool_decide (NetworkCommand.Nameservers (DNS md) ≠ []) ||
  bool_decide (NetworkCommand.Search (DNS md) ≠ []) || bool_decide (Interfaces md ≠ ∅).

(** A loop that does not end is a panic here. *)
Definition checkGuestInfo (v : VMWare) (fuel : nat) : ds bool :=
  userData ← attempt (vm_FetchUserdata v);
  match userData with
  | Ok (String _ _) => mret true
  | _ =>
      md ← attempt (lift (looped (vm_FetchMetadata v fuel)));
      mret (match md with Ok md => has_metadata md | _ => false end)
  end.

Definition vm_IsAvailable (v : VMWare) (fuel : nat) : ds bool :=
  h ← (ask (DOs OS.Hypervisor) : ds string);
  if negb (String.eqb h "vmware") then mret false
  else if negb (String.eqb (ovfFileName v) "") then
    x ← (ask (DOs (OS.Stat (ovfFileName v))) : ds (api OS.file_info));
    if OS.not_exist x then mret false else checkGuestInfo v fuel
  else
    w ← (ask IsVirtualWorld : ds bool);
    if (w : bool) then checkGuestInfo v fuel else mret false.

(** ** The loops end *)

Section Ends.
(** Only finitely many variables are set. *)
Context (v : VMWare) (config : gmap string string) (finite : ∀ key, read v key ≠ "" → key ∈ dom config).

Lemma non_empty_Some {A} s (x y : A) : non_empty s x = Ok (Some y) → s ≠ "" ∧ x = y.
Proof using Type. unfold non_empty. destruct (String.eqb_spec s ""); by intros [= ->]. Qed.

Lemma count_total {A} (body : nat → result (option A)) fuel i r :
  (∀ n, ∃ x, body n = Ok x) → count body fuel i = Some r → ∃ l, r = Ok l.
Proof using Type.
  intros Hb. revert i r. induction fuel as [|fuel IH]; intros i r; [done|]. cbn [count].
  destruct (Hb i) as [[a|] ->]; [|intros [= <-]; by eexists].
  destruct (count body fuel (S i)) as [r'|] eqn:E; [|done]. destruct (IH _ _ E) as [l ->]. intros [= <-]. by eexists.
Qed.

Lemma non_empty_total {A} s (x : A) : ∃ y, non_empty s x = Ok y.
Proof using Type. by eexists. Qed.

Lemma numbered_values_end fuel prefix :
  (size config < fuel)%nat → ∃ l, numbered_values v fuel prefix = Some (Ok l).
Proof using finite.
  intros Hf. destruct (count_ends config (numbered_value v prefix) (λ n, prefix +:+ num n) fuel 0) as [r Hr].
  - intros n m H%(inj (String.append _)). by apply num_inj.
  - intros n a [H _]%non_empty_Some. by apply finite.
  - done.
  - destruct (count_total _ _ _ _ (λ n, non_empty_total _ _) Hr) as [l ->]. by exists l.
Qed.

Lemma iface_key_inj i r j r' : iface_key i r = iface_key j r' → i = j.
Proof using Type. apply numbered_inj. Qed.

Lemma guest_addresses_end fuel i :
  (size config < fuel)%nat → ∃ l, count (guest_address v i) fuel 0 = Some (Ok l).
Proof using finite.
  intros Hf. destruct (count_ends config (guest_address v i) (λ n, iface_key i ("ip." +:+ num n +:+ ".address")) fuel 0) as [r Hr].
  - intros n m. unfold iface_key. intros H%(inj (String.append _))%(inj (String.append _))%(inj (String.append _)).
    exact (numbered_inj "ip." n "address" m "address" H).
  - intros n a [H _]%non_empty_Some. by apply finite.
  - done.
  - destruct (count_total _ _ _ _ (λ n, non_empty_total _ _) Hr) as [l ->]. by exists l.
Qed.

Lemma guest_gateways_end fuel i :
  (size config < fuel)%nat → ∃ l, count (guest_gateway v i) fuel 0 = Some (Ok l).
Proof using finite.
  intros Hf. destruct (count_ends config (guest_gateway v i) (λ n, iface_key i ("route." +:+ num n +:+ ".gateway")) fuel 0) as [r Hr].
  - intros n m. unfold iface_key. intros H%(inj (String.append _))%(inj (String.append _))%(inj (String.append _)).
    exact (numbered_inj "route." n "gateway" m "gateway" H).
  - intros n a [H _]%non_empty_Some. by apply finite.
  - done.
  - destruct (count_total _ _ _ _ (λ n, non_empty_total _ _) Hr) as [l ->]. by exists l.
Qed.

(** A variable that is set for an interface, if any is. *)
Definition guest_key (i : nat) : string :=
  iface_key i
    (if negb (String.eqb (read v (iface_key i "name")) "") then "name"
     else if negb (String.eqb (read v (iface_key i "mac")) "") then "mac"
     else if negb (String.eqb (read v (iface_key i "dhcp")) "") then "dhcp"
     else if negb (String.eqb (read v (iface_key i ("ip." +:+ num 0 +:+ ".address"))) "") then "ip." +:+ num 0 +:+ ".address"
     else "route." +:+ num 0 +:+ ".gateway").

Lemma count_first {A} (body : nat → result (option A)) fuel l :
  count body fuel 0 = Some (Ok l) → l ≠ [] → ∃ a, body 0%nat = Ok (Some a).
Proof using Type.
  destruct fuel as [|fuel]; [done|]. cbn [count]. destruct (body 0%nat) as [[a|]|e|e]; [by eexists|by intros [= <-]|done|done].
Qed.

Lemma guest_interface_key fuel i x : guest_interface v fuel i = Ok (Some x) → guest_key i ∈ dom config.
Proof using finite.
  intros H. apply finite. unfold guest_key.
  destruct (String.eqb_spec (read v (iface_key i "name")) "") as [E1|]; [|done].
  destruct (String.eqb_spec (read v (iface_key i "mac")) "") as [E2|]; [|done].
  destruct (String.eqb_spec (read v (iface_key i "dhcp")) "") as [E3|]; [|done].
  destruct (String.eqb_spec (read v (iface_key i ("ip." +:+ num 0 +:+ ".address"))) "") as [E4|]; [|done].
  intros E5. revert H. unfold guest_interface. cbv zeta. rewrite E1, E2, E3.
  destruct (count (guest_address v i) fuel 0) as [[as_|e|e]|] eqn:Ea; [|done..].
  destruct (count (guest_gateway v i) fuel 0) as [[gs|e|e]|] eqn:Eg; [|done..]. cbn.
  destruct (decide (as_ = [])) as [->|Ha].
  - destruct (decide (gs = [])) as [->|Hg]; [done|]. apply count_first in Eg as [a [Ha _]%non_empty_Some]; [|done].
    intros _. done.
  - apply count_first in Ea as [a [Hb _]%non_empty_Some]; done.
Qed.

Lemma guest_interfaces_end fuel :
  (size config < fuel)%nat → ∃ l, count (guest_interface v fuel) fuel 0 = Some (Ok l).
Proof using finite.
  intros Hf. destruct (count_ends config (guest_interface v fuel) guest_key fuel 0) as [r Hr].
  - intros n m H. unfold guest_key in H. by eapply iface_key_inj.
  - intros n a. apply guest_interface_key.
  - done.
  - destruct (count_total (guest_interface v fuel) fuel 0 r) as [l ->]; [|done|by exists l]. intros n. unfold guest_interface.
    destruct (guest_addresses_end fuel n Hf) as [l1 ->], (guest_gateways_end fuel n Hf) as [l2 ->]. by eexists.
Qed.

Lemma add_interfaces_number i l md :
  Interfaces (add_interfaces i l md) = number_from (λ n, "eth" +:+ Itoa n) fst (Z.of_nat i) l (Interfaces md).
Proof using Type.
  revert i md. induction l as [|[c [role as_]] l IH]; intros i md; [done|]. cbn [add_interfaces number_from]. rewrite IH.
  replace (Z.of_nat (S i)) with (Z.of_nat i + 1)%Z by lia. f_equal. cbn. f_equal.
  induction as_ as [|a as_ IHa] in md |- *; [done|]. cbn [foldl]. rewrite IHa. unfold role_ip. by repeat case_match.
Qed.

(** However a host describes a guest, with finitely many variables, reading the metadata ends, without a
    panic or an error, in at most one turn more of each loop than there are variables. The
    interfaces are numbered from 0 up to the first about which nothing is said, and what is said
    of later ones is not read. *)
Theorem vm_FetchMetadata_ends fuel :
  (size config < fuel)%nat →
  ∃ md ifs, vm_FetchMetadata v fuel = Some (Ok md) ∧
    (∀ i x, ifs !! i = Some x → guest_interface v fuel i = Ok (Some x) ∧ Interfaces md !! eth i = Some x.1) ∧
    guest_interface v fuel (length ifs) = Ok None ∧
    ∀ k, is_Some (Interfaces md !! k) → ∃ i, (i < length ifs)%nat ∧ k = eth i.
Proof using finite.
  intros Hf. unfold vm_FetchMetadata.
  destruct (numbered_values_end fuel "dns.server." Hf) as [servers ->].
  destruct (numbered_values_end fuel "dns.domain." Hf) as [domains ->].
  destruct (guest_interfaces_end fuel Hf) as [ifs Hifs]. rewrite Hifs. cbn. apply count_Ok in Hifs as [Hl Hend].
  do 2 eexists. split; [done|]. rewrite add_interfaces_number. cbn [Interfaces set_dns set_hostname no_metadata].
  split_and!.
  - intros i x Hx. split; [by apply Hl|].
    pose proof (number_from_lookup (λ n, "eth" +:+ Itoa n) fst (Z.of_nat 0) ifs ∅ i x eth_inj Hx) as H. exact H.
  - exact Hend.
  - intros k [[? H%lookup_empty_Some]|(i & Hi & ->)]%number_from_dom; [done|]. by exists i.
Qed.
End Ends.
End Guest.

(** ** An example *)

Definition example_guest : gmap string string :=
  list_to_map [("hostname", "guest"); ("dns.server.0", "8.8.8.8"); ("dns.servers", "1.1.1.1,,9.9.9.9");
               ("interface.0.mac", "00:11:22:33:44:55"); ("interface.0.dhcp", "No");
               ("interface.1.role", "public"); ("interface.1.ip.0.address", "10.0.0.4");
               ("interface.1.ip.0.netmask", "255.255.255.0"); ("interface.1.route.0.gateway", "10.0.0.1");
               ("interface.1.route.1.gateway", "10.0.0.2"); ("interface.3.name", "eth7")].

Definition example_info (key : string) : string * bool := (default "" (example_guest !! key), false).

Definition plain_guest : VMWare := {| ovfFileName := ""; ovf_env := None |}.

(** The last gateway is taken, an empty server hides those after it, and interface 3 is never seen. *)
Example guest_metadata :
  match vm_FetchMetadata example_info plain_guest 12 with
  | Some (Ok md) =>
      Hostname md = "guest" ∧ NetworkCommand.Nameservers (DNS md) = ["8.8.8.8"; "1.1.1.1"] ∧
      NetLinks.Match <$> Interfaces md !! "eth0" = Some "mac:00:11:22:33:44:55" ∧
      NetLinks.DHCP <$> Interfaces md !! "eth0" = Some false ∧
      NetLinks.Addresses <$> Interfaces md !! "eth1" = Some ["10.0.0.4/24"] ∧
      NetLinks.Gateway <$> Interfaces md !! "eth1" = Some "10.0.0.2" ∧
      Interfaces md !! "eth3" = None ∧ PublicIPv4 md = ParseIP "10.0.0.4"
  | _ => False
  end.
Proof. by vm_compute. Qed.

(** A mask that is none counts as one without any ones. *)
Example bad_mask : mask_size "255.255.255" = 0%Z ∧ mask_size "255.0.255.0" = 0%Z ∧ mask_size "255.255.240.0" = 20%Z.
Proof. by vm_compute. Qed.

Lemma vm_FetchMetadata_ends_witness :
  ∃ md ifs, vm_FetchMetadata example_info plain_guest 12 = Some (Ok md) ∧
    (∀ i x, ifs !! i = Some x →
       guest_interface example_info plain_guest 12 i = Ok (Some x) ∧ Interfaces md !! eth i = Some x.1) ∧
    guest_interface example_info plain_guest 12 (length ifs) = Ok None ∧
    ∀ k, is_Some (Interfaces md !! k) → ∃ i, (i < length ifs)%nat ∧ k = eth i.
Proof.
  apply (vm_FetchMetadata_ends example_info plain_guest example_guest).
  - intros key. change (read example_info plain_guest key) with (default "" (example_guest !! key)).
    intros H. apply elem_of_dom. destruct (example_guest !! key); [by eexists|done].
  - apply (bool_decide_unpack _). by vm_compute.
Defined.
