(* ===== verification/Sources.v ===== *)
(** * Sources of cloud-init data: drives, files, URLs and the command line
    ([config/cloudinit/datasource]), and all of them together ([cmd/cloudinitsave])

    The interface of a data source as functions on a type of all sources, and the sources that
    an option names. *)

From stdpp Require Import prelude gmap strings list.
From S2P Require Import Prelude GoStrings GoNet Prog Conc HttpClient Datasource VMwareSource.
From S2P Require NetLinks NetworkCommand OS VMware.

Local Open Scope string_scope.

(** ** Drives ([configdrive.go], [proxmox.go]) *)

(** The constants of a kind of drive. *)
Inductive drive_kind := ConfigDrive | Proxmox.

Record drive := { d_kind : drive_kind; d_root : string; d_availabilityChanges : bool }.

Definition configDevMountPoint (k : drive_kind) : string :=
  match k with ConfigDrive => "/media/config-2" | Proxmox => "/media/pve-config" end.

Definition NewDrive (k : drive_kind) (root : string) : drive :=
  {| d_kind := k; d_root := root; d_availabilityChanges := true |}.

Definition os_unit (c : OS.os_call) (H : OS.os_answer c = api ()) : ds () := embed_os (OS.do_sys c H).

(** The permissions are decimal. *)
Definition MountConfigDrive (k : drive_kind) : ds () :=
  _ ← os_unit (OS.MkdirAll (configDevMountPoint k) 700) eq_refl;
  match k with
  | ConfigDrive =>
      configDev ← (ask (DOs (OS.ResolveDevice "LABEL=config-2")) : ds string);
      if String.eqb configDev ""
      then os_unit (OS.LibMount "config-2" (configDevMountPoint k) "9p" "trans=virtio,version=9p2000.L") eq_refl
      else
        fsType ← embed_os (OS.do_sys (OS.GetFsType configDev) eq_refl);
        os_unit (OS.LibMount configDev (configDevMountPoint k) fsType "ro") eq_refl
  | Proxmox =>
      fsType ← embed_os (OS.do_sys (OS.GetFsType "/dev/sr0") eq_refl);
      os_unit (OS.LibMount "/dev/sr0" (configDevMountPoint k) fsType "ro") eq_refl
  end.

Definition UnmountConfigDrive (k : drive_kind) : ds () := os_unit (OS.SysUnmount (configDevMountPoint k)) eq_refl.

(** A drive with its usual root is mounted for as long as [p] runs. *)
Definition with_drive {A} (d : drive) (p : ds A) : ds A :=
  if String.eqb (d_root d) (configDevMountPoint (d_kind d)) then
    _ ← MountConfigDrive (d_kind d);
    defer_call (UnmountConfigDrive (d_kind d)) p
  else p.

(** When it cannot be mounted it is not tried again. *)
Definition not_again (d : drive) : drive := {| d_kind := d_kind d; d_root := d_root d; d_availabilityChanges := false |}.

Definition drive_IsAvailable (d : drive) : ds (bool * drive) :=
  x ← attempt (with_drive d (ask (DOs (OS.Stat (d_root d))) : ds (api OS.file_info)));
  mret (match x with Ok x => (negb (OS.not_exist x), d) | _ => (false, not_again d) end).

(** A file that is not there is empty. *)
Definition tryReadFile (d : drive) (filename : string) : ds string :=
  x ← with_drive d (ask (DOs (OS.ReadFile filename)) : ds (api string));
  match x with AOk data => mret data | ANotFound _ => mret "" | AErr e => fail e end.

Definition openstackRoot (d : drive) : string := path_Join [d_root d; "openstack"].
Definition openstackVersionRoot (d : drive) : string := path_Join [openstackRoot d; "latest"].

Definition drive_FetchUserdata (d : drive) : ds string :=
  match d_kind d with
  | ConfigDrive => tryReadFile d (path_Join [openstackVersionRoot d; "user_data"])
  | Proxmox => tryReadFile d (path_Join [d_root d; "user-data"])
  end.

Definition drive_ConfigRoot (d : drive) : string :=
  match d_kind d with ConfigDrive => openstackRoot d | Proxmox => d_root d end.

(** ** The command line of the kernel ([proc_cmdline.go]) *)

Definition ProcCmdlineLocation : string := "/proc/cmdline".

Definition cmdline_token (url : option string) (token : string) : option string :=
  match SplitN token "=" 2 with
  | [key; value] => if String.eqb (Replace key "_" "-") "cloud-config-url" then Some value else url
  | _ => url
  end.

(** [None]: it was not found. *)
Definition findCloudConfigURL (input : string) : option string := foldl cmdline_token None (Split input " ").

Definition read_file (p : string) : ds string := embed_os (OS.do_sys (OS.ReadFile p) eq_refl).

Definition cmdline_IsAvailable (location : string) : ds bool :=
  x ← attempt (read_file location);
  mret (match x with Ok contents => bool_decide (is_Some (findCloudConfigURL (TrimSpace contents))) | _ => false end).

(** ** A server of TFTP ([tftp.go]) *)

(** The client is nil when the address is not understood. *)
Record RemoteFile := { rf_host : string; rf_path : string; rf_client : bool; rf_stream : bool }.

(** The end of the text is a colon and two to five digits. *)
Definition has_port (host : string) : bool :=
  has_char ":" host &&
  match last (Split host ":") with
  | Some port => (2 <=? String.length port)%nat && (String.length port <=? 5)%nat &&
                 forallb is_digit (String.list_ascii_of_string port)
  | None => false
  end.

Definition tftp_NewDatasource (hostAndPath : string) : ds RemoteFile :=
  match SplitN hostAndPath "/" 2 with
  | [host; path] =>
      let host := if has_port host then host else host +:+ ":69" in
      ok ← (ask (TftpNewClient host) : ds bool);
      mret {| rf_host := host; rf_path := path; rf_client := ok; rf_stream := false |}
  | _ => mret {| rf_host := hostAndPath; rf_path := ""; rf_client := false; rf_stream := false |}
  end.

Definition nil_pointer {A} : ds A := lift (Panic "invalid memory address or nil pointer dereference").

Definition tftp_IsAvailable (f : RemoteFile) : ds (bool * RemoteFile) :=
  if negb (rf_client f) then nil_pointer
  else
    x ← (ask (TftpReceive (rf_host f) (rf_path f)) : ds (api ()));
    mret (OS.ok x, {| rf_host := rf_host f; rf_path := rf_path f; rf_client := true; rf_stream := OS.ok x |}).

Definition tftp_FetchUserdata (f : RemoteFile) : ds string :=
  if rf_stream f then (x ← (ask (TftpWriteTo (rf_host f) (rf_path f)) : ds (api string)); expect x) else nil_pointer.

(** ** All sources *)

Inductive Datasource :=
  | SEc2 (ms : Service)
  | SDigitalOcean (ms : Service)
  | SGce (ms : Service)
  | SAzure (ms : Service)
  | SPacket (ms : Service)
  | SCloudStack (ms : Service)
  | SExoscale (ms : Service)
  | SAliyun (ms : Service)
  | SDrive (d : drive)
  | SVMware (v : VMWare)
  | SProcCmdline (location : string)
  | STftp (f : RemoteFile)
  | SUrl (url : string)
  | SFile (path : string).

Section All.
(** The libraries, as for the single sources. *)
Context (url_Parse : string → option (string * string))
        (do_Unmarshal : string → option DoMetadata) (azure_Unmarshal : string → option AzureInstance)
        (drive_Unmarshal : string → option (string * gmap string string))
        (GuestInfo : string → string * bool) (ReadEnvironment : string → gmap string string)
        (DecompressGzip : string → result string) (fuel : nat).

(** The document of a drive gives a name and keys. *)
Definition drive_FetchMetadata (d : drive) : ds Metadata :=
  match d_kind d with
  | Proxmox => mret no_metadata
  | ConfigDrive =>
      data ← tryReadFile d (path_Join [openstackVersionRoot d; "meta_data.json"]);
      if String.eqb data "" then mret no_metadata
      else match drive_Unmarshal data with
           | None => fail "json"
           | Some (hostname, keys) => mret (set_keys keys (set_hostname hostname no_metadata))
           end
  end.

Definition url_IsAvailable (url : string) : ds bool :=
  _ ← ask SetProxyEnvironmentVariables;
  x ← embed_http (GetRetry url_Parse NewHTTPClient url);
  mret (no_err x).

Definition cmdline_FetchUserdata (location : string) : ds string :=
  contents ← read_file location;
  match findCloudConfigURL (TrimSpace contents) with
  | None => fail "cloud-config-url not found"
  | Some url => urlDownload url_Parse url
  end.

(** A source as it is after it was asked. *)
Definition ds_IsAvailable (s : Datasource) : ds (bool * Datasource) :=
  match s with
  | SExoscale ms => b ← exoscale_IsAvailable url_Parse ms; mret (b, s)
  | SEc2 ms | SDigitalOcean ms | SGce ms | SAzure ms | SPacket ms | SCloudStack ms | SAliyun ms =>
      b ← IsAvailable url_Parse ms; mret (b, s)
  | SDrive d => x ← drive_IsAvailable d; mret (x.1, SDrive x.2)
  | SVMware v => b ← vm_IsAvailable GuestInfo url_Parse DecompressGzip v fuel; mret (b, s)
  | SProcCmdline location => b ← cmdline_IsAvailable location; mret (b, s)
  | STftp f => x ← tftp_IsAvailable f; mret (x.1, STftp x.2)
  | SUrl url => b ← url_IsAvailable url; mret (b, s)
  | SFile path => x ← (ask (DOs (OS.Stat path)) : ds (api OS.file_info)); mret (negb (OS.not_exist x), s)
  end.

Definition ds_AvailabilityChanges (s : Datasource) : bool :=
  match s with
  | SGce _ | SPacket _ => AvailabilityChanges
  | SDrive d => d_availabilityChanges d
  | SFile _ => true
  | _ => false
  end.

Definition ds_ConfigRoot (s : Datasource) : string :=
  match s with
  | SEc2 ms | SDigitalOcean ms | SGce ms | SPacket ms | SCloudStack ms | SExoscale ms | SAliyun ms => ConfigRoot ms
  | SAzure ms => azure_ConfigRoot ms
  | SDrive d => drive_ConfigRoot d
  | SVMware _ => "/"
  | _ => ""
  end.

Definition ds_FetchMetadata (s : Datasource) : ds Metadata :=
  match s with
  | SEc2 ms => ec2_FetchMetadata url_Parse ms
  | SDigitalOcean ms => do_FetchMetadata url_Parse do_Unmarshal ms
  | SGce ms => gce_FetchMetadata url_Parse ms
  | SAzure ms => azure_FetchMetadata url_Parse azure_Unmarshal ms
  | SPacket _ => packet_FetchMetadata
  | SCloudStack ms => cloudstack_FetchMetadata url_Parse ms
  | SExoscale ms => exoscale_FetchMetadata url_Parse ms
  | SAliyun ms => aliyun_FetchMetadata url_Parse ms
  | SDrive d => drive_FetchMetadata d
  | SVMware v => lift (VMware.looped (vm_FetchMetadata GuestInfo v fuel))
  | SProcCmdline _ | STftp _ | SUrl _ | SFile _ => mret no_metadata
  end.

Definition ds_FetchUserdata (s : Datasource) : ds string :=
  match s with
  | SEc2 ms | SDigitalOcean ms | SPacket ms | SCloudStack ms | SExoscale ms | SAliyun ms => FetchUserdata url_Parse ms
  | SGce ms => gce_FetchUserdata url_Parse ms
  | SAzure ms => azure_FetchUserdata url_Parse ms
  | SDrive d => drive_FetchUserdata d
  | SVMware v => vm_FetchUserdata GuestInfo url_Parse DecompressGzip v
  | SProcCmdline location => cmdline_FetchUserdata location
  | STftp f => tftp_FetchUserdata f
  | SUrl url => urlDownload url_Parse url
  | SFile path => read_file path
  end.

(** A drive is unmounted, whatever its root is. *)
Definition ds_Finish (s : Datasource) : ds () :=
  match s with SDrive d => UnmountConfigDrive (d_kind d) | _ => mret () end.

Definition ds_Type (s : Datasource) : string :=
  match s with
  | SEc2 _ => "ec2-metadata-service" | SDigitalOcean _ => "digitalocean-metadata-service" | SGce _ => "gce-metadata-service"
  | SAzure _ => "azure-metadata-service" | SPacket _ => "packet-metadata-service"
  | SCloudStack _ => "cloudstack-metadata-service" | SExoscale _ => "exoscale-metadata-service"
  | SAliyun _ => "aliyun-metadata-service"
  | SDrive d => match d_kind d with ConfigDrive => "cloud-drive" | Proxmox => "proxmox" end
  | SVMware _ => "VMWare" | SProcCmdline _ => "proc-cmdline" | STftp _ => "tftp" | SUrl _ => "url" | SFile _ => "local-file"
  end.

(** ** The sources that an option names ([getDatasources]) *)

(** [star] is what the name * stands for. *)
Definition one_source (star : ds (list Datasource)) (name : string) : ds (list Datasource) :=
  let parts := SplitN name ":" 2 in
  let root := match parts with [_; root] => root | _ => "" end in
  let or_default d := if String.eqb root "" then d else root in
  match parts with
  | kind :: _ =>
      if String.eqb kind "*" then star
      else if String.eqb kind "proxmox" then mret [SDrive (NewDrive Proxmox (or_default "/media/pve-config"))]
      else if String.eqb kind "exoscale" then mret [SExoscale (exoscale_NewDatasource root)]
      else if String.eqb kind "cloudstack" then sources ← cloudstack_NewDatasource root; mret (SCloudStack <$> (sources : list Service))
      else if String.eqb kind "ec2" then mret [SEc2 (ec2_NewDatasource root)]
      else if String.eqb kind "file" then mret (if String.eqb root "" then [] else [SFile root])
      else if String.eqb kind "tftp" then f ← tftp_NewDatasource root; mret [STftp f]
      else if String.eqb kind "url" then mret (if String.eqb root "" then [] else [SUrl root])
      else if String.eqb kind "cmdline" then mret (if (length parts =? 1)%nat then [SProcCmdline ProcCmdlineLocation] else [])
      else if String.eqb kind "configdrive" then mret [SDrive (NewDrive ConfigDrive (or_default "/media/config-2"))]
      else if String.eqb kind "digitalocean" then mret [SDigitalOcean (do_NewDatasource root)]
      else if String.eqb kind "gce" then mret [SGce (gce_NewDatasource root)]
      else if String.eqb kind "packet" then mret [SPacket (packet_NewDatasource root)]
      else if String.eqb kind "vmware" then
        v ← vm_NewDatasource GuestInfo ReadEnvironment root;
        mret (match v with Some v => [SVMware v] | None => [] end)
      else if String.eqb kind "aliyun" then mret [SAliyun (aliyun_NewDatasource root)]
      else if String.eqb kind "azure" then mret [SAzure (azure_NewDatasource root)]
      else mret []
  | [] => mret []
  end.

Fixpoint named_sources (star : ds (list Datasource)) (names : list string) : ds (list Datasource) :=
  match names with
  | [] => mret []
  | name :: names =>
      sources ← one_source star name;
      rest ← named_sources star names;
      mret (sources ++ rest)%list
  end.

Definition all_kinds : list string :=
  ["configdrive"; "vmware"; "ec2"; "digitalocean"; "packet"; "gce"; "cloudstack"; "exoscale"; "proxmox"].

(** The names behind the star hold no star. *)
Definition getDatasources (names : list string) : ds (list Datasource) :=
  named_sources (named_sources (mret []) all_kinds) names.

(** The recursion of the code. *)
Lemma getDatasources_star names : getDatasources names = named_sources (getDatasources all_kinds) names.
Proof using Type. reflexivity. Qed.

(** ** The mounts of a drive *)

(** Calls of the system fail or succeed; they do not panic. *)
Definition quiet {A} (p : ds A) : Prop := ∀ l e, ¬ behaves p l (Panic e).

Lemma quiet_bind {A B} (p : ds A) (f : A → ds B) : quiet p → (∀ a, quiet (f a)) → quiet (p ≫= f).
Proof using Type.
  intros Hp Hf l e [(l1 & l2 & a & _ & _ & H)|[(e' & _ & [=])|(e' & H & _)]]%behaves_bind; [by eapply Hf|by eapply Hp].
Qed.

Lemma quiet_ask c : quiet (ask c).
Proof using Type. intros l e (x & l' & _ & [_ [=]]). Qed.

Lemma quiet_do_sys {A} c (H : OS.os_answer c = api A) : quiet (embed_os (OS.do_sys c H)).
Proof using Type.
  unfold OS.do_sys, OS.sys, invoke, mbind, prog_mbind. cbn [prog_bind embed_os]. intros l e (x & l' & -> & H').
  destruct (eq_rect _ _ _ _ H); destruct H' as [_ [=]].
Qed.

Lemma quiet_MountConfigDrive k : quiet (MountConfigDrive k).
Proof using Type.
  apply quiet_bind; [apply quiet_do_sys|]. intros _. destruct k; [|apply quiet_bind; [apply quiet_do_sys|intros ?; apply quiet_do_sys]].
  apply quiet_bind; [apply quiet_ask|]. intros dev. case_match; [apply quiet_do_sys|].
  apply quiet_bind; [apply quiet_do_sys|intros ?; apply quiet_do_sys].
Qed.

Lemma os_unit_calls c (H : OS.os_answer c = api ()) l r :
  behaves (os_unit c H) l r → ∃ x, l = [existT (DOs c) x : ds_exchange].
Proof using Type.
  unfold os_unit, OS.do_sys, OS.sys, invoke, mbind, prog_mbind. cbn [prog_bind embed_os behaves]. intros (x & l' & -> & H').
  exists x. destruct (eq_rect _ _ _ _ H); destruct H' as [-> _]; done.
Qed.

(** What is deferred to the end of a program that makes one call. *)
Lemma behaves_defer_call {A} (d : ds ()) (p : ds A) l r :
  quiet d → behaves (defer_call d p) l r →
  ∃ l1 l2 r', l = (l1 ++ l2)%list ∧ behaves p l1 r ∧ behaves d l2 r'.
Proof using Type.
  intros Hd. revert l. induction p as [r0|c k IH]; intros l; cbn [defer_call].
  - intros [(l1 & l2 & u & -> & H & [-> ->])|[(e & H & ->)|(e & H & ->)]]%behaves_bind.
    + apply behaves_bind_ok in H as (l3 & l4 & r' & -> & [(r1 & H & [= ->])|(e & _ & [=])]%OS.behaves_attempt & [-> _]).
      exists [], l3, r1. by rewrite !app_nil_r.
    + apply behaves_bind in H as [(l3 & l4 & r' & _ & _ & [_ [=]])|[(e' & H & [= ->])|(e' & H & [=])]].
      by apply OS.behaves_attempt in H as [(? & _ & [=])|(? & _ & [=])].
    + apply behaves_bind in H as [(l3 & l4 & r' & _ & _ & [_ [=]])|[(e' & H & [=])|(e' & H & [= ->])]].
      apply OS.behaves_attempt in H as [(? & _ & [=])|(e2 & H & _)]. by destruct (Hd _ _ H).
  - intros (x & l' & -> & (l1 & l2 & r' & -> & H1 & H2)%IH). exists (existT c x :: l1), l2, r'.
    split_and!; [done|by exists x, l1|done].
Qed.

(** While a file of a drive is read, the drive is mounted, and afterwards it is unmounted, whether reading
    failed or not; when it cannot be mounted nothing is read and nothing unmounted. A file that
    is not there is an empty one. *)
Theorem tryReadFile_unmounts d filename l r :
  d_root d = configDevMountPoint (d_kind d) →
  behaves (tryReadFile d filename) l r →
  (∃ e, r = Err e ∧ behaves (MountConfigDrive (d_kind d)) l (Err e)) ∨
  ∃ l1 (x : api string) y,
    behaves (MountConfigDrive (d_kind d)) l1 (Ok ()) ∧
    l = (l1 ++ [existT (DOs (OS.ReadFile filename)) x; existT (DOs (OS.SysUnmount (configDevMountPoint (d_kind d)))) y])%list ∧
    r = match x with AOk data => Ok data | ANotFound _ => Ok "" | AErr e => Err e end.
Proof using Type.
  intros Hroot. unfold tryReadFile, with_drive. rewrite Hroot, String.eqb_refl.
  intros [(l1 & l2 & x & -> & Hx & H)|[(e & H & ->)|(e & H & ->)]]%behaves_bind.
  - apply behaves_bind_ok in Hx as (l3 & l4 & [] & -> & Hm & Hx).
    apply behaves_defer_call in Hx as (l5 & l6 & r' & -> & (x' & l7 & -> & [-> [= <-]]) & (y & ->)%os_unit_calls);
      [|apply quiet_do_sys].
    right. exists l3, x, y. split; [done|]. destruct x; destruct H as [-> ->]; split; try done; by rewrite app_nil_r.
  - left. exists e. split; [done|]. apply behaves_bind in H as [(l3 & l4 & [] & -> & _ & Hx)|[(e' & H & [= ->])|(e' & _ & [=])]].
    + apply behaves_defer_call in Hx as (l5 & l6 & r' & -> & (x' & l7 & -> & [_ [=]]) & _). apply quiet_do_sys.
    + done.
  - exfalso. apply behaves_bind in H as [(l3 & l4 & [] & -> & _ & Hx)|[(e' & H & [=])|(e' & H & [= ->])]].
    + apply behaves_defer_call in Hx as (l5 & l6 & r' & -> & (x' & l7 & -> & [_ [=]]) & _). apply quiet_do_sys.
    + by apply quiet_MountConfigDrive in H.
Qed.

(** ** The URL on the command line *)

(** The URL that a word names. *)
Definition cmdline_url (token : string) : option string := cmdline_token None token.

Lemma cmdline_token_or url token : cmdline_token url token = match cmdline_url token with Some u => Some u | None => url end.
Proof using Type. unfold cmdline_url, cmdline_token. by repeat case_match. Qed.

(** Of several URLs the last is taken. *)
Lemma findCloudConfigURL_last input : findCloudConfigURL input = last (omap cmdline_url (Split input " ")).
Proof using Type.
  unfold findCloudConfigURL.
  assert (∀ words url, foldl cmdline_token url words =
    match last (omap cmdline_url words) with Some u => Some u | None => url end) as H.
  { induction words as [|w words IH]; intros url; [done|]. cbn [foldl omap list_omap]. rewrite IH, cmdline_token_or.
    destruct (cmdline_url w) as [u|]; [|done]. rewrite last_cons. by destruct (last _). }
  rewrite H. by destruct (last _).
Qed.
End All.

(** ** Examples *)

(** A machine with a config drive and nothing else. *)
Definition drive_machine (c : ds_call) : ds_answer c :=
  match c return ds_answer c with
  | DHttp (Do _ _) => NoReply
  | DHttp (SleepFor _) => ()
  | DNet c => NetworkCommand.example_net c
  | DOs (OS.ResolveDevice _) => "/dev/sr0"
  | DOs (OS.GetFsType _) => AOk "iso9660"
  | DOs (OS.ReadFile p) => if String.eqb p "/media/config-2/openstack/latest/user_data" then AOk "#cloud-config" else ANotFound "no such file"
  | DOs c => OS.plain c
  | PacketMetadata => None
  | SetProxyEnvironmentVariables => ()
  | TftpNewClient _ | IsVirtualWorld => false
  | TftpReceive _ _ => AErr "no server"
  | TftpWriteTo _ _ => AErr "no server"
  end.

Definition example_read (p : string) :=
  exchanges (λ c w, (drive_machine c, w)) (tryReadFile (NewDrive ConfigDrive "/media/config-2") p) ().

Lemma tryReadFile_unmounts_witness :
  let p := "/media/config-2/openstack/latest/user_data" in
  let l := (example_read p).1 in
  (example_read p).2 = Ok "#cloud-config" ∧
  ((∃ e, Ok "#cloud-config" = Err e ∧ behaves (MountConfigDrive ConfigDrive) l (Err e)) ∨
   ∃ l1 (x : api string) y,
    behaves (MountConfigDrive ConfigDrive) l1 (Ok ()) ∧
    l = (l1 ++ [existT (DOs (OS.ReadFile p)) x; existT (DOs (OS.SysUnmount "/media/config-2")) y])%list ∧
    Ok "#cloud-config" = match x with AOk data => Ok data | ANotFound _ => Ok "" | AErr e => Err e end).
Proof.
  assert ((example_read "/media/config-2/openstack/latest/user_data").2 = Ok "#cloud-config") as E by (vm_compute; reflexivity).
  split; [exact E|]. apply (tryReadFile_unmounts (NewDrive ConfigDrive "/media/config-2")); [reflexivity|].
  rewrite <- E. unfold example_read. apply exchanges_behaves.
Defined.

(** The names of an option, without a leased server and outside of VMware. *)
Example sources_of_star :
  match (exchanges (λ c w, (drive_machine c, w)) (getDatasources (λ _, ("", true)) (λ _, ∅) ["*"; "file:/x"; "url:"; "cmdline:y"]) ()).2 with
  | Ok sources => ds_Type <$> sources
  | _ => []
  end = ["cloud-drive"; "ec2-metadata-service"; "digitalocean-metadata-service"; "packet-metadata-service";
      "gce-metadata-service"; "exoscale-metadata-service"; "proxmox"; "local-file"].
Proof. by vm_compute. Qed.

(** A path without a server is a nil client. *)
Example tftp_panics :
  (exchanges (λ c w, (drive_machine c, w)) (f ← tftp_NewDatasource "server"; tftp_IsAvailable f) ()).2 =
  Panic "invalid memory address or nil pointer dereference".
Proof. by vm_compute. Qed.

Example url_of_cmdline :
  findCloudConfigURL "quiet cloud-config-url=http://a cloud_config_url=http://b?x=1 cloud-config-url" = Some "http://b?x=1".
Proof. by vm_compute. Qed.
