(* ===== verification/ComposeFormat.v ===== *)
(** * The types of the compose format ([pkg/libcompose/yaml/types_yaml.go])

    How a value of the YAML library becomes a list, a map or limits, and back. The shell lexer is a parameter; the
    entries of a map come in the order in which the map is visited. *)

From stdpp Require Import prelude gmap strings sorting list pretty.
From S2P Require Import Prelude GoStrings RawTree.

Local Open Scope string_scope.

(** ** Strings and lists *)

Definition string_of (what : string) (v : val) : result string :=
  match v with VScalar (SStr s) => Ok s | _ => Err ("Cannot unmarshal " +:+ what +:+ " into a string value") end.

Fixpoint all_strings (l : list val) : result (list string) :=
  match l with
  | [] => Ok []
  | v :: l => s ← string_of "an element" v; r ← all_strings l; Ok (s :: r)
  end.

Definition toStrings (l : list val) : result (list string) := all_strings l.

Definition Stringorslice_UnmarshalYAML (value : val) : result (list string) :=
  match value with
  | VList l => toStrings l
  | VScalar (SStr s) => Ok [s]
  | _ => Err "Failed to unmarshal Stringorslice"
  end.

Definition Command_UnmarshalYAML (shlex_Split : string → result (list string)) (value : val) : result (list string) :=
  match value with
  | VList l => toStrings l
  | VScalar (SStr s) => shlex_Split s
  | _ => Err "Failed to unmarshal Command"
  end.

(** ** Maps of strings *)

Definition key_string (k : scalar) : result string :=
  match k with SStr s => Ok s | _ => Err "Cannot unmarshal a key into a string value" end.

Fixpoint map_entries (entries : list (scalar * val)) (parts : gmap string string) : result (gmap string string) :=
  match entries with
  | [] => Ok parts
  | (k, v) :: entries =>
      sk ← key_string k; sv ← string_of "a value" v; map_entries entries (<[sk := sv]> parts)
  end.

(** What a line [key=value] says; without the sign the value is empty. *)
Definition label_entry (s : string) : string * string :=
  match cut_char "=" (TrimSpace s) with Some (k, v) => (k, v) | None => (TrimSpace s, "") end.

Fixpoint list_entries (l : list val) (parts : gmap string string) : result (gmap string string) :=
  match l with
  | [] => Ok parts
  | v :: l => s ← string_of "an element" v; list_entries l (let '(k, v) := label_entry s in <[k := v]> parts)
  end.

Section Range.
(** The order in which a map is visited. *)
Context (range : rawmap → list (scalar * val)).

Definition SliceorMap_UnmarshalYAML (value : val) : result (gmap string string) :=
  match value with
  | VMap m => map_entries (range m) ∅
  | VList l => list_entries l ∅
  | _ => Err "Failed to unmarshal SliceorMap"
  end.

Definition sep_value (v : val) : result string :=
  match v with
  | VScalar (SStr s) => Ok s
  | VScalar (SInt z) => Ok (pretty z)
  | _ => Err "Cannot unmarshal a value into a string value"
  end.

Fixpoint sep_parts (sep : string) (entries : list (scalar * val)) : result (list string) :=
  match entries with
  | [] => Ok []
  | (k, v) :: entries =>
      sk ← key_string k; sv ← sep_value v; r ← sep_parts sep entries; Ok ((sk +:+ sep +:+ sv) :: r)
  end.

Definition toSepMapParts (value : rawmap) (sep : string) : result (list string) := sep_parts sep (range value).

Definition unmarshalToStringOrSepMapParts (value : val) (key : string) : result (list string) :=
  match value with
  | VList l => toStrings l
  | VMap m => toSepMapParts m key
  | _ => Err "Failed to unmarshal Map or Slice"
  end.

Definition MaporEqualSlice_UnmarshalYAML (value : val) := unmarshalToStringOrSepMapParts value "=".
Definition MaporColonSlice_UnmarshalYAML (value : val) := unmarshalToStringOrSepMapParts value ":".
Definition MaporSpaceSlice_UnmarshalYAML (value : val) := unmarshalToStringOrSepMapParts value " ".

(** ** Limits *)

Record Ulimit := { Name : string; Soft : Z; Hard : Z }.

Definition NewUlimit (name : string) (soft hard : Z) : Ulimit := {| Name := name; Soft := soft; Hard := hard |}.

(** [reflect.Value.String] of a key: only that of a string is its text. *)
Definition reflect_String (k : scalar) : string :=
  match k with
  | SStr s => s
  | SInt _ => "<int64 Value>"
  | SFloat _ => "<float64 Value>"
  | SBool _ => "<bool Value>"
  | SNil => "<invalid Value>"
  end.

(** [reflect.Value.Int] panics for what is not an integer; zero when there is no such key. *)
Definition reflect_Int (v : option val) : result Z :=
  match v with
  | None => Ok 0%Z
  | Some (VScalar (SInt z)) => Ok z
  | Some _ => Panic "reflect: call of reflect.Value.Int"
  end.

(** The soft and the hard limit. *)
Definition limit_values (v : val) : result (Z * Z) :=
  match v with
  | VScalar (SInt z) => Ok (z, z)
  | VMap m =>
      if (size m =? 2)%nat then
        soft ← reflect_Int (m !! SStr "soft"); hard ← reflect_Int (m !! SStr "hard"); Ok (soft, hard)
      else Err "Failed to unmarshal Ulimit"
  | VSMap m =>
      if (size m =? 2)%nat then Panic "reflect: call of reflect.Value.Elem on string Value" else Err "Failed to unmarshal Ulimit"
  | _ => Err "Failed to unmarshal Ulimit"
  end.

Fixpoint limit_entries (entries : list (scalar * val)) (ulimits : gmap string Ulimit) : result (gmap string Ulimit) :=
  match entries with
  | [] => Ok ulimits
  | (k, v) :: entries =>
      sh ← limit_values v;
      limit_entries entries (<[reflect_String k := NewUlimit (reflect_String k) sh.1 sh.2]> ulimits)
  end.

(** The limits in the order of their names. *)
Definition sorted_limits (ulimits : gmap string Ulimit) : list Ulimit :=
  omap (λ key, ulimits !! key) (sort_strings (map_to_list ulimits).*1).

(** They are added to those that are there. *)
Definition Ulimits_UnmarshalYAML (Elements : list Ulimit) (value : val) : result (list Ulimit) :=
  match value with
  | VMap m => ulimits ← limit_entries (range m) ∅; Ok (Elements ++ sorted_limits ulimits)%list
  | VSMap m =>
      if (size m =? 0)%nat then Ok Elements else Panic "reflect: call of reflect.Value.Elem on string Value"
  | _ => Err "Failed to unmarshal Ulimit"
  end.
End Range.

(** One number when the two limits are the same; otherwise the library writes the struct, by its tags. *)
Definition Ulimit_MarshalYAML (u : Ulimit) : val :=
  if (Soft u =? Hard u)%Z then VScalar (SInt (Soft u))
  else VMap {[ SStr "soft" := VScalar (SInt (Soft u)); SStr "hard" := VScalar (SInt (Hard u)) ]}.

(** Of two limits of one name the last one counts. *)
Definition by_name (l : list Ulimit) : gmap string Ulimit := foldl (λ m u, <[Name u := u]> m) ∅ l.

(** The map of the limits, as the library writes it and reads it back: keys of any type. *)
Definition Ulimits_MarshalYAML (Elements : list Ulimit) : val :=
  VMap (kmap SStr (Ulimit_MarshalYAML <$> by_name Elements)).

(** ** Lemmas *)

#[local] Instance SStr_inj : Inj eq eq SStr.
Proof. by intros ?? [= ->]. Qed.

Lemma by_name_snoc l u : by_name (l ++ [u]) = <[Name u := u]> (by_name l).
Proof. unfold by_name. by rewrite foldl_app. Qed.

Lemma by_name_names l n u : by_name l !! n = Some u → Name u = n.
Proof.
  induction l as [|v l IH] using rev_ind; [done|]. rewrite by_name_snoc.
  intros [[<- <-]|[_ H]]%lookup_insert_Some; [done|by apply IH].
Qed.

Lemma by_name_elem l n : is_Some (by_name l !! n) ↔ n ∈ Name <$> l.
Proof.
  induction l as [|v l IH] using rev_ind.
  - split; [intros [? H]; discriminate H|by intros ?%not_elem_of_nil].
  - rewrite by_name_snoc, fmap_app, elem_of_app, <- IH, lookup_insert_is_Some. cbn.
    rewrite list_elem_of_singleton. destruct (decide (Name v = n)); naive_solver.
Qed.

Lemma by_name_lookup l u : NoDup (Name <$> l) → u ∈ l → by_name l !! Name u = Some u.
Proof.
  induction l as [|v l IH] using rev_ind; [by intros _ ?%not_elem_of_nil|].
  rewrite by_name_snoc, fmap_app. intros (Hl & Hv & _)%NoDup_app [Hu| ->%list_elem_of_singleton]%elem_of_app; [|by rewrite lookup_insert_eq].
  rewrite lookup_insert_ne; [by apply IH|]. intros E. apply (Hv (Name u)); [by apply list_elem_of_fmap_2|].
  cbn. rewrite E. by left.
Qed.

Lemma by_name_keys l : NoDup (Name <$> l) → (map_to_list (by_name l)).*1 ≡ₚ Name <$> l.
Proof.
  intros Hl. apply NoDup_Permutation; [apply NoDup_fst_map_to_list|done|]. intros n. rewrite <- by_name_elem, list_elem_of_fmap.
  split.
  - intros ([n' u] & -> & H). apply elem_of_map_to_list in H. by eexists.
  - intros [u H]. exists (n, u). split; [done|]. by apply elem_of_map_to_list.
Qed.

Lemma sorted_limits_sorted l :
  StronglySorted String.le (Name <$> l) → NoDup (Name <$> l) → sorted_limits (by_name l) = l.
Proof.
  intros Hs Hn. unfold sorted_limits.
  assert (sort_strings (map_to_list (by_name l)).*1 = Name <$> l) as ->.
  { rewrite (sort_strings_proper _ (Name <$> l)) by by apply by_name_keys.
    unfold sort_strings. apply (StronglySorted_unique String.le); [apply (StronglySorted_merge_sort String.le)|done|].
    apply merge_sort_Permutation. }
  assert (∀ k, k ⊆ l → omap (λ key, by_name l !! key) (Name <$> k) = k) as H; [|by apply H].
  intros k. induction k as [|u k IH]; [done|]. intros Hk. rewrite fmap_cons. cbn [omap list_omap].
  rewrite by_name_lookup by (try done; apply Hk; by left). f_equal. apply IH. intros v Hv. apply Hk. by right.
Qed.

Lemma limit_values_marshal u : limit_values (Ulimit_MarshalYAML u) = Ok (Soft u, Hard u).
Proof. unfold Ulimit_MarshalYAML. destruct (Z.eqb_spec (Soft u) (Hard u)) as [E|E]; [cbn; by rewrite E|reflexivity]. Qed.

Lemma limit_entries_marshalled (l : list (string * Ulimit)) acc :
  NoDup l.*1 → Forall (λ nu, Name nu.2 = nu.1) l →
  limit_entries ((λ nu, (SStr nu.1, Ulimit_MarshalYAML nu.2)) <$> l) acc = Ok (list_to_map l ∪ acc).
Proof.
  revert acc. induction l as [|[n u] l IH]; intros acc Hn Hl; [cbn; by rewrite (left_id_L ∅ (∪))|].
  rewrite fmap_cons in *. apply NoDup_cons in Hn as [Hn Hnd]. apply Forall_cons in Hl as [Hu Hl]. cbn [fst snd limit_entries] in *.
  rewrite limit_values_marshal. unfold mbind, result_bind. cbn [fst snd reflect_String].
  rewrite IH by done. f_equal. cbn [list_to_map foldr fst snd]. rewrite <- insert_union_r, insert_union_l.
  - f_equal. f_equal. subst. by destruct u.
  - by apply not_elem_of_list_to_map_1.
Qed.

(** Limits that are written, as one number when both are the same, and read again are the same limits, in every
    order in which the map is visited, when they come in the order of their names; limits of any other order come
    back sorted, the last one of each name. *)
Theorem Ulimits_roundtrip range l :
  (∀ m, enumerates (range m) m) →
  Ulimits_UnmarshalYAML range [] (Ulimits_MarshalYAML l) = Ok (sorted_limits (by_name l)) ∧
  (StronglySorted String.le (Name <$> l) → NoDup (Name <$> l) →
   Ulimits_UnmarshalYAML range [] (Ulimits_MarshalYAML l) = Ok l).
Proof.
  intros Hrange.
  assert (Ulimits_UnmarshalYAML range [] (Ulimits_MarshalYAML l) = Ok (sorted_limits (by_name l))) as E.
  { unfold Ulimits_UnmarshalYAML, Ulimits_MarshalYAML. set (m := kmap SStr (Ulimit_MarshalYAML <$> by_name l) : rawmap).
    assert (range m ≡ₚ (λ nu, (SStr nu.1, Ulimit_MarshalYAML nu.2)) <$> map_to_list (by_name l)) as Hp.
    { etrans; [apply (Hrange m)|]. unfold m. rewrite (map_to_list_kmap SStr), map_to_list_fmap, <- list_fmap_compose. apply reflexive_eq, list_fmap_ext. intros i [n u] _. done. }
    destruct (Permutation_map_inv _ _ Hp) as (l' & El & Hl'). rewrite El.
    rewrite limit_entries_marshalled.
    - unfold mbind, result_bind. cbn [app]. do 2 f_equal. rewrite (right_id_L ∅ (∪)).
      rewrite <- (list_to_map_to_list (by_name l)). symmetry. apply list_to_map_proper; [apply NoDup_fst_map_to_list|done].
    - rewrite <- Hl'. apply NoDup_fst_map_to_list.
    - apply Forall_forall. intros [n u] Hnu. rewrite <- Hl' in Hnu. apply elem_of_map_to_list in Hnu. by eapply by_name_names. }
  split; [exact E|]. intros Hs Hn. by rewrite E, sorted_limits_sorted.
Qed.

(** Any order of visiting a map, for instance the one it is stored in. *)
Lemma Ulimits_roundtrip_witness :
  let limits := [NewUlimit "nofile" 1024 4096; NewUlimit "nproc" 512 512] in
  Ulimits_UnmarshalYAML map_to_list [] (Ulimits_MarshalYAML limits) = Ok limits.
Proof.
  intros limits. apply (Ulimits_roundtrip map_to_list limits).
  - intros m. apply enumerates_map_to_list.
  - repeat constructor; vm_compute; by auto.
  - apply (bool_decide_unpack _). by vm_compute.
Defined.

(** Of the lines of a label list the last one for each key counts. *)
Lemma list_entries_lookup l parts m k :
  list_entries (VScalar <$> (SStr <$> l)) parts = Ok m →
  m !! k = match list_find (λ s, (label_entry s).1 = k) (reverse l) with
           | Some (_, s) => Some (label_entry s).2
           | None => parts !! k
           end.
Proof.
  revert parts. induction l as [|s l IH]; intros parts; [by intros [= <-]|].
  cbn [fmap list_fmap list_entries string_of]. unfold mbind, result_bind. intros H. rewrite (IH _ H). clear H IH.
  rewrite reverse_cons. destruct (label_entry s) as [k' v] eqn:Es.
  destruct (list_find (λ s, (label_entry s).1 = k) (reverse l)) as [[i t]|] eqn:E.
  - by erewrite list_find_app_l.
  - rewrite list_find_app_r by done. cbn. rewrite Es. cbn.
    destruct (decide (k' = k)) as [->|]; cbn; rewrite ?Es, ?lookup_insert_eq, ?lookup_insert_ne by done; done.
Qed.

(** A key that is not a text is not refused: the limit gets the text of the reflection for its name. A pair of
    other keys gives limits of zero. *)
Lemma ulimit_keys_unchecked :
  Ulimits_UnmarshalYAML map_to_list [] (VMap {[ SInt 1 := VScalar (SInt 2) ]}) = Ok [NewUlimit "<int64 Value>" 2 2] ∧
  Ulimits_UnmarshalYAML map_to_list []
    (VMap {[ SStr "nofile" := VMap {[ SStr "sof" := VScalar (SInt 1); SStr "har" := VScalar (SInt 2) ]} ]}) =
  Ok [NewUlimit "nofile" 0 0].
Proof. by vm_compute. Qed.

(** The limits of an entry must be integers: a text, such as a value of the environment, panics. *)
Lemma ulimit_text_panics :
  Ulimits_UnmarshalYAML map_to_list []
    (VMap {[ SStr "nofile" := VMap {[ SStr "soft" := VStr "1"; SStr "hard" := VScalar (SInt 2) ]} ]}) =
  Panic "reflect: call of reflect.Value.Int".
Proof. by vm_compute. Qed.
