(* ===== verification/Schemas.v ===== *)
(** * The JSON schemas of compose files and of the configuration
    ([pkg/libcompose/config/schema.go], [schema_helpers.go], [config/schema.go])

    The documents as [json.Unmarshal] reads them: objects are [VSMap], arrays [VList]. What the schema library makes
    of them is a parameter elsewhere. *)

From stdpp Require Import prelude gmap strings list.
From S2P Require Import Prelude GoStrings RawTree.

Local Open Scope string_scope.

Definition obj (l : list (string * val)) : val := VSMap (list_to_map l).

(** ** Compose files of version 1 *)

Definition schemaV1 : val := obj [
  ("$schema", VStr "http://json-schema.org/draft-04/schema#");
  ("id", VStr "config_schema_v1.json");
  ("type", VStr "object");
  ("patternProperties", obj [("^[a-zA-Z0-9._-]+$", obj [("$ref", VStr "#/definitions/service")])]);
  ("additionalProperties", VBool false);
  ("definitions", obj [
    ("service", obj [
      ("id", VStr "#/definitions/service");
      ("type", VStr "object");
      ("properties", obj [
        ("build", obj [("type", VStr "string")]);
        ("cap_add", obj [("type", VStr "array"); ("items", obj [("type", VStr "string")]); ("uniqueItems", VBool true)]);
        ("cap_drop", obj [("type", VStr "array"); ("items", obj [("type", VStr "string")]); ("uniqueItems", VBool true)]);
        ("cgroup_parent", obj [("type", VStr "string")]);
        ("command", obj [
          ("oneOf", VList [
            obj [("type", VStr "string")];
            obj [("type", VStr "array"); ("items", obj [("type", VStr "string")])]])]);
        ("container_name", obj [("type", VStr "string")]);
        ("cpu_shares", obj [("type", VList [VStr "number"; VStr "string"])]);
        ("cpu_quota", obj [("type", VList [VStr "number"; VStr "string"])]);
        ("cpuset", obj [("type", VStr "string")]);
        ("devices", obj [("type", VStr "array"); ("items", obj [("type", VStr "string")]); ("uniqueItems", VBool true)]);
        ("dns", obj [("$ref", VStr "#/definitions/string_or_list")]);
        ("dns_search", obj [("$ref", VStr "#/definitions/string_or_list")]);
        ("dockerfile", obj [("type", VStr "string")]);
        ("domainname", obj [("type", VStr "string")]);
        ("entrypoint", obj [
          ("oneOf", VList [
            obj [("type", VStr "string")];
            obj [("type", VStr "array"); ("items", obj [("type", VStr "string")])]])]);
        ("env_file", obj [("$ref", VStr "#/definitions/string_or_list")]);
        ("environment", obj [("$ref", VStr "#/definitions/list_or_dict")]);
        ("expose", obj [
          ("type", VStr "array");
          ("items", obj [("type", VList [VStr "string"; VStr "number"]); ("format", VStr "expose")]);
          ("uniqueItems", VBool true)]);
        ("extends", obj [
          ("oneOf", VList [
            obj [("type", VStr "string")];
            obj [
              ("type", VStr "object");
              ("properties", obj [("service", obj [("type", VStr "string")]); ("file", obj [("type", VStr "string")])]);
              ("required", VList [VStr "service"]);
              ("additionalProperties", VBool false)]])]);
        ("extra_hosts", obj [("$ref", VStr "#/definitions/list_or_dict")]);
        ("external_links", obj [("type", VStr "array"); ("items", obj [("type", VStr "string")]); ("uniqueItems", VBool true)]);
        ("hostname", obj [("type", VStr "string")]);
        ("image", obj [("type", VStr "string")]);
        ("ipc", obj [("type", VStr "string")]);
        ("labels", obj [("$ref", VStr "#/definitions/list_or_dict")]);
        ("links", obj [("type", VStr "array"); ("items", obj [("type", VStr "string")]); ("uniqueItems", VBool true)]);
        ("log_driver", obj [("type", VStr "string")]);
        ("log_opt", obj [("type", VStr "object")]);
        ("mac_address", obj [("type", VStr "string")]);
        ("mem_limit", obj [("type", VList [VStr "number"; VStr "string"])]);
        ("memswap_limit", obj [("type", VList [VStr "number"; VStr "string"])]);
        ("net", obj [("type", VStr "string")]);
        ("pid", obj [("type", VList [VStr "string"; VStr "null"])]);
        ("ports", obj [
          ("type", VStr "array");
          ("items", obj [("type", VList [VStr "string"; VStr "number"]); ("format", VStr "ports")]);
          ("uniqueItems", VBool true)]);
        ("privileged", obj [("type", VStr "boolean")]);
        ("read_only", obj [("type", VStr "boolean")]);
        ("restart", obj [("type", VStr "string")]);
        ("security_opt", obj [("type", VStr "array"); ("items", obj [("type", VStr "string")]); ("uniqueItems", VBool true)]);
        ("shm_size", obj [("type", VList [VStr "number"; VStr "string"])]);
        ("stdin_open", obj [("type", VStr "boolean")]);
        ("stop_signal", obj [("type", VStr "string")]);
        ("tty", obj [("type", VStr "boolean")]);
        ("ulimits", obj [
          ("type", VStr "object");
          ("patternProperties", obj [
            ("^[a-z]+$", obj [
              ("oneOf", VList [
                obj [("type", VStr "integer")];
                obj [
                  ("type", VStr "object");
                  ("properties", obj [("hard", obj [("type", VStr "integer")]); ("soft", obj [("type", VStr "integer")])]);
                  ("required", VList [VStr "soft"; VStr "hard"]);
                  ("additionalProperties", VBool false)]])])])]);
        ("user", obj [("type", VStr "string")]);
        ("volumes", obj [("type", VStr "array"); ("items", obj [("type", VStr "string")]); ("uniqueItems", VBool true)]);
        ("volume_driver", obj [("type", VStr "string")]);
        ("volumes_from", obj [("type", VStr "array"); ("items", obj [("type", VStr "string")]); ("uniqueItems", VBool true)]);
        ("working_dir", obj [("type", VStr "string")])]);
      ("dependencies", obj [("memswap_limit", VList [VStr "mem_limit"])]);
      ("additionalProperties", VBool false)]);
    ("string_or_list", obj [("oneOf", VList [obj [("type", VStr "string")]; obj [("$ref", VStr "#/definitions/list_of_strings")]])]);
    ("list_of_strings", obj [("type", VStr "array"); ("items", obj [("type", VStr "string")]); ("uniqueItems", VBool true)]);
    ("list_or_dict", obj [
      ("oneOf", VList [
        obj [
          ("type", VStr "object");
          ("patternProperties", obj [(".+", obj [("type", VList [VStr "string"; VStr "number"; VStr "null"])])]);
          ("additionalProperties", VBool false)];
        obj [("type", VStr "array"); ("items", obj [("type", VStr "string")]); ("uniqueItems", VBool true)]])]);
    ("constraints", obj [
      ("service", obj [
        ("id", VStr "#/definitions/constraints/service");
        ("anyOf", VList [
          obj [("required", VList [VStr "build"]); ("not", obj [("required", VList [VStr "image"])])];
          obj [
            ("required", VList [VStr "image"]);
            ("not", obj [
              ("anyOf", VList [obj [("required", VList [VStr "build"])]; obj [("required", VList [VStr "dockerfile"])]])])]])])])])].

(** ** Compose files of version 2 *)

Definition schemaV2 : val := obj [
  ("$schema", VStr "http://json-schema.org/draft-04/schema#");
  ("id", VStr "config_schema_v2.0.json");
  ("type", VStr "object");
  ("properties", obj [
    ("version", obj [("type", VStr "string")]);
    ("services", obj [
      ("id", VStr "#/properties/services");
      ("type", VStr "object");
      ("patternProperties", obj [("^[a-zA-Z0-9._-]+$", obj [("$ref", VStr "#/definitions/service")])]);
      ("additionalProperties", VBool false)]);
    ("networks", obj [
      ("id", VStr "#/properties/networks");
      ("type", VStr "object");
      ("patternProperties", obj [("^[a-zA-Z0-9._-]+$", obj [("$ref", VStr "#/definitions/network")])])]);
    ("volumes", obj [
      ("id", VStr "#/properties/volumes");
      ("type", VStr "object");
      ("patternProperties", obj [("^[a-zA-Z0-9._-]+$", obj [("$ref", VStr "#/definitions/volume")])]);
      ("additionalProperties", VBool false)])]);
  ("additionalProperties", VBool false);
  ("definitions", obj [
    ("service", obj [
      ("id", VStr "#/definitions/service");
      ("type", VStr "object");
      ("properties", obj [
        ("build", obj [
          ("oneOf", VList [
            obj [("type", VStr "string")];
            obj [
              ("type", VStr "object");
              ("properties", obj [
                ("context", obj [("type", VStr "string")]);
                ("dockerfile", obj [("type", VStr "string")]);
                ("args", obj [("$ref", VStr "#/definitions/list_or_dict")])]);
              ("additionalProperties", VBool false)]])]);
        ("cap_add", obj [("type", VStr "array"); ("items", obj [("type", VStr "string")]); ("uniqueItems", VBool true)]);
        ("cap_drop", obj [("type", VStr "array"); ("items", obj [("type", VStr "string")]); ("uniqueItems", VBool true)]);
        ("cgroup_parent", obj [("type", VStr "string")]);
        ("command", obj [
          ("oneOf", VList [
            obj [("type", VStr "string")];
            obj [("type", VStr "array"); ("items", obj [("type", VStr "string")])]])]);
        ("container_name", obj [("type", VStr "string")]);
        ("cpu_shares", obj [("type", VList [VStr "number"; VStr "string"])]);
        ("cpu_quota", obj [("type", VList [VStr "number"; VStr "string"])]);
        ("cpuset", obj [("type", VStr "string")]);
        ("depends_on", obj [("$ref", VStr "#/definitions/list_of_strings")]);
        ("devices", obj [("type", VStr "array"); ("items", obj [("type", VStr "string")]); ("uniqueItems", VBool true)]);
        ("dns", obj [("$ref", VStr "#/definitions/string_or_list")]);
        ("dns_search", obj [("$ref", VStr "#/definitions/string_or_list")]);
        ("domainname", obj [("type", VStr "string")]);
        ("entrypoint", obj [
          ("oneOf", VList [
            obj [("type", VStr "string")];
            obj [("type", VStr "array"); ("items", obj [("type", VStr "string")])]])]);
        ("env_file", obj [("$ref", VStr "#/definitions/string_or_list")]);
        ("environment", obj [("$ref", VStr "#/definitions/list_or_dict")]);
        ("expose", obj [
          ("type", VStr "array");
          ("items", obj [("type", VList [VStr "string"; VStr "number"]); ("format", VStr "expose")]);
          ("uniqueItems", VBool true)]);
        ("extends", obj [
          ("oneOf", VList [
            obj [("type", VStr "string")];
            obj [
              ("type", VStr "object");
              ("properties", obj [("service", obj [("type", VStr "string")]); ("file", obj [("type", VStr "string")])]);
              ("required", VList [VStr "service"]);
              ("additionalProperties", VBool false)]])]);
        ("external_links", obj [("type", VStr "array"); ("items", obj [("type", VStr "string")]); ("uniqueItems", VBool true)]);
        ("extra_hosts", obj [("$ref", VStr "#/definitions/list_or_dict")]);
        ("hostname", obj [("type", VStr "string")]);
        ("image", obj [("type", VStr "string")]);
        ("ipc", obj [("type", VStr "string")]);
        ("labels", obj [("$ref", VStr "#/definitions/list_or_dict")]);
        ("links", obj [("type", VStr "array"); ("items", obj [("type", VStr "string")]); ("uniqueItems", VBool true)]);
        ("logging", obj [
          ("type", VStr "object");
          ("properties", obj [("driver", obj [("type", VStr "string")]); ("options", obj [("type", VStr "object")])]);
          ("additionalProperties", VBool false)]);
        ("mac_address", obj [("type", VStr "string")]);
        ("mem_limit", obj [("type", VList [VStr "number"; VStr "string"])]);
        ("memswap_limit", obj [("type", VList [VStr "number"; VStr "string"])]);
        ("network_mode", obj [("type", VStr "string")]);
        ("networks", obj [
          ("oneOf", VList [
            obj [("$ref", VStr "#/definitions/list_of_strings")];
            obj [
              ("type", VStr "object");
              ("patternProperties", obj [
                ("^[a-zA-Z0-9._-]+$", obj [
                  ("oneOf", VList [
                    obj [
                      ("type", VStr "object");
                      ("properties", obj [
                        ("aliases", obj [("$ref", VStr "#/definitions/list_of_strings")]);
                        ("ipv4_address", obj [("type", VStr "string")]);
                        ("ipv6_address", obj [("type", VStr "string")])]);
                      ("additionalProperties", VBool false)];
                    obj [("type", VStr "null")]])])]);
              ("additionalProperties", VBool false)]])]);
        ("oom_score_adj", obj [
          ("type", VStr "integer");
          ("minimum", VScalar (SFloat "-1000"));
          ("maximum", VScalar (SFloat "1000"))]);
        ("pid", obj [("type", VList [VStr "string"; VStr "null"])]);
        ("ports", obj [
          ("type", VStr "array");
          ("items", obj [("type", VList [VStr "string"; VStr "number"]); ("format", VStr "ports")]);
          ("uniqueItems", VBool true)]);
        ("privileged", obj [("type", VStr "boolean")]);
        ("read_only", obj [("type", VStr "boolean")]);
        ("restart", obj [("type", VStr "string")]);
        ("security_opt", obj [("type", VStr "array"); ("items", obj [("type", VStr "string")]); ("uniqueItems", VBool true)]);
        ("shm_size", obj [("type", VList [VStr "number"; VStr "string"])]);
        ("stdin_open", obj [("type", VStr "boolean")]);
        ("stop_signal", obj [("type", VStr "string")]);
        ("tmpfs", obj [("$ref", VStr "#/definitions/string_or_list")]);
        ("tty", obj [("type", VStr "boolean")]);
        ("ulimits", obj [
          ("type", VStr "object");
          ("patternProperties", obj [
            ("^[a-z]+$", obj [
              ("oneOf", VList [
                obj [("type", VStr "integer")];
                obj [
                  ("type", VStr "object");
                  ("properties", obj [("hard", obj [("type", VStr "integer")]); ("soft", obj [("type", VStr "integer")])]);
                  ("required", VList [VStr "soft"; VStr "hard"]);
                  ("additionalProperties", VBool false)]])])])]);
        ("user", obj [("type", VStr "string")]);
        ("volumes", obj [("type", VStr "array"); ("items", obj [("type", VStr "string")]); ("uniqueItems", VBool true)]);
        ("volume_driver", obj [("type", VStr "string")]);
        ("volumes_from", obj [("type", VStr "array"); ("items", obj [("type", VStr "string")]); ("uniqueItems", VBool true)]);
        ("working_dir", obj [("type", VStr "string")])]);
      ("dependencies", obj [("memswap_limit", VList [VStr "mem_limit"])]);
      ("additionalProperties", VBool false)]);
    ("network", obj [
      ("id", VStr "#/definitions/network");
      ("type", VStr "object");
      ("properties", obj [
        ("driver", obj [("type", VStr "string")]);
        ("driver_opts", obj [
          ("type", VStr "object");
          ("patternProperties", obj [("^.+$", obj [("type", VList [VStr "string"; VStr "number"])])])]);
        ("ipam", obj [
          ("type", VStr "object");
          ("properties", obj [("driver", obj [("type", VStr "string")]); ("config", obj [("type", VStr "array")])]);
          ("additionalProperties", VBool false)]);
        ("external", obj [
          ("type", VList [VStr "boolean"; VStr "object"]);
          ("properties", obj [("name", obj [("type", VStr "string")])]);
          ("additionalProperties", VBool false)])]);
      ("additionalProperties", VBool false)]);
    ("volume", obj [
      ("id", VStr "#/definitions/volume");
      ("type", VList [VStr "object"; VStr "null"]);
      ("properties", obj [
        ("driver", obj [("type", VStr "string")]);
        ("driver_opts", obj [
          ("type", VStr "object");
          ("patternProperties", obj [("^.+$", obj [("type", VList [VStr "string"; VStr "number"])])])]);
        ("external", obj [
          ("type", VList [VStr "boolean"; VStr "object"]);
          ("properties", obj [("name", obj [("type", VStr "string")])])]);
        ("additionalProperties", VBool false)]);
      ("additionalProperties", VBool false)]);
    ("string_or_list", obj [("oneOf", VList [obj [("type", VStr "string")]; obj [("$ref", VStr "#/definitions/list_of_strings")]])]);
    ("list_of_strings", obj [("type", VStr "array"); ("items", obj [("type", VStr "string")]); ("uniqueItems", VBool true)]);
    ("list_or_dict", obj [
      ("oneOf", VList [
        obj [
          ("type", VStr "object");
          ("patternProperties", obj [(".+", obj [("type", VList [VStr "string"; VStr "number"; VStr "null"])])]);
          ("additionalProperties", VBool false)];
        obj [("type", VStr "array"); ("items", obj [("type", VStr "string")]); ("uniqueItems", VBool true)]])]);
    ("constraints", obj [
      ("service", obj [
        ("id", VStr "#/definitions/constraints/service");
        ("anyOf", VList [obj [("required", VList [VStr "build"])]; obj [("required", VList [VStr "image"])]]);
        ("properties", obj [("build", obj [("required", VList [VStr "context"])])])])])])].

(** ** The configuration of the system *)

Definition schema : val := obj [
  ("type", VStr "object");
  ("additionalProperties", VBool false);
  ("properties", obj [
    ("ssh_authorized_keys", obj [("$ref", VStr "#/definitions/list_of_strings")]);
    ("write_files", obj [("type", VStr "array"); ("items", obj [("$ref", VStr "#/definitions/file_config")])]);
    ("hostname", obj [("type", VStr "string")]);
    ("mounts", obj [("type", VStr "array")]);
    ("rancher", obj [("$ref", VStr "#/definitions/rancher_config")]);
    ("runcmd", obj [("type", VStr "array")]);
    ("bootcmd", obj [("type", VStr "array")])]);
  ("definitions", obj [
    ("rancher_config", obj [
      ("id", VStr "#/definitions/rancher_config");
      ("type", VStr "object");
      ("additionalProperties", VBool false);
      ("properties", obj [
        ("console", obj [("type", VStr "string")]);
        ("environment", obj [("type", VStr "object")]);
        ("cloud_init_services", obj [("type", VStr "object")]);
        ("services", obj [("type", VStr "object")]);
        ("bootstrap", obj [("type", VStr "object")]);
        ("autoformat", obj [("type", VStr "object")]);
        ("bootstrap_docker", obj [("$ref", VStr "#/definitions/docker_config")]);
        ("cloud_init", obj [("$ref", VStr "#/definitions/cloud_init_config")]);
        ("debug", obj [("type", VStr "boolean")]);
        ("rm_usr", obj [("type", VStr "boolean")]);
        ("no_sharedroot", obj [("type", VStr "boolean")]);
        ("log", obj [("type", VStr "boolean")]);
        ("force_console_rebuild", obj [("type", VStr "boolean")]);
        ("recovery", obj [("type", VStr "boolean")]);
        ("disable", obj [("$ref", VStr "#/definitions/list_of_strings")]);
        ("services_include", obj [("type", VStr "object")]);
        ("modules", obj [("$ref", VStr "#/definitions/list_of_strings")]);
        ("network", obj [("$ref", VStr "#/definitions/network_config")]);
        ("repositories", obj [("type", VStr "object")]);
        ("ssh", obj [("$ref", VStr "#/definitions/ssh_config")]);
        ("state", obj [("$ref", VStr "#/definitions/state_config")]);
        ("system_docker", obj [("$ref", VStr "#/definitions/docker_config")]);
        ("upgrade", obj [("$ref", VStr "#/definitions/upgrade_config")]);
        ("docker", obj [("$ref", VStr "#/definitions/docker_config")]);
        ("registry_auths", obj [("type", VStr "object")]);
        ("defaults", obj [("$ref", VStr "#/definitions/defaults_config")]);
        ("resize_device", obj [("type", VStr "string")]);
        ("sysctl", obj [("type", VStr "object")]);
        ("restart_services", obj [("type", VStr "array")]);
        ("hypervisor_service", obj [("type", VStr "boolean")]);
        ("shutdown_timeout", obj [("type", VStr "integer")]);
        ("http_load_retries", obj [("type", VStr "integer")]);
        ("preload_wait", obj [("type", VStr "boolean")])])]);
    ("file_config", obj [
      ("id", VStr "#/definitions/file_config");
      ("type", VStr "object");
      ("additionalProperties", VBool false);
      ("properties", obj [
        ("encoding", obj [("type", VStr "string")]);
        ("container", obj [("type", VStr "string")]);
        ("content", obj [("type", VStr "string")]);
        ("owner", obj [("type", VStr "string")]);
        ("path", obj [("type", VStr "string")]);
        ("permissions", obj [("type", VStr "string")])])]);
    ("network_config", obj [
      ("id", VStr "#/definitions/network_config");
      ("type", VStr "object");
      ("additionalProperties", VBool false);
      ("properties", obj [
        ("pre_cmds", obj [("$ref", VStr "#/definitions/list_of_strings")]);
        ("dhcp_timeout", obj [("type", VStr "integer")]);
        ("dns", obj [("type", VStr "object")]);
        ("interfaces", obj [("type", VStr "object")]);
        ("post_cmds", obj [("$ref", VStr "#/definitions/list_of_strings")]);
        ("http_proxy", obj [("type", VStr "string")]);
        ("https_proxy", obj [("type", VStr "string")]);
        ("no_proxy", obj [("type", VStr "string")]);
        ("wifi_networks", obj [("type", VStr "object")]);
        ("modem_networks", obj [("type", VStr "object")])])]);
    ("upgrade_config", obj [
      ("id", VStr "#/definitions/upgrade_config");
      ("type", VStr "object");
      ("additionalProperties", VBool false);
      ("properties", obj [
        ("url", obj [("type", VStr "string")]);
        ("image", obj [("type", VStr "string")]);
        ("rollback", obj [("type", VStr "string")]);
        ("policy", obj [("type", VStr "string")])])]);
    ("docker_config", obj [
      ("id", VStr "#/definitions/docker_config");
      ("type", VStr "object");
      ("additionalProperties", VBool false);
      ("properties", obj [
        ("engine", obj [("type", VStr "string")]);
        ("tls", obj [("type", VStr "boolean")]);
        ("tls_args", obj [("$ref", VStr "#/definitions/list_of_strings")]);
        ("args", obj [("$ref", VStr "#/definitions/list_of_strings")]);
        ("extra_args", obj [("$ref", VStr "#/definitions/list_of_strings")]);
        ("server_cert", obj [("type", VStr "string")]);
        ("server_key", obj [("type", VStr "string")]);
        ("ca_cert", obj [("type", VStr "string")]);
        ("ca_key", obj [("type", VStr "string")]);
        ("environment", obj [("$ref", VStr "#/definitions/list_of_strings")]);
        ("storage_context", obj [("type", VStr "string")]);
        ("exec", obj [("type", VList [VStr "boolean"; VStr "null"])]);
        ("bridge", obj [("type", VStr "string")]);
        ("bip", obj [("type", VStr "string")]);
        ("config_file", obj [("type", VStr "string")]);
        ("containerd", obj [("type", VStr "string")]);
        ("debug", obj [("type", VList [VStr "boolean"; VStr "null"])]);
        ("exec_root", obj [("type", VStr "string")]);
        ("group", obj [("type", VStr "string")]);
        ("data_root", obj [("type", VStr "string")]);
        ("host", obj [("type", VStr "array")]);
        ("live_restore", obj [("type", VList [VStr "boolean"; VStr "null"])]);
        ("log_driver", obj [("type", VStr "string")]);
        ("log_opts", obj [("type", VStr "object")]);
        ("pid_file", obj [("type", VStr "string")]);
        ("registry_mirror", obj [("type", VStr "string")]);
        ("restart", obj [("type", VList [VStr "boolean"; VStr "null"])]);
        ("storage_driver", obj [("type", VStr "string")]);
        ("userland_proxy", obj [("type", VList [VStr "boolean"; VStr "null"])]);
        ("userns_enabled", obj [("type", VList [VStr "boolean"; VStr "null"])]);
        ("insecure_registry", obj [("$ref", VStr "#/definitions/list_of_strings")])])]);
    ("ssh_config", obj [
      ("id", VStr "#/definitions/ssh_config");
      ("type", VStr "object");
      ("additionalProperties", VBool false);
      ("properties", obj [
        ("keys", obj [("type", VStr "object")]);
        ("daemon", obj [("type", VStr "boolean")]);
        ("port", obj [("type", VStr "integer")]);
        ("listen_address", obj [("type", VStr "string")])])]);
    ("state_config", obj [
      ("id", VStr "#/definitions/state_config");
      ("type", VStr "object");
      ("additionalProperties", VBool false);
      ("properties", obj [
        ("directory", obj [("type", VStr "string")]);
        ("fstype", obj [("type", VStr "string")]);
        ("dev", obj [("type", VStr "string")]);
        ("wait", obj [("type", VStr "boolean")]);
        ("required", obj [("type", VStr "boolean")]);
        ("autoformat", obj [("$ref", VStr "#/definitions/list_of_strings")]);
        ("mdadm_scan", obj [("type", VStr "boolean")]);
        ("cryptsetup", obj [("type", VStr "boolean")]);
        ("lvm_scan", obj [("type", VStr "boolean")]);
        ("rngd", obj [("type", VStr "boolean")]);
        ("script", obj [("type", VStr "string")]);
        ("oem_fstype", obj [("type", VStr "string")]);
        ("oem_dev", obj [("type", VStr "string")]);
        ("boot_fstype", obj [("type", VStr "string")]);
        ("boot_dev", obj [("type", VStr "string")])])]);
    ("cloud_init_config", obj [
      ("id", VStr "#/definitions/cloud_init_config");
      ("type", VStr "object");
      ("additionalProperties", VBool false);
      ("properties", obj [("datasources", obj [("$ref", VStr "#/definitions/list_of_strings")])])]);
    ("defaults_config", obj [
      ("id", VStr "#/definitions/defaults_config");
      ("type", VStr "object");
      ("additionalProperties", VBool false);
      ("properties", obj [
        ("hostname", obj [("type", VStr "string")]);
        ("docker", obj [("type", VStr "object")]);
        ("network", obj [("$ref", VStr "#/definitions/network_config")]);
        ("system_docker_logs", obj [("type", VStr "string")])])]);
    ("list_of_strings", obj [("type", VStr "array"); ("items", obj [("type", VStr "string")]); ("uniqueItems", VBool true)])])].

(** ** Looking into a schema ([schema_helpers.go]) *)

(** [v.(map[string]interface{})[k]]; a missing value is no map. *)
Definition as_object (v : option val) : result (gmap string val) :=
  match v with Some (VSMap m) => Ok m | _ => Panic "interface conversion: not a map" end.
Definition as_text (v : option val) : result string :=
  match v with Some (VScalar (SStr s)) => Ok s | _ => Panic "interface conversion: not a string" end.
Definition as_array (v : option val) : result (list val) :=
  match v with Some (VList l) => Ok l | _ => Panic "interface conversion: not a slice" end.

Definition last_part (context : string) : string := default "" (last (Split context ".")).

(** The types of the alternatives. *)
Definition condition_type (validCondition : val) : result string :=
  condition ← as_object (Some validCondition); as_text (condition !! "type").

Definition reference_types (reference : string) : list string :=
  if String.eqb reference "#/definitions/string_or_list" then ["string"; "array"]
  else if String.eqb reference "#/definitions/list_of_strings" then ["array"]
  else if String.eqb reference "#/definitions/list_or_dict" then ["array"; "object"]
  else [].

Definition parseValidTypesFromSchema (schema : gmap string val) (context : string) : result (list string) :=
  let key := last_part context in
  definitions ← as_object (schema !! "definitions");
  service ← as_object (definitions !! "service");
  properties ← as_object (service !! "properties");
  property ← as_object (properties !! key);
  match property !! "oneOf", property !! "$ref" with
  | Some val, _ => validConditions ← as_array (Some val); mapR condition_type validConditions
  | None, Some val => reference ← as_text (Some val); Ok (reference_types reference)
  | None, None => Ok []
  end.

(** ** Lemmas *)

(** All the references of a document. *)
Fixpoint references (v : val) : list string :=
  match v with
  | VScalar _ => []
  | VList l => l ≫= references
  | VSMap m =>
      map_fold (λ k x acc, (match x with VScalar (SStr s) => if String.eqb k "$ref" then [s] else [] | _ => [] end
                            ++ references x ++ acc)%list) [] m
  | VMap m => map_fold (λ _ x acc, (references x ++ acc)%list) [] m
  end.

(** The definition that a reference names. *)
Definition resolves (v : val) (reference : string) : bool :=
  match as_object (Some v), Split reference "/" with
  | Ok m, ["#"; "definitions"; name] =>
      match as_object (m !! "definitions") with Ok d => bool_decide (is_Some (d !! name)) | _ => false end
  | _, _ => false
  end.

Lemma references_resolve :
  forallb (resolves schemaV1) (references schemaV1) = true ∧ forallb (resolves schemaV2) (references schemaV2) = true ∧
  forallb (resolves schema) (references schema) = true ∧
  length (references schema) = 24%nat.
Proof. by vm_compute. Qed.

Definition fields (v : val) : gmap string val := match v with VSMap m => m | _ => ∅ end.
Definition service_properties : list string :=
  match definitions ← as_object (fields schemaV1 !! "definitions"); service ← as_object (definitions !! "service");
        as_object (service !! "properties") with
  | Ok m => (map_to_list m).*1
  | _ => []
  end.

(** The context of a property of a service. *)
Definition property_context (name key : string) : string := Join ["(root)"; name; key] ".".

Lemma forallb_holds {A} (f : A → bool) l : forallb f l = true → Forall (λ x, f x = true) l.
Proof. induction l as [|x l IH]; [constructor|]. cbn. intros [Hx Hl]%andb_prop. constructor; auto. Qed.

(** Every property of a service has its types looked up without a panic. *)
Lemma properties_have_types :
  Forall (λ key, is_ok (parseValidTypesFromSchema (fields schemaV1) (property_context "web" key)) = true)
    service_properties ∧ length service_properties = 48%nat.
Proof. split; [apply forallb_holds|]; by vm_compute. Qed.

(** The alternatives of a limit are below the property: the last part of their context is no property. *)
Lemma limit_types_panic :
  parseValidTypesFromSchema (fields schemaV1) "(root).web.ulimits.nofile" = Panic "interface conversion: not a map".
Proof. by vm_compute. Qed.
