(* ===== verification/ComposeValidate.v ===== *)
(** * Validation of compose files of version 1 ([pkg/libcompose/config/validation.go])

    What becomes of the errors of the schema library, which is a parameter: its errors, with their context and
    their details, come in a list. *)

From stdpp Require Import prelude gmap strings list.
From S2P Require Import Prelude GoStrings RawTree ConfigData Util Interpolation ServiceMerge Compose Schemas.

Local Open Scope string_scope.

(** An error of the schema library. *)
Record ResultError := {
  Type_ : string;
  Context_ : string;
  Field : string;
  Description : string;
  Details : gmap string val;
}.

(** ** Keys *)

(** A key that is not a text is a failed assertion. *)
Fixpoint convertKeysToStrings (item : val) : result val :=
  match item with
  | VMap m =>
      VSMap <$> map_fold (λ k v acc,
        acc ← acc;
        match k with
        | SStr k => v ← convertKeysToStrings v; Ok (<[k := v]> acc)
        | _ => Panic "interface conversion: key is not string"
        end) (Ok ∅) m
  | VList l => VList <$> foldr (λ v acc, v ← convertKeysToStrings v; acc ← acc; Ok (v :: acc)) (Ok []) l
  | _ => Ok item
  end.

Definition convertServiceKeysToStrings (service : service_map) : result service_map :=
  map_fold (λ k v acc, v ← convertKeysToStrings v; acc ← acc; Ok (<[k := v]> acc)) (Ok ∅) service.

Definition convertServiceMapKeysToStrings (serviceMap : gmap string service_map) : result (gmap string service_map) :=
  map_fold (λ k v acc, v ← convertServiceKeysToStrings v; acc ← acc; Ok (<[k := v]> acc)) (Ok ∅) serviceMap.

(** ** The parts of a message *)

Definition serviceNameFromErrorField (field : string) : string := default "" (head (Split field ".")).
Definition keyNameFromErrorField (field : string) : string := last_part field.

Definition containsTypeError (resultError : ResultError) : bool := negb (Atoi (last_part (Context_ resultError))).2.

Definition addArticle (s : string) : result string :=
  match s with
  | "" => Panic "index out of range"
  | String c _ => Ok (if has_char c "aeiouAEIOU" then "an " +:+ s else "a " +:+ s)
  end.

(** What is looked into: the services, a service, any other value. *)
Inductive node :=
  | NServices (m : gmap string service_map)
  | NService (m : service_map)
  | NVal (v : val).

Definition dockerConfigHints : gmap string string :=
  {[ "cpu_share" := "cpu_shares"; "add_host" := "extra_hosts"; "hosts" := "extra_hosts"; "extra_host" := "extra_hosts";
     "device" := "devices"; "link" := "links"; "memory_swap" := "memswap_limit"; "port" := "ports";
     "privilege" := "privileged"; "priviliged" := "privileged"; "privilige" := "privileged"; "volume" := "volumes";
     "workdir" := "working_dir" ]}.

Section Validate.
(** [fmt.Sprint] of what is no text, number or bool; the schema library, with a schema and a document. *)
Context (Sprint_node : node → string) (Sprint_other : val → string).
Context (Validate_services : gmap string service_map → string + list ResultError).
Context (Validate_constraints : service_map → string + list ResultError).

Definition Sprint (n : node) : string :=
  match n with NVal v => Compose.Sprint Sprint_other v | _ => Sprint_node n end.

(** One part of a context. The maps of the converted document are none of the types that are looked for, and
    stay where they are; a number is an index. *)
Definition descend (n : node) (k : string) : result node :=
  match n with
  | NServices m => Ok (NService (default ∅ (m !! k)))
  | NService m => Ok (NVal (default (VScalar SNil) (m !! k)))
  | NVal (VMap m) => Ok (NVal (default (VScalar SNil) (m !! SStr k)))
  | NVal (VList l) =>
      match Atoi k with
      | (i, false) =>
          match (if (i <? 0)%Z then None else l !! Z.to_nat i) with
          | Some v => Ok (NVal v)
          | None => Panic "index out of range"
          end
      | _ => Ok n
      end
  | NVal v => Ok (NVal v)
  end.

Fixpoint value_at (n : node) (keys : list string) : result string :=
  match keys with
  | [] => Ok ""
  | k :: keys =>
      match n with
      | NVal (VScalar (SStr s)) => Ok s
      | _ => n ← descend n k; match keys with [] => Ok (Sprint n) | _ => value_at n keys end
      end
  end.

Definition getValue (val : node) (context : string) : result string :=
  match Split context "." with
  | "(root)" :: keys => value_at val keys
  | keys => value_at val keys
  end.

Definition unsupportedConfigMessage (key : string) (nextErr : ResultError) : string :=
  "Unsupported config option for " +:+ serviceNameFromErrorField (Field nextErr) +:+ " service: '" +:+ key +:+ "'" +:+
  match dockerConfigHints !! key with Some val => " (did you mean '" +:+ val +:+ "'?)" | None => "" end.

(** [%s] of a detail, which is a text. *)
Definition detail (v : option val) : string :=
  match v with Some v => Compose.Sprint Sprint_other v | None => "%!s(<nil>)" end.

Definition oneOfMessage (serviceMap : gmap string service_map) (schema : gmap string val) (err nextErr : ResultError) :
    result string :=
  if String.eqb (Type_ nextErr) "additional_property_not_allowed" then
    Ok ("contains unsupported option: '" +:+ detail (Details nextErr !! "property") +:+ "'")
  else if String.eqb (Type_ nextErr) "invalid_type" then
    if containsTypeError nextErr then
      expected ← as_text (Details nextErr !! "expected");
      expectedType ← addArticle expected;
      value ← getValue (NServices serviceMap) (Context_ nextErr);
      Ok ("contains " +:+ value +:+ ", which is an invalid type, it should be " +:+ expectedType)
    else
      validTypes ← parseValidTypesFromSchema schema (Context_ err);
      validTypesMsg ← addArticle (Join validTypes " or ");
      Ok ("contains an invalid type, it should be " +:+ validTypesMsg)
  else if String.eqb (Type_ nextErr) "unique" then
    contextWithDuplicates ← getValue (NServices serviceMap) (Context_ nextErr);
    Ok ("contains non unique items, please remove duplicates from " +:+ contextWithDuplicates)
  else Ok "".

(** [s[1:len(s)-1]]. *)
Definition inner_text (s : string) : result string :=
  match s with
  | String _ (String c t) => Ok (firstn_s (String.length t) (String c t))
  | _ => Panic "slice bounds out of range"
  end.

Definition invalidTypeMessage (service key : string) (err : ResultError) : result string :=
  expectedTypesString ← as_text (Details err !! "expected");
  expectedTypes ← (if has_char "," expectedTypesString then s ← inner_text expectedTypesString; Ok (Split s ",")
                   else Ok [expectedTypesString]);
  validTypesMsg ← addArticle (Join expectedTypes " or ");
  Ok ("Service '" +:+ service +:+ "' configuration key '" +:+ key +:+ "' contains an invalid type, it should be " +:+
      validTypesMsg +:+ ".").

(** ** [validate] *)

Definition at_root (err : ResultError) : bool := String.eqb (Context_ err) "(root)".
Definition additional (err : ResultError) : bool := String.eqb (Type_ err) "additional_property_not_allowed".

Definition root_message (err : ResultError) : string :=
  if additional err then
    "Invalid service name '" +:+ Field err +:+ "' - only [a-zA-Z0-9\._\-] characters are allowed"
  else Description err.

(** The message of an error that concerns one service only. *)
Definition service_message (serviceMap : gmap string service_map) (err : ResultError) : result string :=
  let serviceName := serviceNameFromErrorField (Field err) in
  let key := keyNameFromErrorField (Field err) in
  if String.eqb (Type_ err) "invalid_type" then invalidTypeMessage serviceName key err
  else if String.eqb (Type_ err) "required" then
    Ok ("Service '" +:+ serviceName +:+ "' option '" +:+ key +:+ "' is invalid, " +:+ Description err)
  else if String.eqb (Type_ err) "missing_dependency" then
    dependency ← as_text (Details err !! "dependency");
    Ok ("Invalid configuration for '" +:+ serviceName +:+ "' service: dependency '" +:+ dependency +:+ "' is not satisfied")
  else if String.eqb (Type_ err) "unique" then
    contextWithDuplicates ← getValue (NServices serviceMap) (Context_ err);
    Ok ("Service '" +:+ serviceName +:+ "' configuration key '" +:+ key +:+ "' value " +:+ contextWithDuplicates +:+
        " has non-unique elements")
  else Ok ("Service '" +:+ serviceName +:+ "' configuration key " +:+ key +:+ " value " +:+ Description err).

(** The loop over the errors; the one after a [number_one_of] is part of its message. *)
Fixpoint messages (serviceMap : gmap string service_map) (schema : gmap string val)
    (skipRootAdditionalPropertyError : bool) (errs : list ResultError) : result (list string) :=
  match errs with
  | [] => Ok []
  | err :: rest =>
      if skipRootAdditionalPropertyError && additional err && at_root err then messages serviceMap schema false rest
      else if at_root err then
        ms ← messages serviceMap schema skipRootAdditionalPropertyError rest; Ok (root_message err :: ms)
      else if additional err then
        match rest with
        | [] => Panic "index out of range"
        | nextErr :: _ =>
            ms ← messages serviceMap schema true rest;
            Ok (unsupportedConfigMessage (keyNameFromErrorField (Field err)) nextErr :: ms)
        end
      else if String.eqb (Type_ err) "number_one_of" then
        match rest with
        | [] => Panic "index out of range"
        | nextErr :: rest =>
            m ← oneOfMessage serviceMap schema err nextErr;
            ms ← messages serviceMap schema true rest;
            Ok (("Service '" +:+ serviceNameFromErrorField (Field err) +:+ "' configuration key '" +:+
                 keyNameFromErrorField (Field err) +:+ "' " +:+ m) :: ms)
        end
      else
        m ← service_message serviceMap err;
        ms ← messages serviceMap schema true rest;
        Ok (m :: ms)
  end.

Definition newline : string := String "010" "".

(** [None] when the document is valid. *)
Definition validate (serviceMap : gmap string service_map) : result (option string) :=
  serviceMap ← convertServiceMapKeysToStrings serviceMap;
  match Validate_services serviceMap with
  | inl e => Ok (Some e)
  | inr [] => Ok None
  | inr errs => ms ← messages serviceMap (fields schemaV1) false errs; Ok (Some (Join ms newline))
  end.

(** ** [validateServiceConstraints] *)

Definition constraint_message (service : service_map) (serviceName : string) : list string :=
  let containsImage := bool_decide (is_Some (service !! "image")) in
  let containsBuild := bool_decide (is_Some (service !! "build")) in
  let containsDockerfile := bool_decide (is_Some (service !! "dockerfile")) in
  if containsImage && containsBuild then
    ["Service '" +:+ serviceName +:+ "' has both an image and build path specified. A service can either be built to image or use an existing image, not both."]
  else if negb containsImage && negb containsBuild then
    ["Service '" +:+ serviceName +:+ "' has neither an image nor a build path specified. Exactly one must be provided."]
  else if containsImage && containsDockerfile then
    ["Service '" +:+ serviceName +:+ "' has both an image and alternate Dockerfile. A service can either be built to image or use an existing image, not both."]
  else [].

Definition validateServiceConstraints (service : service_map) (serviceName : string) : result (option string) :=
  service ← convertServiceKeysToStrings service;
  match Validate_constraints service with
  | inl e => Ok (Some e)
  | inr [] => Ok None
  | inr errs =>
      Ok (Some (Join (errs ≫= λ err,
        if String.eqb (Type_ err) "number_any_of" then constraint_message service serviceName else []) newline))
  end.
End Validate.

(** ** Lemmas *)

(** What the YAML library builds: no map has strings for its type of keys. *)
Fixpoint yaml_tree (v : val) : bool :=
  match v with
  | VScalar _ => true
  | VList l => forallb yaml_tree l
  | VMap m => map_fold (λ _ v acc, yaml_tree v && acc) true m
  | VSMap _ => false
  end.

(** The configuration has a copy of this function; on what YAML gives the two are the same. *)
Lemma convertKeysToStrings_copy v : yaml_tree v = true → convertKeysToStrings v = ConvertKeysToStrings v.
Proof.
  induction v as [s|l IH|m IH|m IH] using val_ind'; [done| | |done].
  - intros Hl. cbn. f_equal. induction l as [|x l IHl]; [done|]. 
    assert (convertKeysToStrings x = ConvertKeysToStrings x) as Ex by (apply IH; [by left|by cbn in Hl; apply andb_prop in Hl as [Hx _]]).
    cbn in *. apply andb_prop in Hl as [_ Hl]. rewrite Ex, IHl; [done| |done]. intros v Hv. apply IH. by right.
  - intros Hm. cbn in *. rewrite map_fold_andb in Hm. f_equal. apply map_fold_ext_val. intros k v a Hk.
    unfold mbind, result_bind. destruct a; [|done|done]. destruct k; try done. by rewrite (IH _ _ Hk (Hm _ _ Hk)).
Qed.

Section Lemmas.
Context (Sprint_node : node → string) (Sprint_other : val → string).
Local Abbreviation messages := (messages Sprint_node Sprint_other).

(** Errors are not passed over in silence: the first one gives a message. *)
Lemma messages_not_empty serviceMap schema err errs ms :
  messages serviceMap schema false (err :: errs) = Ok ms → ms ≠ [].
Proof using Type.
  cbn [ComposeValidate.messages]. cbn [andb]. unfold mbind, result_bind.
  repeat case_match; intros [= <-]; done.
Qed.

(** A message stands for three errors at most: its own, the alternative that explains it and one of the root that
    comes with it. *)
Lemma messages_count serviceMap schema skip errs ms :
  messages serviceMap schema skip errs = Ok ms →
  (length errs ≤ 3 * length ms + (if skip then 1 else 0))%nat.
Proof using Type.
  revert skip ms. induction errs as [errs IH] using (induction_ltof1 _ length). unfold ltof in IH. intros skip ms.
  destruct errs as [|err errs]; [cbn; lia|]. cbn [ComposeValidate.messages length].
  assert (∀ skip ms, messages serviceMap schema skip errs = Ok ms → (length errs ≤ 3 * length ms + (if skip then 1 else 0))%nat) as IH1.
  { intros skip' ms'. apply IH. cbn. lia. }
  unfold mbind, result_bind. destruct (skip && additional err && at_root err) eqn:Hs.
  { intros H%IH1. destruct skip; [lia|done]. }
  destruct (at_root err).
  { destruct (messages _ _ skip errs) as [ms'|e|e] eqn:E; [|done|done]. intros [= <-]. apply IH1 in E. cbn. lia. }
  destruct (additional err).
  { destruct errs as [|next errs]; [done|]. destruct (messages _ _ true _) as [ms'|e|e] eqn:E; [|done|done].
    intros [= <-]. apply IH1 in E. cbn in *. lia. }
  destruct (String.eqb (Type_ err) "number_one_of").
  { destruct errs as [|next errs]; [done|]. destruct (oneOfMessage _ _ _ _ _ _) as [m|e|e]; [|done|done].
    destruct (messages _ _ true errs) as [ms'|e|e] eqn:E; [|done|done]. intros [= <-].
    apply IH in E; [cbn in *; lia|cbn; lia]. }
  destruct (service_message _ _ _ _) as [m|e|e]; [|done|done].
  destruct (messages _ _ true errs) as [ms'|e|e] eqn:E; [|done|done]. intros [= <-]. apply IH1 in E. cbn in *. lia.
Qed.

(** The errors of a limit that is neither a number nor a pair panic: the last part of the context of the
    alternatives is the name of the limit, and no property has it. *)
Lemma limit_errors_panic serviceMap err nextErr errs :
  Type_ err = "number_one_of" → Context_ err = "(root).web.ulimits.nofile" → Type_ nextErr = "invalid_type" →
  Context_ nextErr = "(root).web.ulimits.nofile" →
  messages serviceMap (fields schemaV1) false (err :: nextErr :: errs) = Panic "interface conversion: not a map".
Proof using Type.
  intros H1 H2 H3 H4. cbn [ComposeValidate.messages]. unfold at_root, additional. rewrite H1, H2. cbn [andb String.eqb Ascii.eqb eqb].
  unfold oneOfMessage. rewrite H3. cbn [andb String.eqb Ascii.eqb eqb]. unfold containsTypeError. rewrite H4, H2.
  change (negb (Atoi (last_part "(root).web.ulimits.nofile")).2) with false. cbv match.
  by rewrite limit_types_panic.
Qed.
End Lemmas.

(** The maps below a service are of strings once they are converted, and are not looked into: the value at a deeper
    context is the text of the whole map. *)
Lemma getValue_stops_at_maps Sprint_node Sprint_other (m : gmap string val) keys :
  value_at Sprint_node Sprint_other (NVal (VSMap m)) keys = Ok (if decide (keys = []) then "" else Sprint_other (VSMap m)).
Proof.
  induction keys as [|k keys IH]; [done|]. cbn. unfold mbind, result_bind. destruct keys; [done|]. exact IH.
Qed.

(** A violation of the constraints other than the alternatives is an error without a text. *)
Lemma constraint_error_without_text Validate_constraints service name err :
  convertServiceKeysToStrings service = Ok service →
  Validate_constraints service = inr [err] → Type_ err ≠ "number_any_of" →
  validateServiceConstraints Validate_constraints service name = Ok (Some "").
Proof.
  intros Hc Hv Ht. unfold validateServiceConstraints. rewrite Hc. unfold mbind, result_bind. rewrite Hv. cbn.
  by rewrite (proj2 (String.eqb_neq _ _) Ht).
Qed.
