(* ===== verification/ProjectOps.v ===== *)
(** * The operations of a compose project ([pkg/libcompose/project])

    Events and their listeners, the context that a project is opened with, the services it creates, what a wrapper does
    for one service, and the operations that are made of rounds over the services. A round is one call here; how its
    goroutines run is the subject of [ProjectDag] and [ProjectExec]. *)

From stdpp Require Import prelude gmap strings sorting list.
From S2P Require Import Prelude GoStrings Prog ProjectDag ProjectExec.
From S2P Require ServiceConvert Docker.

Local Open Scope string_scope.

(** ** Events ([events.go]) *)

Inductive EventType :=
  | NoEvent
  | ContainerCreated | ContainerStarted
  | ServiceAdd | ServiceUpStart | ServiceUpIgnored | ServiceUp | ServiceCreateStart | ServiceCreate
  | ServiceDeleteStart | ServiceDelete | ServiceDownStart | ServiceDown | ServiceRestartStart | ServiceRestart
  | ServicePullStart | ServicePull | ServiceKillStart | ServiceKill | ServiceStartStart | ServiceStart
  | ServiceBuildStart | ServiceBuild | ServicePauseStart | ServicePause | ServiceUnpauseStart | ServiceUnpause
  | ServiceStopStart | ServiceStop | ServiceRunStart | ServiceRun
  | VolumeAdd | NetworkAdd
  | ProjectDownStart | ProjectDownDone | ProjectCreateStart | ProjectCreateDone | ProjectUpStart | ProjectUpDone
  | ProjectDeleteStart | ProjectDeleteDone | ProjectRestartStart | ProjectRestartDone | ProjectReload
  | ProjectReloadTrigger | ProjectKillStart | ProjectKillDone | ProjectStartStart | ProjectStartDone
  | ProjectBuildStart | ProjectBuildDone | ProjectPauseStart | ProjectPauseDone | ProjectUnpauseStart
  | ProjectUnpauseDone | ProjectStopStart | ProjectStopDone.

#[export] Instance EventType_eq_dec : EqDecision EventType.
Proof. solve_decision. Defined.

(** In the order of [iota]. *)
Definition all_events : list EventType := [
  NoEvent; ContainerCreated; ContainerStarted; ServiceAdd; ServiceUpStart; ServiceUpIgnored; ServiceUp;
  ServiceCreateStart; ServiceCreate; ServiceDeleteStart; ServiceDelete; ServiceDownStart; ServiceDown;
  ServiceRestartStart; ServiceRestart; ServicePullStart; ServicePull; ServiceKillStart; ServiceKill;
  ServiceStartStart; ServiceStart; ServiceBuildStart; ServiceBuild; ServicePauseStart; ServicePause;
  ServiceUnpauseStart; ServiceUnpause; ServiceStopStart; ServiceStop; ServiceRunStart; ServiceRun; VolumeAdd;
  NetworkAdd; ProjectDownStart; ProjectDownDone; ProjectCreateStart; ProjectCreateDone; ProjectUpStart;
  ProjectUpDone; ProjectDeleteStart; ProjectDeleteDone; ProjectRestartStart; ProjectRestartDone; ProjectReload;
  ProjectReloadTrigger; ProjectKillStart; ProjectKillDone; ProjectStartStart; ProjectStartDone; ProjectBuildStart;
  ProjectBuildDone; ProjectPauseStart; ProjectPauseDone; ProjectUnpauseStart; ProjectUnpauseDone; ProjectStopStart;
  ProjectStopDone].

Definition event_number (e : EventType) : nat :=
  match list_find (λ e', e' = e) all_events with Some (n, _) => n | None => 0 end.

Definition event_text (e : EventType) : string :=
  match e with
  | ContainerCreated => "Created container"
  | ContainerStarted => "Started container"
  | ServiceAdd => "Adding"
  | ServiceUpStart => "Starting"
  | ServiceUpIgnored => "Ignoring"
  | ServiceUp => "Started"
  | ServiceCreateStart => "Creating"
  | ServiceCreate => "Created"
  | ServiceDeleteStart => "Deleting"
  | ServiceDelete => "Deleted"
  | ServiceStopStart => "Stopping"
  | ServiceStop => "Stopped"
  | ServiceDownStart => "Stopping"
  | ServiceDown => "Stopped"
  | ServiceRestartStart => "Restarting"
  | ServiceRestart => "Restarted"
  | ServicePullStart => "Pulling"
  | ServicePull => "Pulled"
  | ServiceKillStart => "Killing"
  | ServiceKill => "Killed"
  | ServiceStartStart => "Starting"
  | ServiceStart => "Started"
  | ServiceBuildStart => "Building"
  | ServiceBuild => "Built"
  | ServiceRunStart => "Executing"
  | ServiceRun => "Executed"
  | ProjectDownStart => "Stopping project"
  | ProjectDownDone => "Project stopped"
  | ProjectStopStart => "Stopping project"
  | ProjectStopDone => "Project stopped"
  | ProjectCreateStart => "Creating project"
  | ProjectCreateDone => "Project created"
  | ProjectUpStart => "Starting project"
  | ProjectUpDone => "Project started"
  | ProjectDeleteStart => "Deleting project"
  | ProjectDeleteDone => "Project deleted"
  | ProjectRestartStart => "Restarting project"
  | ProjectRestartDone => "Project restarted"
  | ProjectReload => "Reloading project"
  | ProjectReloadTrigger => "Triggering project reload"
  | ProjectKillStart => "Killing project"
  | ProjectKillDone => "Project killed"
  | ProjectStartStart => "Starting project"
  | ProjectStartDone => "Project started"
  | ProjectBuildStart => "Building project"
  | ProjectBuildDone => "Project built"
  | _ => ""
  end.

(** [EventType.String]. *)
Definition EventType_String (e : EventType) : string :=
  match event_text e with "" => "EventType: " +:+ Itoa (Z.of_nat (event_number e)) | m => m end.

Record Event := { Event_Type : EventType; ServiceName : string; Data : gmap string string }.

Definition new_event (e : EventType) (name : string) : Event := {| Event_Type := e; ServiceName := name; Data := ∅ |}.

(** *** The listener that logs ([listener.go]) *)

Definition infoEvents : list EventType := [
  ProjectDeleteDone; ProjectDeleteStart; ProjectDownDone; ProjectDownStart; ProjectRestartDone; ProjectRestartStart;
  ProjectUpDone; ProjectUpStart; ServiceDeleteStart; ServiceDelete; ServiceDownStart; ServiceDown;
  ServiceRestartStart; ServiceRestart; ServiceUpStart; ServiceUp].

(** The data of an event, in the order in which the map is visited. *)
Definition data_text (data : list (string * string)) : string :=
  Join ((λ kv, kv.1 +:+ "=" +:+ kv.2) <$> data) ", ".

(** What is logged for one event, whether for information, and the count of services that are up. *)
Definition listen (name : string) (services : nat) (range : gmap string string → list (string * string))
    (upCount : nat) (e : Event) : (bool * string) * nat :=
  let upCount := if bool_decide (Event_Type e = ServiceUp) then S upCount else upCount in
  let buffer := data_text (range (Data e)) in
  let line :=
    if String.eqb (ServiceName e) "" then
      "Project [" +:+ name +:+ "]: " +:+ EventType_String (Event_Type e) +:+ " " +:+ buffer
    else
      "[" +:+ Itoa (Z.of_nat upCount) +:+ "/" +:+ Itoa (Z.of_nat services) +:+ "] [" +:+ ServiceName e +:+ "]: " +:+
      EventType_String (Event_Type e) +:+ " " +:+ buffer in
  ((bool_decide (Event_Type e ∈ infoEvents), line), upCount).

(** ** Options *)

Record CreateOptions := { NoRecreate : bool; ForceRecreate : bool; NoBuild : bool }.
Record UpOptions := { UpCreate : CreateOptions; UpLog : bool }.
Record BuildOptions := { NoCache : bool; ForceRemove : bool; BuildPull : bool }.
Record DownOptions := { DownRemoveVolume : bool; RemoveImages : string; RemoveOrphans : bool }.

(** [ImageType.Valid]. *)
Definition ImageType_Valid (i : string) : bool := existsb (String.eqb i) [""; "local"; "all"].

Definition default_create : CreateOptions := {| NoRecreate := false; ForceRecreate := false; NoBuild := false |}.

(** What is asked of a service. [Delete] is told whether volumes go as well. *)
Inductive action :=
  | ABuild (o : BuildOptions)
  | ACreate (o : CreateOptions)
  | AUp (o : UpOptions)
  | AStart
  | AStop (timeout : Z)
  | ARestart (timeout : Z)
  | ADelete (volumes : bool)
  | AKill (signal : string)
  | ALog (follow : bool)
  | APull
  | APause
  | AUnpause
  | ARemoveImage (imageType : string)
  | ARun (service : string) (command : list string)
  | AListStopped.

(** What a round does: whether a service waits for those it depends on (the wrappers are given to [Do]), its events,
    its action, and what breaks a cycle. *)
Record operation := {
  op_waits : bool;
  op_start : EventType;
  op_done : EventType;
  op_action : action;
  op_cycle : option action;
}.

(** ** Calls *)

Record container_info := { ci_id : string; ci_labels : gmap string string }.

Inductive pcall :=
  | PSend (listener : nat) (e : Event)
  | PClose (listener : nat)
  | PWait (name : string)
  | PAction (name : string) (a : action)
  | PForEach (services : list string) (o : operation)
  | PListStopped (services : list string) (o : operation)
  | PRun (o : operation)
  | PConfirm (containers : list string)
  | PPrint (line : string)
  | PClientNil
  | PContainerList (label : string)
  | PContainerKill (id signal : string)
  | PContainerRemove (id : string)
  | PContainers (service : string)
  | PPort (service : string) (index : nat) (port : string)
  | PInfo (service : string) (onlyID : bool)
  | PScale (service : string) (scale timeout : Z).

(** A wrapper that is waited for has its [err]; a round has its error, if any. *)
Definition pans (c : pcall) : Type :=
  match c with
  | PSend _ _ | PClose _ | PPrint _ => unit
  | PWait _ | PAction _ _ => outcome
  | PForEach _ _ => option string
  | PListStopped _ _ => option string * list string
  | PRun _ => option string * Z
  | PConfirm _ => bool
  | PClientNil => result unit
  | PContainerList _ => api (list container_info)
  | PContainerKill _ _ | PContainerRemove _ | PScale _ _ _ => api unit
  | PContainers _ => api nat
  | PPort _ _ _ => api string
  | PInfo _ _ => api (list (list (string * string)))
  end.

Abbreviation pprog := (prog pans).

Definition call (c : pcall) : pprog (pans c) := invoke c.
Definition fails (e : option string) : pprog () := match e with Some e => Done (Err e) | None => mret () end.
Definition answer {A} (r : result A) : pprog A := Done r.

(** [LabelFilterString]: a JSON document; the name of a project has nothing to escape. *)
Definition quoted (s : string) : string := String "034" (s +:+ String "034" "").
Definition LabelFilterString (key value : string) : string :=
  "{" +:+ quoted "label" +:+ ":[" +:+ quoted (key +:+ "=" +:+ value) +:+ "]}".

(** The factory of clients of the system ([pkg/docker/client_factory.go]): which daemon a service is asked of. *)
Definition ClientFactory_Create (service : option ServiceConvert.Sc.ServiceConfig) : result Docker.daemon :=
  match service with
  | None => Panic "nil pointer dereference"
  | Some config => Ok (if Docker.IsSystemContainer config then Docker.SystemDocker else Docker.UserDocker)
  end.

(** ** Listeners ([AddListener], [Notify]) *)

Record emitter := { listeners : list nat; hasListeners : bool }.

(** The first listener replaces the one that logs. *)
Definition AddListener (p : emitter) (c : nat) : pprog emitter :=
  if hasListeners p then mret {| listeners := listeners p ++ [c]; hasListeners := true |}
  else
    _ ← each (λ l, call (PClose l)) (listeners p);
    mret {| listeners := [c]; hasListeners := true |}.

Section Notify.
Context (ls : list nat).

Definition Notify (e : EventType) (serviceName : string) : pprog () :=
  if bool_decide (e = NoEvent) then mret () else each (λ l, call (PSend l (new_event e serviceName))) ls.

(** ** One service ([service-wrapper.go]) *)

(** [waitForDeps]: false when a dependency has asked for a restart; the dependencies of a wrapper, those it ignores
    and the services that have a wrapper. *)
Fixpoint waitForDeps (ignored : gset string) (wrappers : gset string) (deps : list string) : pprog bool :=
  match deps with
  | [] => mret true
  | dep :: deps =>
      if decide (dep ∈ ignored) then waitForDeps ignored wrappers deps
      else if decide (dep ∈ wrappers) then
        err ← call (PWait dep);
        match (err : outcome) with
        | ErrRestart => _ ← Notify ProjectReload dep; mret false
        | _ => waitForDeps ignored wrappers deps
        end
      else waitForDeps ignored wrappers deps
  end.

(** [Do]: the error that the wrapper has afterwards, and whether it is executed. *)
Definition Do (name : string) (executed noWait : bool) (err : outcome) (ignored wrappers : gset string)
    (deps : list string) (o : operation) : pprog (outcome * bool) :=
  if executed then mret (err, true)
  else
    ready ← (if op_waits o then (if noWait then mret true else waitForDeps ignored wrappers deps) else mret true);
    if ready : bool then
      _ ← Notify (op_start o) name;
      err ← call (PAction name (op_action o));
      match (err : outcome) with
      | ErrRestart => _ ← Notify (op_done o) name; _ ← Notify ProjectReloadTrigger name; mret (ErrRestart, true)
      | Failed e => mret (Failed e, true)
      | Success => _ ← Notify (op_done o) name; mret (Success, true)
      end
    else mret (ErrRestart, false).

(** [Ignore]. *)
Definition Ignore (name : string) : pprog bool := _ ← Notify ServiceUpIgnored name; mret true.

(** ** The operations ([project.go]) *)

Definition perform (start done : EventType) (services : list string) (o : operation) : pprog () :=
  _ ← Notify start "";
  err ← call (PForEach services o);
  _ ← Notify done "";
  fails err.

Definition simple (waits : bool) (start done : EventType) (a : action) : operation :=
  {| op_waits := waits; op_start := start; op_done := done; op_action := a; op_cycle := None |}.

Definition Build (o : BuildOptions) (services : list string) : pprog () :=
  perform ProjectBuildStart ProjectBuildDone services (simple true ServiceBuildStart ServiceBuild (ABuild o)).

Definition Create (o : CreateOptions) (services : list string) : pprog () :=
  if NoRecreate o && ForceRecreate o then Done (Err "no-recreate and force-recreate cannot be combined")
  else perform ProjectCreateStart ProjectCreateDone services (simple true ServiceCreateStart ServiceCreate (ACreate o)).

Definition Stop (timeout : Z) (services : list string) : pprog () :=
  perform ProjectStopStart ProjectStopDone services (simple false ServiceStopStart ServiceStop (AStop timeout)).

Definition Restart (timeout : Z) (services : list string) : pprog () :=
  perform ProjectRestartStart ProjectRestartDone services
    (simple true ServiceRestartStart ServiceRestart (ARestart timeout)).

Definition Start (services : list string) : pprog () :=
  perform ProjectStartStart ProjectStartDone services (simple true ServiceStartStart ServiceStart AStart).

Definition Up (o : UpOptions) (services : list string) : pprog () :=
  perform ProjectUpStart ProjectUpDone services
    {| op_waits := true; op_start := ServiceUpStart; op_done := ServiceUp; op_action := AUp o;
       op_cycle := Some (ACreate (UpCreate o)) |}.

Definition Log (follow : bool) (services : list string) : pprog () :=
  err ← call (PForEach services (simple false NoEvent NoEvent (ALog follow))); fails err.

Definition Pull (services : list string) : pprog () :=
  err ← call (PForEach services (simple false ServicePullStart ServicePull APull)); fails err.

Definition Kill (signal : string) (services : list string) : pprog () :=
  perform ProjectKillStart ProjectKillDone services (simple false ServiceKillStart ServiceKill (AKill signal)).

Definition Pause (services : list string) : pprog () :=
  perform ProjectPauseStart ProjectPauseDone services (simple false ServicePauseStart ServicePause APause).

Definition Unpause (services : list string) : pprog () :=
  perform ProjectUnpauseStart ProjectUnpauseDone services (simple false ServiceUnpauseStart ServiceUnpause AUnpause).

(** What is added for one service: a container that cannot be asked is taken for a stopped one, and an id that cannot
    be had is empty. *)
Definition stopped_ids (containers : list (result bool * result string)) : list string :=
  omap (λ c, match c.1 with
             | Ok true => None
             | _ => Some (match c.2 with Ok id => id | _ => "" end)
             end) containers.

Definition listStoppedContainers (services : list string) : pprog (list string) :=
  r ← call (PListStopped services (simple false NoEvent NoEvent AListStopped));
  _ ← fails r.1;
  mret r.2.

(** [confirm]: whether the caller wants to be asked. *)
Definition Delete (volumes confirm : bool) (services : list string) : pprog () :=
  stoppedContainers ← listStoppedContainers services;
  match stoppedContainers with
  | [] => _ ← Notify ProjectDeleteDone ""; call (PPrint "No stopped containers")
  | _ =>
      agreed ← (if confirm then call (PConfirm stoppedContainers) else mret true);
      if agreed : bool then
        perform ProjectDeleteStart ProjectDeleteDone services
          (simple false ServiceDeleteStart ServiceDelete (ADelete volumes))
      else mret ()
  end.

(** The configured services of the project. *)
Context (Name : string) (Keys : list string).

Definition remove_orphan (container : container_info) : pprog () :=
  if decide (default "" (ci_labels container !! Docker.SERVICE) ∈ Keys) then mret ()
  else
    x ← call (PContainerKill (ci_id container) "SIGKILL"); _ ← expect x;
    x ← call (PContainerRemove (ci_id container)); expect x.

(** The factory is given no service. *)
Definition removeOrphanContainers : pprog () :=
  client ← call PClientNil;
  _ ← answer client;
  x ← call (PContainerList (LabelFilterString Docker.PROJECT Name));
  containers ← expect x;
  each remove_orphan containers.

Definition Down (o : DownOptions) (services : list string) : pprog () :=
  if negb (ImageType_Valid (RemoveImages o)) then Done (Err "--rmi flag must be local, all or empty")
  else
    _ ← Stop 10 services;
    _ ← (if RemoveOrphans o then removeOrphanContainers else mret ());
    _ ← Delete (DownRemoveVolume o) false services;
    err ← call (PForEach [] {| op_waits := true; op_start := NoEvent; op_done := NoEvent;
                               op_action := ARemoveImage (RemoveImages o); op_cycle := Some (ACreate default_create) |});
    fails err.

Definition Run (serviceName : string) (commandParts : list string) : pprog Z :=
  if decide (serviceName ∈ Keys) then
    r ← call (PRun {| op_waits := true; op_start := ServiceRunStart; op_done := ServiceRun;
                      op_action := ARun serviceName commandParts; op_cycle := Some (ACreate default_create) |});
    _ ← fails r.1;
    mret r.2
  else Done (Err (serviceName +:+ " is not defined in the template")).

(** What the service makes of it: one only runs the command. *)
Definition run_closure (service : Z → outcome) (serviceName name : string) (code : Z) : outcome * option Z :=
  if String.eqb name serviceName then (service code, Some code) else (Success, None).

(** The services as [CreateService] gives them. *)
Context (CreateService : string → result ()).

Definition Port (index : Z) (protocol serviceName privatePort : string) : pprog string :=
  _ ← answer (CreateService serviceName);
  x ← call (PContainers serviceName);
  n ← expect x;
  if (index <? 1)%Z || (Z.of_nat n <? index)%Z then Done (Err ("Invalid index " +:+ Itoa index))
  else x ← call (PPort serviceName (Z.to_nat (index - 1)) (privatePort +:+ "/" +:+ protocol)); expect x.

(** The services that are named are not looked at. *)
Fixpoint ps_all (onlyID : bool) (names : list string) (allInfo : list (list (string * string))) :
    pprog (list (list (string * string))) :=
  match names with
  | [] => mret allInfo
  | name :: names =>
      _ ← answer (CreateService name);
      x ← call (PInfo name onlyID);
      info ← expect x;
      ps_all onlyID names (allInfo ++ info)%list
  end.

Definition Ps (onlyID : bool) (services : list string) : pprog (list (list (string * string))) := ps_all onlyID Keys [].

(** Everything is looked up before anything is scaled. *)
Fixpoint lookup_services (names : list string) : pprog () :=
  match names with
  | [] => mret ()
  | name :: names =>
      if decide (name ∈ Keys) then
        match CreateService name with
        | Ok _ => lookup_services names
        | Err e => Done (Err ("Failed to lookup service: " +:+ e))
        | Panic e => Done (Panic e)
        end
      else Done (Err (name +:+ " is not defined in the template"))
  end.

Definition scale_service (timeout : Z) (ns : string * Z) : pprog () :=
  x ← call (PScale ns.1 ns.2 timeout);
  match (x : api unit) with
  | AOk _ => mret ()
  | ANotFound e | AErr e =>
      Done (Err ("Failed to set the scale " +:+ ns.1 +:+ "=" +:+ Itoa ns.2 +:+ ": " +:+ e))
  end.

(** [servicesScale] in the order in which the map is visited. *)
Definition Scale (timeout : Z) (servicesScale : list (string * Z)) : pprog () :=
  _ ← lookup_services servicesScale.*1;
  each (scale_service timeout) servicesScale.
End Notify.

(** ** Creating a service ([CreateService]) *)

(** A variable of the environment and whether it has a value. *)
Abbreviation environment := (gmap string (option string)).

Definition env_setting (value : string) : string * option string :=
  match cut_char "=" value with Some (k, v) => (k, Some v) | None => (value, None) end.

Definition set_setting (newEnv : environment) (value : string) : environment :=
  let '(k, v) := env_setting value in <[k := v]> newEnv.

(** One variable; [Lookup] is asked for those without a value. *)
Definition add_variable (Lookup : string → list string) (newEnv : environment) (kv : string * option string) : environment :=
  let '(key, val) := kv in
  match val with
  | Some v => if String.eqb v "" then foldl set_setting newEnv (Lookup key) else <[key := Some v]> newEnv
  | None => foldl set_setting newEnv (Lookup key)
  end.

(** The environment in the order in which it is visited. *)
Definition new_environment (Lookup : string → list string) (order : list (string * option string)) : environment :=
  foldl (add_variable Lookup) ∅ order.

(** ** The context ([context.go]) *)

Inductive ccall :=
  | CReadStdin
  | CReadFile (file : string)
  | CGetenv (name : string)
  | CAbs (file : string)
  | CGetwd.

Definition cans (c : ccall) : Type :=
  match c with CGetenv _ => string | _ => api string end.

Abbreviation cprog := (prog cans).

Definition ccall_ (c : ccall) : cprog (cans c) := invoke c.

(** [ComposeBytes] is [None] when it is nil. *)
Record Context := {
  ComposeFiles : list string;
  ComposeBytes : option (list string);
  ProjectName : string;
  isOpen : bool;
  IgnoreMissingConfig : bool;
}.

Definition set_bytes (b : option (list string)) (c : Context) : Context :=
  {| ComposeFiles := ComposeFiles c; ComposeBytes := b; ProjectName := ProjectName c; isOpen := isOpen c;
     IgnoreMissingConfig := IgnoreMissingConfig c |}.
Definition set_name (n : string) (c : Context) : Context :=
  {| ComposeFiles := ComposeFiles c; ComposeBytes := ComposeBytes c; ProjectName := n; isOpen := isOpen c;
     IgnoreMissingConfig := IgnoreMissingConfig c |}.
Definition set_open (c : Context) : Context :=
  {| ComposeFiles := ComposeFiles c; ComposeBytes := ComposeBytes c; ProjectName := ProjectName c; isOpen := true;
     IgnoreMissingConfig := IgnoreMissingConfig c |}.

(** A file that is missing and may be is empty. *)
Fixpoint read_files (ignoreMissing : bool) (files : list string) (bytes : list string) : cprog (list string) :=
  match files with
  | [] => mret bytes
  | file :: files =>
      x ← ccall_ (CReadFile file);
      match (x : api string) with
      | AOk b => read_files ignoreMissing files (bytes ++ [b])
      | ANotFound e => if ignoreMissing then read_files ignoreMissing files (bytes ++ [""]) else Done (Err e)
      | AErr e => Done (Err e)
      end
  end.

Definition readComposeFiles (c : Context) : cprog Context :=
  match ComposeBytes c with
  | Some _ => mret c
  | None =>
      match ComposeFiles c with
      | ["-"] => x ← ccall_ CReadStdin; b ← expect x; mret (set_bytes (Some [b]) c)
      | [] => mret c
      | files => bytes ← read_files (IgnoreMissingConfig c) files []; mret (set_bytes (Some bytes) c)
      end
  end.

Definition toUnixPath (p : string) : string := Replace p "\" "/".

Definition lookupProjectName (c : Context) : cprog string :=
  if negb (String.eqb (ProjectName c) "") then mret (ProjectName c)
  else
    envProject ← ccall_ (CGetenv "COMPOSE_PROJECT_NAME");
    if negb (String.eqb envProject "") then mret envProject
    else
      x ← ccall_ (CAbs (default "." (head (ComposeFiles c))));
      f ← expect x;
      let parent := Base (Dir (toUnixPath f)) in
      if negb (String.eqb parent "") && negb (String.eqb parent ".") then mret parent
      else x ← ccall_ CGetwd; wd ← expect x; mret (Base (toUnixPath wd)).

(** The letter or digit that [strings.ToLower] makes of a rune; the Kelvin sign and the I with a dot have lower cases
    in ASCII. *)
Definition name_rune (r : Z) : option ascii :=
  let c := ascii_of_nat (Z.to_nat r) in
  if ((48 <=? r) && (r <=? 57) || (97 <=? r) && (r <=? 122))%Z then Some c
  else if ((65 <=? r) && (r <=? 90))%Z then Some (ascii_of_nat (Z.to_nat (r + 32)))
  else if (r =? 8490)%Z then Some "k"%char
  else if (r =? 304)%Z then Some "i"%char
  else None.

Definition normalizeName (name : string) : string := foldr String "" (omap (λ r, name_rune r.1) (runes name)).

Definition determineProject (c : Context) : cprog Context :=
  name ← lookupProjectName c;
  let name := normalizeName name in
  if String.eqb name "" then Done (Err "Falied to determine project name") else mret (set_name name c).

Definition open (c : Context) : cprog Context :=
  if isOpen c then mret c
  else c ← readComposeFiles c; c ← determineProject c; mret (set_open c).

(** [Parse]: the files that are loaded, by their names. A document beyond the names has none, and the standard input is
    named as the directory. *)
Definition parse_files (c : Context) : list (string * string) :=
  let Files := match ComposeFiles c with ["-"] => ["."] | files => files end in
  imap (λ i bytes, (if (i <? length (ComposeFiles c))%nat then default "" (Files !! i) else "", bytes))
    (default [] (ComposeBytes c)).

Definition Parse (c : Context) : cprog (Context * list (string * string)) :=
  c ← open c; mret (c, parse_files c).

(** ** Containers that are collected by several goroutines ([listStoppedContainers]) *)

(** [append] to a variable that the goroutines share reads it and writes it; a goroutine is the ids that it still has
    to add and, between the two, what it has read. *)
Record appender := { todo_ids : list string; read_ids : option (list string) }.

Inductive append_step : list string * list appender → list string * list appender → Prop :=
  | append_read shared ths i ids id :
      ths !! i = Some {| todo_ids := id :: ids; read_ids := None |} →
      append_step (shared, ths) (shared, <[i := {| todo_ids := id :: ids; read_ids := Some shared |}]> ths)
  | append_write shared ths i ids id old :
      ths !! i = Some {| todo_ids := id :: ids; read_ids := Some old |} →
      append_step (shared, ths) (old ++ [id], <[i := {| todo_ids := ids; read_ids := None |}]> ths)%list.

(** ** Lemmas *)

(** Events that are logged as a number. *)
Lemma events_without_text :
  filter (λ e, event_text e = "") all_events =
  [NoEvent; ServicePauseStart; ServicePause; ServiceUnpauseStart; ServiceUnpause; VolumeAdd; NetworkAdd;
   ProjectPauseStart; ProjectPauseDone; ProjectUnpauseStart; ProjectUnpauseDone] ∧
  EventType_String VolumeAdd = "EventType: 31".
Proof. by vm_compute. Qed.

(** Every event is sent to every listener, in their order. *)
Definition sends (ls : list nat) (e : EventType) (name : string) : list pcall :=
  if bool_decide (e = NoEvent) then [] else (λ l, PSend l (new_event e name)) <$> ls.

Lemma Notify_sends ls e name (Q : list pcall → result () → Prop) : Q (sends ls e name) (Ok ()) → wp (Notify ls e name) Q.
Proof.
  unfold Notify, sends. case_bool_decide; [done|]. revert Q. induction ls as [|l ls IH]; intros Q HQ; [done|].
  cbn. intros _. by apply (IH (λ t r, Q (PSend l (new_event e name) :: t) r)).
Qed.

(** What an operation does is framed by its events, whatever the round answers, and its error is that of the round. *)
Lemma perform_brackets ls start done services o :
  wp (perform ls start done services o) (λ t r,
    t = (sends ls start "" ++ [PForEach services o] ++ sends ls done "")%list ∧ ∀ e, r ≠ Panic e).
Proof.
  unfold perform. apply wp_bind, Notify_sends. cbn. intros x. apply (wp_bind (Notify ls done "")), Notify_sends.
  destruct x as [e|]; cbn; rewrite app_nil_r; by split.
Qed.

(** A notifier with no listener sends nothing. *)
Lemma sends_nil e name : sends [] e name = [].
Proof. unfold sends. by case_bool_decide. Qed.

(** *** The phases of taking a project down *)

(** What a call is part of: stopping, the removal of orphans, the listing, the deletion, the removal of images. *)
Definition phase (c : pcall) : option nat :=
  match c with
  | PForEach _ o =>
      match op_action o with AStop _ => Some 1 | ADelete _ => Some 4 | ARemoveImage _ => Some 5 | _ => Some 0 end
  | PClientNil | PContainerList _ | PContainerKill _ _ | PContainerRemove _ => Some 2
  | PListStopped _ _ => Some 3
  | _ => None
  end%nat.

Definition within (lo hi : nat) (t : list pcall) : Prop :=
  StronglySorted Nat.le (omap phase t) ∧ Forall (λ n, lo ≤ n ≤ hi)%nat (omap phase t).

Lemma within_app lo mid hi t t' : within lo mid t → within (S mid) hi t' → (lo ≤ S mid)%nat → (mid ≤ hi)%nat → within lo hi (t ++ t').
Proof.
  intros [S1 F1] [S2 F2] Hl Hh. split; rewrite omap_app.
  - apply StronglySorted_app_2; [|done|done]. intros x y Hx Hy. rewrite Forall_forall in F1, F2.
    specialize (F1 x Hx). specialize (F2 y Hy). unfold Nat.le. lia.
  - apply Forall_app. split; (eapply Forall_impl; [eassumption|]; cbn; lia).
Qed.

Lemma within_weaken lo lo' hi hi' t : within lo hi t → (lo' ≤ lo)%nat → (hi ≤ hi')%nat → within lo' hi' t.
Proof. intros [S1 F1] ??. split; [done|]. eapply Forall_impl; [exact F1|]. cbn; lia. Qed.

Lemma within_one n t : Forall (λ c, phase c = None ∨ phase c = Some n) t → within n n t.
Proof.
  intros H. assert (Forall (λ m, m = n) (omap phase t)) as Hn.
  { induction H as [|c t [E|E] _ IH]; [constructor| |]; cbn; rewrite E; [done|by constructor]. }
  split; [|eapply Forall_impl; [exact Hn|]; cbn; lia].
  induction (omap phase t) as [|m l IH]; [constructor|]. apply Forall_cons in Hn as [-> Hn]. constructor; [by apply IH|].
  eapply Forall_impl; [exact Hn|]. intros x ->. unfold Nat.le. lia.
Qed.

Lemma sends_phase ls e name n : Forall (λ c, phase c = None ∨ phase c = Some n) (sends ls e name).
Proof. unfold sends. case_bool_decide; [constructor|]. apply Forall_fmap, Forall_true. by left. Qed.

Lemma perform_phase ls start done services o n :
  phase (PForEach services o) = Some n → wp (perform ls start done services o) (λ t r, within n n t).
Proof.
  intros Hn. eapply wp_mono; [|apply perform_brackets]. intros t r [-> _]. apply within_one.
  rewrite !Forall_app. split_and!; [apply sends_phase| |apply sends_phase]. constructor; [by right|constructor].
Qed.

Lemma within_single n c : phase c = Some n → within n n [c].
Proof. intros H. apply within_one. constructor; [by right|constructor]. Qed.

Lemma orphans_phase Name Keys : wp (removeOrphanContainers Name Keys) (λ t r, within 2 2 t).
Proof.
  assert (∀ c, phase c = Some 2%nat → ∀ t, Forall (λ c, phase c = None ∨ phase c = Some 2%nat) t →
    Forall (λ c, phase c = None ∨ phase c = Some 2%nat) (c :: t)) as Hc by (intros c H t Ht; constructor; [by right|done]).
  assert (∀ l, wp (each (remove_orphan Keys) l) (λ t _, Forall (λ c, phase c = None ∨ phase c = Some 2%nat) t)) as H.
  { intros l. apply wp_each; [constructor|by intros; apply Forall_app|]. intros c _. unfold remove_orphan. case_decide; [constructor|].
    cbn. intros [[]|e|e]; cbn; [|by apply Hc..]. intros [[]|e|e]; cbn; by repeat (apply Hc; [done|]). }
  unfold removeOrphanContainers. cbn. intros [[]|e|e]; cbn; [|by apply within_single..].
  intros [l|e|e]; cbn; [|by apply within_one; repeat (apply Hc; [done|])..].
  eapply wp_mono; [|exact (H l)]. intros t r Ht. apply within_one. by repeat (apply Hc; [done|]).
Qed.

Lemma Delete_phase ls volumes services : wp (Delete ls volumes false services) (λ t r, within 3 4 t).
Proof.
  unfold Delete, listStoppedContainers. cbn. intros [[e|] ids]; cbn.
  { by eapply within_weaken; [apply (within_single 3)|lia|lia]. }
  destruct ids as [|id ids].
  - apply (wp_bind (Notify ls ProjectDeleteDone "")), Notify_sends. cbn. intros _.
    eapply within_weaken; [apply (within_one 3)|lia|lia]. constructor; [by right|]. apply Forall_app.
    split; [apply sends_phase|]. constructor; [by left|constructor].
  - cbn. eapply wp_mono; [|by apply (perform_phase _ _ _ _ _ 4)]. intros t r Ht.
    by apply (within_app 3 3 4 [_] t); [apply within_single|exact Ht|lia|lia].
Qed.

(** Taking a project down: the services are stopped, then orphans are removed, then what has stopped is deleted, then
    images are removed, and nothing comes before its turn, whatever the answers. *)
Lemma Down_phases ls Name Keys o services : wp (Down ls Name Keys o services) (λ t r, within 1 5 t).
Proof.
  unfold Down. destruct (negb _); [by split; constructor|].
  apply wp_bind. eapply wp_mono; [|by apply (perform_phase _ _ _ _ _ 1)]. intros t1 r1 H1.
  destruct r1 as [[]|e|e]; [|by eapply within_weaken; [exact H1|lia|lia]..].
  apply wp_bind. assert (wp (if RemoveOrphans o then removeOrphanContainers Name Keys else mret ()) (λ t r, within 2 2 t)) as Hor.
  { destruct (RemoveOrphans o); [apply orphans_phase|by split; constructor]. }
  eapply wp_mono; [|exact Hor]. intros t2 r2 H2.
  assert (within 1 2 (t1 ++ t2)) as H12 by (apply (within_app 1 1 2); [done|done|lia|lia]).
  destruct r2 as [[]|e|e]; [|by eapply within_weaken; [exact H12|lia|lia]..].
  apply wp_bind. eapply wp_mono; [|apply Delete_phase]. intros t3 r3 H3.
  assert (within 1 4 (t1 ++ t2 ++ t3)) as H13.
  { rewrite app_assoc. apply (within_app 1 2 4); [done|done|lia|lia]. }
  destruct r3 as [[]|e|e]; [|by eapply within_weaken; [exact H13|lia|lia]..].
  cbn. assert (∀ c, phase c = Some 5%nat → within 1 5 (t1 ++ t2 ++ t3 ++ [c])) as Hlast.
  { intros c Hc. rewrite !app_assoc. apply (within_app 1 4 5); [by rewrite <- app_assoc|by apply within_single|lia|lia]. }
  intros [e|]; cbn; by apply Hlast.
Qed.

(** *** One service *)

(** A surrounding in which the wrappers that are waited for have the errors [werr] and the actions of the services the
    outcomes [act]. *)
Definition surrounding (werr act : string → outcome) (c : pcall) (w : ()) : pans c * () :=
  match c return pans c * () with
  | PSend _ _ | PClose _ | PPrint _ => ((), w)
  | PWait n => (werr n, w)
  | PAction n _ => (act n, w)
  | PForEach _ _ => (None, w)
  | PListStopped _ _ => ((None, []), w)
  | PRun _ => ((None, 0%Z), w)
  | PConfirm _ => (true, w)
  | PClientNil => (Ok (), w)
  | PContainerList _ => (AOk [], w)
  | PContainerKill _ _ | PContainerRemove _ | PScale _ _ _ => (AOk (), w)
  | PContainers _ => (AOk 0%nat, w)
  | PPort _ _ _ => (AOk "", w)
  | PInfo _ _ => (AOk [], w)
  end.

Definition result_of {A} (werr act : string → outcome) (p : prog pans A) : result A := (run (surrounding werr act) p ()).1.2.

Lemma result_of_bind {A B} werr act (p : prog pans A) (f : A → prog pans B) :
  result_of werr act (p ≫= f) =
  match result_of werr act p with Ok a => result_of werr act (f a) | Err e => Err e | Panic e => Panic e end.
Proof.
  unfold result_of, mbind, prog_mbind. induction p as [[a|e|e]|c k IH]; [done..|]. cbn.
  destruct (surrounding werr act c ()) as [x []]. specialize (IH x).
  destruct (run (surrounding werr act) (prog_bind (k x) f) ()) as [[t r] []].
  destruct (run (surrounding werr act) (k x) ()) as [[t' r'] []]. exact IH.
Qed.

Lemma result_of_Notify werr act ls e n : result_of werr act (Notify ls e n) = Ok ().
Proof.
  unfold Notify. case_bool_decide; [done|]. induction ls as [|l ls IH]; [done|]. cbn [each].
  by rewrite result_of_bind.
Qed.

Lemma result_of_waitForDeps werr act ls ignored wrappers deps :
  result_of werr act (waitForDeps ls ignored wrappers deps) =
  Ok (negb (existsb (λ t, bool_decide (werr t = ErrRestart)) (filter (λ t, t ∉ ignored ∧ t ∈ wrappers) deps))).
Proof.
  induction deps as [|dep deps IH]; [done|]. cbn [waitForDeps]. rewrite filter_cons.
  destruct (decide (dep ∈ ignored)); [rewrite decide_False by tauto; exact IH|].
  destruct (decide (dep ∈ wrappers)); [|rewrite decide_False by tauto; exact IH].
  rewrite decide_True by done. rewrite result_of_bind. change (result_of werr act (call (PWait dep))) with (Ok (werr dep)).
  cbv beta iota. cbn [existsb]. destruct (werr dep) eqn:E; cbn [bool_decide]; [exact IH| |exact IH].
  rewrite result_of_bind, result_of_Notify. done.
Qed.

Lemma filter_iff_in {A} (P Q : A → Prop) `{∀ x, Decision (P x), ∀ x, Decision (Q x)} (l : list A) :
  (∀ x, x ∈ l → P x ↔ Q x) → filter P l = filter Q l.
Proof.
  induction l as [|x l IH]; intros H1; [done|]. rewrite !filter_cons.
  assert (P x ↔ Q x) as Hx by (apply H1; by left). rewrite IH by (intros; apply H1; by right).
  destruct (decide (P x)), (decide (Q x)); tauto || done.
Qed.

(** C14: the wrapper of a service, run against errors of the wrappers it waits for and an outcome of its action, ends as
    the step of the rounds says: with the error of a restart, and not executed, when a service it waits for asks for
    one; with the outcome of its action otherwise; an executed one stays as it is. *)
Theorem Do_refines_run_event ls wrappers deps ignored act executed err n o :
  result_of err act
    (Do ls n (bool_decide (n ∈ executed)) false (err n)
       (list_to_set (filter (λ t, (n, t) ∈ ignored) (targets deps n))) wrappers (targets deps n) o) =
  Ok (run_event wrappers deps ignored (op_waits o) act executed err (Launch n) n,
      bool_decide (n ∈ executed) || negb (blocked wrappers deps ignored (op_waits o) err n)).
Proof.
  unfold Do. cbn [run_event]. case_bool_decide as He; cbn [orb].
  { by rewrite decide_True. }
  rewrite decide_False by done. rewrite result_of_bind. generalize (op_waits o). intros use_deps.
  assert (result_of err act (if use_deps then waitForDeps ls (list_to_set (filter (λ t, (n, t) ∈ ignored) (targets deps n)))
            wrappers (targets deps n) else mret true) = Ok (negb (blocked wrappers deps ignored use_deps err n))) as ->.
  { unfold blocked, awaited. destruct use_deps; [|done]. rewrite result_of_waitForDeps. do 3 f_equal.
    apply filter_iff_in. intros t Ht. rewrite elem_of_list_to_set, list_elem_of_filter. tauto. }
  destruct (blocked wrappers deps ignored use_deps err n); cbn [negb].
  { by rewrite upd_eq. }
  rewrite result_of_bind, result_of_Notify. cbv beta iota. rewrite result_of_bind.
  change (result_of err act (call (PAction n (op_action o)))) with (Ok (act n)). cbv beta iota. rewrite upd_eq.
  destruct (act n); [|rewrite result_of_bind, result_of_Notify..|done]; [by rewrite result_of_bind, result_of_Notify|].
  by rewrite result_of_bind, result_of_Notify.
Qed.

(** *** The environment of a service *)

Lemma filter_all {A} (l : list A) : filter (λ _, True) l = l.
Proof. induction l as [|x l IH]; [done|]. rewrite filter_cons, decide_True by done. by rewrite IH. Qed.

Lemma filter_none {A} (l : list A) : filter (λ _, False) l = [].
Proof. induction l as [|x l IH]; [done|]. rewrite filter_cons, decide_False by tauto. exact IH. Qed.

Lemma lookup_settings values env k :
  foldl set_setting env values !! k =
  match last (filter (λ v, (env_setting v).1 = k) values) with
  | Some v => Some (env_setting v).2
  | None => env !! k
  end.
Proof.
  induction values as [|v values IH] using rev_ind; [done|].
  rewrite foldl_app, filter_app. cbn [foldl]. unfold set_setting at 1. destruct (env_setting v) as [k' x] eqn:E.
  rewrite filter_cons, filter_nil, E. cbn [fst]. destruct (decide (k' = k)) as [->|Hne].
  - by rewrite lookup_insert_eq, last_snoc, E.
  - by rewrite lookup_insert_ne, app_nil_r.
Qed.

(** What a variable ends as: a value that is set stays, another one is looked up; a variable that is not found is
    left out. *)
Definition final_variable (Lookup : string → list string) (key : string) (val : option string) : option (option string) :=
  match val with
  | Some v => if String.eqb v "" then (λ v, (env_setting v).2) <$> last (Lookup key) else Some (Some v)
  | None => (λ v, (env_setting v).2) <$> last (Lookup key)
  end.

Lemma lookup_add_variable Lookup env key val k :
  (∀ v, v ∈ Lookup key → (env_setting v).1 = key) →
  add_variable Lookup env (key, val) !! k =
  if decide (key = k) then match final_variable Lookup key val with Some x => Some x | None => env !! k end else env !! k.
Proof.
  intros Hl. assert (foldl set_setting env (Lookup key) !! k =
    if decide (key = k) then match (λ v, (env_setting v).2) <$> last (Lookup key) with Some x => Some x | None => env !! k end
    else env !! k) as H.
  { rewrite lookup_settings. case_decide as Hk.
    - rewrite (filter_iff_in _ (λ _, True)) by (intros v Hv; rewrite (Hl v Hv); tauto).
      rewrite filter_all. by destruct (last (Lookup key)).
    - rewrite (filter_iff_in _ (λ _, False)) by (intros v Hv; rewrite (Hl v Hv); tauto).
      by rewrite filter_none. }
  destruct val as [v|]; cbn; [|exact H]. destruct (String.eqb v ""); [exact H|].
  case_decide as Hk; [subst; by rewrite lookup_insert_eq|by rewrite lookup_insert_ne].
Qed.

(** The environment that a service is created with, in every order of visiting the configured one, when the lookup
    answers with settings of the variable it is asked for: a value that is set is kept, a variable without one gets
    the last of the answers, and one that has no answer is left out. *)
Theorem CreateService_environment Lookup env order k :
  enumerates order env → (∀ key v, is_Some (env !! key) → v ∈ Lookup key → (env_setting v).1 = key) →
  new_environment Lookup order !! k = match env !! k with Some val => final_variable Lookup k val | None => None end.
Proof.
  intros Hord Hl. assert (∀ kv v, kv ∈ order → v ∈ Lookup kv.1 → (env_setting v).1 = kv.1) as Hlo.
  { intros [key val] v Hkv. apply Hl. exists val. by apply (enumerates_elem _ _ _ _ Hord). }
  rewrite <- (enumerates_list_to_map _ _ Hord). apply enumerates_NoDup in Hord. unfold new_environment. clear Hl.
  assert (∀ acc, foldl (add_variable Lookup) acc order !! k =
    match (list_to_map order : environment) !! k ≫= final_variable Lookup k with Some x => Some x | None => acc !! k end) as H.
  { induction order as [|[key val] order IH]; intros acc; [done|]. rewrite fmap_cons in Hord. apply NoDup_cons in Hord as [Hk Hnd].
    cbn [foldl]. rewrite IH by (done || intros kv v Hkv; apply Hlo; by right). cbn [list_to_map foldr fst snd]. cbn [fst] in Hk.
    rewrite lookup_add_variable by (intros v; apply (Hlo (key, val)); by left). case_decide as Hkk.
    - subst. rewrite lookup_insert_eq, not_elem_of_list_to_map_1 by done. cbn. by destruct (final_variable Lookup k val).
    - by rewrite lookup_insert_ne. }
  rewrite H. destruct ((list_to_map order : environment) !! k) as [val|]; cbn; [|done]. by destruct (final_variable Lookup k val).
Qed.

Lemma CreateService_environment_witness :
  let Lookup key := if String.eqb key "HOME" then ["HOME=/root"] else [] in
  let env : environment := {[ "HOME" := None; "USER" := Some ""; "LANG" := Some "C" ]} in
  new_environment Lookup (map_to_list env) !! "HOME" = Some (Some "/root") ∧
  new_environment Lookup (map_to_list env) !! "USER" = None ∧
  new_environment Lookup (map_to_list env) !! "LANG" = Some (Some "C").
Proof.
  intros Lookup env. assert (∀ key v, is_Some (env !! key) → v ∈ Lookup key → (env_setting v).1 = key) as Hl.
  { intros key v _. unfold Lookup. destruct (String.eqb_spec key "HOME") as [->|]; [|by intros ?%not_elem_of_nil].
    by intros ->%list_elem_of_singleton. }
  split_and!; rewrite (CreateService_environment Lookup env _ _ (enumerates_map_to_list _) Hl); reflexivity.
Defined.

(** *** The name of a project *)


(** *** The name of a project *)

Definition name_char (c : ascii) : bool := bool_decide (name_rune (byte_of c) = Some c).

(** Of small letters and digits. *)
Fixpoint name_text (s : string) : Prop :=
  match s with "" => True | String c s => (name_char c = true ∧ (byte_of c < 128)%Z) ∧ name_text s end.

Lemma name_rune_char r c : name_rune r = Some c → name_char c = true ∧ (byte_of c < 128)%Z.
Proof.
  unfold name_rune. assert (∀ z, (0 ≤ z < 256)%Z → byte_of (ascii_of_nat (Z.to_nat z)) = z) as Hb.
  { intros z Hz. unfold byte_of. rewrite nat_ascii_embedding by lia. lia. }
  assert (∀ z, (48 ≤ z ≤ 57 ∨ 97 ≤ z ≤ 122)%Z → name_char (ascii_of_nat (Z.to_nat z)) = true ∧ (byte_of (ascii_of_nat (Z.to_nat z)) < 128)%Z) as Hc.
  { intros z Hz. unfold name_char. rewrite Hb by lia. split; [|lia]. apply bool_decide_eq_true_2. unfold name_rune.
    destruct (_ || _) eqn:E; [done|]. lia. }
  assert (∀ z, (48 ≤ z ≤ 57 ∨ 97 ≤ z ≤ 122)%Z → Some (ascii_of_nat (Z.to_nat z)) = Some c →
    name_char c = true ∧ (byte_of c < 128)%Z) as Hs by (intros z Hz E; injection E as <-; by apply Hc).
  cbv zeta. destruct ((48 <=? r)%Z && (r <=? 57)%Z || (97 <=? r)%Z && (r <=? 122)%Z) eqn:E1; [apply Hs; lia|].
  destruct ((65 <=? r)%Z && (r <=? 90)%Z) eqn:E2; [apply Hs; lia|].
  destruct (r =? 8490)%Z; [by apply (Hs 107%Z); lia|].
  destruct (r =? 304)%Z; [by apply (Hs 105%Z); lia|done].
Qed.

Lemma normalizeName_text s : name_text (normalizeName s).
Proof.
  unfold normalizeName. induction (runes s) as [|[r b] l IH]; [done|]. cbn. destruct (name_rune r) as [c|] eqn:E; [|exact IH].
  split; [by eapply name_rune_char|exact IH].
Qed.

Lemma normalizeName_id s : name_text s → normalizeName s = s.
Proof.
  induction s as [|c s IH]; [done|]. intros [[Hc Hb] Hs]. unfold normalizeName. rewrite runes_cons_ascii by done.
  cbn. unfold name_char in Hc. apply bool_decide_eq_true_1 in Hc. rewrite Hc. cbn. f_equal. by apply IH.
Qed.

(** The name of a project is of small letters and digits, and such a name is kept. *)
Lemma normalizeName_idempotent s : normalizeName (normalizeName s) = normalizeName s.
Proof. apply normalizeName_id, normalizeName_text. Qed.

Lemma wp_done {call} {ans : call → Type} {A} (p : prog ans A) (Q : result A → Prop) : (∀ r, Q r) → wp p (λ _ r, Q r).
Proof. intros H. eapply wp_mono, wp_true. auto. Qed.

(** A project has a name of that kind once its context is open, or the context was open before. *)
Lemma open_names c :
  wp (open c) (λ _ r, ∀ c', r = Ok c' → isOpen c = true ∧ c' = c ∨
    isOpen c' = true ∧ ProjectName c' ≠ "" ∧ name_text (ProjectName c')).
Proof.
  unfold open. destruct (isOpen c) eqn:E; [intros c' [= <-]; by left|].
  apply wp_bind. eapply wp_mono, wp_true. intros t [c1|e|e] _; [|done|done].
  apply wp_bind. unfold determineProject. apply wp_bind. eapply wp_mono, wp_true. intros t1 [n|e|e] _; [|done|done].
  destruct (String.eqb_spec (normalizeName n) "") as [|Hn]; [done|]. cbn. intros c' [= <-]. right. cbn.
  split; [done|]. split; [done|apply normalizeName_text].
Qed.

(** The standard input is loaded as the directory. *)
Lemma stdin_is_named_dot bytes name ignoreMissing :
  parse_files {| ComposeFiles := ["-"]; ComposeBytes := Some [bytes]; ProjectName := name; isOpen := true;
                 IgnoreMissingConfig := ignoreMissing |} = [(".", bytes)].
Proof. done. Qed.

(** *** The other operations *)

(** Nothing is scaled unless every service was found. *)
Lemma Scale_looks_up_first Keys CreateService timeout servicesScale :
  Exists (λ ns, ns.1 ∉ Keys ∨ is_ok (CreateService ns.1) = false) servicesScale →
  wp (Scale Keys CreateService timeout servicesScale) (λ t r, t = [] ∧ is_ok r = false).
Proof.
  intros Hex. unfold Scale. apply wp_bind.
  assert (wp (lookup_services Keys CreateService servicesScale.*1) (λ t r, t = [] ∧ is_ok r = false)) as H.
  { induction servicesScale as [|[n s] l IH]; [by apply Exists_nil in Hex|]. cbn.
    apply Exists_cons in Hex. cbn in Hex. destruct (decide (n ∈ Keys)); [|by cbn].
    destruct (CreateService n); [|by cbn..]. apply IH. destruct Hex as [[?|?]|?]; done. }
  eapply wp_mono; [|exact H]. by intros t [[]|e|e] [-> Hr].
Qed.

(** The containers of a service have the numbers from one on: another number is an error, and asks for no port. *)
Lemma Port_of_a_container CreateService index protocol serviceName privatePort :
  wp (Port CreateService index protocol serviceName privatePort) (λ t r,
    ∀ i p, PPort serviceName i p ∈ t → (1 ≤ index)%Z ∧ i = Z.to_nat (index - 1)).
Proof.
  unfold Port. destruct (CreateService serviceName) as [[]|e|e]; cbn; [|by intros i p ?%not_elem_of_nil..].
  intros [n|e|e]; cbn; [|by intros i p [[=]|?%not_elem_of_nil]%elem_of_cons..].
  destruct ((index <? 1)%Z || (Z.of_nat n <? index)%Z) eqn:E; [by intros i p [[=]|?%not_elem_of_nil]%elem_of_cons|].
  cbn. intros [a|e|e]; cbn; intros i p [[=]|[[= -> _]|?%not_elem_of_nil]%elem_of_cons]%elem_of_cons; (split; [lia|done]) || done.
Qed.

(** The services that are named on the command line play no part in the list of containers. *)
Lemma Ps_ignores_services Keys CreateService onlyID services : Ps Keys CreateService onlyID services = Ps Keys CreateService onlyID [].
Proof. done. Qed.

(** Asking for the removal of orphans panics, once everything is stopped: the factory of the system looks at the
    configuration of the service it is not given. *)
Lemma Down_orphans_panics {W} (h : ∀ c, W → pans c * W) Name Keys o services w :
  ImageType_Valid (RemoveImages o) = true → RemoveOrphans o = true →
  (∀ ss op w, (h (PForEach ss op) w).1 = None) →
  (∀ w, (h PClientNil w).1 = ((λ _, ()) <$> ClientFactory_Create None)) →
  (run h (Down [] Name Keys o services) w).1 =
  ([PForEach services (simple false ServiceStopStart ServiceStop (AStop 10)); PClientNil], Panic "nil pointer dereference").
Proof.
  intros Hi Ho Hf Hc. unfold Down, Stop, perform, removeOrphanContainers. rewrite Hi, Ho.
  assert (∀ e n, Notify [] e n = mret ()) as HN by (intros; unfold Notify; by case_bool_decide). rewrite !HN.
  unfold mbind, prog_mbind. cbn. specialize (Hf services (simple false ServiceStopStart ServiceStop (AStop 10)) w).
  destruct (h (PForEach services _) w) as [x w1]. cbn in Hf. subst x. cbn. specialize (Hc w1).
  destruct (h PClientNil w1) as [x w2]. assert (x = Panic "nil pointer dereference") as -> by exact Hc. reflexivity.
Qed.

(** The filter for the containers of the project is a JSON document, as the value of a filter for a label. *)
Lemma orphan_filter :
  LabelFilterString Docker.PROJECT "os" ≠ Docker.label_eq Docker.PROJECT "os" ∧
  String.length (LabelFilterString Docker.PROJECT "os") = 43%nat.
Proof. by vm_compute. Qed.

(** A container that cannot be asked whether it runs counts as stopped. *)
Lemma unknown_is_stopped e id : stopped_ids [(Err e, Ok id)] = [id].
Proof. done. Qed.

(** Two goroutines that add a container each can leave only one of them. *)
Lemma an_append_is_lost :
  rtc append_step ([], [{| todo_ids := ["a"]; read_ids := None |}; {| todo_ids := ["b"]; read_ids := None |}])
                  (["b"], [{| todo_ids := []; read_ids := None |}; {| todo_ids := []; read_ids := None |}]).
Proof.
  eapply rtc_l; [by apply (append_read _ _ 0)|]. eapply rtc_l; [by apply (append_read _ _ 1)|].
  eapply rtc_l; [by apply (append_write _ _ 0)|]. eapply rtc_l; [by apply (append_write _ _ 1)|]. apply rtc_refl.
Qed.
