(* ===== verification/ServiceApp.v ===== *)
(** * The commands on the services of the system ([cmd/control/service/app], [command], [pkg/libcompose/cli/app])

    What the flags of a command make of the operations of a project, and the commands with their flags. The library of
    the command line is the context of a command: the values of its flags and its arguments. *)

From stdpp Require Import prelude gmap strings list.
From S2P Require Import Prelude GoStrings Prog ProjectOps.

Local Open Scope string_scope.

(** ** The command line and the project *)

Record cli := { Bool : string → bool; Int : string → Z; Str : string → string; Args : list string }.

(** The operations of the project, what is printed, and the wait for a signal or the end of the log. *)
Inductive acall :=
  | XBuild (o : BuildOptions) (services : list string)
  | XCreate (o : CreateOptions) (services : list string)
  | XUp (o : UpOptions) (services : list string)
  | XStart (services : list string)
  | XStop (timeout : Z) (services : list string)
  | XRestart (timeout : Z) (services : list string)
  | XDown (o : DownOptions) (services : list string)
  | XDelete (volumes confirm : bool) (services : list string)
  | XKill (signal : string) (services : list string)
  | XLog (follow : bool) (services : list string)
  | XPull (services : list string)
  | XPause (services : list string)
  | XUnpause (services : list string)
  | XScale (timeout : Z) (servicesScale : gmap string Z)
  | XRun (service : string) (command : list string)
  | XPs (onlyID : bool) (services : list string)
  | XPort (index : Z) (protocol service privatePort : string)
  | XFollow (services : list string)
  | XPrint (text : string)
  | XScanln
  | XFactory.

(** The first of a signal and the end of the log, with its error. *)
Inductive followed := Signal | LogDone (err : option string).

Definition xans (c : acall) : Type :=
  match c with
  | XRun _ _ => result Z
  | XPs _ _ => result string
  | XPort _ _ _ _ => result string
  | XFollow _ => followed
  | XPrint _ => unit
  | XScanln => result string
  | _ => option string
  end.

Abbreviation aprog := (prog xans).
Definition ask (c : acall) : aprog (xans c) := invoke c.

(** How a command ends: well, with a message and a code, at once with a message, or before it starts. *)
Inductive exit := Done_ | NewExitError (message : string) (code : Z) | Fatal (message : string) | Refused (message : string).

Definition ending (err : option string) : exit := match err with Some e => NewExitError e 1 | None => Done_ end.

(** ** The commands ([service/app/app.go]) *)

Definition ProjectPs (c : cli) : aprog exit :=
  x ← ask (XPs (Bool c "q") (Args c));
  match (x : result string) with
  | Ok text => _ ← ask (XPrint text); mret Done_
  | Err e => mret (NewExitError e 1)
  | Panic e => Done (Panic e)
  end.

Definition ProjectStop (c : cli) : aprog exit := err ← ask (XStop (Int c "timeout") (Args c)); mret (ending err).

Definition down_options (c : cli) : DownOptions :=
  {| DownRemoveVolume := Bool c "volumes"; RemoveImages := Str c "rmi"; RemoveOrphans := Bool c "remove-orphans" |}.
Definition ProjectDown (c : cli) : aprog exit := err ← ask (XDown (down_options c) (Args c)); mret (ending err).

Definition build_options (c : cli) : BuildOptions :=
  {| NoCache := Bool c "no-cache"; ForceRemove := Bool c "force-rm"; BuildPull := Bool c "pull" |}.
Definition ProjectBuild (c : cli) : aprog exit := err ← ask (XBuild (build_options c) (Args c)); mret (ending err).

Definition create_options (c : cli) : CreateOptions :=
  {| NoRecreate := Bool c "no-recreate"; ForceRecreate := Bool c "force-recreate"; NoBuild := Bool c "no-build" |}.
Definition ProjectCreate (c : cli) : aprog exit := err ← ask (XCreate (create_options c) (Args c)); mret (ending err).

(** In the foreground the log is followed until it ends or a signal comes, which stops the services; what the stop
    says is dropped. *)
Definition follow_log (c : cli) : aprog exit :=
  x ← ask (XFollow (Args c));
  match (x : followed) with
  | Signal => _ ← ask (XPrint "Gracefully stopping..."); _ ← ProjectStop c; mret Done_
  | LogDone (Some e) => mret (Fatal e)
  | LogDone None => mret Done_
  end.

Definition up_options (c : cli) : UpOptions := {| UpCreate := create_options c; UpLog := false |}.
Definition ProjectUp (c : cli) : aprog exit :=
  err ← ask (XUp (up_options c) (Args c));
  match (err : option string) with
  | Some e => mret (NewExitError e 1)
  | None => if Bool c "foreground" then follow_log c else mret Done_
  end.

Definition ProjectStart (c : cli) : aprog exit := err ← ask (XStart (Args c)); mret (ending err).
Definition ProjectRestart (c : cli) : aprog exit := err ← ask (XRestart (Int c "timeout") (Args c)); mret (ending err).
Definition ProjectLog (c : cli) : aprog exit := err ← ask (XLog (Bool c "follow") (Args c)); mret (ending err).

Definition ProjectPull (c : cli) : aprog exit :=
  err ← ask (XPull (Args c)); mret (if Bool c "ignore-pull-failures" then Done_ else ending err).

(** The question before a deletion. *)
Definition confirm_delete (stoppedContainers : list string) : aprog bool :=
  _ ← ask (XPrint ("Going to remove " +:+ Join stoppedContainers ", "));
  x ← ask XScanln;
  match (x : result string) with
  | Ok answer => mret (String.eqb answer "y" || String.eqb answer "Y")
  | Err _ => mret false
  | Panic e => Done (Panic e)
  end.

Definition ProjectDelete (c : cli) : aprog exit :=
  err ← ask (XDelete (Bool c "v") (negb (Bool c "force")) (Args c)); mret (ending err).

Definition ProjectKill (c : cli) : aprog exit := err ← ask (XKill (Str c "signal") (Args c)); mret (ending err).

(** ** Those of the library only ([libcompose/cli/app/app.go]) *)

Definition WithProject (action : cli → aprog exit) (c : cli) : aprog exit :=
  err ← ask XFactory;
  match (err : option string) with
  | Some e => mret (Fatal ("Failed to read project: " +:+ e))
  | None => action c
  end.

Definition ProjectPort (c : cli) : aprog exit :=
  match Args c with
  | [serviceName; privatePort] =>
      x ← ask (XPort (Int c "index") (Str c "protocol") serviceName privatePort);
      match (x : result string) with
      | Ok port => _ ← ask (XPrint port); mret Done_
      | Err e => mret (NewExitError e 1)
      | Panic e => Done (Panic e)
      end
  | _ => mret (NewExitError "Please pass arguments in the form: SERVICE PORT" 1)
  end.

(** Without a log in the background. *)
Definition compose_ProjectUp (c : cli) : aprog exit :=
  err ← ask (XUp (up_options c) (Args c));
  match (err : option string) with
  | Some e => mret (NewExitError e 1)
  | None => if Bool c "d" then mret Done_ else follow_log c
  end.

(** One argument is taken for a command without a service. *)
Definition ProjectRun (c : cli) : aprog exit :=
  match Args c with
  | [_] => mret (Fatal "No service specified")
  | [] => Done (Panic "index out of range")
  | serviceName :: commandParts =>
      x ← ask (XRun serviceName commandParts);
      match (x : result Z) with
      | Ok exitCode => mret (NewExitError "" exitCode)
      | Err e => mret (NewExitError e 1)
      | Panic e => Done (Panic e)
      end
  end.

Definition ProjectPause (c : cli) : aprog exit := err ← ask (XPause (Args c)); mret (ending err).
Definition ProjectUnpause (c : cli) : aprog exit := err ← ask (XUnpause (Args c)); mret (ending err).

(** One parameter [name=count]; the last one of a name counts. *)
Definition scale_parameter (arg : string) : (string * Z) + string :=
  match cut_char "=" arg with
  | None => inr ("Invalid scale parameter: " +:+ arg)
  | Some (name, n) =>
      match Atoi n with
      | (count, false) => inl (name, count)
      | (_, true) => inr ("Invalid scale parameter: " +:+ n)
      end
  end.

Fixpoint scale_parameters (args : list string) (servicesScale : gmap string Z) : gmap string Z + string :=
  match args with
  | [] => inl servicesScale
  | arg :: args =>
      match scale_parameter arg with
      | inl (name, count) => scale_parameters args (<[name := count]> servicesScale)
      | inr e => inr e
      end
  end.

Definition ProjectScale (c : cli) : aprog exit :=
  match scale_parameters (Args c) ∅ with
  | inr e => mret (NewExitError e 2)
  | inl servicesScale => err ← ask (XScale (Int c "timeout") servicesScale); mret (ending err)
  end.

(** ** The table of commands ([service/command/command.go], [service.go]) *)

Inductive flag_kind := BoolFlag | BoolTFlag | IntFlag (value : Z) | StringFlag (value : string).
Record flag := { flag_Name : string; flag_Kind : flag_kind }.

Record Command := {
  cmd_Name : string;
  cmd_Before : cli → result ();
  cmd_Action : cli → aprog exit;
  cmd_Flags : list flag;
}.

Definition verifyOneOrMoreServices (c : cli) : result () :=
  match Args c with [] => Err "Must specify one or more services" | _ => Ok () end.
Definition nothing_before (c : cli) : result () := Ok ().

Definition bool_flag (name : string) : flag := {| flag_Name := name; flag_Kind := BoolFlag |}.

Definition CreateCommand : Command :=
  {| cmd_Name := "create"; cmd_Before := verifyOneOrMoreServices; cmd_Action := WithProject ProjectCreate;
     cmd_Flags := [bool_flag "no-recreate"; bool_flag "force-recreate"; bool_flag "no-build"] |}.
Definition BuildCommand : Command :=
  {| cmd_Name := "build"; cmd_Before := verifyOneOrMoreServices; cmd_Action := WithProject ProjectBuild;
     cmd_Flags := [bool_flag "no-cache"; bool_flag "force-rm"; bool_flag "pull"] |}.
Definition PsCommand : Command :=
  {| cmd_Name := "ps"; cmd_Before := nothing_before; cmd_Action := WithProject ProjectPs; cmd_Flags := [bool_flag "q"] |}.
Definition UpCommand : Command :=
  {| cmd_Name := "up"; cmd_Before := verifyOneOrMoreServices; cmd_Action := WithProject ProjectUp;
     cmd_Flags := [bool_flag "foreground"; bool_flag "no-build"; bool_flag "no-recreate"; bool_flag "force-recreate"] |}.
Definition StartCommand : Command :=
  {| cmd_Name := "start"; cmd_Before := verifyOneOrMoreServices; cmd_Action := WithProject ProjectStart;
     cmd_Flags := [{| flag_Name := "foreground"; flag_Kind := BoolTFlag |}] |}.
Definition PullCommand : Command :=
  {| cmd_Name := "pull"; cmd_Before := verifyOneOrMoreServices; cmd_Action := WithProject ProjectPull;
     cmd_Flags := [bool_flag "ignore-pull-failures"] |}.
Definition LogsCommand : Command :=
  {| cmd_Name := "logs"; cmd_Before := verifyOneOrMoreServices; cmd_Action := WithProject ProjectLog;
     cmd_Flags := [{| flag_Name := "lines"; flag_Kind := IntFlag 100 |}; bool_flag "follow, f"] |}.
Definition timeout_flag : flag := {| flag_Name := "timeout,t"; flag_Kind := IntFlag 10 |}.
Definition RestartCommand : Command :=
  {| cmd_Name := "restart"; cmd_Before := verifyOneOrMoreServices; cmd_Action := WithProject ProjectRestart;
     cmd_Flags := [timeout_flag] |}.
Definition StopCommand : Command :=
  {| cmd_Name := "stop"; cmd_Before := verifyOneOrMoreServices; cmd_Action := WithProject ProjectStop;
     cmd_Flags := [timeout_flag] |}.
Definition DownCommand : Command :=
  {| cmd_Name := "down"; cmd_Before := verifyOneOrMoreServices; cmd_Action := WithProject ProjectDown;
     cmd_Flags := [bool_flag "volumes,v"; {| flag_Name := "rmi"; flag_Kind := StringFlag "" |}; bool_flag "remove-orphans"] |}.
Definition RmCommand : Command :=
  {| cmd_Name := "rm"; cmd_Before := verifyOneOrMoreServices; cmd_Action := WithProject ProjectDelete;
     cmd_Flags := [bool_flag "force,f"; bool_flag "v"] |}.
Definition KillCommand : Command :=
  {| cmd_Name := "kill"; cmd_Before := verifyOneOrMoreServices; cmd_Action := WithProject ProjectKill;
     cmd_Flags := [{| flag_Name := "signal,s"; flag_Kind := StringFlag "SIGKILL" |}] |}.

(** Those that are registered, after [enable], [disable], [list] and [delete]. *)
Definition Commands : list Command :=
  [BuildCommand; CreateCommand; UpCommand; StartCommand; LogsCommand; RestartCommand; StopCommand; RmCommand;
   PullCommand; KillCommand; PsCommand].

(** The names of a flag. *)
Definition flag_names (f : flag) : list string := TrimSpace <$> Split (flag_Name f) ",".

(** What a flag is before it is given. *)
Definition default_bool (fs : list flag) (name : string) : bool :=
  existsb (λ f, match flag_Kind f with BoolTFlag => bool_decide (name ∈ flag_names f) | _ => false end) fs.
Definition default_int (fs : list flag) (name : string) : Z :=
  default 0%Z (head (omap (λ f, match flag_Kind f with IntFlag z => if decide (name ∈ flag_names f) then Some z else None | _ => None end) fs)).
Definition default_str (fs : list flag) (name : string) : string :=
  default "" (head (omap (λ f, match flag_Kind f with StringFlag s => if decide (name ∈ flag_names f) then Some s else None | _ => None end) fs)).

(** The context of a command that is given services and no flags. *)
Definition plain (cmd : Command) (args : list string) : cli :=
  {| Bool := default_bool (cmd_Flags cmd); Int := default_int (cmd_Flags cmd); Str := default_str (cmd_Flags cmd); Args := args |}.

Definition run_command (cmd : Command) (c : cli) : aprog exit :=
  match cmd_Before cmd c with Ok _ => cmd_Action cmd c | Err e => mret (Refused e) | Panic e => Done (Panic e) end.

(** ** Lemmas *)

(** A surrounding in which everything goes well. *)
Definition all_well (c : acall) (w : ()) : xans c * () :=
  match c return xans c * () with
  | XRun _ _ => (Ok 0%Z, w)
  | XPs _ _ => (Ok "", w)
  | XPort _ _ _ _ => (Ok "", w)
  | XFollow _ => (Signal, w)
  | XPrint _ => ((), w)
  | XScanln => (Ok "y", w)
  | _ => (None, w)
  end.

(** What a command with no flags asks of the project. *)
Definition asked (cmd : Command) (args : list string) : list acall := (run all_well (run_command cmd (plain cmd args)) ()).1.1.

(** The values that the flags have by themselves. *)
Lemma plain_commands args service :
  args = [service] →
  asked StopCommand args = [XFactory; XStop 10 args] ∧ asked RestartCommand args = [XFactory; XRestart 10 args] ∧
  asked KillCommand args = [XFactory; XKill "SIGKILL" args] ∧ asked RmCommand args = [XFactory; XDelete false true args] ∧
  asked UpCommand args = [XFactory; XUp {| UpCreate := default_create; UpLog := false |} args] ∧
  asked StartCommand args = [XFactory; XStart args] ∧ asked LogsCommand args = [XFactory; XLog false args].
Proof. by intros ->. Qed.

(** No command but [ps] is run without a service. *)
Lemma commands_need_services cmd c :
  cmd ∈ Commands → Args c = [] → cmd_Name cmd ≠ "ps" →
  run_command cmd c = mret (Refused "Must specify one or more services").
Proof.
  intros Hc Ha Hn. unfold Commands in Hc. unfold run_command.
  repeat (apply elem_of_cons in Hc as [->|Hc]; [cbn in *; unfold verifyOneOrMoreServices; by rewrite ?Ha|]).
  by apply not_elem_of_nil in Hc.
Qed.

(** Taking services down is not among the commands. *)
Lemma down_is_not_registered : "down" ∉ cmd_Name <$> Commands.
Proof. apply (bool_decide_unpack _). by vm_compute. Qed.

(** What is asked for in the foreground stops the services when a signal comes, whatever the stop says. *)
Lemma foreground_stops c :
  (∀ services, Args c = services → Bool c "foreground" = true →
   (run all_well (ProjectUp c) ()).1 =
   ([XUp (up_options c) services; XFollow services; XPrint "Gracefully stopping..."; XStop (Int c "timeout") services], Ok Done_)).
Proof. intros services <- Hf. unfold ProjectUp. cbn. by rewrite Hf. Qed.

(** The stop is given no time: [up] has no such flag. *)
Lemma up_has_no_timeout : default_int (cmd_Flags UpCommand) "timeout" = 0%Z ∧ default_int (cmd_Flags StopCommand) "timeout" = 10%Z.
Proof. by vm_compute. Qed.

(** Parameters are taken in full or not at all, and the last one of a name counts. *)
Lemma scale_parameters_spec args acc m :
  scale_parameters args acc = inl m →
  ∃ l, (scale_parameter <$> args) = inl <$> l ∧ m = foldl (λ m nc, <[nc.1 := nc.2]> m) acc l.
Proof.
  revert acc. induction args as [|arg args IH]; intros acc; cbn; [intros [= <-]; by exists []|].
  destruct (scale_parameter arg) as [[name count]|e]; [|done]. intros H. destruct (IH _ H) as (l & E & ->).
  exists ((name, count) :: l). by rewrite fmap_cons, <- E.
Qed.
