(* ===== verification/Logging.v ===== *)
(** * The program's entry and its logging ([main.go], [cmd/control/cli.go], [pkg/log])

    Which program a name of the binary runs, which commands the control program has, and where the log goes. The
    logging library, the syslog client and the library of command lines are parameters or calls. *)

From stdpp Require Import prelude gmap strings list.
From S2P Require Import Prelude GoStrings RawTree Prog Cmdline.

Local Open Scope string_scope.

(** ** Entry points ([main.go]) *)

Inductive entry :=
  | AutologinMain | CloudInitExecuteMain | CloudInitSaveMain | DfsMain | MainInit | NetworkMain | BootstrapMain
  | SysinitMain | WaitMain | RespawnMain | Shutdown | ControlMain.

Definition entrypoints : gmap string entry :=
  list_to_map [
    ("autologin", AutologinMain); ("cloud-init-execute", CloudInitExecuteMain); ("cloud-init-save", CloudInitSaveMain);
    ("dockerlaunch", DfsMain); ("init", MainInit); ("netconf", NetworkMain); ("recovery", AutologinMain);
    ("ros-bootstrap", BootstrapMain); ("ros-sysinit", SysinitMain); ("wait-for-docker", WaitMain);
    ("respawn", RespawnMain); ("halt", Shutdown); ("poweroff", Shutdown); ("reboot", Shutdown); ("shutdown", Shutdown)].

(** The library runs what is registered under the name of the process, if anything is. *)
Definition main (registered : gmap string entry → string → option entry) (arg0 : string) : entry :=
  default ControlMain (registered entrypoints arg0).

(** ** Commands of the control program ([cli.go]) *)

Inductive command_kind :=
  | Subcommands (source : string)
  | HiddenAction (action : string).

Definition app_commands : list (string * command_kind) := [
  ("config", Subcommands "configSubcommands"); ("console", Subcommands "consoleSubcommands");
  ("console-init", HiddenAction "consoleInitAction"); ("dev", HiddenAction "devAction");
  ("docker-init", HiddenAction "dockerInitAction"); ("engine", Subcommands "engineSubcommands");
  ("entrypoint", HiddenAction "entrypointAction"); ("env", HiddenAction "envAction");
  ("service", Subcommands "service.Commands"); ("os", Subcommands "osSubcommands");
  ("preload-images", HiddenAction "preloadImagesAction"); ("recovery-init", HiddenAction "recoveryInitAction");
  ("switch-console", HiddenAction "switchConsoleAction"); ("tls", Subcommands "tlsConfCommands");
  ("udev-settle", HiddenAction "udevSettleAction"); ("user-docker", HiddenAction "userDockerAction");
  ("install", Subcommands "installCommand")].

(** [app.Before]: the error that ends the program unless root runs it. *)
Definition app_before (arg0 : string) (euid : Z) : option string :=
  if (euid =? 0)%Z then None else Some (arg0 +:+ ": Need to be root").

(** [cli.VersionPrinter]. *)
Definition version_text (version image Version : string) : string :=
  "version " +:+ version +:+ " from os image " +:+ image +:+ ":" +:+ Version.

(** ** The hook that shows the log ([showuserlog.go]) *)

Inductive Level := PanicLevel | FatalLevel | ErrorLevel | WarnLevel | InfoLevel | DebugLevel.

Definition level_number (l : Level) : nat :=
  match l with PanicLevel => 0 | FatalLevel => 1 | ErrorLevel => 2 | WarnLevel => 3 | InfoLevel => 4 | DebugLevel => 5 end.

Definition level_text (l : Level) : string :=
  match l with
  | PanicLevel => "panic" | FatalLevel => "fatal" | ErrorLevel => "error" | WarnLevel => "warning" | InfoLevel => "info"
  | DebugLevel => "debug"
  end.

Record ShowuserlogHook := {
  hook_Level : Level;
  syslogHook : bool;
  storedEntries : list (Level * string);
  appName : string;
}.

Definition NewShowuserlogHook (l : Level) (app : string) : ShowuserlogHook :=
  {| hook_Level := l; syslogHook := false; storedEntries := []; appName := app |}.

(** What is printed of an entry, and the hook afterwards; [fire] is the answer of the syslog client. *)
Definition Fire (hook : ShowuserlogHook) (entry : Level * string) (fire : result ()) :
    option string * ShowuserlogHook * result () :=
  let printed :=
    if (level_number entry.1 <=? level_number (hook_Level hook))%nat then
      Some ("[            ] " +:+ appName hook +:+ ":" +:+ level_text entry.1 +:+ ": " +:+ entry.2)
    else None in
  if syslogHook hook then (printed, hook, fire)
  else
    (printed,
     {| hook_Level := hook_Level hook; syslogHook := false; storedEntries := storedEntries hook ++ [entry];
        appName := appName hook |}, Ok ()).

Definition Levels : list Level := [DebugLevel; InfoLevel; WarnLevel; ErrorLevel; FatalLevel; PanicLevel].

(** Connecting to syslog, once: what is stored is sent, in order, and stays stored; errors of sending are not looked at. *)
Definition NotUsedYetLogSystemReady (hook : ShowuserlogHook) (NewSyslogHook : result ()) :
    list (Level * string) * ShowuserlogHook * result () :=
  if syslogHook hook then ([], hook, Ok ())
  else
    match NewSyslogHook with
    | Ok () =>
        (storedEntries hook,
         {| hook_Level := hook_Level hook; syslogHook := true; storedEntries := storedEntries hook; appName := appName hook |}, Ok ())
    | Err e => ([], hook, Err e)
    | Panic e => ([], hook, Panic e)
    end.

(** The level is that of the hook when there is one, of the library otherwise. *)
Definition SetLevel (level : Level) (userHook : option ShowuserlogHook) (std : Level) : option ShowuserlogHook * Level :=
  match userHook with
  | Some hook =>
      (Some {| hook_Level := level; syslogHook := syslogHook hook; storedEntries := storedEntries hook; appName := appName hook |}, std)
  | None => (None, level)
  end.
Definition GetLevel (userHook : option ShowuserlogHook) (std : Level) : Level :=
  match userHook with Some hook => hook_Level hook | None => std end.

(** ** Setting the log up ([log.go]) *)

Inductive lcall :=
  | LMkdirAll (dir : string)
  | LOpenFile (file : string)
  | LSetOutput (file : string)
  | LSetLevel (l : Level)
  | LAddUserHook (hook : ShowuserlogHook)
  | LNewSyslogHook (destination : string)
  | LAddSyslogHook (destination : string)
  | LLog (l : Level) (message : string)
  | LGetwd.

Definition lans (c : lcall) : Type :=
  match c with
  | LMkdirAll _ | LOpenFile _ | LNewSyslogHook _ => option string
  | LGetwd => string
  | _ => unit
  end.

Abbreviation lprog := (prog lans).
Definition tell (c : lcall) : lprog (lans c) := invoke c.

Section Log.
(** [os.Args], the value of the kernel parameter [netconsole], and whether the hook has been added before. *)
Context (args : list string) (netconsole : val) (has_hook : bool).

Definition arg0 : string := default "" (head args).

Definition logTheseApps : bool := negb (String.eqb (Base arg0) "ros" || String.eqb (Base arg0) "host_ros").

Definition AddUserHook : lprog () :=
  if has_hook then mret () else tell (LAddUserHook (NewShowuserlogHook InfoLevel (Base arg0))).

(** Not twice; whether a hook is added is decided once more. *)
Definition innerInit : lprog () :=
  if has_hook then mret ()
  else _ ← tell (LSetLevel DebugLevel); if logTheseApps then AddUserHook else mret ().

Definition FsReady : lprog () :=
  let filename := "/var/log/boot/" +:+ Base arg0 +:+ ".log" in
  _ ← tell (LMkdirAll (Dir filename));
  err ← tell (LOpenFile filename);
  match (err : option string) with Some _ => mret () | None => tell (LSetOutput filename) end.

(** The target of the kernel's messages, [port@address/], as a destination for syslog. *)
Definition netconsole_destination (netconsole : string) : option string :=
  match Split netconsole "," with
  | [_; target] =>
      match Split target "@" with
      | [port; address] => Some (TrimRight address "/" +:+ ":" +:+ port)
      | _ => None
      end
  | _ => None
  end.

(** A value that is no text is a failed assertion. *)
Definition AddRSyslogHook : lprog () :=
  match netconsole with
  | VScalar (SStr n) =>
      if String.eqb n "" then mret ()
      else
        match netconsole_destination n with
        | None => mret ()
        | Some destination =>
            err ← tell (LNewSyslogHook destination);
            match (err : option string) with
            | None =>
                _ ← tell (LAddSyslogHook destination);
                tell (LLog InfoLevel ("Sending BurmillaOS Logs to: " +:+ destination))
            | Some e => tell (LLog ErrorLevel ("Error creating SyslogHook: " +:+ e))
            end
        end
  | _ => Done (Panic "interface conversion: not a string")
  end.

Definition started (pwd : string) : string := "START: " +:+ Join args " " +:+ " in " +:+ pwd.

Definition InitLogger : lprog () :=
  if logTheseApps then
    _ ← innerInit; _ ← FsReady; _ ← AddRSyslogHook; pwd ← tell LGetwd; tell (LLog DebugLevel (started pwd))
  else mret ().

(** To the kernel's buffer until there are files. *)
Definition InitDeferedLogger : lprog () :=
  if logTheseApps then
    _ ← innerInit;
    err ← tell (LOpenFile "/dev/kmsg");
    _ ← match (err : option string) with Some _ => mret () | None => tell (LSetOutput "/dev/kmsg") end;
    pwd ← tell LGetwd;
    tell (LLog DebugLevel (started pwd))
  else mret ().
End Log.

(** ** Lemmas *)

(** Every command has one meaning, and so has every name of the binary. *)
Lemma commands_unique : NoDup app_commands.*1 ∧ size entrypoints = 15%nat.
Proof. split; [apply (bool_decide_unpack _)|]; by vm_compute. Qed.

(** The four names of the power commands run one program, which tells them apart by its name. *)
Lemma power_names :
  Forall (λ n, entrypoints !! n = Some Shutdown) ["halt"; "poweroff"; "reboot"; "shutdown"].
Proof. repeat constructor. Qed.

(** An entry is shown when it is as urgent as the level of the hook. *)
Lemma Fire_shows hook entry fire :
  is_Some (Fire hook entry fire).1.1 ↔ (level_number entry.1 ≤ level_number (hook_Level hook))%nat.
Proof.
  unfold Fire. destruct (Nat.leb_spec (level_number entry.1) (level_number (hook_Level hook))), (syslogHook hook);
    cbn; (split; [intros [? [=]]|]; by eauto || lia).
Qed.

(** Without the syslog client, which nothing adds to the hook, every entry is kept for ever. *)
Definition fire_all (hook : ShowuserlogHook) (entries : list (Level * string)) : ShowuserlogHook :=
  foldl (λ h e, (Fire h e (Ok ())).1.2) hook entries.

Lemma Fire_keeps_everything l app entries : storedEntries (fire_all (NewShowuserlogHook l app) entries) = entries.
Proof.
  assert (∀ hook, syslogHook hook = false → storedEntries (fire_all hook entries) = (storedEntries hook ++ entries)%list) as H.
  { induction entries as [|e es IH]; intros hook Hh; [by rewrite app_nil_r|]. unfold fire_all in *. cbn [foldl].
    rewrite IH; unfold Fire; rewrite Hh; [|done]. cbn. by rewrite <- app_assoc. }
  by apply H.
Qed.

(** The control program itself logs nowhere. *)
Lemma ros_does_not_log args netconsole has_hook :
  Base (arg0 args) ∈ ["ros"; "host_ros"] → InitLogger args netconsole has_hook = mret ().
Proof.
  intros H. unfold InitLogger, logTheseApps. rewrite !elem_of_cons in H.
  destruct H as [-> |[-> |?%not_elem_of_nil]]; done.
Qed.

(** The log goes where the kernel's messages go. *)
Lemma netconsole_destination_of source port address :
  has_char "," source = false → has_char "," (Join [port; address] "@") = false →
  has_char "@" port = false → has_char "@" address = false →
  netconsole_destination (Join [source; Join [port; address] "@"] ",") = Some (TrimRight address "/" +:+ ":" +:+ port).
Proof.
  intros H1 H2 H3 H4. unfold netconsole_destination.
  rewrite (Split_Join [source; Join [port; address] "@"] ",") by (done || by repeat constructor).
  by rewrite (Split_Join [port; address] "@") by (done || by repeat constructor).
Qed.

(** A parameter that YAML reads as something else than a text panics: here one without a value, which is [true]. *)
Lemma netconsole_without_value_panics (UnmarshalOrReturn : string → option val) :
  UnmarshalOrReturn "true" = Some (VBool true) →
  GetCmdline UnmarshalOrReturn (Some "quiet netconsole") "netconsole" = VBool true ∧
  AddRSyslogHook (VBool true) = Done (Panic "interface conversion: not a string").
Proof. intros H. split; [|done]. vm_compute. by rewrite H. Qed.

Lemma GetLevel_SetLevel level hook std : let '(hook, std) := SetLevel level hook std in GetLevel hook std = level.
Proof. by destruct hook. Qed.

(** Once there is a syslog, nothing more is stored, and connecting again sends nothing. *)
Lemma syslog_ready hook fired hook' :
  NotUsedYetLogSystemReady hook (Ok ()) = (fired, hook', Ok ()) →
  syslogHook hook' = true ∧ NotUsedYetLogSystemReady hook' (Ok ()) = ([], hook', Ok ()) ∧
  ∀ e r, storedEntries (Fire hook' e r).1.2 = storedEntries hook'.
Proof.
  unfold NotUsedYetLogSystemReady, Fire. destruct (syslogHook hook) eqn:E; intros [= <- <-]; rewrite ?E; [done|by cbn].
Qed.
