(* ===== verification/Lookup.v ===== *)
(** * What a project looks up ([pkg/libcompose/lookup], [pkg/docker/auth.go], [client_factory.go], [libcompose/utils])

    Variables of services, other files, the credentials of registries and the clients of the two daemons. Files,
    variables of the environment and the registry library are parameters. *)

From stdpp Require Import prelude gmap strings list.
From S2P Require Import Prelude GoStrings Prog ProjectOps.
From S2P Require CloudInitExecute Docker ServiceConvert.

Local Open Scope string_scope.

(** ** Variables ([composable.go], [envfile.go], [simple_env.go]) *)

Definition EnvironmentLookup := string → list string.

(** The last lookup that has exactly one answer. *)
Definition ComposableEnvLookup_Lookup (Lookups : list EnvironmentLookup) : EnvironmentLookup := λ key,
  foldl (λ result (lookup : EnvironmentLookup), let env := lookup key in if (length env =? 1)%nat then env else result) [] Lookups.

(** The file as the library parses it. *)
Definition EnvfileLookup_Lookup (envs : result (list string)) : EnvironmentLookup := λ key,
  match envs with
  | Ok envs =>
      match list_find (λ env, head (Split env "=") = Some key) envs with Some (_, env) => [env] | None => [] end
  | _ => []
  end.

Definition OsEnvLookup_Lookup (Getenv : string → string) : EnvironmentLookup := λ key,
  let ret := Getenv key in if String.eqb ret "" then [] else [key +:+ "=" +:+ ret].

(** What [NewProject] looks variables up in: the file [.env], then the environment. *)
Definition default_lookup (envs : result (list string)) (Getenv : string → string) : EnvironmentLookup :=
  ComposableEnvLookup_Lookup [EnvfileLookup_Lookup envs; OsEnvLookup_Lookup Getenv].

(** ** Files ([file.go]) *)

Section Files.
(** [os.Getwd] and [ioutil.ReadFile]. *)
Context (Getwd : result string) (ReadFile : string → result string).

Definition IsAbs (p : string) : bool := HasPrefix p "/".

(** [filepath.Abs]. *)
Definition Abs (p : string) : result string :=
  if IsAbs p then Ok (Clean p) else wd ← Getwd; Ok (path_Join [wd; p]).

Definition relativePath (file relativeTo : string) : string :=
  match (if String.eqb relativeTo "-" then Getwd else Err "") with
  | Ok cwd => cwd
  | _ =>
      if IsAbs file then file
      else match Abs (path_Join [Dir relativeTo; file]) with Ok abs => abs | _ => file end
  end.

Definition FileConfigLookup_Lookup (file relativeTo : string) : result (string * string) :=
  let file := relativePath file relativeTo in bytes ← ReadFile file; Ok (bytes, file).

(** The directory of a volume, made absolute. *)
Definition ResolvePath (path inFile : string) : string :=
  match cut_char ":" path with
  | Some (host, rest) => if IsAbs host then path else relativePath host inFile +:+ ":" +:+ rest
  | None => path
  end.
End Files.

(** ** Credentials ([auth.go]) *)

Record AuthConfig := { Username : string; Password : string; Auth : string }.

(** The alphabet of URLs has other characters for the last two values. *)
Definition url_char (c : ascii) : ascii :=
  if bool_decide (c = "-"%char) then "+"%char else if bool_decide (c = "_"%char) then "/"%char
  else if bool_decide (c = "+"%char ∨ c = "/"%char) then "!"%char else c.

Definition URLEncoding_DecodeString (s : string) : result string :=
  CloudInitExecute.DecodeBase64Content (String.string_of_list_ascii (url_char <$> String.list_ascii_of_string s)).

Definition populateRemaining (authConfig : AuthConfig) : result AuthConfig :=
  if String.eqb (Auth authConfig) "" then Ok authConfig
  else
    decoded ← URLEncoding_DecodeString (Auth authConfig);
    match Split decoded ":" with
    | [user; password] => Ok {| Username := user; Password := password; Auth := Auth authConfig |}
    | _ => Err ("Invalid auth: " +:+ Auth authConfig)
    end.

(** [All]: the credentials of the configuration, with those of the file of docker written into the same map; a nil map
    cannot be written to. *)
Definition All (registryAuths : option (gmap string AuthConfig)) (dockerConfig : option (gmap string AuthConfig)) :
    result (option (gmap string AuthConfig)) :=
  match dockerConfig with
  | None => Ok registryAuths
  | Some file =>
      match registryAuths with
      | Some auths => Ok (Some (file ∪ auths))
      | None => if (size file =? 0)%nat then Ok None else Panic "assignment to entry in nil map"
      end
  end.

Definition no_auth : AuthConfig := {| Username := ""; Password := ""; Auth := "" |}.

(** An image with no known registry has none; an error is logged. *)
Definition Lookup (ResolveAuthConfig : gmap string AuthConfig → string → AuthConfig)
    (registryAuths dockerConfig : option (gmap string AuthConfig)) (repoInfo : option string) : result AuthConfig :=
  match repoInfo with
  | None => Ok no_auth
  | Some index =>
      all ← All registryAuths dockerConfig;
      match populateRemaining (ResolveAuthConfig (default ∅ all) index) with
      | Err _ => Ok no_auth
      | r => r
      end
  end.

(** The lookup of the compose library alone ([libcompose/docker/auth.go]). *)
Definition compose_Lookup (ResolveAuthConfig : gmap string AuthConfig → string → AuthConfig)
    (dockerConfig : option (gmap string AuthConfig)) (repoInfo : option string) : AuthConfig :=
  match dockerConfig, repoInfo with
  | Some configs, Some index => ResolveAuthConfig configs index
  | _, _ => no_auth
  end.

(** ** Clients ([client_factory.go]) *)

(** The turns of the backoff: whether it still goes on, and whether the daemon answers then. *)
Fixpoint client_ok (endpoint : string) (ticks : list (bool * bool)) : result () :=
  match ticks with
  | [] => Ok ()
  | (false, _) :: _ => Err ("Timeout waiting for Docker at " +:+ endpoint)
  | (true, true) :: _ => Ok ()
  | (true, false) :: ticks => client_ok endpoint ticks
  end.

Definition ClientOK (endpoint : string) (ticks : list (bool * bool)) : result () := client_ok endpoint ticks.

(** A [sync.Once]: it is done after the first call, also when that panics. *)
Definition waitFor (once : bool) (endpoint : string) (ticks : list (bool * bool)) : result () * bool :=
  if once then (Ok (), true)
  else (match ClientOK endpoint ticks with Err e => Panic e | r => r end, true).

Record ClientFactory := { userOnce : bool; systemOnce : bool }.

Definition NewClientFactory (userClient systemClient : result ()) : result ClientFactory :=
  _ ← userClient; _ ← systemClient; Ok {| userOnce := false; systemOnce := false |}.

(** The client of a service, after waiting for its daemon. *)
Definition Create (DockerHost SystemDockerHost : string) (c : ClientFactory)
    (service : option ServiceConvert.Sc.ServiceConfig) (ticks : list (bool * bool)) :
    result Docker.daemon * ClientFactory :=
  match ClientFactory_Create service with
  | Ok Docker.SystemDocker =>
      let '(r, once) := waitFor (systemOnce c) SystemDockerHost ticks in
      ((_ ← r; Ok Docker.SystemDocker), {| userOnce := userOnce c; systemOnce := once |})
  | Ok Docker.UserDocker =>
      let '(r, once) := waitFor (userOnce c) DockerHost ticks in
      ((_ ← r; Ok Docker.UserDocker), {| userOnce := once; systemOnce := systemOnce c |})
  | Err e => (Err e, c)
  | Panic e => (Panic e, c)
  end.

(** ** Sets and tasks ([utils/util.go]) *)

Definition FilterStringSet (s : gset string) (f : string → bool) : gset string := filter (λ x, f x = true) s.
Definition Contains (collection : list string) (key : string) : bool := existsb (String.eqb key) collection.

(** In one of the orders of visiting the set. *)
Definition Merge (elems : gset string → list string) (coll1 coll2 : list string) : list string :=
  elems (list_to_set (coll1 ++ coll2)).

(** Tasks run in parallel: one of the errors, if there is any. *)
Definition InParallel_Wait (pick : list string → option string) (tasks : list (option string)) : option string :=
  pick (omap id tasks).

(** ** Labels that are combined ([labels.go]) *)

Definition And (left_ right_ : gmap string (list string)) : gmap string (list string) :=
  union_with (λ l r, Some (l ++ r)%list) left_ right_.

(** ** Lemmas *)

(** Each of the lookups answers with a setting of the variable it is asked for, in which the name has no equals sign. *)
Definition names_key (l : EnvironmentLookup) : Prop :=
  ∀ key v, v ∈ l key → has_char "=" key = false → (env_setting v).1 = key.

Lemma env_setting_key key v : has_char "=" key = false → (env_setting (key +:+ "=" +:+ v)).1 = key.
Proof.
  intros H. unfold env_setting. change (key +:+ "=" +:+ v) with (key +:+ String "=" v). by rewrite (cut_char_app "=" key v H).
Qed.

Lemma EnvfileLookup_names envs : names_key (EnvfileLookup_Lookup envs).
Proof.
  intros key v Hv Hk. unfold EnvfileLookup_Lookup in Hv. destruct envs as [envs|e|e]; [|by apply not_elem_of_nil in Hv..].
  destruct (list_find _ envs) as [[i env]|] eqn:E; [|by apply not_elem_of_nil in Hv].
  apply list_elem_of_singleton in Hv as ->. apply list_find_Some in E as (_ & Hh & _). unfold env_setting.
  destruct (cut_char "=" env) as [[a b]|] eqn:Ec.
  - apply cut_char_Some in Ec as [-> Ha]. rewrite Split_app in Hh by done. by injection Hh.
  - apply cut_char_None in Ec. rewrite Split_single in Hh by done. by injection Hh.
Qed.

Lemma OsEnvLookup_names Getenv : names_key (OsEnvLookup_Lookup Getenv).
Proof.
  intros key v Hv Hk. unfold OsEnvLookup_Lookup in Hv. destruct (String.eqb (Getenv key) ""); [by apply not_elem_of_nil in Hv|].
  apply list_elem_of_singleton in Hv as ->. by apply env_setting_key.
Qed.

Lemma ComposableEnvLookup_names Lookups : Forall names_key Lookups → names_key (ComposableEnvLookup_Lookup Lookups).
Proof.
  intros H key v. unfold ComposableEnvLookup_Lookup.
  assert (∀ acc, (v ∈ acc → has_char "=" key = false → (env_setting v).1 = key) →
    v ∈ foldl (λ result (lookup : EnvironmentLookup), let env := lookup key in if (length env =? 1)%nat then env else result) acc Lookups →
    has_char "=" key = false → (env_setting v).1 = key) as Hacc.
  { induction H as [|l ls Hl _ IH]; [auto|]. intros acc Hacc. cbn [foldl]. apply IH. cbv zeta.
    destruct (length (l key) =? 1)%nat; [apply Hl|exact Hacc]. }
  apply Hacc. by intros ?%not_elem_of_nil.
Qed.

(** A variable of the environment goes before one of the file. *)
Lemma default_lookup_spec envs Getenv key :
  default_lookup envs Getenv key =
  if String.eqb (Getenv key) "" then EnvfileLookup_Lookup envs key else [key +:+ "=" +:+ Getenv key].
Proof.
  unfold default_lookup, ComposableEnvLookup_Lookup. cbn [foldl]. unfold OsEnvLookup_Lookup.
  destruct (String.eqb (Getenv key) ""); cbn; [|done].
  unfold EnvfileLookup_Lookup. destruct envs as [envs|e|e]; [|done..]. by destruct (list_find _ envs) as [[]|].
Qed.

(** The environment that a service of the compose library gets: a variable without a value is that of the environment,
    or of the file, or is left out; one with a value keeps it; names have no equals sign. *)
Lemma environment_of_a_service envs Getenv order env k :
  enumerates order env → (∀ key, is_Some (env !! key) → has_char "=" key = false) →
  new_environment (default_lookup envs Getenv) order !! k =
  match env !! k with Some val => final_variable (default_lookup envs Getenv) k val | None => None end.
Proof.
  intros Hord Hk. apply CreateService_environment; [done|]. intros key v Hkey Hv.
  apply (ComposableEnvLookup_names [EnvfileLookup_Lookup envs; OsEnvLookup_Lookup Getenv]); [|done|by apply Hk].
  repeat constructor; [apply EnvfileLookup_names|apply OsEnvLookup_names].
Qed.

(** *** Files *)

Lemma Clean_rooted p : IsAbs p = true → IsAbs (Clean p) = true.
Proof. intros H. unfold Clean, IsAbs in *. rewrite H. cbv zeta. by destruct (Join _ _). Qed.

Lemma IsAbs_head c a b : IsAbs (String c a) = IsAbs (String c b).
Proof. unfold IsAbs, HasPrefix. cbn. case_match; [by destruct a, b|done]. Qed.

(** In an absolute directory every path becomes absolute. *)
Lemma relativePath_absolute cwd file relativeTo : IsAbs cwd = true → IsAbs (relativePath (Ok cwd) file relativeTo) = true.
Proof.
  intros Hc. unfold relativePath. destruct (String.eqb relativeTo "-"); [done|]. destruct (IsAbs file) eqn:Hf; [done|].
  unfold Abs. destruct (IsAbs (path_Join [Dir relativeTo; file])) eqn:Hj; [by apply Clean_rooted|].
  unfold mbind, result_bind, path_Join. destruct cwd as [|c cwd]; [discriminate Hc|]. rewrite filter_cons, decide_True by done.
  assert (∀ l, IsAbs (Clean (Join (String c cwd :: l) "/")) = true) as H; [|apply H].
  intros l. apply Clean_rooted. destruct l; [done|]. rewrite Join_cons by done. cbn [String.app]. by rewrite (IsAbs_head c _ cwd).
Qed.

(** Resolving the directory of a volume is done once and for all: an absolute one stays, whatever the file. *)
Lemma ResolvePath_idempotent cwd path inFile inFile' :
  IsAbs cwd = true →
  ResolvePath (Ok cwd) (ResolvePath (Ok cwd) path inFile) inFile' = ResolvePath (Ok cwd) path inFile.
Proof.
  intros Hc. unfold ResolvePath at 2 3. destruct (cut_char ":" path) as [[host rest]|] eqn:E; [|unfold ResolvePath; by rewrite E].
  destruct (IsAbs host) eqn:Hh; [unfold ResolvePath; by rewrite E, Hh|].
  pose proof (relativePath_absolute cwd host inFile Hc) as Ha. set (r := relativePath (Ok cwd) host inFile) in *.
  unfold ResolvePath. destruct (cut_char ":" (r +:+ ":" +:+ rest)) as [[h t]|] eqn:E'; [|done].
  apply cut_char_Some in E' as [E' _]. assert (IsAbs h = true) as ->; [|done].
  destruct r as [|c r]; [discriminate Ha|]. destruct h as [|c' h]; cbn in E'.
  - injection E' as -> _. discriminate Ha.
  - injection E' as <- _. by rewrite (IsAbs_head c _ r).
Qed.

(** From the standard input a file is looked up as the directory itself. *)
Lemma stdin_looks_up_the_directory cwd ReadFile file :
  FileConfigLookup_Lookup (Ok cwd) ReadFile file "-" = (bytes ← ReadFile cwd; Ok (bytes, cwd)).
Proof. done. Qed.

(** *** Credentials *)

(** A password with a colon is refused, and the image is pulled without credentials. *)
Lemma password_with_colon :
  populateRemaining {| Username := ""; Password := ""; Auth := "dTphOmI=" |} = Err "Invalid auth: dTphOmI=" ∧
  populateRemaining {| Username := ""; Password := ""; Auth := "dTph" |} =
  Ok {| Username := "u"; Password := "a"; Auth := "dTph" |}.
Proof. by vm_compute. Qed.

(** The file of docker goes before the configuration. *)
Lemma All_docker_first auths file r :
  All (Some auths) (Some file) = Ok (Some r) → ∀ k, r !! k = match file !! k with Some a => Some a | None => auths !! k end.
Proof.
  intros [= <-] k. destruct (file !! k) as [a|] eqn:E; [by apply lookup_union_Some_l|]. by rewrite lookup_union_r.
Qed.

(** *** Clients *)

(** The factory is sure that a daemon answers only the first time: after a panic of the wait the next call goes on
    without one. *)
Lemma waitFor_once endpoint ticks ticks' : waitFor (waitFor false endpoint ticks).2 endpoint ticks' = (Ok (), true).
Proof. done. Qed.

(** The wait ends well when the daemon answers before the time is over. *)
Lemma client_ok_answers endpoint ticks :
  (∃ n, Forall (λ t, t = (true, false)) (take n ticks) ∧ ticks !! n = Some (true, true)) → ClientOK endpoint ticks = Ok ().
Proof.
  intros (n & Hf & Hn). unfold ClientOK. revert ticks Hf Hn.
  induction n as [|n IH]; intros [|[ok test] ticks] Hf Hn; try (by rewrite lookup_nil in Hn).
  - by injection Hn as -> ->.
  - cbn in Hf. apply Forall_cons in Hf as [[= -> ->] Hf]. exact (IH ticks Hf Hn).
Qed.
