(* ===== verification/Regexp.v ===== *)
(** * Regular expressions ([regexp] of the standard library, as the struct tags of the cloud-config use it)

    The patterns of the tags are anchored at both ends; matching one is taking derivatives by the bytes of the text.
    The matcher is proved to decide the language of the expression. *)

From stdpp Require Import prelude strings list.
From S2P Require Import Prelude GoStrings.

Local Open Scope string_scope.

Inductive re :=
  | None_
  | Eps
  | Class (f : ascii → bool)
  | Seq (r1 r2 : re)
  | Alt (r1 r2 : re)
  | Star (r : re).

(** The empty text is in the language. *)
Fixpoint nullable (r : re) : bool :=
  match r with
  | None_ | Class _ => false
  | Eps | Star _ => true
  | Seq r1 r2 => nullable r1 && nullable r2
  | Alt r1 r2 => nullable r1 || nullable r2
  end.

(** What may follow a byte. *)
Fixpoint deriv (c : ascii) (r : re) : re :=
  match r with
  | None_ | Eps => None_
  | Class f => if f c then Eps else None_
  | Seq r1 r2 => if nullable r1 then Alt (Seq (deriv c r1) r2) (deriv c r2) else Seq (deriv c r1) r2
  | Alt r1 r2 => Alt (deriv c r1) (deriv c r2)
  | Star r => Seq (deriv c r) (Star r)
  end.

Fixpoint matches (r : re) (s : string) : bool :=
  match s with
  | "" => nullable r
  | String c s => matches (deriv c r) s
  end.

(** ** Forms of patterns *)

Definition char (c : ascii) : re := Class (λ d, bool_decide (d = c)).
Definition char_range (lo hi : Z) : re := Class (λ c, (lo <=? byte_of c)%Z && (byte_of c <=? hi)%Z).
Fixpoint lit (s : string) : re := match s with "" => Eps | String c s => Seq (char c) (lit s) end.
Definition alt_of (l : list re) : re := foldr Alt None_ l.
Definition one_of (l : list string) : re := alt_of (lit <$> l).
Definition opt (r : re) : re := Alt r Eps.
Definition plus (r : re) : re := Seq r (Star r).
Fixpoint times (n : nat) (r : re) : re := match n with 0 => Eps | S n => Seq r (times n r) end.
Definition digit : re := char_range 48 57.

(** ** The language of an expression *)

Inductive lang : re → string → Prop :=
  | lang_eps : lang Eps ""
  | lang_class f c : f c = true → lang (Class f) (String c "")
  | lang_seq r1 r2 s1 s2 : lang r1 s1 → lang r2 s2 → lang (Seq r1 r2) (s1 +:+ s2)
  | lang_alt_l r1 r2 s : lang r1 s → lang (Alt r1 r2) s
  | lang_alt_r r1 r2 s : lang r2 s → lang (Alt r1 r2) s
  | lang_star_nil r : lang (Star r) ""
  | lang_star_app r s1 s2 : lang r s1 → lang (Star r) s2 → lang (Star r) (s1 +:+ s2).

Lemma string_app_nil_inv (s1 s2 : string) : s1 +:+ s2 = "" → s1 = "" ∧ s2 = "".
Proof. by destruct s1. Qed.

Lemma nullable_lang r : nullable r = true ↔ lang r "".
Proof.
  split.
  - induction r as [| |f|r1 IH1 r2 IH2|r1 IH1 r2 IH2|r IH]; cbn; intros H; try done; try by constructor.
    + apply andb_true_iff in H as [H1 H2]. apply (lang_seq r1 r2 "" ""); auto.
    + apply orb_true_iff in H as [H|H]; [apply lang_alt_l|apply lang_alt_r]; auto.
  - intros H. remember "" as s eqn:Hs. induction H as [|f c| r1 r2 s1 s2 _ IH1 _ IH2|r1 r2 t _ IH|r1 r2 t _ IH| |]; cbn; try done.
    + apply string_app_nil_inv in Hs as [-> ->]. by rewrite (IH1 eq_refl), (IH2 eq_refl).
    + by rewrite (IH Hs).
    + by rewrite (IH Hs), orb_true_r.
Qed.

(** A text of a star that is not empty starts with one of the expression that is not. *)
Lemma lang_star_cons r c s :
  lang (Star r) (String c s) → ∃ s1 s2, s = s1 +:+ s2 ∧ lang r (String c s1) ∧ lang (Star r) s2.
Proof.
  intros H. remember (Star r) as q eqn:Hq. remember (String c s) as t eqn:Ht.
  revert s Ht. induction H as [| | | | |r'|r' s1 s2 H1 _ H2 IH]; intros t Ht; try discriminate.
  injection Hq as ->. destruct s1 as [|d s1]; cbn in Ht; [by apply IH|].
  injection Ht as -> <-. by exists s1, s2.
Qed.

Lemma deriv_lang c r s : lang (deriv c r) s ↔ lang r (String c s).
Proof.
  split.
  - revert s. induction r as [| |f|r1 IH1 r2 IH2|r1 IH1 r2 IH2|r IH]; intros s; cbn.
    + by inversion 1.
    + by inversion 1.
    + destruct (f c) eqn:Hf; inversion 1; subst. by constructor.
    + assert (∀ s, lang (Seq (deriv c r1) r2) s → lang (Seq r1 r2) (String c s)) as Hleft.
      { intros t H. inversion H as [| |? ? s1 s2 H1 H2| | | |]; subst. apply (lang_seq r1 r2 (String c s1) s2); auto. }
      destruct (nullable r1) eqn:Hn; [|by apply Hleft].
      inversion 1 as [| | |? ? ? H1|? ? ? H2| |]; subst; [by apply Hleft|].
      apply (lang_seq r1 r2 "" (String c s)); [by apply nullable_lang|auto].
    + inversion 1; subst; [apply lang_alt_l|apply lang_alt_r]; auto.
    + inversion 1 as [| |? ? s1 s2 H1 H2| | | |]; subst. apply (lang_star_app r (String c s1) s2); auto.
  - revert s. induction r as [| |f|r1 IH1 r2 IH2|r1 IH1 r2 IH2|r IH]; intros s; cbn.
    + by inversion 1.
    + by inversion 1.
    + inversion 1 as [|? ? Hf| | | | |]; subst. rewrite Hf. constructor.
    + intros H. inversion H as [| |? ? s1 s2 H1 H2 E1 E2| | | |]; subst. destruct s1 as [|d s1]; cbn in E2.
      * subst s2. rewrite (proj2 (nullable_lang r1) H1). by apply lang_alt_r, IH2.
      * injection E2 as -> <-. destruct (nullable r1); [apply lang_alt_l|]; apply lang_seq; auto.
    + inversion 1; subst; [apply lang_alt_l|apply lang_alt_r]; auto.
    + intros (s1 & s2 & -> & H1 & H2)%lang_star_cons. apply lang_seq; auto.
Qed.

Lemma matches_lang r s : matches r s = true ↔ lang r s.
Proof. revert r. induction s as [|c s IH]; intros r; cbn; [apply nullable_lang|]. by rewrite IH, deriv_lang. Qed.

Lemma lang_lit s t : lang (lit s) t ↔ t = s.
Proof.
  revert t. induction s as [|c s IH]; intros t; cbn.
  - split; [by inversion 1|intros ->; constructor].
  - split.
    + inversion 1 as [| |? ? s1 s2 H1 H2| | | |]; subst. apply IH in H2 as ->. inversion H1 as [|? ? Hf| | | | |]; subst.
      by apply bool_decide_eq_true in Hf as ->.
    + intros ->. apply (lang_seq (char c) (lit s) (String c "") s); [constructor; by apply bool_decide_eq_true|by apply IH].
Qed.

Lemma lang_alt_of l t : lang (alt_of l) t ↔ ∃ r, r ∈ l ∧ lang r t.
Proof.
  induction l as [|r l IH]; cbn.
  - split; [by inversion 1|by intros (? & ?%not_elem_of_nil & _)].
  - split.
    + inversion 1 as [| | |? ? ? H1|? ? ? H1| |]; subst; [exists r; split; [by left|done]|].
      apply IH in H1 as (q & Hq & H1). exists q. split; [by right|done].
    + intros (q & [->|Hq]%elem_of_cons & H1); [by apply lang_alt_l|apply lang_alt_r, IH; eauto].
Qed.

(** A list of words matches its words. *)
Lemma matches_one_of l s : matches (one_of l) s = true ↔ s ∈ l.
Proof.
  rewrite matches_lang. unfold one_of. rewrite lang_alt_of. split.
  - intros (r & (w & -> & Hw)%list_elem_of_fmap & ->%lang_lit). done.
  - intros H. exists (lit s). split; [by apply list_elem_of_fmap_2|by apply lang_lit].
Qed.
