(* ===== verification/CloudConfig.v ===== *)
(** * Cloud-init: the types of a cloud-config ([config/cloudinit/config])

    What reflection shows of the values of a cloud-config: the fields of its structs with their tags, the zero value of a
    type, the texts a tag allows. A value that YAML has read without a type is an untyped map or list. *)

From stdpp Require Import prelude strings list.
From S2P Require Import Prelude GoStrings FS CloudInitExecute Regexp.

Local Open Scope string_scope.

(** ** Patterns of the tags *)

Record pattern := { pattern_text : string; pattern_re : re }.

Definition words_pattern (text : string) (words : list string) : pattern := {| pattern_text := text; pattern_re := one_of words |}.

Definition proxy_pattern : pattern := words_pattern "^(on|off|readonly)$" ["on"; "off"; "readonly"].
Definition encodings : list string := ["base64"; "b64"; "gz"; "gzip"; "gz+base64"; "gzip+base64"; "gz+b64"; "gzip+b64"].
Definition encoding_pattern : pattern :=
  words_pattern "^(base64|b64|gz|gzip|gz\+base64|gzip\+base64|gz\+b64|gzip\+b64)$" encodings.
Definition unit_commands : list string :=
  ["start"; "stop"; "restart"; "reload"; "try-restart"; "reload-or-restart"; "reload-or-try-restart"].
Definition command_pattern : pattern :=
  words_pattern "^(start|stop|restart|reload|try-restart|reload-or-restart|reload-or-try-restart)$" unit_commands.
Definition reboot_strategies : list string := ["best-effort"; "etcd-lock"; "reboot"; "off"].
Definition strategy_pattern : pattern := words_pattern "^(best-effort|etcd-lock|reboot|off)$" reboot_strategies.

Definition octal : re := char_range 48 55.
Definition permissions_pattern : pattern :=
  {| pattern_text := "^0?[0-7]{3,4}$"; pattern_re := Seq (opt (char "0")) (Alt (times 3 octal) (times 4 octal)) |}.

(** A letter of [(?i:...)]: in either case; the long s folds to s. *)
Definition upper (c : ascii) : ascii := ascii_of_nat (nat_of_ascii c - 32).
Definition fold_char (c : ascii) : re :=
  alt_of ([char c; char (upper c)] ++ if bool_decide (c = "s"%char) then [lit (String "197" (String "191" ""))] else [])%list.
Fixpoint fold_lit (s : string) : re := match s with "" => Eps | String c s => Seq (fold_char c) (fold_lit s) end.

Definition window_start_pattern : pattern := {|
  pattern_text := "^((?i:sun|mon|tue|wed|thu|fri|sat|sun) )?0*([0-9]|1[0-9]|2[0-3]):0*([0-9]|[1-5][0-9])$";
  pattern_re :=
    Seq (opt (Seq (alt_of (fold_lit <$> ["sun"; "mon"; "tue"; "wed"; "thu"; "fri"; "sat"; "sun"])) (char " ")))
   (Seq (Star (char "0"))
   (Seq (alt_of [digit; Seq (char "1") digit; Seq (char "2") (char_range 48 51)])
   (Seq (char ":")
   (Seq (Star (char "0")) (Alt digit (Seq (char_range 49 53) digit))))))
|}.

Definition window_length_pattern : pattern := {|
  pattern_text := "^[-+]?([0-9]*(\.[0-9]*)?[a-z]+)+$";
  pattern_re :=
    Seq (opt (Alt (char "-") (char "+")))
        (plus (Seq (Star digit) (Seq (opt (Seq (char ".") (Star digit))) (plus (char_range 97 122)))))
|}.

(** ** Fields and types *)

Record StructField := {
  Field_Name : string;
  yaml : string;
  env : string;
  valid : option pattern;
  deprecated : string;
}.

(** The field of a value that is not in a struct. *)
Definition no_field : StructField := {| Field_Name := ""; yaml := ""; env := ""; valid := None; deprecated := "" |}.
Definition tagged (name yaml env : string) (valid : option pattern) (deprecated : string) : StructField :=
  {| Field_Name := name; yaml := yaml; env := env; valid := valid; deprecated := deprecated |}.
Definition plain (name yaml env : string) : StructField := tagged name yaml env None "".

Definition etcd2_only : string := "etcd2 options no longer work for etcd".
Definition remote_endpoint : string := "trying to fetch from a remote endpoint introduces too many intermittent errors".

(** [TInterface]: what an untyped list has. *)
Inductive ty :=
  | TString | TInt | TBool | TFloat64 | TInterface
  | TStruct (name : string) (fields : list (StructField * ty))
  | TSlice (elem : ty).

Definition File_type : ty := TStruct "config.File" [
  (tagged "Encoding" "encoding" "" (Some encoding_pattern) "", TString); (plain "Content" "content" "", TString);
  (plain "Owner" "owner" "", TString); (plain "Path" "path" "", TString);
  (tagged "RawFilePermissions" "permissions" "" (Some permissions_pattern) "", TString)].

Definition UnitDropIn_type : ty := TStruct "config.UnitDropIn" [
  (plain "Name" "name" "", TString); (plain "Content" "content" "", TString)].

Definition Unit_type : ty := TStruct "config.Unit" [
  (plain "Name" "name" "", TString); (plain "Mask" "mask" "", TBool); (plain "Enable" "enable" "", TBool);
  (plain "Runtime" "runtime" "", TBool); (plain "Content" "content" "", TString);
  (tagged "Command" "command" "" (Some command_pattern) "", TString);
  (plain "DropIns" "drop_ins" "", TSlice UnitDropIn_type)].

Definition User_type : ty := TStruct "config.User" [
  (plain "Name" "name" "", TString); (plain "PasswordHash" "passwd" "", TString);
  (plain "SSHAuthorizedKeys" "ssh_authorized_keys" "", TSlice TString);
  (tagged "SSHImportGithubUser" "coreos_ssh_import_github" "" None remote_endpoint, TString);
  (tagged "SSHImportGithubUsers" "coreos_ssh_import_github_users" "" None remote_endpoint, TSlice TString);
  (tagged "SSHImportURL" "coreos_ssh_import_url" "" None remote_endpoint, TString);
  (plain "GECOS" "gecos" "", TString); (plain "Homedir" "homedir" "", TString);
  (plain "NoCreateHome" "no_create_home" "", TBool); (plain "PrimaryGroup" "primary_group" "", TString);
  (plain "Groups" "groups" "", TSlice TString); (plain "NoUserGroup" "no_user_group" "", TBool);
  (plain "System" "system" "", TBool); (plain "NoLogInit" "no_log_init" "", TBool);
  (plain "Shell" "shell" "", TString)].

Definition Etcd_type : ty := TStruct "config.Etcd" [
  (plain "Addr" "addr" "ETCD_ADDR", TString);
  (tagged "AdvertiseClientURLs" "advertise_client_urls" "ETCD_ADVERTISE_CLIENT_URLS" None etcd2_only, TString);
  (plain "BindAddr" "bind_addr" "ETCD_BIND_ADDR", TString); (plain "CAFile" "ca_file" "ETCD_CA_FILE", TString);
  (plain "CertFile" "cert_file" "ETCD_CERT_FILE", TString);
  (plain "ClusterActiveSize" "cluster_active_size" "ETCD_CLUSTER_ACTIVE_SIZE", TInt);
  (plain "ClusterRemoveDelay" "cluster_remove_delay" "ETCD_CLUSTER_REMOVE_DELAY", TFloat64);
  (plain "ClusterSyncInterval" "cluster_sync_interval" "ETCD_CLUSTER_SYNC_INTERVAL", TFloat64);
  (plain "CorsOrigins" "cors" "ETCD_CORS", TString); (plain "DataDir" "data_dir" "ETCD_DATA_DIR", TString);
  (plain "Discovery" "discovery" "ETCD_DISCOVERY", TString);
  (tagged "DiscoveryFallback" "discovery_fallback" "ETCD_DISCOVERY_FALLBACK" None etcd2_only, TString);
  (tagged "DiscoverySRV" "discovery_srv" "ETCD_DISCOVERY_SRV" None etcd2_only, TString);
  (tagged "DiscoveryProxy" "discovery_proxy" "ETCD_DISCOVERY_PROXY" None etcd2_only, TString);
  (tagged "ElectionTimeout" "election_timeout" "ETCD_ELECTION_TIMEOUT" None etcd2_only, TInt);
  (tagged "ForceNewCluster" "force_new_cluster" "ETCD_FORCE_NEW_CLUSTER" None etcd2_only, TBool);
  (plain "GraphiteHost" "graphite_host" "ETCD_GRAPHITE_HOST", TString);
  (tagged "HeartbeatInterval" "heartbeat_interval" "ETCD_HEARTBEAT_INTERVAL" None etcd2_only, TInt);
  (plain "HTTPReadTimeout" "http_read_timeout" "ETCD_HTTP_READ_TIMEOUT", TFloat64);
  (plain "HTTPWriteTimeout" "http_write_timeout" "ETCD_HTTP_WRITE_TIMEOUT", TFloat64);
  (tagged "InitialAdvertisePeerURLs" "initial_advertise_peer_urls" "ETCD_INITIAL_ADVERTISE_PEER_URLS" None etcd2_only, TString);
  (tagged "InitialCluster" "initial_cluster" "ETCD_INITIAL_CLUSTER" None etcd2_only, TString);
  (tagged "InitialClusterState" "initial_cluster_state" "ETCD_INITIAL_CLUSTER_STATE" None etcd2_only, TString);
  (tagged "InitialClusterToken" "initial_cluster_token" "ETCD_INITIAL_CLUSTER_TOKEN" None etcd2_only, TString);
  (plain "KeyFile" "key_file" "ETCD_KEY_FILE", TString);
  (tagged "ListenClientURLs" "listen_client_urls" "ETCD_LISTEN_CLIENT_URLS" None etcd2_only, TString);
  (tagged "ListenPeerURLs" "listen_peer_urls" "ETCD_LISTEN_PEER_URLS" None etcd2_only, TString);
  (plain "MaxResultBuffer" "max_result_buffer" "ETCD_MAX_RESULT_BUFFER", TInt);
  (plain "MaxRetryAttempts" "max_retry_attempts" "ETCD_MAX_RETRY_ATTEMPTS", TInt);
  (tagged "MaxSnapshots" "max_snapshots" "ETCD_MAX_SNAPSHOTS" None etcd2_only, TInt);
  (tagged "MaxWALs" "max_wals" "ETCD_MAX_WALS" None etcd2_only, TInt); (plain "Name" "name" "ETCD_NAME", TString);
  (plain "PeerAddr" "peer_addr" "ETCD_PEER_ADDR", TString);
  (plain "PeerBindAddr" "peer_bind_addr" "ETCD_PEER_BIND_ADDR", TString);
  (plain "PeerCAFile" "peer_ca_file" "ETCD_PEER_CA_FILE", TString);
  (plain "PeerCertFile" "peer_cert_file" "ETCD_PEER_CERT_FILE", TString);
  (plain "PeerElectionTimeout" "peer_election_timeout" "ETCD_PEER_ELECTION_TIMEOUT", TInt);
  (plain "PeerHeartbeatInterval" "peer_heartbeat_interval" "ETCD_PEER_HEARTBEAT_INTERVAL", TInt);
  (plain "PeerKeyFile" "peer_key_file" "ETCD_PEER_KEY_FILE", TString); (plain "Peers" "peers" "ETCD_PEERS", TString);
  (plain "PeersFile" "peers_file" "ETCD_PEERS_FILE", TString);
  (tagged "Proxy" "proxy" "ETCD_PROXY" None etcd2_only, TString);
  (plain "RetryInterval" "retry_interval" "ETCD_RETRY_INTERVAL", TFloat64);
  (plain "Snapshot" "snapshot" "ETCD_SNAPSHOT", TBool);
  (plain "SnapshotCount" "snapshot_count" "ETCD_SNAPSHOTCOUNT", TInt);
  (plain "StrTrace" "trace" "ETCD_TRACE", TString); (plain "Verbose" "verbose" "ETCD_VERBOSE", TBool);
  (plain "VeryVerbose" "very_verbose" "ETCD_VERY_VERBOSE", TBool);
  (plain "VeryVeryVerbose" "very_very_verbose" "ETCD_VERY_VERY_VERBOSE", TBool)].

Definition Etcd2_type : ty := TStruct "config.Etcd2" [
  (plain "AdvertiseClientURLs" "advertise_client_urls" "ETCD_ADVERTISE_CLIENT_URLS", TString);
  (tagged "CAFile" "ca_file" "ETCD_CA_FILE" None "ca_file obsoleted by trusted_ca_file and client_cert_auth", TString);
  (plain "CertFile" "cert_file" "ETCD_CERT_FILE", TString);
  (plain "ClientCertAuth" "client_cert_auth" "ETCD_CLIENT_CERT_AUTH", TBool);
  (plain "CorsOrigins" "cors" "ETCD_CORS", TString); (plain "DataDir" "data_dir" "ETCD_DATA_DIR", TString);
  (plain "Debug" "debug" "ETCD_DEBUG", TBool); (plain "Discovery" "discovery" "ETCD_DISCOVERY", TString);
  (plain "DiscoveryFallback" "discovery_fallback" "ETCD_DISCOVERY_FALLBACK", TString);
  (plain "DiscoverySRV" "discovery_srv" "ETCD_DISCOVERY_SRV", TString);
  (plain "DiscoveryProxy" "discovery_proxy" "ETCD_DISCOVERY_PROXY", TString);
  (plain "ElectionTimeout" "election_timeout" "ETCD_ELECTION_TIMEOUT", TInt);
  (plain "EnablePprof" "enable_pprof" "ETCD_ENABLE_PPROF", TBool);
  (plain "ForceNewCluster" "force_new_cluster" "ETCD_FORCE_NEW_CLUSTER", TBool);
  (plain "HeartbeatInterval" "heartbeat_interval" "ETCD_HEARTBEAT_INTERVAL", TInt);
  (plain "InitialAdvertisePeerURLs" "initial_advertise_peer_urls" "ETCD_INITIAL_ADVERTISE_PEER_URLS", TString);
  (plain "InitialCluster" "initial_cluster" "ETCD_INITIAL_CLUSTER", TString);
  (plain "InitialClusterState" "initial_cluster_state" "ETCD_INITIAL_CLUSTER_STATE", TString);
  (plain "InitialClusterToken" "initial_cluster_token" "ETCD_INITIAL_CLUSTER_TOKEN", TString);
  (plain "KeyFile" "key_file" "ETCD_KEY_FILE", TString);
  (plain "ListenClientURLs" "listen_client_urls" "ETCD_LISTEN_CLIENT_URLS", TString);
  (plain "ListenPeerURLs" "listen_peer_urls" "ETCD_LISTEN_PEER_URLS", TString);
  (plain "LogPackageLevels" "log_package_levels" "ETCD_LOG_PACKAGE_LEVELS", TString);
  (plain "MaxSnapshots" "max_snapshots" "ETCD_MAX_SNAPSHOTS", TInt);
  (plain "MaxWALs" "max_wals" "ETCD_MAX_WALS", TInt); (plain "Name" "name" "ETCD_NAME", TString);
  (tagged "PeerCAFile" "peer_ca_file" "ETCD_PEER_CA_FILE" None "peer_ca_file obsoleted peer_trusted_ca_file and peer_client_cert_auth", TString);
  (plain "PeerCertFile" "peer_cert_file" "ETCD_PEER_CERT_FILE", TString);
  (plain "PeerKeyFile" "peer_key_file" "ETCD_PEER_KEY_FILE", TString);
  (plain "PeerClientCertAuth" "peer_client_cert_auth" "ETCD_PEER_CLIENT_CERT_AUTH", TBool);
  (plain "PeerTrustedCAFile" "peer_trusted_ca_file" "ETCD_PEER_TRUSTED_CA_FILE", TString);
  (tagged "Proxy" "proxy" "ETCD_PROXY" (Some proxy_pattern) "", TString);
  (plain "ProxyDialTimeout" "proxy_dial_timeout" "ETCD_PROXY_DIAL_TIMEOUT", TInt);
  (plain "ProxyFailureWait" "proxy_failure_wait" "ETCD_PROXY_FAILURE_WAIT", TInt);
  (plain "ProxyReadTimeout" "proxy_read_timeout" "ETCD_PROXY_READ_TIMEOUT", TInt);
  (plain "ProxyRefreshInterval" "proxy_refresh_interval" "ETCD_PROXY_REFRESH_INTERVAL", TInt);
  (plain "ProxyWriteTimeout" "proxy_write_timeout" "ETCD_PROXY_WRITE_TIMEOUT", TInt);
  (plain "SnapshotCount" "snapshot_count" "ETCD_SNAPSHOT_COUNT", TInt);
  (plain "StrictReconfigCheck" "strict_reconfig_check" "ETCD_STRICT_RECONFIG_CHECK", TBool);
  (plain "TrustedCAFile" "trusted_ca_file" "ETCD_TRUSTED_CA_FILE", TString);
  (plain "WalDir" "wal_dir" "ETCD_WAL_DIR", TString)].

Definition Flannel_type : ty := TStruct "config.Flannel" [
  (plain "EtcdEndpoints" "etcd_endpoints" "FLANNELD_ETCD_ENDPOINTS", TString);
  (plain "EtcdCAFile" "etcd_cafile" "FLANNELD_ETCD_CAFILE", TString);
  (plain "EtcdCertFile" "etcd_certfile" "FLANNELD_ETCD_CERTFILE", TString);
  (plain "EtcdKeyFile" "etcd_keyfile" "FLANNELD_ETCD_KEYFILE", TString);
  (plain "EtcdPrefix" "etcd_prefix" "FLANNELD_ETCD_PREFIX", TString);
  (plain "EtcdUsername" "etcd_username" "FLANNELD_ETCD_USERNAME", TString);
  (plain "EtcdPassword" "etcd_password" "FLANNELD_ETCD_PASSWORD", TString);
  (plain "IPMasq" "ip_masq" "FLANNELD_IP_MASQ", TString);
  (plain "SubnetFile" "subnet_file" "FLANNELD_SUBNET_FILE", TString);
  (plain "Iface" "interface" "FLANNELD_IFACE", TString);
  (plain "PublicIP" "public_ip" "FLANNELD_PUBLIC_IP", TString)].

Definition Fleet_type : ty := TStruct "config.Fleet" [
  (plain "AgentTTL" "agent_ttl" "FLEET_AGENT_TTL", TString);
  (plain "AuthorizedKeysFile" "authorized_keys_file" "FLEET_AUTHORIZED_KEYS_FILE", TString);
  (plain "DisableEngine" "disable_engine" "FLEET_DISABLE_ENGINE", TBool);
  (plain "EngineReconcileInterval" "engine_reconcile_interval" "FLEET_ENGINE_RECONCILE_INTERVAL", TFloat64);
  (plain "EtcdCAFile" "etcd_cafile" "FLEET_ETCD_CAFILE", TString);
  (plain "EtcdCertFile" "etcd_certfile" "FLEET_ETCD_CERTFILE", TString);
  (plain "EtcdKeyFile" "etcd_keyfile" "FLEET_ETCD_KEYFILE", TString);
  (plain "EtcdKeyPrefix" "etcd_key_prefix" "FLEET_ETCD_KEY_PREFIX", TString);
  (plain "EtcdRequestTimeout" "etcd_request_timeout" "FLEET_ETCD_REQUEST_TIMEOUT", TFloat64);
  (plain "EtcdServers" "etcd_servers" "FLEET_ETCD_SERVERS", TString);
  (plain "EtcdUsername" "etcd_username" "FLEET_ETCD_USERNAME", TString);
  (plain "EtcdPassword" "etcd_password" "FLEET_ETCD_PASSWORD", TString);
  (plain "Metadata" "metadata" "FLEET_METADATA", TString); (plain "PublicIP" "public_ip" "FLEET_PUBLIC_IP", TString);
  (plain "TokenLimit" "token_limit" "FLEET_TOKEN_LIMIT", TInt);
  (plain "Verbosity" "verbosity" "FLEET_VERBOSITY", TInt);
  (plain "VerifyUnits" "verify_units" "FLEET_VERIFY_UNITS", TBool)].

Definition Locksmith_type : ty := TStruct "config.Locksmith" [
  (plain "Endpoint" "endpoint" "LOCKSMITHD_ENDPOINT", TString);
  (plain "EtcdCAFile" "etcd_cafile" "LOCKSMITHD_ETCD_CAFILE", TString);
  (plain "EtcdCertFile" "etcd_certfile" "LOCKSMITHD_ETCD_CERTFILE", TString);
  (plain "EtcdKeyFile" "etcd_keyfile" "LOCKSMITHD_ETCD_KEYFILE", TString);
  (plain "EtcdUsername" "etcd_username" "LOCKSMITHD_ETCD_USERNAME", TString);
  (plain "EtcdPassword" "etcd_password" "LOCKSMITHD_ETCD_PASSWORD", TString);
  (plain "Group" "group" "LOCKSMITHD_GROUP", TString);
  (tagged "RebootWindowStart" "window_start" "REBOOT_WINDOW_START" (Some window_start_pattern) "", TString);
  (tagged "RebootWindowLength" "window_length" "REBOOT_WINDOW_LENGTH" (Some window_length_pattern) "", TString)].

Definition OEM_type : ty := TStruct "config.OEM" [
  (plain "ID" "id" "", TString); (plain "Name" "name" "", TString); (plain "VersionID" "version_id" "", TString);
  (plain "HomeURL" "home_url" "", TString); (plain "BugReportURL" "bug_report_url" "", TString)].

Definition Update_type : ty := TStruct "config.Update" [
  (tagged "RebootStrategy" "reboot_strategy" "REBOOT_STRATEGY" (Some strategy_pattern) "", TString);
  (plain "Group" "group" "GROUP", TString); (plain "Server" "server" "SERVER", TString)].

Definition CoreOS_type : ty := TStruct "config.CoreOS" [
  (plain "Etcd" "etcd" "", Etcd_type); (plain "Etcd2" "etcd2" "", Etcd2_type);
  (plain "Flannel" "flannel" "", Flannel_type); (plain "Fleet" "fleet" "", Fleet_type);
  (plain "Locksmith" "locksmith" "", Locksmith_type); (plain "OEM" "oem" "", OEM_type);
  (plain "Update" "update" "", Update_type); (plain "Units" "units" "", TSlice Unit_type)].

Definition CloudConfig_type : ty := TStruct "config.CloudConfig" [
  (plain "SSHAuthorizedKeys" "ssh_authorized_keys" "", TSlice TString); (plain "CoreOS" "coreos" "", CoreOS_type);
  (plain "WriteFiles" "write_files" "", TSlice File_type); (plain "Hostname" "hostname" "", TString);
  (plain "Users" "users" "", TSlice User_type); (plain "ManageEtcHosts" "manage_etc_hosts" "", TString)].

(** ** Values *)

(** A float by its text; [VNil]: an interface without a value; [VOther]: one of another kind. The keys of a map are what
    [%s] prints of them. *)
Inductive value :=
  | VString (s : string)
  | VInt (z : Z)
  | VBool (b : bool)
  | VFloat64 (text : string)
  | VStruct (name : string) (fields : list (StructField * value))
  | VSlice (elem : ty) (items : list value)
  | VMap (entries : list (string * value))
  | VNil
  | VOther (kind : string).

Fixpoint zero (t : ty) : value :=
  match t with
  | TString => VString ""
  | TInt => VInt 0
  | TBool => VBool false
  | TFloat64 => VFloat64 "0"
  | TInterface => VNil
  | TStruct name fields => VStruct name ((λ ft, (ft.1, zero ft.2)) <$> fields)
  | TSlice elem => VSlice elem []
  end.

(** A value of a type: its fields are those of the struct, in order. *)
Fixpoint has_type (v : value) (t : ty) {struct v} : Prop :=
  match v, t with
  | VString _, TString | VInt _, TInt | VBool _, TBool | VFloat64 _, TFloat64 => True
  | VStruct name fields, TStruct name' types =>
      name = name' ∧
      (fix fields_have (fields : list (StructField * value)) (types : list (StructField * ty)) : Prop :=
         match fields, types with
         | [], [] => True
         | (f, v) :: fields, (f', t) :: types => f = f' ∧ has_type v t ∧ fields_have fields types
         | _, _ => False
         end) fields types
  | VSlice elem items, TSlice elem' =>
      elem = elem' ∧
      (fix items_have (items : list value) : Prop :=
         match items with [] => True | v :: items => has_type v elem ∧ items_have items end) items
  | _, _ => False
  end.

(** The types of a config: no interfaces. *)
Fixpoint config_type (t : ty) : bool :=
  match t with
  | TInterface => false
  | TStruct _ fields => forallb (λ ft, config_type ft.2) fields
  | TSlice elem => config_type elem
  | _ => true
  end.

(** [%v] of the kinds a tag constrains; anything else has none here. *)
Definition value_text (v : value) : string :=
  match v with
  | VString s => s
  | VInt z => Itoa z
  | VBool b => if b then "true" else "false"
  | VFloat64 t => t
  | VStruct _ _ | VSlice _ _ | VMap _ | VNil | VOther _ => ""
  end.

Definition uncomparable (type : string) : string := "runtime error: comparing uncomparable type " +:+ type.

(** [reflect.Type.String]. *)
Fixpoint type_name (t : ty) : string :=
  match t with
  | TString => "string" | TInt => "int" | TBool => "bool" | TFloat64 => "float64" | TInterface => "interface {}"
  | TStruct name _ => name
  | TSlice elem => "[]" +:+ type_name elem
  end.

(** The fields of a struct up to the first that is not zero; slices and maps cannot be compared. *)
Fixpoint isZero (v : value) : result bool :=
  match v with
  | VString s => Ok (String.eqb s "")
  | VInt z => Ok (z =? 0)%Z
  | VBool b => Ok (negb b)
  | VFloat64 t => Ok (String.eqb t "0" || String.eqb t "-0")
  | VStruct _ fields =>
      foldr (λ fv rest, z ← isZero fv.2; if z : bool then rest else Ok false) (Ok true) fields
  | VSlice elem _ => Panic (uncomparable ("[]" +:+ type_name elem))
  | VMap _ => Panic (uncomparable "map[interface {}]interface {}")
  | VNil => Panic "reflect: call of reflect.Value.Interface on zero Value"
  | VOther _ => Ok false
  end.

Record ErrorValid := { ErrorValid_Value : string; ErrorValid_Valid : string; ErrorValid_Field : string }.

Definition ErrorValid_Error (Quote : string → string) (e : ErrorValid) : string :=
  "invalid value " +:+ Quote (ErrorValid_Value e) +:+ " for option " +:+ Quote (ErrorValid_Field e) +:+
  " (valid options: " +:+ Quote (ErrorValid_Valid e) +:+ ")".

Definition AssertValid (value : value) (valid : option pattern) : result (option ErrorValid) :=
  match valid with
  | None => Ok None
  | Some p =>
      z ← isZero value;
      if z : bool then Ok None
      else if matches (pattern_re p) (value_text value) then Ok None
      else Ok (Some {| ErrorValid_Value := value_text value; ErrorValid_Valid := pattern_text p; ErrorValid_Field := "" |})
  end.

(** The first field that is not valid, on the fields of a struct. *)
Definition AssertStructValid (fields : list (StructField * value)) : result (option ErrorValid) :=
  foldr (λ fv rest,
    err ← AssertValid fv.2 (valid fv.1);
    match err : option ErrorValid with
    | Some e => Ok (Some {| ErrorValid_Value := ErrorValid_Value e; ErrorValid_Valid := ErrorValid_Valid e;
                            ErrorValid_Field := Field_Name fv.1 |})
    | None => rest
    end) (Ok None) fields.

(** ** Lemmas *)

Lemma matches_words text words s : matches (pattern_re (words_pattern text words)) s = true ↔ s ∈ words.
Proof. apply matches_one_of. Qed.

(** *** Types *)

Section ty_induction.
Context (P : ty → Prop).
Hypothesis HString : P TString.
Hypothesis HInt : P TInt.
Hypothesis HBool : P TBool.
Hypothesis HFloat64 : P TFloat64.
Hypothesis HInterface : P TInterface.
Hypothesis HStruct : ∀ name fields, Forall (λ ft, P ft.2) fields → P (TStruct name fields).
Hypothesis HSlice : ∀ elem, P elem → P (TSlice elem).

Fixpoint ty_nested_ind (t : ty) : P t :=
  match t with
  | TString => HString | TInt => HInt | TBool => HBool | TFloat64 => HFloat64 | TInterface => HInterface
  | TStruct name fields =>
      HStruct name fields
        ((fix fields_ind (l : list (StructField * ty)) : Forall (λ ft, P ft.2) l :=
            match l with
            | [] => Forall_nil_2 _
            | ft :: l => Forall_cons_2 _ ft l (ty_nested_ind ft.2) (fields_ind l)
            end) fields)
  | TSlice elem => HSlice elem (ty_nested_ind elem)
  end.
End ty_induction.

(** The zero value of a type has the type. *)
Lemma zero_typed t : config_type t = true → has_type (zero t) t.
Proof.
  induction t as [| | | | |name fields IH|elem IH] using ty_nested_ind; cbn; intros H; try done.
  split; [done|]. induction fields as [|[f t] fields IHf]; cbn in *; [done|].
  apply andb_true_iff in H as [H1 H2]. apply Forall_cons in IH as [IH1 IH2]. split_and!; [done|by apply IH1|exact (IHf IH2 H2)].
Qed.

(** The types of a cloud-config have no interfaces. *)
Lemma CloudConfig_config_type : config_type CloudConfig_type = true.
Proof. by vm_compute. Qed.

(** *** Validity *)

Lemma AssertValid_string s p :
  AssertValid (VString s) (Some p) = Ok None ↔ s = "" ∨ matches (pattern_re p) s = true.
Proof.
  cbn. destruct (String.eqb s "") eqn:E; [apply String.eqb_eq in E as ->; naive_solver|].
  apply String.eqb_neq in E. destruct (matches (pattern_re p) s); naive_solver.
Qed.

(** The encodings the tag allows are those that can be decoded. *)
Lemma encodings_decoded e :
  AssertValid (VString e) (Some encoding_pattern) = Ok None ↔ is_ok (DecodeContent Ok "" e) = true.
Proof.
  rewrite AssertValid_string. unfold encoding_pattern. rewrite matches_words. unfold DecodeContent. split.
  - intros [->|H]; [done|]. unfold encodings in H.
    repeat (apply elem_of_cons in H as [->|H]; [by vm_compute|]). by apply not_elem_of_nil in H.
  - destruct (String.eqb e "") eqn:E; [apply String.eqb_eq in E; by left|]. intros H. right.
    cbn -[String.eqb] in H.
    repeat match type of H with
    | context [String.eqb e ?w] =>
        let Ew := fresh in destruct (String.eqb e w) eqn:Ew; [apply String.eqb_eq in Ew as ->; unfold encodings; set_solver|]
    end. done.
Qed.

Definition is_octal (c : ascii) : bool := (48 <=? byte_of c)%Z && (byte_of c <=? 55)%Z.

Lemma lang_times_octal n s : lang (times n octal) s → length (String.list_ascii_of_string s) = n ∧ Forall is_octal (String.list_ascii_of_string s).
Proof.
  revert s. induction n as [|n IH]; cbn; intros s; inversion 1 as [| |? ? s1 s2 H1 H2| | | |]; subst; [done|].
  inversion H1 as [|? c Hc| | | | |]; subst. destruct (IH _ H2) as [Hl Hf]. cbn. split; [by f_equal|]. constructor; [by apply Is_true_true|done].
Qed.

Lemma octal_val_bound s acc :
  Forall is_octal (String.list_ascii_of_string s) → (0 ≤ acc)%Z →
  ∃ v, octal_val acc s = Some v ∧ (0 ≤ v < (acc + 1) * 8 ^ Z.of_nat (length (String.list_ascii_of_string s)))%Z.
Proof.
  revert acc. induction s as [|c s IH]; intros acc; cbn [String.list_ascii_of_string length]; intros Hf Ha.
  - exists acc. split; [done|]. change (8 ^ Z.of_nat 0)%Z with 1%Z. lia.
  - apply Forall_cons in Hf as [Hc Hf]. apply Is_true_true in Hc. unfold is_octal in Hc. apply andb_true_iff in Hc as [H1 H2].
    cbn [octal_val]. rewrite H1, H2. cbn. apply Z.leb_le in H1, H2.
    destruct (IH (acc * 8 + (byte_of c - 48))%Z Hf) as (v & -> & Hv); [lia|]. exists v. split; [done|].
    rewrite Nat2Z.inj_succ, Z.pow_succ_r by lia. nia.
Qed.

Lemma ParseInt8_32_octal s v :
  s ≠ "" → Forall is_octal (String.list_ascii_of_string s) → octal_val 0 s = Some v → (0 ≤ v < 2147483648)%Z →
  ParseInt8_32 s = Some v.
Proof.
  intros Hne Hf Hv Hb. destruct s as [|c s]; [done|]. apply Forall_cons in Hf as [Hc _].
  assert (is_octal c → ParseInt8_32 (String c s) =
    match octal_val 0 (String c s) with
    | Some n => if (-2147483648 <=? n)%Z && (n <=? 2147483647)%Z then Some n else None
    | None => None
    end) as E.
  { unfold ParseInt8_32. destruct c as [[] [] [] [] [] [] [] []]; try done. }
  rewrite E, Hv by done.
  by rewrite (proj2 (Z.leb_le _ _)), (proj2 (Z.leb_le _ _)) by lia.
Qed.

(** The permissions the tag allows are read as a number, of at most twelve bits. *)
Lemma permissions_parsed f :
  AssertValid (VString (f_RawFilePermissions f)) (Some permissions_pattern) = Ok None →
  ∃ perm, Permissions f = Ok perm ∧ (0 ≤ perm < 4096)%Z.
Proof.
  rewrite AssertValid_string. unfold Permissions. intros [->|H]; [by exists 420%Z|].
  set (s := f_RawFilePermissions f) in *. clearbody s. apply matches_lang in H.
  inversion H as [| |? ? s1 s2 H1 H2| | | |]; subst.
  assert (Forall is_octal (String.list_ascii_of_string s2) ∧ (3 ≤ length (String.list_ascii_of_string s2) ≤ 4)%nat) as [Hf Hl].
  { inversion H2 as [| | |? ? ? H0|? ? ? H0| |]; subst;
    [apply (lang_times_octal 3) in H0 as [Hl ?]|apply (lang_times_octal 4) in H0 as [Hl ?]]; split; try done; rewrite Hl; lia. }
  destruct (octal_val_bound s2 0 Hf) as (v & Hv & Hb); [lia|].
  assert (0 ≤ v < 4096)%Z as Hb'.
  { split; [lia|]. destruct (decide (length (String.list_ascii_of_string s2) = 3)) as [E|E].
    - rewrite E in Hb. cbn in Hb. lia.
    - replace (length (String.list_ascii_of_string s2)) with 4 in Hb by lia. cbn in Hb. lia. }
  exists v. split; [|done].
  assert (s2 ≠ "") as Hne by (intros ->; cbn in Hl; lia).
  assert (ParseInt8_32 (s1 +:+ s2) = Some v) as ->.
  { inversion H1 as [| | |? ? ? H0|? ? ? H0| |]; subst; inversion H0 as [|? c Hc| | | | |]; subst.
    - apply bool_decide_eq_true in Hc as ->. apply ParseInt8_32_octal; [done| |by cbn|lia].
      constructor; [by vm_compute|done].
    - apply ParseInt8_32_octal; [done..|lia]. }
  rewrite Z.mod_small by lia. destruct (String.eqb (s1 +:+ s2) "") eqn:E; [|done].
  apply String.eqb_eq, string_app_nil_inv in E as [_ E]. done.
Qed.

(** Windows. *)
Lemma window_examples :
  matches (pattern_re window_start_pattern) "Sat 02:30" = true ∧ matches (pattern_re window_start_pattern) "0023:5" = true ∧
  matches (pattern_re window_start_pattern) "24:00" = false ∧ matches (pattern_re window_start_pattern) "sat02:30" = false ∧
  matches (pattern_re window_length_pattern) "1h30m" = true ∧ matches (pattern_re window_length_pattern) "-1.5h" = true ∧
  matches (pattern_re window_length_pattern) "90" = false.
Proof. by vm_compute. Qed.
