(* ===== verification/CloudInitSystem.v ===== *)
(** * Cloud-init: units, users and files of the system ([config/cloudinit/system], [config], [initialize])

    What the CoreOS part of a cloud-config becomes: drop-ins of units, files under /etc, the calls that create users.
    A struct is a value of [CloudConfig], whose tags name the variables of its fields; quoting, the decompressor and YAML
    are parameters. *)

From stdpp Require Import prelude gmap strings list.
From S2P Require Import Prelude GoStrings Util FS Prog CloudInitExecute CloudInitSave CloudConfig.

Local Open Scope string_scope.

Definition nl : string := String "010" "".

(** ** Variables ([system/env.go]) *)

(** The variables that are set, in the order of the fields. *)
Definition getEnvVars (e : value) : result (list string) :=
  match e with
  | VStruct _ fields =>
      foldr (λ fv rest,
        z ← isZero fv.2;
        vars ← rest;
        Ok (if z : bool then vars else (env fv.1 +:+ "=" +:+ value_text fv.2) :: vars)) (Ok []) fields
  | _ => Panic "reflect: NumField of non-struct type"
  end.

Definition env_line (v : string) : string := "Environment=" +:+ String "034" (v +:+ String "034" nl).

Definition serviceContents (e : value) : result string :=
  vars ← getEnvVars e;
  Ok (match vars with
      | [] => ""
      | _ => "[Service]" +:+ nl +:+ foldr (λ v out, env_line v +:+ out) "" vars
      end).

(** ** Units ([system/unit.go]) *)

Record UnitDropIn := { DropIn_Name : string; DropIn_Content : string }.

Record Unit := {
  Unit_Name : string;
  Mask : bool;
  Enable : bool;
  Runtime : bool;
  Unit_Content : string;
  Command : string;
  DropIns : list UnitDropIn;
}.

(** [filepath.Ext], on the last element of a path; from the last dot. *)
Fixpoint Ext_ (s : string) : option string :=
  match s with
  | "" => None
  | String c t => match Ext_ t with Some e => Some e | None => if bool_decide (c = "."%char) then Some s else None end
  end.
Definition Ext (p : string) : string := default "" (Ext_ (split_dir p).2).

Fixpoint TrimLeft_dot (s : string) : string :=
  match s with String c t => if bool_decide (c = "."%char) then TrimLeft_dot t else s | "" => "" end.

Definition Type_ (u : Unit) : string := TrimLeft_dot (Ext (Unit_Name u)).
Definition Group (u : Unit) : string :=
  if existsb (String.eqb (Type_ u)) ["network"; "netdev"; "link"] then "network" else "system".
Definition prefix (u : Unit) (root : string) : string :=
  path_Join [root; if Runtime u then "run" else "etc"; "systemd"; Group u].
Definition Destination (u : Unit) (root : string) : string := path_Join [prefix u root; Unit_Name u].
Definition DropInDestination (u : Unit) (root : string) (dropIn : UnitDropIn) : string :=
  path_Join [prefix u root; Unit_Name u +:+ ".d"; DropIn_Name dropIn].

(** A unit at run time whose drop-in has the variables. *)
Definition env_unit (name : string) (e : value) : result (list Unit) :=
  content ← serviceContents e;
  Ok [{| Unit_Name := name; Mask := false; Enable := false; Runtime := true; Unit_Content := ""; Command := "";
         DropIns := [{| DropIn_Name := "20-cloudinit.conf"; DropIn_Content := content |}] |}].

Definition Etcd_Units (e : value) : result (list Unit) := env_unit "etcd.service" e.
Definition Etcd2_Units (e : value) : result (list Unit) := env_unit "etcd2.service" e.
Definition Fleet_Units (e : value) : result (list Unit) := env_unit "fleet.service" e.
Definition Locksmith_Units (e : value) : result (list Unit) := env_unit "locksmithd.service" e.

(** ** Files ([flannel.go], [oem.go], [etc_hosts.go]) *)

Definition system_file (elems : list string) (content : string) : File :=
  {| f_Encoding := ""; f_Content := content; f_Owner := ""; f_Path := path_Join elems; f_RawFilePermissions := "0644" |}.

Definition Flannel_File (e : value) : result (option File) :=
  vars ← getEnvVars e;
  let vars := Join vars nl in
  Ok (if String.eqb vars "" then None else Some (system_file ["run"; "flannel"; "options.env"] vars)).

Record OEM := { OEM_ID : string; OEM_Name : string; VersionID : string; HomeURL : string; BugReportURL : string }.

Definition OEM_File (Quote : string → string) (oem : OEM) : option File :=
  if String.eqb (OEM_ID oem) "" then None
  else Some (system_file ["etc"; "oem-release"]
    ("ID=" +:+ OEM_ID oem +:+ nl +:+ "VERSION_ID=" +:+ VersionID oem +:+ nl +:+ "NAME=" +:+ Quote (OEM_Name oem) +:+ nl +:+
     "HOME_URL=" +:+ Quote (HomeURL oem) +:+ nl +:+ "BUG_REPORT_URL=" +:+ Quote (BugReportURL oem) +:+ nl)).

Definition generateEtcHosts (EtcHosts : string) (Hostname : result string) : result string :=
  if negb (String.eqb EtcHosts "localhost") then Err "Invalid option to manage_etc_hosts"
  else hostname ← Hostname; Ok ("127.0.0.1 " +:+ hostname +:+ nl).

Definition EtcHosts_File (EtcHosts : string) (Hostname : result string) : result (option File) :=
  if String.eqb EtcHosts "" then Ok None
  else etcHosts ← generateEtcHosts EtcHosts Hostname; Ok (Some (system_file ["etc"; "hosts"] etcHosts)).

(** ** Updates ([update.go]) *)

Record Update := { RebootStrategy : string; Update_Group : string; Server : string }.

Definition Update_fields (u : Update) : list (StructField * value) :=
  match Update_type with
  | TStruct _ types => zip_with (λ ft v, (ft.1, VString v)) types [RebootStrategy u; Update_Group u; Server u]
  | _ => []
  end.

(** The lines to write, by the name of the variable. *)
Definition update_sub (env val : string) (subs : gmap string string) : gmap string string :=
  if String.eqb val "" then subs else <[env := env +:+ "=" +:+ val]> subs.
Definition update_subs (u : Update) : gmap string string :=
  foldl (λ subs fv, update_sub (env fv.1) (value_text fv.2) subs) ∅ (Update_fields u).

(** What opening a file gives. *)
Inductive api_file := Opened (content : string) | NotExist | OpenError.

(** [DefaultReadConfig]. *)
Definition DefaultReadConfig (Open : string → api_file) : result string :=
  match Open "/etc/coreos/update.conf" with
  | Opened f => Ok f
  | NotExist => match Open "/usr/share/coreos/update.conf" with Opened f => Ok f | _ => Err "open" end
  | OpenError => Err "open"
  end.

Section Update.
(** The order in which the substitutions are visited. *)
Context (range : gmap string string → list (string * string)).

(** The first of them whose name starts the line takes its place, once. *)
Definition substitute (subs : gmap string string) (line : string) : string * gmap string string :=
  match list_find (λ ev, HasPrefix line ev.1 = true) (range subs) with
  | Some (_, (env, value)) => (value, delete env subs)
  | None => (line, subs)
  end.

Fixpoint substitute_lines (subs : gmap string string) (lines : list string) : list string * gmap string string :=
  match lines with
  | [] => ([], subs)
  | line :: lines =>
      let '(line, subs) := substitute subs line in
      let '(out, subs) := substitute_lines subs lines in (line :: out, subs)
  end.

Definition sortedKeys (m : gmap string string) : list string := sort_strings (map_to_list m).*1.

(** The file that is written: that of the system with the configured lines in place, and the rest at its end. The error
    of a line that is too long is looked for in the loop, which it has ended. *)
Definition update_lines (u : Update) (conf : string) : list string :=
  let '(out, subs) := substitute_lines (update_subs u) (scan_lines conf).1 in
  (out ++ omap (λ key, subs !! key) (sortedKeys subs))%list.

Definition Update_File (Quote : string → string) (u : Update) (ReadConfig : result string) : result (option File) :=
  z ← isZero (VStruct "config.Update" (Update_fields u));
  if z : bool then Ok None
  else
    err ← AssertStructValid (Update_fields u);
    match err : option ErrorValid with
    | Some e => Err (ErrorValid_Error Quote e)
    | None =>
        conf ← ReadConfig;
        Ok (Some (system_file ["etc"; "coreos"; "update.conf"]
          (foldr (λ line out, line +:+ nl +:+ out) "" (update_lines u conf))))
    end.
End Update.

Definition plain_unit (name command : string) (mask runtime : bool) : Unit :=
  {| Unit_Name := name; Mask := mask; Enable := false; Runtime := runtime; Unit_Content := ""; Command := command; DropIns := [] |}.

Definition Update_Units (u : Update) : list Unit :=
  ((if String.eqb (RebootStrategy u) "" then []
    else if String.eqb (RebootStrategy u) "off" then [plain_unit "locksmithd.service" "stop" true true]
    else [plain_unit "locksmithd.service" "restart" false true]) ++
   (if String.eqb (Update_Group u) "" && String.eqb (Server u) "" then []
    else [plain_unit "update-engine.service" "restart" false false]))%list.

(** ** Users ([user.go]) *)

Record User := {
  User_Name : string;
  PasswordHash : string;
  SSHAuthorizedKeys : list string;
  SSHImportGithubUser : string;
  SSHImportGithubUsers : list string;
  SSHImportURL : string;
  GECOS : string;
  Homedir : string;
  NoCreateHome : bool;
  PrimaryGroup : string;
  Groups : list string;
  NoUserGroup : bool;
  System : bool;
  NoLogInit : bool;
  Shell : string;
}.

Definition with_value (flag value : string) : list string := if String.eqb value "" then [] else [flag; value].
Definition with_flag (flag : string) (b : bool) : list string := if b then [flag] else [].

(** The arguments of [useradd]. *)
Definition CreateUser_args (Quote : string → string) (u : User) : list string :=
  (["--password"; if String.eqb (PasswordHash u) "" then "*" else PasswordHash u] ++
   (if String.eqb (GECOS u) "" then [] else ["--comment"; Quote (GECOS u)]) ++
   with_value "--home-dir" (Homedir u) ++
   [if NoCreateHome u then "--no-create-home" else "--create-home"] ++
   with_value "--gid" (PrimaryGroup u) ++
   (match Groups u with [] => [] | groups => ["--groups"; Join groups ","] end) ++
   with_flag "--no-user-group" (NoUserGroup u) ++
   with_flag "--system" (System u) ++
   with_flag "--no-log-init" (NoLogInit u) ++
   with_value "--shell" (Shell u) ++
   [User_Name u])%list.

(** Commands that are run, to their end or with a text to read; the answer is the error. *)
Inductive ucall :=
  | UserLookup (name : string)
  | CombinedOutput (command : list string)
  | StdinPipe (command : list string)
  | StdoutPipe (command : list string)
  | StderrPipe (command : list string)
  | Start (command : list string)
  | WriteStdin (text : string)
  | CloseStdin
  | Wait
  | UserLog (message : string).

Definition uans (c : ucall) : Type := match c with CloseStdin | UserLog _ => unit | _ => option string end.

Abbreviation uprog := (prog uans).
Definition ask (c : ucall) : uprog (uans c) := invoke c.

(** Go on unless there is an error, which is the error of the function. *)
Definition unless_error (err : option string) (k : uprog (option string)) : uprog (option string) :=
  match err with Some e => mret (Some e) | None => k end.

Definition UserExists (u : User) : uprog bool :=
  err ← ask (UserLookup (User_Name u)); mret (bool_decide ((err : option string) = None)).

Definition CreateUser (Quote : string → string) (u : User) : uprog (option string) :=
  let args := CreateUser_args Quote u in
  err ← ask (CombinedOutput ("useradd" :: args));
  match (err : option string) with
  | Some e => _ ← ask (UserLog ("Command 'useradd " +:+ Join args " " +:+ "' failed: " +:+ e)); mret (Some e)
  | None => mret None
  end.

(** What [chpasswd -e] reads. *)
Definition SetUserPassword_input (user hash : string) : string := user +:+ ":" +:+ hash.

Definition SetUserPassword (user hash : string) : uprog (option string) :=
  let cmd := ["/usr/sbin/chpasswd"; "-e"] in
  err ← ask (StdinPipe cmd); unless_error err (
  err ← ask (Start cmd); unless_error err (
  err ← ask (WriteStdin (SetUserPassword_input user hash)); unless_error err (
  _ ← ask CloseStdin;
  ask Wait))).

(** What [update-ssh-keys] reads, and the keys, which are trimmed in place. *)
Definition AuthorizeSSHKeys_input (keys : list string) : string * list string :=
  let keys := TrimSpace <$> keys in (Join keys nl +:+ nl, keys).

(** The outputs of the command are part of its error. *)
Definition AuthorizeSSHKeys (user keysName : string) (keys : list string) (outputs : string) : uprog (option string) :=
  let cmd := ["update-ssh-keys"; "-u"; user; "-a"; keysName] in
  err ← ask (StdinPipe cmd); unless_error err (
  err ← ask (StdoutPipe cmd); unless_error err (
  err ← ask (StderrPipe cmd); unless_error err (
  err ← ask (Start cmd);
  match (err : option string) with
  | Some e => _ ← ask CloseStdin; mret (Some e)
  | None =>
      err ← ask (WriteStdin (AuthorizeSSHKeys_input keys).1); unless_error err (
      _ ← ask CloseStdin;
      err ← ask Wait;
      mret ((λ e, "Call to update-ssh-keys failed with " +:+ e +:+ ": " +:+ outputs) <$> (err : option string)))
  end))).

(** ** Keys of other hosts ([ssh_keys.go], [github.go]) *)

Record UserKey := { ID : Z; Key : string }.

Section Keys.
(** The client of HTTP with its retries, and JSON. *)
Context (GetRetry : string → result string) (Unmarshal : string → result (list UserKey)).

Definition fetchUserKeys (url : string) : result (list string) :=
  data ← GetRetry url; userKeys ← Unmarshal data; Ok (map Key userKeys).

Definition import_keys (url systemUser keyName outputs : string) : uprog (option string) :=
  match fetchUserKeys url with
  | Ok keys => AuthorizeSSHKeys systemUser keyName keys outputs
  | Err e => mret (Some e)
  | Panic e => Done (Panic e)
  end.

Definition SSHImportKeysFromURL (systemUser url outputs : string) : uprog (option string) :=
  import_keys url systemUser ("coreos-cloudinit-" +:+ systemUser) outputs.

Definition ImportGithubUser (systemUser githubUser outputs : string) : uprog (option string) :=
  import_keys ("https://api.github.com/users/" +:+ githubUser +:+ "/keys") systemUser ("github-" +:+ githubUser) outputs.
End Keys.

(** ** Decoding and user data ([config.go], [user_data.go]) *)

Section Decode.
Context (DecompressGzip : string → result string).

(** The files are decoded one by one, in place, up to the first that cannot be. *)
Fixpoint Decode (files : list File) : list File * option string :=
  match files with
  | [] => ([], None)
  | f :: files =>
      match DecodeContent DecompressGzip (f_Content f) (f_Encoding f) with
      | Ok content => let '(files, err) := Decode files in (decoded f content :: files, err)
      | Err e | Panic e => (f :: files, Some e)
      end
  end.

Inductive user_data := Nothing | ScriptData (script : string) | CloudConfigData (WriteFiles : list File).

(** [NewCloudConfig] gives the files of a cloud-config. *)
Definition ParseUserData (NewCloudConfig : string → result (list File)) (IsIgnitionConfig : string → bool) (contents : string) :
    result user_data :=
  if String.eqb contents "" then Ok Nothing
  else if IsScript contents then Ok (ScriptData contents)
  else if IsCloudConfig contents then
    cc ← NewCloudConfig contents;
    match Decode cc with
    | (files, None) => Ok (CloudConfigData files)
    | (_, Some e) => Err e
    end
  else if IsIgnitionConfig contents then Err "not a config (found Ignition)"
  else Err "Unrecognized user-data format".
End Decode.

(** ** The workspace ([workspace.go]) *)

Definition PrepWorkspace (workspace : string) : IO () :=
  _ ← EnsureDirectoryExists workspace; EnsureDirectoryExists (path_Join [workspace; "scripts"]).

(** The file of a script: the name of the temporary file below the workspace. *)
Definition script_file (tmp workspace script : string) : File :=
  {| f_Encoding := ""; f_Content := script; f_Owner := ""; f_Path := TrimPrefix tmp workspace; f_RawFilePermissions := "0744" |}.

(** The temporary file is there to be replaced by another one. *)
Definition PersistScriptInWorkspace (temp_name : files → string → string → string) (script workspace : string) : IO string :=
  tmp ← TempFile temp_name (path_Join [workspace; "scripts"]) "";
  _ ← (λ w, (Ok (), (Close w).2));
  WriteFile temp_name (script_file tmp workspace script) workspace.

Definition unit_name_file (name : string) : File := system_file ["scripts"; "unit-name"] name.

Definition PersistUnitNameInWorkspace (temp_name : files → string → string → string) (name workspace : string) : IO () :=
  _ ← WriteFile temp_name (unit_name_file name) workspace; mret ().

(** ** Lemmas *)

Definition type_fields (t : ty) : list StructField := match t with TStruct _ fields => fields.*1 | _ => [] end.

(** No two fields of a struct set the same variable. *)
Lemma variables_unique :
  Forall (λ t, NoDup (env <$> type_fields t)) [Etcd_type; Etcd2_type; Flannel_type; Fleet_type; Locksmith_type; Update_type].
Proof. repeat constructor; apply (bool_decide_unpack _); by vm_compute. Qed.

(** A variable is set exactly when its field is not zero. *)
Lemma getEnvVars_set name fields vars line :
  getEnvVars (VStruct name fields) = Ok vars →
  line ∈ vars ↔ ∃ f v, (f, v) ∈ fields ∧ isZero v = Ok false ∧ line = env f +:+ "=" +:+ value_text v.
Proof.
  cbn. revert vars. induction fields as [|[f v] fields IH]; intros vars; cbn.
  { intros [= <-]. split; [by intros ?%not_elem_of_nil|by intros (? & ? & ?%not_elem_of_nil & _)]. }
  destruct (isZero v) as [z| |] eqn:Hz; try done. cbn. destruct (foldr _ _ fields) as [vs| |]; try done. cbn.
  intros [= <-]. specialize (IH vs eq_refl). destruct z.
  - rewrite IH. split; intros (g & w & Hin & Hw & ->); exists g, w; [by split_and!; [right| |]|].
    apply elem_of_cons in Hin as [[= -> ->]|Hin]; [congruence|done].
  - rewrite elem_of_cons, IH. split.
    + intros [->|(g & w & Hin & Hw & ->)]; [exists f, v|exists g, w]; split_and!; try done; [by left|by right].
    + intros (g & w & [[= -> ->]|Hin]%elem_of_cons & Hw & ->); [by left|right; by exists g, w].
Qed.

(** A struct without a value gives a drop-in without a line, which is there all the same. *)
Lemma empty_drop_in : Etcd_Units (zero Etcd_type) =
  Ok [{| Unit_Name := "etcd.service"; Mask := false; Enable := false; Runtime := true; Unit_Content := ""; Command := "";
         DropIns := [{| DropIn_Name := "20-cloudinit.conf"; DropIn_Content := "" |}] |}].
Proof. by vm_compute. Qed.

(** Where units go. *)
Lemma unit_destinations :
  Destination (plain_unit "foo.service" "" false true) "/" = "/run/systemd/system/foo.service" ∧
  Destination (plain_unit "eth0.network" "" false false) "/" = "/etc/systemd/network/eth0.network" ∧
  Destination (plain_unit "../../evil" "" false false) "/" = "/etc/evil".
Proof. by vm_compute. Qed.

(** A user is named last, and a home is either made or not. *)
Lemma CreateUser_args_last Quote u : last (CreateUser_args Quote u) = Some (User_Name u).
Proof. unfold CreateUser_args. rewrite !app_assoc. apply last_snoc. Qed.

(** Without a hash the password matches nothing. *)
Lemma no_password Quote u : PasswordHash u = "" → take 2 (CreateUser_args Quote u) = ["--password"; "*"].
Proof. intros H. unfold CreateUser_args. by rewrite H. Qed.

(** A password is set only when each of the steps went well, in this order. *)
Lemma SetUserPassword_steps user hash :
  wp (SetUserPassword user hash) (λ t r, ∃ e, r = Ok e ∧
    t `prefix_of` [StdinPipe ["/usr/sbin/chpasswd"; "-e"]; Start ["/usr/sbin/chpasswd"; "-e"];
                   WriteStdin (user +:+ ":" +:+ hash); CloseStdin; Wait] ∧ (e = None → length t = 5%nat)).
Proof.
  cbn. intros [e|]; cbn; [exists (Some e); split_and!; [done|by eexists|done]|].
  intros [e|]; cbn; [exists (Some e); split_and!; [done|by eexists|done]|].
  intros [e|]; cbn; [exists (Some e); split_and!; [done|by eexists|done]|].
  intros _ e. exists e. split_and!; [done|by eexists|done].
Qed.

(** After a decoding without an error no file has an encoding, and nothing but the content has changed; the files before
    an error are decoded. *)
Lemma Decode_ok DecompressGzip files out :
  Decode DecompressGzip files = (out, None) →
  Forall2 (λ f g, DecodeContent DecompressGzip (f_Content f) (f_Encoding f) = Ok (f_Content g) ∧ f_Encoding g = "" ∧
                  f_Path g = f_Path f ∧ f_Owner g = f_Owner f ∧ f_RawFilePermissions g = f_RawFilePermissions f) files out.
Proof.
  revert out. induction files as [|f files IH]; intros out; cbn; [by intros [= <-]; constructor|].
  destruct (DecodeContent _ _ _) as [content|e|e] eqn:E; [|done|done].
  destruct (Decode DecompressGzip files) as [fs err]. intros [= <- ->]. constructor; [by rewrite E|by apply IH].
Qed.

(** *** The file of updates *)

(** The names of the variables start differently: no line can be taken for two of them. *)
Definition apart_names (subs : gmap string string) : Prop :=
  ∀ e1 e2 line, is_Some (subs !! e1) → is_Some (subs !! e2) → HasPrefix line e1 = true → HasPrefix line e2 = true → e1 = e2.

Lemma update_sub_keys env val subs e :
  is_Some (update_sub env val subs !! e) → e = env ∨ is_Some (subs !! e).
Proof.
  unfold update_sub. destruct (String.eqb val ""); [by right|].
  destruct (decide (e = env)) as [->|Hne]; [by left|]. rewrite lookup_insert_ne by done. by right.
Qed.

Lemma update_subs_steps u :
  update_subs u = update_sub "SERVER" (Server u) (update_sub "GROUP" (Update_Group u)
    (update_sub "REBOOT_STRATEGY" (RebootStrategy u) ∅)).
Proof. done. Qed.

Lemma update_subs_keys u e : is_Some (update_subs u !! e) → e = "SERVER" ∨ e = "GROUP" ∨ e = "REBOOT_STRATEGY".
Proof.
  rewrite update_subs_steps. intros [->|[->|[->|H]%update_sub_keys]%update_sub_keys]%update_sub_keys; [by left|by right; left|by right; right|].
  rewrite lookup_empty in H. by destruct H.
Qed.

Lemma HasPrefix_first line c d p q : HasPrefix line (String c p) = true → HasPrefix line (String d q) = true → c = d.
Proof. intros (t1 & H1)%HasPrefix_spec (t2 & H2)%HasPrefix_spec. rewrite H1 in H2. by injection H2. Qed.

Lemma update_subs_apart u : apart_names (update_subs u).
Proof.
  intros e1 e2 line H1%update_subs_keys H2%update_subs_keys P1 P2.
  destruct H1 as [->|[->| ->]], H2 as [->|[->| ->]]; try reflexivity; by discriminate (HasPrefix_first _ _ _ _ _ P1 P2).
Qed.

(** A line of a substitution starts with its name; deleting keeps both. *)
Definition own_names (subs : gmap string string) : Prop := ∀ e v, subs !! e = Some v → HasPrefix v e = true.

Lemma update_subs_own u : own_names (update_subs u).
Proof.
  assert (∀ env val subs, own_names subs → own_names (update_sub env val subs)) as Hsub.
  { intros env val subs H e v. unfold update_sub. destruct (String.eqb val ""); [apply H|].
    intros [[<- <-]|[_ Hv]]%lookup_insert_Some; [apply HasPrefix_app|by apply H]. }
  rewrite update_subs_steps. by apply Hsub, Hsub, Hsub.
Qed.

Lemma apart_names_delete env subs : apart_names subs → apart_names (delete env subs).
Proof.
  intros H e1 e2 line [v1 H1] [v2 H2]. apply lookup_delete_Some in H1 as [_ H1], H2 as [_ H2].
  by apply H; eexists.
Qed.

Lemma own_names_delete env subs : own_names subs → own_names (delete env subs).
Proof. intros H e v [_ Hv]%lookup_delete_Some. by apply H. Qed.

Section Update_lemmas.
Context (range : gmap string string → list (string * string)).
Hypothesis range_perm : ∀ m, range m ≡ₚ map_to_list m.

Lemma range_lookup subs e v : (e, v) ∈ range subs ↔ subs !! e = Some v.
Proof. by rewrite range_perm, elem_of_map_to_list. Qed.

(** What becomes of a line: it is replaced by that of the variable it starts with. *)
Lemma substitute_hit subs line env v :
  apart_names subs → subs !! env = Some v → HasPrefix line env = true → substitute range subs line = (v, delete env subs).
Proof.
  intros Hapart Hv Hp. unfold substitute. destruct (list_find _ _) as [[i [e w]]|] eqn:Hf.
  - apply list_find_Some in Hf as (Hi & Hpe & _). apply list_elem_of_lookup_2, range_lookup in Hi. cbn in Hpe.
    assert (e = env) as -> by (by apply (Hapart e env line); [eexists..| |]). congruence.
  - apply list_find_None in Hf. rewrite Forall_forall in Hf. by destruct (Hf (env, v) ltac:(by apply range_lookup)).
Qed.

Lemma substitute_miss subs line :
  (∀ env, is_Some (subs !! env) → HasPrefix line env = false) → substitute range subs line = (line, subs).
Proof.
  intros H. unfold substitute. destruct (list_find _ _) as [[i [e w]]|] eqn:Hf; [|done].
  apply list_find_Some in Hf as (Hi & Hpe & _). apply list_elem_of_lookup_2, range_lookup in Hi. cbn in Hpe.
  by rewrite (H e) in Hpe by by eexists.
Qed.

(** One of the two is the case. *)
Lemma substitute_cases subs line :
  apart_names subs →
  (∃ env v, subs !! env = Some v ∧ HasPrefix line env = true ∧ substitute range subs line = (v, delete env subs)) ∨
  ((∀ env, is_Some (subs !! env) → HasPrefix line env = false) ∧ substitute range subs line = (line, subs)).
Proof.
  intros Hapart. destruct (decide (Exists (λ ev, HasPrefix line ev.1 = true) (map_to_list subs))) as [He|Hn].
  - apply Exists_exists in He as ([env v] & Hin%elem_of_map_to_list & Hp). left. exists env, v.
    by split_and!; [..|apply substitute_hit].
  - right. rewrite <- Forall_Exists_neg, Forall_forall in Hn.
    assert (∀ env, is_Some (subs !! env) → HasPrefix line env = false) as H.
    { intros env [v Hv]. apply not_true_iff_false. by apply (Hn (env, v)), elem_of_map_to_list. }
    split; [done|by apply substitute_miss].
Qed.

(** What is left of the substitutions is part of them, and each of the others is a line. *)
Lemma substitute_lines_spec lines subs :
  apart_names subs →
  let '(out, rest) := substitute_lines range subs lines in
  length out = length lines ∧ rest ⊆ subs ∧ ∀ e v, subs !! e = Some v → rest !! e = Some v ∨ v ∈ out.
Proof.
  revert subs. induction lines as [|line lines IH]; intros subs Hapart; cbn; [by split_and!; [| |left]|].
  destruct (substitute_cases subs line Hapart) as [(env & v & Hv & _ & ->)|[_ ->]].
  - specialize (IH (delete env subs) (apart_names_delete _ _ Hapart)).
    destruct (substitute_lines range (delete env subs) lines) as [out rest]. destruct IH as (Hlen & Hsub & Hin).
    split_and!; [by cbn; f_equal|by etrans; [|apply delete_subseteq]|].
    intros e w He. destruct (decide (e = env)) as [->|Hne]; [simplify_eq; right; by left|].
    destruct (Hin e w) as [?|?]; [by rewrite lookup_delete_ne|by left|right; by right].
  - specialize (IH subs Hapart). destruct (substitute_lines range subs lines) as [out rest].
    destruct IH as (Hlen & Hsub & Hin). split_and!; [by cbn; f_equal|done|].
    intros e w [?|?]%Hin; [by left|right; by right].
Qed.

Lemma elem_of_sortedKeys (m : gmap string string) e : e ∈ sortedKeys m ↔ is_Some (m !! e).
Proof.
  unfold sortedKeys. rewrite sort_strings_perm, list_elem_of_fmap. split.
  - intros ([k v] & -> & H%elem_of_map_to_list). by exists v.
  - intros [v H%elem_of_map_to_list]. by exists (e, v).
Qed.

(** Lines that are those of the substitutions, one for each, use them up. *)
Lemma substitute_lines_own ks subs :
  apart_names subs → own_names subs → NoDup ks → (∀ e, e ∈ ks ↔ is_Some (subs !! e)) →
  substitute_lines range subs (omap (λ key, subs !! key) ks) = (omap (λ key, subs !! key) ks, ∅).
Proof.
  revert subs. induction ks as [|k ks IH]; intros subs Hapart Hown Hnd Hks; cbn.
  { f_equal. apply map_eq. intros e. rewrite lookup_empty. apply eq_None_not_Some. rewrite <- Hks. by intros ?%not_elem_of_nil. }
  apply NoDup_cons in Hnd as [Hk Hnd]. destruct (proj1 (Hks k) (list_elem_of_here _ _)) as [v Hv]. rewrite Hv. cbn.
  rewrite (substitute_hit subs v k v) by auto.
  assert (omap (λ key, subs !! key) ks = omap (λ key, delete k subs !! key) ks) as Hks'.
  { clear IH Hks. induction ks as [|j ks IH]; [done|]. apply not_elem_of_cons in Hk as [Hj Hk]. apply NoDup_cons in Hnd as [_ Hnd].
    cbn. rewrite lookup_delete_ne by done. by rewrite (IH Hk Hnd). }
  rewrite Hks', IH; [done|by apply apart_names_delete|by apply own_names_delete|done|].
  intros e. rewrite lookup_delete_is_Some, <- Hks, elem_of_cons. split; [intros ?; split; [by intros ->|by right]|by intros [? [->|?]]].
Qed.

(** The lines that come out are kept by a second pass, which ends with nothing left. *)
Lemma substitute_lines_twice lines subs out rest :
  apart_names subs → own_names subs → substitute_lines range subs lines = (out, rest) →
  substitute_lines range subs (out ++ omap (λ key, rest !! key) (sortedKeys rest)) =
    ((out ++ omap (λ key, rest !! key) (sortedKeys rest))%list, ∅).
Proof.
  revert subs out. induction lines as [|line lines IH]; intros subs out Hapart Hown; cbn.
  { intros [= <- <-]. cbn. apply substitute_lines_own; [done..| |intros; apply elem_of_sortedKeys].
    unfold sortedKeys. rewrite sort_strings_perm. apply NoDup_fst_map_to_list. }
  destruct (substitute_cases subs line Hapart) as [(env & v & Hv & _ & ->)|[Hno ->]].
  - destruct (substitute_lines range (delete env subs) lines) as [out' rest'] eqn:E. intros [= <- <-]. cbn.
    rewrite (substitute_hit subs v env v) by auto.
    by rewrite (IH (delete env subs) out') by auto using apart_names_delete, own_names_delete.
  - destruct (substitute_lines range subs lines) as [out' rest'] eqn:E. intros [= <- <-]. cbn.
    rewrite substitute_miss by done. by rewrite (IH subs out').
Qed.

(** Every variable that is configured has its line in the file, whatever the file of the system says. *)
Lemma update_lines_configured u conf e v : update_subs u !! e = Some v → v ∈ update_lines range u conf.
Proof.
  intros Hv. unfold update_lines. pose proof (substitute_lines_spec (scan_lines conf).1 _ (update_subs_apart u)) as H.
  destruct (substitute_lines range (update_subs u) (scan_lines conf).1) as [out rest]. destruct H as (_ & _ & H).
  apply elem_of_app. destruct (H e v Hv) as [Hr|?]; [right|by left].
  apply list_elem_of_omap. exists e. split; [by apply elem_of_sortedKeys|done].
Qed.

(** Written once more, the lines of the file stay. *)
Lemma update_lines_again u conf :
  let lines := update_lines range u conf in substitute_lines range (update_subs u) lines = (lines, ∅).
Proof.
  unfold update_lines. destruct (substitute_lines range (update_subs u) (scan_lines conf).1) as [out rest] eqn:E.
  exact (substitute_lines_twice _ _ _ _ (update_subs_apart u) (update_subs_own u) E).
Qed.
End Update_lemmas.

(** The order in which the map is visited does not show. *)
Lemma substitute_lines_range range1 range2 lines subs :
  (∀ m, range1 m ≡ₚ map_to_list m) → (∀ m, range2 m ≡ₚ map_to_list m) → apart_names subs →
  substitute_lines range1 subs lines = substitute_lines range2 subs lines.
Proof.
  intros H1 H2. revert subs. induction lines as [|line lines IH]; intros subs Hapart; cbn; [done|].
  destruct (substitute_cases range1 H1 subs line Hapart) as [(env & v & Hv & Hp & ->)|[Hno ->]].
  - rewrite (substitute_hit range2 H2 subs line env v) by done. by rewrite IH by by apply apart_names_delete.
  - rewrite (substitute_miss range2 H2) by done. by rewrite IH.
Qed.

Lemma Update_File_range range1 range2 Quote u conf :
  (∀ m, range1 m ≡ₚ map_to_list m) → (∀ m, range2 m ≡ₚ map_to_list m) →
  Update_File range1 Quote u conf = Update_File range2 Quote u conf.
Proof.
  intros H1 H2. unfold Update_File. destruct (isZero _) as [[]| |]; [done| |done..].
  cbn -[AssertStructValid]. destruct (AssertStructValid _) as [[]| |]; [done| |done..].
  cbn. destruct conf as [conf| |]; [|done..]. cbn. unfold update_lines.
  by rewrite (substitute_lines_range range1 range2) by auto using update_subs_apart.
Qed.

(** The name is all a line is compared with: that of another variable which starts with it is lost. *)
Lemma longer_names_are_replaced :
  update_lines map_to_list {| RebootStrategy := ""; Update_Group := "beta"; Server := "" |}
    ("GROUPS=a" +:+ nl +:+ "#GROUP=" +:+ nl +:+ "GROUP=alpha") = ["GROUP=beta"; "#GROUP="; "GROUP=alpha"].
Proof. by vm_compute. Qed.
