(* ===== verification/CloudInitValidate.v ===== *)
(** * Cloud-init: validation of user data ([config/cloudinit/config/validate])

    A config is read twice, without types and with those of a cloud-config; the nodes of the first take the values of the
    second where they are compatible, and the rules report on them by line. A panic of a rule ends the validation and
    keeps what was reported. YAML, the URI parser, the decompressor and Ignition's JSON are parameters. *)

From stdpp Require Import prelude strings list.
From S2P Require Import Prelude GoStrings CloudInitExecute CloudInitSave Regexp CloudConfig.

Local Open Scope string_scope.

(** ** Reports ([report.go]) *)

Inductive entryKind := entryError | entryWarning | entryInfo.
Definition kind_string (k : entryKind) : string :=
  match k with entryError => "error" | entryWarning => "warning" | entryInfo => "info" end.

Record Entry := { kind : entryKind; message : string; Entry_line : Z }.
Definition Entry_String (e : Entry) : string :=
  "line " +:+ Itoa (Entry_line e) +:+ ": " +:+ kind_string (kind e) +:+ ": " +:+ message e.

Definition Report : Type := list Entry.

(** A rule adds to the report, or panics. *)
Definition check : Type := Report → Report * result ().
Definition pass : check := λ r, (r, Ok ()).
Definition panic (msg : string) : check := λ r, (r, Panic msg).
Definition report (k : entryKind) (line : Z) (msg : string) : check :=
  λ r, ((r ++ [{| kind := k; message := msg; Entry_line := line |}])%list, Ok ()).
Definition then_ (c1 c2 : check) : check :=
  λ r, match c1 r with (r, Ok ()) => c2 r | (r, Err e) => (r, Err e) | (r, Panic e) => (r, Panic e) end.
Definition lift_check {A} (x : result A) (f : A → check) : check :=
  λ r, match x with Ok a => f a r | Err e => (r, Err e) | Panic e => (r, Panic e) end.
Definition each {A} (f : A → check) (l : list A) : check := foldr (λ a rest, then_ (f a) rest) pass l.

(** ** Lines ([context.go]) *)

Record Context := { currentLine : string; remainingLines : string; lineNumber : Z }.

Definition Increment (c : Context) : Context :=
  if String.eqb (currentLine c) "" && String.eqb (remainingLines c) "" then c
  else
    match SplitN (remainingLines c) "010" 2 with
    | [line; rest] => {| currentLine := line; remainingLines := rest; lineNumber := lineNumber c + 1 |}
    | l => {| currentLine := default "" (head l); remainingLines := ""; lineNumber := lineNumber c + 1 |}
    end.

Definition no_context : Context := {| currentLine := ""; remainingLines := ""; lineNumber := 0 |}.

Definition NewContext (content : string) : Context :=
  Increment {| currentLine := ""; remainingLines := Replace content (String "013" "") ""; lineNumber := 0 |}.

(** ** Nodes ([node.go]) *)

Inductive Kind := Invalid | KString | KInt | KFloat64 | KBool | KStruct | KSlice | KMap | KOther (k : string).

Definition kind_of (v : value) : Kind :=
  match v with
  | VString _ => KString | VInt _ => KInt | VBool _ => KBool | VFloat64 _ => KFloat64
  | VStruct _ _ => KStruct | VSlice _ _ => KSlice | VMap _ => KMap | VNil => Invalid | VOther k => KOther k
  end.

Definition Kind_String (k : Kind) : string :=
  match k with
  | Invalid => "invalid" | KString => "string" | KInt => "int" | KFloat64 => "float64" | KBool => "bool"
  | KStruct => "struct" | KSlice => "slice" | KMap => "map" | KOther k => k
  end.

#[global] Instance Kind_eq_dec : EqDecision Kind.
Proof. solve_decision. Defined.

Inductive Node := MkNode (name : string) (line : Z) (children : list Node) (field : StructField) (Value : value).
Definition name (n : Node) : string := match n with MkNode name _ _ _ _ => name end.
Definition line (n : Node) : Z := match n with MkNode _ line _ _ _ => line end.
Definition children (n : Node) : list Node := match n with MkNode _ _ children _ _ => children end.
Definition field (n : Node) : StructField := match n with MkNode _ _ _ field _ => field end.
Definition Value (n : Node) : value := match n with MkNode _ _ _ _ v => v end.

Definition no_node : Node := MkNode "" 0 [] no_field VNil.
Definition IsValid (n : Node) : bool := negb (bool_decide (kind_of (Value n) = Invalid)).

Definition Child (n : Node) (child : string) : Node :=
  default no_node (list_find (λ c, name c = child) (children n) ≫= λ ic, Some ic.2).

(** The type of a value; of a list that of its elements, one below the other. *)
Fixpoint human_type (t : ty) : string :=
  match t with
  | TString => "string" | TInt => "int" | TBool => "bool" | TFloat64 => "float64" | TInterface => "interface"
  | TStruct _ _ => "struct"
  | TSlice elem => "[]" +:+ human_type elem
  end.
Definition HumanType (n : Node) : string :=
  match Value n with VSlice elem _ => "[]" +:+ human_type elem | v => Kind_String (kind_of v) end.

(** [yamlKey] gives its group, [yamlElem] nothing. *)
Fixpoint skip_spaces (s : string) : string :=
  match s with String c t => if bool_decide (c = " "%char) then skip_spaces t else s | "" => "" end.
Definition yamlKey (s : string) : option string :=
  match SplitN (TrimPrefix (TrimPrefix (skip_spaces s) "-") " ") ":" 2 with [key; _] => Some key | _ => None end.
Definition yamlElem (s : string) : option string := if HasPrefix (skip_spaces s) "-" then Some "" else None.

Definition at_end (c : Context) : bool := String.eqb (currentLine c) "" && String.eqb (remainingLines c) "".

(** The first line from the current one that matches; its number of steps is bounded by what is left. *)
Fixpoint find_ (fuel : nat) (exp : string → option string) (key : string) (context : Context) : Context * bool :=
  match fuel with
  | 0 => (context, false)
  | S fuel =>
      if at_end context then (context, false)
      else match exp (currentLine context) with
           | Some m => if String.eqb key "" || String.eqb m key then (context, true) else find_ fuel exp key (Increment context)
           | None => find_ fuel exp key (Increment context)
           end
  end.
Definition context_size (c : Context) : nat := String.length (currentLine c) + 2 * String.length (remainingLines c).
Definition find (exp : string → option string) (key : string) (context : Context) : Context * bool :=
  find_ (S (context_size context)) exp key context.
Definition findKey (key : string) (context : Context) : Context * bool := find yamlKey key context.
Definition findElem (context : Context) : Context * bool := find yamlElem "" context.

(** The line of a node: that of its key or element when it is found. *)
Definition found_line (f : Context * bool) : Z := if f.2 then lineNumber f.1 else 0.

(** The children of a struct or a map are looked for from where it starts, the elements of a list one after the other. *)
Fixpoint toNode (v : value) (c : Context) (name : string) (line : Z) (field : StructField) {struct v} : result Node :=
  match v with
  | VNil => Ok (MkNode name line [] field VNil)
  | VStruct _ fields =>
      cs ← foldr (λ fv rest,
        let k := yaml fv.1 in
        if String.eqb k "-" || String.eqb k "" then rest
        else
          let f := findKey k c in
          cn ← toNode fv.2 f.1 k (found_line f) fv.1;
          cs ← rest;
          Ok (cn :: cs)) (Ok []) fields;
      Ok (MkNode name line cs field v)
  | VMap entries =>
      cs ← foldr (λ kv rest,
        let f := findKey kv.1 c in
        cn ← toNode kv.2 f.1 kv.1 (found_line f) no_field;
        cs ← rest;
        Ok (cn :: cs)) (Ok []) entries;
      Ok (MkNode name line cs field v)
  | VSlice _ items =>
      cs ← (fix elements (items : list value) (i : Z) (c : Context) : result (list Node) :=
        match items with
        | [] => Ok []
        | item :: items =>
            let f := findElem c in
            cn ← toNode item f.1 (name +:+ "[" +:+ Itoa i +:+ "]") (found_line f) field;
            cs ← elements items (i + 1)%Z (Increment f.1);
            Ok (cn :: cs)
        end) items 0%Z c;
      Ok (MkNode name line cs field v)
  | VString _ | VInt _ | VBool _ | VFloat64 _ => Ok (MkNode name line [] field v)
  | VOther k => Panic ("toNode(): unhandled kind " +:+ k)
  end.

Definition NewNode (v : value) (context : Context) : result Node := toNode v context "" 0 no_field.

(** ** Rules ([rules.go]) *)

Definition isCompatible (n g : Kind) : result bool :=
  match g with
  | KString => Ok (bool_decide (n ∈ [KString; KInt; KFloat64; KBool]))
  | KStruct => Ok (bool_decide (n ∈ [KStruct; KMap]))
  | KFloat64 => Ok (bool_decide (n ∈ [KFloat64; KInt]))
  | KBool | KSlice | KInt => Ok (bool_decide (n = g))
  | _ => Panic ("isCompatible(): unhandled kind " +:+ Kind_String g)
  end.

(** [reflect.Value.String]. *)
Definition Value_String (v : value) : string :=
  match v with
  | VString s => s
  | VInt _ => "<int Value>"
  | VBool _ => "<bool Value>"
  | VFloat64 _ => "<float64 Value>"
  | VStruct name _ => "<" +:+ name +:+ " Value>"
  | VSlice elem _ => "<[]" +:+ type_name elem +:+ " Value>"
  | VMap _ => "<map[interface {}]interface {} Value>"
  | VNil => "<invalid Value>"
  | VOther k => "<" +:+ k +:+ " Value>"
  end.

Section Rules.
Context (Quote : string → string) (ParseRequestURI : string → bool) (DecompressGzip : string → result string).

Definition checkDiscoveryURL (cfg : Node) : check :=
  let c := Child (Child (Child cfg "coreos") "etcd") "discovery" in
  if negb (IsValid c) then pass
  else if ParseRequestURI (Value_String (Value c)) then pass
  else report entryWarning (line c) "discovery URL is not valid".

Definition checkEncoding (cfg : Node) : check :=
  each (λ f,
    let e := Child f "encoding" in
    if negb (IsValid e) then pass
    else
      let c := Child f "content" in
      if is_ok (DecodeContent DecompressGzip (Value_String (Value c)) (Value_String (Value e))) then pass
      else report entryError (line c) ("content cannot be decoded as " +:+ Quote (Value_String (Value e))))
    (children (Child cfg "write_files")).

(** The node of an element of a list. *)
Definition elem_node (g : Node) : result Node :=
  match Value g with VSlice elem _ => toNode (zero elem) no_context "" 0 no_field | _ => Panic "reflect: Elem of invalid type" end.

Fixpoint checkNodeStructure (n g : Node) {struct n} : check :=
  match n with
  | MkNode name line children _ v =>
      lift_check (isCompatible (kind_of v) (kind_of (Value g))) (λ ok,
        if negb ok then report entryWarning line ("incorrect type for " +:+ Quote name +:+ " (want " +:+ HumanType g +:+ ")")
        else
          match kind_of (Value g) with
          | KStruct =>
              foldr (λ cn rest, then_
                (match cn with
                 | MkNode cname cline _ _ _ =>
                     let cg := Child g cname in
                     if IsValid cg then
                       then_ (if String.eqb (deprecated (field cg)) "" then pass
                              else report entryWarning cline ("deprecated key " +:+ Quote cname +:+ " (" +:+ deprecated (field cg) +:+ ")"))
                             (checkNodeStructure cn cg)
                     else report entryWarning cline ("unrecognized key " +:+ Quote cname)
                 end) rest) pass children
          | KSlice => foldr (λ cn rest, then_ (lift_check (elem_node g) (λ cg, checkNodeStructure cn cg)) rest) pass children
          | KString | KInt | KFloat64 | KBool => pass
          | k => panic ("checkNodeStructure(): unhandled kind " +:+ Kind_String k)
          end)
  end.

(** The node of an empty cloud-config. *)
Definition CloudConfig_node : result Node := NewNode (zero CloudConfig_type) (NewContext "").

Definition checkStructure (cfg : Node) : check := lift_check CloudConfig_node (λ g, checkNodeStructure cfg g).

Fixpoint checkNodeValidity (n g : Node) {struct n} : check :=
  match n with
  | MkNode _ line children _ v =>
      lift_check (AssertValid v (valid (field g))) (λ err,
        then_ (match err : option ErrorValid with
               | Some _ => report entryError line ("invalid value " +:+ value_text v)
               | None => pass
               end)
          (match kind_of (Value g) with
           | KStruct =>
               foldr (λ cn rest, then_
                 (match cn with
                  | MkNode cname _ _ _ _ =>
                      let cg := Child g cname in if IsValid cg then checkNodeValidity cn cg else pass
                  end) rest) pass children
           | KSlice => foldr (λ cn rest, then_ (lift_check (elem_node g) (λ cg, checkNodeValidity cn cg)) rest) pass children
           | KString | KInt | KFloat64 | KBool => pass
           | k => panic ("checkNodeValidity(): unhandled kind " +:+ Kind_String k)
           end))
  end.

Definition checkValidity (cfg : Node) : check := lift_check CloudConfig_node (λ g, checkNodeValidity cfg g).

Definition checkWriteFiles (cfg : Node) : check :=
  each (λ f,
    let c := Child f "path" in
    if negb (IsValid c) then pass
    else if HasPrefix (Dir (Value_String (Value c))) "/usr"
         then report entryError (line c) "file cannot be written to a read-only filesystem" else pass)
    (children (Child cfg "write_files")).

Definition checkWriteFilesUnderCoreos (cfg : Node) : check :=
  let c := Child (Child cfg "coreos") "write_files" in
  if IsValid c then report entryInfo (line c) "write_files doesn't belong under coreos" else pass.

Definition Rules : list (Node → check) :=
  [checkDiscoveryURL; checkEncoding; checkStructure; checkValidity; checkWriteFiles; checkWriteFilesUnderCoreos].

(** ** Validation ([validate.go]) *)

(** A leaf takes the value that was read with a type. *)
Fixpoint coerceNodes (w s : Node) {struct w} : result Node :=
  match w with
  | MkNode name line cw field v =>
      v ← (if bool_decide (cw = []) && bool_decide (children s = []) && IsValid w && IsValid s then
             ok ← isCompatible (kind_of v) (kind_of (Value s));
             Ok (if ok : bool then Value s else v)
           else Ok v);
      cs ← foldr (λ c rest,
        match c with
        | MkNode cname _ _ _ _ => c ← coerceNodes c (Child s cname); cs ← rest; Ok (c :: cs)
        end) (Ok []) cw;
      Ok (MkNode name line cs field v)
  end.

Fixpoint normalizeNodeNames (n : Node) : Node :=
  match n with
  | MkNode name line children field v => MkNode (Replace name "-" "_") line (normalizeNodeNames <$> children) field v
  end.

(** The digits a text starts with. *)
Fixpoint span_digits (s : string) : string * string :=
  match s with
  | String c t => if is_digit c then let '(ds, rest) := span_digits t in (String c ds, rest) else ("", s)
  | "" => ("", "")
  end.

(** [yamlLineError] and [yamlError]; [.] is not a line's end. *)
Definition yamlLineError (err : string) : option (string * string) :=
  if HasPrefix err "YAML error: line " then
    let '(ds, rest) := span_digits (TrimPrefix err "YAML error: line ") in
    let msg := TrimPrefix rest ": " in
    if negb (String.eqb ds "") && HasPrefix rest ": " && negb (has_char "010" msg) then Some (ds, msg) else None
  else None.
Definition yamlError (err : string) : option string :=
  let msg := TrimPrefix err "YAML error: " in
  if HasPrefix err "YAML error: " && negb (has_char "010" msg) then Some msg else None.

(** [Unmarshal] without types, with the keys as they are, and with those of a cloud-config, with underscores. *)
Context (UnmarshalWeak UnmarshalStrong : string → result value).

Definition parseCloudConfig (cfg : string) : Report → Report * result Node := λ r,
  match UnmarshalWeak cfg with
  | Err e =>
      match yamlLineError e with
      | Some (ds, msg) =>
          let '(l, failed) := Atoi ds in
          if failed then (r, Err ("strconv.Atoi: parsing " +:+ Quote ds +:+ ": value out of range"))
          else ((r ++ [{| kind := entryError; message := msg; Entry_line := l |}])%list, Ok no_node)
      | None =>
          match yamlError e with
          | Some msg => ((r ++ [{| kind := entryError; message := msg; Entry_line := 1 |}])%list, Ok no_node)
          | None => (r, Err "couldn't parse yaml error")
          end
      end
  | Panic e => (r, Panic e)
  | Ok weak =>
      (r, w ← NewNode weak (NewContext cfg);
          strong ← UnmarshalStrong cfg;
          s ← NewNode strong (NewContext cfg);
          coerceNodes (normalizeNodeNames w) s)
  end.

(** A panic is the error. *)
Definition recovered {A} (x : result A) : result A := match x with Panic e => Err e | _ => x end.

Definition validateCloudConfig (config : string) (rules : list (Node → check)) : Report * result () :=
  let '(r, c) := parseCloudConfig config [] in
  match c with
  | Ok c => let '(r, res) := each (λ rule, rule c) rules r in (r, recovered res)
  | Err e | Panic e => (r, Err e)
  end.

Definition Validate (IsIgnitionConfig : string → bool) (userdata : string) : Report * result () :=
  if String.eqb userdata "" || IsScript userdata || IsIgnitionConfig userdata then ([], Ok ())
  else if IsCloudConfig userdata then validateCloudConfig userdata Rules
  else ([{| kind := entryError; message := "must be " +:+ String "034" "#cloud-config" +:+ String "034" " or begin with " +:+
                                          String "034" "#!" +:+ String "034" ""; Entry_line := 1 |}], Ok ()).
End Rules.

(** ** Lemmas *)

(** *** Lines *)

Lemma at_end_false c : at_end c = false → currentLine c ≠ "" ∨ remainingLines c ≠ "".
Proof. unfold at_end. intros [H|H]%andb_false_iff; apply String.eqb_neq in H; auto. Qed.

Lemma Increment_size c : at_end c = false → context_size (Increment c) < context_size c.
Proof.
  intros He. pose proof (at_end_false _ He) as Hne. unfold Increment, context_size. unfold at_end in He. rewrite He.
  destruct (cut_char "010" (remainingLines c)) as [[a b]|] eqn:Hc; cbn [SplitN]; rewrite Hc.
  - apply cut_char_Some in Hc as [-> _]. cbn [currentLine remainingLines]. rewrite length_app_s. cbn. lia.
  - cbn. destruct Hne as [Hne|Hne].
    + destruct (currentLine c); cbn; [done|lia].
    + destruct (remainingLines c); cbn; [done|lia].
Qed.

Lemma find_fuel fuel fuel' exp key c :
  context_size c < fuel → context_size c < fuel' → find_ fuel exp key c = find_ fuel' exp key c.
Proof.
  revert fuel' c. induction fuel as [|fuel IH]; intros fuel' c H H'; [lia|]. destruct fuel' as [|fuel']; [lia|]. cbn.
  destruct (at_end c) eqn:He; [done|]. pose proof (Increment_size _ He).
  rewrite (IH fuel' (Increment c)) by lia. done.
Qed.

(** The loop ends, and is the loop of the source. *)
Lemma find_loop exp key c :
  find exp key c =
  if at_end c then (c, false)
  else match exp (currentLine c) with
       | Some m => if String.eqb key "" || String.eqb m key then (c, true) else find exp key (Increment c)
       | None => find exp key (Increment c)
       end.
Proof.
  unfold find at 1. cbn [find_]. destruct (at_end c) eqn:He; [done|]. pose proof (Increment_size _ He).
  rewrite (find_fuel (context_size c) (S (context_size (Increment c)))) by lia. done.
Qed.

Lemma Increment_line c : (lineNumber c ≤ lineNumber (Increment c) ≤ lineNumber c + 1)%Z.
Proof. unfold Increment. repeat case_match; cbn; lia. Qed.

(** What is found is at the line it was looked for from, or below; a line that is found matches. *)
Lemma find_spec exp key c :
  let '(c', ok) := find exp key c in
  (lineNumber c ≤ lineNumber c')%Z ∧
  if ok : bool then ∃ m, exp (currentLine c') = Some m ∧ (key = "" ∨ m = key) else at_end c' = true.
Proof.
  remember (context_size c) as n eqn:Hn. revert c Hn.
  induction n as [n IH] using lt_wf_ind; intros c ->. rewrite find_loop.
  destruct (at_end c) eqn:He; [split; [lia|done]|].
  assert (let '(c', ok) := find exp key (Increment c) in
          (lineNumber c ≤ lineNumber c')%Z ∧
          if ok : bool then ∃ m, exp (currentLine c') = Some m ∧ (key = "" ∨ m = key) else at_end c' = true) as Hrec.
  { pose proof (IH _ (Increment_size _ He) (Increment c) eq_refl) as H. pose proof (Increment_line c).
    destruct (find exp key (Increment c)) as [c' ok]. destruct H as [H1 H2]. split; [lia|done]. }
  destruct (exp (currentLine c)) as [m|] eqn:Hm; [|done].
  destruct (String.eqb key "" || String.eqb m key) eqn:Hk; [|done]. split; [lia|]. exists m. split; [done|].
  apply orb_true_iff in Hk as [Hk|Hk]; apply String.eqb_eq in Hk; auto.
Qed.

(** *** Nodes *)

Section Node_induction.
Context (P : Node → Prop).
Hypothesis HNode : ∀ name line children field v, Forall P children → P (MkNode name line children field v).

Fixpoint Node_nested_ind (n : Node) : P n :=
  match n with
  | MkNode name line children field v =>
      HNode name line children field v
        ((fix children_ind (l : list Node) : Forall P l :=
            match l with
            | [] => Forall_nil_2 _
            | c :: l => Forall_cons_2 _ c l (Node_nested_ind c) (children_ind l)
            end) children)
  end.
End Node_induction.

Section value_induction.
Context (P : value → Prop).
Hypothesis HString : ∀ s, P (VString s).
Hypothesis HInt : ∀ z, P (VInt z).
Hypothesis HBool : ∀ b, P (VBool b).
Hypothesis HFloat64 : ∀ t, P (VFloat64 t).
Hypothesis HStruct : ∀ name fields, Forall (λ fv, P fv.2) fields → P (VStruct name fields).
Hypothesis HSlice : ∀ elem items, Forall P items → P (VSlice elem items).
Hypothesis HMap : ∀ entries, Forall (λ kv, P kv.2) entries → P (VMap entries).
Hypothesis HNil : P VNil.
Hypothesis HOther : ∀ k, P (VOther k).

Fixpoint value_nested_ind (v : value) : P v :=
  match v with
  | VString s => HString s | VInt z => HInt z | VBool b => HBool b | VFloat64 t => HFloat64 t
  | VStruct name fields =>
      HStruct name fields
        ((fix go (l : list (StructField * value)) : Forall (λ fv, P fv.2) l :=
            match l with [] => Forall_nil_2 _ | fv :: l => Forall_cons_2 _ fv l (value_nested_ind fv.2) (go l) end) fields)
  | VSlice elem items =>
      HSlice elem items
        ((fix go (l : list value) : Forall P l :=
            match l with [] => Forall_nil_2 _ | v :: l => Forall_cons_2 _ v l (value_nested_ind v) (go l) end) items)
  | VMap entries =>
      HMap entries
        ((fix go (l : list (string * value)) : Forall (λ kv, P kv.2) l :=
            match l with [] => Forall_nil_2 _ | kv :: l => Forall_cons_2 _ kv l (value_nested_ind kv.2) (go l) end) entries)
  | VNil => HNil
  | VOther k => HOther k
  end.
End value_induction.

(** *** Reports only grow *)

(** What a check adds and how it ends do not depend on what is reported. *)
Definition appends (c : check) : Prop := ∃ ext res, ∀ r, c r = ((r ++ ext)%list, res).

Lemma appends_pass : appends pass.
Proof. exists [], (Ok ()). intros r. by rewrite app_nil_r. Qed.
Lemma appends_panic msg : appends (panic msg).
Proof. exists [], (Panic msg). intros r. by rewrite app_nil_r. Qed.
Lemma appends_report k l msg : appends (report k l msg).
Proof. by eexists _, (Ok ()). Qed.
Lemma appends_then c1 c2 : appends c1 → appends c2 → appends (then_ c1 c2).
Proof.
  intros (e1 & r1 & H1) (e2 & r2 & H2). unfold then_. destruct r1 as [[]|e|e].
  - exists (e1 ++ e2)%list, r2. intros r. by rewrite H1, H2, app_assoc.
  - exists e1, (Err e). intros r. by rewrite H1.
  - exists e1, (Panic e). intros r. by rewrite H1.
Qed.
Lemma appends_lift {A} (x : result A) f : (∀ a, x = Ok a → appends (f a)) → appends (lift_check x f).
Proof.
  unfold lift_check. destruct x as [a|e|e]; intros H; [by apply H|exists [], (Err e)|exists [], (Panic e)];
    intros r; by rewrite app_nil_r.
Qed.
Lemma appends_foldr {A} (f : A → check) l :
  Forall (λ a, appends (f a)) l → appends (foldr (λ a rest, then_ (f a) rest) pass l).
Proof. induction 1; cbn; [apply appends_pass|by apply appends_then]. Qed.

Create HintDb appends discriminated.
#[export] Hint Constants Opaque : appends.
#[export] Hint Resolve appends_pass appends_panic appends_report appends_then : appends.

Lemma appends_each {A} (f : A → check) l : (∀ a, appends (f a)) → appends (each f l).
Proof. intros H. apply appends_foldr, Forall_forall. auto. Qed.

Section Rules_lemmas.
Context (Quote : string → string) (ParseRequestURI : string → bool) (DecompressGzip : string → result string).

Lemma appends_structure n g : appends (checkNodeStructure Quote n g).
Proof.
  revert g. induction n as [name line children field v IH] using Node_nested_ind; intros g. cbn [checkNodeStructure].
  apply appends_lift. intros ok _. destruct ok; cbn [negb]; [|auto with appends].
  assert (∀ f : Node → check, (∀ cn, cn ∈ children → appends (f cn)) → appends (foldr (λ cn rest, then_ (f cn) rest) pass children)) as Hall.
  { intros f H. apply appends_foldr, Forall_forall. exact H. }
  rewrite Forall_forall in IH.
  destruct (kind_of (Value g)); try (by auto with appends).
  - apply (Hall (λ cn, match cn with MkNode cname cline _ _ _ => _ end)). intros [cname cline cc cf cv] Hc.
    destruct (IsValid _); [|auto with appends]. apply appends_then; [destruct (String.eqb _ _); auto with appends|by apply IH].
  - apply (Hall (λ cn, lift_check _ _)). intros cn Hc. apply appends_lift. intros cg _. by apply IH.
Qed.

Lemma appends_validity n g : appends (checkNodeValidity n g).
Proof.
  revert g. induction n as [name line children field v IH] using Node_nested_ind; intros g. cbn [checkNodeValidity].
  apply appends_lift. intros err _. apply appends_then; [destruct err; auto with appends|].
  assert (∀ f : Node → check, (∀ cn, cn ∈ children → appends (f cn)) → appends (foldr (λ cn rest, then_ (f cn) rest) pass children)) as Hall.
  { intros f H. apply appends_foldr, Forall_forall. exact H. }
  rewrite Forall_forall in IH.
  destruct (kind_of (Value g)); try (by auto with appends).
  - apply (Hall (λ cn, match cn with MkNode cname _ _ _ _ => _ end)). intros [cname cline cc cf cv] Hc.
    destruct (IsValid _); [by apply IH|auto with appends].
  - apply (Hall (λ cn, lift_check _ _)). intros cn Hc. apply appends_lift. intros cg _. by apply IH.
Qed.

(** Each rule only adds to the report. *)
Lemma rules_append cfg rule : rule ∈ Rules Quote ParseRequestURI DecompressGzip → appends (rule cfg).
Proof.
  unfold Rules. intros H.
  repeat (apply elem_of_cons in H as [->|H]); [..|by apply not_elem_of_nil in H].
  - unfold checkDiscoveryURL. cbv zeta. repeat case_match; auto with appends.
  - apply appends_each. intros f. cbv zeta. repeat case_match; auto with appends.
  - apply appends_lift. intros g _. apply appends_structure.
  - apply appends_lift. intros g _. apply appends_validity.
  - apply appends_each. intros f. cbv zeta. repeat case_match; auto with appends.
  - unfold checkWriteFilesUnderCoreos. cbv zeta. case_match; auto with appends.
Qed.
End Rules_lemmas.

(** *** Values of the types of a cloud-config *)

(** What the rules rely on: no interfaces, the keys of a struct are there and differ, a pattern is for a string. *)
Fixpoint good_type (t : ty) : bool :=
  match t with
  | TInterface => false
  | TStruct _ fields =>
      bool_decide (NoDup ((λ ft, yaml ft.1) <$> fields)) &&
      forallb (λ ft, negb (String.eqb (yaml ft.1) "-" || String.eqb (yaml ft.1) "") &&
                     match valid ft.1, ft.2 with None, _ | Some _, TString => true | Some _, _ => false end &&
                     good_type ft.2) fields
  | TSlice elem => good_type elem
  | _ => true
  end.

Lemma CloudConfig_good : good_type CloudConfig_type = true.
Proof. by vm_compute. Qed.

Lemma good_config t : good_type t = true → config_type t = true.
Proof.
  induction t as [| | | | |name fields IH|elem IH] using ty_nested_ind; cbn; try done.
  intros [_ H]%andb_true_iff. apply forallb_forall. intros ft Hft.
  rewrite forallb_forall in H. apply H in Hft as Hg. apply andb_true_iff in Hg as [_ Hg].
  rewrite Forall_forall in IH. apply IH; [by apply list_elem_of_In|done].
Qed.

Definition kind_ty (t : ty) : Kind :=
  match t with
  | TString => KString | TInt => KInt | TBool => KBool | TFloat64 => KFloat64 | TInterface => Invalid
  | TStruct _ _ => KStruct | TSlice _ => KSlice
  end.

Lemma has_type_kind v t : has_type v t → kind_of v = kind_ty t.
Proof. destruct v, t; cbn; try done. Qed.

(** The node of a value of a type. *)
Inductive shape : Node → ty → Prop :=
  | shape_leaf name line field v t : has_type v t → (∀ n fs, t ≠ TStruct n fs) → (∀ e, t ≠ TSlice e) → shape (MkNode name line [] field v) t
  | shape_struct name line field v n fields cs :
      has_type v (TStruct n fields) →
      Forall2 (λ c ft, CloudInitValidate.name c = yaml ft.1 ∧ CloudInitValidate.field c = ft.1 ∧ shape c ft.2) cs fields →
      shape (MkNode name line cs field v) (TStruct n fields)
  | shape_slice name line field v elem cs :
      has_type v (TSlice elem) → Forall (λ c, shape c elem) cs → shape (MkNode name line cs field v) (TSlice elem).

Lemma shape_typed n t : shape n t → has_type (Value n) t.
Proof. by destruct 1. Qed.

Lemma shape_valid n t : shape n t → good_type t = true → IsValid n = true.
Proof.
  intros H%shape_typed%has_type_kind Ht. unfold IsValid. rewrite H. by destruct t.
Qed.

(** Such a value has a node: nothing panics. *)
Lemma toNode_typed v c name line field t :
  has_type v t → good_type t = true →
  ∃ n, toNode v c name line field = Ok n ∧ shape n t ∧ CloudInitValidate.name n = name ∧ CloudInitValidate.field n = field.
Proof.
  revert c name line field t.
  induction v as [s|z|b|x|sname fields IH|elem items IH|entries IH| |k] using value_nested_ind; intros c name line field t Hv Ht.
  1-4: destruct t; cbn in Hv; try done; eexists; split_and!; try reflexivity; constructor; done.
  3-5: by destruct t.
  - destruct t as [| | | | |n types|]; try done. cbn [toNode].
    assert (Hv' := Hv). cbn in Hv'. destruct Hv' as [-> Hf]. cbn [good_type] in Ht. apply andb_true_iff in Ht as [_ Ht].
    set (F := foldr _ _ fields).
    assert (∃ cs, F = Ok cs ∧
      Forall2 (λ c ft, CloudInitValidate.name c = yaml ft.1 ∧ CloudInitValidate.field c = ft.1 ∧ shape c ft.2) cs types) as (cs & E & Hcs).
    { subst F. clear Hv. revert types Hf Ht. induction fields as [|[f v] fields IHf]; intros [|[f' t] types] Hf Ht; cbn in *; try done.
      { exists []. by split. }
      destruct Hf as (<- & Hvt & Hf). apply Forall_cons in IH as [IHv IH]. apply andb_true_iff in Ht as [Ht Hts].
      apply andb_true_iff in Ht as [Ht Hgt]. apply andb_true_iff in Ht as [Hk _]. apply negb_true_iff in Hk. rewrite Hk.
      destruct (IHv (findKey (yaml f) c).1 (yaml f) (found_line (findKey (yaml f) c)) f t Hvt Hgt) as (nd & E1 & Hn & Hname & Hfield).
      cbn in E1. rewrite E1. cbn.
      destruct (IHf IH types Hf Hts) as (cs & -> & Hcs). eexists (_ :: cs). split; [done|]. by constructor. }
    rewrite E. eexists. split_and!; try reflexivity. by constructor.
  - destruct t as [| | | | | |elem']; try done. assert (Hv' := Hv). cbn in Hv'. destruct Hv' as [<- Hi]. cbn [toNode].
    set (F := (fix elements (items : list value) (i : Z) (c : Context) : result (list Node) := _)).
    assert (∃ cs, F items 0%Z c = Ok cs ∧ Forall (λ c, shape c elem) cs) as (cs & E & Hcs).
    { clear Hv. cbn in Ht. generalize 0%Z. revert c. induction items as [|v items IHi]; intros c i; [by exists []|].
      destruct Hi as [Hv Hi]. apply Forall_cons in IH as [IHv IH]. cbn.
      destruct (IHv (findElem c).1 (name +:+ "[" +:+ Itoa i +:+ "]") (found_line (findElem c)) field elem Hv Ht) as (nd & E & Hn & _). cbn in E. rewrite E. cbn.
      destruct (IHi IH Hi (Increment (findElem c).1) (i + 1)%Z) as (cs & E2 & Hcs). cbn in E2. rewrite E2. eexists (_ :: cs). split; [done|]. by constructor. }
    rewrite E. eexists. split_and!; try reflexivity. by constructor.
Qed.

(** A child is found by its name. *)
Lemma Child_lookup cs fields i c ft g :
  NoDup ((λ ft : StructField * ty, yaml ft.1) <$> fields) →
  Forall2 (λ c ft, name c = yaml ft.1 ∧ CloudInitValidate.field c = ft.1 ∧ shape c ft.2) cs fields →
  children g = cs → cs !! i = Some c → fields !! i = Some ft → Child g (yaml ft.1) = c.
Proof.
  intros Hnd Hall Hcs Hi Hf. unfold Child. rewrite Hcs.
  assert (list_find (λ c, name c = yaml ft.1) cs = Some (i, c)) as ->; [|done].
  apply list_find_Some. destruct (Forall2_lookup_lr _ _ _ _ _ _ Hall Hi Hf) as (Hn & _ & _).
  split_and!; [done..|]. intros j c' Hj Hlt Hn'.
  destruct (Forall2_lookup_l _ _ _ _ _ Hall Hj) as (ft' & Hft' & Hn'' & _).
  assert (j = i) as ->; [|lia]. eapply NoDup_lookup; [done| |].
  - by rewrite list_lookup_fmap, Hft'.
  - rewrite list_lookup_fmap, Hf. cbn. congruence.
Qed.

(** A check that ends, and adds only entries of a kind. *)
Definition writes (P : Entry → Prop) (c : check) : Prop := ∃ ext, Forall P ext ∧ ∀ r, c r = ((r ++ ext)%list, Ok ()).

Lemma writes_pass P : writes P pass.
Proof. exists []. split; [done|]. intros r. by rewrite app_nil_r. Qed.
Lemma writes_report (P : Entry → Prop) k l msg : P {| kind := k; message := msg; Entry_line := l |} → writes P (report k l msg).
Proof. intros H. exists [{| kind := k; message := msg; Entry_line := l |}]. by repeat constructor. Qed.
Lemma writes_then P c1 c2 : writes P c1 → writes P c2 → writes P (then_ c1 c2).
Proof.
  intros (e1 & F1 & H1) (e2 & F2 & H2). exists (e1 ++ e2)%list. split; [by apply Forall_app|].
  intros r. unfold then_. by rewrite H1, H2, app_assoc.
Qed.
Lemma writes_foldr {A} P (f : A → check) l :
  (∀ i a, l !! i = Some a → writes P (f a)) → writes P (foldr (λ a rest, then_ (f a) rest) pass l).
Proof.
  induction l as [|a l IH]; intros H; cbn; [apply writes_pass|].
  apply writes_then; [by apply (H 0)|]. apply IH. intros i b Hb. by apply (H (S i)).
Qed.

(** Kinds of equal types are compatible. *)
Lemma compatible_same t : good_type t = true → isCompatible (kind_ty t) (kind_ty t) = Ok true.
Proof. by destruct t. Qed.

(** The node of an element of a list of a type. *)
Lemma elem_node_shape g elem :
  has_type (Value g) (TSlice elem) → good_type elem = true →
  ∃ cg, elem_node g = Ok cg ∧ shape cg elem ∧ CloudInitValidate.field cg = no_field.
Proof.
  intros H He. unfold elem_node. destruct (Value g); cbn in H; try done. destruct H as [-> _].
  destruct (toNode_typed (zero elem) no_context "" 0 no_field elem) as (cg & E & Hs & _ & Hf); [by apply zero_typed, good_config|done|].
  by exists cg.
Qed.

(** Types of the parts. *)
Lemma good_struct n fields :
  good_type (TStruct n fields) = true →
  NoDup ((λ ft, yaml ft.1) <$> fields) ∧
  ∀ i ft, fields !! i = Some ft → good_type ft.2 = true ∧ (valid ft.1 = None ∨ ft.2 = TString).
Proof.
  cbn. intros [Hnd%bool_decide_eq_true H]%andb_true_iff. split; [done|]. intros i ft Hi.
  rewrite forallb_forall in H. apply list_elem_of_lookup_2, list_elem_of_In in Hi. apply H in Hi as [Ht Hg]%andb_true_iff.
  apply andb_true_iff in Ht as [_ Ht]. split; [done|]. destruct (valid ft.1); [|by left]. destruct ft as [f []]; try done. by right.
Qed.

Definition deprecation (e : Entry) : Prop := kind e = entryWarning ∧ ∃ rest, message e = "deprecated key " +:+ rest.

Lemma structure_typed Quote n g t :
  shape n t → shape g t → good_type t = true → writes deprecation (checkNodeStructure Quote n g).
Proof.
  revert g t. induction n as [name line children field v IH] using Node_nested_ind; intros g t Hn Hg Ht.
  pose proof (has_type_kind _ _ (shape_typed _ _ Hn)) as Kn. pose proof (has_type_kind _ _ (shape_typed _ _ Hg)) as Kg.
  cbn in Kn. cbn [checkNodeStructure]. rewrite Kn, Kg, (compatible_same t Ht). cbn [lift_check negb].
  rewrite Forall_forall in IH.
  destruct t as [| | | | |sn fields|elem]; cbn [kind_ty]; try apply writes_pass; [done|..].
  - destruct (good_struct _ _ Ht) as [Hnd Hfs]. inversion Hn as [|? ? ? ? ? ? ? ? Hcs|]; subst; [naive_solver|].
    inversion Hg as [|? ? ? ? ? ? gs ? Hgs|]; subst; [naive_solver|].
    apply (writes_foldr _ (λ cn, match cn with MkNode cname cline _ _ _ => _ end)). intros i cn Hi.
    destruct (Forall2_lookup_l _ _ _ _ _ Hcs Hi) as (ft & Hft & Hname & _ & Hshape).
    destruct (Forall2_lookup_r _ _ _ _ _ Hgs Hft) as (cg & Hcg & _ & _ & Hgshape). destruct (Hfs _ _ Hft) as [Hgood _].
    destruct cn as [cname cline cc cf cv]. cbn in Hname. subst cname.
    rewrite (Child_lookup gs fields i cg ft) by done. rewrite (shape_valid cg _ Hgshape Hgood).
    apply writes_then; [|by apply (IH _ (list_elem_of_lookup_2 _ _ _ Hi) cg ft.2)].
    destruct (String.eqb _ _); [apply writes_pass|]. apply writes_report. split; [done|]. eexists. cbn. reflexivity.
  - destruct (elem_node_shape g elem (shape_typed _ _ Hg) Ht) as (cg & -> & Hcg & _). inversion Hn as [| |? ? ? ? ? ? ? Hcs]; subst; [naive_solver|].
    apply (writes_foldr _ (λ cn, lift_check _ _)). intros i cn Hi. cbn [lift_check].
    rewrite Forall_forall in Hcs. apply (IH _ (list_elem_of_lookup_2 _ _ _ Hi) cg elem); [|done..].
    by eapply Hcs, list_elem_of_lookup_2.
Qed.

Definition invalidity (e : Entry) : Prop := kind e = entryError ∧ ∃ rest, message e = "invalid value " +:+ rest.

Lemma validity_typed n g t :
  shape n t → shape g t → good_type t = true → valid (CloudInitValidate.field g) = None ∨ t = TString →
  writes invalidity (checkNodeValidity n g).
Proof.
  revert g t. induction n as [name line children field v IH] using Node_nested_ind; intros g t Hn Hg Ht Hvalid.
  pose proof (has_type_kind _ _ (shape_typed _ _ Hg)) as Kg. cbn [checkNodeValidity].
  assert (∃ err, AssertValid v (valid (CloudInitValidate.field g)) = Ok err) as [err ->].
  { destruct Hvalid as [->| ->]; [by eexists|]. pose proof (shape_typed _ _ Hn) as Hv. cbn in Hv. destruct v; try done.
    destruct (valid _); [|by eexists]. cbn. destruct (String.eqb s ""); [by eexists|]. destruct (matches _ _); by eexists. }
  cbn [lift_check]. apply writes_then.
  { destruct err; [|apply writes_pass]. apply writes_report. split; [done|]. by eexists. }
  rewrite Kg, Forall_forall in *. clear Hvalid.
  destruct t as [| | | | |sn fields|elem]; cbn [kind_ty]; try apply writes_pass; [done|..].
  - destruct (good_struct _ _ Ht) as [Hnd Hfs]. inversion Hn as [|? ? ? ? ? ? ? ? Hcs|]; subst; [naive_solver|].
    inversion Hg as [|? ? ? ? ? ? gs ? Hgs|]; subst; [naive_solver|].
    apply (writes_foldr _ (λ cn, match cn with MkNode cname _ _ _ _ => _ end)). intros i cn Hi.
    destruct (Forall2_lookup_l _ _ _ _ _ Hcs Hi) as (ft & Hft & Hname & _ & Hshape).
    destruct (Forall2_lookup_r _ _ _ _ _ Hgs Hft) as (cg & Hcg & _ & Hcf & Hgshape). destruct (Hfs _ _ Hft) as [Hgood Hv].
    destruct cn as [cname cline cc cf cv]. cbn in Hname. subst cname.
    rewrite (Child_lookup gs fields i cg ft) by done. rewrite (shape_valid cg _ Hgshape Hgood).
    apply (IH _ (list_elem_of_lookup_2 _ _ _ Hi) cg ft.2); [done..|]. by rewrite Hcf.
  - destruct (elem_node_shape g elem (shape_typed _ _ Hg) Ht) as (cg & -> & Hcg & Hcf). inversion Hn as [| |? ? ? ? ? ? ? Hcs]; subst; [naive_solver|].
    apply (writes_foldr _ (λ cn, lift_check _ _)). intros i cn Hi. cbn [lift_check].
    rewrite Forall_forall in Hcs. apply (IH _ (list_elem_of_lookup_2 _ _ _ Hi) cg elem); [|done..|].
    + by eapply Hcs, list_elem_of_lookup_2.
    + left. by rewrite Hcf.
Qed.

Lemma CloudConfig_node_shape : ∃ g, CloudConfig_node = Ok g ∧ shape g CloudConfig_type ∧ field g = no_field.
Proof.
  destruct (toNode_typed (zero CloudConfig_type) (NewContext "") "" 0 no_field CloudConfig_type) as (g & E & Hg & _ & Hf);
    [apply zero_typed, good_config|..]; try apply CloudConfig_good. by exists g.
Qed.
(** C7: A value of the type of a cloud-config has a node whatever the text, and its checks end: that of its structure
    reports nothing but deprecated keys - no key is unknown, no type incorrect - and that of its values nothing but
    strings their patterns do not allow. *)
Theorem typed_configs_validate Quote v text :
  has_type v CloudConfig_type →
  ∃ n, NewNode v (NewContext text) = Ok n ∧ writes deprecation (checkStructure Quote n) ∧ writes invalidity (checkValidity n).
Proof.
  intros Hv. destruct (toNode_typed v (NewContext text) "" 0 no_field CloudConfig_type Hv CloudConfig_good) as (n & E & Hn & _).
  destruct CloudConfig_node_shape as (g & Eg & Hg & Hfg). exists n. split; [done|].
  unfold checkStructure, checkValidity. rewrite Eg. split; cbn [lift_check].
  - by apply (structure_typed Quote n g CloudConfig_type).
  - apply (validity_typed n g CloudConfig_type); [done..|]. left. by rewrite Hfg.
Qed.

Lemma typed_configs_validate_witness :
  has_type (zero CloudConfig_type) CloudConfig_type ∧
  ∃ n, NewNode (zero CloudConfig_type) (NewContext "coreos:") = Ok n ∧
    writes deprecation (checkStructure (λ s, s) n) ∧ writes invalidity (checkValidity n).
Proof.
  assert (has_type (zero CloudConfig_type) CloudConfig_type) as H by (apply zero_typed; by vm_compute).
  split; [exact H|]. exact (typed_configs_validate (λ s, s) _ "coreos:" H).
Defined.

(** *** Behaviour at the edges *)

(** What is not a cloud-config is not reported on, or has one error. *)
Lemma Validate_other Quote P Z W S Ign userdata :
  IsCloudConfig userdata = false →
  ∃ r, Validate Quote P Z W S Ign userdata = (r, Ok ()) ∧ (length r ≤ 1)%nat.
Proof.
  intros H. unfold Validate. rewrite H. destruct (_ || _); eexists; (split; [reflexivity|cbn; lia]).
Qed.

(** A validation does not panic. *)
Lemma Validate_no_panic Quote P Z W S Ign userdata : is_panic (Validate Quote P Z W S Ign userdata).2 = false.
Proof.
  unfold Validate. destruct (_ || _); [done|]. destruct (IsCloudConfig userdata); [|done]. unfold validateCloudConfig.
  destruct (parseCloudConfig _ _ _ _ _) as [r [c|e|e]]; [|done..].
  destruct (each _ _ _) as [r' [u|e|e]]; done.
Qed.

Section Examples.
Definition quoted (s : string) : string := String "034" (s +:+ String "034" "").

Definition run_rules (weak strong : result value) (text : string) : Report * result () :=
  validateCloudConfig quoted (λ _, weak) (λ _, strong) text (Rules quoted (λ _, true) Ok).

Definition update_text : string :=
  "#cloud-config" +:+ String "010" "coreos:" +:+ String "010" "  update:" +:+ String "010" "    reboot_strategy: sometimes".

(** The config whose strategy is a value. *)
Definition weak_update (v : value) : value := VMap [("coreos", VMap [("update", VMap [("reboot_strategy", v)])])].

(** A value its pattern does not allow is reported at the line of its key. *)
Lemma invalid_strategy :
  run_rules (Ok (weak_update (VString "sometimes"))) (Ok (VStruct "config.CloudConfig"
    [(plain "CoreOS" "coreos" "", VStruct "config.CoreOS" [(plain "Update" "update" "", VStruct "config.Update"
      [(plain "RebootStrategy" "reboot_strategy" "REBOOT_STRATEGY", VString "sometimes")])])])) update_text =
    ([{| kind := entryError; message := "invalid value sometimes"; Entry_line := 4 |}], Ok ()).
Proof. by vm_compute. Qed.

(** A null where a string with a pattern belongs ends the validation with the error of reflection; what comes before it in
    the rules is kept, the rest is not looked at. So does a list or a map. *)
Lemma null_strategy :
  run_rules (Ok (weak_update VNil)) (Ok (zero CloudConfig_type)) update_text =
    ([{| kind := entryWarning; message := "incorrect type for " +:+ quoted "reboot_strategy" +:+ " (want string)"; Entry_line := 4 |}],
     Err "reflect: call of reflect.Value.Interface on zero Value") ∧
  run_rules (Ok (weak_update (VSlice TInterface []))) (Ok (zero CloudConfig_type)) update_text =
    ([{| kind := entryWarning; message := "incorrect type for " +:+ quoted "reboot_strategy" +:+ " (want string)"; Entry_line := 4 |}],
     Err "runtime error: comparing uncomparable type []interface {}").
Proof. by vm_compute. Qed.

(** An error of YAML is reported at its line, and the rules go on with a node that is nothing, of an incorrect type. *)
Lemma yaml_error_is_reported_twice :
  run_rules (Err "YAML error: line 3: could not find expected ':'") (Ok VNil) "" =
    ([{| kind := entryError; message := "could not find expected ':'"; Entry_line := 3 |};
      {| kind := entryWarning; message := "incorrect type for " +:+ quoted "" +:+ " (want struct)"; Entry_line := 0 |}], Ok ()).
Proof. by vm_compute. Qed.

(** A list of users in another order of keys: lines are looked for from where the element starts, so that a key of the
    next element is taken for a missing one's. *)
Lemma lines_of_elements :
  (λ n, (λ c, (line c, line <$> children c)) <$> children n) <$>
    NewNode (VSlice TInterface [VMap [("name", VString "a")]; VMap [("name", VString "b"); ("shell", VString "s")]])
      (NewContext ("- name: a" +:+ String "010" "- shell: s" +:+ String "010" "  name: b")) =
  Ok [(1, [1]); (2, [3; 2])]%Z.
Proof. by vm_compute. Qed.
End Examples.
