(* ===== verification/Stage.v ===== *)
(** * Staging images and the projects of the system ([pkg/compose/project.go])

    What is pulled before a console, an engine or a service is switched to, and how the projects are made. The daemons,
    the files and YAML are calls; the order of the services is that of [range]. *)

From stdpp Require Import prelude gmap strings list.
From S2P Require Import Prelude GoStrings Prog ProjectOps.
From S2P Require Docker ProjectDag ServiceConvert.

Local Open Scope string_scope.

Abbreviation ServiceConfig := ServiceConvert.Sc.ServiceConfig.
Abbreviation Image := ServiceConvert.Sc.Image.
Abbreviation Labels := ServiceConvert.Sc.Labels.

(** ** Making a project *)

(** What the settings of a project are besides its factories. *)
Record ParseOptions := { Interpolate : bool; Validate : bool; Preprocess : bool }.

Definition project_options : ParseOptions := {| Interpolate := true; Validate := false; Preprocess := true |}.

Section Projects.
Context {project : Type}.
(** [NewClientFactory], and [docker.NewProject] under a name. *)
Context (NewClientFactory : result ()) (NewProject : string → ParseOptions → result project).

Definition newProject (name : string) : result project :=
  _ ← NewClientFactory; NewProject name project_options.

Definition CreateService {service} (AddConfig : string → project → result project) (Create : string → project → result service)
    (name : string) : result service :=
  p ← newProject "once"; p ← AddConfig name p; Create name p.

(** [addServices] is that of [Compose]. *)
Definition CreateServiceSet (addServices : project → project) (name : string) : result project :=
  p ← newProject name; Ok (addServices p).

(** The project is given back with the error of [Up]. *)
Definition RunServiceSet (addServices : project → project) (Up : bool → project → result ()) (log : bool) (name : string) :
    result (project * result ()) :=
  p ← CreateServiceSet addServices name; Ok (p, Up log p).

(** The events of the project that have come before a reload decide whether it may use the network. *)
Definition network_started (e : Event) : bool :=
  bool_decide (Event_Type e = ContainerStarted) && String.eqb (ServiceName e) "network".
Definition useNetwork_after (useNetwork : bool) (events : list Event) : bool := useNetwork || existsb network_started events.

Definition newCoreServiceProject (projectReload : bool → project → result project) (useNetwork : bool) (events : list Event) :
    result project :=
  p ← newProject "os"; projectReload (useNetwork_after useNetwork events) p.
End Projects.

(** ** Staging *)

Section Configs.
Context {ServiceConfigV1 : Type}.
(** The file of the engines, and YAML on the services of such a file and on any. *)
Context (MultiDockerConf : option (result string)).
Context (unmarshal_v1 : string → result (gmap string ServiceConfigV1)) (marshal_v1 : gmap string ServiceConfigV1 → result string).
Context (LoadServiceResource : string → result string).
Context {tree project : Type} (Unmarshal : string → result tree) (Marshal : tree → result string).
Context (Load : string → project → result project).

Definition said {A} (what : string) (r : result A) : result A := match r with Err e => Err (what +:+ e) | _ => r end.

(** The engines that are there. *)
Definition engine_configs : result (gmap string ServiceConfigV1) :=
  match MultiDockerConf with
  | None => Ok ∅
  | Some file =>
      bytes ← said "Failed to read /var/lib/rancher/conf.d/m-user-docker.yml : " file;
      said "Failed to unmarshal /var/lib/rancher/conf.d/m-user-docker.yml : " (unmarshal_v1 bytes)
  end.

(** An engine of the file goes before a service of that name. *)
Definition load_staged (composeConfigs : gmap string ServiceConfigV1) (p : project) (service : string) : result project :=
  bytes ← said ("Failed to load " +:+ service +:+ " : ")
    (match composeConfigs !! service with
     | Some c => marshal_v1 {[service := c]}
     | None => LoadServiceResource service
     end);
  m ← said ("Failed to parse YAML configuration: " +:+ service +:+ " : ") (Unmarshal bytes);
  bytes ← said ("Failed to marshal YAML configuration: " +:+ service +:+ " : ") (Marshal m);
  said ("Failed to load " +:+ service +:+ " : ") (Load bytes p).

Definition load_services (p : project) (services : list string) : result project :=
  composeConfigs ← engine_configs; foldM (load_staged composeConfigs) p services.
End Configs.

(** A new client (there is none when it could not be made), the image of a service, and the pull. *)
Inductive scall :=
  | NewClient (d : Docker.daemon)
  | ImageInspect (d : Docker.daemon) (image : string)
  | UseLocal (service image : string)
  | Pull (services : gmap string ServiceConfig).

Definition sans (c : scall) : Type :=
  match c with NewClient _ => bool | ImageInspect _ _ => bool | UseLocal _ _ => unit | Pull _ => option string end.

Abbreviation sprog := (prog sans).
Definition api (c : scall) : sprog (sans c) := invoke c.

(** The two clients, and the one that is used. *)
Record clients := { client : option Docker.daemon; userClient : bool; systemClient : bool }.

Definition no_clients : clients := {| client := None; userClient := false; systemClient := false |}.

(** The client of the system is only chosen when it is made. *)
Definition choose_client (sc : ServiceConfig) (c : clients) : sprog clients :=
  if Docker.IsSystemContainer sc then
    if systemClient c then mret c
    else
      made ← api (NewClient Docker.SystemDocker);
      mret {| client := if made : bool then Some Docker.SystemDocker else None; userClient := userClient c; systemClient := made |}
  else
    made ← (if userClient c then mret true else api (NewClient Docker.UserDocker));
    mret {| client := if made : bool then Some Docker.UserDocker else None; userClient := made; systemClient := systemClient c |}.

(** The image and the labels are what is left of a service whose image is to be pulled. *)
Definition reduced (sc : ServiceConfig) : ServiceConfig :=
  ServiceConvert.Sc.Build_ServiceConfig "" [] [] "" 0 "" 0 [] "" [] [] [] "" [] [] ∅ [] [] ∅ "" (Image sc) (Labels sc) [] "" None ""
    0 0 "" "" 0 "" [] false "" false false [] false "" "" "" "" [] [] "" None None ∅.

Record staging := { st_clients : clients; st_needToPull : bool; st_configs : gmap string ServiceConfig }.

Definition stage_service (st : staging) (name : string) (sc : ServiceConfig) : sprog staging :=
  c ← choose_client sc (st_clients st);
  found ← (match client c with Some d => api (ImageInspect d (Image sc)) | None => mret false end);
  if found : bool then
    _ ← api (UseLocal name (Image sc));
    mret {| st_clients := c; st_needToPull := st_needToPull st; st_configs := st_configs st |}
  else mret {| st_clients := c; st_needToPull := true; st_configs := <[name := reduced sc]> (st_configs st) |}.

Fixpoint stage_services (st : staging) (l : list (string * ServiceConfig)) : sprog staging :=
  match l with
  | [] => mret st
  | (name, sc) :: l => st ← stage_service st name sc; stage_services st l
  end.

(** The services of the project in the order of its keys. *)
Definition stage (services : gmap string ServiceConfig) (order : list (string * ServiceConfig)) : sprog (option string) :=
  st ← stage_services {| st_clients := no_clients; st_needToPull := false; st_configs := services |} order;
  if st_needToPull st then api (Pull (st_configs st)) else mret None.

Definition StageServices (loaded : result (gmap string ServiceConfig))
    (keys : gmap string ServiceConfig → list (string * ServiceConfig)) : sprog (option string) :=
  match loaded with
  | Ok services => stage services (keys services)
  | Err e => mret (Some e)
  | Panic e => Done (Panic e)
  end.

(** ** Lemmas *)

(** Once the network has started, it may be used at every later reload. *)
Lemma useNetwork_later u events more : useNetwork_after u events = true → useNetwork_after u (events ++ more) = true.
Proof. unfold useNetwork_after. rewrite existsb_app. by intros [->| ->]%orb_true_iff; rewrite ?orb_true_r. Qed.

(** Loading is all or nothing: an error is said of the service that failed, and the ones after it are not loaded. *)
Lemma load_services_app {V1 tree project : Type} M u m L U Ma Lo (p : project) services more :
  @load_services V1 M u m L tree project U Ma Lo p (services ++ more) =
  (p ← @load_services V1 M u m L tree project U Ma Lo p services; load_services M u m L U Ma Lo p more).
Proof.
  unfold load_services. destruct (engine_configs M u) as [c|e|e]; [cbn|done..]. clear M u.
  revert p. induction services as [|s services IH]; intros p; cbn; [done|].
  destruct (load_staged m L U Ma Lo c p s) as [p'|e|e]; cbn; [apply IH|done..].
Qed.

Definition daemon_of (sc : ServiceConfig) : Docker.daemon := if Docker.IsSystemContainer sc then Docker.SystemDocker else Docker.UserDocker.

(** The images of services are asked for at the daemons of the services. *)
Definition asks_right (l : list (string * ServiceConfig)) (t : list scall) : Prop :=
  ∀ d image, ImageInspect d image ∈ t → ∃ nsc, nsc ∈ l ∧ image = Image nsc.2 ∧ d = daemon_of nsc.2.

(** The client is that of the system if that has one. *)
Definition system_chosen (c : clients) : Prop := systemClient c = true → client c = Some Docker.SystemDocker.

Lemma asks_right_nil l : asks_right l [].
Proof. by intros d i ?%not_elem_of_nil. Qed.

Lemma asks_right_app l t t' : asks_right l t → asks_right l t' → asks_right l (t ++ t').
Proof. intros H H' d i [?|?]%elem_of_app; auto. Qed.

Lemma asks_right_mono l l' t : l ⊆ l' → asks_right l t → asks_right l' t.
Proof. intros Hl H d i (nsc & Hin & ?)%H. exists nsc. split; [by apply Hl|done]. Qed.

(** A service goes wrong only when it is one of the system and the client of the system was made and left. *)
Lemma choose_client_spec sc c :
  (Docker.IsSystemContainer sc = true → system_chosen c) →
  wp (choose_client sc c) (λ t r, (∀ d i, ImageInspect d i ∉ t) ∧
    match r with
    | Ok c' => (client c' = Some (daemon_of sc) ∨ client c' = None) ∧ (Docker.IsSystemContainer sc = true → system_chosen c')
               ∧ (Docker.IsSystemContainer sc = false → systemClient c' = systemClient c)
    | _ => False
    end).
Proof.
  unfold choose_client, daemon_of. destruct (Docker.IsSystemContainer sc); intros H.
  - destruct (systemClient c) eqn:E; cbn.
    + split; [by intros ? ? ?%not_elem_of_nil|]. specialize (H eq_refl). split_and!; [left; by apply H|intros _; by apply H|done].
    + intros made. cbn. split; [by intros ? ? [?|?%not_elem_of_nil]%elem_of_cons|].
      split_and!; [destruct made; [by left|by right]|intros _; unfold system_chosen; cbn; by intros ->|done].
  - destruct (userClient c); cbn; [|intros made; cbn].
    + split; [by intros ? ? ?%not_elem_of_nil|]. by split_and!; [left|..].
    + split; [by intros ? ? [?|?%not_elem_of_nil]%elem_of_cons|]. by split_and!; [destruct made; [left|right]|..].
Qed.

(** What staging a service does to the services: nothing when its image is there, which is asked for; otherwise the
    service is reduced and a pull is due. *)
Lemma stage_service_spec st name sc :
  (Docker.IsSystemContainer sc = true → system_chosen (st_clients st)) →
  wp (stage_service st name sc) (λ t r, asks_right [(name, sc)] t ∧
    match r with
    | Ok st' =>
        (Docker.IsSystemContainer sc = true → system_chosen (st_clients st')) ∧
        (Docker.IsSystemContainer sc = false → systemClient (st_clients st') = systemClient (st_clients st)) ∧
        ((UseLocal name (Image sc) ∈ t ∧ st_needToPull st' = st_needToPull st ∧ st_configs st' = st_configs st) ∨
         (st_needToPull st' = true ∧ st_configs st' = <[name := reduced sc]> (st_configs st)))
    | _ => False
    end).
Proof.
  intros H. unfold stage_service. apply wp_bind. eapply wp_mono; [|by apply choose_client_spec].
  intros t [c| |]; cbn beta iota; [|by intros [_ []]..]. intros (Ht & Hc & Hs & Hu).
  assert (asks_right [(name, sc)] t) as Ha by (intros d i Hi; by destruct (Ht d i)).
  destruct (client c) as [d|] eqn:Ec; cbn.
  - intros found. destruct found; cbn.
    + intros _. split_and!; [|done..|left; split_and!; [set_solver|done..]].
      intros d' i. rewrite elem_of_app, !elem_of_cons. intros [Hi|[[= -> ->]|[Hi|Hi%not_elem_of_nil]]]; [by apply Ha|..|done|done].
      exists (name, sc). split_and!; [by left|done|]. by destruct Hc as [[= ->]|].
    + split_and!; [|done..|by right]. intros d' i. rewrite elem_of_app, !elem_of_cons.
      intros [Hi|[[= -> ->]|Hi%not_elem_of_nil]]; [by apply Ha|..|done]. exists (name, sc). split_and!; [by left|done|].
      by destruct Hc as [[= ->]|].
  - rewrite app_nil_r. split_and!; [done..|by right].
Qed.

(** The services in any order in which those of the system are not parted by others. *)
Definition uniform (b : bool) (l : list (string * ServiceConfig)) : Prop := Forall (λ nsc, Docker.IsSystemContainer nsc.2 = b) l.

Lemma stage_services_spec b st l :
  uniform b l → (b = true → system_chosen (st_clients st)) →
  wp (stage_services st l) (λ t r, asks_right l t ∧
    match r with
    | Ok st' =>
        (b = true → system_chosen (st_clients st')) ∧ (b = false → systemClient (st_clients st') = systemClient (st_clients st)) ∧
        (st_needToPull st' = false → st_needToPull st = false ∧ st_configs st' = st_configs st ∧
           ∀ nsc, nsc ∈ l → UseLocal nsc.1 (Image nsc.2) ∈ t) ∧
        (st_needToPull st = true → st_needToPull st' = true) ∧
        ∀ n, st_configs st' !! n = st_configs st !! n ∨ ∃ sc, (n, sc) ∈ l ∧ st_configs st' !! n = Some (reduced sc)
    | _ => False
    end).
Proof.
  intros Hl. revert st. induction Hl as [|[n sc] l Hb Hl IH]; intros st Hst; cbn [stage_services].
  { cbn. split; [apply asks_right_nil|]. split_and!; [done|done| |done|by left]. intros H. split_and!; [done..|]. by intros ? ?%not_elem_of_nil. }
  cbn in Hb. apply wp_bind. eapply wp_mono; [|apply stage_service_spec; by rewrite Hb].
  intros t [st1| |]; cbn beta iota; [|by intros [_ []]..]. rewrite Hb. intros (Ht & Hs & Hu & Hcase).
  eapply wp_mono; [|by apply IH]. intros t' [st2| |] (Ht' & H); cbn beta iota in *; [|done..].
  destruct H as (Hs2 & Hu2 & Hno & Hyes & Hcfg). split.
  { apply asks_right_app; [eapply asks_right_mono; [|exact Ht]|eapply asks_right_mono; [|exact Ht']]; set_solver. }
  split_and!; [done|by intros ?; rewrite Hu2, Hu|..].
  - intros Hn. destruct (Hno Hn) as (Hn1 & Hc2 & Hin). destruct Hcase as [(Hloc & Hn0 & Hc1)|[Hn0 _]]; [|congruence].
    split_and!; [congruence..|]. intros nsc [->|Hi]%elem_of_cons; apply elem_of_app; [by left|right; auto].
  - intros Hn. apply Hyes. destruct Hcase as [(_ & -> & _)|[-> _]]; done.
  - intros m. destruct (Hcfg m) as [->|(sc' & Hin & ->)]; [|right; exists sc'; split; [by right|done]].
    destruct Hcase as [(_ & _ & ->)|[_ ->]]; [by left|]. destruct (decide (m = n)) as [->|Hne].
    + right. exists sc. split; [by left|]. by rewrite lookup_insert_eq.
    + left. by rewrite lookup_insert_ne.
Qed.

(** Those of the system first, or last. *)
Definition grouped (order : list (string * ServiceConfig)) : Prop :=
  ∃ b l1 l2, order = (l1 ++ l2)%list ∧ uniform b l1 ∧ uniform (negb b) l2.

Lemma wp_bind_assoc {A B C} (p : sprog A) (f : A → sprog B) (g : B → sprog C) Q :
  wp (a ← p; f a ≫= g) Q → wp ((p ≫= f) ≫= g) Q.
Proof.
  unfold mbind, prog_mbind. revert Q. induction p as [[a|e|e]|c k IH]; intros Q; cbn; [done..|].
  intros H x. by apply IH.
Qed.

Lemma stage_services_app st l1 l2 Q :
  wp (st ← stage_services st l1; stage_services st l2) Q → wp (stage_services st (l1 ++ l2)) Q.
Proof.
  revert st Q. induction l1 as [|[n sc] l1 IH]; intros st Q; [done|]. cbn [stage_services app]. intros H.
  assert (∀ (p : sprog staging) Q, wp ((p ≫= λ st, stage_services st l1) ≫= λ st, stage_services st l2) Q →
    wp (p ≫= λ st, stage_services st (l1 ++ l2)) Q) as Hb.
  { clear H. intros p. unfold mbind, prog_mbind. induction p as [[a|e|e]|c k IHp]; intros Q'; cbn; [apply IH|done..|].
    intros H x. by apply IHp. }
  by apply Hb.
Qed.

Lemma stage_services_grouped st order :
  grouped order → st_clients st = no_clients →
  wp (stage_services st order) (λ t r, asks_right order t ∧
    match r with
    | Ok st' =>
        (st_needToPull st' = false → st_configs st' = st_configs st ∧ ∀ nsc, nsc ∈ order → UseLocal nsc.1 (Image nsc.2) ∈ t) ∧
        ∀ n, st_configs st' !! n = st_configs st !! n ∨ ∃ sc, (n, sc) ∈ order ∧ st_configs st' !! n = Some (reduced sc)
    | _ => False
    end).
Proof.
  intros (b & l1 & l2 & -> & Hl1 & Hl2) Hc. apply stage_services_app, wp_bind.
  eapply wp_mono; [|apply (stage_services_spec b); [done|rewrite Hc; by intros _ ?]].
  intros t [st1| |]; cbn beta iota; [|by intros [_ []]..]. intros (Ht & Hs & Hu & Hno & Hyes & Hcfg).
  eapply wp_mono; [|apply (stage_services_spec (negb b)); [done|]].
  2: { destruct b; [done|]. intros _ H. rewrite (Hu eq_refl), Hc in H. done. }
  intros t' [st2| |]; cbn beta iota; [|by intros [_ []]..]. intros (Ht' & _ & _ & Hno' & _ & Hcfg').
  split_and!; [apply asks_right_app; [eapply asks_right_mono; [|exact Ht]|eapply asks_right_mono; [|exact Ht']]; set_solver|..].
  - intros Hn. destruct (Hno' Hn) as (Hn1 & -> & Hin'). destruct (Hno Hn1) as (_ & -> & Hin). split; [done|].
    intros nsc [?|?]%elem_of_app; apply elem_of_app; [left|right]; auto.
  - intros n. destruct (Hcfg' n) as [->|(sc & Hin & ->)]; [|right; exists sc; split; [set_solver|done]].
    destruct (Hcfg n) as [->|(sc & Hin & ->)]; [by left|right; exists sc; split; [set_solver|done]].
Qed.

(** Nothing is pulled before all services were looked at. *)
Lemma stage_no_pull st l : wp (stage_services st l) (λ t _, ∀ m, Pull m ∉ t).
Proof.
  revert st. induction l as [|[n sc] l IH]; intros st; cbn [stage_services]; [by intros m ?%not_elem_of_nil|].
  assert (∀ (p : sprog staging), wp p (λ t _, ∀ m, Pull m ∉ t) → wp (p ≫= λ st, stage_services st l) (λ t _, ∀ m, Pull m ∉ t)) as Hb.
  { intros p Hp. apply wp_bind. eapply wp_mono, Hp. intros t [st'| |] Ht; cbn beta iota; [|done..].
    eapply wp_mono; [|apply IH]. intros t' r' Ht' m. rewrite elem_of_app. intros [?|?]; [by apply (Ht m)|by apply (Ht' m)]. }
  assert (∀ c, wp (choose_client sc c) (λ t _, ∀ m, Pull m ∉ t)) as Hc.
  { intros c. unfold choose_client. destruct (Docker.IsSystemContainer sc), (systemClient c), (userClient c); cbn;
      try intros made; cbn; set_solver. }
  apply Hb, wp_bind. eapply wp_mono; [|apply Hc]. intros t [c| |] Ht; cbn beta iota; [|done..].
  destruct (client c); cbn; [intros []; cbn|]; set_solver.
Qed.

(** When the services of the system are staged together, each image is asked for at the daemon of its service, whatever
    the daemons answer; what is pulled are the services as they were or reduced to their image and labels; and without a
    pull every image was found at its daemon. *)
Theorem stage_asks_the_right_daemon services order :
  grouped order → (∀ n sc, (n, sc) ∈ order → services !! n = Some sc) →
  wp (stage services order) (λ t r, asks_right order t ∧
    (∀ m n, Pull m ∈ t → m !! n = services !! n ∨ ∃ sc, services !! n = Some sc ∧ m !! n = Some (reduced sc)) ∧
    ((∀ m, Pull m ∉ t) → r = Ok None ∧ ∀ nsc, nsc ∈ order → UseLocal nsc.1 (Image nsc.2) ∈ t)).
Proof.
  intros Hg Hservices. unfold stage. apply wp_bind. eapply wp_mono.
  2: { apply wp_and; [by apply stage_services_grouped|]. apply stage_no_pull. }
  intros t [st| |]; cbn beta iota; [|by intros [[_ []] _]..]. cbn [st_configs]. intros ((Ht & Hno & Hcfg) & Hpull).
  destruct (st_needToPull st); cbn.
  - intros e. split_and!.
    + apply asks_right_app; [done|]. by intros d i [?|?%not_elem_of_nil]%elem_of_cons.
    + intros m n [H|[[= ->]|?%not_elem_of_nil]%elem_of_cons]%elem_of_app; [by destruct (Hpull m)| |done].
      destruct (Hcfg n) as [->|(sc & Hin & ->)]; [by left|right; exists sc; split; [by apply Hservices|done]].
    + intros H. destruct (H (st_configs st)). apply elem_of_app. right. by left.
  - rewrite app_nil_r. split_and!; [done|by intros m n ?%Hpull|]. intros _. split; [done|]. by apply Hno.
Qed.

(** *** Examples *)

Definition labelled (image : string) (system : bool) : ServiceConfig :=
  ServiceConvert.Sc.Build_ServiceConfig "" [] [] "" 0 "" 0 [] "" [] [] [] "" [] [] ∅ [] [] ∅ "" image
    (if system then {[ProjectDag.ScopeLabel := ProjectDag.System]} else ∅) [] "" None "" 0 0 "" "" 0 "" [] false "" false false [] false
    "" "" "" "" [] [] "" None None ∅.

Definition to_services (order : list (string * ServiceConfig)) : gmap string ServiceConfig := list_to_map order.

Definition three : list (string * ServiceConfig) := [("a", labelled "x" true); ("b", labelled "y" true); ("c", labelled "z" false)].

Lemma stage_asks_the_right_daemon_witness :
  grouped three ∧ (∀ n sc, (n, sc) ∈ three → to_services three !! n = Some sc) ∧
  wp (stage (to_services three) three) (λ t _, asks_right three t).
Proof.
  assert (grouped three) as Hg.
  { exists true, [("a", labelled "x" true); ("b", labelled "y" true)], [("c", labelled "z" false)]. by repeat constructor. }
  assert (∀ n sc, (n, sc) ∈ three → to_services three !! n = Some sc) as Hs.
  { intros n sc [[= -> ->]|[[= -> ->]|[[= -> ->]|?%not_elem_of_nil]%elem_of_cons]%elem_of_cons]%elem_of_cons; by vm_compute. }
  split_and!; [done..|]. eapply wp_mono; [|exact (stage_asks_the_right_daemon (to_services three) three Hg Hs)].
  by intros t r [? _].
Defined.

(** Daemons that can be reached, with their images; a pull goes well. *)
Definition daemons (images : Docker.daemon → list string) (c : scall) (w : unit) : sans c * unit :=
  match c return sans c * unit with
  | NewClient _ => (true, w)
  | ImageInspect d image => (existsb (String.eqb image) (images d), w)
  | UseLocal _ _ => (tt, w)
  | Pull _ => (None, w)
  end.

(** A service of the system that follows one of the user is asked for at the wrong daemon, when the client of the system
    was there before: its image is pulled although the daemon has it. *)
Lemma parted_services_ask_the_wrong_daemon :
  let order := [("a", labelled "x" true); ("b", labelled "y" false); ("c", labelled "z" true)] in
  let images := λ d, match d with Docker.SystemDocker => ["x"; "z"] | Docker.UserDocker => ["y"] end in
  (λ c, match c with ImageInspect d i => Some (d, i) | _ => None end) <$> (run (daemons images) (stage (to_services order) order) ()).1.1 =
    [None; Some (Docker.SystemDocker, "x"); None; None; Some (Docker.UserDocker, "y"); None; Some (Docker.UserDocker, "z"); None].
Proof. by vm_compute. Qed.
