(* ===== verification/ContainerInfo.v ===== *)
(** * What is read of containers ([pkg/libcompose/docker/container.go]: Info, Log, Port, the connection of an attached container)

    The listing and the log of a container, the ports it is bound to, and the goroutines that carry the streams of an
    attached container, as a state machine. The daemon and the copying of streams are calls. *)

From stdpp Require Import prelude gmap strings list.
From S2P Require Import Prelude GoStrings Prog.
From S2P Require Docker.

Local Open Scope string_scope.

(** ** Calls *)

(** What is read of the inspection of a container. *)
Record ContainerInfo := {
  i_ID : string;
  i_Name : string;
  i_Tty : bool;
  (** The addresses and ports of the host a port is bound to. *)
  i_Ports : gmap string (list (string * string));
}.

(** An entry of the listing. *)
Record ListedContainer := {
  l_Names : list string;
  l_Command : string;
  l_Status : string;
  (** Address, public port, private port, type. *)
  l_Ports : list (string * Z * Z * string);
}.

Inductive icall :=
  | Inspect (id : string)
  (** All containers whose name matches. *)
  | ListByName (name : string)
  | Logs (id : string) (follow : bool)
  (** Copying a stream to the logger of the container: as it is, or its two parts. *)
  | CopyStream (logger : string)
  | CopyParts (logger : string).

Definition ians (c : icall) : Type :=
  match c with
  | Inspect _ => api ContainerInfo
  | ListByName _ => api (list ListedContainer)
  | Logs _ _ => api ()
  | CopyStream _ | CopyParts _ => api ()
  end.

Abbreviation iprog := (prog ians).
Definition icalled (c : icall) : iprog (ians c) := invoke c.

(** ** Operations *)

Section Container.
(** The name of the container, that of its service and its number. *)
Context (name service : string) (number : Z).

Definition find : iprog (option ContainerInfo) :=
  x ← icalled (Inspect name);
  match x with
  | AOk container => mret (Some container)
  | ANotFound _ => mret None
  | AErr e => Done (Err e)
  end.

(** Nothing for a container that is not there, or not listed; of those that are listed under the name, the first. *)
Definition Info (qFlag : bool) : iprog (option (list (string * string))) :=
  container ← find;
  match (container : option ContainerInfo) with
  | None => mret None
  | Some container =>
      infos ← (x ← icalled (ListByName (i_Name container)); expect x);
      match (infos : list ListedContainer) with
      | [] => mret None
      | info :: _ =>
          if qFlag then mret (Some [("Id", i_ID container)])
          else
            match Docker.container_name (l_Names info) with
            | Ok n => mret (Some [("Name", n); ("Command", l_Command info); ("State", l_Status info); ("Ports", Docker.portString (l_Ports info))])
            | Err e => Done (Err e)
            | Panic e => Done (Panic e)
            end
      end
  end.

(** The name under which the lines appear is made of the service and the number. *)
Definition logger_name : string := service +:+ "_" +:+ Itoa number.

Definition Log (follow : bool) : iprog () :=
  container ← find;
  match (container : option ContainerInfo) with
  | None => mret ()
  | Some container =>
      info ← (x ← icalled (Inspect (i_ID container)); expect x);
      _ ← (x ← icalled (Logs name follow); expect x);
      x ← (if i_Tty (info : ContainerInfo) then icalled (CopyStream logger_name) else icalled (CopyParts logger_name));
      expect (x : api ())
  end.

Definition binding_text (b : string * string) : string := b.1 +:+ ":" +:+ b.2.

(** A container that is not there is a nil pointer. *)
Definition Port (port : string) : iprog string :=
  container ← find;
  match (container : option ContainerInfo) with
  | None => Done (Panic "nil pointer dereference")
  | Some container =>
      match i_Ports container !! port with
      | Some bindings => mret (Join (binding_text <$> bindings) (String "010" ""))
      | None => mret ""
      end
  end.
End Container.

(** The containers of a service one after the other, up to an error. *)
Fixpoint ServiceInfo (containers : list string) (qFlag : bool) : iprog (list (option (list (string * string)))) :=
  match containers with
  | [] => mret []
  | c :: containers => info ← Info c qFlag; result ← ServiceInfo containers qFlag; mret (info :: result)
  end.

(** ** The connection of an attached container *)

Section Hijack.
(** Whether there is a stream to write the output to, or one for the errors. *)
Context (has_output : bool).

(** The channel of the end of the output, which has room for one; the output goroutine; the channel that is closed after
    the input; and what the function has returned. *)
Record hijack := {
  receiveStdout : option (option string);
  output_running : bool;
  stdinDone : bool;
  (** In the second receive, below the case of the input. *)
  waiting_output : bool;
  returned : option (option string);
}.

Definition hijack_start : hijack :=
  {| receiveStdout := None; output_running := has_output; stdinDone := false; waiting_output := false; returned := None |}.

Inductive hijack_step : hijack → hijack → Prop :=
  (** The output has ended, with an error or without. *)
  | output_ends h err :
      output_running h = true →
      hijack_step h {| receiveStdout := Some err; output_running := false; stdinDone := stdinDone h;
                       waiting_output := waiting_output h; returned := returned h |}
  (** The input has ended, or there was none, and the channel is closed. *)
  | input_ends h :
      stdinDone h = false →
      hijack_step h {| receiveStdout := receiveStdout h; output_running := output_running h; stdinDone := true;
                       waiting_output := waiting_output h; returned := returned h |}
  (** The select, or the second receive, gets the end of the output. *)
  | receive_output h err :
      receiveStdout h = Some err → returned h = None →
      hijack_step h {| receiveStdout := None; output_running := output_running h; stdinDone := stdinDone h;
                       waiting_output := waiting_output h; returned := Some err |}
  (** The select sees that the input is done: with an output it goes on to the second receive. *)
  | receive_input h :
      stdinDone h = true → waiting_output h = false → returned h = None →
      hijack_step h (if has_output
                     then {| receiveStdout := receiveStdout h; output_running := output_running h; stdinDone := true;
                             waiting_output := true; returned := None |}
                     else {| receiveStdout := receiveStdout h; output_running := output_running h; stdinDone := true;
                             waiting_output := false; returned := Some None |}).

Definition hijack_reachable (h : hijack) : Prop := rtc hijack_step hijack_start h.

(** With an output, either it is running, or its end is in the channel, or the function has returned. *)
Definition hijack_inv (h : hijack) : Prop :=
  if has_output then
    (output_running h = true → receiveStdout h = None ∧ returned h = None) ∧
    (output_running h = false → is_Some (receiveStdout h) ∨ is_Some (returned h))
  else output_running h = false ∧ receiveStdout h = None ∧ waiting_output h = false ∧ (returned h = None ∨ returned h = Some None).

Lemma hijack_reachable_inv h : hijack_reachable h → hijack_inv h.
Proof.
  unfold hijack_reachable. intros H. remember hijack_start as s eqn:Hs.
  assert (hijack_inv s) as Hi.
  { subst s. unfold hijack_inv, hijack_start. cbn. destruct has_output; cbn; [by split|by split_and!; [..|left]]. }
  clear Hs. induction H as [h|h h1 h2 Hstep _ IH]; [done|]. apply IH. revert Hi. unfold hijack_inv.
  destruct Hstep as [h err Hr|h Hd|h err Hr Hn|h Hd Hw Hn]; destruct has_output; cbn.
  - intros [H1 _]. split; [done|]. intros _. left. by eexists.
  - intros (Ho & _). congruence.
  - intros Hi. exact Hi.
  - intros Hi. exact Hi.
  - intros [H1 _]. split; [|intros _; right; by eexists]. intros [H _]%H1. congruence.
  - intros (_ & H & _). congruence.
  - rewrite Hn. intros Hi. exact Hi.
  - intros (H1 & H2 & H3 & _). split_and!; [done..|by right].
Qed.

(** The function does not return before the output has ended, and returns the error of the output; without an output
    there is no error. *)
Lemma hijack_waits_for_output h r :
  hijack_reachable h → returned h = Some r → output_running h = false ∧ (has_output = false → r = None).
Proof.
  intros Hi%hijack_reachable_inv Hr. unfold hijack_inv in Hi. destruct has_output.
  - split; [|done]. destruct (output_running h); [|done]. naive_solver.
  - naive_solver.
Qed.

(** It never blocks for good: until it has returned one of the streams goes on, or it takes a step. *)
Lemma hijack_progress h : hijack_reachable h → returned h = None → ∃ h', hijack_step h h'.
Proof.
  intros Hi%hijack_reachable_inv Hn. unfold hijack_inv in Hi. destruct (output_running h) eqn:Ho.
  - eexists. by apply (output_ends h None).
  - destruct (receiveStdout h) as [err|] eqn:Hr; [eexists; by eapply receive_output|].
    destruct (stdinDone h) eqn:Hd; [|eexists; by apply input_ends].
    eexists. apply receive_input; [done| |done]. destruct has_output; [|by destruct Hi as (_ & _ & ? & _)].
    destruct (proj2 Hi eq_refl) as [[? ?]|[? ?]]; congruence.
Qed.

(** Nor does it run for ever: each step lowers a measure. *)
Definition hijack_measure (h : hijack) : nat :=
  (if output_running h then 2 else 0) + match receiveStdout h with Some _ => 1 | None => 0 end + (if stdinDone h then 0 else 2) +
  (if waiting_output h then 0 else 1) + match returned h with Some _ => 0 | None => 1 end.

Lemma hijack_terminates h h' : hijack_inv h → hijack_step h h' → hijack_measure h' < hijack_measure h.
Proof.
  intros Hi H. unfold hijack_inv in Hi. unfold hijack_measure.
  destruct H as [h err Hr|h Hd|h err Hr Hn|h Hd Hw Hn]; cbn.
  - destruct has_output; [|destruct Hi; congruence]. destruct (proj1 Hi Hr) as [-> _]. rewrite Hr. lia.
  - rewrite Hd. lia.
  - rewrite Hr, Hn. lia.
  - rewrite Hd, Hw, Hn. destruct has_output; cbn; [lia|]. destruct (output_running h), (receiveStdout h); lia.
Qed.
End Hijack.

(** ** Lemmas *)

(** A container that is not there: no information, no log, and a panic for its port. *)
Lemma gone name service number qFlag follow port msg :
  let h := λ (c : icall) (w : ()), (match c return ians c with
                                     | Inspect _ => ANotFound msg | ListByName _ => AOk [] | _ => AOk () end, w) in
  (run h (Info name qFlag) ()).1.2 = Ok None ∧ (run h (Log name service number follow) ()).1.2 = Ok () ∧
  (run h (Port name port) ()).1.2 = Panic "nil pointer dereference".
Proof. by cbv zeta. Qed.

(** The listing is asked for by a pattern that other names match as well: what is shown is that of the first of them. *)
Lemma info_of_another_container :
  let h := λ (c : icall) (w : ()), (match c return ians c with
    | Inspect id => AOk {| i_ID := "1"; i_Name := "/web_1"; i_Tty := false; i_Ports := ∅ |}
    | ListByName _ => AOk [{| l_Names := ["/web_10"]; l_Command := "other"; l_Status := "Up"; l_Ports := [] |};
                           {| l_Names := ["/web_1"]; l_Command := "cmd"; l_Status := "Exited"; l_Ports := [] |}]
    | _ => AOk () end, w) in
  (run h (Info "web_1" false) ()).1.2 = Ok (Some [("Name", "web_10"); ("Command", "other"); ("State", "Up"); ("Ports", "")]).
Proof. by vm_compute. Qed.

(** The container is inspected twice for its log, the log is asked for by its name. *)
Lemma Log_calls name service number follow :
  wp (Log name service number follow) (λ t r, match t with
    | Inspect n :: rest => n = name ∧ (∀ id f, Logs id f ∈ rest → id = name ∧ f = follow)
    | _ => False
    end).
Proof.
  cbn. intros [c|e|e]; cbn; [|set_solver..]. intros [i|e|e]; cbn; [|set_solver..].
  intros [[]|e|e]; cbn; [|set_solver..]. destruct (i_Tty i); cbn; intros [[]|e|e]; cbn; set_solver.
Qed.
