(* ===== verification/ComposeClient.v ===== *)
(** * Building images and making clients ([pkg/libcompose/docker/builder], [client])

    What is sent to the daemon for a build, and the settings of a client. The archive, the patterns of .dockerignore, the
    connection and its certificates are calls or parameters. *)

From stdpp Require Import prelude gmap strings list.
From S2P Require Import Prelude GoStrings Prog Lookup.

Local Open Scope string_scope.

(** ** The context of a build ([builder.go]) *)

Inductive lstat := Exists | NotExist | LstatError.

Inductive bcall :=
  | BGetwd
  | BLstat (file : string)
  (** The patterns of the file: it cannot be opened (with whether it is not there), or be read, or what it says. *)
  | BReadIgnore (file : string)
  | BTar (directory : string) (includes excludes : list string)
  | BWarn (message : string)
  | BImageBuild (image dockerfile : string) (noCache remove forceRemove pullParent : bool)
  | BDisplay
  | BCloseTar.

Inductive ignore_file := IgnoreNotExist (msg : string) | IgnoreError (msg : string) | IgnorePatterns (patterns : list string).
(** The end of the output of a build. *)
Inductive display := Displayed | DisplayError (msg : string) | BuildError (msg : string) (code : Z).

Definition bans (c : bcall) : Type :=
  match c with
  | BGetwd => result string
  | BLstat _ => lstat
  | BReadIgnore _ => ignore_file
  | BTar _ _ _ => option string
  | BImageBuild _ _ _ _ _ _ => option string
  | BDisplay => display
  | BWarn _ | BCloseTar => unit
  end.

Abbreviation bprog := (prog bans).
Definition bdo (c : bcall) : bprog (bans c) := invoke c.

Definition DefaultDockerfileName : string := "Dockerfile".
Definition lower_name : string := "dockerfile".

Section Build.
(** [filepath.Rel] of clean absolute paths, the canonical name in an archive, whether a name matches one of the patterns,
    and whether the files of the directory can be read. *)
Context (Rel : string → string → result string) (CanonicalTarName : string → result string).
Context (Matches : string → list string → bool) (ValidateContext : string → list string → option string).

Definition lift_ {A} (r : result A) : bprog A := Done r.

Definition Abs_ (p : string) : bprog string := wd ← bdo BGetwd; lift_ (Abs wd p).

(** The name of the file and where it is: the default, or its spelling in small letters when only that is there. *)
Definition dockerfile_of (contextDirectory absContextDirectory dockerfile : string) : bprog (string * string) :=
  if String.eqb dockerfile "" then
    let filename := path_Join [absContextDirectory; DefaultDockerfileName] in
    found ← bdo (BLstat filename);
    match (found : lstat) with
    | NotExist =>
        let tmpFN := path_Join [absContextDirectory; lower_name] in
        found ← bdo (BLstat tmpFN);
        match (found : lstat) with
        | Exists => mret (lower_name, tmpFN)
        | _ => mret (DefaultDockerfileName, filename)
        end
    | _ => mret (DefaultDockerfileName, filename)
    end
  else let name := path_Join [contextDirectory; dockerfile] in mret (name, name).

(** What keeps the two files in the archive although they are to be left out. *)
Definition includes_of (dockerfileName : string) (excludes : list string) : list string :=
  (["."] ++ if Matches ".dockerignore" excludes || Matches dockerfileName excludes then [".dockerignore"; dockerfileName] else [])%list.

Definition createTar (contextDirectory dockerfile : string) : bprog () :=
  absContextDirectory ← Abs_ contextDirectory;
  nf ← dockerfile_of contextDirectory absContextDirectory dockerfile;
  let '(origDockerfile, filename) := nf : string * string in
  filename ← Abs_ filename;
  dockerfileName ← lift_ (Rel absContextDirectory filename);
  dockerfileName ← lift_ (match CanonicalTarName dockerfileName with
                          | Err e => Err ("Cannot canonicalize dockerfile path " +:+ ": " +:+ e)
                          | r => r
                          end);
  found ← bdo (BLstat filename);
  match (found : lstat) with
  | NotExist => Done (Err ("Cannot locate Dockerfile: " +:+ origDockerfile))
  | _ =>
      let dockerIgnorePath := path_Join [contextDirectory; ".dockerignore"] in
      ignore ← bdo (BReadIgnore dockerIgnorePath);
      excludes ← match (ignore : ignore_file) with
                 | IgnoreError e => Done (Err e)
                 | IgnoreNotExist e =>
                     _ ← bdo (BWarn ("Error while reading .dockerignore (" +:+ dockerIgnorePath +:+ ") : " +:+ e)); mret []
                 | IgnorePatterns ps => mret ps
                 end;
      match ValidateContext contextDirectory excludes with
      | Some e => Done (Err ("Error checking context is accessible: '" +:+ e +:+ "'. Please check permissions and try again."))
      | None =>
          err ← bdo (BTar contextDirectory (includes_of dockerfileName excludes) excludes);
          match (err : option string) with Some e => Done (Err e) | None => mret () end
      end
  end.

Record DaemonBuilder := {
  ContextDirectory : string;
  Dockerfile : string;
  NoCache : bool;
  ForceRemove : bool;
  Pull : bool;
}.

(** The archive is closed in any case; an error of the build has a code, which is 1 if it is not given. *)
Definition Build (d : DaemonBuilder) (imageName : string) : bprog () :=
  _ ← createTar (ContextDirectory d) (Dockerfile d);
  defer_call (bdo BCloseTar)
    (err ← bdo (BImageBuild imageName (Dockerfile d) (NoCache d) true (ForceRemove d) (Pull d));
     match (err : option string) with
     | Some e => Done (Err e)
     | None =>
         shown ← bdo BDisplay;
         match (shown : display) with
         | Displayed => mret ()
         | DisplayError e => Done (Err e)
         | BuildError msg code => Done (Err ("Status: " +:+ msg +:+ ", Code: " +:+ Itoa (if (code =? 0)%Z then 1 else code)))
         end
     end).
End Build.

(** ** Settings of a client ([client.go]) *)

Definition DefaultAPIVersion : string := "v1.31".

Record Options := {
  TLS : bool;
  TLSVerify : bool;
  CAFile : string;
  CertFile : string;
  KeyFile : string;
  InsecureSkipVerify : bool;
  TrustKey : string;
  Host : string;
  APIVersion : string;
}.

Definition or_default (s d : string) : string := if String.eqb s "" then d else s.

(** The directory of the certificates: the variable, or that of the configuration of docker. *)
Definition dockerCertPath (DOCKER_CERT_PATH ConfigDir : string) : string := or_default DOCKER_CERT_PATH ConfigDir.

(** The options with what is not given, for a host that is. *)
Definition complete_options (dockerCertPath home : string) (c : Options) : Options :=
  let tls := TLS c || TLSVerify c in
  {| TLS := tls;
     TLSVerify := TLSVerify c;
     CAFile := or_default (CAFile c) (path_Join [dockerCertPath; "ca.pem"]);
     CertFile := or_default (CertFile c) (path_Join [dockerCertPath; "cert.pem"]);
     KeyFile := or_default (KeyFile c) (path_Join [dockerCertPath; "key.pem"]);
     InsecureSkipVerify := if tls then negb (TLSVerify c) else InsecureSkipVerify c;
     TrustKey := or_default (TrustKey c) (path_Join [home; ".docker"; "key.json"]);
     Host := Host c;
     APIVersion := or_default (APIVersion c) DefaultAPIVersion |}.

(** How a client is made: from the environment, in which the version is set if it is not, or for a host with its options. *)
Inductive client_kind := EnvClient (version : string) | HostClient (c : Options).

Definition Create (DOCKER_API_VERSION dockerCertPath home : string)
    (NewEnvClient : string → result ()) (tlsconfig_Client : Options → result ()) (ParseHost : string → result ())
    (ConfigureTransport : string → result ()) (NewClient : Options → result ()) (c : Options) : result client_kind :=
  if String.eqb (Host c) "" then
    let version := or_default DOCKER_API_VERSION DefaultAPIVersion in
    _ ← NewEnvClient version; Ok (EnvClient version)
  else
    let c := complete_options dockerCertPath home c in
    _ ← (if TLS c then _ ← tlsconfig_Client c; _ ← ParseHost (Host c); ConfigureTransport (Host c) else Ok ());
    _ ← NewClient c;
    Ok (HostClient c).

(** ** Lemmas *)

(** A host is only ever talked to without checking its certificate when that was not asked for. *)
Lemma verified_certificates cert home c :
  TLSVerify c = true →
  TLS (complete_options cert home c) = true ∧ InsecureSkipVerify (complete_options cert home c) = false.
Proof. intros H. cbn. rewrite H, orb_true_r. done. Qed.

(** Completing options twice is completing them once. *)
Lemma complete_options_idemp cert home c :
  complete_options cert home (complete_options cert home c) = complete_options cert home c.
Proof.
  unfold complete_options. cbn.
  assert (∀ s d, or_default (or_default s d) d = or_default s d) as Hd.
  { intros s d. unfold or_default. destruct (String.eqb s "") eqn:E; [by destruct (String.eqb d "") eqn:E'|by rewrite E]. }
  rewrite !Hd. by destruct (TLS c), (TLSVerify c).
Qed.

Section Build_lemmas.
Context (Rel : string → string → result string) (CanonicalTarName : string → result string).
Context (Matches : string → list string → bool) (ValidateContext : string → list string → option string).

(** The file of the build is in every archive, though the patterns leave it out: it is listed, with that of the patterns. *)
Lemma includes_of_ignored name excludes :
  Matches name excludes = true → name ∈ includes_of Matches name excludes ∧ ".dockerignore" ∈ includes_of Matches name excludes.
Proof. intros H. unfold includes_of. rewrite H, orb_true_r. set_solver. Qed.

(** What holds of each call. *)
Definition each_call (P : bcall → Prop) (t : list bcall) : Prop := ∀ c, c ∈ t → P c.

Lemma each_call_bind {A B} (P : bcall → Prop) (p : bprog A) (f : A → bprog B) :
  wp p (λ t _, each_call P t) → (∀ a, wp (f a) (λ t _, each_call P t)) → wp (p ≫= f) (λ t _, each_call P t).
Proof.
  intros Hp Hf. apply wp_bind. eapply wp_mono; [|exact Hp]. intros t [a| |] Ht; [|done..].
  eapply wp_mono; [|apply Hf]. intros t' r Ht' c [?|?]%elem_of_app; auto.
Qed.

Lemma each_call_bdo P (c : bcall) : P c → wp (bdo c) (λ t _, each_call P t).
Proof. intros Hc x d. cbn. by intros [->|?%not_elem_of_nil]%elem_of_cons. Qed.

Lemma each_call_done {A} P (r : result A) : wp (Done r : bprog A) (λ t _, each_call P t).
Proof. by intros c ?%not_elem_of_nil. Qed.

(** Making the archive does not build, and archives no other directory. *)
Definition prepares (dir : string) (c : bcall) : Prop :=
  match c with BTar d _ _ => d = dir | BImageBuild _ _ _ _ _ _ | BDisplay | BCloseTar => False | _ => True end.

Lemma createTar_prepares dir dockerfile :
  wp (createTar Rel CanonicalTarName Matches ValidateContext dir dockerfile) (λ t _, each_call (prepares dir) t).
Proof.
  assert (∀ p, wp (Abs_ p) (λ t _, each_call (prepares dir) t)) as HAbs.
  { intros p. apply each_call_bind; [by apply each_call_bdo|intros wd; apply each_call_done]. }
  unfold createTar. apply each_call_bind; [apply HAbs|]. intros abs. apply each_call_bind.
  { unfold dockerfile_of. destruct (String.eqb dockerfile ""); [|apply each_call_done].
    apply each_call_bind; [by apply each_call_bdo|]. intros []; try apply each_call_done.
    apply each_call_bind; [by apply each_call_bdo|]. intros []; apply each_call_done. }
  intros [orig filename]. apply each_call_bind; [apply HAbs|]. intros f.
  apply each_call_bind; [apply each_call_done|]. intros name. apply each_call_bind; [apply each_call_done|]. intros tarname.
  apply each_call_bind; [by apply each_call_bdo|].
  assert (wp (ignore ← bdo (BReadIgnore (path_Join [dir; ".dockerignore"]));
    excludes ← match (ignore : ignore_file) with
               | IgnoreError e => Done (Err e)
               | IgnoreNotExist e => _ ← bdo (BWarn ("Error while reading .dockerignore (" +:+ path_Join [dir; ".dockerignore"] +:+ ") : " +:+ e)); mret []
               | IgnorePatterns ps => mret ps
               end;
    match ValidateContext dir excludes with
    | Some e => Done (Err ("Error checking context is accessible: '" +:+ e +:+ "'. Please check permissions and try again."))
    | None => err ← bdo (BTar dir (includes_of Matches tarname excludes) excludes);
              match (err : option string) with Some e => Done (Err e) | None => mret () end
    end) (λ t (_ : result ()), each_call (prepares dir) t)) as Hrest.
  { apply each_call_bind; [by apply each_call_bdo|]. intros ignore. apply each_call_bind.
    { destruct ignore; [|apply each_call_done..]. apply each_call_bind; [by apply each_call_bdo|intros; apply each_call_done]. }
    intros excludes. destruct (ValidateContext dir excludes); [apply each_call_done|].
    apply each_call_bind; [by apply each_call_bdo|]. intros []; apply each_call_done. }
  intros []; [exact Hrest|apply each_call_done|exact Hrest].
Qed.

(** An image is only built from the archive of its directory, once it was made, for the name and with the file that were
    asked for; the archive is closed at the end, and intermediate containers are removed. *)
Lemma Build_calls d image :
  wp (Build Rel CanonicalTarName Matches ValidateContext d image) (λ t r,
    each_call (prepares (ContextDirectory d)) t ∨
    ∃ t0 rest, t = (t0 ++ BImageBuild image (Dockerfile d) (NoCache d) true (ForceRemove d) (Pull d) :: rest)%list ∧
      each_call (prepares (ContextDirectory d)) t0 ∧ (rest = [BCloseTar] ∨ rest = [BDisplay; BCloseTar])).
Proof.
  unfold Build. apply wp_bind. eapply wp_mono; [|apply createTar_prepares].
  intros t [[]| |] Ht; [|by left..]. cbn. intros [e|]; cbn.
  - intros _. right. by exists t, [BCloseTar]; split_and!; [..|left].
  - intros [|e|msg code]; cbn; intros _; right; exists t, [BDisplay; BCloseTar]; split_and!; try done; by right.
Qed.
End Build_lemmas.
