(* ===== verification/SaveMain.v ===== *)
(** * The program that saves the cloud configuration ([cmd/cloudinitsave/cloudinitsave.go]: Main, saveCloudConfig)

    The order of its steps: the network is configured, a source is chosen, the network is configured again with what was
    saved, and the clients of DHCP and of wireless networks are stopped in any case. *)

From stdpp Require Import prelude gmap strings list.
From S2P Require Import Prelude Prog Sources.

Local Open Scope string_scope.

(** What is read of the configuration. *)
Record save_config := {
  Datasources : list string;
  Network_DHCPTimeout : Z;
  Defaults_DHCPTimeout : Z;
}.

Inductive mcall :=
  | MInitLogger
  | MUdevSettle
  | MLoadConfig
  | MApplyNetworkConfig
  (** The choice among the sources; whether one was found. *)
  | MSelectDatasource (sources : list string)
  (** [ApplyNetworkConfigs] with a link-local address on an interface. *)
  | MApplyLinkLocal (interface : string) (timeout : Z)
  | MStopWpaSupplicant
  | MStopDhcpcd
  | MError (message : string).

Definition mans (c : mcall) : Type :=
  match c with
  | MUdevSettle => option string
  | MLoadConfig => save_config
  | MSelectDatasource _ => bool
  | MApplyLinkLocal _ _ => option string
  | _ => unit
  end.

Abbreviation mprog := (prog mans).
Definition mdo (c : mcall) : mprog (mans c) := invoke c.

Section Save.
(** The names of the sources that the options stand for. *)
Context (sources_of : list string → list string).

(** Without sources the network is left as it is configured; there is never an error. *)
Definition saveCloudConfig : mprog (option string) :=
  cfg ← mdo MLoadConfig;
  _ ← mdo MApplyNetworkConfig;
  match sources_of (Datasources cfg) with
  | [] => _ ← mdo (MError "currentDatasource - none found"); mret None
  | dss =>
      _ ← mdo (MSelectDatasource dss);
      _ ← mdo MLoadConfig;
      _ ← mdo MApplyNetworkConfig;
      mret None
  end.

Definition Main : mprog () :=
  _ ← mdo MInitLogger;
  err ← mdo MUdevSettle;
  _ ← match (err : option string) with Some e => mdo (MError ("Failed to run udev settle: " +:+ e)) | None => mret () end;
  err ← saveCloudConfig;
  _ ← match (err : option string) with Some e => mdo (MError ("Failed to save cloud-config: " +:+ e)) | None => mret () end;
  _ ← mdo MStopWpaSupplicant;
  mdo MStopDhcpcd.

(** For the metadata of DigitalOcean: the time for DHCP is that of the configuration, or the default. *)
Definition enableDoLinkLocal : mprog () :=
  cfg ← mdo MLoadConfig;
  let dhcpTimeout := if (0 <? Network_DHCPTimeout cfg)%Z then Network_DHCPTimeout cfg else Defaults_DHCPTimeout cfg in
  err ← mdo (MApplyLinkLocal "eth0" dhcpTimeout);
  match (err : option string) with Some e => mdo (MError ("Failed to apply link local on eth0: " +:+ e)) | None => mret () end.

(** ** Lemmas *)

(** The two clients are stopped last, whatever went wrong before; a source is chosen at most once, and only on a network
    that was configured, which is configured again afterwards. *)
Lemma Main_calls :
  wp Main (λ t r, r = Ok () ∧ ∃ before, t = (MInitLogger :: MUdevSettle :: before ++ [MStopWpaSupplicant; MStopDhcpcd])%list ∧
    ((∃ warn dss, before = (warn ++ [MLoadConfig; MApplyNetworkConfig; MSelectDatasource dss; MLoadConfig; MApplyNetworkConfig])%list ∧
                  dss ≠ []) ∨
     (∃ warn, before = (warn ++ [MLoadConfig; MApplyNetworkConfig; MError "currentDatasource - none found"])%list))).
Proof.
  cbn. intros _ [e|]; cbn; [intros _|]; intros cfg _; destruct (sources_of (Datasources cfg)) as [|ds dss] eqn:E; cbn.
  - intros _ _ []. split; [done|]. eexists [_; _; _; _]. split; [done|]. right. by exists [MError ("Failed to run udev settle: " +:+ e)].
  - intros found cfg' _ _ []. split; [done|]. eexists [_; _; _; _; _; _]. split; [done|]. left.
    by exists [MError ("Failed to run udev settle: " +:+ e)], (ds :: dss).
  - intros _ _ []. split; [done|]. eexists [_; _; _]. split; [done|]. right. by exists [].
  - intros found cfg' _ _ []. split; [done|]. eexists [_; _; _; _; _]. split; [done|]. left. by exists [], (ds :: dss).
Qed.
End Save.
