(* ===== verification/CommandTable.v ===== *)
(** * The tables of the commands ([cmd/control], [cmd/power/shutdown.go])

    The subcommands with their handlers and flags, and the flags each handler reads. The library of command lines gives
    a handler the value of a flag by one of its names; a flag that was not declared reads as its zero value. *)

From stdpp Require Import prelude strings list.
From S2P Require Import Prelude GoStrings.

Local Open Scope string_scope.

Inductive flag_kind := BoolFlag | BoolTFlag | StringFlag | IntFlag | StringSliceFlag.

#[global] Instance flag_kind_eq_dec : EqDecision flag_kind.
Proof. solve_decision. Defined.

(** The names of a flag, as the library splits them. *)
Definition flag_names (name : string) : list string := TrimSpace <$> Split name ",".

Record Command := {
  Name : string;
  Action : string;
  Before : option string;
  Flags : list (string * flag_kind);
}.

Definition command (name action : string) (flags : list (string * flag_kind)) : Command :=
  {| Name := name; Action := action; Before := None; Flags := flags |}.

(** ** The control program *)

Definition engineSubcommands : list Command := [
  command "switch" "engineSwitch" [("force, f", BoolFlag); ("no-pull", BoolFlag)];
  {| Name := "create"; Action := "engineCreate"; Before := Some "preFlightValidate";
     Flags := [("version, v", StringFlag); ("network", StringFlag); ("fixed-ip", StringFlag); ("ssh-port", StringFlag);
               ("authorized-keys", StringFlag)] |};
  {| Name := "rm"; Action := "dindEngineRemove"; Before := Some "one argument";
     Flags := [("timeout,t", IntFlag); ("force, f", BoolFlag)] |};
  command "enable" "engineEnable" [];
  command "list" "engineList" [("update, u", BoolFlag)]].

Definition consoleSubcommands : list Command := [
  command "switch" "consoleSwitch" [("force, f", BoolFlag); ("no-pull", BoolFlag)];
  command "enable" "consoleEnable" [];
  command "list" "consoleList" [("update, u", BoolFlag)]].

Definition configSubcommands : list Command := [
  command "get" "configGet" [];
  command "set" "configSet" [];
  command "images" "runImages" [("input, i", StringFlag)];
  command "generate" "runGenerate" [];
  command "export" "export" [("output, o", StringFlag); ("private, p", BoolFlag); ("full, f", BoolFlag)];
  command "merge" "merge" [("input, i", StringFlag)];
  command "syslinux" "editSyslinux" [];
  command "validate" "validate" [("input, i", StringFlag)]].

Definition tlsConfCommands : list Command := [
  command "generate" "tlsConfCreate" [("hostname, H", StringSliceFlag); ("server, s", BoolFlag); ("dir, d", StringFlag)]].

Definition serviceSubCommands : list Command := [
  command "enable" "enable" [];
  command "disable" "disable" [];
  command "list" "list" [("all, a", BoolFlag); ("update, u", BoolFlag)];
  command "delete" "del" []].

Definition osSubcommands : list Command := [
  command "upgrade" "osUpgrade"
    [("stage, s", BoolFlag); ("image, i", StringFlag); ("force, f", BoolFlag); ("no-reboot", BoolFlag); ("kexec, k", BoolFlag);
     ("append", StringFlag); ("upgrade-console", BoolFlag); ("debug", BoolFlag)];
  command "list" "osMetaDataGet" [("update, u", BoolFlag)];
  command "version" "osVersion" []].

Definition installCommand : Command :=
  command "install" "installAction"
    [("image, i", StringFlag); ("install-type, t", StringFlag); ("cloud-config, c", StringFlag); ("device, d", StringFlag);
     ("partition, p", StringFlag); ("statedir", StringFlag); ("force, f", BoolFlag); ("no-reboot", BoolFlag);
     ("append, a", StringFlag); ("rollback, r", StringFlag); ("isoinstallerloaded", BoolFlag); ("kexec, k", BoolFlag);
     ("save, s", BoolFlag); ("debug", BoolFlag)].

(** ** The flags that are read *)

(** The handlers, with what runs before them and what they call with the context of the command. *)
Definition reads (handler : string) : list (string * flag_kind) :=
  let table := [
    ("engineSwitch", []);
    ("preFlightValidate", [("version", StringFlag); ("authorized-keys", StringFlag); ("network", StringFlag);
                           ("fixed-ip", StringFlag); ("ssh-port", StringFlag)]);
    ("engineCreate", [("version", StringFlag); ("ssh-port", StringFlag); ("authorized-keys", StringFlag); ("network", StringFlag);
                      ("fixed-ip", StringFlag)]);
    ("dindEngineRemove", [("force", BoolFlag); ("timeout", IntFlag); ("v", BoolFlag)]);
    ("engineList", [("update", BoolFlag)]);
    ("consoleSwitch", [("force", BoolFlag); ("no-pull", BoolFlag)]);
    ("consoleList", [("update", BoolFlag)]);
    ("runImages", [("input", StringFlag)]);
    ("export", [("full", BoolFlag); ("private", BoolFlag); ("output", StringFlag)]);
    ("merge", [("input", StringFlag)]);
    ("validate", [("input", StringFlag)]);
    ("tlsConfCreate", [("server", BoolFlag); ("dir", StringFlag); ("hostname", StringSliceFlag)]);
    ("list", [("update", BoolFlag); ("all", BoolFlag)]);
    ("osUpgrade", [("image", StringFlag); ("stage", BoolFlag); ("force", BoolFlag); ("no-reboot", BoolFlag); ("kexec", BoolFlag);
                   ("upgrade-console", BoolFlag); ("debug", BoolFlag); ("append", StringFlag)]);
    ("osMetaDataGet", [("update", BoolFlag)]);
    ("installAction", [("debug", BoolFlag); ("append", StringFlag); ("force", BoolFlag); ("kexec", BoolFlag); ("no-reboot", BoolFlag);
                       ("isoinstallerloaded", BoolFlag); ("image", StringFlag); ("install-type", StringFlag); ("device", StringFlag);
                       ("partition", StringFlag); ("statedir", StringFlag); ("cloud-config", StringFlag); ("save", BoolFlag)])] in
  match list_find (λ hr : string * _, hr.1 = handler) table with Some (_, (_, r)) => r | None => [] end.

Definition reads_of (c : Command) : list (string * flag_kind) :=
  (reads (Action c) ++ match Before c with Some b => reads b | None => [] end)%list.

(** ** The power commands *)

(** The flag of the own name is set unless it is switched off. *)
Definition power_flags (app : string) : list (string * flag_kind) :=
  ([("f, force", BoolFlag);
    ("H, halt", if String.eqb app "halt" then BoolTFlag else BoolFlag)] ++
   (if String.eqb app "poweroff" then [("P, poweroff", BoolTFlag)]
    else ((if String.eqb app "shutdown" then [("h", BoolFlag)] else []) ++ [("P, poweroff", BoolFlag)])%list) ++
   (if String.eqb app "reboot"
    then [("r, reboot", BoolTFlag); ("kexec", BoolFlag); ("kexec-previous", BoolFlag); ("kexec-append", StringFlag)]
    else [("r, reboot", BoolFlag)]))%list.

(** ** Lemmas *)

Definition all_commands : list (string * list Command) := [
  ("engine", engineSubcommands); ("console", consoleSubcommands); ("config", configSubcommands); ("tls", tlsConfCommands);
  ("service", serviceSubCommands); ("os", osSubcommands); ("install", [installCommand])].

Definition names_of_flags (flags : list (string * flag_kind)) : list string := flags ≫= λ f, flag_names f.1.

(** No command has a name twice, nor a subcommand among its own. *)
Lemma names_unique :
  Forall (λ g : string * list Command, NoDup (Name <$> g.2) ∧ Forall (λ c, NoDup (names_of_flags (Flags c))) g.2) all_commands ∧
  Forall (λ app, NoDup (names_of_flags (power_flags app))) ["halt"; "poweroff"; "reboot"; "shutdown"].
Proof. split; repeat constructor; try (apply (bool_decide_unpack _); by vm_compute). Qed.

Definition declared (c : Command) (r : string * flag_kind) : bool :=
  existsb (λ f, existsb (String.eqb r.1) (flag_names f.1) && bool_decide (f.2 = r.2)) (Flags c).
Definition undeclared (c : Command) : list (string * string) :=
  (λ r, (Action c, r.1)) <$> filter (λ r : string * flag_kind, declared c r = false) (reads_of c).
Definition unread (c : Command) : list (string * string) :=
  (λ f, (Action c, f.1)) <$> filter (λ f : string * flag_kind, existsb (λ r : string * flag_kind, existsb (String.eqb r.1) (flag_names f.1)) (reads_of c) = false) (Flags c).

(** Every flag that is read is declared with its kind, but the one for the volumes of an engine; every flag that is declared
    is read, but those of the switch of an engine and the rollback of an installation. *)
Lemma flags_read_and_declared :
  (all_commands ≫= λ g, g.2 ≫= undeclared) = [("dindEngineRemove", "v")] ∧
  (all_commands ≫= λ g, g.2 ≫= unread) =
    [("engineSwitch", "force, f"); ("engineSwitch", "no-pull"); ("installAction", "rollback, r")].
Proof. by vm_compute. Qed.
