(* ===== verification/ComposeApp.v ===== *)
(** * Making and showing compose projects ([libcompose/docker/project.go], [project/project.go], [cli])

    The context that a project is made from with what it has by default, the services it creates, the loggers with their
    colours, the tables of [ps], and the commands of the compose library. The library of the command line, the client of
    docker and the writer of tables are calls or parameters. *)

From stdpp Require Import prelude gmap strings sorting list.
From S2P Require Import Prelude GoStrings Prog ProjectOps ServiceApp.
From S2P Require ComposeClient.

Local Open Scope string_scope.

(** ** Loggers ([cli/logger/color_logger.go], [colors.go]) *)

Definition colorOrder : list string :=
  ["36"; "33"; "32"; "35"; "31"; "34"; "36;1"; "33;1"; "32;1"; "35;1"; "31;1"; "34;1"].

Definition escape (code : string) : string := String "027" ("[" +:+ code +:+ "m").

(** What the generator sends after [i] others: the text before and after the name. *)
Definition colorPrefix (i : nat) : string * string :=
  (escape (default "" (colorOrder !! (i mod length colorOrder)%nat)), " |" +:+ escape "0").

(** The factory is shared by its loggers, and the generator by all factories. *)
Record ColorLoggerFactory := { maxLength : nat; tty : bool }.
Record ColorLogger := { logger_Name : string; logger_Prefix : string * string }.

Definition NewColorLoggerFactory (is_terminal : bool) : ColorLoggerFactory := {| maxLength := 0; tty := is_terminal |}.

Definition CreateLogger (c : ColorLoggerFactory * nat) (name : string) : ColorLogger * (ColorLoggerFactory * nat) :=
  let '(f, sent) := c in
  ({| logger_Name := name; logger_Prefix := colorPrefix sent |},
   ({| maxLength := Nat.max (maxLength f) (String.length name); tty := tty f |}, S sent)).

Fixpoint spaces (n : nat) : string := match n with O => "" | S n => String " " (spaces n) end.

(** The verb [%-ns] counts runes. *)
Definition pad_right (n : nat) (s : string) : string := s +:+ spaces (n - length (runes s)).

(** [Out] and [Err] differ in where the text goes; [None] when there is none. *)
Definition log_text (f : ColorLoggerFactory) (l : ColorLogger) (bytes : string) : option string :=
  if String.eqb bytes "" then None
  else
    let name := pad_right (maxLength f) (logger_Name l) in
    Some (if tty f then (logger_Prefix l).1 +:+ name +:+ (logger_Prefix l).2 +:+ " " +:+ bytes
          else name +:+ " | " +:+ bytes).

(** The loggers of the services, in the order in which they are created. *)
Fixpoint CreateLoggers (c : ColorLoggerFactory * nat) (names : list string) : list ColorLogger * (ColorLoggerFactory * nat) :=
  match names with
  | [] => ([], c)
  | name :: names =>
      let '(l, c) := CreateLogger c name in
      let '(ls, c) := CreateLoggers c names in (l :: ls, c)
  end.

(** ** The tables of [ps] ([info.go]) *)

(** A key and a value of every part. *)
Definition writeLine (key : bool) (info : list (string * string)) : string :=
  Join ((λ part, if key then part.1 else part.2) <$> info) (String "009" "") +:+ String "010" "".

(** The titles are those of the first service. [tabwriter] sets the text in columns. *)
Definition InfoSet_String (tabwriter : string → string) (infos : list (list (string * string))) (titleFlag : bool) : string :=
  tabwriter
    ((match infos with info :: _ => if titleFlag then writeLine true info else "" | [] => "" end) +:+
     Join (writeLine false <$> infos) "").

(** ** The context of a project ([docker/context.go], [docker/project.go]) *)

Inductive env_source := EnvFile (path : string) | OsEnv.
Inductive env_lookup := ComposableEnvLookup (Lookups : list env_source) | OtherEnvLookup.
Inductive resource_lookup := FileConfigLookup | OtherResourceLookup.
Inductive auth_lookup := ConfigAuthLookup | OtherAuthLookup.
Inductive service_factory := DockerServiceFactory | OtherServiceFactory.
Inductive logger_factory := NullLogger | ColorLoggers (f : ColorLoggerFactory) | OtherLogger.

(** The client of a factory is that of its options. *)
Inductive client_factory := DefaultClientFactory (opts : ComposeClient.Options) | OtherClientFactory.

(** Whatever is [None] is nil. *)
Record DockerContext := {
  dc_Context : Context;
  dc_ResourceLookup : option resource_lookup;
  dc_EnvironmentLookup : option env_lookup;
  dc_AuthLookup : option auth_lookup;
  dc_ServiceFactory : option service_factory;
  dc_ClientFactory : option client_factory;
  dc_LoggerFactory : option logger_factory;
  dc_ConfigDir : string;
  dc_ConfigFile : option string;
}.

(** The directory, a client, what the context does, the files that are loaded, and the configuration of docker. *)
Inductive ncall :=
  | NGetwd
  | NClient (opts : ComposeClient.Options)
  | NContext (c : ccall)
  | NLoad (file bytes : string)
  | NLoadConfig (dir : string)
  | NStat (file : string).

Definition nans (c : ncall) : Type :=
  match c with
  | NGetwd | NLoadConfig _ => result string
  | NClient _ | NLoad _ _ => result ()
  | NContext c => cans c
  | NStat _ => bool
  end.

Abbreviation nprog := (prog nans).
Definition ndo (c : ncall) : nprog (nans c) := invoke c.
Definition lift_n {A} (r : result A) : nprog A := Done r.

Fixpoint in_context {A} (p : cprog A) : nprog A :=
  match p with Done r => Done r | Call c k => Call (NContext c) (λ x, in_context (k x)) end.

(** Other factories are the callers' own. *)
Definition NewDefaultClientFactory (opts : ComposeClient.Options) : nprog client_factory :=
  x ← ndo (NClient opts); _ ← lift_n x; mret (DefaultClientFactory opts).

Definition no_options : ComposeClient.Options := {|
  ComposeClient.TLS := false; ComposeClient.TLSVerify := false; ComposeClient.CAFile := ""; ComposeClient.CertFile := "";
  ComposeClient.KeyFile := ""; ComposeClient.InsecureSkipVerify := false; ComposeClient.TrustKey := "";
  ComposeClient.Host := ""; ComposeClient.APIVersion := "" |}.

Definition default_env_lookup : nprog env_lookup :=
  x ← ndo NGetwd; cwd ← lift_n x; mret (ComposableEnvLookup [EnvFile (path_Join [cwd; ".env"]); OsEnv]).

(** What is nil gets its default. *)
Definition or_make {A} (o : option A) (make : nprog A) : nprog (option A) :=
  match o with Some a => mret (Some a) | None => a ← make; mret (Some a) end.

Definition LookupConfig (c : DockerContext) : nprog (option string) :=
  or_make (dc_ConfigFile c) (x ← ndo (NLoadConfig (dc_ConfigDir c)); lift_n x).

(** [Project.Parse], whose files are loaded one after the other. *)
Definition ParseProject (c : Context) : nprog Context :=
  cf ← in_context (Parse c);
  _ ← each (λ file : string * string, x ← ndo (NLoad file.1 file.2); lift_n x) cf.2;
  mret cf.1.

Definition NewProject (c : DockerContext) : nprog DockerContext :=
  environment ← or_make (dc_EnvironmentLookup c) default_env_lookup;
  clients ← or_make (dc_ClientFactory c) (NewDefaultClientFactory no_options);
  context ← ParseProject (dc_Context c);
  config ← LookupConfig c;
  mret {| dc_Context := context;
          dc_ResourceLookup := Some (default FileConfigLookup (dc_ResourceLookup c));
          dc_EnvironmentLookup := environment;
          dc_AuthLookup := Some (default ConfigAuthLookup (dc_AuthLookup c));
          dc_ServiceFactory := Some (default DockerServiceFactory (dc_ServiceFactory c));
          dc_ClientFactory := clients;
          dc_LoggerFactory := Some (default NullLogger (dc_LoggerFactory c));
          dc_ConfigDir := dc_ConfigDir c;
          dc_ConfigFile := config |}.

(** ** The factory of the command line ([cli/docker/app]) *)

Definition DockerClientFlags : list (string * bool) :=
  [("tls", true); ("tlsverify", true); ("tlscacert", false); ("tlscert", false); ("tlskey", false); ("configdir", false)].

(** A flag of the command and the flags before it. *)
Record app_cli := { GlobalBool : string → bool; GlobalString : string → string; GlobalStringSlice : string → list string;
                    CommandString : string → string }.

Definition client_options (c : app_cli) : ComposeClient.Options := {|
  ComposeClient.TLS := GlobalBool c "tls"; ComposeClient.TLSVerify := GlobalBool c "tlsverify";
  ComposeClient.CAFile := GlobalString c "tlscacert"; ComposeClient.CertFile := GlobalString c "tlscert";
  ComposeClient.KeyFile := GlobalString c "tlskey"; ComposeClient.InsecureSkipVerify := false; ComposeClient.TrustKey := "";
  ComposeClient.Host := ""; ComposeClient.APIVersion := "" |}.

(** The end of the process at an error is a panic here. *)
Definition Populate (context : DockerContext) (c : app_cli) : nprog DockerContext :=
  r ← attempt (NewDefaultClientFactory (client_options c));
  factory ← lift_n (match r with Err e => Panic ("Failed to construct Docker client: " +:+ e) | r => r end);
  mret {| dc_Context := dc_Context context; dc_ResourceLookup := dc_ResourceLookup context;
          dc_EnvironmentLookup := dc_EnvironmentLookup context; dc_AuthLookup := dc_AuthLookup context;
          dc_ServiceFactory := dc_ServiceFactory context; dc_ClientFactory := Some factory;
          dc_LoggerFactory := dc_LoggerFactory context; dc_ConfigDir := CommandString c "configdir";
          dc_ConfigFile := dc_ConfigFile context |}.

Definition compose_files (c : app_cli) : nprog (list string) :=
  match GlobalStringSlice c "file" with
  | [] =>
      found ← ndo (NStat "docker-compose.override.yml");
      mret ("docker-compose.yml" :: if found : bool then ["docker-compose.override.yml"] else [])
  | files => mret files
  end.

Definition new_context (is_terminal : bool) : DockerContext := {|
  dc_Context := {| ComposeFiles := []; ComposeBytes := None; ProjectName := ""; isOpen := false; IgnoreMissingConfig := false |};
  dc_ResourceLookup := None; dc_EnvironmentLookup := None; dc_AuthLookup := None; dc_ServiceFactory := None;
  dc_ClientFactory := None; dc_LoggerFactory := Some (ColorLoggers (NewColorLoggerFactory is_terminal));
  dc_ConfigDir := ""; dc_ConfigFile := None |}.

Definition ProjectFactory_Create (is_terminal : bool) (c : app_cli) : nprog DockerContext :=
  context ← Populate (new_context is_terminal) c;
  files ← compose_files c;
  NewProject
    {| dc_Context := {| ComposeFiles := files; ComposeBytes := None; ProjectName := GlobalString c "project-name";
                        isOpen := false; IgnoreMissingConfig := false |};
       dc_ResourceLookup := dc_ResourceLookup context; dc_EnvironmentLookup := dc_EnvironmentLookup context;
       dc_AuthLookup := dc_AuthLookup context; dc_ServiceFactory := dc_ServiceFactory context;
       dc_ClientFactory := dc_ClientFactory context; dc_LoggerFactory := dc_LoggerFactory context;
       dc_ConfigDir := dc_ConfigDir context; dc_ConfigFile := dc_ConfigFile context |}.

(** ** The services of a project ([project.go], [service-wrapper.go], [empty.go]) *)

Section Services.
Context {Config service : Type}.
(** The variables of a service in the order in which they are visited. *)
Context (Environment : Config → list (string * option string)) (set_Environment : environment → Config → Config).
Context (Create : string → Config → result service).

(** The service gets a copy of its configuration. *)
Definition Project_CreateService (EnvironmentLookup : option (Config → string → list string)) (configs : gmap string Config)
    (name : string) : result service :=
  match configs !! name with
  | None => Err ("Failed to find service: " +:+ name)
  | Some config =>
      Create name
        (match EnvironmentLookup with
         | Some Lookup => set_Environment (new_environment (Lookup config) (Environment config)) config
         | None => config
         end)
  end.

(** The wrappers up to the first service that cannot be created. *)
Fixpoint loadWrappers (Reset : string → result service) (wrappers : gmap string service) (names : list string) :
    gmap string service * result () :=
  match names with
  | [] => (wrappers, Ok ())
  | name :: names =>
      match Reset name with
      | Ok s => loadWrappers Reset (<[name := s]> wrappers) names
      | Err e => (wrappers, Err e)
      | Panic e => (wrappers, Panic e)
      end
  end.
End Services.

(** Every operation of an empty service is done at once; a run of it has the code 0. *)
Definition EmptyService_action (a : action) : option string := None.
Definition EmptyService_Run (commandParts : list string) : Z * option string := (0%Z, None).
Definition EmptyService_Info (qFlag : bool) : result (list (list (string * string))) := Ok [].
Definition EmptyService_Containers {container : Type} : result (list container) := Ok [].

(** ** The commands of the library that the system has too ([cli/app/app.go]) *)

Definition compose_ProjectPs (c : cli) : aprog exit :=
  x ← ask (XPs (Bool c "q") (Args c));
  match (x : result string) with
  | Ok text => _ ← ask (XPrint text); mret Done_
  | Err e => mret (NewExitError e 1)
  | Panic e => Done (Panic e)
  end.

Definition compose_ProjectStop (c : cli) : aprog exit := err ← ask (XStop (Int c "timeout") (Args c)); mret (ending err).
Definition compose_ProjectDown (c : cli) : aprog exit :=
  let options := {| DownRemoveVolume := Bool c "volumes"; RemoveImages := Str c "rmi"; RemoveOrphans := Bool c "remove-orphans" |} in
  err ← ask (XDown options (Args c)); mret (ending err).
Definition compose_ProjectBuild (c : cli) : aprog exit :=
  let config := {| NoCache := Bool c "no-cache"; ForceRemove := Bool c "force-rm"; BuildPull := Bool c "pull" |} in
  err ← ask (XBuild config (Args c)); mret (ending err).
Definition compose_ProjectCreate (c : cli) : aprog exit :=
  let options := {| NoRecreate := Bool c "no-recreate"; ForceRecreate := Bool c "force-recreate"; NoBuild := Bool c "no-build" |} in
  err ← ask (XCreate options (Args c)); mret (ending err).
Definition compose_ProjectStart (c : cli) : aprog exit := err ← ask (XStart (Args c)); mret (ending err).
Definition compose_ProjectRestart (c : cli) : aprog exit :=
  err ← ask (XRestart (Int c "timeout") (Args c)); mret (ending err).
Definition compose_ProjectLog (c : cli) : aprog exit := err ← ask (XLog (Bool c "follow") (Args c)); mret (ending err).
Definition compose_ProjectPull (c : cli) : aprog exit :=
  err ← ask (XPull (Args c));
  match (err : option string) with
  | Some e => mret (if Bool c "ignore-pull-failures" then Done_ else NewExitError e 1)
  | None => mret Done_
  end.

(** The question before a deletion, which counts as a no when it is not understood. *)
Definition compose_confirm (stoppedContainers : list string) : aprog bool :=
  _ ← ask (XPrint ("Going to remove " +:+ Join stoppedContainers ", " +:+ String "010" "" +:+ "Are you sure? [yN]"));
  x ← ask XScanln;
  match (x : result string) with
  | Ok answer => mret (bool_decide (answer = "y" ∨ answer = "Y"))
  | Err _ => mret false
  | Panic e => Done (Panic e)
  end.
Definition compose_ProjectDelete (c : cli) : aprog exit :=
  err ← ask (XDelete (Bool c "v") (negb (Bool c "force")) (Args c)); mret (ending err).
Definition compose_ProjectKill (c : cli) : aprog exit := err ← ask (XKill (Str c "signal") (Args c)); mret (ending err).

(** ** Lemmas *)

(** *** Loggers *)

Lemma length_runes_le s : (length (runes s) ≤ String.length s)%nat.
Proof.
  unfold runes. generalize 0%nat. induction s as [|c s IH]; intros [|n]; cbn; [lia|lia| |].
  - destruct (rune_at (String c s)) as [r w]. cbn. specialize (IH (w - 1)%nat). lia.
  - specialize (IH n). lia.
Qed.

Lemma runes_spaces n : length (runes (spaces n)) = n.
Proof. induction n as [|n IH]; [done|]. cbn [spaces]. rewrite runes_cons_ascii by done. cbn. by rewrite IH. Qed.

(** A name of no more than [n] bytes is written in [n] columns. *)
Lemma pad_right_width n s : (String.length s ≤ n)%nat → length (runes (pad_right n s)) = n.
Proof.
  intros H. pose proof (length_runes_le s) as Hs. unfold pad_right.
  destruct (n - length (runes s))%nat as [|m] eqn:E.
  - cbn [spaces]. rewrite app_empty_r. lia.
  - cbn [spaces]. rewrite runes_app_ascii by done. change (String " " (spaces m)) with (spaces (S m)).
    rewrite length_app, runes_spaces. lia.
Qed.

Lemma CreateLoggers_spec f sent names :
  let '(ls, (f', sent')) := CreateLoggers (f, sent) names in
  logger_Name <$> ls = names ∧ sent' = (sent + length names)%nat ∧ tty f' = tty f ∧ (maxLength f ≤ maxLength f')%nat ∧
  Forall (λ name, String.length name ≤ maxLength f')%nat names ∧
  ∀ i l, ls !! i = Some l → logger_Prefix l = colorPrefix (sent + i).
Proof.
  revert f sent. induction names as [|name names IH]; intros f sent; cbn.
  { split_and!; [done|lia|done|done|by constructor|done]. }
  specialize (IH {| maxLength := Nat.max (maxLength f) (String.length name); tty := tty f |} (S sent)).
  destruct (CreateLoggers _ names) as [ls [f' sent']]. cbn in IH. destruct IH as (Hn & Hs & Ht & Hm & Hf & Hp).
  split_and!; [by f_equal/=|lia|done|lia|constructor; [lia|done]|].
  intros [|i] l Hl; cbn in Hl; [by simplify_eq/=; rewrite Nat.add_0_r|].
  rewrite (Hp _ _ Hl). f_equal. lia.
Qed.

(** Twelve colours follow each other. *)
Lemma colorPrefix_period i : colorPrefix (i + 12) = colorPrefix i.
Proof.
  unfold colorPrefix. change (length colorOrder) with 12%nat.
  replace (i + 12)%nat with (i + 1 * 12)%nat by lia. by rewrite Nat.Div0.mod_add.
Qed.

Lemma colorPrefix_mod i : colorPrefix (i mod 12) = colorPrefix i.
Proof. unfold colorPrefix. change (length colorOrder) with 12%nat. by rewrite Nat.Div0.mod_mod. Qed.

Lemma colorPrefix_inj i j : colorPrefix i = colorPrefix j → (i mod 12 = j mod 12)%nat.
Proof.
  rewrite <-(colorPrefix_mod i), <-(colorPrefix_mod j).
  assert (Forall (λ a, Forall (λ b, colorPrefix a = colorPrefix b → a = b) (seq 0 12)) (seq 0 12)) as H
    by (apply (bool_decide_unpack _); by vm_compute).
  rewrite Forall_forall in H.
  assert (∀ k, (k mod 12)%nat ∈ seq 0 12) as Hk.
  { intros k. apply elem_of_seq. pose proof (Nat.mod_upper_bound k 12). lia. }
  specialize (H _ (Hk i)). rewrite Forall_forall in H. apply (H _ (Hk j)).
Qed.

(** Once the loggers of all services are made, every line has its bar in the same column, and two services next to each
    other in the order in which the loggers were made, up to a dozen, have different colours. *)
Lemma loggers_aligned is_terminal sent names ls f sent' :
  CreateLoggers (NewColorLoggerFactory is_terminal, sent) names = (ls, (f, sent')) →
  Forall (λ l, length (runes (pad_right (maxLength f) (logger_Name l))) = maxLength f) ls ∧
  ∀ i j li lj, ls !! i = Some li → ls !! j = Some lj → (i < j < i + 12)%nat → logger_Prefix li ≠ logger_Prefix lj.
Proof.
  intros E. pose proof (CreateLoggers_spec (NewColorLoggerFactory is_terminal) sent names) as H. rewrite E in H.
  destruct H as (Hn & _ & _ & _ & Hf & Hp). split.
  - rewrite <-Hn in Hf. apply Forall_fmap in Hf. eapply Forall_impl; [exact Hf|]. intros l Hl. by apply pad_right_width.
  - intros i j li lj Hi Hj Hij. rewrite (Hp _ _ Hi), (Hp _ _ Hj). intros Hc%colorPrefix_inj.
    pose proof (Nat.Div0.div_mod (sent + i) 12). pose proof (Nat.Div0.div_mod (sent + j) 12). lia.
Qed.

(** A logger that is made later, of a longer name, moves the bar of those that are there. *)
Example bar_moves :
  let '(l, c) := CreateLogger (NewColorLoggerFactory false, 0) "web" in
  let '(_, c') := CreateLogger c "database" in
  log_text c.1 l "x" = Some "web | x" ∧ log_text c'.1 l "x" = Some "web      | x".
Proof. by vm_compute. Qed.

(** *** Making a project *)

Definition keeps {A} (o o' : option A) : Prop := is_Some o' ∧ ∀ a, o = Some a → o' = Some a.

Lemma or_make_keeps {A} (o : option A) make (Q : list ncall → result (option A) → Prop) :
  wp make (λ t r, match r with Ok a => o = None → Q t (Ok (Some a)) | Err e => Q t (Err e) | Panic e => Q t (Panic e) end) →
  (∀ a, o = Some a → Q [] (Ok (Some a))) → wp (or_make o make) Q.
Proof.
  intros Hm Hs. destruct o as [a|]; cbn; [by apply Hs|]. apply wp_bind. eapply wp_mono, Hm.
  intros t [a|e|e]; cbn; [|done..]. rewrite app_nil_r. auto.
Qed.

Lemma wp_in_context {A} (p : cprog A) Q : wp p (λ t r, Q (NContext <$> t) r) → wp (in_context p) Q.
Proof. revert Q. induction p as [r|c k IH]; intros Q; cbn; [done|]. intros H x. by apply IH. Qed.

(** A project is made of all that it was given, and lacks nothing then; no file is loaded before there is a client, and
    the configuration of docker is read when all files are loaded. *)
Definition ncall_rank (c : ncall) : nat :=
  match c with NGetwd => 0 | NClient _ => 1 | NStat _ => 2 | NContext _ => 2 | NLoad _ _ => 3 | NLoadConfig _ => 4 end.

Definition ranked (lo hi : nat) (t : list ncall) : Prop :=
  StronglySorted Nat.le (ncall_rank <$> t) ∧ Forall (λ c, lo ≤ ncall_rank c ≤ hi)%nat t.

Lemma ranked_nil lo hi : ranked lo hi [].
Proof. split; constructor. Qed.

Lemma ranked_one c : ranked (ncall_rank c) (ncall_rank c) [c].
Proof. split; repeat constructor. Qed.

Lemma ranked_weaken lo hi lo' hi' t : (lo' ≤ lo)%nat → (hi ≤ hi')%nat → ranked lo hi t → ranked lo' hi' t.
Proof. intros ?? [S F]. split; [done|]. eapply Forall_impl; [exact F|]. cbn. lia. Qed.

Lemma ranked_app lo mid hi t t' : ranked lo mid t → ranked mid hi t' → (lo ≤ mid ≤ hi)%nat → ranked lo hi (t ++ t').
Proof.
  intros [S F] [S' F'] H. split.
  - rewrite fmap_app. apply StronglySorted_app_2; [|done|done].
    intros x y (c & -> & Hc)%list_elem_of_fmap (c' & -> & Hc')%list_elem_of_fmap.
    rewrite Forall_forall in F, F'. specialize (F _ Hc). specialize (F' _ Hc'). unfold Nat.le. lia.
  - apply Forall_app. split; (eapply Forall_impl; [eassumption|]); cbn; lia.
Qed.

Lemma ranked_bind {A B} lo mid hi (p : nprog A) (f : A → nprog B) (R : A → Prop) (R' : B → Prop) :
  (lo ≤ mid ≤ hi)%nat →
  wp p (λ t r, ranked lo mid t ∧ ∀ a, r = Ok a → R a) →
  (∀ a, R a → wp (f a) (λ t r, ranked mid hi t ∧ ∀ b, r = Ok b → R' b)) →
  wp (p ≫= f) (λ t r, ranked lo hi t ∧ ∀ b, r = Ok b → R' b).
Proof.
  intros Hl Hp Hf. apply wp_bind. eapply wp_mono, Hp. intros t [a|e|e] [Ht HR].
  - eapply wp_mono, (Hf a); [|by apply HR]. intros t' r [Ht' HR']. split; [by eapply ranked_app|done].
  - split; [by eapply ranked_weaken, Ht; lia|done].
  - split; [by eapply ranked_weaken, Ht; lia|done].
Qed.

(** Calls of one kind. *)
Definition only_rank (k : nat) (t : list ncall) : Prop := Forall (λ c, ncall_rank c = k) t.

Lemma only_rank_ranked k t : only_rank k t → ranked k k t.
Proof.
  unfold only_rank, ranked. intros H. split; [|eapply Forall_impl; [exact H|]; cbn; lia].
  induction H as [|c t Hc Ht IH]; cbn; [constructor|]. constructor; [done|].
  apply Forall_fmap. eapply Forall_impl; [exact Ht|]. cbn. unfold Nat.le. lia.
Qed.

Lemma only_rank_ok {A} k (p : nprog A) (R : A → Prop) :
  wp p (λ t r, only_rank k t ∧ ∀ a, r = Ok a → R a) → wp p (λ t r, ranked k k t ∧ ∀ a, r = Ok a → R a).
Proof. apply wp_mono. intros t r [H HR]. split; [by apply only_rank_ranked|done]. Qed.

Lemma ParseProject_ranked c : wp (ParseProject c) (λ t r, ranked 2 3 t ∧ ∀ c', r = Ok c' → True).
Proof.
  unfold ParseProject. apply (ranked_bind 2 2 3 _ _ (λ _, True) (λ _, True)); [lia| |].
  - apply only_rank_ok, wp_in_context. eapply wp_mono, wp_true. intros t r _. split; [|done].
    apply Forall_fmap, Forall_true. done.
  - intros cf _. apply (ranked_bind 2 3 3 _ _ (λ _, True) (λ _, True)); [lia| |].
    + eapply wp_mono; [|apply (wp_each _ _ (ranked 3 3))].
      * intros t r H. split; [by eapply ranked_weaken, H; lia|done].
      * apply ranked_nil.
      * intros t t' H H'. by eapply ranked_app.
      * intros file _ x. apply (ranked_one (NLoad file.1 file.2)).
    + intros _ _. cbn. split; [apply ranked_nil|done].
Qed.

Definition complete (c c' : DockerContext) : Prop :=
  keeps (dc_ResourceLookup c) (dc_ResourceLookup c') ∧ keeps (dc_EnvironmentLookup c) (dc_EnvironmentLookup c') ∧
  keeps (dc_AuthLookup c) (dc_AuthLookup c') ∧ keeps (dc_ServiceFactory c) (dc_ServiceFactory c') ∧
  keeps (dc_ClientFactory c) (dc_ClientFactory c') ∧ keeps (dc_LoggerFactory c) (dc_LoggerFactory c') ∧
  keeps (dc_ConfigFile c) (dc_ConfigFile c').

Lemma keeps_default {A} (o : option A) d : keeps o (Some (default d o)).
Proof. split; [done|]. by intros a ->. Qed.

Lemma or_make_ranked {A} k (o : option A) (make : nprog A) :
  wp make (λ t _, only_rank k t) → wp (or_make o make) (λ t r, ranked k k t ∧ ∀ o', r = Ok o' → keeps o o').
Proof.
  intros H. apply only_rank_ok, or_make_keeps.
  - eapply wp_mono, H. intros t [a|e|e] Ht; [|by split..]. intros ->. split; [done|]. intros o' [= <-]. by split.
  - intros a ->. split; [by constructor|]. intros o' [= <-]. by split.
Qed.

Lemma NewProject_complete c : wp (NewProject c) (λ t r, ranked 0 4 t ∧ ∀ c', r = Ok c' → complete c c').
Proof.
  unfold NewProject. eapply (ranked_bind 0 0 4); [lia|apply or_make_ranked|].
  { intros x. destruct x; repeat constructor. }
  intros environment He. eapply (ranked_bind 0 1 4); [lia|eapply wp_mono, (or_make_ranked 1)|].
  { intros t r [H H']. split; [by eapply ranked_weaken, H; lia|exact H']. }
  { intros x. destruct x; repeat constructor. }
  intros clients Hc. eapply (ranked_bind 1 3 4); [lia|eapply wp_mono, ParseProject_ranked|].
  { intros t r [H H']. split; [by eapply ranked_weaken, H; lia|exact H']. }
  intros context _. eapply (ranked_bind 3 4 4); [lia|eapply wp_mono, (or_make_ranked 4)|].
  { intros t r [H H']. split; [by eapply ranked_weaken, H; lia|exact H']. }
  { intros x. destruct x; repeat constructor. }
  intros config Hf. cbn. split; [apply ranked_nil|]. intros c' [= <-].
  unfold complete; cbn. split_and!; auto using keeps_default.
Qed.

(** *** Services and commands *)

(** Without an error there is a wrapper of every service; with one, those before it are there. *)
Lemma loadWrappers_spec {service} (Reset : string → result service) wrappers names :
  ∃ done_ rest, names = (done_ ++ rest)%list ∧ dom (loadWrappers Reset wrappers names).1 = dom wrappers ∪ list_to_set done_ ∧
  ((loadWrappers Reset wrappers names).2 = Ok () ↔ rest = []).
Proof.
  revert wrappers. induction names as [|name names IH]; intros wrappers; cbn.
  - exists [], []. split_and!; [done|set_solver|done].
  - destruct (Reset name) as [s|e|e] eqn:E; cbn.
    + destruct (IH (<[name := s]> wrappers)) as (d & r & -> & Hd & Hr). exists (name :: d), r.
      split_and!; [done|rewrite Hd; set_solver|done].
    + exists [], (name :: names). split_and!; [done|set_solver|done].
    + exists [], (name :: names). split_and!; [done|set_solver|done].
Qed.

(** The commands of the system do what those of the library do, but for the log in the foreground. *)
Lemma library_commands_agree {W} (h : ∀ c, W → xans c * W) c w :
  Forall (λ p : (cli → aprog exit) * (cli → aprog exit), run h (p.1 c) w = run h (p.2 c) w)
    [(compose_ProjectPs, ProjectPs); (compose_ProjectStop, ProjectStop); (compose_ProjectDown, ProjectDown);
     (compose_ProjectBuild, ProjectBuild); (compose_ProjectCreate, ProjectCreate); (compose_ProjectStart, ProjectStart);
     (compose_ProjectRestart, ProjectRestart); (compose_ProjectLog, ProjectLog); (compose_ProjectPull, ProjectPull);
     (compose_ProjectDelete, ProjectDelete); (compose_ProjectKill, ProjectKill)].
Proof.
  repeat constructor. cbn. destruct (h (XPull (Args c)) w) as [[e|] w']; cbn; by destruct (Bool c _).
Qed.
