(* ===== verification/Loading.v ===== *)
(** * The loaders of the configuration and of a compose file ([config/disk.go], [validate.go], [libcompose/config/merge.go])

    What the other components call to get a configuration, strictly or not, and how a compose file of either version is
    loaded. YAML, the JSON schema and the conversion to the types are parameters. *)

From stdpp Require Import prelude gmap strings list.
From S2P Require Import Prelude GoStrings RawTree ConfigData CloudInitEnv Cmdline DiskConfig Logging.

Local Open Scope string_scope.

(** ** The configuration ([disk.go], [config.go], [validate.go], [types.go]) *)

Section Load.
Context (Unmarshal : string → option val) (UnmarshalMap : string → option rawmap) (UnmarshalMetadata : string → Metadata).
Context (Convert : rawmap → option CloudConfig) (Getenv : string → string).
(** The schema library on a document, and the conversion of a configuration to a tree. *)
Context {report : Type} (gojsonschema_Validate : val → result report).
Context (ConvertIgnoreOmitEmpty : CloudConfig → result rawmap).

Abbreviation LoadConfigWithPrefix := (DiskConfig.LoadConfigWithPrefix Unmarshal UnmarshalMap UnmarshalMetadata Convert Getenv).
Abbreviation loadRawConfigWithError := (DiskConfig.loadRawConfigWithError Unmarshal UnmarshalMap UnmarshalMetadata Convert Getenv).
Abbreviation loadRawConfig := (DiskConfig.loadRawConfig Unmarshal UnmarshalMap UnmarshalMetadata Convert Getenv).

(** With the level that the loggers get. *)
Definition LoadConfig (d : disk) (cmdline : option string) : result (CloudConfig * Level) :=
  cfg ← LoadConfigWithPrefix d cmdline "";
  Ok (cfg, if rc_Debug (cc_Rancher cfg) then DebugLevel else InfoLevel).

Definition ValidateRawCfg (rawCfg : val) : result report := v ← ConvertKeysToStrings rawCfg; gojsonschema_Validate v.

(** A document of the map type with strings as its keys. *)
Definition ValidateBytes (UnmarshalStrings : string → result (gmap string val)) (bytes : string) : result report :=
  rawCfg ← UnmarshalStrings bytes; ValidateRawCfg (VSMap rawCfg).

(** A tree that is no configuration gives what the schema finds; the error of the conversion is dropped. *)
Definition LoadConfigWithError (d : disk) (cmdline : option string) : result (CloudConfig + report) :=
  rawCfg ← loadRawConfigWithError d cmdline "" true;
  match Convert (default ∅ rawCfg) with
  | None => inr <$> ValidateRawCfg (VMap (default ∅ rawCfg))
  | Some cfg => inl <$> amendContainerNames (amendNils cfg)
  end.

Definition Get (d : disk) (cmdline : option string) (key : string) : result val :=
  cfg ← LoadConfig d cmdline; data ← ConvertIgnoreOmitEmpty cfg.1; Ok (GetOrSetVal Unmarshal key data (VScalar SNil)).1.

(** *** A strict load is a lenient one in which nothing was passed over. *)

(** The files that are read. *)
Definition config_files (d : disk) : list string :=
  [OsConfigFile; OemConfigFile] ++ CloudConfigDirFiles d "" ++ [path_Join [""; CloudConfigFile]].

Definition good_file (d : disk) (file : string) : bool :=
  is_ok (file_layer UnmarshalMap UnmarshalMetadata Convert Getenv d true file).

Lemma readConfigs_strict d files :
  if forallb (good_file d) files
  then readConfigs UnmarshalMap UnmarshalMetadata Convert Getenv d "" true true files =
       readConfigs UnmarshalMap UnmarshalMetadata Convert Getenv d "" true false files
  else ∃ e, readConfigs UnmarshalMap UnmarshalMetadata Convert Getenv d "" true true files = Err e.
Proof.
  pose proof (read_files_strict UnmarshalMap UnmarshalMetadata Convert Getenv d true files ∅) as H.
  unfold readConfigs. rewrite read_files_lenient.
  change (forallb (good_file d) files) with
    (forallb (λ f, is_ok (file_layer UnmarshalMap UnmarshalMetadata Convert Getenv d true f)) files).
  destruct (forallb _ files); [by rewrite H|]. destruct H as [e ->]. by exists e.
Qed.

Lemma loadRawConfig_strict d cmdline :
  if forallb (good_file d) (config_files d)
  then loadRawConfigWithError d cmdline "" true = loadRawConfig d cmdline "" true
  else ∃ e, loadRawConfigWithError d cmdline "" true = Err e.
Proof.
  unfold DiskConfig.loadRawConfigWithError, DiskConfig.loadRawConfig, loadRawDiskConfigWithError, loadRawDiskConfig.
  unfold config_files. rewrite forallb_app.
  pose proof (readConfigs_strict d [OsConfigFile; OemConfigFile]) as H1.
  pose proof (readConfigs_strict d (CloudConfigDirFiles d "" ++ [path_Join [""; CloudConfigFile]])) as H2.
  destruct (forallb (good_file d) [OsConfigFile; OemConfigFile]); cbn [andb]; [|destruct H1 as [e ->]; by exists e].
  rewrite H1.
  destruct (readConfigs _ _ _ _ d "" true false [OsConfigFile; OemConfigFile]) as [rawCfg|e|e] eqn:E; cbn [mbind result_bind];
    [|unfold readConfigs in E; by rewrite read_files_lenient in E..].
  destruct (forallb (good_file d) (_ ++ _)); [by rewrite H2|]. destruct H2 as [e ->]. by exists e.
Qed.

(** The strict loader gives a configuration exactly when every file is missing, empty or a configuration, and the lenient
    one gives the same: what is checked before a reboot is what the next boot reads. *)
Lemma LoadConfigWithError_strict d cmdline cfg :
  LoadConfigWithError d cmdline = Ok (inl cfg) ↔
  forallb (good_file d) (config_files d) = true ∧ LoadConfigWithPrefix d cmdline "" = Ok cfg.
Proof.
  unfold LoadConfigWithError, DiskConfig.LoadConfigWithPrefix.
  pose proof (loadRawConfig_strict d cmdline) as H.
  destruct (forallb _ (config_files d)); [rewrite H|destruct H as [e ->]; cbn; split; [done|by intros [Hf _]]].
  destruct (loadRawConfig d cmdline "" true) as [rawCfg|e|e]; cbn -[amendContainerNames amendNils ValidateRawCfg];
    [|split; [done|by intros [_ [=]]]..].
  destruct (Convert (default ∅ rawCfg)) as [c|].
  - destruct (amendContainerNames (amendNils c)) as [c'|e|e]; cbn; [|split; [by intros [=]|by intros [_ [=]]]..].
    split; [by intros [= ->]|by intros [_ [= ->]]].
  - split; [|by intros [_ [=]]]. generalize (ValidateRawCfg (VMap (default ∅ rawCfg))). by intros [].

Qed.
End Load.

(** The variables of the build, and what they are when it does not set them. *)
Record versions := { Version : string; Arch : string; Suffix : string; OsBase : string }.

Definition default_text (s d : string) : string := if String.eqb s "" then d else s.

Definition versions_init (GOARCH OsRepo : string) (v : versions) : versions :=
  let version := default_text (Version v) "v0.0.0-dev" in
  let arch := default_text (Arch v) GOARCH in
  let suffix := if String.eqb (Suffix v) "" && negb (String.eqb arch "amd64") then "_" +:+ arch else Suffix v in
  {| Version := version; Arch := arch; Suffix := suffix;
     OsBase := default_text (OsBase v) (OsRepo +:+ "/os-base:" +:+ version +:+ suffix) |}.

(** Machines of the usual kind have no suffix. *)
Lemma amd64_image OsRepo :
  OsBase (versions_init "amd64" OsRepo {| Version := "v2.0.0"; Arch := ""; Suffix := ""; OsBase := "" |}) =
  OsRepo +:+ "/os-base:v2.0.0".
Proof. done. Qed.

(** ** Compose files ([merge.go], [merge_v2.go], [convert.go]) *)

Section Compose.
Context {config_v1 config volume network options : Type}.
(** The version of a file; what it says of volumes and networks, of any type, and the conversions to theirs. *)
Context (Unmarshal_Version : string → result string).
Context {raw : Type} (Unmarshal_Volumes Unmarshal_Networks : string → result raw).
Context (Convert_volumes : raw → result (gmap string volume)) (Convert_networks : raw → result (gmap string network)).
(** The merges of both versions, with the options that are given or else the usual ones. *)
Context (MergeServicesV1 : options → string → string → result (gmap string config_v1)).
Context (MergeServicesV2 : options → string → string → result (gmap string config)).
Context (ConvertV1Services : gmap string config_v1 → gmap string config).
Context (Restart : config → string) (set_Restart : string → config → config).
Context (defaultParseOptions : options) (Postprocess : options → option (gmap string config → result (gmap string config))).

Definition ParseVolumes (bytes : string) : result (gmap string volume) := r ← Unmarshal_Volumes bytes; Convert_volumes r.
Definition ParseNetworks (bytes : string) : result (gmap string network) := r ← Unmarshal_Networks bytes; Convert_networks r.

(** [adjustValues]: YAML reads the policy no as a boolean. *)
Definition adjust_restart (c : config) : config := if String.eqb (Restart c) "false" then set_Restart "no" c else c.

(** Maps that are nil are [None]. *)
Definition Merge_file (o : option options) (file bytes : string) :
    result (gmap string config * option (gmap string volume) * option (gmap string network)) :=
  let o := default defaultParseOptions o in
  version ← Unmarshal_Version bytes;
  '(services, volumes, networks) ←
    (if String.eqb version "2" then
       services ← MergeServicesV2 o file bytes;
       volumes ← ParseVolumes bytes;
       networks ← ParseNetworks bytes;
       Ok (services, Some volumes, Some networks)
     else
       v1 ← MergeServicesV1 o file bytes; Ok (ConvertV1Services v1, None, None));
  let services := adjust_restart <$> services in
  services ← (match Postprocess o with Some f => f services | None => Ok services end);
  Ok (services, volumes, networks).

(** No version but 2 has volumes or networks of its own, and without a processing afterwards no service has the policy
    that YAML reads. *)
Lemma Merge_file_v1 o file bytes services volumes networks :
  (∀ c, Restart (set_Restart "no" c) = "no") → (∀ o, Postprocess o = None) →
  Merge_file o file bytes = Ok (services, volumes, networks) →
  map_Forall (λ _ c, Restart c ≠ "false") services ∧
  (is_Some volumes ↔ Unmarshal_Version bytes = Ok "2") ∧ (is_Some networks ↔ Unmarshal_Version bytes = Ok "2").
Proof.
  intros Hset Hpost. unfold Merge_file. destruct (Unmarshal_Version bytes) as [v|e|e]; cbn; [|done..].
  assert (∀ m : gmap string config, map_Forall (λ _ c, Restart c ≠ "false") (adjust_restart <$> m)) as Hadj.
  { intros m k c (c0 & <- & _)%lookup_fmap_Some. unfold adjust_restart.
    destruct (String.eqb_spec (Restart c0) "false"); [by rewrite Hset|done]. }
  rewrite Hpost. destruct (String.eqb_spec v "2") as [->|Hv].
  - destruct (MergeServicesV2 _ file bytes) as [s|e|e]; cbn; [|done..].
    destruct (ParseVolumes bytes) as [vs|e|e]; cbn; [|done..]. destruct (ParseNetworks bytes) as [ns|e|e]; cbn; [|done..].
    intros [= <- <- <-]. by split_and!; [apply Hadj|split..].
  - destruct (MergeServicesV1 _ file bytes) as [s|e|e]; cbn; [|done..].
    intros [= <- <- <-]. split_and!; [apply Hadj|split; [by intros []|congruence]..].
Qed.
End Compose.
